(* ===== verification/_CoqProject ===== *)
-Q . S2P
Prelude.v
Spinlock.v
Kalloc.v
Pipe.v
Cstring.v
Proc.v
ProcSys.v
ProcInv.v
ProcSafe.v
Sleeplock.v
Bio.v
BioInv.v
Log.v
LogInv.v
Crash.v
LogOps.v
Sh.v
ShParse.v
ShRun.v
Format.v
User.v
Grep.v
Kbd.v
Console.v
Blocks.v
Fs.v
FsAlloc.v
FsFile.v
FsInode.v
FsRw.v
FsDir.v
FsDemo.v
File.v
FsCrash.v
Sysfile.v
FileInv.v
FileDemo.v
Vm.v
VmTab.v
VmInv.v
VmKern.v
VmUser.v
VmSafe.v
VmDemo.v
Seg.v
Trap.v
TrapSafe.v
Ide.v
IdeSafe.v
IdeDemo.v
Exec.v
ExecImg.v
ExecSafe.v
ExecProg.v
ExecDemo.v
Mkfs.v
MkfsInv.v
MkfsImage.v
MkfsMain.v
Umalloc.v
UmallocInv.v
UmallocSafe.v
Mp.v
Boot.v
BootDemo.v
Hw.v
Apic.v
Rtc.v
Uart.v
Smp.v
