(* ===== verification/Prelude.v ===== *)
(** * xv6 with priorities and character devices: a verification library

    The repository holds xv6 for the x86 (a small Unix: boot loader, kernel,
    shell and user programs) with a priority scheduler, the system calls
    nice, cps and shutdown, and four character devices.  This library models
    the C code of the kernel, of mkfs and of most user programs, and proves
    what makes each part correct.

    ** Conventions

    This file has what all others use.  C code is a function on an explicit
    state, in the monad [M S A := S -> outcome S A]: [Ret] is a normal return,
    [Panic] is the kernel's panic, a failed assertion or undefined behaviour
    ([undefined]), [Sleep chan s] is a call of sleep (or of sched) that gives
    up the CPU on a channel, and [Hang] is a loop that does not end or has run
    out of fuel.  Machine integers are [Z] with their wrap-around written out
    ([u8], [u16], [u32], [i32]); bytes are [Z] below 256, and words are stored
    in little-endian order ([le_enc], [le_dec]).  Pointers into arrays of the
    kernel are indices.  A function that sleeps is given in segments, from its
    call or its wake-up to its return or its next sleep; what other processors
    and processes do meanwhile is a step relation, and the theorems hold for
    every interleaving ([star], [lstar] with labels).  Code that is not part
    of the repository is a parameter: the disk controller, the serial chip,
    the clock, the BIOS tables, the host files of mkfs.  What is assumed of
    it is a class or a record of laws that a witness instantiates.

    ** Parts, files and theorems

    Locks.  Spinlock.v (spinlock.c): pushcli and popcli on one CPU (module
    Cli); acquire and release access by access on any number of CPUs (module
    Lock), with mutual exclusion.  Sleeplock.v (sleeplock.c): mutual exclusion,
    and a sleeper is woken by the release of the lock it waits for.

    Memory.  Kalloc.v (kalloc.c, memlayout.h): the free list through the pages,
    filled at boot, and that pages are never lost or handed out twice.  Vm.v
    (vm.c, mmu.h): page tables in that memory.  VmTab.v and VmInv.v: page
    tables as finite maps, and what each operation does to them and to the
    free list.  VmKern.v: setupkvm and copyuvm; VmUser.v: user memory through
    the table.  VmSafe.v: any sequence of the operations of proc.c and exec.c on any
    number of address spaces; safety, isolation, fork, growth.  VmDemo.v: a
    machine to run them in.  Seg.v (mmu.h, seginit, switchuvm, tvinit):
    descriptors and registers.

    Processes.  Proc.v (proc.c): the table and every function on it; the
    functions of other components that proc.c calls are the class [Services].
    ProcSys.v: the steps of all CPUs.  ProcInv.v, ProcSafe.v: one CPU per
    process, one holder of the table lock, living parents, unique ids, no
    lost wake-up in wait, sched never panics.  Trap.v (trap.c, syscall.c,
    sysproc.c, usys.S, kshutdown.c, cps of proc.c): traps and system calls;
    TrapSafe.v: every stub reaches the function of its name, a killed
    process never returns to user code, sleep(n) returns.

    Programs.  Exec.v (exec.c, elf.h, loaduvm), ExecImg.v, ExecSafe.v,
    ExecProg.v, ExecDemo.v: exec loads exactly what the ELF file says, sets
    up the stack, or leaves everything as it was; it succeeds when the file
    is valid and there is memory.

    Disk.  Bio.v, BioInv.v (bio.c over memide.c): the cache is an array of
    blocks.  Ide.v, IdeSafe.v, IdeDemo.v (ide.c): the driver, port by port,
    refines a disk that serves requests in the order of the calls, and wakes
    each caller.  Log.v, LogInv.v, Crash.v, LogOps.v (log.c): commit, recovery,
    crash safety, and the reservation of log space.

    Files.  Blocks.v: the interface of blocks that fs.c is proved against
    ([BlockIO], [BlockLaws]), with the cache and log as its instance.  Fs.v
    (fs.c): the whole file system.  FsAlloc.v, FsFile.v, FsInode.v, FsRw.v,
    FsDir.v: bitmap, blocks of files, inodes, read and write, directories.
    File.v (file.c, pipealloc), Pipe.v (pipe.c), Sysfile.v (sysfile.c and the
    argument fetching of syscall.c), FileInv.v: open files, descriptors
    and pipes stay consistent under every system call.  FsCrash.v: a write of
    a file is atomic down to the disk.  FsDemo.v, FileDemo.v: a small file
    system.  Mkfs.v, MkfsInv.v, MkfsImage.v, MkfsMain.v (mkfs.c): the image is
    consistent in the sense of the kernel's theorems and has every file.

    Console and devices.  Kbd.v (kbd.c, kbd.h), Console.v (console.c, uart.c,
    procdump): the console refines an abstract terminal.  Uart.v (uart.c):
    the code that drives the chip implements the serial port of Console.v.
    Format.v (printf.c, cprintf, dTicks.c, dHello.c, dNull.c, dZero.c):
    formatted output and the character devices.

    Start.  Boot.v, BootDemo.v (bootmain.c): the kernel is loaded.  Mp.v (mp.c,
    mp.h): the processors are found.  Hw.v: accesses to device registers as
    a history.  Apic.v (lapic.c, ioapic.c, picirq.c): interrupts are enabled and
    routed.  Rtc.v (cmostime): the date read is one that the clock showed.
    Smp.v (startothers of main.c): each processor is started on its own
    stack.

    User programs.  Cstring.v (string.c and the routines of ulib.c), Umalloc.v,
    UmallocInv.v, UmallocSafe.v (umalloc.c): the heap.  Sh.v, ShParse.v,
    ShRun.v (sh.c): the parser against a grammar, and the system calls of a
    command line.  User.v (cat.c, wc.c, echo.c, countUD.c), Grep.v (grep.c).

    ** Bounds and fuel

    Counted loops of the source are structural recursion on their count.
    Other loops have fuel that depends on their arguments, and the theorems
    show a result, so the fuel is enough: the parser of the shell has the
    length of the line (parse_terminates), readi and writei one turn for each
    block, loaduvm, allocuvm and the like one for each page, main of the
    shell one for each byte of input.  mpinit may run for ever in the source,
    on a table with an unknown entry; there the model gives [Hang].  Loops
    that poll a device have a number of polls as a parameter, and the law that the
    device answers within it is a hypothesis.  The loop of sys_sleep has one
    turn for each time the process is scheduled, and its theorem bounds them by the
    number of ticks.  Theorems that need a bound on sizes state it: arguments of exec
    below 32 MB, malloc below 2^31 - 16 bytes, fewer than 2^31 processes for
    unique ids.

    ** Not modelled

    The assembly code (bootasm.S, entry.S, entryother.S, swtch.S, trapasm.S,
    initcode.S, vectors.pl): the switch of stacks and the saving of registers
    are what the continuations of ProcSys.v and the trap frames of Trap.v
    stand for.  Caches and reordering of memory accesses: a step of
    Spinlock.v is one access, in program order.  main.c but for startothers:
    it calls the initialisation of each component.  init, ls, ln, rm, mkdir,
    kill, nice, ps, shutdown and the programs that test devices only make
    system calls and print; usertests, stressfs and forktest test the system.
    Calls of the file system inside exec are an interface ([Files]) whose
    operations return: the panics of fs.c are part of the model of fs.c, not
    of the model of exec.  A request to write a sector is assumed to be carried out
    by the disk; errors of reads are modelled.  The text that some functions
    print to the console is left out where their file says so. *)

From stdpp Require Export base list gmap strings sets.
From Stdlib Require Export ZArith Lia.

Declare Scope xv6_scope.
Delimit Scope xv6_scope with xv6.
Global Open Scope Z_scope.
Global Open Scope xv6_scope.

(** ** Machine integers

    [uint], [ushort] and [uchar] of types.h are [Z] kept in range by explicit
    reduction; [int] is the two's complement reading of a 32-bit word. *)

Definition u32 (z : Z) : Z := z mod 2 ^ 32.
Definition u16 (z : Z) : Z := z mod 2 ^ 16.
Definition u8 (z : Z) : Z := z mod 2 ^ 8.
Definition i32 (z : Z) : Z := if u32 z <? 2 ^ 31 then u32 z else u32 z - 2 ^ 32.
Definition i16 (z : Z) : Z := if u16 z <? 2 ^ 15 then u16 z else u16 z - 2 ^ 16.
Definition i8 (z : Z) : Z := if u8 z <? 2 ^ 7 then u8 z else u8 z - 2 ^ 8.

(** The bytes of a string literal. *)
Definition str (s : string) : list Z :=
  (fun a => Z.of_nat (Ascii.nat_of_ascii a)) <$> String.list_ascii_of_string s.

Definition byte (b : Z) : Prop := 0 <= b < 256.

(** ** Outcomes of kernel code

    A kernel function run on a state either returns, calls [panic], goes to
    sleep on a channel (the state is the one at the call of [sched]), or does
    not return at all (a spin that nothing ends, or a loop cut by its fuel). *)

Inductive outcome (S A : Type) : Type :=
| Ret (a : A) (s : S)
| Panic (msg : string)
| Sleep (chan : Z) (s : S)
| Hang.
Arguments Ret {S A} a s.
Arguments Panic {S A} msg.
Arguments Sleep {S A} chan s.
Arguments Hang {S A}.

Definition M (S A : Type) : Type := S -> outcome S A.

Definition ret {S A} (a : A) : M S A := fun s => Ret a s.
Definition panic {S A} (msg : string) : M S A := fun _ => Panic msg.
Definition hang {S A} : M S A := fun _ => Hang.
Definition get {S} : M S S := fun s => Ret s s.
Definition reads {S A} (f : S -> A) : M S A := fun s => Ret (f s) s.
Definition modify {S} (f : S -> S) : M S unit := fun s => Ret tt (f s).
Definition bind {S A B} (m : M S A) (k : A -> M S B) : M S B :=
  fun s => match m s with
           | Ret a s' => k a s'
           | Panic msg => Panic msg
           | Sleep c s' => Sleep c s'
           | Hang => Hang
           end.
(** An access outside an array: nothing is claimed of what follows it. *)
Definition undefined {S A} : M S A := panic "undefined behaviour".
Definition when {S} (b : bool) (m : M S unit) : M S unit := if b then m else ret tt.

Notation "'let!' x := m 'in' k" := (bind m (fun x => k))
  (at level 10, x name, m at level 100, k at level 200) : xv6_scope.
Notation "m ;; k" := (bind m (fun _ => k))
  (at level 100, right associativity) : xv6_scope.

(** Running an operation of a part [T] of a larger state [S]. *)
Definition zoom {S T A} (g : S -> T) (p : T -> S -> S) (m : M T A) : M S A :=
  fun s => match m (g s) with
           | Ret a t => Ret a (p t s)
           | Panic msg => Panic msg
           | Sleep c t => Sleep c (p t s)
           | Hang => Hang
           end.

(** [for(; i < i0 + k; i++) body(i)] *)
Fixpoint for_ {S} (k : nat) (i : Z) (body : Z -> M S unit) : M S unit :=
  match k with
  | O => ret tt
  | S k => body i ;; for_ k (i + 1) body
  end.

(** Total correctness: [m] returns from [s], in a state and with a value
    that satisfy [Q]. *)
Definition wp {S A} (m : M S A) (Q : A -> S -> Prop) (s : S) : Prop :=
  match m s with Ret a s' => Q a s' | _ => False end.

Section wp_rules.
Context {S A : Type}.
Implicit Types (s : S).

Lemma wp_ret (a : A) (Q : A -> S -> Prop) s : Q a s -> wp (ret a) Q s.
Proof. exact id. Qed.

Lemma wp_bind {B} (m : M S A) (k : A -> M S B) (Q : B -> S -> Prop) s :
  wp m (fun a s' => wp (k a) Q s') s -> wp (bind m k) Q s.
Proof. unfold wp, bind. destruct (m s); tauto. Qed.

Lemma wp_bind_inv {B} (m : M S A) (k : A -> M S B) (Q : B -> S -> Prop) s :
  wp (bind m k) Q s -> wp m (fun a s' => wp (k a) Q s') s.
Proof. unfold wp, bind. destruct (m s); tauto. Qed.

Lemma wp_mono (m : M S A) (P Q : A -> S -> Prop) s :
  wp m P s -> (forall a s', P a s' -> Q a s') -> wp m Q s.
Proof. unfold wp. destruct (m s); auto. Qed.

Lemma wp_and (m : M S A) (P Q : A -> S -> Prop) s :
  wp m P s -> wp m Q s -> wp m (fun a s' => P a s' /\ Q a s') s.
Proof. unfold wp. destruct (m s); auto. Qed.

Lemma wp_modify (f : S -> S) (Q : unit -> S -> Prop) s : Q tt (f s) -> wp (modify f) Q s.
Proof. exact id. Qed.

Lemma wp_reads (f : S -> A) (Q : A -> S -> Prop) s : Q (f s) s -> wp (reads f) Q s.
Proof. exact id. Qed.

Lemma wp_get (Q : S -> S -> Prop) s : Q s s -> wp get Q s.
Proof. exact id. Qed.

Lemma wp_Ret (m : M S A) (Q : A -> S -> Prop) s :
  wp m Q s <-> exists a s', m s = Ret a s' /\ Q a s'.
Proof.
  unfold wp; destruct (m s); split.
  all: try (intros (? & ? & [=] & ?); subst; done).
  all: try done.
  eauto.
Qed.

Lemma wp_zoom {T} (g : S -> T) (p : T -> S -> S) (m : M T A) (Q : A -> S -> Prop) s :
  wp m (fun a t => Q a (p t s)) (g s) -> wp (zoom g p m) Q s.
Proof. unfold wp, zoom. destruct (m (g s)); done. Qed.

Lemma wp_run (m : M S A) (Q : A -> S -> Prop) s a s' : m s = Ret a s' -> Q a s' -> wp m Q s.
Proof. unfold wp. by intros ->. Qed.
End wp_rules.

(** A counted loop keeps its invariant. *)
Lemma wp_for {S} (I : Z -> S -> Prop) k i (body : Z -> M S unit) s :
  I i s ->
  (forall j s, i <= j < i + Z.of_nat k -> I j s -> wp (body j) (fun _ s' => I (j + 1) s') s) ->
  wp (for_ k i body) (fun _ s' => I (i + Z.of_nat k) s') s.
Proof.
  revert i s. induction k as [|k IH]; intros i s Hs Hb; cbn [for_].
  - apply wp_ret. by rewrite Z.add_0_r.
  - apply wp_bind. eapply wp_mono; [apply Hb; [lia | done]|]. intros ? s' Hs'. cbn beta in Hs'.
    replace (i + Z.of_nat (Datatypes.S k)) with (i + 1 + Z.of_nat k) by lia.
    apply IH; [done|]. intros j s2 Hj. apply Hb. lia.
Qed.

(** Running a sequence through its first part. *)
Lemma bind_ret {S A B} (m : M S A) (k : A -> M S B) s a s' :
  m s = Ret a s' -> bind m k s = k a s'.
Proof. unfold bind. by intros ->. Qed.

Lemma bind_Ret {S A B} (m : M S A) (k : A -> M S B) s b s' :
  bind m k s = Ret b s' -> exists a s1, m s = Ret a s1 /\ k a s1 = Ret b s'.
Proof. unfold bind. destruct (m s); [eauto | done ..]. Qed.

Lemma bind_Sleep {S A B} (m : M S A) (k : A -> M S B) s c s' :
  bind m k s = Sleep c s' ->
  m s = Sleep c s' \/ exists a s1, m s = Ret a s1 /\ k a s1 = Sleep c s'.
Proof. unfold bind. destruct (m s); naive_solver. Qed.

(** The same, but the program may also panic. *)
Definition wpp {S A} (m : M S A) (Q : A -> S -> Prop) (s : S) : Prop :=
  match m s with Ret a s' => Q a s' | Panic _ => True | _ => False end.

Section wpp_rules.
Context {S A : Type}.
Implicit Types (s : S).

Lemma wpp_bind {B} (m : M S A) (k : A -> M S B) (Q : B -> S -> Prop) s :
  wpp m (fun a s' => wpp (k a) Q s') s -> wpp (bind m k) Q s.
Proof. unfold wpp, bind. destruct (m s); tauto. Qed.

Lemma wpp_mono (m : M S A) (P Q : A -> S -> Prop) s :
  wpp m P s -> (forall a s', P a s' -> Q a s') -> wpp m Q s.
Proof. unfold wpp. destruct (m s); auto. Qed.

Lemma wpp_run (m : M S A) (Q : A -> S -> Prop) s a s' : m s = Ret a s' -> Q a s' -> wpp m Q s.
Proof. unfold wpp. by intros ->. Qed.
End wpp_rules.

Ltac wp_step :=
  lazymatch goal with
  | |- wp (bind _ _) _ _ => apply wp_bind
  | |- wp (ret _) _ _ => apply wp_ret
  | |- wp (modify _) _ _ => apply wp_modify
  | |- wp (reads _) _ _ => apply wp_reads
  | |- wp get _ _ => apply wp_get
  | |- wp (when _ _) _ _ => unfold when
  | |- wp (zoom _ _ _) _ _ => apply wp_zoom
  end; cbn beta.
Ltac wp_steps := repeat wp_step.

(** Case analysis on the boolean tests of the code. *)
Ltac btests :=
  repeat match goal with
  | H : (_ =? _) = true |- _ => apply Z.eqb_eq in H
  | H : (_ =? _) = false |- _ => apply Z.eqb_neq in H
  | H : (_ <? _) = true |- _ => apply Z.ltb_lt in H
  | H : (_ <? _) = false |- _ => apply Z.ltb_ge in H
  | H : (_ <=? _) = true |- _ => apply Z.leb_le in H
  | H : (_ <=? _) = false |- _ => apply Z.leb_gt in H
  | H : (_ && _) = true |- _ => apply andb_true_iff in H as [??]
  | H : (_ || _) = false |- _ => apply orb_false_iff in H as [??]
  | H : negb _ = true |- _ => apply negb_true_iff in H
  | H : negb _ = false |- _ => apply negb_false_iff in H
  end.
Ltac bcase e := let E := fresh "E" in destruct e eqn:E; btests.

(** ** Arithmetic facts on machine words *)

Lemma u32_range z : 0 <= u32 z < 2 ^ 32.
Proof. apply Z.mod_pos_bound; lia. Qed.

Lemma u32_small z : 0 <= z < 2 ^ 32 -> u32 z = z.
Proof. apply Z.mod_small. Qed.

Lemma u32_add_l a b : u32 (u32 a + b) = u32 (a + b).
Proof. apply Zplus_mod_idemp_l. Qed.

Lemma u32_add_r a b : u32 (a + u32 b) = u32 (a + b).
Proof. apply Zplus_mod_idemp_r. Qed.

Lemma u32_sub_l a b : u32 (u32 a - b) = u32 (a - b).
Proof. apply Zminus_mod_idemp_l. Qed.

Lemma u32_sub_r a b : u32 (a - u32 b) = u32 (a - b).
Proof. apply Zminus_mod_idemp_r. Qed.

Lemma u32_idemp a : u32 (u32 a) = u32 a.
Proof. apply Zmod_mod. Qed.

(** A power of two below the word size reads the same residue before and
    after the wrap-around: the ring buffers of pipe.c and console.c rely on it. *)
Lemma u32_mod_pow2 z k : 0 <= k <= 32 -> u32 z mod 2 ^ k = z mod 2 ^ k.
Proof.
  intros Hk. unfold u32. apply Z.mod_mod_divide.
  exists (2 ^ (32 - k)). rewrite <- Z.pow_add_r by lia. f_equal. lia.
Qed.

Lemma i32_small z : - 2 ^ 31 <= z < 2 ^ 31 -> i32 z = z.
Proof.
  intros H. unfold i32, u32.
  destruct (Z.lt_ge_cases z 0).
  - assert (z mod 2 ^ 32 = z + 2 ^ 32) as ->.
    { symmetry. apply (Z.mod_unique_pos z (2 ^ 32) (-1)); lia. }
    destruct (Z.ltb_spec (z + 2 ^ 32) (2 ^ 31)); lia.
  - rewrite Z.mod_small by lia. destruct (Z.ltb_spec z (2 ^ 31)); lia.
Qed.

Lemma u32_i32 a : u32 (i32 a) = u32 a.
Proof.
  unfold i32. destruct (_ <? _); [apply u32_idemp|]. unfold u32.
  replace (a mod 2 ^ 32 - 2 ^ 32) with (a mod 2 ^ 32 + (-1) * 2 ^ 32) by lia.
  rewrite Z_mod_plus_full. apply Zmod_mod.
Qed.

Lemma i32_add_l a b : i32 (i32 a + b) = i32 (a + b).
Proof.
  assert (u32 (i32 a + b) = u32 (a + b)) as E by (rewrite <- u32_add_l, u32_i32; apply u32_add_l).
  unfold i32 at 1 3. by rewrite E.
Qed.

(** Masking with [~(2^n - 1)] in a 32-bit word rounds down to a multiple of [2^n]. *)
Lemma land_high_mask a n :
  0 <= a < 2 ^ 32 -> 0 <= n <= 32 -> Z.land a (2 ^ 32 - 2 ^ n) = a - a mod 2 ^ n.
Proof.
  intros Ha Hn.
  assert (2 ^ 32 - 2 ^ n = Z.shiftl (Z.ones (32 - n)) n) as ->.
  { rewrite Z.shiftl_mul_pow2, Z.ones_equiv by lia.
    rewrite <- Z.sub_1_r, Z.mul_sub_distr_r, <- Z.pow_add_r by lia. f_equal; [f_equal|]; lia. }
  assert (a - a mod 2 ^ n = Z.shiftl (Z.shiftr a n) n) as ->.
  { rewrite Z.shiftl_mul_pow2, Z.shiftr_div_pow2 by lia.
    pose proof (Z.div_mod a (2 ^ n) ltac:(lia)). lia. }
  apply Z.bits_inj'. intros i Hi. rewrite Z.land_spec.
  destruct (Z.lt_ge_cases i n).
  - rewrite !Z.shiftl_spec_low by lia. apply andb_false_r.
  - rewrite !Z.shiftl_spec, Z.shiftr_spec by lia.
    replace (i - n + n) with i by lia. rewrite Z.testbit_ones by lia.
    destruct (Z.ltb_spec (i - n) (32 - n)).
    + destruct (Z.leb_spec 0 (i - n)); [by rewrite andb_true_r | lia].
    + rewrite andb_false_r, andb_false_r. symmetry.
      rewrite <- (Z.mod_small a (2 ^ 32)) by lia. apply Z.mod_pow2_bits_high. lia.
Qed.

(** ** Byte arrays: slices and in-place writes

    [slice off n l] is the region of [n] bytes at [off]; [splice off new l]
    is what [memmove(l + off, new, length new)] leaves. *)

Section arrays.
Context {A : Type}.
Implicit Types (l new : list A) (off n i : nat).

Definition slice off n l : list A := take n (drop off l).
Definition splice off new l : list A := take off l ++ new ++ drop (off + length new) l.

Lemma length_splice off new l :
  (off + length new <= length l)%nat -> length (splice off new l) = length l.
Proof. intros. unfold splice. rewrite !length_app, length_take, length_drop. lia. Qed.

Lemma length_slice off n l : (off + n <= length l)%nat -> length (slice off n l) = n.
Proof. intros. unfold slice. rewrite length_take, length_drop. lia. Qed.

Lemma lookup_splice off new l i :
  (off + length new <= length l)%nat ->
  splice off new l !! i =
    if decide (off <= i < off + length new)%nat then new !! (i - off)%nat else l !! i.
Proof.
  intros Hlen. unfold splice. case_decide as Hi.
  - rewrite lookup_app_r by (rewrite length_take; lia).
    rewrite lookup_app_l by (rewrite length_take; lia).
    f_equal. rewrite length_take. lia.
  - destruct (decide (i < off)%nat).
    + rewrite lookup_app_l by (rewrite length_take; lia). rewrite lookup_take_lt; [done | lia].
    + rewrite lookup_app_r by (rewrite length_take; lia).
      rewrite lookup_app_r by (rewrite length_take; lia).
      rewrite lookup_drop. f_equal. rewrite length_take. lia.
Qed.

Lemma lookup_slice off n l i :
  slice off n l !! i = if decide (i < n)%nat then l !! (off + i)%nat else None.
Proof. unfold slice. rewrite lookup_take. case_decide; [apply lookup_drop | done]. Qed.

Lemma slice_splice_eq off new l :
  (off + length new <= length l)%nat -> slice off (length new) (splice off new l) = new.
Proof.
  intros H. apply list_eq. intros i. rewrite lookup_slice. case_decide.
  - rewrite lookup_splice by done. rewrite decide_True by lia. f_equal. lia.
  - symmetry. apply lookup_ge_None. lia.
Qed.

Lemma slice_splice_ne off new l off' n :
  (off + length new <= length l)%nat ->
  (off' + n <= off \/ off + length new <= off')%nat ->
  slice off' n (splice off new l) = slice off' n l.
Proof.
  intros H Hd. apply list_eq. intros i. rewrite !lookup_slice. case_decide; [|done].
  rewrite lookup_splice by done. rewrite decide_False by lia. done.
Qed.

Lemma splice_slice_id off n l :
  (off + n <= length l)%nat -> splice off (slice off n l) l = l.
Proof.
  intros H. apply list_eq. intros i.
  rewrite lookup_splice by (rewrite length_slice; lia). case_decide as Hi; [|done].
  rewrite length_slice in Hi by lia. rewrite lookup_slice, decide_True by lia. f_equal. lia.
Qed.

Lemma splice_app off (w1 w2 o : list A) :
  (off + length w1 + length w2 <= length o)%nat ->
  splice (off + length w1) w2 (splice off w1 o) = splice off (w1 ++ w2) o.
Proof.
  intros H. apply list_eq. intros i. rewrite !lookup_splice by (rewrite ?length_splice, ?length_app; lia).
  rewrite length_app. repeat case_decide; try lia; try done.
  - rewrite lookup_app_r by lia. f_equal. lia.
  - by rewrite lookup_app_l by lia.
Qed.

Lemma splice_nil off l : splice off [] l = l.
Proof. unfold splice. cbn. rewrite Nat.add_0_r. apply take_drop. Qed.

Lemma splice_all new l : length new = length l -> splice 0 new l = new.
Proof.
  intros H. unfold splice. rewrite take_0, drop_ge by lia. cbn. apply app_nil_r.
Qed.

Lemma Forall_splice P off new l : Forall P new -> Forall P l -> Forall P (splice off new l).
Proof.
  intros. unfold splice. apply Forall_app; split; [by apply Forall_take|].
  apply Forall_app; split; [done | by apply Forall_drop].
Qed.

Lemma Forall_slice P off n l : Forall P l -> Forall P (slice off n l).
Proof. intros. by apply Forall_take, Forall_drop. Qed.
End arrays.

#[global] Arguments replicate : simpl never.

Create Rewrite HintDb len.
#[export] Hint Rewrite @length_app @length_take @length_drop @length_replicate @length_insert
  @length_fmap : len.
Ltac len := autorewrite with len; cbn [length]; try lia.

(** Array access with a C index. *)
Definition aref (l : list Z) (i : Z) : Z := default 0 (l !! Z.to_nat i).
Definition aset {A} (l : list A) (i : Z) (x : A) : list A := <[Z.to_nat i := x]> l.

(** ** Little-endian words in byte arrays *)

Fixpoint le_enc (n : nat) (z : Z) : list Z :=
  match n with O => [] | S n => z mod 256 :: le_enc n (z / 256) end.

Fixpoint le_dec (l : list Z) : Z :=
  match l with [] => 0 | b :: l => b + 256 * le_dec l end.

Lemma length_le_enc n z : length (le_enc n z) = n.
Proof. revert z; induction n; cbn; auto. Qed.

Lemma le_enc_byte n z : Forall byte (le_enc n z).
Proof.
  revert z; induction n; cbn; intros; constructor; auto.
  unfold byte. apply Z.mod_pos_bound. lia.
Qed.

Lemma le_dec_enc n z : le_dec (le_enc n z) = z mod 256 ^ Z.of_nat n.
Proof.
  revert z. induction n as [|n IH]; intros z.
  - cbn [le_enc le_dec]. change (256 ^ Z.of_nat 0) with 1. by rewrite Z.mod_1_r.
  - cbn [le_enc le_dec]. rewrite IH.
    replace (256 ^ Z.of_nat (S n)) with (256 * 256 ^ Z.of_nat n)
      by (rewrite Nat2Z.inj_succ, Z.pow_succ_r by lia; lia).
    rewrite Z.rem_mul_r by lia. lia.
Qed.

Lemma le_enc_dec l : Forall byte l -> le_enc (length l) (le_dec l) = l.
Proof.
  induction 1 as [|b l Hb Hl IH]; [done|]. cbn [length le_enc le_dec].
  unfold byte in Hb.
  assert ((b + 256 * le_dec l) mod 256 = b) as ->.
  { symmetry. apply (Z.mod_unique_pos _ 256 (le_dec l)); lia. }
  assert ((b + 256 * le_dec l) / 256 = le_dec l) as ->.
  { symmetry. apply (Z.div_unique_pos _ 256 _ b); lia. }
  by rewrite IH.
Qed.

Lemma le_dec_range l : Forall byte l -> 0 <= le_dec l < 256 ^ Z.of_nat (length l).
Proof.
  induction 1 as [|b l Hb Hl IH]; [cbn; lia|]. cbn [length le_dec].
  rewrite Nat2Z.inj_succ, Z.pow_succ_r by lia. unfold byte in Hb. nia.
Qed.

Definition get16 (l : list Z) (off : nat) : Z := le_dec (slice off 2 l).
Definition set16 (l : list Z) (off : nat) (w : Z) : list Z := splice off (le_enc 2 w) l.
Definition get32 (l : list Z) (off : nat) : Z := le_dec (slice off 4 l).
Definition set32 (l : list Z) (off : nat) (w : Z) : list Z := splice off (le_enc 4 w) l.

Lemma length_set32 l off w : (off + 4 <= length l)%nat -> length (set32 l off w) = length l.
Proof. intros. unfold set32. rewrite length_splice; rewrite ?length_le_enc; lia. Qed.

Lemma get32_set32_eq l off w :
  (off + 4 <= length l)%nat -> 0 <= w < 2 ^ 32 -> get32 (set32 l off w) off = w.
Proof.
  intros H Hw. unfold get32, set32.
  rewrite <- (length_le_enc 4 w) at 1. rewrite slice_splice_eq by (rewrite length_le_enc; lia).
  rewrite le_dec_enc. apply Z.mod_small. exact Hw.
Qed.

Lemma get32_set32_ne l off off' w :
  (off + 4 <= length l)%nat -> (off' + 4 <= off \/ off + 4 <= off')%nat ->
  get32 (set32 l off w) off' = get32 l off'.
Proof.
  intros H Hd. unfold get32, set32.
  rewrite slice_splice_ne; rewrite ?length_le_enc; auto; lia.
Qed.

Lemma length_set16 l off w : (off + 2 <= length l)%nat -> length (set16 l off w) = length l.
Proof. intros. unfold set16. rewrite length_splice; rewrite ?length_le_enc; lia. Qed.

Lemma get16_set16_eq l off w : (off + 2 <= length l)%nat -> get16 (set16 l off w) off = u16 w.
Proof.
  intros H. unfold get16, set16. rewrite <- (length_le_enc 2 w) at 1.
  rewrite slice_splice_eq by (rewrite length_le_enc; lia). apply le_dec_enc.
Qed.

Lemma i16_u16 w : - 2 ^ 15 <= w < 2 ^ 15 -> i16 (u16 w) = w.
Proof.
  intros H. unfold i16. replace (u16 (u16 w)) with (u16 w) by (symmetry; apply Zmod_mod). unfold u16.
  destruct (Z.lt_ge_cases w 0).
  - assert (w mod 2 ^ 16 = w + 2 ^ 16) as -> by (symmetry; apply (Z.mod_unique_pos w (2 ^ 16) (-1)); lia).
    destruct (Z.ltb_spec (w + 2 ^ 16) (2 ^ 15)); lia.
  - rewrite Z.mod_small by lia. destruct (Z.ltb_spec w (2 ^ 15)); lia.
Qed.

(** Words of either size, apart from each other. *)
Lemma get16_splice_ne l off new o :
  (off + length new <= length l)%nat -> (o + 2 <= off \/ off + length new <= o)%nat ->
  get16 (splice off new l) o = get16 l o.
Proof. intros. unfold get16. by rewrite slice_splice_ne. Qed.

Lemma get32_splice_ne l off new o :
  (off + length new <= length l)%nat -> (o + 4 <= off \/ off + length new <= o)%nat ->
  get32 (splice off new l) o = get32 l o.
Proof. intros. unfold get32. by rewrite slice_splice_ne. Qed.

Lemma set32_byte l off w : Forall byte l -> Forall byte (set32 l off w).
Proof. intros. apply Forall_splice; [apply le_enc_byte | done]. Qed.

Lemma get32_range l off :
  (off + 4 <= length l)%nat -> Forall byte l -> 0 <= get32 l off < 2 ^ 32.
Proof.
  intros. unfold get32.
  pose proof (le_dec_range (slice off 4 l) ltac:(by apply Forall_slice)) as Hr.
  rewrite length_slice in Hr by lia. exact Hr.
Qed.

(** ** Transition sequences *)

Inductive star {St} (step : St -> St -> Prop) : St -> St -> Prop :=
| star_refl s : star step s s
| star_snoc s1 s2 s3 : star step s1 s2 -> step s2 s3 -> star step s1 s3.

(** An invariant of the initial states that every step keeps holds in every
    reachable state. *)
Lemma star_inv {St} (step : St -> St -> Prop) (I : St -> Prop) s s' :
  (forall a b, I a -> step a b -> I b) -> I s -> star step s s' -> I s'.
Proof. intros Hstep Hs. induction 1; eauto. Qed.

(** Runs with the visible events of their steps. *)
Inductive lstar {St Ev} (step : St -> list Ev -> St -> Prop) : St -> list Ev -> St -> Prop :=
| lstar_refl s : lstar step s [] s
| lstar_snoc s1 es s2 e s3 : lstar step s1 es s2 -> step s2 e s3 -> lstar step s1 (es ++ e) s3.

Lemma lstar_one {St Ev} (step : St -> list Ev -> St -> Prop) s e s' : step s e s' -> lstar step s e s'.
Proof. intros H. exact (lstar_snoc step s [] s e s' (lstar_refl step s) H). Qed.

Lemma lstar_trans {St Ev} (step : St -> list Ev -> St -> Prop) s1 e1 s2 e2 s3 :
  lstar step s1 e1 s2 -> lstar step s2 e2 s3 -> lstar step s1 (e1 ++ e2) s3.
Proof.
  intros H1 H2. revert s1 e1 H1. induction H2 as [s|s es s2 e s3 H2 IH Hs]; intros s1 e1 H1; [by rewrite app_nil_r|].
  rewrite app_assoc. eapply lstar_snoc; [by apply IH | exact Hs].
Qed.

(** ** Searching an array from the front

    The table scans of the kernel ([for(p = table; p < &table[N]; p++) if(...)])
    return the first index that passes the test. *)

Fixpoint find_index {A} (f : A -> bool) (l : list A) : option nat :=
  match l with
  | [] => None
  | x :: l => if f x then Some O else S <$> find_index f l
  end.

Lemma find_index_Some {A} (f : A -> bool) l i :
  find_index f l = Some i ->
  exists x, l !! i = Some x /\ f x = true /\
    (forall j y, (j < i)%nat -> l !! j = Some y -> f y = false).
Proof.
  revert i. induction l as [|x l IH]; intros i; cbn; [done|].
  destruct (f x) eqn:E.
  - intros [= <-]. exists x. split; [done|]. split; [done|]. intros; lia.
  - destruct (find_index f l) as [k|] eqn:Ek; cbn; [|done]. intros [= <-].
    destruct (IH k eq_refl) as (y & Hy & Hf & Hmin). exists y. split; [done|]. split; [done|].
    intros [|j] z Hj Hz; cbn in Hz; [congruence|]. apply (Hmin j z); [lia | done].
Qed.

Lemma find_index_None {A} (f : A -> bool) l :
  find_index f l = None <-> Forall (fun x => f x = false) l.
Proof.
  induction l as [|x l IH]; cbn; [split; auto; constructor|].
  destruct (f x) eqn:E.
  - split; [done|]. inversion 1; congruence.
  - rewrite fmap_None, IH. split; [by constructor | by inversion 1].
Qed.

Lemma find_index_lt {A} (f : A -> bool) l i : find_index f l = Some i -> (i < length l)%nat.
Proof.
  intros (x & Hx & _)%find_index_Some. by apply lookup_lt_Some in Hx.
Qed.

Lemma find_index_first {A} (f : A -> bool) l i x :
  l !! i = Some x -> f x = true ->
  (forall j y, (j < i)%nat -> l !! j = Some y -> f y = false) -> find_index f l = Some i.
Proof.
  revert i. induction l as [|z l IH]; intros i Hx Hf Hmin; [done|]. cbn.
  destruct i as [|i]; cbn in Hx.
  - injection Hx as ->. by rewrite Hf.
  - rewrite (Hmin O z) by (lia || done). rewrite (IH i); try done.
    intros j y Hj Hy. apply (Hmin (S j) y); [lia | done].
Qed.

(** ** Arrays of structures, updated in one slot *)

Section alter_total.
Context {A : Type} `{Inhabited A}.
Implicit Types (l : list A) (f : A -> A) (i j : nat).

Lemma alter_at f l i : (i < length l)%nat -> alter f i l !!! i = f (l !!! i).
Proof. intros. rewrite list_lookup_total_alter. by rewrite decide_True. Qed.

Lemma alter_ne f l i j : i <> j -> alter f i l !!! j = l !!! j.
Proof. intros. by apply list_lookup_total_alter_ne. Qed.

Lemma insert_at l i x : (i < length l)%nat -> <[i := x]> l !!! i = x.
Proof. intros. by apply list_lookup_total_insert_eq. Qed.

Lemma insert_ne l i j x : i <> j -> <[i := x]> l !!! j = l !!! j.
Proof. intros. by apply list_lookup_total_insert_ne. Qed.

Lemma lookup_total_ge l i : (length l <= i)%nat -> l !!! i = inhabitant.
Proof. intros. by rewrite list_lookup_total_alt, (proj2 (lookup_ge_None l i)). Qed.

Lemma fmap_at f l i : (i < length l)%nat -> (f <$> l) !!! i = f (l !!! i).
Proof.
  intros Hi. destruct (lookup_lt_is_Some_2 l i Hi) as [x Hx].
  rewrite (list_lookup_total_correct _ _ _ Hx). apply list_lookup_total_correct.
  by rewrite list_lookup_fmap, Hx.
Qed.

(** A slot that differs from the default one is in range. *)
Lemma lookup_total_lt l i : l !!! i <> inhabitant -> (i < length l)%nat.
Proof. intros Hne. destruct (decide (i < length l)%nat); [done|]. by rewrite lookup_total_ge in Hne by lia. Qed.
End alter_total.
