(* ===== verification/Spinlock.v ===== *)
(** * Spin locks and interrupt nesting (spinlock.c)

    [Cli] models [pushcli]/[popcli] on one CPU: the interrupt flag of
    [eflags] and the fields [ncli] and [intena] of [struct cpu].
    [Lock] models [acquire] and [release] on any number of CPUs.  Each memory
    access to the lock is one atomic step, so the model interleaves the two
    reads of [holding], the [xchg], the store of [lk->cpu] and the two stores
    of [release] of all CPUs in every order. *)

From S2P Require Import Prelude.

Module Cli.

Record cpu := mk_cpu { ncli : Z; intena : bool; IF : bool }.

Definition pushcli : M cpu unit := fun c =>
  let eflags_if := IF c in
  let intena' := if ncli c =? 0 then eflags_if else intena c in
  Ret tt {| ncli := ncli c + 1; intena := intena'; IF := false |}.

Definition popcli : M cpu unit := fun c =>
  if IF c then Panic "popcli - interruptible"
  else let n := ncli c - 1 in
       if n <? 0 then Panic "popcli"
       else Ret tt {| ncli := n; intena := intena c;
                      IF := if (n =? 0) && intena c then true else IF c |}.

(** What every CPU keeps between calls: interrupts are off while the nesting
    is positive. *)
Definition wf (c : cpu) : Prop := 0 <= ncli c /\ (0 < ncli c -> IF c = false).

(** Bracketed sequences of the two calls, as the kernel makes them. *)
Inductive nest :=
| Done
| Pair (inside after : nest).

Fixpoint run (t : nest) : M cpu unit :=
  match t with
  | Done => ret tt
  | Pair t1 t2 => pushcli ;; run t1 ;; popcli ;; run t2
  end.

Lemma push_wf c : wf c -> exists c', pushcli c = Ret tt c' /\ wf c' /\
  ncli c' = ncli c + 1 /\ IF c' = false /\
  (ncli c = 0 -> intena c' = IF c) /\ (0 < ncli c -> intena c' = intena c).
Proof.
  intros [Hn Hi]. eexists. split; [reflexivity|]. unfold wf; cbn.
  split_and!; try done; try lia; intros H.
  - by rewrite H.
  - destruct (Z.eqb_spec (ncli c) 0); [lia | done].
Qed.

Lemma run_spec t c : wf c ->
  exists c', run t c = Ret tt c' /\ wf c' /\ ncli c' = ncli c /\ IF c' = IF c /\
    (0 < ncli c -> intena c' = intena c).
Proof.
  revert c. induction t as [|t1 IH1 t2 IH2]; intros c Hwf; [by exists c|].
  cbn [run]. unfold bind at 1.
  destruct (push_wf c Hwf) as (c1 & -> & Hwf1 & Hn1 & Hif1 & Hz1 & Hp1).
  unfold bind at 1. destruct (IH1 c1 Hwf1) as (c2 & -> & Hwf2 & Hn2 & Hif2 & Hin2).
  unfold bind at 1, popcli. rewrite Hif2, Hif1.
  destruct Hwf as [Hge Hoff].
  destruct (Z.ltb_spec (ncli c2 - 1) 0); [lia|].
  match goal with |- context [run t2 ?c3] =>
    assert (wf c3) as Hwf3; [| destruct (IH2 c3 Hwf3) as (c4 & -> & Hwf4 & Hn4 & Hif4 & Hin4)] end.
  { split; cbn; [lia|]. intros Hpos. destruct (Z.eqb_spec (ncli c2 - 1) 0); [lia | done]. }
  exists c4. cbn in *. split_and!; try done; [lia | |].
  - rewrite Hif4. destruct (Z.eqb_spec (ncli c2 - 1) 0) as [Hz|Hz]; cbn.
    + rewrite Hin2, Hz1 by lia. by destruct (IF c).
    + symmetry. apply Hoff. lia.
  - intros Hpos. rewrite Hin4, Hin2, Hp1 by lia. done.
Qed.

(** [pushcli] and [popcli] are matched: any properly nested sequence of
    them runs without a panic and leaves the nesting depth and the interrupt
    flag as they were, so interrupts are enabled again exactly when they were
    enabled before the outermost call. *)
Theorem cli_nesting t c : wf c ->
  exists c', run t c = Ret tt c' /\ wf c' /\ ncli c' = ncli c /\ IF c' = IF c.
Proof. intros H. destruct (run_spec t c H) as (c' & ? & ? & ? & ? & _). by exists c'. Qed.

Lemma cli_nesting_witness :
  let c := {| ncli := 0; intena := false; IF := true |} in
  wf c /\ exists c', run (Pair (Pair Done Done) (Pair Done Done)) c = Ret tt c' /\ IF c' = true.
Proof.
  intros c. assert (wf c) as Hwf by (split; [cbn; lia | cbn; lia]). split; [exact Hwf|].
  destruct (cli_nesting (Pair (Pair Done Done) (Pair Done Done)) c Hwf) as (c' & H1 & _ & _ & H2).
  exists c'. split; [exact H1 | exact H2].
Defined.

End Cli.

Module Lock.
Import Cli.

(** [struct spinlock]; [lcpu] is the index of the CPU that [lk->cpu] points
    at, [None] for the null pointer. *)
Record spinlock := mk_spinlock {
  locked : Z;
  name : string;
  lcpu : option nat;
  pcs : list Z;
}.

Definition initlock (lk : spinlock) (nm : string) : spinlock :=
  {| locked := 0; name := nm; lcpu := None; pcs := pcs lk |}.

Definition KERNBASE : Z := 0x80000000.

(** [getcallerpcs]: the %ebp chain starting two words below [v], read from
    the words of memory [mem], at most ten frames, padded with zeros. *)
Fixpoint getcallerpcs_loop (mem : Z -> Z) (fuel : nat) (ebp : Z) : list Z :=
  match fuel with
  | O => []
  | S n =>
      if (ebp =? 0) || (ebp <? KERNBASE) || (ebp =? 0xffffffff) then replicate fuel 0
      else mem (u32 (ebp + 4)) :: getcallerpcs_loop mem n (mem ebp)
  end.
Definition getcallerpcs (mem : Z -> Z) (v : Z) : list Z :=
  getcallerpcs_loop mem 10 (u32 (v - 8)).

(** Where a CPU is in the code of [acquire] and [release]. *)
Inductive pc :=
| Idle        (* not holding, not trying *)
| AcqLocked   (* acquire: holding(lk) reads lk->locked *)
| AcqCpu      (* acquire: holding(lk) reads lk->cpu *)
| Spin        (* acquire: while(xchg(&lk->locked, 1) != 0) *)
| SetCpu      (* acquire: lk->cpu = mycpu() *)
| Crit        (* between acquire and release *)
| RelLocked   (* release: holding(lk) reads lk->locked *)
| RelCpu      (* release: holding(lk) reads lk->cpu *)
| ClrCpu      (* release: lk->pcs[0] = 0; lk->cpu = 0 *)
| ClrLocked   (* release: movl $0, lk->locked *)
| PopCli      (* release: popcli() *)
| Panicked.

Record sys := mk_sys { lk : spinlock; cpus : list cpu; pcof : list pc }.

Definition set_pc (i : nat) (p : pc) (s : sys) : sys :=
  {| lk := lk s; cpus := cpus s; pcof := <[i := p]> (pcof s) |}.
Definition set_lk (l : spinlock) (s : sys) : sys :=
  {| lk := l; cpus := cpus s; pcof := pcof s |}.
Definition set_cpu (i : nat) (c : cpu) (s : sys) : sys :=
  {| lk := lk s; cpus := <[i := c]> (cpus s); pcof := pcof s |}.

Definition is_me (i : nat) (o : option nat) : bool :=
  match o with Some j => bool_decide (i = j) | None => false end.

Section step.
(** The stack each acquirer is on, for the debugging field [pcs]. *)
Variables (mem : Z -> Z) (frame : nat -> Z).

(** One step of CPU [i]; [None] when there is no such CPU or it stopped. *)
Definition step_cpu (i : nat) (s : sys) : option sys :=
  p ← pcof s !! i; c ← cpus s !! i;
  match p with
  | Idle => (* acquire(lk): pushcli() *)
      match pushcli c with
      | Ret _ c' => Some (set_cpu i c' (set_pc i AcqLocked s))
      | _ => Some (set_pc i Panicked s)
      end
  | AcqLocked => Some (set_pc i (if locked (lk s) =? 0 then Spin else AcqCpu) s)
  | AcqCpu => Some (set_pc i (if is_me i (lcpu (lk s)) then Panicked else Spin) s)
  | Spin =>
      let old := locked (lk s) in
      let l := {| locked := 1; name := name (lk s); lcpu := lcpu (lk s); pcs := pcs (lk s) |} in
      Some (set_lk l (set_pc i (if old =? 0 then SetCpu else Spin) s))
  | SetCpu =>
      let l := {| locked := locked (lk s); name := name (lk s); lcpu := Some i;
                  pcs := getcallerpcs mem (frame i) |} in
      Some (set_lk l (set_pc i Crit s))
  | Crit => (* release(lk) *) Some (set_pc i RelLocked s)
  | RelLocked => Some (set_pc i (if locked (lk s) =? 0 then Panicked else RelCpu) s)
  | RelCpu => Some (set_pc i (if is_me i (lcpu (lk s)) then ClrCpu else Panicked) s)
  | ClrCpu =>
      let l := {| locked := locked (lk s); name := name (lk s); lcpu := None;
                  pcs := aset (pcs (lk s)) 0 0 |} in
      Some (set_lk l (set_pc i ClrLocked s))
  | ClrLocked =>
      let l := {| locked := 0; name := name (lk s); lcpu := lcpu (lk s); pcs := pcs (lk s) |} in
      Some (set_lk l (set_pc i PopCli s))
  | PopCli =>
      match popcli c with
      | Ret _ c' => Some (set_cpu i c' (set_pc i Idle s))
      | _ => Some (set_pc i Panicked s)
      end
  | Panicked => None
  end.

Definition step (s s' : sys) : Prop := exists i, step_cpu i s = Some s'.

(** The CPU that won the [xchg] and has not yet stored 0 to [locked]. *)
Definition owner (p : pc) : bool :=
  match p with SetCpu | Crit | RelLocked | RelCpu | ClrCpu | ClrLocked => true | _ => false end.
(** The stretch in which [lk->cpu] names the owner. *)
Definition named (p : pc) : bool :=
  match p with Crit | RelLocked | RelCpu | ClrCpu => true | _ => false end.
Definition cli_depth (p : pc) : Z :=
  match p with Idle | Panicked => 0 | _ => 1 end.

(** [o] is the owner, if any: the ghost state of the proof. *)
Definition inv (o : option nat) (s : sys) : Prop :=
  length (cpus s) = length (pcof s) /\
  (forall i p, pcof s !! i = Some p -> owner p = true <-> o = Some i) /\
  (forall i, o = Some i -> (i < length (pcof s))%nat) /\
  locked (lk s) = match o with Some _ => 1 | None => 0 end /\
  lcpu (lk s) = match o with
                | Some i => if named (default Idle (pcof s !! i)) then Some i else None
                | None => None
                end /\
  (forall i p c, pcof s !! i = Some p -> cpus s !! i = Some c ->
     p <> Panicked /\ Cli.wf c /\ ncli c = cli_depth p).

Definition init (n : nat) (nm : string) (s : sys) : Prop :=
  lk s = initlock (lk s) nm /\ pcof s = replicate n Idle /\
  length (cpus s) = n /\ Forall (fun c => Cli.wf c /\ ncli c = 0) (cpus s).

Lemma init_inv n nm s : init n nm s -> inv None s.
Proof.
  intros (Hlk & Hpc & Hn & Hc). unfold inv. rewrite Hpc, Hlk. cbn.
  split_and!; try done.
  - by rewrite length_replicate.
  - intros i p [-> _]%lookup_replicate. done.
  - intros i p c [-> _]%lookup_replicate Hi. rewrite Forall_lookup in Hc.
    destruct (Hc _ _ Hi). done.
Qed.

(** Moving CPU [i] to [p'] keeps the invariant when the new owner, the lock
    fields and the CPU's nesting agree with [p']. *)
Lemma inv_update o o' s i p p' c c' l' :
  inv o s -> pcof s !! i = Some p -> cpus s !! i = Some c ->
  (owner p' = true <-> o' = Some i) ->
  (forall j, j <> i -> o' = Some j <-> o = Some j) ->
  locked l' = match o' with Some _ => 1 | None => 0 end ->
  lcpu l' = match o' with
            | Some j => if decide (j = i) then if named p' then Some i else None else lcpu (lk s)
            | None => None end ->
  p' <> Panicked -> Cli.wf c' -> ncli c' = cli_depth p' ->
  inv o' {| lk := l'; cpus := <[i := c']> (cpus s); pcof := <[i := p']> (pcof s) |}.
Proof.
  intros (Hlen & Hown & Hlt & Hloc & Hcpu & Hok) Hp Hc Ho Hj Hl Hn Hnp Hwf Hd.
  pose proof (lookup_lt_Some _ _ _ Hp) as Hi.
  unfold inv; cbn. rewrite !length_insert. split_and!; try done.
  - intros j q Hq. destruct (decide (j = i)) as [->|Hne].
    + rewrite list_lookup_insert_eq in Hq by done. by injection Hq as <-.
    + rewrite list_lookup_insert_ne in Hq by done. rewrite (Hj j Hne). by apply Hown.
  - intros j Hoj. destruct (decide (j = i)) as [->|Hne]; [done|]. apply Hlt, Hj; done.
  - rewrite Hn. destruct o' as [j|]; [|done]. destruct (decide (j = i)) as [->|Hne].
    + by rewrite list_lookup_insert_eq.
    + rewrite list_lookup_insert_ne, Hcpu by done. rewrite (proj1 (Hj j Hne) eq_refl). done.
  - intros j q d Hq Hdj. destruct (decide (j = i)) as [->|Hne].
    + rewrite list_lookup_insert_eq in Hq by done. rewrite list_lookup_insert_eq in Hdj by lia.
      injection Hq as <-. injection Hdj as <-. done.
    + rewrite list_lookup_insert_ne in Hq by done. rewrite list_lookup_insert_ne in Hdj by done. eauto.
Qed.

Lemma inv_set_pc o s i p p' c :
  inv o s -> pcof s !! i = Some p -> cpus s !! i = Some c ->
  owner p' = owner p -> named p' = named p -> cli_depth p' = cli_depth p -> p' <> Panicked ->
  inv o (set_pc i p' s).
Proof.
  intros Hinv Hp Hc Ho Hn Hd Hnp. pose proof Hinv as (_ & Hown & _ & Hloc & Hcpu & Hok).
  destruct (Hok _ _ _ Hp Hc) as (_ & Hwf & Hdep).
  unfold set_pc. rewrite <- (list_insert_id _ _ _ Hc).
  eapply inv_update; eauto; try congruence; try done.
  - rewrite Ho. by apply Hown.
  - rewrite Hcpu. destruct o as [j|]; [|done]. case_decide; [subst j|done]. by rewrite Hp, Hn.
Qed.

Lemma inv_not_owner o s i p :
  inv o s -> pcof s !! i = Some p -> owner p = false -> o <> Some i.
Proof. intros (_ & Hown & _) Hp Hf H. apply (Hown i p Hp) in H. congruence. Qed.

Lemma is_me_other i j : j <> i -> is_me i (Some j) = false.
Proof. intros. cbn. apply bool_decide_eq_false. congruence. Qed.

Ltac expose := unfold set_cpu, set_lk, set_pc; cbn [lk cpus pcof].
Ltac upd := expose; eapply inv_update; eauto; try done; cbn [locked lcpu cli_depth named]; try done; try lia; try (by auto).

Lemma step_inv o s s' : inv o s -> step s s' -> exists o', inv o' s'.
Proof.
  intros Hinv [i Hst]. unfold step_cpu in Hst.
  destruct (pcof s !! i) as [p|] eqn:Hp; [|done]. destruct (cpus s !! i) as [c|] eqn:Hc; [|done].
  cbn [mbind option_bind] in Hst. pose proof Hinv as (_ & Hown & _ & Hloc & Hcpu & Hok).
  destruct (Hok _ _ _ Hp Hc) as (Hnp & Hwf & Hdep). pose proof (Hown i p Hp) as Hoi.
  pose proof (inv_not_owner o s i p Hinv Hp) as Hno.
  assert (owner p = false ->
    lcpu (lk s) = match o with
                  | Some j => if decide (j = i) then None else lcpu (lk s) | None => None end) as Hsame.
  { intros Hf. rewrite Hcpu. destruct o as [j|]; [|done]. case_decide; [|done].
    subst. by destruct (Hno Hf). }
  pose proof (list_insert_id _ _ _ Hc) as Hid.
  destruct p; cbn in Hoi, Hno, Hdep; [| injection Hst as <- .. | | done].
  - (* pushcli *)
    destruct (Cli.push_wf c Hwf) as (c' & Hpush & Hwf' & Hn' & _).
    rewrite Hpush in Hst. injection Hst as <-. exists o. upd.
  - (* holding: locked *)
    exists o. eapply inv_set_pc; eauto; destruct (_ =? 0); done.
  - (* holding: cpu; never this CPU *)
    exists o. assert (is_me i (lcpu (lk s)) = false) as ->; [|by eapply inv_set_pc; eauto].
    rewrite Hcpu. destruct o as [j|]; [|done].
    destruct (named _); [|done]. apply is_me_other. intros ->. by apply Hno.
  - (* xchg *)
    rewrite Hloc. destruct o as [j|]; expose; rewrite <- Hid; [exists (Some j) | exists (Some i)]; upd.
    + intros j Hj. split; congruence.
    + by rewrite decide_True.
  - (* lk->cpu = mycpu() *)
    assert (o = Some i) as -> by by apply Hoi.
    exists (Some i). expose; rewrite <- Hid. upd. by rewrite decide_True.
  - exists o. by eapply inv_set_pc; eauto.
  - (* release: locked is set *)
    assert (o = Some i) as -> by by apply Hoi. rewrite Hloc.
    exists (Some i). by eapply inv_set_pc; eauto.
  - (* release: cpu is this one *)
    assert (o = Some i) as -> by by apply Hoi.
    rewrite Hcpu, Hp. cbn. rewrite bool_decide_eq_true_2 by done.
    exists (Some i). by eapply inv_set_pc; eauto.
  - assert (o = Some i) as -> by by apply Hoi.
    exists (Some i). expose; rewrite <- Hid. upd. by rewrite decide_True.
  - (* movl $0 *)
    assert (o = Some i) as -> by by apply Hoi.
    exists None. expose; rewrite <- Hid. upd.
    + intros j Hj. split; congruence.
    + by rewrite Hcpu, Hp.
  - (* popcli *)
    unfold popcli in Hst. destruct Hwf as [Hge Hoff]. rewrite Hoff, Hdep in Hst by lia.
    cbn in Hst. injection Hst as <-. exists o. upd.
Qed.

(** C7: the spin lock gives mutual exclusion on any number of CPUs and under
    every interleaving of the memory accesses of [acquire] and [release]: in
    every reachable state no CPU has panicked, at most one is between
    [acquire] and [release], and that one has interrupts off and is the CPU
    that [lk->cpu] names, so [holding(lk)] is true on it and on no other. *)
Theorem spinlock_mutex n nm s0 s :
  init n nm s0 -> star step s0 s ->
  (forall i, pcof s !! i <> Some Panicked) /\
  (forall i j, pcof s !! i = Some Crit -> pcof s !! j = Some Crit -> i = j) /\
  (forall i c, pcof s !! i = Some Crit -> cpus s !! i = Some c ->
     IF c = false /\ locked (lk s) = 1 /\ lcpu (lk s) = Some i).
Proof.
  intros Hinit Hst.
  assert (exists o, inv o s) as [o Hinv].
  { eapply (star_inv step (fun s => exists o, inv o s)); [| | exact Hst].
    - intros a b [o Ha] Hab. eapply step_inv; eauto.
    - exists None. by eapply init_inv. }
  pose proof Hinv as (Hlen & Hown & Hlt & Hloc & Hcpu & Hok). split_and!.
  - intros i Hi. pose proof (lookup_lt_Some _ _ _ Hi) as Hl. rewrite <- Hlen in Hl.
    apply lookup_lt_is_Some in Hl as [c Hc]. by destruct (Hok _ _ _ Hi Hc).
  - intros i j Hi Hj. apply (Hown i) in Hi as Hi'. apply (Hown j) in Hj as Hj'.
    assert (o = Some i) by by apply Hi'. assert (o = Some j) by by apply Hj'. congruence.
  - intros i c Hi Hc. assert (o = Some i) as -> by (by apply (Hown i Crit Hi)).
    rewrite Hloc, Hcpu, Hi. destruct (Hok _ _ _ Hi Hc) as (_ & [_ Hoff] & Hd).
    split_and!; try done. apply Hoff. cbn in Hd. lia.
Qed.
End step.

(** Two CPUs, both enabled for interrupts, and a lock from [initlock]. *)
Definition two_cpus : sys :=
  {| lk := initlock {| locked := 7; name := "?"; lcpu := Some 3%nat; pcs := replicate 10 0 |} "demo";
     cpus := replicate 2 {| ncli := 0; intena := false; IF := true |};
     pcof := replicate 2 Idle |}.

Fixpoint run_sched (l : list nat) (s : sys) : option sys :=
  match l with [] => Some s | i :: l => s' ← step_cpu (fun _ => 0) (fun _ => 0) i s; run_sched l s' end.

Lemma run_sched_star l s0 s s' :
  star (step (fun _ => 0) (fun _ => 0)) s0 s -> run_sched l s = Some s' ->
  star (step (fun _ => 0) (fun _ => 0)) s0 s'.
Proof.
  revert s. induction l as [|i l IH]; cbn; intros s Hs H; [by injection H as <-|].
  destruct (step_cpu _ _ i s) as [s1|] eqn:E; [|done]. cbn in H. apply (IH s1); [|done].
  eapply star_snoc; [done|]. by exists i.
Qed.

(** CPU 0 is in its critical section and CPU 1 spins. *)
Lemma spinlock_mutex_witness :
  exists s, run_sched [0; 1; 0; 1; 0; 1; 0; 1]%nat two_cpus = Some s /\ pcof s = [Crit; Spin] /\ lcpu (lk s) = Some 0%nat.
Proof.
  destruct (run_sched [0; 1; 0; 1; 0; 1; 0; 1]%nat two_cpus) as [s|] eqn:E; [|discriminate].
  assert (init 2 "demo" two_cpus) as Hi.
  { unfold init. cbn. repeat split; repeat constructor; cbn; lia. }
  pose proof (spinlock_mutex (fun _ => 0) (fun _ => 0) 2 "demo" two_cpus s Hi
    (run_sched_star _ _ _ _ (star_refl _ _) E)) as (_ & _ & H).
  exists s. vm_compute in E. injection E as <-. split; [reflexivity|]. split; [reflexivity|].
  apply (H 0%nat {| ncli := 1; intena := true; IF := false |} eq_refl eq_refl).
Defined.

End Lock.
