(* ===== verification/Kalloc.v ===== *)
(** * The physical page allocator (kalloc.c) and its address arithmetic
    (memlayout.h, the page macros of mmu.h)

    Physical memory is a map from the kernel address of a page to its 4096
    bytes.  The free list is threaded through the free pages themselves: the
    first word of a free page is [r->next].  [end] of the linker script is
    the section variable [kend]. *)

From S2P Require Import Prelude.

Definition EXTMEM : Z := 0x100000.
Definition PHYSTOP : Z := 0xE000000.
Definition DEVSPACE : Z := 0xFE000000.
Definition KERNBASE : Z := 0x80000000.
Definition KERNLINK : Z := KERNBASE + EXTMEM.
Definition PGSIZE : Z := 4096.

(** [((sz)+PGSIZE-1) & ~(PGSIZE-1)] and [(a) & ~(PGSIZE-1)] on 32-bit words. *)
Definition PGROUNDUP (sz : Z) : Z := Z.land (u32 (sz + PGSIZE - 1)) (u32 (Z.lnot (PGSIZE - 1))).
Definition PGROUNDDOWN (a : Z) : Z := Z.land (u32 a) (u32 (Z.lnot (PGSIZE - 1))).

Definition V2P {S} (a : Z) : M S Z :=
  if a <? KERNBASE then panic "V2P on address < KERNBASE (not a kernel virtual address; consider walking page table to determine physical address of a user virtual address)" else ret (u32 (a - KERNBASE)).
Definition P2V {S} (a : Z) : M S Z :=
  if KERNBASE <? a then panic "P2V on address > KERNBASE" else ret (u32 (a + KERNBASE)).

(** ** The state *)

Record kmem_t := mk_kmem {
  k_lock : bool;
  use_lock : bool;
  freelist : Z;
  pmem : gmap Z (list Z);
}.

Definition zero_page : list Z := replicate 4096 0.
Definition page (m : gmap Z (list Z)) (a : Z) : list Z := default zero_page (m !! a).

Definition set_klock (b : bool) (s : kmem_t) : kmem_t :=
  {| k_lock := b; use_lock := use_lock s; freelist := freelist s; pmem := pmem s |}.
Definition set_use_lock (b : bool) (s : kmem_t) : kmem_t :=
  {| k_lock := k_lock s; use_lock := b; freelist := freelist s; pmem := pmem s |}.
Definition set_freelist (r : Z) (s : kmem_t) : kmem_t :=
  {| k_lock := k_lock s; use_lock := use_lock s; freelist := r; pmem := pmem s |}.
Definition set_page (a : Z) (p : list Z) (s : kmem_t) : kmem_t :=
  {| k_lock := k_lock s; use_lock := use_lock s; freelist := freelist s;
     pmem := <[a := p]> (pmem s) |}.

(** [if(kmem.use_lock) acquire(&kmem.lock)] and the matching release.  The
    critical sections of other CPUs are separate steps, so a lock found held
    is held by this CPU. *)
Definition acquire_kmem : M kmem_t unit := fun s =>
  if use_lock s then if k_lock s then Panic "acquire" else Ret tt (set_klock true s)
  else Ret tt s.
Definition release_kmem : M kmem_t unit := fun s =>
  if use_lock s then if k_lock s then Ret tt (set_klock false s) else Panic "release"
  else Ret tt s.

Section kalloc.
Variable kend : Z.

Definition kfree (v : Z) : M kmem_t unit :=
  if negb (v mod PGSIZE =? 0) || (v <? kend) then panic "kfree"
  else
    let! pa := V2P v in
    if PHYSTOP <=? pa then panic "kfree"
    else
      modify (set_page v (replicate 4096 1)) ;;
      acquire_kmem ;;
      modify (fun s => set_page v (set32 (page (pmem s) v) 0 (freelist s)) s) ;;
      modify (set_freelist v) ;;
      release_kmem.

Definition kalloc : M kmem_t Z :=
  acquire_kmem ;;
  let! r := reads freelist in
  when (negb (r =? 0)) (modify (fun s => set_freelist (get32 (page (pmem s) r) 0) s)) ;;
  release_kmem ;;
  ret r.

(** The loop [for(; p + PGSIZE <= vend; p += PGSIZE) kfree(p)]. *)
Fixpoint freerange_loop (fuel : nat) (p vend : Z) : M kmem_t unit :=
  match fuel with
  | O => hang
  | S n => if p + PGSIZE <=? vend then kfree p ;; freerange_loop n (p + PGSIZE) vend
           else ret tt
  end.

Definition freerange (vstart vend : Z) : M kmem_t unit :=
  if vend <? vstart then panic "freerange"
  else let p := PGROUNDUP vstart in
       freerange_loop (S (Z.to_nat ((vend - p) / PGSIZE))) p vend.

Definition kinit1 (vstart vend : Z) : M kmem_t unit :=
  modify (fun s => set_use_lock false (set_klock false s)) ;; freerange vstart vend.
Definition kinit2 (vstart vend : Z) : M kmem_t unit :=
  freerange vstart vend ;; modify (set_use_lock true).

(** ** The free list *)

(** The kernel ends inside the direct map of physical memory. *)
Hypothesis kend_range : KERNBASE < kend <= KERNBASE + PHYSTOP.

Definition good_page (v : Z) : Prop := v mod PGSIZE = 0 /\ kend <= v < KERNBASE + PHYSTOP.

Fixpoint chain (m : gmap Z (list Z)) (a : Z) (l : list Z) : Prop :=
  match l with
  | [] => a = 0
  | v :: l => a = v /\ chain m (get32 (page m v) 0) l
  end.

Definition inv (s : kmem_t) (l : list Z) : Prop :=
  k_lock s = false /\ chain (pmem s) (freelist s) l /\ NoDup l /\ Forall good_page l /\
  (forall a p, pmem s !! a = Some p -> length p = 4096%nat).

Lemma length_page s l a : inv s l -> length (page (pmem s) a) = 4096%nat.
Proof.
  intros (_ & _ & _ & _ & H). unfold page. destruct (pmem s !! a) eqn:E; cbn; [eauto|].
  apply length_replicate.
Qed.

Lemma page_insert_eq m a p : page (<[a := p]> m) a = p.
Proof. unfold page. by rewrite lookup_insert_eq. Qed.

Lemma page_insert_ne m a b p : a <> b -> page (<[a := p]> m) b = page m b.
Proof. intros. unfold page. by rewrite lookup_insert_ne. Qed.

Lemma chain_insert m a l v p : v ∉ l -> chain m a l -> chain (<[v := p]> m) a l.
Proof.
  revert a. induction l as [|w l IH]; cbn; intros a Hv; [done|].
  intros [-> H]. split; [done|]. rewrite page_insert_ne by set_solver. apply IH; [set_solver | done].
Qed.

Lemma good_page_nonzero v : good_page v -> v <> 0.
Proof. pose proof kend_range as Hk. unfold good_page, KERNBASE in *. lia. Qed.

Lemma good_page_word v : good_page v -> 0 <= v < 2 ^ 32.
Proof. pose proof kend_range as Hk. unfold good_page, KERNBASE, PHYSTOP in *. lia. Qed.

Lemma chain_word m a l : Forall good_page l -> chain m a l -> 0 <= a < 2 ^ 32.
Proof.
  destruct l as [|v l]; cbn; [lia|]. inversion 1 as [|?? Hv _]; subst. intros [-> _].
  by apply good_page_word.
Qed.

(** Writes to pages that are not free keep the free list. *)
Lemma inv_write s l v p : inv s l -> v ∉ l -> length p = 4096%nat -> inv (set_page v p s) l.
Proof.
  intros (Hl & Hch & ? & ? & Hp) Hv Hlen. split_and!; try done; cbn.
  - by apply chain_insert.
  - intros a q. rewrite lookup_insert. case_decide; [congruence | eauto].
Qed.

(** [kfree] pushes the page on the free list, filled with the junk byte 1
    behind the link; it touches no other page. *)
Lemma kfree_spec v s l :
  inv s l -> good_page v -> v ∉ l ->
  exists s', kfree v s = Ret tt s' /\ inv s' (v :: l) /\ use_lock s' = use_lock s /\
    (forall a, a <> v -> page (pmem s') a = page (pmem s) a) /\
    (forall i, (4 <= i < 4096)%nat -> page (pmem s') v !! i = Some 1).
Proof.
  intros Hinv Hv Hn. pose proof Hinv as (Hl & Hch & Hnd & Hg & Hp).
  pose proof Hv as [Hal [Hlo Hhi]]. unfold kfree.
  rewrite Hal. cbn [negb orb Z.eqb]. destruct (Z.ltb_spec v kend); [lia|].
  unfold bind at 1, V2P. destruct (Z.ltb_spec v KERNBASE); [lia|]. cbn [ret].
  rewrite u32_small by (unfold KERNBASE, PHYSTOP in *; lia).
  destruct (Z.leb_spec PHYSTOP (v - KERNBASE)); [lia|].
  assert (exists s', (acquire_kmem ;;
      modify (fun s => set_page v (set32 (page (pmem s) v) 0 (freelist s)) s) ;;
      modify (set_freelist v) ;; release_kmem) (set_page v (replicate 4096 1) s) = Ret tt s' /\
      s' = set_freelist v (set_page v (set32 (replicate 4096 1) 0 (freelist s)) s)) as (s' & Heq & Hs').
  { unfold acquire_kmem, release_kmem, bind, modify. destruct s as [lk ul fl pm]; cbn in *; subst lk.
    destruct ul; cbn; eexists; (split; [reflexivity|]);
      unfold set_klock, set_freelist, set_page; cbn; rewrite page_insert_eq, insert_insert_eq; done. }
  exists s'. unfold bind at 1, modify at 1. rewrite Heq, Hs'. split; [done|].
  unfold set_freelist, set_page; cbn. split_and!; try done.
  - split; [exact Hl|]. cbn. rewrite page_insert_eq. split_and!; try done.
    + rewrite get32_set32_eq; [| rewrite length_replicate; lia | by eapply chain_word].
      by apply chain_insert.
    + by constructor.
    + by constructor.
    + intros a p. rewrite lookup_insert. case_decide; [|apply Hp].
      intros [= <-]. rewrite length_set32; rewrite length_replicate; lia.
  - intros a Ha. by rewrite page_insert_ne.
  - intros i Hi. rewrite page_insert_eq. unfold set32.
    rewrite lookup_splice by (rewrite length_le_enc, length_replicate; lia).
    rewrite length_le_enc, decide_False by lia. apply lookup_replicate_2. lia.
Qed.

(** [kalloc] pops the head of the free list and returns 0 exactly when the
    list is empty; it changes no page. *)
Lemma kalloc_spec s l :
  inv s l ->
  exists s', kalloc s = Ret (default 0 (head l)) s' /\ inv s' (tail l) /\
    pmem s' = pmem s /\ use_lock s' = use_lock s.
Proof.
  intros (Hl & Hch & Hnd & Hg & Hp).
  assert (kalloc s = Ret (freelist s) (if freelist s =? 0 then s
            else set_freelist (get32 (page (pmem s) (freelist s)) 0) s)) as ->.
  { unfold kalloc, acquire_kmem, release_kmem, bind, reads, when, modify, ret.
    destruct s as [lk ul fl pm]; cbn in *; subst lk.
    destruct ul; cbn; destruct (fl =? 0); done. }
  destruct l as [|v l]; cbn in *.
  - rewrite Hch. cbn. exists s. split; [done|]. split; [|done]. by split_and!.
  - destruct Hch as [-> Hch]. inversion Hg as [|?? Hv Hg']; subst. inversion Hnd; subst.
    destruct (Z.eqb_spec v 0) as [->|_]; [by destruct (good_page_nonzero 0 Hv)|].
    eexists. split; [reflexivity|]. by split_and!.
Qed.

(** [kfree] refuses an address that is not page aligned, lies below the
    end of the kernel, or is not below the end of physical memory. *)
Theorem kfree_bad v s :
  0 <= v < 2 ^ 32 -> ~ good_page v -> kfree v s = Panic "kfree".
Proof.
  intros Hr Hb. unfold kfree, bind, V2P, ret, panic.
  destruct (Z.eqb_spec (v mod PGSIZE) 0) as [Hal|]; [|done]. cbn.
  destruct (Z.ltb_spec v kend) as [|Hlo]; [done|].
  destruct (Z.ltb_spec v KERNBASE); [lia|]. cbn.
  rewrite u32_small by (unfold KERNBASE in *; lia).
  destruct (Z.leb_spec PHYSTOP (v - KERNBASE)); [done|].
  destruct Hb. split; [done | lia].
Qed.

(** ** Allocation safety

    Clients allocate, free what they own, and write what they like to the
    pages they own. *)

Record world := mk_world { km : kmem_t; owned : list Z }.

Inductive step : world -> world -> Prop :=
| step_alloc w v s' :
    kalloc (km w) = Ret v s' ->
    step w (mk_world s' (if v =? 0 then owned w else v :: owned w))
| step_free w v l1 l2 s' :
    owned w = l1 ++ v :: l2 -> kfree v (km w) = Ret tt s' ->
    step w (mk_world s' (l1 ++ l2))
| step_write w v p :
    v ∈ owned w -> length p = 4096%nat ->
    step w (mk_world (set_page v p (km w)) (owned w)).

Definition partition (all : list Z) (w : world) : Prop :=
  exists l, inv (km w) l /\ Permutation (l ++ owned w) all.

Lemma step_partition all w w' :
  NoDup all -> Forall good_page all -> partition all w -> step w w' -> partition all w'.
Proof.
  intros Hnd Hgood (l & Hinv & Hperm) Hst.
  assert (NoDup (l ++ owned w)) as Hnd' by by rewrite Hperm.
  assert (Forall good_page (l ++ owned w)) as Hg' by by rewrite Hperm.
  destruct Hst as [w v s' Ha | w v l1 l2 s' Ho Hf | w v p Hv Hlen].
  - destruct (kalloc_spec _ _ Hinv) as (s1 & Hk & Hinv1 & _). rewrite Ha in Hk.
    injection Hk as -> ->. exists (tail l). split; [done|].
    destruct l as [|v l]; cbn; [done|]. destruct (Z.eqb_spec v 0) as [->|_].
    + rewrite Forall_app in Hg'. destruct Hg' as [Hg' _]. inversion Hg' as [|?? H0 _]; subst.
      by destruct (good_page_nonzero 0 H0).
    + cbn. rewrite <- Hperm. cbn. symmetry. apply Permutation_middle.
  - rewrite Ho in *. apply NoDup_app in Hnd' as (_ & Hdis & _).
    rewrite Forall_app, Forall_app, Forall_cons in Hg'. destruct Hg' as (_ & _ & Hgv & _).
    destruct (kfree_spec v _ l Hinv Hgv) as (s1 & Hk & Hinv1 & _).
    { intros Hin. apply (Hdis v Hin). set_solver. }
    rewrite Hf in Hk. injection Hk as ->. exists (v :: l). split; [done|]. cbn.
    rewrite <- Hperm. rewrite app_assoc, app_assoc. apply Permutation_middle.
  - exists l. split; [|done]. apply NoDup_app in Hnd' as (_ & Hdis & _).
    apply inv_write; [done | | done]. intros Hin. by apply (Hdis v Hin).
Qed.

(** C24: pages are never lost, duplicated or handed out twice: starting from a
    free list that holds the pages [all], after any sequence of allocations,
    frees of owned pages and writes to owned pages, the free pages and the
    owned pages together are exactly [all], each once. *)
Theorem alloc_safety all s w :
  inv s all -> star step (mk_world s []) w ->
  exists free, inv (km w) free /\ Permutation (free ++ owned w) all /\
    (forall v, v ∈ owned w -> v ∉ free) /\ NoDup (owned w).
Proof.
  intros Hinv Hst. pose proof Hinv as (_ & _ & Hnd & Hg & _).
  assert (partition all w) as (l & Hl & Hp).
  { eapply star_inv; [| | exact Hst]; [intros; by eapply step_partition|].
    exists all. split; [done|]. cbn. by rewrite app_nil_r. }
  exists l. assert (NoDup (l ++ owned w)) as Hnd' by by rewrite Hp.
  apply NoDup_app in Hnd' as (? & Hdis & ?). split_and!; try done.
  intros v Ho Hf. by apply (Hdis v).
Qed.

(** ** Filling the free list *)

Fixpoint pages_from (p : Z) (n : nat) : list Z :=
  match n with O => [] | S n => p :: pages_from (p + PGSIZE) n end.

Lemma pages_from_elem p n v :
  v ∈ pages_from p n <-> exists i : nat, (i < n)%nat /\ v = p + PGSIZE * Z.of_nat i.
Proof.
  revert p. induction n as [|n IH]; intros p; cbn.
  - split; [by intros ?%elem_of_nil | intros (i & ? & _); lia].
  - rewrite elem_of_cons, IH. split.
    + intros [->|(i & ? & ->)]; [exists O | exists (S i)]; split; lia.
    + intros ([|i] & ? & ->); [left; lia | right; exists i; split; lia].
Qed.

Lemma elem_of_two_runs (l1 l2 : list Z) v : v ∈ rev l2 ++ rev l1 ++ [] <-> v ∈ l2 \/ v ∈ l1.
Proof. rewrite app_nil_r, elem_of_app, !list_elem_of_In, <- !in_rev. done. Qed.

(** The whole pages of an aligned range. *)
Lemma pages_from_range p top v :
  p mod PGSIZE = 0 -> top mod PGSIZE = 0 ->
  v ∈ pages_from p (Z.to_nat ((top - p) / PGSIZE)) <-> v mod PGSIZE = 0 /\ p <= v < top.
Proof.
  intros Hp Ht. rewrite pages_from_elem. unfold PGSIZE in *.
  apply Z.mod_divide in Hp as [q ->]; [|done]. apply Z.mod_divide in Ht as [t ->]; [|done].
  replace (t * 4096 - q * 4096) with ((t - q) * 4096) by lia. rewrite Z.div_mul by done. split.
  - intros (i & Hi & ->). split; [|lia].
    replace (q * 4096 + 4096 * Z.of_nat i) with ((q + Z.of_nat i) * 4096) by lia. apply Z.mod_mul. done.
  - intros [Hv Hr]. apply Z.mod_divide in Hv as [r ->]; [|done]. exists (Z.to_nat (r - q)). lia.
Qed.

Lemma freerange_loop_spec n p vend s l :
  inv s l -> good_page p \/ vend < p + PGSIZE ->
  vend <= KERNBASE + PHYSTOP ->
  (forall v, v ∈ l -> v < p \/ vend <= v) ->
  (Z.of_nat n = Z.max 0 ((vend - p) / PGSIZE)) ->
  exists s', freerange_loop (S n) p vend s = Ret tt s' /\
    inv s' (rev (pages_from p n) ++ l) /\ use_lock s' = use_lock s.
Proof.
  revert p s l. induction n as [|n IH]; intros p s l Hinv Hgp Hve Hl Hn.
  - unfold PGSIZE in *. exists s. cbn [freerange_loop].
    destruct (Z.leb_spec (p + PGSIZE) vend) as [H|H]; [|done].
    unfold PGSIZE in *. assert (1 <= (vend - p) / 4096) by (apply Z.div_le_lower_bound; lia). lia.
  - cbn [freerange_loop].
    assert (1 <= (vend - p) / PGSIZE) as Hge by lia.
    assert (PGSIZE * ((vend - p) / PGSIZE) <= vend - p) as Hmul
      by (apply Z.mul_div_le; unfold PGSIZE; lia).
    destruct (Z.leb_spec (p + PGSIZE) vend) as [H|H]; [|unfold PGSIZE in *; lia].
    destruct Hgp as [Hgp|]; [|lia].
    destruct (kfree_spec p s l Hinv Hgp) as (s1 & Hk & Hinv1 & Hu1 & _).
    { intros Hin. destruct (Hl p Hin); unfold PGSIZE in *; lia. }
    unfold bind at 1. rewrite Hk.
    assert ((vend - (p + PGSIZE)) / PGSIZE = (vend - p) / PGSIZE - 1) as Hdiv.
    { replace (vend - (p + PGSIZE)) with (vend - p + (-1) * PGSIZE) by lia.
      rewrite Z.div_add; unfold PGSIZE; lia. }
    destruct (IH (p + PGSIZE) s1 (p :: l)) as (s2 & Hr & Hinv2 & Hu2); try done.
    + destruct (Z.le_gt_cases (p + PGSIZE + PGSIZE) vend); [left|right; lia].
      destruct Hgp as [Hal Hrg]. unfold good_page, PGSIZE in *. split; [|lia].
      replace (p + 4096) with (p + 1 * 4096) by lia. by rewrite Z.mod_add.
    + intros v [->|Hv]%elem_of_cons; [unfold PGSIZE; lia|].
      destruct (Hl v Hv); [left; unfold PGSIZE; lia | by right].
    + rewrite Hdiv. lia.
    + exists s2. cbn [freerange_loop] in Hr. rewrite Hr. split; [done|]. split; [|congruence].
      cbn [pages_from rev]. rewrite <- app_assoc. exact Hinv2.
Qed.

Lemma freerange_spec vstart vend s l :
  inv s l -> 0 <= vstart -> vstart <= vend <= KERNBASE + PHYSTOP ->
  kend <= PGROUNDUP vstart -> PGROUNDUP vstart mod PGSIZE = 0 ->
  (forall v, v ∈ l -> v < PGROUNDUP vstart \/ vend <= v) ->
  let n := Z.to_nat ((vend - PGROUNDUP vstart) / PGSIZE) in
  exists s', freerange vstart vend s = Ret tt s' /\
    inv s' (rev (pages_from (PGROUNDUP vstart) n) ++ l) /\ use_lock s' = use_lock s.
Proof.
  intros Hinv H0 Hle Hk Hal Hl n. unfold freerange. destruct (Z.ltb_spec vend vstart); [lia|].
  apply freerange_loop_spec; try done; try lia.
  destruct (Z.le_gt_cases (PGROUNDUP vstart + PGSIZE) vend); [left|right; lia].
  split; [done | unfold PGSIZE in *; lia].
Qed.

Lemma PGROUNDUP_spec x :
  0 <= x <= 2 ^ 32 - PGSIZE ->
  PGROUNDUP x mod PGSIZE = 0 /\ x <= PGROUNDUP x < x + PGSIZE.
Proof.
  intros Hx. unfold PGROUNDUP. change (u32 (Z.lnot (PGSIZE - 1))) with (2 ^ 32 - 2 ^ 12).
  unfold PGSIZE in *. rewrite (u32_small (x + _ - _)) by lia. rewrite land_high_mask by lia.
  pose proof (Z.mod_pos_bound (x + 4096 - 1) (2 ^ 12)). change (2 ^ 12) with 4096 in *.
  split; [|lia]. rewrite Zminus_mod_idemp_r, Z.sub_diag. done.
Qed.

Lemma PGROUNDUP_aligned x : 0 <= x <= 2 ^ 32 - PGSIZE -> x mod PGSIZE = 0 -> PGROUNDUP x = x.
Proof.
  intros Hx Ha. destruct (PGROUNDUP_spec x Hx) as [Hm Hr]. unfold PGSIZE in *.
  apply Z.mod_divide in Ha as [q ->]; [|done]. apply Z.mod_divide in Hm as [r Hm]; [|done]. lia.
Qed.

(** No page boundary lies strictly between [kend] and its rounding. *)
Lemma good_page_split v mid :
  PGROUNDUP kend mod PGSIZE = 0 -> kend <= PGROUNDUP kend < kend + PGSIZE -> kend <= mid ->
  mid <= KERNBASE + PHYSTOP -> mid mod PGSIZE = 0 ->
  (v mod PGSIZE = 0 /\ mid <= v < KERNBASE + PHYSTOP) \/
  (v mod PGSIZE = 0 /\ PGROUNDUP kend <= v < mid) <-> good_page v.
Proof.
  intros Ha Hr Hm1 Hm2 Hma. unfold good_page, PGSIZE in *.
  apply Z.mod_divide in Ha as [q Hq]; [|done]. apply Z.mod_divide in Hma as [t ->]; [|done].
  split; [intuition lia|]. intros [Hv Hv']. pose proof Hv as Hv2.
  apply Z.mod_divide in Hv as [r ->]; [|done].
  destruct (Z.lt_ge_cases r t); [right | left]; (split; [done | lia]).
Qed.

Definition FOURMB : Z := 4 * 1024 * 1024.

(** The memory part of [main]: [kinit1(end, P2V(4*1024*1024))] and, once the
    other processors run, [kinit2(P2V(4*1024*1024), P2V(PHYSTOP))]. *)
Definition boot_kmem : M kmem_t unit :=
  let! mid := P2V FOURMB in
  kinit1 kend mid ;;
  let! top := P2V PHYSTOP in
  kinit2 mid top.

(** At boot every whole page between the end of the kernel and the end of
    physical memory, and nothing else, is put on the free list, once; the
    allocator's lock is in use afterwards. *)
Theorem boot_free_list s :
  kend <= KERNBASE + FOURMB -> freelist s = 0 ->
  (forall a p, pmem s !! a = Some p -> length p = 4096%nat) ->
  exists s' l, boot_kmem s = Ret tt s' /\ inv s' l /\ use_lock s' = true /\
    (forall v, v ∈ l <-> good_page v).
Proof.
  intros Hk4 Hfl Hpm. pose proof kend_range as Hkr. unfold boot_kmem.
  destruct (PGROUNDUP_spec kend) as [Hal Hup];
    [unfold KERNBASE, FOURMB, PGSIZE in *; lia|].
  unfold bind at 1, P2V at 1. change (KERNBASE <? FOURMB) with false. cbn [ret].
  change (u32 (FOURMB + KERNBASE)) with (KERNBASE + FOURMB).
  unfold bind at 1, kinit1. unfold bind at 1, modify at 1.
  set (s1 := set_use_lock false (set_klock false s)).
  assert (inv s1 []) as Hinv1 by (split_and!; try done; constructor).
  destruct (freerange_spec kend (KERNBASE + FOURMB) s1 [] Hinv1) as (s2 & Hr2 & Hinv2 & Hu2);
    [unfold KERNBASE in *; lia | unfold PHYSTOP, FOURMB in *; lia | lia | done | set_solver |].
  rewrite Hr2. unfold bind at 1, P2V. change (KERNBASE <? PHYSTOP) with false. cbn [ret].
  change (u32 (PHYSTOP + KERNBASE)) with (KERNBASE + PHYSTOP). unfold kinit2, bind.
  assert (PGROUNDUP (KERNBASE + FOURMB) = KERNBASE + FOURMB) as Hm by reflexivity.
  pose proof (fun v => pages_from_range (PGROUNDUP kend) (KERNBASE + FOURMB) v Hal eq_refl) as Hlow.
  destruct (freerange_spec (KERNBASE + FOURMB) (KERNBASE + PHYSTOP) s2 _ Hinv2)
    as (s3 & Hr3 & Hinv3 & Hu3);
    [unfold KERNBASE, FOURMB; lia | unfold PHYSTOP, FOURMB; lia | rewrite Hm; lia | done | |].
  { rewrite Hm. intros v. rewrite app_nil_r, list_elem_of_In, <- in_rev, <- list_elem_of_In, Hlow.
    lia. }
  rewrite Hr3. exists (set_use_lock true s3).
  eexists. split; [reflexivity|]. split; [exact Hinv3|]. split; [done|].
  intros v. rewrite Hm.
  pose proof (pages_from_range (KERNBASE + FOURMB) (KERNBASE + PHYSTOP) v eq_refl eq_refl) as Hhigh.
  rewrite elem_of_two_runs, Hlow, Hhigh.
  apply good_page_split; try done; unfold FOURMB, PHYSTOP; lia.
Qed.
End kalloc.

(** A machine whose kernel ends two pages below the top of memory. *)
Definition small_end : Z := KERNBASE + PHYSTOP - 8192.
Definition small_kmem : kmem_t :=
  {| k_lock := false; use_lock := true; freelist := 0; pmem := ∅ |}.

Lemma small_end_range : KERNBASE < small_end <= KERNBASE + PHYSTOP.
Proof. unfold small_end, KERNBASE, PHYSTOP. lia. Qed.

Lemma small_inv : inv small_end small_kmem [].
Proof. split_and!; try done; constructor. Qed.

Lemma small_good : good_page small_end small_end.
Proof. split; [reflexivity | unfold small_end, KERNBASE, PHYSTOP; lia]. Qed.

Lemma kfree_bad_witness : kfree small_end (small_end + 8) small_kmem = Panic "kfree".
Proof.
  apply (kfree_bad small_end small_end_range).
  - unfold small_end, KERNBASE, PHYSTOP. lia.
  - intros [H _]. discriminate H.
Defined.

(** One page free, then allocated: the client owns it and the list is empty. *)
Definition one_page : kmem_t :=
  {| k_lock := false; use_lock := true; freelist := small_end;
     pmem := {[ small_end := zero_page ]} |}.

Lemma one_page_inv : inv small_end one_page [small_end].
Proof.
  split_and!; try done.
  - repeat constructor. apply not_elem_of_nil.
  - constructor; [exact small_good | constructor].
  - intros a p Ha. cbn in Ha. apply lookup_singleton_Some in Ha as [_ <-]. apply length_replicate.
Qed.

Lemma alloc_safety_witness :
  exists s' free, kalloc one_page = Ret small_end s' /\ inv small_end s' free /\
    Permutation (free ++ [small_end]) [small_end] /\ small_end ∉ free.
Proof.
  destruct (kalloc one_page) as [v s'| | |] eqn:E; [|discriminate E ..].
  assert (v = small_end) as ->.
  { pose proof (f_equal (fun o => match o with Ret a _ => a | _ => 0 end) E) as Ev.
    vm_compute in Ev. symmetry. exact Ev. }
  destruct (alloc_safety small_end small_end_range [small_end] one_page (mk_world s' [small_end])
    one_page_inv) as (free & Hi & Hp & Hd & _).
  { eapply star_snoc; [apply star_refl|].
    exact (step_alloc small_end (mk_world one_page []) small_end s' E). }
  exists s', free. split; [reflexivity|]. split; [exact Hi|]. split; [exact Hp|].
  apply Hd. cbn. by apply elem_of_cons; left.
Defined.

Lemma boot_free_list_witness :
  exists s' (l : list Z), boot_kmem (KERNBASE + EXTMEM + 5000) small_kmem = Ret tt s' /\
    (KERNBASE + EXTMEM + 8192) ∈ l.
Proof.
  assert (KERNBASE < KERNBASE + EXTMEM + 5000 <= KERNBASE + PHYSTOP) as Hk
    by (unfold KERNBASE, EXTMEM, PHYSTOP; lia).
  destruct (boot_free_list (KERNBASE + EXTMEM + 5000) Hk small_kmem) as (s' & l & H & _ & _ & Hl).
  - unfold KERNBASE, EXTMEM, FOURMB. lia.
  - reflexivity.
  - intros a p Ha. cbn in Ha. rewrite lookup_empty in Ha. discriminate Ha.
  - exists s', l. split; [exact H|]. apply Hl. split; [reflexivity | unfold KERNBASE, EXTMEM, PHYSTOP; lia].
Defined.
