(* ===== verification/Pipe.v ===== *)
(** * Pipes (pipe.c)

    The pipe is the ring buffer of [struct pipe]: 512 bytes and two 32-bit
    counters that are never reduced modulo the size and wrap at 2^32.
    [pipewrite] and [piperead] run under the pipe's lock except while they
    sleep, so a call is a sequence of segments: from the call, or from a wake
    up, to the return or to the next sleep.  [pipewrite_seg] and
    [piperead_seg] are those segments; [step] interleaves the segments of any
    number of readers and writers, and the closing of both ends. *)

From S2P Require Import Prelude.

Definition PIPESIZE : Z := 512.

Record pipe := mk_pipe {
  lock : bool;
  data : list Z;
  nread : Z;
  nwrite : Z;
  readopen : bool;
  writeopen : bool;
}.

(** The initialisation of a fresh page by [pipealloc]; the bytes of [data]
    are whatever the page holds. *)
Definition pipe_init (page : list Z) : pipe :=
  {| lock := false; data := page; nread := 0; nwrite := 0;
     readopen := true; writeopen := true |}.

(** The sleep channels [&p->nread] and [&p->nwrite] of the pipe at [self]. *)
Definition chan_nread (self : Z) : Z := self + 564.
Definition chan_nwrite (self : Z) : Z := self + 568.

Definition set_lock (b : bool) (p : pipe) : pipe :=
  {| lock := b; data := data p; nread := nread p; nwrite := nwrite p;
     readopen := readopen p; writeopen := writeopen p |}.

(** [p->data[p->nwrite++ % PIPESIZE] = b] *)
Definition put_byte (b : Z) (p : pipe) : pipe :=
  {| lock := lock p; data := aset (data p) (nwrite p mod PIPESIZE) b;
     nread := nread p; nwrite := u32 (nwrite p + 1);
     readopen := readopen p; writeopen := writeopen p |}.

(** [p->data[p->nread++ % PIPESIZE]]: the byte and the pipe after it. *)
Definition take_byte (p : pipe) : Z * pipe :=
  (aref (data p) (nread p mod PIPESIZE),
   {| lock := lock p; data := data p; nread := u32 (nread p + 1); nwrite := nwrite p;
      readopen := readopen p; writeopen := writeopen p |}).

Definition is_full (p : pipe) : bool := nwrite p =? u32 (nread p + PIPESIZE).
Definition is_empty (p : pipe) : bool := nread p =? nwrite p.

Inductive seg_end :=
| Return (r : Z)
| Asleep (chan : Z).

Section ops.
Variable self : Z.

(** A segment of [pipewrite(p, addr, n)] with loop index [i]: [rest] holds
    [addr[i..n)].  The result has the index reached, and the channels that
    [wakeup] was called on. *)
Fixpoint pipewrite_loop (killed : bool) (n : Z) (rest : list Z) (i : Z) (p : pipe)
  : seg_end * Z * pipe * list Z :=
  match rest with
  | [] => (Return n, i, set_lock false p, [chan_nread self])
  | b :: rest' =>
      if is_full p then
        if negb (readopen p) || killed then (Return (-1), i, set_lock false p, [])
        else (Asleep (chan_nwrite self), i, set_lock false p, [chan_nread self])
      else pipewrite_loop killed n rest' (i + 1) (put_byte b p)
  end.

Definition pipewrite_seg (killed : bool) (n : Z) (rest : list Z) (i : Z) (p : pipe) :=
  pipewrite_loop killed n rest i (set_lock true p).

Definition pipewrite (killed : bool) (addr : list Z) (n : Z) (p : pipe) :=
  pipewrite_seg killed n (take (Z.to_nat n) addr) 0 p.

(** The copying loop of [piperead]: the bytes stored in [addr]. *)
Fixpoint piperead_copy (n : nat) (p : pipe) : list Z * pipe :=
  match n with
  | O => ([], p)
  | S n' =>
      if is_empty p then ([], p)
      else let '(b, p1) := take_byte p in
           let '(bs, p2) := piperead_copy n' p1 in (b :: bs, p2)
  end.

Definition piperead_seg (killed : bool) (n : Z) (p : pipe)
  : seg_end * list Z * pipe * list Z :=
  let p := set_lock true p in
  if is_empty p && writeopen p then
    if killed then (Return (-1), [], set_lock false p, [])
    else (Asleep (chan_nread self), [], set_lock false p, [])
  else
    let '(bs, p') := piperead_copy (Z.to_nat n) p in
    (Return (Z.of_nat (length bs)), bs, set_lock false p', [chan_nwrite self]).

(** [pipeclose]: the pipe, the channels woken, and whether the page is freed. *)
Definition pipeclose (writable : bool) (p : pipe) : pipe * list Z * bool :=
  let p' := {| lock := false; data := data p; nread := nread p; nwrite := nwrite p;
               readopen := if writable then readopen p else false;
               writeopen := if writable then false else writeopen p |} in
  (p', [if writable then chan_nread self else chan_nwrite self],
   negb (readopen p') && negb (writeopen p')).

End ops.

(** ** The abstract queue *)

Definition count (p : pipe) : nat := Z.to_nat (u32 (nwrite p - nread p)).

Definition contents (p : pipe) : list Z :=
  (fun k : nat => aref (data p) (u32 (nread p + Z.of_nat k) mod PIPESIZE)) <$> seq 0 (count p).

Definition wf (p : pipe) : Prop :=
  length (data p) = 512%nat /\ 0 <= nread p < 2 ^ 32 /\ 0 <= nwrite p < 2 ^ 32 /\
  (count p <= 512)%nat.

Lemma length_contents p : length (contents p) = count p.
Proof. unfold contents. by rewrite length_fmap, length_seq. Qed.

Lemma wf_init page : length page = 512%nat -> wf (pipe_init page).
Proof. intros H. unfold wf. cbn [pipe_init data nread nwrite]. split_and!; auto; [lia .. | vm_compute; lia]. Qed.

Lemma is_full_count p : wf p -> is_full p = true <-> count p = 512%nat.
Proof.
  intros (_ & Hr & Hw & Hc). unfold is_full, count in *.
  pose proof (u32_range (nwrite p - nread p)). rewrite Z.eqb_eq. split.
  - intros ->. rewrite u32_sub_l. replace (nread p + PIPESIZE - nread p) with PIPESIZE by lia.
    done.
  - intros Hd. assert (u32 (nwrite p - nread p) = 512) as Hd' by lia.
    rewrite <- (u32_small (nwrite p)) by done. change PIPESIZE with 512. rewrite <- Hd'.
    rewrite u32_add_r. f_equal. lia.
Qed.

Lemma is_empty_count p : wf p -> is_empty p = true <-> count p = 0%nat.
Proof.
  intros (_ & Hr & Hw & Hc). unfold is_empty, count in *.
  pose proof (u32_range (nwrite p - nread p)). rewrite Z.eqb_eq. split.
  - intros ->. by rewrite Z.sub_diag.
  - intros Hd. assert (u32 (nwrite p - nread p) = 0) as Hd' by lia.
    rewrite <- (u32_small (nwrite p)), <- (u32_small (nread p)) by done.
    replace (nwrite p) with (nread p + (nwrite p - nread p)) by lia.
    rewrite <- u32_add_r, Hd'. f_equal. lia.
Qed.

Lemma u32_mod_512 z : u32 z mod PIPESIZE = z mod PIPESIZE.
Proof. change PIPESIZE with (2 ^ 9). apply u32_mod_pow2. lia. Qed.

Lemma put_count p b : wf p -> (count p < 512)%nat -> count (put_byte b p) = S (count p).
Proof.
  intros (_ & Hr & Hw & Hc) Hlt. unfold count in *; cbn.
  pose proof (u32_range (nwrite p - nread p)).
  rewrite u32_sub_l. replace (nwrite p + 1 - nread p) with (nwrite p - nread p + 1) by lia.
  rewrite <- u32_add_l. rewrite (u32_small (_ + 1)) by lia. lia.
Qed.

Lemma put_wf p b : wf p -> (count p < 512)%nat -> wf (put_byte b p).
Proof.
  intros Hwf Hlt. pose proof (put_count p b Hwf Hlt) as Hc.
  destruct Hwf as (Hl & Hr & Hw & _). split; [|split; [|split]].
  - unfold put_byte; cbn. unfold aset. rewrite length_insert. done.
  - done.
  - apply u32_range.
  - lia.
Qed.

(** Writing at the tail never overwrites a byte still queued: its slot is at
    a distance below the size. *)
Lemma slot_ne a k c :
  0 <= k < c -> c < 512 -> (a + k) mod PIPESIZE <> (a + c) mod PIPESIZE.
Proof.
  intros Hk Hc Heq. unfold PIPESIZE in *.
  pose proof (Z.div_mod (a + k) 512). pose proof (Z.div_mod (a + c) 512). lia.
Qed.

Lemma contents_put p b :
  wf p -> (count p < 512)%nat -> contents (put_byte b p) = contents p ++ [b].
Proof.
  intros Hwf Hlt. pose proof (put_count p b Hwf Hlt) as Hc. unfold contents at 1. rewrite Hc.
  rewrite seq_S, fmap_app. cbn [fmap list_fmap Nat.add].
  destruct Hwf as (Hl & Hr & Hw & _).
  assert (nwrite p mod PIPESIZE = (nread p + Z.of_nat (count p)) mod PIPESIZE) as Hnw.
  { unfold count. rewrite Z2Nat.id by apply u32_range.
    rewrite <- (u32_mod_512 (nread p + _)), u32_add_r.
    replace (nread p + (nwrite p - nread p)) with (nwrite p) by lia.
    by rewrite u32_small. }
  f_equal.
  - unfold contents. apply list_fmap_ext. intros i k Hk%lookup_seq. destruct Hk as [-> Hk].
    cbn [nread put_byte data]. unfold aref, aset.
    rewrite list_lookup_insert_ne; [done|]. rewrite !u32_mod_512.
    intros Heq. apply Z2Nat.inj in Heq;
      [| apply Z.mod_pos_bound; unfold PIPESIZE; lia ..].
    rewrite Hnw in Heq. symmetry in Heq. revert Heq. apply slot_ne; lia.
  - cbn [nread put_byte data]. unfold aref, aset. rewrite u32_mod_512, <- Hnw.
    rewrite list_lookup_insert_eq; [done|].
    pose proof (Z.mod_pos_bound (nwrite p) PIPESIZE ltac:(unfold PIPESIZE; lia)).
    unfold PIPESIZE in *. lia.
Qed.

Lemma take_count p : wf p -> (0 < count p)%nat -> count p = S (count (take_byte p).2).
Proof.
  intros (_ & Hr & Hw & Hc) Hpos. unfold count in *; cbn.
  pose proof (u32_range (nwrite p - nread p)).
  rewrite u32_sub_r. replace (nwrite p - (nread p + 1)) with (nwrite p - nread p - 1) by lia.
  rewrite <- (u32_sub_l (_ - _) 1). rewrite (u32_small (_ - 1)) by lia. lia.
Qed.

Lemma take_wf p : wf p -> (0 < count p)%nat -> wf (take_byte p).2.
Proof.
  intros Hwf Hpos. pose proof (take_count p Hwf Hpos) as Hc.
  destruct Hwf as (Hl & Hr & Hw & Hle). split; [|split; [|split]].
  - done.
  - apply u32_range.
  - done.
  - lia.
Qed.

Lemma contents_take p :
  wf p -> (0 < count p)%nat -> contents p = (take_byte p).1 :: contents (take_byte p).2.
Proof.
  intros Hwf Hpos. pose proof (take_count p Hwf Hpos) as Hc. unfold contents at 1. rewrite Hc.
  cbn [seq fmap list_fmap]. f_equal.
  - rewrite Z.add_0_r, u32_mod_512. done.
  - unfold contents. rewrite <- fmap_S_seq, <- list_fmap_compose. apply list_fmap_ext.
    intros _ k _. unfold compose. cbn [snd take_byte nread data].
    rewrite u32_add_l. do 2 f_equal. f_equal. lia.
Qed.

Lemma contents_set_lock b p : contents (set_lock b p) = contents p.
Proof. done. Qed.

(** ** What a segment does *)

Lemma pipewrite_loop_spec self killed n rest i p :
  wf p ->
  let k := Nat.min (length rest) (512 - count p) in
  let '(r, i', p', wk) := pipewrite_loop self killed n rest i p in
  wf p' /\ lock p' = false /\ contents p' = contents p ++ take k rest /\ i' = i + Z.of_nat k /\
  readopen p' = readopen p /\ writeopen p' = writeopen p /\
  ((k = length rest /\ r = Return n /\ wk = [chan_nread self]) \/
   ((k < length rest)%nat /\ count p' = 512%nat /\
    ((r = Return (-1) /\ (readopen p = false \/ killed = true) /\ wk = []) \/
     (r = Asleep (chan_nwrite self) /\ readopen p = true /\ killed = false /\
      wk = [chan_nread self])))).
Proof.
  revert i p. induction rest as [|b rest IH]; intros i p Hwf.
  { cbn. rewrite app_nil_r. split_and!; try done; [lia | by left]. }
  cbn [pipewrite_loop]. destruct (is_full p) eqn:Hf.
  - apply is_full_count in Hf as Hcnt; [|done]. rewrite Hcnt.
    replace (Nat.min _ _) with 0%nat by (cbn; lia).
    destruct (readopen p) eqn:Hro, killed; cbn;
      rewrite app_nil_r; (split_and!; try done; try lia; right; split_and!; try lia; try done;
      first [by left; split_and!; auto | by right]).
  - assert (count p < 512)%nat as Hlt.
    { destruct (decide (count p = 512%nat)) as [H512|]; [|destruct Hwf as (_&_&_&?); lia].
      apply is_full_count in H512; [congruence | done]. }
    specialize (IH (i + 1) (put_byte b p) (put_wf p b Hwf Hlt)).
    rewrite put_count, contents_put in IH by done. cbn [length].
    destruct (pipewrite_loop _ _ _ _ _ _) as [[[r i'] p'] wk].
    destruct IH as (Hwf' & Hlk & Hc & Hi & Hro & Hwo & Hres).
    replace (Nat.min (S (length rest)) (512 - count p))
      with (S (Nat.min (length rest) (512 - S (count p)))) by lia.
    split_and!; try done.
    + rewrite Hc. by rewrite <- app_assoc.
    + lia.
    + destruct Hres as [(?&?&?)|(?&?&Hres)]; [left | right]; split_and!; auto; lia.
Qed.

Lemma piperead_copy_spec n p :
  wf p ->
  let '(bs, p') := piperead_copy n p in
  wf p' /\ bs = take n (contents p) /\ contents p' = drop n (contents p) /\
  readopen p' = readopen p /\ writeopen p' = writeopen p.
Proof.
  revert p. induction n as [|n IH]; intros p Hwf; [done|]. cbn [piperead_copy].
  destruct (is_empty p) eqn:He.
  - apply is_empty_count in He; [|done].
    assert (contents p = []) as -> by (apply length_zero_iff_nil; by rewrite length_contents).
    done.
  - assert (0 < count p)%nat as Hpos.
    { destruct (decide (count p = 0%nat)) as [H0|]; [|lia].
      apply is_empty_count in H0; [congruence | done]. }
    rewrite (contents_take p Hwf Hpos). pose proof (take_wf p Hwf Hpos) as Hwf1.
    destruct (take_byte p) as [b p1] eqn:Et. cbn [fst snd] in *.
    specialize (IH p1 Hwf1). destruct (piperead_copy n p1) as [bs p2].
    destruct IH as (? & -> & ? & ? & ?).
    assert (readopen p1 = readopen p /\ writeopen p1 = writeopen p) as [<- <-]
      by (injection Et as _ <-; done).
    done.
Qed.

(** C1: [pipewrite] appends to the queue exactly as many of its bytes as fit
    in the 512 slots, whatever the counters have wrapped to.  It returns [n]
    when they all fit; otherwise it stops with the pipe full, returning -1 if
    the read end is closed or the caller was killed, and sleeping on
    [&p->nwrite], after waking the readers, if not. *)
Theorem pipewrite_correct self killed n rest i p :
  wf p ->
  let k := Nat.min (length rest) (512 - count p) in
  let '(r, i', p', wk) := pipewrite_seg self killed n rest i p in
  wf p' /\ lock p' = false /\ contents p' = contents p ++ take k rest /\ i' = i + Z.of_nat k /\
  ((k = length rest /\ r = Return n /\ wk = [chan_nread self]) \/
   ((k < length rest)%nat /\ count p' = 512%nat /\
    ((r = Return (-1) /\ (readopen p = false \/ killed = true) /\ wk = []) \/
     (r = Asleep (chan_nwrite self) /\ readopen p = true /\ killed = false /\
      wk = [chan_nread self])))).
Proof.
  intros Hwf. pose proof (pipewrite_loop_spec self killed n rest i (set_lock true p) Hwf) as H.
  unfold pipewrite_seg. destruct (pipewrite_loop _ _ _ _ _ _) as [[[r i'] p'] wk].
  destruct H as (?&?&?&?&_&_&?). done.
Qed.

(** The empty pipe at counter values just below the wrap-around. *)
Definition wrapping_pipe : pipe :=
  {| lock := false; data := replicate 512 0; nread := 2 ^ 32 - 1; nwrite := 2 ^ 32 - 1;
     readopen := true; writeopen := true |}.

Lemma wrapping_pipe_wf : wf wrapping_pipe.
Proof. unfold wf. cbn [wrapping_pipe data nread nwrite]. split_and!; try lia; vm_compute; lia. Qed.

Lemma pipewrite_correct_witness :
  wf wrapping_pipe /\
  contents (pipewrite_seg 0 false 3 [1; 2; 3] 0 wrapping_pipe).1.2 = [1; 2; 3].
Proof.
  pose proof wrapping_pipe_wf as Hwf. split; [exact Hwf|].
  exact (proj1 (proj2 (proj2 (pipewrite_correct 0 false 3 [1; 2; 3] 0 wrapping_pipe Hwf)))).
Defined.

(** C2: [piperead] takes the oldest bytes of the queue, as many as asked for
    and available, and wakes the writers.  It sleeps only when the queue is
    empty and the write end open; with the write end closed it returns 0 on
    an empty queue; a killed reader of an empty pipe gets -1. *)
Theorem piperead_correct self killed n p :
  wf p ->
  let '(r, bs, p', wk) := piperead_seg self killed n p in
  wf p' /\ lock p' = false /\ contents p = bs ++ contents p' /\
  (if decide (count p = 0%nat /\ writeopen p = true) then
     bs = [] /\ wk = [] /\ r = if killed then Return (-1) else Asleep (chan_nread self)
   else bs = take (Z.to_nat n) (contents p) /\ wk = [chan_nwrite self] /\
        r = Return (Z.min (Z.max n 0) (Z.of_nat (count p)))).
Proof.
  intros Hwf. unfold piperead_seg.
  assert (wf (set_lock true p)) as Hwf' by exact Hwf.
  pose proof (is_empty_count (set_lock true p) Hwf') as He.
  change (count (set_lock true p)) with (count p) in He.
  destruct (is_empty (set_lock true p) && writeopen (set_lock true p)) eqn:Eb.
  - apply andb_true_iff in Eb as [Ee Ew]. apply He in Ee.
    destruct killed; rewrite decide_True by done; done.
  - pose proof (piperead_copy_spec (Z.to_nat n) (set_lock true p) Hwf') as H.
    destruct (piperead_copy _ _) as [bs p']. destruct H as (? & -> & Hd & _).
    rewrite decide_False by (intros [H0 Hw]; apply He in H0; rewrite H0 in Eb; cbn in Eb; congruence).
    split_and!; try done.
    + rewrite !contents_set_lock, Hd, contents_set_lock. by rewrite take_drop.
    + rewrite length_take, length_contents. f_equal.
      change (count (set_lock true p)) with (count p). lia.
Qed.

Lemma piperead_correct_witness :
  let p := (pipewrite_seg 0 false 3 [1; 2; 3] 0 wrapping_pipe).1.2 in
  wf p /\ (piperead_seg 0 false 2 p).1.1.2 = [1; 2].
Proof.
  intros p.
  assert (wf p) as Hwf by (unfold wf; vm_compute; repeat split; first [lia | discriminate | intros [=]]).
  split; [exact Hwf|].
  pose proof (piperead_correct 0 false 2 p Hwf) as H. revert H. vm_compute. tauto.
Defined.

(** ** Interleavings

    Any number of processes write, read and close.  [sent] and [received]
    record the bytes that went in and came out, in order. *)

Record world := mk_world { pp : pipe; sent : list Z; received : list Z }.

Inductive step (self : Z) : world -> world -> Prop :=
| step_write w killed n rest i r i' p' wk :
    pipewrite_seg self killed n rest i (pp w) = (r, i', p', wk) ->
    step self w (mk_world p' (sent w ++ take (Z.to_nat (i' - i)) rest) (received w))
| step_read w killed n r bs p' wk :
    piperead_seg self killed n (pp w) = (r, bs, p', wk) ->
    step self w (mk_world p' (sent w) (received w ++ bs))
| step_close w writable p' wk freed :
    pipeclose self writable (pp w) = (p', wk, freed) -> freed = false ->
    step self w (mk_world p' (sent w) (received w)).

Definition fifo (w : world) : Prop := wf (pp w) /\ sent w = received w ++ contents (pp w).

Lemma step_fifo self w w' : fifo w -> step self w w' -> fifo w'.
Proof.
  intros [Hwf Hs] Hst.
  destruct Hst as [w killed n rest i r i' p' wk H | w killed n r bs p' wk H
                  | w writable p' wk freed H _].
  - pose proof (pipewrite_loop_spec self killed n rest i (set_lock true (pp w)) Hwf) as Hw.
    unfold pipewrite_seg in H. rewrite H in Hw. destruct Hw as (Hwf' & _ & Hc & Hi & _).
    split; [done|]. cbn. rewrite Hc, Hs, contents_set_lock, <- app_assoc. do 3 f_equal. lia.
  - unfold piperead_seg in H.
    pose proof (piperead_copy_spec (Z.to_nat n) (set_lock true (pp w)) Hwf) as Hr.
    destruct (is_empty _ && _); [destruct killed|]; [injection H as <- <- <- <- ..|].
    1, 2: split; [done|]; cbn; by rewrite app_nil_r.
    destruct (piperead_copy _ _) as [bs0 p0]. injection H as <- <- <- <-.
    destruct Hr as (Hwf' & -> & Hc & _). split; [done|]. cbn.
    rewrite !contents_set_lock in *. by rewrite Hc, <- app_assoc, take_drop.
  - injection H as <- _ _. done.
Qed.

(** C19: the pipe is a FIFO for any interleaving of any number of readers and
    writers, sleeps and wake ups and closes included: from a fresh pipe, the
    bytes received so far followed by the bytes queued are the bytes sent, so
    what is received is a prefix of what was sent. *)
Theorem pipe_fifo self page w :
  length page = 512%nat ->
  star (step self) (mk_world (pipe_init page) [] []) w ->
  wf (pp w) /\ sent w = received w ++ contents (pp w) /\ received w `prefix_of` sent w.
Proof.
  intros Hp Hst.
  assert (fifo w) as [Hwf Hs].
  { eapply star_inv; [apply step_fifo | | exact Hst]. split; [by apply wf_init | done]. }
  split_and!; [done | done |]. exists (contents (pp w)). exact Hs.
Qed.

Lemma pipe_fifo_witness :
  let p1 := (pipewrite_seg 0 false 2 [7; 8] 0 (pipe_init (replicate 512 0))).1.2 in
  let p2 := (piperead_seg 0 false 1 p1).1.2 in
  [7] `prefix_of` [7; 8] /\ contents p2 = [8].
Proof.
  intros p1 p2.
  assert (star (step 0) (mk_world (pipe_init (replicate 512 0)) [] []) (mk_world p2 [7; 8] [7])) as Hst.
  { eapply star_snoc; [eapply star_snoc; [apply star_refl|]|].
    - apply (step_write 0 (mk_world _ [] []) false 2 [7; 8] 0 (Return 2) 2 p1 [564]). vm_compute. reflexivity.
    - apply (step_read 0 (mk_world p1 [7; 8] []) false 1 (Return 1) [7] p2 [568]). vm_compute. reflexivity. }
  split.
  - exact (proj2 (proj2 (pipe_fifo 0 (replicate 512 0) _ eq_refl Hst))).
  - vm_compute. reflexivity.
Defined.
