(* ===== verification/Cstring.v ===== *)
(** * Memory and string routines (string.c of the kernel, ulib.c of the user
    library)

    The memory routines run on one flat byte array, so that source and
    destination may overlap; a pointer is an index into it.  The string
    routines get the bytes from the pointer on as a list, and are partial:
    [None] is a read or a write past the end of the array. *)

From S2P Require Import Prelude.

(** ** Memory *)

(** [rep stosb] and [rep stosl] of x86.h. *)
Fixpoint stosb (mem : list Z) (addr : nat) (data : Z) (cnt : nat) : list Z :=
  match cnt with
  | O => mem
  | S cnt => stosb (<[addr := u8 data]> mem) (addr + 1) data cnt
  end.

Fixpoint stosl (mem : list Z) (addr : nat) (data : Z) (cnt : nat) : list Z :=
  match cnt with
  | O => mem
  | S cnt => stosl (set32 mem addr data) (addr + 4) data cnt
  end.

(** [(c<<24)|(c<<16)|(c<<8)|c] *)
Definition spread (c : Z) : Z :=
  u32 (Z.lor (Z.lor (Z.lor (Z.shiftl c 24) (Z.shiftl c 16)) (Z.shiftl c 8)) c).

Definition memset (mem : list Z) (dst : nat) (c : Z) (n : nat) : list Z :=
  if (Z.rem (i32 (Z.of_nat dst)) 4 =? 0) && (Z.of_nat n mod 4 =? 0)
  then stosl mem dst (spread (Z.land c 0xFF)) (n / 4)
  else stosb mem dst c n.

Fixpoint memcmp (s1 s2 : list Z) (n : nat) {struct n} : option Z :=
  match n with
  | O => Some 0
  | S n => match s1, s2 with
           | a :: s1, b :: s2 => if negb (a =? b) then Some (a - b) else memcmp s1 s2 n
           | _, _ => None
           end
  end.

(** [while(n-- > 0) *d++ = *s++] and [while(n-- > 0) *--d = *--s]. *)
Fixpoint copy_up (mem : list Z) (d s n : nat) : list Z :=
  match n with
  | O => mem
  | S n => copy_up (<[d := mem !!! s]> mem) (d + 1) (s + 1) n
  end.

Fixpoint copy_down (mem : list Z) (d s n : nat) : list Z :=
  match n with
  | O => mem
  | S n => copy_down (<[d - 1 := mem !!! (s - 1)]> mem)%nat (d - 1) (s - 1) n
  end.

Definition memmove (mem : list Z) (dst src n : nat) : list Z :=
  if ((src <? dst) && (dst <? src + n))%nat then copy_down mem (dst + n) (src + n) n
  else copy_up mem dst src n.

Definition memcpy := memmove.

(** ulib.c's [memmove] only copies upwards; its [n] is an [int]. *)
Definition umemmove (mem : list Z) (dst src : nat) (n : Z) : list Z :=
  copy_up mem dst src (Z.to_nat n).

Definition umemset (mem : list Z) (dst : nat) (c : Z) (n : nat) : list Z := stosb mem dst c n.

(** ** Strings *)

(** [s[n]] loops of [strlen]. *)
Fixpoint strlen (s : list Z) : option Z :=
  match s with
  | [] => None
  | c :: s => if c =? 0 then Some 0 else (fun n => n + 1) <$> strlen s
  end.

Fixpoint strncmp (p q : list Z) (n : nat) {struct n} : option Z :=
  match n with
  | O => Some 0
  | S n => match p, q with
           | a :: p, b :: q =>
               if negb (a =? 0) && (a =? b) then strncmp p q n else Some (u8 a - u8 b)
           | _, _ => None
           end
  end.

(** [while(n-- > 0) *s++ = 0]. *)
Fixpoint zero_fill (s : list Z) (n : nat) {struct n} : option (list Z) :=
  match n, s with
  | O, _ => Some s
  | S n, _ :: s => cons 0 <$> zero_fill s n
  | S _, [] => None
  end.

Fixpoint strncpy (s t : list Z) (n : nat) {struct n} : option (list Z) :=
  match n with
  | O => Some s
  | S n => match s, t with
           | _ :: s, c :: t =>
               cons c <$> (if c =? 0 then zero_fill s n else strncpy s t n)
           | _, _ => None
           end
  end.

(** The loop of [safestrcpy] with [n - 1] bytes left to copy, then [*s = 0]. *)
Fixpoint safestrcpy_loop (s t : list Z) (n : nat) {struct n} : option (list Z) :=
  match n with
  | O => zero_fill s 1
  | S n => match s, t with
           | _ :: s, c :: t =>
               cons c <$> (if c =? 0 then zero_fill s 1 else safestrcpy_loop s t n)
           | _, _ => None
           end
  end.

Definition safestrcpy (s t : list Z) (n : Z) : option (list Z) :=
  if n <=? 0 then Some s else safestrcpy_loop s t (Z.to_nat (n - 1)).

Fixpoint strcpy (s t : list Z) : option (list Z) :=
  match s, t with
  | _ :: s, c :: t => cons c <$> (if c =? 0 then Some s else strcpy s t)
  | _, _ => None
  end.

Fixpoint strcmp (p q : list Z) : option Z :=
  match p, q with
  | a :: p, b :: q =>
      if negb (a =? 0) && (a =? b) then strcmp p q else Some (u8 a - u8 b)
  | _, _ => None
  end.

(** [strchr] returns the offset of the character it finds. *)
Fixpoint strchr (s : list Z) (c : Z) : option (option nat) :=
  match s with
  | [] => None
  | a :: s => if a =? 0 then Some None
              else if a =? c then Some (Some O)
              else option_map (option_map S) (strchr s c)
  end.

Definition ch_0 : Z := 48.
Definition ch_9 : Z := 57.
Definition ch_nl : Z := 10.
Definition ch_cr : Z := 13.

Fixpoint atoi_loop (s : list Z) (n : Z) : option Z :=
  match s with
  | [] => None
  | c :: s => if (ch_0 <=? c) && (c <=? ch_9) then atoi_loop s (i32 (i32 (i32 (n * 10) + c) - ch_0))
              else Some n
  end.

Definition atoi (s : list Z) : option Z := atoi_loop s 0.

(** [gets] on the bytes that the reads of standard input will deliver, one at
    a time; an empty list is end of file.  Returns the buffer and what is left. *)
Fixpoint gets_loop (inp buf : list Z) (i max : nat) : list Z * list Z :=
  if (i + 1 <? max)%nat then
    match inp with
    | [] => (<[i := 0]> buf, [])
    | c :: inp =>
        let buf := <[i := c]> buf in
        if (c =? ch_nl) || (c =? ch_cr) then (<[(i + 1)%nat := 0]> buf, inp)
        else gets_loop inp buf (i + 1) max
    end
  else (<[i := 0]> buf, inp).

Definition gets (inp buf : list Z) (max : nat) : list Z * list Z := gets_loop inp buf 0 max.

(** ** What the routines compute *)

(** The C string a byte array starts with. *)
Fixpoint cstr (s : list Z) : list Z :=
  match s with
  | [] => []
  | c :: s => if c =? 0 then [] else c :: cstr s
  end.

Definition terminated (s : list Z) : Prop := 0 ∈ s.

#[export] Instance terminated_dec s : Decision (terminated s).
Proof. unfold terminated. apply _. Defined.

Lemma splice_cons off x new (l : list Z) :
  (off + length new < length l)%nat ->
  splice (S off) new (<[off := x]> l) = splice off (x :: new) l.
Proof.
  intros H. apply list_eq. intros i.
  rewrite !lookup_splice by (rewrite ?length_insert; cbn; lia). cbn [length].
  destruct (decide (i = off)) as [->|Hi].
  - rewrite decide_False, decide_True by lia. rewrite Nat.sub_diag. cbn.
    apply list_lookup_insert_eq. lia.
  - case_decide; [rewrite decide_True by lia; replace (i - off)%nat with (S (i - S off)) by lia; done|].
    rewrite decide_False by lia. by apply list_lookup_insert_ne.
Qed.

Lemma splice_snoc off x new (l : list Z) :
  (off + length new < length l)%nat ->
  splice off new (<[(off + length new)%nat := x]> l) = splice off (new ++ [x]) l.
Proof.
  intros H. apply list_eq. intros i.
  rewrite !lookup_splice by (rewrite ?length_insert, ?length_app; cbn; lia).
  rewrite length_app. cbn [length].
  destruct (decide (i = off + length new)%nat) as [->|Hi].
  - rewrite decide_False, decide_True by lia. rewrite list_lookup_insert_eq by lia.
    rewrite lookup_app_r by lia. replace (off + length new - off - length new)%nat with O by lia. done.
  - case_decide.
    + rewrite decide_True by lia. rewrite lookup_app_l by lia. done.
    + rewrite decide_False by lia. by apply list_lookup_insert_ne.
Qed.

Lemma slice_S off n (l : list Z) :
  (off < length l)%nat -> slice off (S n) l = (l !!! off) :: slice (S off) n l.
Proof.
  intros H. unfold slice. destruct (lookup_lt_is_Some_2 l off H) as [x Hx].
  rewrite (list_lookup_total_correct _ _ _ Hx). rewrite (drop_S l x off Hx). done.
Qed.

Lemma slice_S_r off n (l : list Z) :
  (off + n < length l)%nat -> slice off (S n) l = slice off n l ++ [l !!! (off + n)%nat].
Proof.
  intros H. unfold slice. destruct (lookup_lt_is_Some_2 l (off + n) H) as [x Hx].
  rewrite (list_lookup_total_correct _ _ _ Hx). apply take_S_r. by rewrite lookup_drop.
Qed.

Lemma slice_insert_ne off n i x (l : list Z) :
  (i < off \/ off + n <= i)%nat -> slice off n (<[i := x]> l) = slice off n l.
Proof.
  intros H. apply list_eq. intros j. rewrite !lookup_slice. case_decide; [|done].
  apply list_lookup_insert_ne. lia.
Qed.

Lemma stosb_spec mem addr data cnt :
  (addr + cnt <= length mem)%nat ->
  stosb mem addr data cnt = splice addr (replicate cnt (u8 data)) mem.
Proof.
  revert mem addr. induction cnt as [|cnt IH]; intros mem addr H; cbn [stosb].
  - symmetry. apply splice_nil.
  - rewrite IH by (rewrite length_insert; lia). replace (addr + 1)%nat with (S addr) by lia.
    rewrite splice_cons by (rewrite length_replicate; lia). done.
Qed.

Definition all_bytes : list Z := Z.of_nat <$> seq 0 256.

Lemma byte_elem b : byte b -> b ∈ all_bytes.
Proof.
  intros H. unfold all_bytes. apply list_elem_of_fmap. exists (Z.to_nat b).
  unfold byte in H. split; [lia|]. apply elem_of_seq. lia.
Qed.

Lemma spread_enc c : byte c -> le_enc 4 (spread c) = replicate 4 c.
Proof.
  intros Hc%byte_elem%list_elem_of_In.
  assert (forallb (fun c => bool_decide (le_enc 4 (spread c) = replicate 4 c)) all_bytes = true) as Hall
    by (vm_compute; reflexivity).
  rewrite forallb_forall in Hall. by apply (bool_decide_eq_true_1 _ (Hall c Hc)).
Qed.

Lemma stosl_spec mem addr c cnt :
  byte c -> (addr + 4 * cnt <= length mem)%nat ->
  stosl mem addr (spread c) cnt = splice addr (replicate (4 * cnt) c) mem.
Proof.
  intros Hc. revert mem addr. induction cnt as [|cnt IH]; intros mem addr H; cbn [stosl].
  - symmetry. apply splice_nil.
  - rewrite IH by (rewrite length_set32; lia). unfold set32. rewrite spread_enc by done.
    replace (4 * S cnt)%nat with (4 + 4 * cnt)%nat by lia. rewrite replicate_add.
    apply (splice_app addr (replicate 4 c)). rewrite !length_replicate. lia.
Qed.

(** [memset] fills the [n] bytes with [c] truncated to a byte and touches
    nothing else, whether it stores words (aligned destination and length) or
    bytes. *)
Theorem memset_correct mem dst c n :
  (dst + n <= length mem)%nat -> memset mem dst c n = splice dst (replicate n (u8 c)) mem.
Proof.
  intros H. unfold memset. destruct (_ && _) eqn:E; btests; [|by apply stosb_spec].
  assert (n = 4 * (n / 4))%nat as Hn.
  { apply Nat.Div0.div_exact. apply Nat2Z.inj. rewrite Nat2Z.inj_mod. assumption. }
  assert (Z.land c 0xFF = u8 c) as -> by (unfold u8; apply (Z.land_ones c 8); lia).
  rewrite stosl_spec by (try (apply Z.mod_pos_bound); lia).
  by rewrite <- Hn.
Qed.

Lemma memset_correct_witness :
  memset [7;7;7;7;7;7] 0 0x105 4 = splice 0 (replicate 4 (u8 0x105)) [7;7;7;7;7;7].
Proof. apply memset_correct. cbn. lia. Defined.

Lemma copy_up_spec mem d s n :
  (d + n <= length mem)%nat -> (s + n <= length mem)%nat -> (d <= s \/ s + n <= d)%nat ->
  copy_up mem d s n = splice d (slice s n mem) mem.
Proof.
  revert mem d s. induction n as [|n IH]; intros mem d s Hd Hs Ho; cbn [copy_up].
  - symmetry. apply splice_nil.
  - rewrite IH by (rewrite ?length_insert; lia).
    rewrite slice_insert_ne by lia. rewrite slice_S by lia.
    replace (d + 1)%nat with (S d) by lia. replace (s + 1)%nat with (S s) by lia.
    apply splice_cons. rewrite length_slice; lia.
Qed.

Lemma copy_down_spec mem d s n :
  (d + n <= length mem)%nat -> (s < d)%nat ->
  copy_down mem (d + n) (s + n) n = splice d (slice s n mem) mem.
Proof.
  revert mem. induction n as [|n IH]; intros mem Hd Ho; cbn [copy_down].
  - symmetry. apply splice_nil.
  - replace (d + S n - 1)%nat with (d + n)%nat by lia.
    replace (s + S n - 1)%nat with (s + n)%nat by lia.
    rewrite IH by (rewrite ?length_insert; lia).
    rewrite slice_insert_ne by lia. rewrite slice_S_r by lia.
    rewrite <- splice_snoc by (rewrite length_slice; lia). by rewrite length_slice by lia.
Qed.

(** [memmove] leaves at [dst] the [n] bytes that were at [src] before the
    call, and nothing else changed, also when the two regions overlap in
    either direction. *)
Theorem memmove_correct mem dst src n :
  (dst + n <= length mem)%nat -> (src + n <= length mem)%nat ->
  memmove mem dst src n = splice dst (slice src n mem) mem.
Proof.
  intros Hd Hs. unfold memmove.
  destruct (Nat.ltb_spec src dst), (Nat.ltb_spec dst (src + n)); cbn [andb];
    first [by apply copy_down_spec | apply copy_up_spec; lia].
Qed.

Lemma memmove_correct_witness :
  memmove [1;2;3;4;5;6] 2 0 4 = splice 2 (slice 0 4 [1;2;3;4;5;6]) [1;2;3;4;5;6] /\
  memmove [1;2;3;4;5;6] 2 0 4 = [1;2;1;2;3;4].
Proof. split; [apply memmove_correct; cbn; lia | reflexivity]. Defined.

(** The user library's [memmove] is the same function where the destination
    does not start inside the source, and differs from it otherwise. *)
Lemma umemmove_correct mem dst src n :
  (dst + n <= length mem)%nat -> (src + n <= length mem)%nat -> (dst <= src \/ src + n <= dst)%nat ->
  umemmove mem dst src (Z.of_nat n) = memmove mem dst src n.
Proof.
  intros. unfold umemmove, memmove. rewrite Nat2Z.id.
  destruct (Nat.ltb_spec src dst), (Nat.ltb_spec dst (src + n)); cbn [andb]; done || lia.
Qed.

(** The user library's [memmove] copies upwards only, so a copy to a
    destination inside the source repeats the first bytes; the kernel's does not. *)
Theorem umemmove_overlap :
  umemmove [1;2;3;4;5;6] 2 0 4 = [1;2;1;2;1;2] /\
  memmove [1;2;3;4;5;6] 2 0 4 = [1;2;1;2;3;4].
Proof. split; reflexivity. Qed.

(** ** Strings: what the routines compute *)

Lemma cstr_nonzero s : Forall (fun c => c <> 0) (cstr s).
Proof.
  induction s as [|c s IH]; cbn; [constructor|].
  destruct (Z.eqb_spec c 0); constructor; auto.
Qed.

Lemma cstr_length s : (length (cstr s) <= length s)%nat.
Proof. induction s as [|c s IH]; cbn; [lia|]. destruct (c =? 0); cbn; lia. Qed.

Lemma cstr_app_zero s rest : Forall (fun c => c <> 0) s -> cstr (s ++ 0 :: rest) = s.
Proof.
  induction 1 as [|c s Hc _ IH]; cbn; [done|]. destruct (Z.eqb_spec c 0); [done|]. by rewrite IH.
Qed.

Lemma cstr_bytes s : Forall byte s -> Forall byte (cstr s).
Proof. induction 1; cbn; [constructor|]. destruct (_ =? 0); by constructor. Qed.

(** Enough of the array to run [n] steps of a string loop. *)
Definition readable (s : list Z) (n : nat) : Prop := terminated s \/ (n <= length s)%nat.

Lemma readable_cons c s n : c <> 0 -> readable (c :: s) (S n) -> readable s n.
Proof.
  intros Hc [Ht|Hl]; [|right; cbn in Hl; lia].
  left. apply elem_of_cons in Ht as [<-|]; [done | done].
Qed.

Lemma readable_nil n : ~ readable [] (S n).
Proof. intros [H|H]; [by apply elem_of_nil in H | cbn in H; lia]. Qed.

Lemma strlen_spec s : terminated s -> strlen s = Some (Z.of_nat (length (cstr s))).
Proof.
  induction s as [|c s IH]; intros Ht; [by apply elem_of_nil in Ht|]. cbn.
  destruct (Z.eqb_spec c 0); [done|]. apply elem_of_cons in Ht as [|Ht]; [congruence|].
  rewrite (IH Ht). cbn. f_equal. lia.
Qed.

Lemma u8_byte b : byte b -> u8 b = b.
Proof. apply Z.mod_small. Qed.

(** [strncmp] is total on two strings that are terminated or at least [n]
    bytes long, and returns 0 exactly when their first [n] characters, up to
    the terminator, agree. *)
Theorem strncmp_correct p q n :
  Forall byte p -> Forall byte q -> readable p n -> readable q n ->
  exists r, strncmp p q n = Some r /\ (r = 0 <-> take n (cstr p) = take n (cstr q)).
Proof.
  revert p q. induction n as [|n IH]; intros p q Hp Hq Rp Rq; [exists 0; split; [reflexivity | tauto]|].
  destruct p as [|a p]; [by destruct (readable_nil n)|].
  destruct q as [|b q]; [by destruct (readable_nil n)|].
  inversion Hp; inversion Hq; subst. cbn [strncmp cstr].
  rewrite !u8_byte by done.
  destruct (Z.eqb_spec a 0) as [->|Ha]; cbn [negb andb].
  - exists (0 - b). split; [done|]. destruct (Z.eqb_spec b 0) as [->|Hb]; [done|].
    cbn [take]. split; [lia | discriminate].
  - destruct (Z.eqb_spec a b) as [->|Hab].
    + destruct (IH p q) as (r & -> & Hr); eauto using readable_cons.
      exists r. split; [done|]. destruct (Z.eqb_spec b 0); [done|]. cbn [take].
      rewrite Hr. split; congruence.
    + exists (a - b). split; [done|]. split; [lia|].
      destruct (Z.eqb_spec b 0); [done|]. cbn [take]. congruence.
Qed.

Lemma strncmp_correct_witness :
  exists r, strncmp [97;98;0] [97;98;0;9] 14 = Some r /\
    (r = 0 <-> take 14 (cstr [97;98;0]) = take 14 (cstr [97;98;0;9])).
Proof.
  apply strncmp_correct; try (left; apply list_elem_of_In; cbn; tauto);
    repeat constructor; unfold byte; lia.
Defined.

Lemma zero_fill_spec s n : (n <= length s)%nat -> zero_fill s n = Some (replicate n 0 ++ drop n s).
Proof.
  revert s. induction n as [|n IH]; intros s H; [by destruct s|].
  destruct s as [|c s]; cbn in H; [lia|]. cbn [zero_fill]. rewrite IH by lia. done.
Qed.

Lemma take_padded n (s : list Z) m : (n <= m)%nat ->
  take n (s ++ replicate m 0) = take n (s ++ replicate n 0).
Proof.
  intros H. apply list_eq. intros i. rewrite !lookup_take. case_decide; [|done].
  destruct (decide (i < length s)%nat); [by rewrite !lookup_app_l by lia|].
  rewrite !lookup_app_r by lia. rewrite !lookup_replicate_2 by lia. done.
Qed.

(** [strncpy] writes exactly [n] bytes: the source string cut to [n], then
    zeros; the rest of the destination is untouched. *)
Theorem strncpy_correct s t n :
  (n <= length s)%nat -> readable t n ->
  strncpy s t n = Some (take n (cstr t ++ replicate n 0) ++ drop n s).
Proof.
  revert s t. induction n as [|n IH]; intros s t Hs Ht; [done|].
  destruct s as [|x s]; cbn in Hs; [lia|]. destruct t as [|c t]; [by destruct (readable_nil n)|].
  cbn [strncpy cstr]. destruct (Z.eqb_spec c 0) as [->|Hc].
  - rewrite zero_fill_spec by lia. cbn [fmap option_fmap option_map app].
    rewrite take_ge by (rewrite length_replicate; lia). done.
  - rewrite IH by eauto using readable_cons with lia. cbn [fmap option_fmap option_map app take drop].
    rewrite (take_padded n (cstr t) (S n)) by lia. done.
Qed.

Lemma strncpy_correct_witness :
  strncpy [1;1;1;1;1] [97;98;0;7;7] 4 = Some (take 4 (cstr [97;98;0;7;7] ++ replicate 4 0) ++ [1]).
Proof. apply strncpy_correct; [cbn; lia | left; apply list_elem_of_In; cbn; tauto]. Defined.

(** What [safestrcpy] leaves in its [n > 0] bytes. *)
Definition copied (s s' t : list Z) (n : nat) : Prop :=
  length s' = length s /\ 0 ∈ take n s' /\ cstr s' = take (n - 1) (cstr t) /\ drop n s' = drop n s.

Lemma safestrcpy_loop_spec s t n :
  (S n <= length s)%nat -> readable t n ->
  exists s', safestrcpy_loop s t n = Some s' /\ copied s s' t (S n).
Proof.
  revert s t. induction n as [|n IH]; intros s t Hs Ht; (destruct s as [|x s]; cbn in Hs; [lia|]).
  - exists (0 :: s). split; [done|]. split_and!; try done. by left.
  - destruct t as [|c t]; [by destruct (readable_nil n)|]. cbn [safestrcpy_loop].
    destruct (Z.eqb_spec c 0) as [->|Hc].
    + destruct s as [|y s]; cbn in Hs; [lia|]. exists (0 :: 0 :: s).
      split; [done|]. split_and!; try done. by left.
    + destruct (IH s t) as (s' & -> & (Hl & H0 & Hc' & Hd)); eauto using readable_cons with lia.
      exists (c :: s'). split; [done|]. split_and!.
      * cbn. lia.
      * cbn [take]. by right.
      * cbn [cstr Nat.sub take] in *. destruct (Z.eqb_spec c 0); [done|].
        rewrite Hc'. cbn. by rewrite Nat.sub_0_r.
      * done.
Qed.

(** [safestrcpy] with room for [n > 0] bytes always leaves a terminated
    string, the source cut to [n - 1] characters, and touches nothing behind
    the [n] bytes; with [n <= 0] it writes nothing. *)
Theorem safestrcpy_correct s t n :
  n <= Z.of_nat (length s) -> readable t (Z.to_nat (n - 1)) ->
  exists s', safestrcpy s t n = Some s' /\
    (n <= 0 -> s' = s) /\ (0 < n -> copied s s' t (Z.to_nat n)).
Proof.
  intros Hs Ht. unfold safestrcpy. destruct (Z.leb_spec n 0); [exists s; split; [done | split; [done | lia]]|].
  destruct (safestrcpy_loop_spec s t (Z.to_nat (n - 1))) as (s' & H1 & H2); [lia | done |].
  exists s'. split; [done|]. split; [lia|]. intros _.
  by replace (Z.to_nat n) with (S (Z.to_nat (n - 1))) by lia.
Qed.

Lemma safestrcpy_correct_witness :
  exists s', safestrcpy [1;1;1;1] [97;98;99;100;0] 4 = Some s' /\ copied [1;1;1;1] s' [97;98;99;100;0] 4.
Proof.
  destruct (safestrcpy_correct [1;1;1;1] [97;98;99;100;0] 4) as (s' & H & _ & Hc).
  - cbn. lia.
  - right. cbn. lia.
  - exists s'. split; [exact H | apply Hc; lia].
Defined.

Definition eol (c : Z) : bool := (c =? ch_nl) || (c =? ch_cr).

Lemma insert_middle (pre b : list Z) x y i :
  length pre = i -> <[i := y]> (pre ++ x :: b) = pre ++ y :: b.
Proof. intros <-. rewrite insert_app_r_alt by lia. by rewrite Nat.sub_diag. Qed.

Lemma gets_loop_spec inp pre b max :
  (length pre < max <= length pre + length b)%nat ->
  exists line rest, gets_loop inp (pre ++ b) (length pre) max =
      (pre ++ line ++ 0 :: drop (S (length line)) b, rest) /\
    inp = line ++ rest /\ (length pre + length line < max)%nat /\
    (rest = [] \/ (length pre + S (length line) = max)%nat \/
     exists c, last line = Some c /\ eol c = true).
Proof.
  revert pre b. induction inp as [|c inp IH]; intros pre b Hm;
    (destruct b as [|x b]; cbn in Hm; [lia|]); cbn [gets_loop].
  - exists [], []. rewrite insert_middle by done. rewrite Tauto.if_same. cbn. rewrite drop_0.
    repeat split; auto; lia.
  - destruct (Nat.ltb_spec (length pre + 1) max).
    2: { exists [], (c :: inp). rewrite insert_middle by done. cbn. rewrite drop_0.
         repeat split; auto; lia. }
    rewrite insert_middle by done. fold (eol c). destruct (eol c) eqn:E.
    + destruct b as [|y b]; cbn in Hm; [lia|]. exists [c], inp.
      change (pre ++ c :: y :: b) with (pre ++ [c] ++ y :: b). rewrite app_assoc.
      rewrite insert_middle by (rewrite length_app; done). rewrite <- app_assoc. cbn. rewrite drop_0.
      repeat split; [lia|]. right; right. eauto.
    + change (pre ++ c :: b) with (pre ++ [c] ++ b). rewrite app_assoc.
      replace (length pre + 1)%nat with (length (pre ++ [c])) by (rewrite length_app; done).
      destruct (IH (pre ++ [c]) b) as (line & rest & -> & -> & H1 & H2);
        [rewrite length_app; cbn; lia|].
      exists (c :: line), rest. rewrite length_app in H1, H2. cbn [length] in *.
      split; [by rewrite <- app_assoc|]. split; [done|]. split; [lia|].
      destruct H2 as [->|[H2|(d & Hd & He)]]; [by left | right; left; lia |].
      right; right. exists d. destruct line; [done|]. split; done.
Qed.

(** [gets] never writes past [max] bytes, leaves a terminated line, takes
    from its input exactly the bytes it stored, and stops only at a line end,
    at the end of the input, or with the buffer full. *)
Theorem gets_correct inp buf max :
  (0 < max <= length buf)%nat ->
  exists line rest, gets inp buf max = (line ++ 0 :: drop (S (length line)) buf, rest) /\
    inp = line ++ rest /\ (length line < max)%nat /\
    (rest = [] \/ (S (length line) = max)%nat \/
     exists c, last line = Some c /\ eol c = true).
Proof. intros Hm. apply (gets_loop_spec inp [] buf max). exact Hm. Qed.

Lemma gets_correct_witness :
  exists line rest, gets [97;10;98] [1;1;1;1] 4 = (line ++ 0 :: drop (S (length line)) [1;1;1;1], rest) /\
    [97;10;98] = line ++ rest.
Proof.
  destruct (gets_correct [97;10;98] [1;1;1;1] 4) as (line & rest & H1 & H2 & _); [cbn; lia|].
  exists line, rest. split; [exact H1 | exact H2].
Defined.
