(* ===== verification/Proc.v ===== *)
(** * Processes and the scheduler (proc.c, proc.h)

    The process table is an array of 64 slots; a [struct proc *] is the index
    of its slot ([None] is the null pointer).  The functions that proc.c calls
    in the rest of the kernel are the operations of the class [Services] on a
    state [K] of their own.  A call of [sched] ends a function with the
    outcome [Sleep]: the table lock is held and the scheduler of the CPU runs
    next (module [ProcSys] runs the two together on all CPUs). *)

From S2P Require Import Prelude Spinlock Cstring.

Definition NPROC : nat := 64.
Definition NOFILE : nat := 16.
Definition KSTACKSIZE : Z := 4096.

Inductive procstate := UNUSED | EMBRYO | SLEEPING | RUNNABLE | RUNNING | ZOMBIE.

#[export] Instance procstate_eq_dec : EqDecision procstate.
Proof. solve_decision. Defined.

Record proc := mk_proc {
  sz : Z;
  pgdir : Z;
  kstack : Z;
  state : procstate;
  pid : Z;
  parent : option nat;
  tf : Z;
  context : Z;
  chan : Z;
  killed : Z;
  ofile : list Z;
  cwd : Z;
  pname : list Z;
  priority : Z;
}.

(** A slot of the zero-initialised table. *)
Definition zero_proc : proc :=
  mk_proc 0 0 0 UNUSED 0 None 0 0 0 0 (replicate 16 0) 0 (replicate 16 0) 0.
#[export] Instance proc_inhabited : Inhabited proc := populate zero_proc.

Definition set_state st (p : proc) : proc :=
  mk_proc (sz p) (pgdir p) (kstack p) st (pid p) (parent p) (tf p) (context p) (chan p)
    (killed p) (ofile p) (cwd p) (pname p) (priority p).
Definition set_pid i (p : proc) : proc :=
  mk_proc (sz p) (pgdir p) (kstack p) (state p) i (parent p) (tf p) (context p) (chan p)
    (killed p) (ofile p) (cwd p) (pname p) (priority p).
Definition set_parent q (p : proc) : proc :=
  mk_proc (sz p) (pgdir p) (kstack p) (state p) (pid p) q (tf p) (context p) (chan p)
    (killed p) (ofile p) (cwd p) (pname p) (priority p).
Definition set_chan c (p : proc) : proc :=
  mk_proc (sz p) (pgdir p) (kstack p) (state p) (pid p) (parent p) (tf p) (context p) c
    (killed p) (ofile p) (cwd p) (pname p) (priority p).
Definition set_killed k (p : proc) : proc :=
  mk_proc (sz p) (pgdir p) (kstack p) (state p) (pid p) (parent p) (tf p) (context p) (chan p)
    k (ofile p) (cwd p) (pname p) (priority p).
Definition set_priority n (p : proc) : proc :=
  mk_proc (sz p) (pgdir p) (kstack p) (state p) (pid p) (parent p) (tf p) (context p) (chan p)
    (killed p) (ofile p) (cwd p) (pname p) n.
Definition set_kstack k (p : proc) : proc :=
  mk_proc (sz p) (pgdir p) k (state p) (pid p) (parent p) (tf p) (context p) (chan p)
    (killed p) (ofile p) (cwd p) (pname p) (priority p).
Definition set_mem sz' pgdir' (p : proc) : proc :=
  mk_proc sz' pgdir' (kstack p) (state p) (pid p) (parent p) (tf p) (context p) (chan p)
    (killed p) (ofile p) (cwd p) (pname p) (priority p).
Definition set_frames tf' context' (p : proc) : proc :=
  mk_proc (sz p) (pgdir p) (kstack p) (state p) (pid p) (parent p) tf' context' (chan p)
    (killed p) (ofile p) (cwd p) (pname p) (priority p).
Definition set_ofile fd f (p : proc) : proc :=
  mk_proc (sz p) (pgdir p) (kstack p) (state p) (pid p) (parent p) (tf p) (context p) (chan p)
    (killed p) (<[fd := f]> (ofile p)) (cwd p) (pname p) (priority p).
Definition set_cwd ip (p : proc) : proc :=
  mk_proc (sz p) (pgdir p) (kstack p) (state p) (pid p) (parent p) (tf p) (context p) (chan p)
    (killed p) (ofile p) ip (pname p) (priority p).
Definition set_name nm (p : proc) : proc :=
  mk_proc (sz p) (pgdir p) (kstack p) (state p) (pid p) (parent p) (tf p) (context p) (chan p)
    (killed p) (ofile p) (cwd p) nm (priority p).

Definition is_state (st : procstate) (p : proc) : bool := bool_decide (state p = st).

(** ** The table, seen from one CPU

    [me] is the interrupt state of the CPU that runs the code. *)

Record ptab := mk_ptab {
  plock : bool;
  procs : list proc;
  nextpid : Z;
  initproc : option nat;
  me : Cli.cpu;
}.

Definition set_plock b (t : ptab) := mk_ptab b (procs t) (nextpid t) (initproc t) (me t).
Definition set_procs l (t : ptab) := mk_ptab (plock t) l (nextpid t) (initproc t) (me t).
Definition set_nextpid n (t : ptab) := mk_ptab (plock t) (procs t) n (initproc t) (me t).
Definition set_initproc i (t : ptab) := mk_ptab (plock t) (procs t) (nextpid t) i (me t).
Definition set_me c (t : ptab) := mk_ptab (plock t) (procs t) (nextpid t) (initproc t) c.

Definition upd (i : nat) (f : proc -> proc) : M ptab unit :=
  modify (fun t => set_procs (alter f i (procs t)) t).
Definition getp (i : nat) : M ptab proc := reads (fun t => procs t !!! i).

(** [acquire(&ptable.lock)], [release(&ptable.lock)]. *)
Definition acquire_pt : M ptab unit :=
  zoom me set_me Cli.pushcli ;;
  let! l := reads plock in
  if l then panic "acquire" else modify (set_plock true).
Definition release_pt : M ptab unit :=
  let! l := reads plock in
  if l then modify (set_plock false) ;; zoom me set_me Cli.popcli else panic "release".

(** The address of a slot, as a sleep channel: [ptable] starts with its
    52-byte lock, a slot has 128 bytes. *)
Section ops.
Variable ptable_addr : Z.

Definition proc_addr (p : option nat) : Z :=
  match p with None => 0 | Some i => ptable_addr + 52 + 128 * Z.of_nat i end.

(** ** Identity of the CPU *)

Definition mycpu (apicids : list Z) (apicid : Z) : M ptab nat :=
  let! c := reads me in
  if Cli.IF c then panic "mycpu called with interrupts enabled"
  else match find_index (Z.eqb apicid) apicids with
       | Some i => ret i
       | None => panic "unknown apicid"
       end.

(** ** Wakeup, kill, nice *)

Definition wakeup_one (ch : Z) (p : proc) : proc :=
  if is_state SLEEPING p && (chan p =? ch) then set_state RUNNABLE p else p.
Definition wakeup1 (ch : Z) (l : list proc) : list proc := wakeup_one ch <$> l.

Definition wakeup (ch : Z) : M ptab unit :=
  acquire_pt ;; modify (fun t => set_procs (wakeup1 ch (procs t)) t) ;; release_pt.

Definition kill_one (p : proc) : proc :=
  let p := set_killed 1 p in
  if is_state SLEEPING p then set_state RUNNABLE p else p.

Definition kill (n : Z) : M ptab Z :=
  acquire_pt ;;
  let! l := reads procs in
  match find_index (fun p => pid p =? n) l with
  | Some i => upd i kill_one ;; release_pt ;; ret 0
  | None => release_pt ;; ret (-1)
  end.

Definition nice (n prio : Z) : M ptab Z :=
  acquire_pt ;;
  let! l := reads procs in
  (match find_index (fun p => pid p =? n) l with
   | Some i => upd i (set_priority prio)
   | None => ret tt
   end) ;;
  release_pt ;;
  ret n.

(** [for(p = ...; 0 > status && p < &ptable.proc[NPROC]; p++)] *)
Fixpoint proc_nice_loop (n prio status : Z) (l : list proc) : list proc * Z :=
  match l with
  | [] => ([], status)
  | p :: l =>
      if status <? 0 then
        let '(p', status') :=
          if negb (is_state UNUSED p) && (pid p =? n) then (set_priority prio p, priority p)
          else (p, status) in
        let '(l', status'') := proc_nice_loop n prio status' l in (p' :: l', status'')
      else (p :: l, status)
  end.

Definition proc_nice (n prio : Z) : M ptab Z :=
  acquire_pt ;;
  let! l := reads procs in
  let '(l', status) := proc_nice_loop n prio 0 l in
  modify (set_procs l') ;;
  release_pt ;;
  ret status.

(** ** Giving up the CPU *)

(** [sched] up to its [swtch]; [chan] only labels the outcome.  The table
    records that the lock is held and not by which CPU: [holding] is the lock
    itself, and every caller has just taken it on this CPU. *)
Definition sched (cur : nat) (ch : Z) : M ptab unit := fun t =>
  if negb (plock t) then Panic "sched ptable.lock"
  else if negb (Cli.ncli (me t) =? 1) then Panic "sched locks"
  else if is_state RUNNING (procs t !!! cur) then Panic "sched running"
  else if Cli.IF (me t) then Panic "sched interruptible"
  else Sleep ch t.

(** After the [swtch] back: [mycpu()->intena = intena]. *)
Definition sched_return (intena : bool) : M ptab unit :=
  modify (fun t => set_me (Cli.mk_cpu (Cli.ncli (me t)) intena (Cli.IF (me t))) t).

Definition yield (cur : nat) : M ptab unit :=
  acquire_pt ;; upd cur (set_state RUNNABLE) ;; sched cur 0.
(** What is left of [yield], and of [forkret] after its first call. *)
Definition yield_return : M ptab unit := release_pt.

(** [sleep(chan, lk)]; [own] says that [lk] is [&ptable.lock].  Releasing any
    other [lk] pops one level of the interrupt nesting. *)
Definition sleep (cur : nat) (ch : Z) (own : bool) : M ptab unit :=
  when (negb own) (acquire_pt ;; zoom me set_me Cli.popcli) ;;
  upd cur (set_chan ch) ;;
  upd cur (set_state SLEEPING) ;;
  sched cur ch.
Definition sleep_return (cur : nat) (own : bool) : M ptab unit :=
  upd cur (set_chan 0) ;;
  when (negb own) (release_pt ;; zoom me set_me Cli.pushcli).

(** ** The scheduler *)

Definition runnable (l : list proc) (i : nat) : bool := is_state RUNNABLE (l !!! i).

(** The inner loop: [highP] after looking at [p1]. *)
Definition better (l : list proc) (highP p1 : nat) : nat :=
  if negb (runnable l p1) then highP
  else if priority (l !!! p1) <? priority (l !!! highP) then p1 else highP.
Definition highP (l : list proc) (p : nat) : nat := foldl (better l) p (seq 0 (length l)).

(** The outer loop from [p = k] to its next [swtch] ([None]: the end of the
    table). *)
Definition pick (l : list proc) (k : nat) : option nat :=
  (fun i => highP l (k + i)) <$> find_index (is_state RUNNABLE) (drop k l).

(** One stretch of [scheduler], entered with the lock held and [p = k]. *)
Definition scheduler (k : nat) : M ptab (option nat) :=
  let! l := reads procs in
  match pick l k with
  | Some p => upd p (set_state RUNNING) ;; ret (Some p)
  | None => release_pt ;; ret None
  end.

(** The head of the endless loop: [sti(); acquire(&ptable.lock)]. *)
Definition scheduler_enter : M ptab unit :=
  modify (fun t => set_me (Cli.mk_cpu (Cli.ncli (me t)) (Cli.intena (me t)) true) t) ;;
  acquire_pt.

(** ** Process creation and exit

    [Services]: what proc.c calls in kalloc.c, string.c, vm.c, file.c, fs.c
    and log.c.  [wait] calls [kfree] and [freevm] with the table lock held: they
    must not sleep. *)
Class Services (K : Type) := {
  kalloc : M K Z;
  kfree : Z -> M K unit;
  store16 : Z -> Z -> M K unit;
  store32 : Z -> Z -> M K unit;
  kmemset : Z -> Z -> Z -> M K unit;
  kmemcpy : Z -> Z -> Z -> M K unit;
  setupkvm : M K Z;
  inituvm : Z -> M K unit;
  switchuvm : proc -> M K unit;
  allocuvm : Z -> Z -> Z -> M K Z;
  deallocuvm : Z -> Z -> Z -> M K Z;
  copyuvm : Z -> Z -> M K Z;
  freevm : Z -> M K unit;
  filedup : Z -> M K Z;
  fileclose : Z -> M K unit;
  idup : Z -> M K Z;
  iput : Z -> M K unit;
  namei_root : M K Z;
  begin_op : M K unit;
  end_op : M K unit;
  kfree_awake : forall a k c k', kfree a k <> Sleep c k';
  freevm_awake : forall a k c k', freevm a k <> Sleep c k';
}.

Record kst (K : Type) := mk_kst { pt : ptab; ks : K }.
Arguments mk_kst {K} _ _.
Arguments pt {K} _.
Arguments ks {K} _.

Section services.
Context {K : Type} `{Services K}.
(** The addresses of [trapret] and [forkret]. *)
Variables trapret_addr forkret_addr : Z.

Definition tab {A} (m : M ptab A) : M (kst K) A := zoom pt (fun t s => mk_kst t (ks s)) m.
Definition sys {A} (m : M K A) : M (kst K) A := zoom ks (fun k s => mk_kst (pt s) k) m.

(** The part of [allocproc] under the lock. *)
Definition allocproc_slot : M ptab (option nat) :=
  acquire_pt ;;
  let! l := reads procs in
  match find_index (is_state UNUSED) l with
  | None => release_pt ;; ret None
  | Some i =>
      upd i (set_state EMBRYO) ;;
      let! n := reads nextpid in
      modify (set_nextpid (i32 (n + 1))) ;;
      upd i (set_pid n) ;;
      upd i (set_priority 0) ;;
      release_pt ;;
      ret (Some i)
  end.

(** The rest: the kernel stack with an empty context that starts at
    [forkret] and returns to [trapret]. *)
Definition allocproc_stack (i : nat) : M (kst K) (option nat) :=
  let! ks := sys kalloc in
  tab (upd i (set_kstack ks)) ;;
  if ks =? 0 then tab (upd i (set_state UNUSED)) ;; ret None
  else
    let sp := u32 (ks + KSTACKSIZE - 76) in
    let ctx := u32 (sp - 4 - 20) in
    sys (store32 (u32 (sp - 4)) trapret_addr) ;;
    tab (upd i (set_frames sp ctx)) ;;
    sys (kmemset ctx 0 20) ;;
    sys (store32 (u32 (ctx + 16)) forkret_addr) ;;
    ret (Some i).

Definition allocproc : M (kst K) (option nat) :=
  let! i := tab allocproc_slot in
  match i with
  | None => ret None
  | Some i => allocproc_stack i
  end.

Definition initcode_name : list Z := [105; 110; 105; 116; 99; 111; 100; 101; 0].

(** A dereference of the null pointer faults: [trap] panics. *)
Definition null_fault {S A} : M S A := panic "trap".

Definition copy_name (s t : list Z) : list Z := default s (safestrcpy s t 16).

Definition userinit : M (kst K) unit :=
  let! p := allocproc in
  tab (modify (set_initproc p)) ;;
  match p with
  | None => null_fault
  | Some p =>
      let! pd := sys setupkvm in
      if pd =? 0 then panic "userinit: out of memory?"
      else
        sys (inituvm pd) ;;
        tab (upd p (set_mem 4096 pd)) ;;
        let! pp := tab (getp p) in
        let frame := tf pp in
        sys (kmemset frame 0 76) ;;
        sys (store16 (frame + 60) (Z.lor (Z.shiftl 3 3) 3)) ;;
        sys (store16 (frame + 44) (Z.lor (Z.shiftl 4 3) 3)) ;;
        sys (store16 (frame + 40) (Z.lor (Z.shiftl 4 3) 3)) ;;
        sys (store16 (frame + 72) (Z.lor (Z.shiftl 4 3) 3)) ;;
        sys (store32 (frame + 64) 0x200) ;;
        sys (store32 (frame + 68) 4096) ;;
        sys (store32 (frame + 56) 0) ;;
        tab (upd p (fun q => set_name (copy_name (pname q) initcode_name) q)) ;;
        let! root := sys namei_root in
        tab (upd p (set_cwd root)) ;;
        tab acquire_pt ;;
        tab (upd p (set_state RUNNABLE)) ;;
        tab release_pt
  end.

Definition growproc (cur : nat) (n : Z) : M (kst K) Z :=
  let! p := tab (getp cur) in
  let! r := (if 0 <? n then sys (allocuvm (pgdir p) (sz p) (u32 (sz p + n)))
             else if n <? 0 then sys (deallocuvm (pgdir p) (sz p) (u32 (sz p + n)))
             else ret (sz p)) in
  if negb (n =? 0) && (r =? 0) then ret (-1)
  else
    tab (upd cur (fun p => set_mem r (pgdir p) p)) ;;
    let! p := tab (getp cur) in
    sys (switchuvm p) ;;
    ret 0.

(** [for(i = 0; i < NOFILE; i++) if(curproc->ofile[i]) np->ofile[i] = filedup(...)] *)
Fixpoint fork_files (cur np : nat) (fds : list nat) : M (kst K) unit :=
  match fds with
  | [] => ret tt
  | fd :: fds =>
      let! p := tab (getp cur) in
      let f := ofile p !!! fd in
      when (negb (f =? 0)) (let! g := sys (filedup f) in tab (upd np (set_ofile fd g))) ;;
      fork_files cur np fds
  end.

(** [fork] between [allocproc] and the second critical section; [false] when
    the address space could not be copied. *)
Definition fork_copy (cur np : nat) : M (kst K) bool :=
  let! p := tab (getp cur) in
  let! q := tab (getp np) in
  let! pd := sys (copyuvm (pgdir p) (sz p)) in
  tab (upd np (fun q => set_mem (sz q) pd q)) ;;
  if pd =? 0 then
    sys (kfree (kstack q)) ;;
    tab (upd np (set_kstack 0)) ;;
    tab (upd np (set_state UNUSED)) ;;
    ret false
  else
    tab (upd np (set_mem (sz p) pd)) ;;
    tab (upd np (set_parent (Some cur))) ;;
    sys (kmemcpy (tf q) (tf p) 76) ;;
    sys (store32 (tf q + 28) 0) ;;
    fork_files cur np (seq 0 NOFILE) ;;
    let! c := sys (idup (cwd p)) in
    tab (upd np (set_cwd c)) ;;
    tab (upd np (fun q => set_name (copy_name (pname q) (pname p)) q)) ;;
    ret true.

Definition fork_publish (np : nat) : M ptab Z :=
  let! q := getp np in
  acquire_pt ;;
  upd np (set_state RUNNABLE) ;;
  upd np (set_priority 0) ;;
  release_pt ;;
  ret (pid q).

Definition fork (cur : nat) : M (kst K) Z :=
  let! i := allocproc in
  match i with
  | None => ret (-1)
  | Some np =>
      let! ok := fork_copy cur np in
      if ok then tab (fork_publish np) else ret (-1)
  end.

Fixpoint exit_close (cur : nat) (fds : list nat) : M (kst K) unit :=
  match fds with
  | [] => ret tt
  | fd :: fds =>
      let! p := tab (getp cur) in
      let f := ofile p !!! fd in
      when (negb (f =? 0)) (sys (fileclose f) ;; tab (upd cur (set_ofile fd 0))) ;;
      exit_close cur fds
  end.

(** [exit] before it takes the table lock. *)
Definition exit_files (cur : nat) : M (kst K) unit :=
  let! i := tab (reads initproc) in
  if bool_decide (i = Some cur) then panic "init exiting"
  else
    exit_close cur (seq 0 NOFILE) ;;
    sys begin_op ;;
    let! p := tab (getp cur) in
    sys (iput (cwd p)) ;;
    sys end_op ;;
    tab (upd cur (set_cwd 0)).

(** One turn of the loop that passes the children of [cur] to [init]. *)
Definition reparent_one (cur : nat) (init : option nat) (l : list proc) (i : nat) : list proc :=
  if bool_decide (parent (l !!! i) = Some cur) then
    let l := alter (set_parent init) i l in
    if is_state ZOMBIE (l !!! i) then wakeup1 (proc_addr init) l else l
  else l.

Definition exit_tail (cur : nat) : M ptab unit :=
  acquire_pt ;;
  let! p := getp cur in
  modify (fun t => set_procs (wakeup1 (proc_addr (parent p)) (procs t)) t) ;;
  let! init := reads initproc in
  modify (fun t => set_procs (foldl (reparent_one cur init) (procs t) (seq 0 (length (procs t)))) t) ;;
  upd cur (set_state ZOMBIE) ;;
  sched cur 0.

Definition exit (cur : nat) : M (kst K) unit := exit_files cur ;; tab (exit_tail cur).

(** The scan of [wait]: the first exited child, or whether there is a child. *)
Fixpoint wait_scan (cur i : nat) (l : list proc) (havekids : bool) : nat + bool :=
  match l with
  | [] => inr havekids
  | p :: l =>
      if negb (bool_decide (parent p = Some cur)) then wait_scan cur (S i) l havekids
      else if is_state ZOMBIE p then inl i
      else wait_scan cur (S i) l true
  end.

Definition reap (p : proc) : proc :=
  set_state UNUSED (set_killed 0 (set_name (<[O := 0]> (pname p))
    (set_parent None (set_pid 0 (set_kstack 0 p))))).

(** The body of [for(;;)] in [wait], with the lock held. *)
Definition wait_loop (cur : nat) : M (kst K) Z :=
  let! l := tab (reads procs) in
  match wait_scan cur 0 l false with
  | inl i =>
      let! p := tab (getp i) in
      sys (kfree (kstack p)) ;;
      sys (freevm (pgdir p)) ;;
      tab (upd i reap) ;;
      tab release_pt ;;
      ret (pid p)
  | inr havekids =>
      let! p := tab (getp cur) in
      if negb havekids || negb (killed p =? 0) then tab release_pt ;; ret (-1)
      else tab (sleep cur (proc_addr (Some cur)) true) ;; ret 0
  end.

Definition wait (cur : nat) : M (kst K) Z := tab acquire_pt ;; wait_loop cur.
Definition wait_return (cur : nat) : M (kst K) Z := tab (sleep_return cur true) ;; wait_loop cur.
End services.
End ops.

#[global] Arguments mk_kst {K} _ _.
#[global] Arguments pt {K} _.
#[global] Arguments ks {K} _.

(** ** The lock in use *)

Definition free (t : ptab) : Prop := plock t = false /\ Cli.ncli (me t) = 0.
Definition held (t : ptab) : Prop :=
  plock t = true /\ Cli.ncli (me t) = 1 /\ Cli.IF (me t) = false.

Definition locked (t : ptab) : ptab :=
  set_plock true (set_me (Cli.mk_cpu 1 (Cli.IF (me t)) false) t).
Definition unlocked (t : ptab) : ptab :=
  set_plock false (set_me (Cli.mk_cpu 0 (Cli.intena (me t)) (Cli.intena (me t))) t).

Lemma acquire_free t : free t -> acquire_pt t = Ret tt (locked t).
Proof.
  intros [Hl Hn]. unfold acquire_pt, bind, zoom, Cli.pushcli, reads, modify.
  destruct t as [? ? ? ? [n ? ?]]; cbn in *; subst. done.
Qed.

Lemma release_held t : held t -> release_pt t = Ret tt (unlocked t).
Proof.
  intros (Hl & Hn & Hi). unfold release_pt, bind, zoom, Cli.popcli, reads, modify.
  destruct t as [? ? ? ? [n i ?]]; cbn in *; subst. cbn. by destruct i.
Qed.

Lemma locked_held t : held (locked t).
Proof. done. Qed.

Lemma unlocked_free t : free (unlocked t).
Proof. done. Qed.

Lemma held_set_procs l t : held t -> held (set_procs l t).
Proof. done. Qed.

(** A critical section that only rewrites the table. *)
Lemma critical_section {A} (f : list proc -> list proc) (a : A) t :
  free t ->
  (acquire_pt ;; modify (fun t => set_procs (f (procs t)) t) ;; release_pt ;; ret a) t =
    Ret a (unlocked (set_procs (f (procs t)) (locked t))).
Proof.
  intros Hf. rewrite (bind_ret _ _ _ _ _ (acquire_free t Hf)).
  unfold bind at 1, modify. rewrite (bind_ret _ _ _ _ _ (release_held (set_procs _ (locked t)) ltac:(done))).
  done.
Qed.

(** ** The scheduler's choice *)

Lemma foldl_better l p idx :
  runnable l p = true ->
  let r := foldl (better l) p idx in
  runnable l r = true /\ (r = p \/ r ∈ idx) /\
  priority (l !!! r) <= priority (l !!! p) /\
  (forall q, q ∈ idx -> runnable l q = true -> priority (l !!! r) <= priority (l !!! q)).
Proof.
  revert p. induction idx as [|x idx IH]; intros p Hp; cbn [foldl].
  - split_and!; auto; [lia|]. by intros q ?%elem_of_nil.
  - assert (runnable l (better l p x) = true) as Hb.
    { unfold better. destruct (runnable l x) eqn:E; cbn; [|done]. by destruct (_ <? _). }
    destruct (IH _ Hb) as (H1 & H2 & H3 & H4).
    assert (priority (l !!! better l p x) <= priority (l !!! p) /\
      (runnable l x = true -> priority (l !!! better l p x) <= priority (l !!! x)) /\
      (better l p x = p \/ better l p x = x)) as (H5 & H6 & H7).
    { unfold better. destruct (runnable l x); cbn; [|split_and!; auto; lia].
      destruct (Z.ltb_spec (priority (l !!! x)) (priority (l !!! p))); split_and!; auto; lia. }
    split_and!; [done | | lia |].
    + destruct H2 as [->|H2]; [|right; by right]. destruct H7 as [->| ->]; [by left | right; by left].
    + intros q [->|Hq]%elem_of_cons Hr; [specialize (H6 Hr); lia | auto].
Qed.

(** With no runnable process of a better priority the choice stays. *)
Lemma foldl_better_stay l p idx :
  (forall q, q ∈ idx -> runnable l q = true -> priority (l !!! p) <= priority (l !!! q)) ->
  foldl (better l) p idx = p.
Proof.
  induction idx as [|x idx IH]; intros H; cbn [foldl]; [done|].
  assert (better l p x = p) as ->.
  { unfold better. destruct (runnable l x) eqn:E; cbn; [|done].
    destruct (Z.ltb_spec (priority (l !!! x)) (priority (l !!! p))); [|done].
    specialize (H x ltac:(by left) E). lia. }
  apply IH. intros q Hq. apply H. by right.
Qed.

Lemma runnable_lookup l i : runnable l i = true <->
  exists p, l !! i = Some p /\ is_state RUNNABLE p = true.
Proof.
  unfold runnable. destruct (l !! i) as [p|] eqn:E.
  - rewrite (list_lookup_total_correct _ _ _ E). split; [eauto|]. by intros (? & [= <-] & ?).
  - split; [|by intros (? & ? & _)]. rewrite list_lookup_total_alt, E. cbn. done.
Qed.

Lemma runnable_lt l i : runnable l i = true -> (i < length l)%nat.
Proof. intros (p & Hp & _)%runnable_lookup. by apply lookup_lt_Some in Hp. Qed.

(** The first runnable slot from [k] on. *)
Definition first_runnable (l : list proc) (k p : nat) : Prop :=
  (k <= p)%nat /\ runnable l p = true /\ forall j, (k <= j < p)%nat -> runnable l j = false.

Lemma pick_first l k r :
  pick l k = Some r -> exists p, first_runnable l k p /\ r = highP l p.
Proof.
  unfold pick. destruct (find_index _ (drop k l)) as [i|] eqn:E; cbn; [|done]. intros [= <-].
  exists (k + i)%nat. split; [|done].
  apply find_index_Some in E as (p & Hp & Hs & Hmin). rewrite lookup_drop in Hp.
  split; [lia|]. split; [apply runnable_lookup; eauto|].
  intros j Hj. destruct (runnable l j) eqn:E; [|done].
  apply runnable_lookup in E as (q & Hq & Hqs).
  rewrite (Hmin (j - k)%nat q) in Hqs; [done | lia|].
  rewrite lookup_drop. by replace (k + (j - k))%nat with j by lia.
Qed.

Lemma first_pick l k p : first_runnable l k p -> pick l k = Some (highP l p).
Proof.
  intros (Hk & Hr & Hmin). unfold pick.
  destruct (find_index _ (drop k l)) as [i|] eqn:E; cbn.
  - apply find_index_Some in E as (q & Hq & Hs & Hm). rewrite lookup_drop in Hq.
    f_equal. f_equal. destruct (Nat.lt_trichotomy (k + i) p) as [Hlt|[|Hgt]]; [|done|].
    + assert (runnable l (k + i) = false) as Hf by (apply Hmin; lia).
      assert (runnable l (k + i) = true) by (apply runnable_lookup; eauto). congruence.
    + apply runnable_lookup in Hr as (x & Hx & Hxs).
      rewrite (Hm (p - k)%nat x) in Hxs; [done | lia|].
      rewrite lookup_drop. by replace (k + (p - k))%nat with p by lia.
  - apply find_index_None in E. apply runnable_lookup in Hr as (x & Hx & Hxs).
    rewrite Forall_forall in E. rewrite (E x) in Hxs; [done|].
    apply list_elem_of_lookup. exists (p - k)%nat. rewrite lookup_drop.
    by replace (k + (p - k))%nat with p by lia.
Qed.

Lemma pick_None l k : pick l k = None <-> forall j, (k <= j)%nat -> runnable l j = false.
Proof.
  split.
  - intros H j Hj. destruct (runnable l j) eqn:E; [|done]. exfalso.
    assert (exists p, first_runnable l k p) as [p Hp].
    { clear H. revert Hj E. induction j as [j IH] using lt_wf_ind. intros Hj E.
      destruct (decide (Exists (fun i => runnable l i = true) (seq k (j - k)))) as [Hex|Hno].
      - apply Exists_exists in Hex as (i & Hi & Hri). apply elem_of_seq in Hi.
        apply (IH i); [lia | lia | done].
      - exists j. split; [done|]. split; [done|]. intros i Hi.
        destruct (runnable l i) eqn:Ei; [|done]. exfalso. apply Hno.
        apply Exists_exists. exists i. split; [apply elem_of_seq; lia | done]. }
    by rewrite (first_pick _ _ _ Hp) in H.
  - intros H. destruct (pick l k) as [r|] eqn:E; [|done].
    apply pick_first in E as (p & (Hk & Hr & _) & _). by rewrite (H p Hk) in Hr.
Qed.

Lemma pick_spec l k r :
  pick l k = Some r ->
  (r < length l)%nat /\ runnable l r = true /\
  forall q, runnable l q = true -> priority (l !!! r) <= priority (l !!! q).
Proof.
  intros (p & (_ & Hp & _) & ->)%pick_first.
  destruct (foldl_better l p (seq 0 (length l)) Hp) as (H1 & _ & _ & H4).
  split; [by apply runnable_lt|]. split; [done|]. intros q Hq. apply H4; [|done].
  apply elem_of_seq. apply runnable_lt in Hq. lia.
Qed.

(** C34: a stretch of the scheduler from slot [k] switches to a runnable process
    whose priority number is the least of all runnable processes of the whole
    table (not only of the slots from [k] on), marks it running and keeps the
    lock for it; it releases the lock exactly when no slot from [k] on is
    runnable, and then changed nothing. *)
Theorem scheduler_picks_best k t :
  held t ->
  match scheduler k t with
  | Ret (Some p) t' =>
      runnable (procs t) p = true /\
      (forall q, runnable (procs t) q = true ->
         priority (procs t !!! p) <= priority (procs t !!! q)) /\
      t' = set_procs (alter (set_state RUNNING) p (procs t)) t
  | Ret None t' =>
      (forall j, (k <= j)%nat -> runnable (procs t) j = false) /\ t' = unlocked t
  | _ => False
  end.
Proof.
  intros Hh. unfold scheduler, bind at 1, reads.
  destruct (pick (procs t) k) as [p|] eqn:E.
  - apply pick_spec in E as (_ & Hr & Hmin). by cbn.
  - rewrite (bind_ret _ _ _ _ _ (release_held t Hh)). cbn. split; [|done].
    by apply pick_None.
Qed.

(** ** Processes that only yield

    One CPU, and processes that do nothing but give it up: [rounds n cur] is
    the process that runs after [n] calls of [yield], each followed by the
    scheduler (which starts over once when it reaches the end of the table). *)

Definition switch (cur : nat) (m : M ptab unit) : M ptab (option nat) := fun t =>
  match m t with
  | Sleep _ t' =>
      (let! r := scheduler (S cur) in
       match r with
       | Some q => ret (Some q)
       | None => scheduler_enter ;; scheduler 0
       end) t'
  | Ret _ _ => Panic "zombie exit"
  | Panic msg => Panic msg
  | Hang => Hang
  end.

Fixpoint rounds (n cur : nat) : M ptab nat :=
  match n with
  | O => ret cur
  | S n =>
      let! q := switch cur (yield cur) in
      match q with
      | None => hang
      | Some q => yield_return ;; rounds n q
      end
  end.

(** The choice after a yield of [cur], on the table where all are runnable. *)
Definition next (l : list proc) (cur : nat) : option nat :=
  match pick l (S cur) with
  | Some q => Some q
  | None => pick l 0
  end.

Definition with_running (l : list proc) (p : nat) : list proc := alter (set_state RUNNING) p l.

(** The state while [cur] runs and all else is as in [l]. *)
Definition running_in (l : list proc) (cur : nat) (t : ptab) : Prop :=
  free t /\ procs t = with_running l cur.

Lemma set_state_id p st : state p = st -> set_state st p = p.
Proof. destruct p; cbn; by intros ->. Qed.

Lemma set_state_set a b p : set_state a (set_state b p) = set_state a p.
Proof. done. Qed.

Lemma alter_state_back l p :
  runnable l p = true -> alter (set_state RUNNABLE) p (with_running l p) = l.
Proof.
  intros (x & Hx & Hs)%runnable_lookup. unfold with_running.
  apply list_eq. intros i. destruct (decide (i = p)) as [->|Hi].
  - rewrite !list_lookup_alter_eq, Hx. cbn. f_equal.
    apply bool_decide_eq_true_1 in Hs. destruct x; cbn in *; by subst.
  - by rewrite !list_lookup_alter_ne by done.
Qed.

Lemma yield_sleeps l cur t :
  running_in l cur t -> runnable l cur = true ->
  exists t', yield cur t = Sleep 0 t' /\ held t' /\ procs t' = l.
Proof.
  intros [Hf Hp] Hr. unfold yield. rewrite (bind_ret _ _ _ _ _ (acquire_free t Hf)).
  unfold bind, upd, modify. cbn. rewrite Hp.
  exists (set_procs l (locked t)). rewrite (alter_state_back l cur Hr).
  unfold sched. cbn. change (is_state RUNNABLE (l !!! cur) = true) in Hr.
  unfold is_state in *. apply bool_decide_eq_true_1 in Hr. rewrite Hr. done.
Qed.

Lemma round_step l cur q t :
  running_in l cur t -> runnable l cur = true -> next l cur = Some q ->
  exists t', (let! r := switch cur (yield cur) in
              match r with None => hang | Some q => yield_return ;; ret q end) t = Ret q t' /\
    running_in l q t' /\ runnable l q = true.
Proof.
  intros Hrun Hr Hn. destruct (yield_sleeps l cur t Hrun Hr) as (t1 & Hy & Hh & Hp).
  unfold bind at 1, switch. rewrite Hy. unfold next in Hn. unfold scheduler at 1.
  unfold bind at 1, bind at 1, reads. rewrite Hp.
  destruct (pick l (S cur)) as [q'|] eqn:E.
  - injection Hn as ->. cbn. unfold yield_return.
    rewrite (bind_ret _ _ _ _ _ (release_held _ (held_set_procs _ t1 Hh))).
    eexists. split; [reflexivity|]. apply pick_spec in E as (_ & ? & _).
    split; [|done]. split; [done|]. cbn. by rewrite Hp.
  - rewrite (bind_ret _ _ _ _ _ (release_held _ Hh)). cbn [ret].
    unfold scheduler_enter, bind at 1, bind at 1, modify at 1.
    match goal with |- context [acquire_pt ?u] => rewrite (acquire_free u) by done end.
    unfold scheduler, bind at 1, reads. cbn [procs locked set_plock set_me unlocked].
    rewrite Hp, Hn. cbn. unfold yield_return.
    match goal with |- context [bind release_pt _ ?u] =>
      rewrite (bind_ret _ _ _ _ _ (release_held u ltac:(done))) end.
    eexists. split; [reflexivity|]. apply pick_spec in Hn as (_ & ? & _).
    split; [|done]. split; [done|]. cbn. by rewrite Hp.
Qed.

Fixpoint nexts (l : list proc) (n cur : nat) : option nat :=
  match n with
  | O => Some cur
  | S n => match next l cur with Some q => nexts l n q | None => None end
  end.

Lemma rounds_nexts l n cur r t :
  running_in l cur t -> runnable l cur = true -> nexts l n cur = Some r ->
  exists t', rounds n cur t = Ret r t' /\ running_in l r t'.
Proof.
  revert cur t. induction n as [|n IH]; intros cur t Hrun Hr Hn; cbn in *.
  - injection Hn as ->. by exists t.
  - destruct (next l cur) as [q|] eqn:E; [|done].
    destruct (round_step l cur q t Hrun Hr E) as (t1 & Hs & Hrun1 & Hr1).
    destruct (IH q t1 Hrun1 Hr1 Hn) as (t2 & H2 & Hrun2). exists t2. split; [|done].
    unfold bind at 1 in Hs. unfold bind at 1. destruct (switch cur (yield cur) t) as [[q'|] u| | |]; try done.
    unfold bind in Hs |- *. destruct (yield_return u) as [[] u'| | |]; try done.
    injection Hs as -> ->. done.
Qed.

(** All runnable processes of [l] have one priority. *)
Definition one_priority (l : list proc) : Prop :=
  forall i j, runnable l i = true -> runnable l j = true -> priority (l !!! i) = priority (l !!! j).

Lemma highP_one l p : one_priority l -> runnable l p = true -> highP l p = p.
Proof. intros H Hp. apply foldl_better_stay. intros q _ Hq. rewrite (H p q); auto; lia. Qed.

Lemma pick_one l k r : one_priority l -> pick l k = Some r <-> first_runnable l k r.
Proof.
  intros H. split.
  - intros (p & Hp & ->)%pick_first. by rewrite highP_one by (apply H || apply Hp).
  - intros Hr. rewrite (first_pick l k r Hr). by rewrite highP_one by (apply H || apply Hr).
Qed.

(** Going up from [cur]: a runnable slot [r] above is reached in at most
    [r - cur] steps. *)
Lemma nexts_up l cur r :
  one_priority l -> runnable l r = true -> (cur <= r)%nat ->
  exists n, (n <= r - cur)%nat /\ nexts l n cur = Some r.
Proof.
  intros H1 Hr. remember (r - cur)%nat as d eqn:Hd. revert cur Hd.
  induction d as [d IH] using lt_wf_ind. intros cur Hd Hle.
  destruct (decide (cur = r)) as [->|Hne]; [exists O; split; [lia | done]|].
  destruct (pick l (S cur)) as [q|] eqn:E.
  - pose proof (proj1 (pick_one l (S cur) q H1) E) as (Hq1 & Hq2 & Hq3).
    assert (q <= r)%nat.
    { destruct (decide (q <= r)%nat); [done|]. rewrite Hq3 in Hr; [done | lia]. }
    destruct (IH (r - q)%nat ltac:(lia) q eq_refl ltac:(lia)) as (n & Hn & Hs).
    exists (S n). split; [lia|]. cbn. unfold next. by rewrite E.
  - rewrite pick_None in E. by rewrite E in Hr by lia.
Qed.

Lemma nexts_app l m n cur q : nexts l m cur = Some q -> nexts l (m + n) cur = nexts l n q.
Proof.
  revert cur. induction m as [|m IH]; intros cur; cbn; [by intros [= ->]|].
  destruct (next l cur); [apply IH | done].
Qed.

Lemma exists_max_runnable l cur :
  runnable l cur = true ->
  exists m, (cur <= m < length l)%nat /\ runnable l m = true /\ pick l (S m) = None.
Proof.
  remember (length l - cur)%nat as d eqn:Hd. revert cur Hd.
  induction d as [d IH] using lt_wf_ind. intros cur Hd Hr. pose proof (runnable_lt _ _ Hr).
  destruct (pick l (S cur)) as [q|] eqn:E; [|by exists cur].
  apply pick_first in E as (p & (Hp1 & Hp2 & _) & _). pose proof (runnable_lt _ _ Hp2).
  destruct (IH (length l - p)%nat ltac:(lia) p eq_refl Hp2) as (m & ? & ?). exists m. split; [lia | done].
Qed.

Lemma nexts_reach l cur r :
  one_priority l -> runnable l cur = true -> runnable l r = true ->
  exists n, (n <= length l)%nat /\ nexts l n cur = Some r.
Proof.
  intros H1 Hc Hr. pose proof (runnable_lt _ _ Hr). destruct (decide (cur <= r)%nat) as [Hle|Hgt].
  - destruct (nexts_up l cur r H1 Hr Hle) as (n & ? & ?). exists n. split; [lia | done].
  - destruct (exists_max_runnable l cur Hc) as (m & Hm & Hrm & Hnone).
    destruct (nexts_up l cur m H1 Hrm ltac:(lia)) as (n1 & Hn1 & Hs1).
    destruct (pick l 0) as [q|] eqn:E.
    2: { rewrite pick_None in E. by rewrite E in Hr by lia. }
    pose proof (proj1 (pick_one l 0 q H1) E) as (_ & Hq2 & Hq3).
    assert (q <= r)%nat.
    { destruct (decide (q <= r)%nat); [done|]. rewrite Hq3 in Hr; [done | lia]. }
    destruct (nexts_up l q r H1 Hr ltac:(lia)) as (n2 & Hn2 & Hs2).
    exists (n1 + S n2)%nat. split; [lia|]. rewrite (nexts_app _ _ _ _ _ Hs1). cbn.
    unfold next. by rewrite Hnone, E.
Qed.

(** Among runnable processes of one priority the scheduler is round robin:
    if they only yield, each of them runs again after at most as many yields
    as the table has slots, whichever of them runs now. *)
Theorem round_robin l cur r t :
  running_in l cur t -> one_priority l -> runnable l cur = true -> runnable l r = true ->
  exists n t', (n <= length l)%nat /\ rounds n cur t = Ret r t' /\ running_in l r t'.
Proof.
  intros Hrun H1 Hc Hr. destruct (nexts_reach l cur r H1 Hc Hr) as (n & Hn & Hs).
  destruct (rounds_nexts l n cur r t Hrun Hc Hs) as (t' & ? & ?). by exists n, t'.
Qed.

(** Equal priorities are not served fairly when a process of a worse
    priority is runnable.  If [cur] has the best priority, no process before
    it shares that priority, and the first runnable process behind it has a
    worse one, then [cur] runs again after each of its yields, for ever: any
    other process [r] of the same priority never runs. *)
Theorem equal_priority_starves l cur low r t n :
  running_in l cur t -> runnable l cur = true -> first_runnable l (S cur) low ->
  priority (l !!! cur) < priority (l !!! low) ->
  (forall q, runnable l q = true -> priority (l !!! cur) <= priority (l !!! q)) ->
  (forall q, (q < cur)%nat -> runnable l q = true -> priority (l !!! cur) < priority (l !!! q)) ->
  runnable l r = true -> priority (l !!! r) = priority (l !!! cur) -> r <> cur ->
  exists q t', rounds n cur t = Ret q t' /\ q = cur /\ q <> r.
Proof.
  intros Hrun Hc Hlow Hlt Hmin Hbefore Hr Hpr Hne.
  assert (next l cur = Some cur) as Hnext.
  { unfold next. rewrite (first_pick l (S cur) low Hlow). f_equal. unfold highP.
    pose proof (runnable_lt _ _ Hc).
    replace (length l) with (cur + (1 + (length l - cur - 1)))%nat by lia.
    rewrite !seq_app, !foldl_app. cbn [seq foldl]. rewrite Nat.add_0_l.
    set (h := foldl (better l) low (seq 0 cur)).
    assert (priority (l !!! cur) < priority (l !!! h)) as Hh.
    { destruct (foldl_better l low (seq 0 cur)) as (H1 & [H2|H2] & _); [apply Hlow | |].
      - fold h in H2. by rewrite H2.
      - fold h in H1, H2. apply Hbefore; [|done]. apply elem_of_seq in H2. lia. }
    unfold better at 2. rewrite Hc. cbn.
    destruct (Z.ltb_spec (priority (l !!! cur)) (priority (l !!! h))); [|lia].
    apply foldl_better_stay. intros q _ Hq. by apply Hmin. }
  assert (nexts l n cur = Some cur) as Hs by (induction n; cbn; rewrite ?Hnext; done).
  destruct (rounds_nexts l n cur cur t Hrun Hc Hs) as (t' & ? & _).
  exists cur, t'. by split_and!.
Qed.

(** Three runnable processes: two of priority 0 and one of priority 5 between
    them. *)
Definition demo_proc (n prio : Z) : proc :=
  set_priority prio (set_pid n (set_state RUNNABLE zero_proc)).
Definition demo_table (l : list proc) : ptab :=
  mk_ptab false (with_running l 0) 4 (Some O) (Cli.mk_cpu 0 false true).
Definition same_prio : list proc := [demo_proc 1 0; demo_proc 2 0; demo_proc 3 0].
Definition mixed_prio : list proc := [demo_proc 1 0; demo_proc 2 5; demo_proc 3 0].

Lemma demo_running l : running_in l 0 (demo_table l).
Proof. split; [split; reflexivity | reflexivity]. Qed.

Lemma runnable_small l i (P : nat -> Prop) :
  Forall P (seq 0 (length l)) -> runnable l i = true -> P i.
Proof.
  intros H Hi%runnable_lt. rewrite Forall_forall in H. apply H. apply elem_of_seq. lia.
Qed.

Lemma scheduler_picks_best_witness :
  match scheduler 1 (locked (demo_table mixed_prio)) with
  | Ret (Some p) t' => priority (procs t' !!! p) = 0
  | _ => False
  end.
Proof.
  pose proof (scheduler_picks_best 1 (locked (demo_table mixed_prio)) (locked_held _)) as H.
  destruct (scheduler 1 (locked (demo_table mixed_prio))) as [[p|] t'| | |] eqn:E;
    [|destruct H as [H _]; discriminate (H 1%nat ltac:(lia)) | exact H | exact H | exact H].
  vm_compute in E. injection E as <- <-. reflexivity.
Defined.

Lemma round_robin_witness :
  exists n t', (n <= 3)%nat /\ rounds n 0 (demo_table same_prio) = Ret 2%nat t'.
Proof.
  destruct (round_robin same_prio 0 2 (demo_table same_prio) (demo_running _)) as (n & t' & Hn & H & _).
  - intros i j Hi Hj.
    assert (forall k, runnable same_prio k = true -> priority (same_prio !!! k) = 0) as Hz.
    { intros k. apply (runnable_small same_prio k (fun k => priority (same_prio !!! k) = 0)).
      repeat constructor. }
    rewrite (Hz i Hi), (Hz j Hj). reflexivity.
  - reflexivity.
  - reflexivity.
  - exists n, t'. split; [exact Hn | exact H].
Defined.

Lemma equal_priority_starves_witness :
  exists q t', rounds 1000 0 (demo_table mixed_prio) = Ret q t' /\ q = O /\ q <> 2%nat.
Proof.
  apply (equal_priority_starves mixed_prio 0 1 2 (demo_table mixed_prio) 1000 (demo_running _)).
  - reflexivity.
  - split; [lia|]. split; [reflexivity|]. intros j Hj. lia.
  - cbn. lia.
  - intros q Hq. apply (runnable_small mixed_prio q (fun q => priority (mixed_prio !!! 0%nat) <=
      priority (mixed_prio !!! q))); [|exact Hq]. repeat constructor; cbn; lia.
  - intros q Hq. lia.
  - reflexivity.
  - reflexivity.
  - discriminate.
Defined.

(** ** kill, nice, proc_nice *)

Lemma upd_release {A} i (f : proc -> proc) (a : A) t :
  held t -> (upd i f ;; release_pt ;; ret a) t = Ret a (unlocked (set_procs (alter f i (procs t)) t)).
Proof.
  intros Hh. unfold bind at 1, upd, modify.
  by rewrite (bind_ret _ _ _ _ _ (release_held _ (held_set_procs _ t Hh))).
Qed.

Lemma kill_eq n t :
  free t ->
  kill n t = match find_index (fun p => pid p =? n) (procs t) with
             | Some i => Ret 0 (unlocked (set_procs (alter kill_one i (procs t)) (locked t)))
             | None => Ret (-1) (unlocked (locked t))
             end.
Proof.
  intros Hf. unfold kill. rewrite (bind_ret _ _ _ _ _ (acquire_free t Hf)).
  unfold bind at 1, reads. cbn [procs locked set_plock set_me].
  destruct (find_index _ (procs t)) as [i|] eqn:E.
  - by rewrite upd_release.
  - by rewrite (bind_ret _ _ _ _ _ (release_held (locked t) (locked_held t))).
Qed.

(** [kill] marks the first slot with the pid, makes it runnable if it
    slept, changes nothing else and returns 0; with no such slot it returns
    -1 and leaves the table alone. *)
Theorem kill_correct n t :
  free t ->
  exists t', free t' /\
  (find_index (fun p => pid p =? n) (procs t) = None /\
     kill n t = Ret (-1) t' /\ procs t' = procs t \/
   exists i p, find_index (fun p => pid p =? n) (procs t) = Some i /\ procs t !! i = Some p /\
     kill n t = Ret 0 t' /\
     (forall j, j <> i -> procs t' !! j = procs t !! j) /\
     exists p', procs t' !! i = Some p' /\ killed p' = 1 /\ pid p' = n /\
       state p' = (if is_state SLEEPING p then RUNNABLE else state p)).
Proof.
  intros Hf. rewrite (kill_eq n t Hf).
  destruct (find_index _ (procs t)) as [i|] eqn:E.
  - pose proof E as (p & Hp & Hpid & _)%find_index_Some.
    eexists. split; [apply unlocked_free|].
    right. exists i, p. split; [done|]. split; [done|]. split; [reflexivity|]. cbn. split.
    + intros j Hj. by rewrite list_lookup_alter_ne by congruence.
    + exists (kill_one p). rewrite list_lookup_alter_eq, Hp. split; [done|]. apply Z.eqb_eq in Hpid.
      unfold kill_one, is_state. cbn. by case_bool_decide.
  - eexists. split; [apply unlocked_free|]. left. split; [done|]. split; reflexivity.
Qed.

Lemma kill_correct_witness :
  exists t', kill 9 (demo_table same_prio) = Ret (-1) t' /\ procs t' = with_running same_prio 0.
Proof.
  destruct (kill_correct 9 (demo_table same_prio)) as (t' & _ & [(_ & H1 & H2)|(i & p & H & _)]).
  - split; reflexivity.
  - exists t'. split; [exact H1 | exact H2].
  - vm_compute in H. discriminate H.
Defined.

Lemma kill_one_unused p : state p = UNUSED -> kill_one p = set_killed 1 p.
Proof. intros H. unfold kill_one, is_state. cbn. by rewrite H. Qed.

(** [kill(0)] does not fail: it marks the first unused slot, and since
    [allocproc] does not clear the mark, the next process created in that slot
    is born killed. *)
Theorem kill_zero_born_killed t i p :
  free t -> procs t !! i = Some p -> pid p = 0 -> state p = UNUSED ->
  (forall j q, (j < i)%nat -> procs t !! j = Some q -> pid q <> 0 /\ state q <> UNUSED) ->
  exists t1 t2, kill 0 t = Ret 0 t1 /\ allocproc_slot t1 = Ret (Some i) t2 /\
    killed (procs t2 !!! i) = 1.
Proof.
  intros Hf Hp Hpid Hst Hbefore.
  assert (find_index (fun p => pid p =? 0) (procs t) = Some i) as E1.
  { apply find_index_first with p; [done | by rewrite Hpid |].
    intros j q Hj Hq. apply Z.eqb_neq. by apply (Hbefore j q). }
  rewrite (kill_eq 0 t Hf), E1.
  eexists. set (t1 := unlocked _). assert (procs t1 !! i = Some (kill_one p)) as Hp1
    by (cbn; by rewrite list_lookup_alter_eq, Hp).
  assert (find_index (is_state UNUSED) (procs t1) = Some i) as E2.
  { apply find_index_first with (kill_one p); [done | |].
    - rewrite kill_one_unused by done. unfold is_state. cbn. by rewrite Hst.
    - intros j q Hj Hq. cbn in Hq. rewrite list_lookup_alter_ne in Hq by lia.
      apply bool_decide_eq_false. by apply (Hbefore j q). }
  eexists. split; [reflexivity|]. unfold allocproc_slot.
  rewrite (bind_ret _ _ _ _ _ (acquire_free t1 (unlocked_free _))).
  unfold bind at 1, reads. cbn [procs locked set_plock set_me]. rewrite E2.
  unfold upd at 1 2, bind at 1 2 3 4, modify, reads. cbn [procs set_procs set_nextpid nextpid].
  rewrite upd_release by done. split; [reflexivity|]. cbn [procs unlocked set_plock set_me set_procs].
  cbn in Hp1. rewrite list_lookup_total_alt. cbn. rewrite !list_lookup_alter_eq, Hp. cbn.
  by rewrite kill_one_unused.
Qed.

(** [nice] sets the priority of the first slot with the pid and nothing
    else; it returns the pid itself, also when there is no such process. *)
Theorem nice_correct n prio t :
  free t ->
  exists t', nice n prio t = Ret n t' /\ free t' /\
    procs t' = match find_index (fun p => pid p =? n) (procs t) with
               | Some i => alter (set_priority prio) i (procs t)
               | None => procs t
               end.
Proof.
  intros Hf. unfold nice. rewrite (bind_ret _ _ _ _ _ (acquire_free t Hf)).
  unfold bind at 1, reads. cbn [procs locked set_plock set_me].
  destruct (find_index _ (procs t)) as [i|] eqn:E.
  - rewrite upd_release by done. eexists. split; [reflexivity|]. done.
  - unfold bind at 1, ret at 1. rewrite (bind_ret _ _ _ _ _ (release_held _ (locked_held t))).
    eexists. split; [reflexivity|]. done.
Qed.

(** [proc_nice] does nothing: its loop runs only while [0 > status], and
    [status] starts at 0, so no priority changes and the result is 0 for every
    pid and priority. *)
Theorem proc_nice_noop n prio t :
  free t -> exists t', proc_nice n prio t = Ret 0 t' /\ free t' /\ procs t' = procs t.
Proof.
  intros Hf. unfold proc_nice. rewrite (bind_ret _ _ _ _ _ (acquire_free t Hf)).
  unfold bind at 1, reads. cbn [procs locked set_plock set_me].
  assert (proc_nice_loop n prio 0 (procs t) = (procs t, 0)) as -> by by destruct (procs t).
  unfold bind at 1, modify. rewrite (bind_ret _ _ _ _ _ (release_held _ (held_set_procs _ _ (locked_held t)))).
  eexists. split; [reflexivity|]. done.
Qed.

Lemma demo_free l : free (demo_table l).
Proof. split; reflexivity. Qed.

Lemma kill_zero_born_killed_witness :
  let t := demo_table (same_prio ++ [zero_proc; zero_proc]) in
  exists t1 t2, kill 0 t = Ret 0 t1 /\ allocproc_slot t1 = Ret (Some 3%nat) t2 /\
    killed (procs t2 !!! 3%nat) = 1.
Proof.
  apply (kill_zero_born_killed _ 3 zero_proc (demo_free _)); try reflexivity.
  intros j q Hj Hq.
  destruct j as [|[|[|j]]]; [| | |lia]; vm_compute in Hq; injection Hq as <-; split; discriminate.
Defined.

Lemma nice_correct_witness :
  exists t', nice 2 7 (demo_table same_prio) = Ret 2 t' /\ priority (procs t' !!! 1%nat) = 7.
Proof.
  destruct (nice_correct 2 7 (demo_table same_prio) (demo_free _)) as (t' & H & _ & Hp).
  exists t'. split; [exact H|]. rewrite Hp. reflexivity.
Defined.

Lemma proc_nice_noop_witness :
  exists t', proc_nice 2 7 (demo_table same_prio) = Ret 0 t' /\ procs t' = procs (demo_table same_prio).
Proof.
  destruct (proc_nice_noop 2 7 (demo_table same_prio) (demo_free _)) as (t' & H & _ & Hp).
  exists t'. split; [exact H | exact Hp].
Defined.
