(* ===== verification/ProcSys.v ===== *)
(** * The process system on all CPUs (proc.c)

    Every CPU is in its scheduler (between two turns of the endless loop, or
    scanning with the lock held) or runs a process (just switched to, with the
    lock held, or in code that does not hold the lock).  A step of a CPU is one
    critical section of the table lock, or the code between two of them, as
    the functions of Proc.v define it; the steps of the CPUs interleave in
    every order.  A CPU between two turns of its scheduler has interrupts on,
    and their handlers may wake processes up.  Where a process resumes after a switch, and how far it is in
    [fork] or [exit], are recorded beside the table: they stand for the saved
    contexts. *)

From S2P Require Import Prelude Spinlock Proc.

(** Where a switched-out process continues: in [forkret], after the [sched] of
    [yield], of [sleep] with another lock, or of [sleep] in [wait]; the flag is
    the [intena] that [sched] saved. *)
Inductive cont :=
| RFork
| RYield (intena : bool)
| RSleep (intena : bool)
| RWait (intena : bool).
#[export] Instance cont_inhabited : Inhabited cont := populate RFork.

(** How far a process is in [fork] (which slot it fills) or [exit]. *)
Inductive job :=
| JRun
| JStack (np : nat)
| JCopy (np : nat)
| JPub (np : nat)
| JExit.
#[export] Instance job_inhabited : Inhabited job := populate JRun.

Inductive place :=
| Idle
| Scan (k : nat)
| Run (p : nat) (resumed : bool).

Record cpuctl := mk_cpuctl { at_ : place; cli : Cli.cpu }.
#[export] Instance cpuctl_inhabited : Inhabited cpuctl :=
  populate (mk_cpuctl Idle (Cli.mk_cpu 0 false false)).

Section system.
Context (ptable_addr : Z) {K : Type} `{Services K} (trapret_addr forkret_addr : Z).

Record world := mk_world {
  kern : kst K;
  cpus : list cpuctl;
  jobs : list job;
  conts : list cont;
  forks : Z;
}.

Definition ltab (w : world) : list proc := procs (pt (kern w)).

(** The state as CPU [c] sees it, and its result put back. *)
Definition load (c : nat) (w : world) : kst K :=
  mk_kst (set_me (cli (cpus w !!! c)) (pt (kern w))) (ks (kern w)).
Definition store (c : nat) (a : place) (s : kst K) (w : world) : world :=
  mk_world s (<[c := mk_cpuctl a (me (pt s))]> (cpus w)) (jobs w) (conts w) (forks w).
Definition set_job (p : nat) (j : job) (w : world) : world :=
  mk_world (kern w) (cpus w) (<[p := j]> (jobs w)) (conts w) (forks w).
Definition set_cont (p : nat) (k : cont) (w : world) : world :=
  mk_world (kern w) (cpus w) (jobs w) (<[p := k]> (conts w)) (forks w).
Definition add_fork (w : world) : world :=
  mk_world (kern w) (cpus w) (jobs w) (conts w) (forks w + 1).

Definition saved (s : kst K) : bool := Cli.intena (me (pt s)).

(** Calls that enter and leave the lock and return to the process. *)
Inductive call :=
| KWakeup (ch : Z)
| KKill (n : Z)
| KNice (n prio : Z)
| KProcNice (n prio : Z).

Definition exec_call (k : call) : M ptab unit :=
  match k with
  | KWakeup ch => wakeup ch
  | KKill n => kill n ;; ret tt
  | KNice n prio => nice n prio ;; ret tt
  | KProcNice n prio => proc_nice n prio ;; ret tt
  end.

(** Code that leaves the fields of the table that matter here alone. *)
Definition view (p : proc) : procstate * Z * option nat * Z := (state p, pid p, parent p, chan p).
Definition keeps (s s' : kst K) : Prop :=
  exists l', pt s' = set_procs l' (pt s) /\ length l' = length (procs (pt s)) /\
    forall i, view (l' !!! i) = view (procs (pt s) !!! i).

Inductive step : world -> world -> Prop :=
| step_enter w c s' :
    (c < length (cpus w))%nat -> at_ (cpus w !!! c) = Idle ->
    tab scheduler_enter (load c w) = Ret tt s' ->
    step w (store c (Scan 0) s' w)
| step_scan w c k r s' :
    (c < length (cpus w))%nat -> at_ (cpus w !!! c) = Scan k ->
    tab (scheduler k) (load c w) = Ret r s' ->
    step w (store c (match r with Some p => Run p true | None => Idle end) s' w)
| step_forkret w c p s' :
    (c < length (cpus w))%nat -> at_ (cpus w !!! c) = Run p true -> conts w !!! p = RFork ->
    tab yield_return (load c w) = Ret tt s' ->
    step w (store c (Run p false) s' w)
| step_yield_return w c p b s' :
    (c < length (cpus w))%nat -> at_ (cpus w !!! c) = Run p true -> conts w !!! p = RYield b ->
    tab (sched_return b ;; yield_return) (load c w) = Ret tt s' ->
    step w (store c (Run p false) s' w)
| step_sleep_return w c p b s' :
    (c < length (cpus w))%nat -> at_ (cpus w !!! c) = Run p true -> conts w !!! p = RSleep b ->
    tab (sched_return b ;; sleep_return p false ;; zoom me set_me Cli.popcli) (load c w) = Ret tt s' ->
    step w (store c (Run p false) s' w)
| step_wait_return w c p b r s' :
    (c < length (cpus w))%nat -> at_ (cpus w !!! c) = Run p true -> conts w !!! p = RWait b ->
    (tab (sched_return b) ;; wait_return ptable_addr p) (load c w) = Ret r s' ->
    step w (store c (Run p false) s' w)
| step_wait_again w c p b ch s' :
    (c < length (cpus w))%nat -> at_ (cpus w !!! c) = Run p true -> conts w !!! p = RWait b ->
    (tab (sched_return b) ;; wait_return ptable_addr p) (load c w) = Sleep ch s' ->
    step w (set_cont p (RWait (saved s')) (store c (Scan (S p)) s' w))
| step_interrupt w c p i e :
    (c < length (cpus w))%nat -> at_ (cpus w !!! c) = Run p false ->
    step w (store c (Run p false)
      (mk_kst (set_me (Cli.mk_cpu 0 i e) (pt (kern w))) (ks (kern w))) w)
| step_other w c p s' :
    (c < length (cpus w))%nat -> at_ (cpus w !!! c) = Run p false ->
    keeps (load c w) s' -> step w (store c (Run p false) s' w)
| step_call w c p k s' :
    (c < length (cpus w))%nat -> at_ (cpus w !!! c) = Run p false ->
    tab (exec_call k) (load c w) = Ret tt s' ->
    step w (store c (Run p false) s' w)
| step_yield w c p ch s' :
    (c < length (cpus w))%nat -> at_ (cpus w !!! c) = Run p false ->
    tab (yield p) (load c w) = Sleep ch s' ->
    step w (set_cont p (RYield (saved s')) (store c (Scan (S p)) s' w))
| step_sleep w c p ch ch' s' :
    (c < length (cpus w))%nat -> at_ (cpus w !!! c) = Run p false -> jobs w !!! p = JRun ->
    tab (zoom me set_me Cli.pushcli ;; sleep p ch false) (load c w) = Sleep ch' s' ->
    step w (set_cont p (RSleep (saved s')) (store c (Scan (S p)) s' w))
| step_wait w c p r s' :
    (c < length (cpus w))%nat -> at_ (cpus w !!! c) = Run p false -> jobs w !!! p = JRun ->
    wait ptable_addr p (load c w) = Ret r s' ->
    step w (store c (Run p false) s' w)
| step_wait_sleep w c p ch s' :
    (c < length (cpus w))%nat -> at_ (cpus w !!! c) = Run p false -> jobs w !!! p = JRun ->
    wait ptable_addr p (load c w) = Sleep ch s' ->
    step w (set_cont p (RWait (saved s')) (store c (Scan (S p)) s' w))
| step_exit w c p s' :
    (c < length (cpus w))%nat -> at_ (cpus w !!! c) = Run p false -> jobs w !!! p = JRun ->
    exit_files p (load c w) = Ret tt s' ->
    step w (set_job p JExit (store c (Run p false) s' w))
| step_exit_tail w c p ch s' :
    (c < length (cpus w))%nat -> at_ (cpus w !!! c) = Run p false -> jobs w !!! p = JExit ->
    tab (exit_tail ptable_addr p) (load c w) = Sleep ch s' ->
    step w (store c (Scan (S p)) s' w)
| step_alloc w c p r s' :
    (c < length (cpus w))%nat -> at_ (cpus w !!! c) = Run p false -> jobs w !!! p = JRun ->
    tab allocproc_slot (load c w) = Ret r s' ->
    step w (match r with
            | Some np => set_job p (JStack np) (add_fork (store c (Run p false) s' w))
            | None => store c (Run p false) s' w
            end)
| step_stack w c p np r s' :
    (c < length (cpus w))%nat -> at_ (cpus w !!! c) = Run p false -> jobs w !!! p = JStack np ->
    allocproc_stack trapret_addr forkret_addr np (load c w) = Ret r s' ->
    step w (set_job p (match r with Some _ => JCopy np | None => JRun end)
              (store c (Run p false) s' w))
| step_copy w c p np r s' :
    (c < length (cpus w))%nat -> at_ (cpus w !!! c) = Run p false -> jobs w !!! p = JCopy np ->
    fork_copy p np (load c w) = Ret r s' ->
    step w (set_job p (if r then JPub np else JRun) (store c (Run p false) s' w))
| step_publish w c p np r s' :
    (c < length (cpus w))%nat -> at_ (cpus w !!! c) = Run p false -> jobs w !!! p = JPub np ->
    tab (fork_publish np) (load c w) = Ret r s' ->
    step w (set_cont np RFork (set_job np JRun (set_job p JRun (store c (Run p false) s' w))))
| step_idle_interrupt w c ch s' :
    (c < length (cpus w))%nat -> at_ (cpus w !!! c) = Idle ->
    tab (wakeup ch) (load c w) = Ret tt s' ->
    step w (store c Idle s' w).

(** The state after boot: [userinit] on the zeroed table, every CPU about to
    enter its scheduler. *)
Definition boot (w : world) : Prop :=
  exists k0 c0,
    userinit trapret_addr forkret_addr
      (mk_kst (mk_ptab false (replicate NPROC zero_proc) 1 None (Cli.mk_cpu 0 false c0)) k0)
      = Ret tt (kern w) /\
    Forall (fun c => at_ c = Idle /\ Cli.ncli (cli c) = 0) (cpus w) /\
    jobs w = replicate NPROC JRun /\ conts w = replicate NPROC RFork /\ forks w = 1.
End system.
