(* ===== verification/ProcInv.v ===== *)
(** * Invariants of the process system

    For every state that the steps of ProcSys.v reach from boot: a process runs
    on at most one CPU and the table lock has one holder ([cinv]); process ids
    are unique ([pinv]); every process but the first has a living parent, slots
    being filled by [fork] belong to one process, and no process sleeps in
    [wait] while one of its children has exited ([tinv]). *)

From S2P Require Import Prelude Spinlock Proc ProcSys.

Abbreviation st l i := (state (l !!! i)).
Abbreviation par l i := (parent (l !!! i)).

#[local] Arguments sched : simpl never.
#[local] Arguments acquire_pt : simpl never.
#[local] Arguments release_pt : simpl never.
#[local] Arguments sleep : simpl never.

(** ** The table after each operation *)

Section effects.
Context (ptable_addr : Z).
Implicit Types t : ptab.

Lemma acquire_busy {A} (k : unit -> M ptab A) t :
  plock t = true -> bind acquire_pt k t = Panic "acquire".
Proof. intros Hl. unfold bind, acquire_pt, zoom, Cli.pushcli, reads. cbn. by rewrite Hl. Qed.

Lemma wakeup_eq ch t :
  free t -> wakeup ch t = Ret tt (unlocked (set_procs (wakeup1 ch (procs t)) (locked t))).
Proof.
  intros Hf. unfold wakeup. rewrite (bind_ret _ _ _ _ _ (acquire_free t Hf)).
  unfold bind, modify. by rewrite release_held.
Qed.

Lemma nice_eq n prio t :
  free t -> exists l', nice n prio t = Ret n (unlocked (set_procs l' (locked t))) /\
    length l' = length (procs t) /\ forall i, view (l' !!! i) = view (procs t !!! i).
Proof.
  intros Hf. unfold nice. rewrite (bind_ret _ _ _ _ _ (acquire_free t Hf)).
  unfold bind at 1, reads. change (procs (locked t)) with (procs t).
  destruct (find_index _ (procs t)) as [i|] eqn:E.
  - rewrite upd_release by done. eexists. split; [reflexivity|]. split; [apply length_alter|].
    intros j. destruct (decide (i = j)) as [<-|Hj].
    + by rewrite alter_at by (by eapply find_index_lt).
    + by rewrite alter_ne.
  - unfold bind at 1, ret at 1. rewrite (bind_ret _ _ _ _ _ (release_held _ (locked_held t))).
    exists (procs t). split; [by destruct t|]. done.
Qed.

Lemma proc_nice_eq n prio t :
  free t -> proc_nice n prio t = Ret 0 (unlocked (set_procs (procs t) (locked t))).
Proof.
  intros Hf. unfold proc_nice. rewrite (bind_ret _ _ _ _ _ (acquire_free t Hf)).
  unfold bind at 1, reads. change (procs (locked t)) with (procs t).
  assert (proc_nice_loop n prio 0 (procs t) = (procs t, 0)) as -> by by destruct (procs t).
  unfold bind at 1, modify. by rewrite (bind_ret _ _ _ _ _ (release_held _ (held_set_procs _ _ (locked_held t)))).
Qed.

(** No alteration of its own slot makes the caller look running. *)
Lemma not_running_alter (l : list proc) i f :
  state (f (l !!! i)) <> RUNNING -> is_state RUNNING (alter f i l !!! i) = false.
Proof.
  intros Hf. apply bool_decide_eq_false. destruct (decide (i < length l)%nat).
  - by rewrite alter_at.
  - rewrite list_lookup_total_alt, (proj2 (lookup_ge_None _ _)); [done|]. rewrite length_alter. lia.
Qed.

Lemma sched_sleeps cur ch t :
  held t -> is_state RUNNING (procs t !!! cur) = false -> sched cur ch t = Sleep ch t.
Proof. intros (Hl & Hn & Hi) Hs. unfold sched. by rewrite Hl, Hn, Hs, Hi. Qed.

Lemma yield_eq cur t :
  free t -> yield cur t = Sleep 0 (set_procs (alter (set_state RUNNABLE) cur (procs t)) (locked t)).
Proof.
  intros Hf. unfold yield. rewrite (bind_ret _ _ _ _ _ (acquire_free t Hf)).
  unfold bind, upd, modify. apply sched_sleeps; [done|]. by apply not_running_alter.
Qed.

Definition asleep (ch : Z) (p : proc) : proc := set_state SLEEPING (set_chan ch p).

Lemma alter_alter_eq (f g : proc -> proc) i (l : list proc) : alter f i (alter g i l) = alter (fun p => f (g p)) i l.
Proof.
  apply list_eq. intros j. destruct (decide (i = j)) as [<-|Hj].
  - rewrite !list_lookup_alter_eq. by destruct (l !! i).
  - by rewrite !list_lookup_alter_ne.
Qed.

Lemma sleep_own_eq cur ch t :
  held t -> sleep cur ch true t = Sleep ch (set_procs (alter (asleep ch) cur (procs t)) t).
Proof.
  intros Hh. unfold sleep, when, bind, upd, modify, ret. cbn [negb].
  rewrite sched_sleeps; [by cbn; rewrite alter_alter_eq | done |].
  cbn. rewrite alter_alter_eq. by apply not_running_alter.
Qed.

Lemma sleep_eq cur ch t :
  free t ->
  (zoom me set_me Cli.pushcli ;; sleep cur ch false) t =
    Sleep ch (set_procs (alter (asleep ch) cur (procs t)) (locked t)).
Proof.
  intros [Hl Hn]. unfold sleep, when. cbn [negb].
  unfold bind, zoom, acquire_pt, Cli.pushcli, Cli.popcli, reads, modify, upd, bind, zoom.
  destruct t as [lk l np ip [n i e]]; cbn in *; subst lk n. cbn.
  change (0 + 1 =? 0) with false. change (0 + 1 + 1 - 1) with 1. change (1 <? 0) with false.
  change (1 =? 0) with false. cbn.
  rewrite sched_sleeps; [by cbn; rewrite alter_alter_eq | done |].
  cbn. rewrite alter_alter_eq. by apply not_running_alter.
Qed.

(** What [exit] does to the table. *)
Definition exit_effect (cur : nat) (init : option nat) (l : list proc) : list proc :=
  let l1 := wakeup1 (proc_addr ptable_addr (par l cur)) l in
  alter (set_state ZOMBIE) cur (foldl (reparent_one ptable_addr cur init) l1 (seq 0 (length l1))).

Lemma exit_tail_eq cur t :
  free t ->
  exit_tail ptable_addr cur t =
    Sleep 0 (set_procs (exit_effect cur (initproc t) (procs t)) (locked t)).
Proof.
  intros Hf. unfold exit_tail. rewrite (bind_ret _ _ _ _ _ (acquire_free t Hf)).
  unfold bind, getp, reads, modify, upd. apply sched_sleeps; [done|]. by apply not_running_alter.
Qed.

Definition born (n : Z) (p : proc) : proc := set_priority 0 (set_pid n (set_state EMBRYO p)).

Lemma allocproc_slot_eq t :
  free t ->
  allocproc_slot t =
    match find_index (is_state UNUSED) (procs t) with
    | Some i => Ret (Some i) (unlocked (set_procs (alter (born (nextpid t)) i (procs t))
        (set_nextpid (i32 (nextpid t + 1)) (locked t))))
    | None => Ret None (unlocked (locked t))
    end.
Proof.
  intros Hf. unfold allocproc_slot. rewrite (bind_ret _ _ _ _ _ (acquire_free t Hf)).
  unfold bind at 1, reads. change (procs (locked t)) with (procs t).
  destruct (find_index _ (procs t)) as [i|] eqn:E.
  - unfold upd at 1 2, bind at 1 2 3 4, modify, reads. cbn [procs set_procs set_nextpid nextpid].
    rewrite upd_release by done. cbn. by rewrite !alter_alter_eq.
  - by rewrite (bind_ret _ _ _ _ _ (release_held _ (locked_held t))).
Qed.

Lemma fork_publish_eq np t :
  free t ->
  fork_publish np t = Ret (pid (procs t !!! np))
    (unlocked (set_procs (alter (fun p => set_priority 0 (set_state RUNNABLE p)) np (procs t)) (locked t))).
Proof.
  intros Hf. unfold fork_publish, bind at 1, getp, reads.
  rewrite (bind_ret _ _ _ _ _ (acquire_free t Hf)).
  unfold bind at 1, upd at 1, modify. rewrite upd_release by done. cbn. by rewrite alter_alter_eq.
Qed.
End effects.

Definition lkeeps (l l' : list proc) : Prop :=
  length l' = length l /\ forall i, view (l' !!! i) = view (l !!! i).

Lemma lkeeps_refl l : lkeeps l l.
Proof. done. Qed.

Lemma lkeeps_trans l1 l2 l3 : lkeeps l1 l2 -> lkeeps l2 l3 -> lkeeps l1 l3.
Proof. intros [H1 H2] [H3 H4]. split; [congruence|]. intros i. by rewrite H4, H2. Qed.

Lemma lkeeps_alter f i l : (forall p, view (f p) = view p) -> lkeeps l (alter f i l).
Proof.
  intros Hf. split; [apply length_alter|]. intros j. destruct (decide (i = j)) as [<-|Hj].
  - destruct (decide (i < length l)%nat); [by rewrite alter_at|].
    by rewrite !lookup_total_ge by (rewrite ?length_alter; lia).
  - by rewrite alter_ne.
Qed.

(** ** The parts of fork, exit and wait that call other components *)

Section service_effects.
Context (ptable_addr : Z) {K : Type} `{Services K} (trapret_addr forkret_addr : Z).
Implicit Types s : kst K.

Lemma keeps_alt s s' :
  keeps s s' <-> exists l', pt s' = set_procs l' (pt s) /\ lkeeps (procs (pt s)) l'.
Proof. unfold keeps, lkeeps. naive_solver. Qed.

Lemma keeps_refl s : keeps s s.
Proof. apply keeps_alt. exists (procs (pt s)). split; [by destruct s as [[]]|]. apply lkeeps_refl. Qed.

Lemma keeps_trans s1 s2 s3 : keeps s1 s2 -> keeps s2 s3 -> keeps s1 s3.
Proof.
  rewrite !keeps_alt. intros (l1 & H1 & K1) (l2 & H2 & K2). exists l2.
  rewrite H1 in H2, K2. split; [done|]. by eapply lkeeps_trans.
Qed.

Definition pres {A} (m : M (kst K) A) : Prop := forall s a s', m s = Ret a s' -> keeps s s'.

Lemma pres_bind {A B} (m : M (kst K) A) (k : A -> M (kst K) B) :
  pres m -> (forall a, pres (k a)) -> pres (bind m k).
Proof. intros Hm Hk s b s' (a & s1 & H1 & H2)%bind_Ret. eapply keeps_trans; [by eapply Hm | by eapply Hk]. Qed.

Lemma pres_ret {A} (a : A) : pres (ret a).
Proof. intros s b s' [= _ <-]. apply keeps_refl. Qed.

Lemma pres_panic {A} msg : pres (A := A) (panic msg).
Proof. intros s b s' [=]. Qed.

Lemma pres_sys {A} (m : M K A) : pres (sys m).
Proof.
  intros s a s'. unfold sys, zoom. destruct (m (ks s)); try done. intros [= _ <-].
  apply keeps_alt. exists (procs (pt s)). cbn. split; [by destruct s as [[]]|]. apply lkeeps_refl.
Qed.

Lemma pres_reads {A} (f : ptab -> A) : pres (tab (reads f)).
Proof. intros s a s' [= _ <-]. apply keeps_alt. exists (procs (pt s)). split; [by destruct s as [[]]|]. apply lkeeps_refl. Qed.

Lemma pres_upd i f : (forall p, view (f p) = view p) -> pres (tab (upd i f)).
Proof.
  intros Hf s a s' [= _ <-]. apply keeps_alt. eexists. split; [reflexivity|]. by apply lkeeps_alter.
Qed.

Ltac pres :=
  repeat first
    [ apply pres_bind; [|intros ?] | apply pres_ret | apply pres_panic | apply pres_sys
    | apply pres_reads | apply pres_upd; done
    | match goal with |- pres (when ?b _) => destruct b; cbn [when]
                    | |- pres (if ?b then _ else _) => destruct b end ].

Lemma pres_exit_close cur fds : pres (exit_close cur fds).
Proof. induction fds as [|fd fds IH]; cbn [exit_close]; unfold getp; pres; done. Qed.

Lemma pres_fork_files cur np fds : pres (fork_files cur np fds).
Proof. induction fds as [|fd fds IH]; cbn [fork_files]; unfold getp; pres; done. Qed.

Lemma tab_Ret {A} (m : M ptab A) s a s' :
  tab m s = Ret a s' <-> exists t', m (pt s) = Ret a t' /\ s' = mk_kst t' (ks s).
Proof. unfold tab, zoom. destruct (m (pt s)); naive_solver. Qed.

Lemma tab_Sleep {A} (m : M ptab A) s c s' :
  tab m s = Sleep c s' <-> exists t', m (pt s) = Sleep c t' /\ s' = mk_kst t' (ks s).
Proof. unfold tab, zoom. destruct (m (pt s)); naive_solver. Qed.

Lemma exit_files_spec cur s s' :
  exit_files cur s = Ret tt s' -> keeps s s' /\ initproc (pt s) <> Some cur.
Proof.
  unfold exit_files. intros (i & s1 & H1 & H2)%bind_Ret.
  apply tab_Ret in H1 as (t' & [= <- <-] & ->). case_bool_decide as Hi; [done|]. split; [|done].
  assert (keeps s (mk_kst (pt s) (ks s))) as Hk by (destruct s; apply keeps_refl).
  eapply keeps_trans; [exact Hk|]. revert H2.
  match goal with |- ?m _ = _ -> _ => assert (pres m) as Hp end; [|by intros; eapply Hp].
  pres; try apply pres_exit_close. all: pres.
Qed.

Lemma allocproc_stack_spec i s r s' :
  allocproc_stack trapret_addr forkret_addr i s = Ret r s' ->
  exists l1, lkeeps (procs (pt s)) l1 /\ (r = Some i \/ r = None) /\
    pt s' = set_procs (match r with Some _ => l1 | None => alter (set_state UNUSED) i l1 end) (pt s).
Proof.
  unfold allocproc_stack. intros (k & s1 & H1%pres_sys & H2)%bind_Ret.
  apply bind_Ret in H2 as ([] & s2 & H2%pres_upd & H3); [|done].
  pose proof (keeps_trans _ _ _ H1 H2) as H12. destruct (k =? 0).
  - apply bind_Ret in H3 as ([] & s3 & H3 & [= <- <-]).
    apply tab_Ret in H3 as (t' & [= <-] & ->). apply keeps_alt in H12 as (l1 & Hpt & Hl).
    exists l1. split; [done|]. split; [by right|]. cbn. by rewrite Hpt.
  - assert (r = Some i /\ keeps s2 s') as [-> H4].
    { split.
      - repeat (apply bind_Ret in H3 as (? & ? & _ & H3)). by injection H3.
      - revert H3. match goal with |- ?m _ = _ -> _ => assert (pres m) as Hp end; [|by intros; eapply Hp].
        pres. }
    apply (keeps_trans _ _ _ H12), keeps_alt in H4 as (l1 & Hpt & Hl). exists l1.
    split; [done|]. split; [by left | done].
Qed.

Lemma fork_copy_spec cur np s r s' :
  fork_copy cur np s = Ret r s' ->
  exists l1, lkeeps (procs (pt s)) l1 /\
    exists l2, lkeeps (alter (if r then set_parent (Some cur) else set_state UNUSED) np l1) l2 /\
      pt s' = set_procs l2 (pt s).
Proof.
  unfold fork_copy, getp. intros (p & s1 & H1%pres_reads & Hb)%bind_Ret.
  apply bind_Ret in Hb as (q & s2 & H2%pres_reads & Hb).
  apply bind_Ret in Hb as (pd & s3 & H3%pres_sys & Hb).
  apply bind_Ret in Hb as ([] & s4 & H4%pres_upd & Hb); [|done].
  pose proof (keeps_trans _ _ _ (keeps_trans _ _ _ H1 H2) (keeps_trans _ _ _ H3 H4)) as H14.
  destruct (pd =? 0).
  - apply bind_Ret in Hb as ([] & s5 & H5%pres_sys & Hb).
    apply bind_Ret in Hb as ([] & s6 & H6%pres_upd & Hb); [|done].
    pose proof (keeps_trans _ _ _ H14 (keeps_trans _ _ _ H5 H6)) as Hk.
    apply bind_Ret in Hb as ([] & s7 & H7 & [= <- <-]).
    apply tab_Ret in H7 as (t' & [= <-] & ->). apply keeps_alt in Hk as (l1 & Hpt & Hl).
    exists l1. split; [done|]. eexists. split; [apply lkeeps_refl|]. cbn. by rewrite Hpt.
  - apply bind_Ret in Hb as ([] & s5 & H5 & Hb).
    assert (keeps s s5) as Hk.
    { eapply keeps_trans; [exact H14|]. apply tab_Ret in H5 as (t' & [= <-] & ->).
      apply keeps_alt. eexists. split; [reflexivity|]. by apply lkeeps_alter. }
    apply bind_Ret in Hb as ([] & s6 & H6 & Hb).
    apply tab_Ret in H6 as (t' & [= <-] & ->). apply keeps_alt in Hk as (l1 & Hpt & Hl).
    exists l1. split; [done|].
    assert (r = true /\ keeps (mk_kst (set_procs (alter (set_parent (Some cur)) np (procs (pt s5))) (pt s5)) (ks s5)) s')
      as [-> H7].
    { split.
      - repeat (apply bind_Ret in Hb as (? & ? & _ & Hb)). by injection Hb.
      - revert Hb. match goal with |- ?m _ = _ -> _ => assert (pres m) as Hp end; [|by intros; eapply Hp].
        pres; try apply pres_fork_files. all: pres. }
    apply keeps_alt in H7 as (l2 & Hpt2 & Hl2). exists l2. cbn in *. rewrite Hpt in Hpt2, Hl2. done.
Qed.

(** The body of [wait] either reaps a child that has exited, gives up, or puts
    the caller to sleep when no child has exited. *)
Lemma wait_scan_inl cur l i n hk :
  wait_scan cur n l hk = inl i ->
  (n <= i)%nat /\ exists p, l !! (i - n)%nat = Some p /\ parent p = Some cur /\ state p = ZOMBIE.
Proof.
  revert n hk. induction l as [|p l IH]; intros n hk; cbn; [done|].
  case_bool_decide as Hp; cbn.
  - unfold is_state. case_bool_decide as Hs.
    + intros [= <-]. split; [lia|]. exists p. by rewrite Nat.sub_diag.
    + intros (Hle & q & Hq & ?)%IH. split; [lia|]. exists q.
      by replace (i - n)%nat with (S (i - S n)) by lia.
  - intros (Hle & q & Hq & ?)%IH. split; [lia|]. exists q.
    by replace (i - n)%nat with (S (i - S n)) by lia.
Qed.

Lemma wait_scan_inr cur l n hk hk' :
  wait_scan cur n l hk = inr hk' -> forall p, p ∈ l -> parent p = Some cur -> state p <> ZOMBIE.
Proof.
  revert n hk. induction l as [|q l IH]; intros n hk; cbn; [by intros _ p ?%elem_of_nil|].
  case_bool_decide as Hp; cbn.
  - unfold is_state. case_bool_decide as Hs; [done|].
    intros Hw p [->|Hin]%elem_of_cons; [done|]. by eapply IH.
  - intros Hw p [->|Hin]%elem_of_cons; [done|]. by eapply IH.
Qed.

Lemma wait_loop_Ret cur s r s' :
  held (pt s) -> wait_loop ptable_addr cur s = Ret r s' ->
  pt s' = unlocked (pt s) \/
  exists i, st (procs (pt s)) i = ZOMBIE /\ par (procs (pt s)) i = Some cur /\
    r = pid (procs (pt s) !!! i) /\
    pt s' = unlocked (set_procs (alter reap i (procs (pt s))) (pt s)).
Proof.
  intros Hh. unfold wait_loop. intros (l & s1 & H1 & H2)%bind_Ret.
  apply tab_Ret in H1 as (t' & [= <- <-] & ->).
  destruct (wait_scan cur 0 (procs (pt s)) false) as [i|hk] eqn:Es.
  - right. apply wait_scan_inl in Es as (_ & p & Hp & Hpar & Hst). rewrite Nat.sub_0_r in Hp.
    apply list_lookup_total_correct in Hp.
    apply bind_Ret in H2 as (q & s2 & Hq & H2). apply tab_Ret in Hq as (t' & [= <- <-] & ->).
    apply bind_Ret in H2 as ([] & s3 & H3 & H2). apply bind_Ret in H2 as ([] & s4 & H4 & H2).
    assert (pt s4 = pt s) as Hpt.
    { revert H3 H4. unfold sys, zoom. cbn. destruct (kfree _ _); [|done ..]. intros [= _ <-]. cbn.
      destruct (freevm _ _); [|done ..]. by intros [= _ <-]. }
    apply bind_Ret in H2 as ([] & s5 & H5 & H2). apply tab_Ret in H5 as (t' & [= <-] & ->).
    apply bind_Ret in H2 as ([] & s6 & H6 & [= <- <-]). apply tab_Ret in H6 as (t' & H6 & ->).
    cbn in H6. rewrite Hpt, release_held in H6 by done. injection H6 as <-.
    exists i. rewrite Hp. by split_and!.
  - left. apply bind_Ret in H2 as (q & s2 & Hq & H2). apply tab_Ret in Hq as (t' & [= <- <-] & ->).
    destruct (_ || _).
    + apply bind_Ret in H2 as ([] & s3 & H3 & [= <- <-]). apply tab_Ret in H3 as (t' & H3 & ->).
      cbn in H3. rewrite release_held in H3 by done. by injection H3 as <-.
    + apply bind_Ret in H2 as ([] & s3 & H3 & _). apply tab_Ret in H3 as (t' & H3 & _).
      by rewrite sleep_own_eq in H3.
Qed.

Lemma wait_loop_Sleep cur s c s' :
  held (pt s) -> wait_loop ptable_addr cur s = Sleep c s' ->
  (forall i, par (procs (pt s)) i = Some cur -> st (procs (pt s)) i <> ZOMBIE) /\
  pt s' = set_procs (alter (asleep (proc_addr ptable_addr (Some cur))) cur (procs (pt s))) (pt s).
Proof.
  intros Hh. unfold wait_loop. intros [Hx|(l & s1 & H1 & H2)]%bind_Sleep; [by apply tab_Sleep in Hx as (? & [=] & _)|].
  apply tab_Ret in H1 as (t' & [= <- <-] & ->).
  destruct (wait_scan cur 0 (procs (pt s)) false) as [i|hk] eqn:Es.
  - exfalso. unfold bind, sys, zoom, tab, getp, reads, ret, zoom in H2. cbn in H2.
    destruct (kfree _ _) eqn:E1; [|done | by apply kfree_awake in E1 | done]. cbn in H2.
    destruct (freevm _ _) eqn:E2; [|done | by apply freevm_awake in E2 | done]. cbn in H2.
    by rewrite release_held in H2.
  - split.
    + intros i Hi Hz. destruct (decide (i < length (procs (pt s)))%nat) as [Hlt|Hge].
      * eapply wait_scan_inr; [exact Es | | exact Hi | exact Hz].
        apply list_elem_of_lookup_total. eauto.
      * by rewrite lookup_total_ge in Hz by lia.
    + unfold bind at 1, tab at 1, zoom, getp, reads in H2. cbn in H2.
      destruct (_ || _).
      * unfold bind, tab, zoom in H2. cbn in H2. by rewrite release_held in H2.
      * unfold bind, tab, zoom in H2. cbn in H2. rewrite sleep_own_eq in H2 by done.
        by injection H2 as _ <-.
Qed.
End service_effects.

(** Code that keeps the views of the slots, found by its shape. *)
Create HintDb pres discriminated.
#[export] Hint Resolve pres_bind pres_ret pres_panic pres_sys pres_reads pres_exit_close
  pres_fork_files : pres.
#[export] Hint Extern 1 (pres (tab (upd _ _))) => apply pres_upd; done : pres.

(** ** CPUs and the lock *)

Definition holder (a : place) : bool :=
  match a with Idle => false | Scan _ => true | Run _ b => b end.
Definition runs (a : place) : option nat :=
  match a with Run p _ => Some p | _ => None end.

Record cinv (l : list proc) (lk : bool) (cpus : list cpuctl) : Prop := {
  c_run c p : runs (at_ (cpus !!! c)) = Some p -> st l p = RUNNING;
  c_on p : st l p = RUNNING -> exists c, runs (at_ (cpus !!! c)) = Some p;
  c_one c c' p : runs (at_ (cpus !!! c)) = Some p -> runs (at_ (cpus !!! c')) = Some p -> c = c';
  c_hold c : holder (at_ (cpus !!! c)) = true ->
    lk = true /\ Cli.ncli (cli (cpus !!! c)) = 1 /\ Cli.IF (cli (cpus !!! c)) = false;
  c_holder : lk = true -> exists c, holder (at_ (cpus !!! c)) = true;
  c_mutex c c' : holder (at_ (cpus !!! c)) = true -> holder (at_ (cpus !!! c')) = true -> c = c';
  c_open c : holder (at_ (cpus !!! c)) = false -> Cli.ncli (cli (cpus !!! c)) = 0;
}.

(** One CPU moves from [a0] to [a]. *)
Record cmove (l : list proc) (lk : bool) (a0 a : place) (cl : Cli.cpu) (l' : list proc) (lk' : bool) : Prop := {
  m_cli : if holder a then Cli.ncli cl = 1 /\ Cli.IF cl = false else Cli.ncli cl = 0;
  m_lock : if holder a then lk' = true /\ (holder a0 = true \/ lk = false)
           else lk' = (if holder a0 then false else lk);
  m_fresh p : runs a = Some p -> runs a0 = Some p \/ st l p <> RUNNING;
  m_running p : st l' p = RUNNING <->
    runs a = Some p \/ (st l p = RUNNING /\ runs a0 <> Some p);
}.

Lemma cinv_move l lk cpus c a cl l' lk' :
  cinv l lk cpus -> (c < length cpus)%nat -> cmove l lk (at_ (cpus !!! c)) a cl l' lk' ->
  cinv l' lk' (<[c := mk_cpuctl a cl]> cpus).
Proof.
  intros I Hc [Hcl Hlk Hfr Hrun]. destruct I as [I1 I2 I3 I4 I5 I6 I7].
  set (cpus' := <[c := mk_cpuctl a cl]> cpus).
  assert (cpus' !!! c = mk_cpuctl a cl) as Hat by by apply insert_at.
  assert (forall d, d <> c -> cpus' !!! d = cpus !!! d) as Hne
    by (intros; apply insert_ne; congruence).
  assert (forall d, d <> c -> holder (at_ (cpus !!! d)) = true -> holder a = false /\ holder (at_ (cpus !!! c)) = false /\ lk = true) as Hoth.
  { intros d Hd Hh. assert (holder (at_ (cpus !!! c)) = false) as Hf.
    { destruct (holder (at_ (cpus !!! c))) eqn:E; [|done]. by destruct Hd; apply I6. }
    destruct (I4 d Hh) as (Hl & _). rewrite Hf in Hlk. destruct (holder a); [|done].
    destruct Hlk as (_ & [?|?]); congruence. }
  split.
  - intros d p. destruct (decide (d = c)) as [->|Hd]; [rewrite Hat | rewrite Hne by done]; cbn; intros H.
    + apply Hrun. by left.
    + apply Hrun. right. split; [by eapply I1|]. intros Hx. by destruct Hd; eapply I3.
  - intros p [Hp|[Hp Hn]]%Hrun; [exists c; by rewrite Hat|].
    destruct (I2 p Hp) as [d Hd]. exists d. rewrite Hne; [done|]. by intros ->.
  - intros d d' p. destruct (decide (d = c)) as [->|Hd], (decide (d' = c)) as [->|Hd'];
      rewrite ?Hat, ?Hne by done; cbn; try done.
    + intros Hp Hq. destruct (Hfr p Hp) as [H0|H0]; [by eapply I3|]. by destruct H0; eapply I1.
    + intros Hp Hq. destruct (Hfr p Hq) as [H0|H0]; [by eapply I3|]. by destruct H0; eapply I1.
    + apply I3.
  - intros d. destruct (decide (d = c)) as [->|Hd]; [rewrite Hat | rewrite Hne by done]; cbn; intros H.
    + rewrite H in Hlk, Hcl. by destruct Hlk, Hcl.
    + destruct (Hoth d Hd H) as (Ha & H0 & Hl). rewrite Ha, H0 in Hlk. subst lk'. auto.
  - intros Hl. destruct (holder a) eqn:Ea; [exists c; by rewrite Hat|].
    destruct (holder (at_ (cpus !!! c))) eqn:E0; [congruence|].
    destruct I5 as [d Hd]; [congruence|]. exists d. rewrite Hne; [done|]. intros ->. congruence.
  - intros d d'. destruct (decide (d = c)) as [->|Hd], (decide (d' = c)) as [->|Hd'];
      rewrite ?Hat, ?Hne by done; cbn; try done.
    + intros Ha Hh. destruct (Hoth d' Hd' Hh). congruence.
    + intros Hh Ha. destruct (Hoth d Hd Hh). congruence.
    + apply I6.
  - intros d. destruct (decide (d = c)) as [->|Hd]; [rewrite Hat | rewrite Hne by done]; cbn; intros H; [|auto].
    by rewrite H in Hcl.
Qed.

(** ** The table *)

Definition alive (x : procstate) : Prop := x = SLEEPING \/ x = RUNNABLE \/ x = RUNNING.
Definition forking (j : job) : option nat :=
  match j with JStack np | JCopy np | JPub np => Some np | _ => None end.

#[export] Instance alive_dec x : Decision (alive x).
Proof. unfold alive. apply _. Defined.

Section tinv.
Variable ptable_addr : Z.

Record tinv (l : list proc) (init : option nat) (jobs : list job) (conts : list cont) : Prop := {
  t_jobs_len : length jobs = length l;
  t_conts_len : length conts = length l;
  t_init : exists i0, init = Some i0 /\ alive (st l i0) /\ par l i0 = None;
  t_self i : par l i <> Some i;
  t_unused i : st l i = UNUSED -> par l i = None;
  t_job p np : forking (jobs !!! p) = Some np -> alive (st l p) /\ st l np = EMBRYO;
  t_job_one p q np : forking (jobs !!! p) = Some np -> forking (jobs !!! q) = Some np -> p = q;
  t_embryo np : st l np = EMBRYO ->
    exists p, forking (jobs !!! p) = Some np /\ (par l np = None \/ par l np = Some p);
  t_pub p np : jobs !!! p = JPub np -> par l np = Some p;
  t_unpub p np : jobs !!! p = JStack np \/ jobs !!! p = JCopy np -> par l np = None;
  t_exit p : jobs !!! p = JExit -> init <> Some p;
  t_par i : alive (st l i) \/ st l i = ZOMBIE -> init <> Some i ->
    exists q, par l i = Some q /\ alive (st l q);
  t_wait p b : st l p = SLEEPING -> conts !!! p = RWait b ->
    chan (l !!! p) = proc_addr ptable_addr (Some p) /\ forall i, par l i = Some p -> st l i <> ZOMBIE;
}.

(** Slots that stay as they are, or stay alive and do not fall asleep. *)
Definition calm (l l' : list proc) : Prop :=
  length l' = length l /\ forall i, par l' i = par l i /\
    (st l' i = SLEEPING -> chan (l' !!! i) = chan (l !!! i)) /\
    (st l' i = st l i \/ alive (st l i) /\ alive (st l' i) /\ st l' i <> SLEEPING).

Lemma tinv_calm l l' init jobs conts :
  tinv l init jobs conts -> calm l l' -> tinv l' init jobs conts.
Proof.
  intros I [Hlen Hc].
  assert (forall i, alive (st l' i) <-> alive (st l i)) as Ha.
  { intros i. destruct (Hc i) as (_ & _ & [->|(? & ? & _)]); tauto. }
  assert (forall i x, ~ alive x -> st l' i = x <-> st l i = x) as Hs.
  { intros i x Hx. destruct (Hc i) as (_ & _ & [->|(? & ? & _)]); [done|]. split; intros <-; tauto. }
  assert (forall i, par l' i = par l i) as Hp by apply Hc.
  assert (forall i, st l' i = SLEEPING -> st l i = SLEEPING) as Hsl.
  { intros i Hi. destruct (Hc i) as (_ & _ & [<-|(? & ? & ?)]); done. }
  destruct I as [J1 J2 J3 J3' J4 J5 J6 J7 J8 J8' J9 J10 J11]. split; try done.
  - congruence.
  - congruence.
  - destruct J3 as (i0 & ? & ? & ?). exists i0. by rewrite Ha, Hp.
  - intros i. rewrite Hp. apply J3'.
  - intros i. rewrite Hp, Hs; [apply J4 | by intros [|[|]]].
  - intros p np. rewrite Ha, Hs; [apply J5 | by intros [|[|]]].
  - intros np. rewrite Hp, Hs; [apply J7 | by intros [|[|]]].
  - intros p np. rewrite Hp. apply J8.
  - intros p np. rewrite Hp. apply J8'.
  - intros i. rewrite Ha, Hs, Hp by (by intros [|[|]]). intros H1 H2.
    destruct (J10 i H1 H2) as (q & ? & ?). exists q. by rewrite Ha.
  - intros p b Hsleep Hk. destruct (J11 p b (Hsl p Hsleep) Hk) as [H1 H2].
    split; [by rewrite (proj1 (proj2 (Hc p)) Hsleep)|].
    intros i. rewrite Hp, Hs; [apply H2 | by intros [|[|]]].
Qed.

Lemma calm_keeps l l' : lkeeps l l' -> calm l l'.
Proof.
  intros [Hlen Hv]. split; [done|]. intros i. specialize (Hv i).
  unfold view in Hv. injection Hv as H1 _ H3 H4. auto.
Qed.

Lemma calm_trans l1 l2 l3 : calm l1 l2 -> calm l2 l3 -> calm l1 l3.
Proof.
  intros [Hl1 H1] [Hl2 H2]. split; [congruence|]. intros i.
  destruct (H1 i) as (P1 & C1 & S1), (H2 i) as (P2 & C2 & S2). split; [congruence|]. split.
  - intros Hs. rewrite C2 by done. destruct S2 as [S2|(? & ? & ?)]; [|done]. apply C1. congruence.
  - destruct S2 as [->|(? & ? & ?)]; [done|]. right. split; [|done].
    destruct S1 as [<-|(? & ? & ?)]; done.
Qed.

Lemma calm_alter f i l :
  (let p := l !!! i in parent (f p) = parent p /\
   (state (f p) = SLEEPING -> chan (f p) = chan p) /\
   (state (f p) = state p \/ alive (state p) /\ alive (state (f p)) /\ state (f p) <> SLEEPING)) ->
  calm l (alter f i l).
Proof.
  intros H. split; [apply length_alter|]. intros j. destruct (decide (i = j)) as [<-|Hj].
  - destruct (decide (i < length l)%nat); [by rewrite alter_at|].
    rewrite !lookup_total_ge by (rewrite ?length_alter; lia). auto.
  - rewrite alter_ne by done. auto.
Qed.

Lemma calm_wakeup ch l : calm l (wakeup1 ch l).
Proof.
  split; [apply length_fmap|]. intros i. unfold wakeup1.
  destruct (decide (i < length l)%nat) as [Hi|Hi].
  - rewrite fmap_at by done. unfold wakeup_one, is_state.
    case_bool_decide as Hs; cbn; [|auto]. destruct (_ =? _); cbn; [|auto].
    split; [done|]. split; [done|]. right. rewrite Hs. unfold alive. auto.
  - rewrite !lookup_total_ge by (rewrite ?length_fmap; lia). auto.
Qed.

Lemma alive_lt l i : alive (st l i) -> (i < length l)%nat.
Proof. intros H. apply lookup_total_lt. intros E. rewrite E in H. by destruct H as [|[|]]. Qed.

Lemma embryo_lt l i : st l i = EMBRYO -> (i < length l)%nat.
Proof. intros H. apply lookup_total_lt. intros E. by rewrite E in H. Qed.

Lemma zombie_lt l i : st l i = ZOMBIE -> (i < length l)%nat.
Proof. intros H. apply lookup_total_lt. intros E. by rewrite E in H. Qed.

(** Case analysis on which slot of an updated array is meant. *)
Ltac slot_at i j :=
  let E := fresh "E" in
  destruct (decide (i = j)) as [E|E];
  [ first [ subst j | subst i | idtac ] | ].
Ltac slots :=
  repeat match goal with
  | H : context [alter _ ?i _ !!! ?i] |- _ => rewrite alter_at in H by (rewrite ?length_alter; lia)
  | |- context [alter _ ?i _ !!! ?i] => rewrite alter_at by (rewrite ?length_alter; lia)
  | H : context [<[?i := _]> _ !!! ?i] |- _ => rewrite insert_at in H by (rewrite ?length_insert; lia)
  | |- context [<[?i := _]> _ !!! ?i] => rewrite insert_at by (rewrite ?length_insert; lia)
  | N : ?i <> ?j, H : context [alter _ ?i _ !!! ?j] |- _ => rewrite (alter_ne _ _ i j N) in H
  | N : ?i <> ?j |- context [alter _ ?i _ !!! ?j] => rewrite (alter_ne _ _ i j N)
  | N : ?i <> ?j, H : context [<[?i := _]> _ !!! ?j] |- _ => rewrite (insert_ne _ i j _ N) in H
  | N : ?i <> ?j |- context [<[?i := _]> _ !!! ?j] => rewrite (insert_ne _ i j _ N)
  | H : context [alter _ ?i _ !!! ?j] |- _ => slot_at i j
  | |- context [alter _ ?i _ !!! ?j] => slot_at i j
  | H : context [<[?i := _]> _ !!! ?j] |- _ => slot_at i j
  | |- context [<[?i := _]> _ !!! ?j] => slot_at i j
  end; cbn in *.

Lemma tinv_cont l init jobs conts p k :
  tinv l init jobs conts -> (p < length l)%nat -> st l p <> SLEEPING ->
  tinv l init jobs (<[p := k]> conts).
Proof.
  intros [J1 J2 J3 J3' J4 J5 J6 J7 J8 J8' J9 J10 J11] Hp Hs. split; try done.
  - by rewrite length_insert.
  - intros q b Hq. slots; [done | by apply J11].
Qed.

Lemma tinv_sleep l init jobs conts p ch k :
  tinv l init jobs conts -> alive (st l p) ->
  (forall b, k = RWait b -> ch = proc_addr ptable_addr (Some p) /\
     forall i, par l i = Some p -> st l i <> ZOMBIE) ->
  tinv (alter (asleep ch) p l) init jobs (<[p := k]> conts).
Proof.
  intros [J1 J2 J3 J3' J4 J5 J6 J7 J8 J8' J9 J10 J11] Ha Hk. pose proof (alive_lt _ _ Ha) as Hp.
  assert (forall i, alive (st (alter (asleep ch) p l) i) <-> alive (st l i)) as Hal.
  { intros i. slots; [|done]. unfold alive in *. tauto. }
  assert (forall i, par (alter (asleep ch) p l) i = par l i) as Hpa by (intros i; by slots).
  assert (forall i x, x <> SLEEPING -> ~ alive x -> st (alter (asleep ch) p l) i = x <-> st l i = x) as Hst.
  { intros i x Hx1 Hx2. slots; [|done]. split; [congruence|]. intros <-. done. }
  split.
  - by rewrite length_alter.
  - by rewrite length_insert, length_alter.
  - destruct J3 as (i0 & ? & ? & ?). exists i0. by rewrite Hal, Hpa.
  - intros i. rewrite Hpa. apply J3'.
  - intros i. rewrite Hpa, Hst; [apply J4 | done | by intros [|[|]]].
  - intros q np. rewrite Hal, Hst; [apply J5 | done | by intros [|[|]]].
  - done.
  - intros np. rewrite Hpa, Hst; [apply J7 | done | by intros [|[|]]].
  - intros q np. rewrite Hpa. apply J8.
  - intros q np. rewrite Hpa. apply J8'.
  - done.
  - intros i. rewrite Hal, Hst, Hpa by first [done | by intros [|[|]]]. intros H1 H2.
    destruct (J10 i H1 H2) as (q & ? & ?). exists q. by rewrite Hal.
  - intros q b. destruct (decide (p = q)) as [<-|Hq]; slots.
    + intros _ ->. destruct (Hk b eq_refl) as [-> Hz]. split; [done|].
      intros i. fold (st l i). slots; [|apply Hz]. done.
    + intros Hs Hc. destruct (J11 q b Hs Hc) as [H1 H2]. split; [done|].
      intros i. slots; [done | apply H2].
Qed.

(** Only wakeups, and the links to the parent given by [f]. *)
Definition rewired (f : nat -> option nat) (l l' : list proc) : Prop :=
  length l' = length l /\ forall i, (i < length l)%nat ->
    par l' i = f i /\ pid (l' !!! i) = pid (l !!! i) /\ chan (l' !!! i) = chan (l !!! i) /\
    (st l' i = st l i \/ st l i = SLEEPING /\ st l' i = RUNNABLE).

Lemma rewired_wakeup f ch l l' : rewired f l l' -> rewired f l (wakeup1 ch l').
Proof.
  intros [Hlen H]. unfold wakeup1. split; [by rewrite length_fmap|]. intros i Hi.
  rewrite fmap_at by lia. destruct (H i Hi) as (H1 & H2 & H3 & H4).
  unfold wakeup_one, is_state. case_bool_decide as Hs; cbn; [|done]. destruct (_ =? _); cbn; [|done].
  split_and!; try done. right. split; [|done]. destruct H4 as [<-|[? ?]]; congruence.
Qed.

Lemma wakeup_awake ch l i : chan (l !!! i) = ch -> st (wakeup1 ch l) i <> SLEEPING.
Proof.
  intros Hc. unfold wakeup1. destruct (decide (i < length l)%nat) as [Hi|Hi].
  - rewrite fmap_at by done. unfold wakeup_one, is_state. case_bool_decide; cbn; [|done].
    rewrite Hc, Z.eqb_refl. done.
  - by rewrite lookup_total_ge by (rewrite length_fmap; lia).
Qed.

Definition moved (cur : nat) (init : option nat) (l : list proc) (n i : nat) : option nat :=
  if decide ((i < n)%nat /\ par l i = Some cur) then init else par l i.

Lemma moved_O cur init l i : moved cur init l 0 i = par l i.
Proof. unfold moved. case_decide; [lia | done]. Qed.

Lemma moved_self cur init l n : moved cur init l n n = par l n.
Proof. unfold moved. case_decide; [lia | done]. Qed.

Lemma moved_S_ne cur init l n i : i <> n -> moved cur init l (S n) i = moved cur init l n i.
Proof.
  intros Hi. unfold moved. destruct (decide (par l i = Some cur)) as [Hp|Hp].
  - destruct (decide (i < n)%nat); [by rewrite !decide_True by (split; [lia | done])|].
    by rewrite !decide_False by lia.
  - by rewrite !decide_False by tauto.
Qed.

Lemma moved_S_eq cur init l n :
  moved cur init l (S n) n = if decide (par l n = Some cur) then init else par l n.
Proof.
  unfold moved. destruct (decide (par l n = Some cur)).
  - rewrite decide_True by (split; [lia | done]). done.
  - by rewrite decide_False by tauto.
Qed.

Lemma reparent_spec cur init l n :
  (n <= length l)%nat ->
  let l' := foldl (reparent_one ptable_addr cur init) l (seq 0 n) in
  rewired (moved cur init l n) l l' /\
  (forall z, (z < n)%nat -> par l z = Some cur -> st l z = ZOMBIE ->
     forall i, chan (l !!! i) = proc_addr ptable_addr init -> st l' i <> SLEEPING).
Proof.
  induction n as [|n IH]; intros Hn; cbn zeta.
  - split; [|lia]. split; [done|]. intros i Hi. rewrite moved_O. auto.
  - destruct IH as [[Hlen Hr] Hw]; [lia|]. rewrite seq_S, foldl_app. cbn [foldl Nat.add].
    set (L := foldl _ l (seq 0 n)) in *.
    destruct (Hr n ltac:(lia)) as (Hpn & _ & _ & Hsn). rewrite moved_self in Hpn.
    assert (st L n = ZOMBIE <-> st l n = ZOMBIE) as Hzn.
    { destruct Hsn as [->|[? ?]]; [done|]. split; congruence. }
    unfold reparent_one. case_bool_decide as Hpc.
    2: { split.
         - split; [done|]. intros i Hi. destruct (Hr i Hi) as (P & Q). split; [|done].
           rewrite P. destruct (decide (i = n)) as [->|]; [|by rewrite moved_S_ne].
           rewrite moved_self, moved_S_eq. rewrite decide_False by congruence. done.
         - intros z Hz Hpz Hzz. apply (Hw z); [|done ..]. destruct (decide (z = n)) as [->|]; [congruence | lia]. }
    assert (rewired (moved cur init l (S n)) l (alter (set_parent init) n L)) as Hre.
    { split; [by rewrite length_alter|]. intros i Hi. destruct (Hr i Hi) as (P & Q & C & T).
      destruct (decide (n = i)) as [<-|Hni].
      - rewrite alter_at by lia. cbn. split; [|done]. rewrite moved_S_eq.
        rewrite decide_True by congruence. done.
      - rewrite alter_ne by done. split; [|done]. by rewrite moved_S_ne by congruence. }
    assert (st (alter (set_parent init) n L) n = st L n) as Hsn' by (rewrite alter_at by lia; done).
    unfold is_state. rewrite Hsn'. case_bool_decide as Hz.
    + split; [by apply rewired_wakeup|]. intros z _ _ _ i Hi. apply wakeup_awake.
      destruct (decide (i < length l)%nat); [|by rewrite lookup_total_ge in * by (rewrite ?length_alter; lia)].
      by rewrite (proj1 (proj2 (proj2 (proj2 Hre i ltac:(done))))).
    + split; [done|]. intros z Hz' Hpz Hzz i Hi.
      assert (st (alter (set_parent init) n L) i = st L i) as ->.
      { destruct (decide (n = i)) as [<-|]; [done | by rewrite alter_ne]. }
      apply (Hw z); [|done ..]. destruct (decide (z = n)) as [->|]; [tauto | lia].
Qed.

(** What [exit] leaves, slot by slot. *)
Lemma exit_effect_spec cur init l :
  (cur < length l)%nat -> st l cur <> SLEEPING ->
  let l' := exit_effect ptable_addr cur init l in
  length l' = length l /\ st l' cur = ZOMBIE /\
  (forall i, pid (l' !!! i) = pid (l !!! i)) /\
  (forall i, chan (l' !!! i) = chan (l !!! i)) /\
  (forall i, par l' i = if decide (par l i = Some cur) then init else par l i) /\
  (forall i, i <> cur -> st l' i = st l i \/ st l i = SLEEPING /\ st l' i = RUNNABLE) /\
  (forall i, i <> cur -> chan (l !!! i) = proc_addr ptable_addr (par l cur) -> st l' i <> SLEEPING) /\
  (forall z, par l z = Some cur -> st l z = ZOMBIE ->
     forall i, i <> cur -> chan (l !!! i) = proc_addr ptable_addr init -> st l' i <> SLEEPING).
Proof.
  intros Hcur Hrun. cbn zeta. unfold exit_effect.
  set (l1 := wakeup1 _ l). set (l2 := foldl _ l1 _).
  assert (length l1 = length l) as Hl1 by apply length_fmap.
  assert (rewired (fun i => par l i) l l1) as [_ H1].
  { apply rewired_wakeup. split; [done|]. intros; auto. }
  destruct (reparent_spec cur init l1 (length l1) ltac:(lia)) as [[Hl2 H2] Hw]. fold l2 in Hl2, H2, Hw.
  assert (forall i, (length l <= i)%nat -> alter (set_state ZOMBIE) cur l2 !!! i = l !!! i) as Hout.
  { intros i Hi. by rewrite !lookup_total_ge by (rewrite ?length_alter; lia). }
  assert (forall i, (i < length l)%nat ->
    pid (l2 !!! i) = pid (l !!! i) /\ chan (l2 !!! i) = chan (l !!! i) /\
    par l2 i = (if decide (par l i = Some cur) then init else par l i) /\
    (st l2 i = st l i \/ st l i = SLEEPING /\ st l2 i = RUNNABLE)) as H3.
  { intros i Hi. destruct (H1 i Hi) as (A1 & A2 & A3 & A4), (H2 i ltac:(lia)) as (B1 & B2 & B3 & B4).
    split_and!; [congruence | congruence | |].
    - rewrite B1. unfold moved. rewrite A1. repeat case_decide; try done; [tauto|]. exfalso. apply H. split; [lia | done].
    - destruct B4 as [->|[? ?]]; [done|]. destruct A4 as [?|[? ?]]; right; split; congruence. }
  split_and!.
  - rewrite length_alter. lia.
  - rewrite alter_at by lia. done.
  - intros i. destruct (decide (i < length l)%nat) as [Hi|Hi]; [|by rewrite Hout by lia].
    destruct (decide (cur = i)) as [<-|Hc]; [rewrite alter_at by lia; cbn | rewrite alter_ne by done]; apply H3; lia.
  - intros i. destruct (decide (i < length l)%nat) as [Hi|Hi]; [|by rewrite Hout by lia].
    destruct (decide (cur = i)) as [<-|Hc]; [rewrite alter_at by lia; cbn | rewrite alter_ne by done]; apply H3; lia.
  - intros i. destruct (decide (i < length l)%nat) as [Hi|Hi].
    2: { rewrite Hout by lia. rewrite lookup_total_ge by lia. done. }
    destruct (decide (cur = i)) as [<-|Hc]; [rewrite alter_at by lia; cbn | rewrite alter_ne by done]; apply H3; lia.
  - intros i Hi. destruct (decide (i < length l)%nat) as [Hlt|Hlt]; [|left; by rewrite Hout by lia].
    rewrite alter_ne by done. by apply H3.
  - intros i Hi Hc. destruct (decide (i < length l)%nat) as [Hlt|Hlt]; [|rewrite Hout by lia; by rewrite lookup_total_ge by lia].
    rewrite alter_ne by done.
    assert (st l1 i <> SLEEPING) as Hs by by apply wakeup_awake.
    destruct (H2 i ltac:(lia)) as (_ & _ & _ & [->|[? ?]]); done.
  - intros z Hpz Hzz i Hi Hc. destruct (decide (i < length l)%nat) as [Hlt|Hlt]; [|rewrite Hout by lia; by rewrite lookup_total_ge by lia].
    rewrite alter_ne by done. pose proof (zombie_lt _ _ Hzz) as Hz.
    destruct (H1 z Hz) as (A1 & _ & _ & A4), (H1 i Hlt) as (_ & _ & A3 & _).
    apply (Hw z); [lia | congruence | | congruence]. destruct A4 as [->|[? ?]]; congruence.
Qed.

Lemma tinv_exit l init jobs conts cur :
  tinv l init jobs conts -> st l cur = RUNNING -> jobs !!! cur = JExit ->
  tinv (exit_effect ptable_addr cur init l) init jobs conts.
Proof.
  intros [J1 J2 J3 J3' J4 J5 J6 J7 J8 J8' J9 J10 J11] Hrun Hjob.
  assert (cur < length l)%nat as Hcur by (apply alive_lt; unfold alive; auto).
  destruct (exit_effect_spec cur init l Hcur ltac:(congruence)) as (L & Z & _ & C & P & S & W1 & W2).
  set (l' := exit_effect _ _ _ _) in *. pose proof (J9 _ Hjob) as Hni.
  assert (forall i, i <> cur -> alive (st l' i) <-> alive (st l i)) as Ha.
  { intros i Hi. destruct (S i Hi) as [->|[-> ->]]; [done|]. unfold alive. naive_solver. }
  assert (forall i x, i <> cur -> ~ alive x -> st l' i = x <-> st l i = x) as Hst.
  { intros i x Hi Hx. destruct (S i Hi) as [->|[-> ->]]; [done|]. unfold alive in Hx. naive_solver. }
  assert (forall np p, forking (jobs !!! p) = Some np -> p <> cur /\ np <> cur) as Hfk.
  { intros np p Hf. split; intros ->; [by rewrite Hjob in Hf|].
    destruct (J5 _ _ Hf) as [_ He]. congruence. }
  destruct J3 as (i0 & Hi0 & Hal0 & Hpar0).
  split; try done.
  - congruence.
  - congruence.
  - exists i0. split; [done|]. split; [apply Ha; [congruence | done]|].
    rewrite P, Hpar0. by rewrite decide_False.
  - intros i. rewrite P. case_decide; [|apply J3']. rewrite Hi0. intros [= <-]. congruence.
  - intros i Hu. destruct (decide (i = cur)) as [->|Hi]; [congruence|].
    apply Hst in Hu; [|done | by intros [|[|]]]. rewrite P, (J4 i Hu). by rewrite decide_False.
  - intros p np Hf. destruct (Hfk _ _ Hf), (J5 _ _ Hf) as [? ?].
    split; [by apply Ha | by apply Hst; [| by intros [|[|]]|]].
  - intros np He. destruct (decide (np = cur)) as [->|Hi]; [congruence|].
    apply Hst in He; [|done | by intros [|[|]]]. destruct (J7 _ He) as (p & Hf & Hp).
    exists p. split; [done|]. destruct (Hfk _ _ Hf). rewrite P. case_decide; [|done].
    destruct Hp; congruence.
  - intros p np Hj. pose proof (J8 _ _ Hj) as Hp. rewrite P, Hp.
    destruct (Hfk np p) as [? _]; [by rewrite Hj|]. rewrite decide_False by congruence. done.
  - intros p np Hj. rewrite P, (J8' _ _ Hj). by rewrite decide_False.
  - intros i Hi Hin. rewrite P. case_decide as Hpc.
    + exists i0. split; [done|]. apply Ha; [congruence | done].
    + assert (alive (st l i) \/ st l i = ZOMBIE) as Hi'.
      { destruct (decide (i = cur)) as [->|Hne]; [left; unfold alive; auto|].
        rewrite Ha, Hst in Hi by first [done | by intros [|[|]]]. done. }
      destruct (J10 i Hi' Hin) as (q & Hq & Haq). exists q. split; [done|].
      apply Ha; [congruence | done].
  - intros p b Hs Hc. destruct (decide (p = cur)) as [->|Hp]; [congruence|].
    assert (st l p = SLEEPING) as Hs0 by (destruct (S p Hp) as [<-|[? ?]]; congruence).
    destruct (J11 p b Hs0 Hc) as [H1 H2]. split; [by rewrite C|]. intros i Hpi Hz.
    rewrite P in Hpi. destruct (decide (i = cur)) as [->|Hi].
    + rewrite decide_False in Hpi by apply J3'. apply (W1 p Hp); [|done]. by rewrite Hpi.
    + apply Hst in Hz; [|done | by intros [|[|]]]. case_decide as Hpc.
      * apply (W2 i Hpc Hz p Hp); [|done]. by rewrite Hpi.
      * by apply (H2 i).
Qed.

Lemma alive_cases x : alive x -> x = UNUSED \/ x = EMBRYO \/ x = ZOMBIE -> False.
Proof. intros [->|[->| ->]]; naive_solver. Qed.

Lemma tinv_reap l init jobs conts i :
  tinv l init jobs conts -> st l i = ZOMBIE -> tinv (alter reap i l) init jobs conts.
Proof.
  intros [J1 J2 J3 J3' J4 J5 J6 J7 J8 J8' J9 J10 J11] Hz. pose proof (zombie_lt _ _ Hz) as Hi.
  destruct J3 as (i0 & Hi0 & Hal0 & Hp0).
  assert (forall j, alive (st l j) -> j <> i) as Hne by (intros j Hj ->; apply (alive_cases _ Hj); auto).
  split; try done.
  - by rewrite length_alter.
  - by rewrite length_alter.
  - exists i0. pose proof (Hne _ Hal0). by rewrite !alter_ne.
  - intros j. slots; [done | apply J3'].
  - intros j. slots; [done | apply J4].
  - intros p np Hf. destruct (J5 p np Hf) as [Ha He]. pose proof (Hne _ Ha).
    assert (np <> i) by congruence. by rewrite !alter_ne.
  - intros np. slots; [done | apply J7].
  - intros p np Hj. pose proof (J8 _ _ Hj) as Hp. destruct (J5 p np) as [_ He]; [by rewrite Hj|].
    slots; [congruence | done].
  - intros p np Hj. pose proof (J8' _ _ Hj) as Hp. slots; done.
  - intros j. slots; [unfold alive; naive_solver|]. intros Hj Hin.
    destruct (J10 j Hj Hin) as (q & Hq & Haq). exists q. pose proof (Hne _ Haq). by rewrite alter_ne.
  - intros p b. slots; [done|]. intros Hs Hc. destruct (J11 p b Hs Hc) as [H1 H2]. split; [done|].
    intros j. slots; [done | apply H2].
Qed.

Lemma tinv_job_exit l init jobs conts p :
  tinv l init jobs conts -> alive (st l p) -> jobs !!! p = JRun -> init <> Some p ->
  tinv l init (<[p := JExit]> jobs) conts.
Proof.
  intros [J1 J2 J3 J3' J4 J5 J6 J7 J8 J8' J9 J10 J11] Ha Hj Hin. pose proof (alive_lt _ _ Ha) as Hp.
  split; try done.
  - by rewrite length_insert.
  - intros q np. slots; [done | apply J5].
  - intros q r np. slots; try done. apply J6.
  - intros np He. destruct (J7 np He) as (q & Hq & Hpq). exists q. split; [|done].
    slots; [|done]. by rewrite Hj in Hq.
  - intros q np. slots; [done | apply J8].
  - intros q np. slots; [naive_solver | apply J8'].
  - intros q. slots; [done | apply J9].
Qed.

(** The slot [np] is taken for a child of [p]. *)
Lemma tinv_alloc l init jobs conts p np n :
  tinv l init jobs conts -> alive (st l p) -> jobs !!! p = JRun ->
  (np < length l)%nat -> st l np = UNUSED ->
  tinv (alter (born n) np l) init (<[p := JStack np]> jobs) conts.
Proof.
  intros [J1 J2 J3 J3' J4 J5 J6 J7 J8 J8' J9 J10 J11] Ha Hj Hnp Hu. pose proof (alive_lt _ _ Ha) as Hp.
  destruct J3 as (i0 & Hi0 & Hal0 & Hp0). pose proof (J4 _ Hu) as Hpar.
  assert (forall j, alive (st l j) -> np <> j) as Hne by (intros j Hx <-; apply (alive_cases _ Hx); auto).
  assert (forall q m, forking (jobs !!! q) = Some m -> np <> m /\ p <> q) as Hfk.
  { intros q m Hq. destruct (J5 q m Hq). split; [congruence|]. intros <-. by rewrite Hj in Hq. }
  split; try done.
  - by rewrite length_insert, length_alter.
  - by rewrite length_alter.
  - exists i0. pose proof (Hne _ Hal0). by rewrite !alter_ne.
  - intros j. slots; [by rewrite Hpar | apply J3'].
  - intros j. slots; [done | apply J4].
  - intros q m. destruct (decide (p = q)) as [<-|Hpq];
      [rewrite insert_at by lia | rewrite insert_ne by done]; cbn.
    + intros [= <-]. pose proof (Hne p Ha). by rewrite alter_ne, alter_at.
    + intros Hq. destruct (J5 q m Hq) as [Haq He], (Hfk q m Hq). pose proof (Hne _ Haq). by rewrite !alter_ne.
  - intros q r m. slots; try done.
    + intros [= <-] Hr. by destruct (Hfk r np Hr).
    + intros Hr [= <-]. by destruct (Hfk q np Hr).
    + apply J6.
  - intros m. slots.
    + intros _. exists p. rewrite insert_at by lia. auto.
    + intros He. destruct (J7 m He) as (q & Hq & Hpq). destruct (Hfk q m Hq). exists q. by slots.
  - intros q m. slots; try done. all: apply J8 || (intros Hq; by rewrite (J8 _ _ Hq) in Hpar).
  - intros q m. slots; try done; try apply J8'. all: naive_solver.
  - intros q. slots; [done | apply J9].
  - intros j. slots; [unfold alive; naive_solver|]. intros H1 H2.
    destruct (J10 j H1 H2) as (q & Hq & Haq). exists q. pose proof (Hne _ Haq). by rewrite alter_ne.
  - intros q b. slots; [done|]. intros Hs Hc. destruct (J11 q b Hs Hc) as [H1 H2]. split; [done|].
    intros j. slots; [done | apply H2].
Qed.

(** [fork] gives the slot back. *)
Lemma tinv_abort l init jobs conts p np :
  tinv l init jobs conts -> jobs !!! p = JStack np \/ jobs !!! p = JCopy np ->
  tinv (alter (set_state UNUSED) np l) init (<[p := JRun]> jobs) conts.
Proof.
  intros [J1 J2 J3 J3' J4 J5 J6 J7 J8 J8' J9 J10 J11] Hj.
  assert (forking (jobs !!! p) = Some np) as Hf by (destruct Hj as [->| ->]; done).
  destruct (J5 _ _ Hf) as [Ha He]. pose proof (alive_lt _ _ Ha) as Hp. pose proof (embryo_lt _ _ He) as Hnp.
  pose proof (J8' _ _ Hj) as Hpar. destruct J3 as (i0 & Hi0 & Hal0 & Hp0).
  assert (forall j, alive (st l j) -> np <> j) as Hne by (intros j Hx <-; apply (alive_cases _ Hx); auto).
  assert (forall q m, q <> p -> forking (jobs !!! q) = Some m -> np <> m) as Hfk.
  { intros q m Hq Hm <-. destruct Hq. by eapply J6. }
  split; try done.
  - by rewrite length_insert, length_alter.
  - by rewrite length_alter.
  - exists i0. pose proof (Hne _ Hal0). by rewrite !alter_ne.
  - intros j. slots; apply J3'.
  - intros j. slots; [done | apply J4].
  - intros q m. destruct (decide (p = q)) as [<-|Hq]; [by slots|]. rewrite insert_ne by done.
    intros Hm. destruct (J5 q m Hm) as [Haq Hem]. pose proof (Hne _ Haq). pose proof (Hfk q m ltac:(congruence) Hm).
    by rewrite !alter_ne.
  - intros q r m. slots; try done; apply J6.
  - intros m. slots; [done|]. intros Hm. destruct (J7 m Hm) as (q & Hq & Hpq). exists q.
    split; [|done]. slots; [congruence | done].
  - intros q m. slots; try done; apply J8.
  - intros q m. slots; try done; try apply J8'; naive_solver.
  - intros q. slots; [done | apply J9].
  - intros j. slots; [unfold alive; naive_solver|]. intros H1 H2.
    destruct (J10 j H1 H2) as (q & Hq & Haq). exists q. pose proof (Hne _ Haq). by rewrite alter_ne.
  - intros q b. slots; [done|]. intros Hs Hc. destruct (J11 q b Hs Hc) as [H1 H2]. split; [done|].
    intros j. slots; [done | apply H2].
Qed.

Lemma tinv_job_copy l init jobs conts p np :
  tinv l init jobs conts -> jobs !!! p = JStack np -> tinv l init (<[p := JCopy np]> jobs) conts.
Proof.
  intros [J1 J2 J3 J3' J4 J5 J6 J7 J8 J8' J9 J10 J11] Hj.
  assert (forking (jobs !!! p) = Some np) as Hf by by rewrite Hj.
  destruct (J5 _ _ Hf) as [Ha He]. pose proof (alive_lt _ _ Ha) as Hp.
  assert (forall q, forking (<[p := JCopy np]> jobs !!! q) = forking (jobs !!! q)) as Hsame
    by (intros q; slots; [by rewrite Hj | done]).
  split; try done.
  - by rewrite length_insert.
  - intros q m. rewrite Hsame. apply J5.
  - intros q r m. rewrite !Hsame. apply J6.
  - intros m Hm. destruct (J7 m Hm) as (q & ?). exists q. by rewrite Hsame.
  - intros q m. slots; [done | apply J8].
  - intros q m. slots; [|apply J8']. intros [|[= <-]]; [done|]. apply (J8' p). auto.
  - intros q. slots; [done | apply J9].
Qed.

(** [fork] links the child to its parent. *)
Lemma tinv_parent l init jobs conts p np :
  tinv l init jobs conts -> jobs !!! p = JCopy np ->
  tinv (alter (set_parent (Some p)) np l) init (<[p := JPub np]> jobs) conts.
Proof.
  intros [J1 J2 J3 J3' J4 J5 J6 J7 J8 J8' J9 J10 J11] Hj.
  assert (forking (jobs !!! p) = Some np) as Hf by by rewrite Hj.
  destruct (J5 _ _ Hf) as [Ha He]. pose proof (alive_lt _ _ Ha) as Hp. pose proof (embryo_lt _ _ He) as Hnp.
  assert (forall q, forking (<[p := JPub np]> jobs !!! q) = forking (jobs !!! q)) as Hsame
    by (intros q; slots; [by rewrite Hj | done]).
  assert (forall j, st (alter (set_parent (Some p)) np l) j = st l j) as Hst by (intros j; by slots).
  destruct J3 as (i0 & Hi0 & Hal0 & Hp0).
  assert (forall j, alive (st l j) -> np <> j) as Hne by (intros j Hx <-; apply (alive_cases _ Hx); auto).
  split; try done.
  - by rewrite length_insert, length_alter.
  - by rewrite length_alter.
  - exists i0. rewrite Hst. pose proof (Hne _ Hal0). by rewrite alter_ne.
  - intros j. slots; [|apply J3']. intros [= ->]. by apply (Hne np Ha).
  - intros j. rewrite Hst. slots; [congruence | apply J4].
  - intros q m. rewrite Hsame, !Hst. apply J5.
  - intros q r m. rewrite !Hsame. apply J6.
  - intros m. rewrite Hst. intros Hm. destruct (J7 m Hm) as (q & Hq & Hpq). exists q.
    rewrite Hsame. split; [done|]. slots; [|done]. right. f_equal. by eapply J6.
  - intros q m. destruct (decide (p = q)) as [<-|Hq];
      [rewrite insert_at by lia | rewrite insert_ne by done].
    + intros [= <-]. by rewrite alter_at by lia.
    + intros Hjq. rewrite alter_ne; [by apply J8|]. intros <-. apply Hq.
      eapply J6; [exact Hf|]. by rewrite Hjq.
  - intros q m. destruct (decide (p = q)) as [<-|Hq];
      [rewrite insert_at by lia; naive_solver | rewrite insert_ne by done].
    intros Hjq. rewrite alter_ne; [by eapply J8'|]. intros <-. apply Hq.
    eapply J6; [exact Hf|]. by destruct Hjq as [->| ->].
  - intros q. slots; [done | apply J9].
  - intros j. rewrite Hst. intros H1 H2. destruct (J10 j H1 H2) as (q & Hq & Haq). exists q. rewrite Hst.
    slots; [|done]. destruct H1 as [H1|H1]; [by destruct (alive_cases _ H1); auto | congruence].
  - intros q b. rewrite Hst. intros Hs Hc. destruct (J11 q b Hs Hc) as [H1 H2]. split; [by slots|].
    intros j. rewrite Hst. slots; [congruence | apply H2].
Qed.

(** [fork] makes the child runnable. *)
Lemma tinv_publish l init jobs conts p np :
  tinv l init jobs conts -> jobs !!! p = JPub np ->
  tinv (alter (fun q => set_priority 0 (set_state RUNNABLE q)) np l) init
    (<[np := JRun]> (<[p := JRun]> jobs)) (<[np := RFork]> conts).
Proof.
  intros [J1 J2 J3 J3' J4 J5 J6 J7 J8 J8' J9 J10 J11] Hj.
  assert (forking (jobs !!! p) = Some np) as Hf by by rewrite Hj.
  destruct (J5 _ _ Hf) as [Ha He]. pose proof (alive_lt _ _ Ha) as Hp. pose proof (embryo_lt _ _ He) as Hnp.
  pose proof (J8 _ _ Hj) as Hpar. destruct J3 as (i0 & Hi0 & Hal0 & Hp0).
  assert (forall j, alive (st l j) -> np <> j) as Hne by (intros j Hx <-; apply (alive_cases _ Hx); auto).
  set (l' := alter _ np l). set (jobs' := <[np := JRun]> (<[p := JRun]> jobs)).
  assert (forall j, par l' j = par l j) as HP by (intros j; unfold l'; by slots).
  assert (forall j, j <> np -> st l' j = st l j) as HS by (intros j Hx; unfold l'; by rewrite alter_ne).
  assert (st l' np = RUNNABLE) as HSn by (unfold l'; by rewrite alter_at).
  assert (forall j, alive (st l j) -> alive (st l' j)) as HA by (intros j Hx; pose proof (Hne _ Hx); by rewrite HS).
  assert (forall q, q <> p -> q <> np -> jobs' !!! q = jobs !!! q) as HJ
    by (intros q Hx Hy; unfold jobs'; by rewrite !insert_ne).
  assert (forall q, q = p \/ q = np -> jobs' !!! q = JRun) as HJn.
  { intros q Hq. unfold jobs'. slots; try done. destruct Hq; congruence. }
  assert (forall q m, forking (jobs' !!! q) = Some m -> q <> p /\ q <> np /\ forking (jobs !!! q) = Some m /\ m <> np) as Hfk.
  { intros q m Hq. destruct (decide (q = p)) as [->|]; [by rewrite HJn in Hq by auto|].
    destruct (decide (q = np)) as [->|]; [by rewrite HJn in Hq by auto|].
    rewrite HJ in Hq by done. split_and!; try done. intros ->. by eapply n, J6. }
  split.
  - unfold jobs', l'. by rewrite !length_insert, length_alter.
  - unfold l'. by rewrite length_insert, length_alter.
  - exists i0. rewrite HP. auto.
  - intros i. rewrite HP. apply J3'.
  - intros i. rewrite HP. destruct (decide (i = np)) as [->|]; [congruence|]. rewrite HS by done. apply J4.
  - intros q m (? & ? & Hm & ?)%Hfk. destruct (J5 q m Hm). split; [auto | by rewrite HS].
  - intros q r m (? & ? & Hm & _)%Hfk (? & ? & Hm' & _)%Hfk. by eapply J6.
  - intros m. destruct (decide (m = np)) as [->|]; [congruence|]. rewrite HS by done. intros Hm.
    destruct (J7 m Hm) as (q & Hq & Hpq). exists q. rewrite HP. split; [|done].
    rewrite HJ; [done | congruence |]. intros ->. destruct (J5 _ _ Hq) as [Hx _]. by apply (Hne np Hx).
  - intros q m Hq. destruct (Hfk q m) as (? & ? & _); [by rewrite Hq|]. rewrite HJ in Hq by done. rewrite HP. by apply J8.
  - intros q m Hq. destruct (Hfk q m) as (? & ? & _); [by destruct Hq as [->| ->]|]. rewrite HJ in Hq by done. rewrite HP. by eapply J8'.
  - intros q Hq. destruct (decide (q = p)) as [->|]; [by rewrite HJn in Hq by auto|].
    destruct (decide (q = np)) as [->|]; [by rewrite HJn in Hq by auto|]. rewrite HJ in Hq by done. by apply J9.
  - intros i Hi Hin. rewrite HP. destruct (decide (i = np)) as [->|].
    + exists p. auto.
    + rewrite HS in Hi by done. destruct (J10 i Hi Hin) as (q & ? & ?). exists q. auto.
  - intros q b Hs. destruct (decide (q = np)) as [->|]; [congruence|]. rewrite HS in Hs by done.
    rewrite insert_ne by congruence. intros Hc. destruct (J11 q b Hs Hc) as [H1 H2].
    split; [unfold l'; by rewrite alter_ne by congruence|].
    intros i. rewrite HP. destruct (decide (i = np)) as [->|]; [congruence|]. rewrite HS by done. apply H2.
Qed.
End tinv.
