(* ===== verification/ProcSafe.v ===== *)
(** * Safety of the process system

    The invariants of ProcInv.v hold in every state reachable from boot. *)

From S2P Require Import Prelude Spinlock Proc ProcSys ProcInv.

#[local] Arguments sched : simpl never.
#[local] Arguments acquire_pt : simpl never.
#[local] Arguments release_pt : simpl never.
#[local] Arguments sleep : simpl never.

(** ** Process ids *)

Record pinv (l : list proc) (next forks : Z) : Prop := {
  p_count : 0 <= forks;
  p_next : next = i32 (1 + forks);
  p_range : forks < 2 ^ 31 - 1 -> forall i, 0 <= pid (l !!! i) <= forks;
  p_one : forks < 2 ^ 31 - 1 -> forall i j, pid (l !!! i) = pid (l !!! j) -> pid (l !!! i) <> 0 -> i = j;
}.

Lemma pinv_same l l' next forks :
  (forall i, pid (l' !!! i) = pid (l !!! i)) -> pinv l next forks -> pinv l' next forks.
Proof.
  intros Hp [H1 H2 H3 H4]. split; [done | done | |].
  - intros Hf i. rewrite Hp. auto.
  - intros Hf i j. rewrite !Hp. auto.
Qed.

Lemma pid_keeps l l' : lkeeps l l' -> forall i, pid (l' !!! i) = pid (l !!! i).
Proof. intros [_ Hv] i. specialize (Hv i). unfold view in Hv. congruence. Qed.

Lemma pinv_keeps l l' next forks : lkeeps l l' -> pinv l next forks -> pinv l' next forks.
Proof. intros Hk. apply pinv_same. by apply pid_keeps. Qed.

Lemma pid_alter f i (l : list proc) :
  (forall p, pid (f p) = pid p) -> forall j, pid (alter f i l !!! j) = pid (l !!! j).
Proof.
  intros Hf j. destruct (decide (i = j)) as [<-|Hj]; [|by rewrite alter_ne].
  destruct (decide (i < length l)%nat); [by rewrite alter_at|].
  by rewrite !lookup_total_ge by (rewrite ?length_alter; lia).
Qed.

Lemma pid_wakeup ch l j : pid (wakeup1 ch l !!! j) = pid (l !!! j).
Proof.
  unfold wakeup1. destruct (decide (j < length l)%nat).
  - rewrite fmap_at by done. unfold wakeup_one. by destruct (_ && _).
  - by rewrite !lookup_total_ge by (rewrite ?length_fmap; lia).
Qed.

Lemma pinv_reap l next forks i : pinv l next forks -> pinv (alter reap i l) next forks.
Proof.
  intros [H1 H2 H3 H4].
  assert (forall j, pid (alter reap i l !!! j) = pid (l !!! j) \/ pid (alter reap i l !!! j) = 0) as Hp.
  { intros j. destruct (decide (i = j)) as [<-|Hj]; [|left; by rewrite alter_ne].
    destruct (decide (i < length l)%nat); [right; by rewrite alter_at|].
    left. by rewrite !lookup_total_ge by (rewrite ?length_alter; lia). }
  split; [done | done | |].
  - intros Hf j. specialize (H3 Hf j). destruct (Hp j); lia.
  - intros Hf j k Heq Hne. destruct (Hp j) as [Hj|Hj]; [|lia]. destruct (Hp k) as [Hk|Hk]; [|lia].
    apply H4; congruence.
Qed.

Lemma pinv_alloc l next forks np :
  (np < length l)%nat -> pinv l next forks ->
  pinv (alter (born next) np l) (i32 (next + 1)) (forks + 1).
Proof.
  intros Hnp [H1 H2 H3 H4].
  assert (forks < 2 ^ 31 - 2 -> next = 1 + forks) as Hn by (intros; rewrite H2; apply i32_small; lia).
  assert (pid (alter (born next) np l !!! np) = next) as Hat by by rewrite alter_at.
  assert (forall j, np <> j -> pid (alter (born next) np l !!! j) = pid (l !!! j)) as Hne
    by (intros; by rewrite alter_ne).
  split.
  - lia.
  - rewrite H2, i32_add_l. f_equal. lia.
  - intros Hf j. specialize (H3 ltac:(lia)). specialize (Hn ltac:(lia)).
    destruct (decide (np = j)) as [<-|Hj]; [rewrite Hat; lia|]. rewrite Hne by done. specialize (H3 j). lia.
  - intros Hf j k. specialize (H3 ltac:(lia)). specialize (H4 ltac:(lia)). specialize (Hn ltac:(lia)).
    destruct (decide (np = j)) as [<-|Hj], (decide (np = k)) as [<-|Hk]; rewrite ?Hat, ?Hne by done.
    + done.
    + specialize (H3 k). lia.
    + specialize (H3 j). lia.
    + apply H4.
Qed.

(** ** Which processes are marked running *)

Lemma run_alter_other (l : list proc) f i :
  st l i <> RUNNING -> state (f (l !!! i)) <> RUNNING ->
  forall p, st (alter f i l) p = RUNNING <-> st l p = RUNNING.
Proof.
  intros H1 H2 p. destruct (decide (i = p)) as [<-|Hp]; [|by rewrite alter_ne].
  destruct (decide (i < length l)%nat); [rewrite alter_at by done; tauto|].
  by rewrite !lookup_total_ge by (rewrite ?length_alter; lia).
Qed.

Lemma run_alter_same (l : list proc) f i :
  (forall p, state (f p) = state p) -> forall p, st (alter f i l) p = RUNNING <-> st l p = RUNNING.
Proof.
  intros H p. destruct (decide (i = p)) as [<-|Hp]; [|by rewrite alter_ne].
  destruct (decide (i < length l)%nat); [rewrite alter_at by done; by rewrite H|].
  by rewrite !lookup_total_ge by (rewrite ?length_alter; lia).
Qed.

Lemma run_alter_stop (l : list proc) f i :
  (i < length l)%nat -> state (f (l !!! i)) <> RUNNING ->
  forall p, st (alter f i l) p = RUNNING <-> st l p = RUNNING /\ p <> i.
Proof.
  intros Hi Hf p. destruct (decide (i = p)) as [<-|Hp].
  - rewrite alter_at by done. tauto.
  - rewrite alter_ne by done. split; [|tauto]. auto.
Qed.

Lemma run_wakeup ch l p : st (wakeup1 ch l) p = RUNNING <-> st l p = RUNNING.
Proof.
  unfold wakeup1. destruct (decide (p < length l)%nat).
  - rewrite fmap_at by done. unfold wakeup_one, is_state. case_bool_decide as Hs; cbn; [|done].
    destruct (_ =? _); [|done]. cbn. rewrite Hs. done.
  - by rewrite !lookup_total_ge by (rewrite ?length_fmap; lia).
Qed.

Lemma run_keeps l l' : lkeeps l l' -> forall p, st l' p = RUNNING <-> st l p = RUNNING.
Proof. intros [_ Hv] p. specialize (Hv p). unfold view in Hv. by injection Hv as -> _ _ _. Qed.

Lemma run_exit ptable_addr cur init l :
  st l cur = RUNNING ->
  forall p, st (exit_effect ptable_addr cur init l) p = RUNNING <-> st l p = RUNNING /\ p <> cur.
Proof.
  intros Hr p. assert (cur < length l)%nat as Hc by (apply alive_lt; unfold alive; auto).
  destruct (exit_effect_spec ptable_addr cur init l Hc ltac:(congruence)) as (_ & Hz & _ & _ & _ & Hs & _).
  destruct (decide (p = cur)) as [->|Hp]; [rewrite Hz; naive_solver|].
  destruct (Hs p Hp) as [->|[-> ->]]; naive_solver.
Qed.

(** ** Every step keeps the invariants *)

Section safety.
Context (ptable_addr : Z) {K : Type} `{Services K} (trapret_addr forkret_addr : Z).
Notation world := (world (K := K)).

Record winv (w : world) : Prop := {
  w_table : tinv ptable_addr (ltab w) (initproc (pt (kern w))) (jobs w) (conts w);
  w_cpus : cinv (ltab w) (plock (pt (kern w))) (cpus w);
  w_pids : pinv (ltab w) (nextpid (pt (kern w))) (forks w);
}.

(** The table [t] that an operation of CPU [c] leaves, with the CPU at [a]. *)
Lemma winv_move (w : world) c a t k jobs' conts' forks' :
  winv w -> (c < length (cpus w))%nat ->
  tinv ptable_addr (procs t) (initproc t) jobs' conts' ->
  cmove (ltab w) (plock (pt (kern w))) (at_ (cpus w !!! c)) a (me t) (procs t) (plock t) ->
  pinv (procs t) (nextpid t) forks' ->
  winv (mk_world (mk_kst t k) (<[c := mk_cpuctl a (me t)]> (cpus w)) jobs' conts' forks').
Proof. intros [_ Hc _] Hlt Ht Hm Hp. split; [done | by eapply cinv_move | done]. Qed.

Lemma load_held (w : world) c : winv w -> holder (at_ (cpus w !!! c)) = true -> held (pt (load c w)).
Proof. intros [_ Hc _] Hh. destruct (c_hold _ _ _ Hc c Hh) as (? & ? & ?). done. Qed.

Lemma load_free (w : world) c :
  winv w -> holder (at_ (cpus w !!! c)) = false -> plock (pt (kern w)) = false -> free (pt (load c w)).
Proof. intros [_ Hc _] Hh Hl. split; [done|]. by apply (c_open _ _ _ Hc). Qed.

(** An operation that first takes the lock and returns or sleeps found it free. *)
Definition locking {A} (m : M ptab A) : Prop := forall t, plock t = true -> m t = Panic "acquire".

Lemma locking_bind {A B} (m : M ptab A) (k : A -> M ptab B) : locking m -> locking (bind m k).
Proof. intros Hm t Ht. unfold bind. by rewrite Hm. Qed.

Lemma locking_acquire : locking acquire_pt.
Proof. intros t Ht. unfold acquire_pt, bind, zoom, Cli.pushcli, reads. cbn. by rewrite Ht. Qed.

Lemma locking_call k : locking (exec_call k).
Proof. destruct k; cbn; repeat first [apply locking_acquire | apply locking_bind]. Qed.

Lemma locking_sleep p ch : locking (zoom me set_me Cli.pushcli ;; sleep p ch false).
Proof. intros t Ht. unfold bind, zoom, sleep, when, acquire_pt, Cli.pushcli, reads, bind, zoom. cbn. by rewrite Ht. Qed.

Lemma locking_publish np : locking (fork_publish np).
Proof. intros t Ht. unfold fork_publish, bind at 1, getp, reads. by apply locking_bind; [apply locking_acquire|]. Qed.

Lemma locking_alloc : locking allocproc_slot.
Proof. apply locking_bind, locking_acquire. Qed.

Lemma locking_yield p : locking (yield p).
Proof. apply locking_bind, locking_acquire. Qed.

Lemma locking_exit p : locking (exit_tail ptable_addr p).
Proof. apply locking_bind, locking_acquire. Qed.

Lemma locking_free {A} (m : M ptab A) (w : world) c p :
  winv w -> at_ (cpus w !!! c) = Run p false -> locking m ->
  (exists a s', tab m (load c w) = Ret a s') \/ (exists ch s', tab m (load c w) = Sleep ch s') ->
  plock (pt (kern w)) = false /\ free (pt (load c w)).
Proof.
  intros Hw Hat Hm Hout. assert (plock (pt (kern w)) = false) as Hl.
  { destruct (plock (pt (kern w))) eqn:E; [|done]. exfalso.
    destruct Hout as [(a & s' & Ho)|(ch & s' & Ho)].
    - apply tab_Ret in Ho as (t' & Ho & _). by rewrite Hm in Ho.
    - apply tab_Sleep in Ho as (t' & Ho & _). by rewrite Hm in Ho. }
  split; [done|]. apply load_free; [done | by rewrite Hat | done].
Qed.

(** The process stays on its CPU and the running processes stay the same. *)
Lemma cmove_stay (l : list proc) lk p b cl (l' : list proc) :
  Cli.ncli cl = 0 -> st l p = RUNNING -> (forall q, st l' q = RUNNING <-> st l q = RUNNING) ->
  cmove l lk (Run p b) (Run p false) cl l' (if b then false else lk).
Proof.
  intros Hcl Hp Hr. split; cbn.
  - done.
  - by destruct b.
  - auto.
  - intros q. rewrite Hr. destruct (decide (p = q)) as [<-|Hq]; naive_solver.
Qed.

(** The process gives up its CPU, whose scheduler goes on with the lock. *)
Lemma cmove_leave (l : list proc) lk p b cl (l' : list proc) k :
  Cli.ncli cl = 1 -> Cli.IF cl = false -> (b = true \/ lk = false) -> st l p = RUNNING ->
  (forall q, st l' q = RUNNING <-> st l q = RUNNING /\ q <> p) ->
  cmove l lk (Run p b) (Scan k) cl l' true.
Proof.
  intros H1 H2 H3 Hp Hr. split; cbn.
  - done.
  - split; [done|]. destruct H3; auto.
  - done.
  - intros q. rewrite Hr. naive_solver.
Qed.

Lemma at_running (w : world) c p b : winv w -> at_ (cpus w !!! c) = Run p b -> st (ltab w) p = RUNNING.
Proof. intros [_ Hc _] Hat. apply (c_run _ _ _ Hc c). by rewrite Hat. Qed.

Lemma runnable_st l p : runnable l p = true -> st l p = RUNNABLE.
Proof. apply bool_decide_eq_true_1. Qed.

Lemma step_scan_ok (w : world) c k r s' :
  winv w -> (c < length (cpus w))%nat -> at_ (cpus w !!! c) = Scan k ->
  tab (scheduler k) (load c w) = Ret r s' ->
  winv (store c (match r with Some p => Run p true | None => Idle end) s' w).
Proof.
  intros Hw Hc Hat Hs. pose proof (load_held w c Hw ltac:(by rewrite Hat)) as Hh.
  apply tab_Ret in Hs as (t' & Hs & ->). pose proof Hw as [Ht Hcp Hp].
  unfold scheduler, bind at 1, reads in Hs.
  destruct (pick (procs (pt (load c w))) k) as [p|] eqn:E.
  - injection Hs as <- <-. apply pick_spec in E as (Hlt & Hr & _). apply runnable_st in Hr.
    change (procs (pt (load c w))) with (ltab w) in *.
    apply winv_move; try done; cbn.
    + eapply tinv_calm; [exact Ht|]. apply calm_alter. cbn zeta. fold (ltab w). cbn.
      rewrite Hr. unfold alive. split_and!; naive_solver.
    + fold (ltab w). rewrite Hat. split; cbn.
      * apply Hh.
      * split; [apply Hh | auto].
      * intros q [= <-]. right. congruence.
      * intros q. destruct (decide (p = q)) as [<-|Hq].
        -- rewrite alter_at by done. cbn. naive_solver.
        -- rewrite alter_ne by done. naive_solver.
    + eapply pinv_same; [|exact Hp]. by apply pid_alter.
  - rewrite (bind_ret _ _ _ _ _ (release_held _ Hh)) in Hs. injection Hs as <- <-.
    apply winv_move; try done. cbn. fold (ltab w). rewrite Hat. split; cbn; try done.
    intros q. naive_solver.
Qed.

Lemma step_resume_ok (w : world) c p t' f :
  winv w -> (c < length (cpus w))%nat -> at_ (cpus w !!! c) = Run p true ->
  procs t' = alter f p (ltab w) -> initproc t' = initproc (pt (kern w)) ->
  nextpid t' = nextpid (pt (kern w)) -> free t' -> (forall q, view (set_chan 0 (f q)) = view (set_chan 0 q)) ->
  winv (store c (Run p false) (mk_kst t' (ks (kern w))) w).
Proof.
  intros Hw Hc Hat Hpr Hi Hn [Hl Hcl] Hf. pose proof (at_running _ _ _ _ Hw Hat) as Hrun.
  pose proof Hw as [Ht Hcp Hp].
  assert (forall q, state (f q) = state q /\ pid (f q) = pid q /\ parent (f q) = parent q) as Hfv.
  { intros q. specialize (Hf q). unfold view in Hf. cbn in Hf. split_and!; congruence. }
  unfold store; cbn [pt]. apply winv_move; [done | done | | |].
  - rewrite Hpr, Hi. eapply tinv_calm; [exact Ht|]. apply calm_alter. cbn zeta.
    destruct (Hfv (ltab w !!! p)) as (-> & _ & ->). split; [done|]. split; [congruence | auto].
  - rewrite Hat, Hpr, Hl. apply (cmove_stay _ _ p true); [done | done |].
    apply run_alter_same. intros q. apply Hfv.
  - rewrite Hpr, Hn. eapply pinv_same; [|exact Hp]. apply pid_alter. intros q. apply Hfv.
Qed.

(** Steps of a running process that return to it and leave the marks of
    running processes alone. *)
Lemma step_stay_ok (w : world) c p t' k' jobs' forks' :
  winv w -> (c < length (cpus w))%nat -> at_ (cpus w !!! c) = Run p false ->
  plock t' = plock (pt (kern w)) -> Cli.ncli (me t') = 0 ->
  tinv ptable_addr (procs t') (initproc t') jobs' (conts w) ->
  (forall q, st (procs t') q = RUNNING <-> st (ltab w) q = RUNNING) ->
  pinv (procs t') (nextpid t') forks' ->
  winv (mk_world (mk_kst t' k') (<[c := mk_cpuctl (Run p false) (me t')]> (cpus w)) jobs' (conts w) forks').
Proof.
  intros Hw Hc Hat Hl Hcl Ht Hr Hp. apply winv_move; try done.
  rewrite Hat, Hl. apply (cmove_stay _ _ p false); auto. by eapply at_running.
Qed.

(** Steps of a running process that end in [sched]. *)
Lemma step_leave_ok (w : world) c p b t' k' conts' :
  winv w -> (c < length (cpus w))%nat -> at_ (cpus w !!! c) = Run p b ->
  b = true \/ plock (pt (kern w)) = false -> held t' ->
  nextpid t' = nextpid (pt (kern w)) ->
  tinv ptable_addr (procs t') (initproc t') (jobs w) conts' ->
  (forall q, st (procs t') q = RUNNING <-> st (ltab w) q = RUNNING /\ q <> p) ->
  (forall q, pid (procs t' !!! q) = pid (ltab w !!! q)) ->
  winv (mk_world (mk_kst t' k') (<[c := mk_cpuctl (Scan (S p)) (me t')]> (cpus w)) (jobs w) conts' (forks w)).
Proof.
  intros Hw Hc Hat Hb (Hl & Hn1 & Hn2) Hn Ht Hr Hpid. apply winv_move; try done.
  - rewrite Hat, Hl. apply cmove_leave; auto. by eapply at_running.
  - rewrite Hn. eapply pinv_same; [exact Hpid|]. apply Hw.
Qed.

Lemma calm_kill i l : calm l (alter kill_one i l).
Proof.
  apply calm_alter. cbn zeta. unfold kill_one, is_state. cbn.
  case_bool_decide as Hs; cbn; [|auto]. rewrite Hs. unfold alive. split_and!; naive_solver.
Qed.

Lemma kill_running i (l : list proc) p : st (alter kill_one i l) p = RUNNING <-> st l p = RUNNING.
Proof.
  destruct (decide (i = p)) as [<-|Hp]; [|by rewrite alter_ne].
  destruct (decide (i < length l)%nat); [|by rewrite !lookup_total_ge by (rewrite ?length_alter; lia)].
  rewrite alter_at by done. unfold kill_one, is_state. cbn. case_bool_decide as Hs; cbn; [|done].
  rewrite Hs. done.
Qed.

Lemma step_call_ok (w : world) c p k s' :
  winv w -> (c < length (cpus w))%nat -> at_ (cpus w !!! c) = Run p false ->
  tab (exec_call k) (load c w) = Ret tt s' -> winv (store c (Run p false) s' w).
Proof.
  intros Hw Hc Hat Hs. destruct (locking_free _ w c p Hw Hat (locking_call k)) as [Hl Hf]; [eauto|].
  apply tab_Ret in Hs as (t' & Hs & ->). pose proof Hw as [Ht Hcp Hp].
  assert (exists l', t' = unlocked (set_procs l' (locked (pt (load c w)))) /\ calm (ltab w) l' /\
    (forall q, st l' q = RUNNING <-> st (ltab w) q = RUNNING) /\
    (forall q, pid (l' !!! q) = pid (ltab w !!! q))) as (l' & -> & Hcalm & Hr & Hpid).
  { destruct k; cbn [exec_call] in Hs.
    - rewrite wakeup_eq in Hs by done. injection Hs as <-. eexists. split; [reflexivity|].
      split; [apply calm_wakeup|]. split; [apply run_wakeup | apply pid_wakeup].
    - apply bind_Ret in Hs as (r & t1 & Hs & [= <-]). rewrite (kill_eq _ _ Hf) in Hs.
      destruct (find_index _ _) as [i|]; injection Hs as <- <-.
      + eexists. split; [reflexivity|]. split; [apply calm_kill|]. split; [apply kill_running|].
        apply pid_alter. intros q. unfold kill_one. by destruct (is_state _ _).
      + exists (ltab w). split; [done|]. split; [by apply calm_keeps|]. done.
    - apply bind_Ret in Hs as (r & t1 & Hs & [= <-]).
      destruct (nice_eq n prio _ Hf) as (l' & Hn & Hlen & Hv). rewrite Hn in Hs. injection Hs as <- <-.
      assert (lkeeps (ltab w) l') as Hk by done. exists l'. split; [done|].
      split; [by apply calm_keeps|]. split; [by apply run_keeps | by apply pid_keeps].
    - apply bind_Ret in Hs as (r & t1 & Hs & [= <-]). rewrite proc_nice_eq in Hs by done.
      injection Hs as <- <-. exists (ltab w). split; [done|]. split; [by apply calm_keeps|]. done. }
  apply step_stay_ok; try done.
  - by eapply tinv_calm.
  - by eapply pinv_same.
Qed.

(** The end of [wait], reached with the lock held and the table [l0] that
    differs from the one of [w] only in the channel of the caller. *)
Lemma step_waited_ok (w : world) c p b s r s' :
  winv w -> (c < length (cpus w))%nat -> at_ (cpus w !!! c) = Run p b ->
  b = true \/ plock (pt (kern w)) = false -> held (pt s) ->
  initproc (pt s) = initproc (pt (kern w)) -> nextpid (pt s) = nextpid (pt (kern w)) ->
  procs (pt s) = ltab w \/ procs (pt s) = alter (set_chan 0) p (ltab w) ->
  wait_loop ptable_addr p s = Ret r s' -> winv (store c (Run p false) s' w).
Proof.
  intros Hw Hc Hat Hb Hh Hi Hn Hpr Hs. pose proof (at_running _ _ _ _ Hw Hat) as Hrun.
  pose proof Hw as [Ht Hcp Hp].
  assert (calm (ltab w) (procs (pt s)) /\ (forall q, st (procs (pt s)) q = RUNNING <-> st (ltab w) q = RUNNING) /\
    (forall q, pid (procs (pt s) !!! q) = pid (ltab w !!! q))) as (Hcalm & Hr & Hpid).
  { destruct Hpr as [->| ->]; [split; [by apply calm_keeps | done]|].
    split; [|split; [by apply run_alter_same | by apply pid_alter]].
    apply calm_alter. cbn. rewrite Hrun. split_and!; auto; done. }
  assert (exists l', pt s' = unlocked (set_procs l' (pt s)) /\
    tinv ptable_addr l' (initproc (pt s)) (jobs w) (conts w) /\
    (forall q, st l' q = RUNNING <-> st (ltab w) q = RUNNING) /\ pinv l' (nextpid (pt s)) (forks w))
    as (l' & Hpt & Ht' & Hr' & Hp').
  { rewrite Hi, Hn. pose proof (tinv_calm _ _ _ _ _ _ Ht Hcalm) as Ht1.
    pose proof (pinv_same _ _ _ _ Hpid Hp) as Hp1.
    destruct (wait_loop_Ret _ _ _ _ _ Hh Hs) as [Hpt|(i & Hz & _ & _ & Hpt)].
    - exists (procs (pt s)). split; [rewrite Hpt; by destruct s as [[]]|]. done.
    - eexists. split; [exact Hpt|]. split; [by apply tinv_reap|]. split; [|by apply pinv_reap].
      intros q. rewrite run_alter_other; [apply Hr | congruence | done]. }
  destruct s' as [t' k']. cbn in Hpt. subst t'. unfold store; cbn [pt].
  apply winv_move; try done. rewrite Hat.
  assert (plock (unlocked (set_procs l' (pt s))) = (if b then false else plock (pt (kern w)))) as ->
    by (destruct b; [done | by destruct Hb]).
  by apply cmove_stay.
Qed.

Lemma step_wait_sleep_ok (w : world) c p b s ch s' :
  winv w -> (c < length (cpus w))%nat -> at_ (cpus w !!! c) = Run p b ->
  b = true \/ plock (pt (kern w)) = false -> held (pt s) ->
  initproc (pt s) = initproc (pt (kern w)) -> nextpid (pt s) = nextpid (pt (kern w)) ->
  procs (pt s) = ltab w \/ procs (pt s) = alter (set_chan 0) p (ltab w) ->
  wait_loop ptable_addr p s = Sleep ch s' ->
  winv (set_cont p (RWait (saved s')) (store c (Scan (S p)) s' w)).
Proof.
  intros Hw Hc Hat Hb Hh Hi Hn Hpr Hs. pose proof (at_running _ _ _ _ Hw Hat) as Hrun.
  pose proof Hw as [Ht Hcp Hp]. destruct (wait_loop_Sleep _ _ _ _ _ Hh Hs) as [Hnz Hpt].
  assert (p < length (ltab w))%nat as Hlt by (apply alive_lt; unfold alive; auto).
  set (ad := proc_addr ptable_addr (Some p)) in *.
  assert (alter (asleep ad) p (procs (pt s)) = alter (asleep ad) p (ltab w)) as Hsame
    by (destruct Hpr as [->| ->]; [done | by rewrite alter_alter_eq]).
  assert (forall i, par (ltab w) i = Some p -> st (ltab w) i <> ZOMBIE) as Hnz'.
  { intros i. specialize (Hnz i). destruct Hpr as [E|E]; rewrite E in Hnz; [done|].
    destruct (decide (p = i)) as [<-|Hpi]; [rewrite alter_at in Hnz by done | rewrite alter_ne in Hnz by done]; done. }
  rewrite Hsame in Hpt. destruct s' as [t' k']. cbn in Hpt. subst t'.
  unfold set_cont, store; cbn [pt kern cpus jobs conts forks].
  eapply step_leave_ok; try done.
  - cbn. rewrite Hi. apply tinv_sleep; [done | rewrite Hrun; unfold alive; auto | done].
  - by apply run_alter_stop.
  - by apply pid_alter.
Qed.

Lemma step_alloc_ok (w : world) c p r s' :
  winv w -> (c < length (cpus w))%nat -> at_ (cpus w !!! c) = Run p false -> jobs w !!! p = JRun ->
  tab allocproc_slot (load c w) = Ret r s' ->
  winv (match r with
        | Some np => set_job p (JStack np) (add_fork (store c (Run p false) s' w))
        | None => store c (Run p false) s' w
        end).
Proof.
  intros Hw Hc Hat Hj Hs. pose proof (at_running _ _ _ _ Hw Hat) as Hrun.
  destruct (locking_free _ w c p Hw Hat locking_alloc) as [Hl Hf]; [eauto|].
  apply tab_Ret in Hs as (t' & Hs & ->). pose proof Hw as [Ht Hcp Hp].
  rewrite (allocproc_slot_eq _ Hf) in Hs. change (procs (pt (load c w))) with (ltab w) in Hs.
  destruct (find_index _ (ltab w)) as [np|] eqn:E; injection Hs as <- <-.
  - pose proof (find_index_lt _ _ _ E) as Hnp.
    apply find_index_Some in E as (x & Hx & Hu & _). apply list_lookup_total_correct in Hx.
    assert (st (ltab w) np = UNUSED) as Hun by (rewrite Hx; by apply bool_decide_eq_true_1 in Hu).
    unfold set_job, add_fork, store. cbn [pt kern cpus jobs conts forks].
    apply step_stay_ok; try done.
    + apply tinv_alloc; try done. rewrite Hrun. unfold alive; auto.
    + apply run_alter_other; [congruence | done].
    + by apply pinv_alloc.
  - by apply step_stay_ok.
Qed.

Lemma step_fork_ok (w : world) c p s' (j : job) :
  winv w -> (c < length (cpus w))%nat -> at_ (cpus w !!! c) = Run p false ->
  plock (pt s') = plock (pt (kern w)) -> Cli.ncli (me (pt s')) = 0 ->
  nextpid (pt s') = nextpid (pt (kern w)) ->
  tinv ptable_addr (procs (pt s')) (initproc (pt s')) (<[p := j]> (jobs w)) (conts w) ->
  (forall q, st (procs (pt s')) q = RUNNING <-> st (ltab w) q = RUNNING) ->
  (forall q, pid (procs (pt s') !!! q) = pid (ltab w !!! q)) ->
  winv (set_job p j (store c (Run p false) s' w)).
Proof.
  intros Hw Hc Hat Hl Hcl Hn Ht Hr Hpid. destruct s' as [t' k']. unfold set_job, store. cbn in *.
  apply step_stay_ok; try done. rewrite Hn. eapply pinv_same; [exact Hpid|]. apply Hw.
Qed.

Lemma load_open (w : world) c p :
  winv w -> at_ (cpus w !!! c) = Run p false -> Cli.ncli (me (pt (load c w))) = 0.
Proof. intros [_ Hc _] Hat. apply (c_open _ _ _ Hc). by rewrite Hat. Qed.

Lemma step_stack_ok (w : world) c p np r s' :
  winv w -> (c < length (cpus w))%nat -> at_ (cpus w !!! c) = Run p false -> jobs w !!! p = JStack np ->
  allocproc_stack trapret_addr forkret_addr np (load c w) = Ret r s' ->
  winv (set_job p (match r with Some _ => JCopy np | None => JRun end) (store c (Run p false) s' w)).
Proof.
  intros Hw Hc Hat Hj Hs. apply allocproc_stack_spec in Hs as (l1 & Hk & _ & Hpt).
  change (procs (pt (load c w))) with (ltab w) in Hk. pose proof Hw as [Ht _ _].
  assert (forking (jobs w !!! p) = Some np) as Hf by by rewrite Hj.
  pose proof (tinv_calm _ _ _ _ _ _ Ht (calm_keeps _ _ Hk)) as Ht1.
  destruct (t_job _ _ _ _ _ Ht1 _ _ Hf) as [_ He].
  apply step_fork_ok; try done; rewrite Hpt; try done.
  - by apply load_open with p.
  - destruct r; cbn; [by apply tinv_job_copy | apply tinv_abort; auto].
  - destruct r; cbn; [by apply run_keeps|]. intros q.
    rewrite run_alter_other; [by apply run_keeps | congruence | done].
  - destruct r; cbn; [by apply pid_keeps|]. intros q. rewrite pid_alter by done. by apply pid_keeps.
Qed.

Lemma step_copy_ok (w : world) c p np r s' :
  winv w -> (c < length (cpus w))%nat -> at_ (cpus w !!! c) = Run p false -> jobs w !!! p = JCopy np ->
  fork_copy p np (load c w) = Ret r s' ->
  winv (set_job p (if r then JPub np else JRun) (store c (Run p false) s' w)).
Proof.
  intros Hw Hc Hat Hj Hs. apply fork_copy_spec in Hs as (l1 & Hk & l2 & Hk2 & Hpt).
  change (procs (pt (load c w))) with (ltab w) in Hk. pose proof Hw as [Ht _ _].
  assert (forking (jobs w !!! p) = Some np) as Hf by by rewrite Hj.
  pose proof (tinv_calm _ _ _ _ _ _ Ht (calm_keeps _ _ Hk)) as Ht1.
  destruct (t_job _ _ _ _ _ Ht1 _ _ Hf) as [_ He].
  apply step_fork_ok; try done; rewrite Hpt; try done.
  - by apply load_open with p.
  - cbn. eapply tinv_calm; [|apply calm_keeps; exact Hk2].
    destruct r; [by apply tinv_parent | apply tinv_abort; auto].
  - cbn. intros q. rewrite (run_keeps _ _ Hk2). destruct r.
    + rewrite run_alter_same by done. by apply run_keeps.
    + rewrite run_alter_other; [by apply run_keeps | congruence | done].
  - cbn. intros q. rewrite (pid_keeps _ _ Hk2). rewrite pid_alter by (intros; by destruct r). by apply pid_keeps.
Qed.

Lemma step_publish_ok (w : world) c p np r s' :
  winv w -> (c < length (cpus w))%nat -> at_ (cpus w !!! c) = Run p false -> jobs w !!! p = JPub np ->
  tab (fork_publish np) (load c w) = Ret r s' ->
  winv (set_cont np RFork (set_job np JRun (set_job p JRun (store c (Run p false) s' w)))).
Proof.
  intros Hw Hc Hat Hj Hs. destruct (locking_free _ w c p Hw Hat (locking_publish np)) as [Hl Hf]; [eauto|].
  apply tab_Ret in Hs as (t' & Hs & ->). pose proof Hw as [Ht Hcp Hp].
  rewrite (fork_publish_eq _ _ Hf) in Hs. injection Hs as <- <-.
  destruct (t_job _ _ _ _ _ Ht p np) as [_ He]; [by rewrite Hj|].
  unfold set_cont, set_job, store. cbn [pt kern cpus jobs conts forks]. apply winv_move; try done.
  - by apply tinv_publish.
  - rewrite Hat. change (plock (unlocked _)) with false. rewrite Hl.
    apply (cmove_stay _ _ p false); [done | by eapply at_running|].
    apply run_alter_other; [congruence | done].
  - eapply pinv_same; [|exact Hp]. by apply pid_alter.
Qed.

Lemma step_leave_simple (w : world) c p (f : proc -> proc) k :
  winv w -> (c < length (cpus w))%nat -> at_ (cpus w !!! c) = Run p false ->
  plock (pt (kern w)) = false ->
  let t' := set_procs (alter f p (ltab w)) (locked (pt (load c w))) in
  tinv ptable_addr (procs t') (initproc t') (jobs w) (<[p := k]> (conts w)) ->
  (forall q, state (f q) <> RUNNING) -> (forall q, pid (f q) = pid q) ->
  winv (set_cont p k (store c (Scan (S p)) (mk_kst t' (ks (kern w))) w)).
Proof.
  intros Hw Hc Hat Hl t' Ht Hs Hpid. pose proof (at_running _ _ _ _ Hw Hat) as Hrun.
  assert (p < length (ltab w))%nat as Hlt by (apply alive_lt; unfold alive; auto).
  unfold set_cont, store. cbn [pt kern cpus jobs conts forks]. eapply step_leave_ok; auto; try done.
  - by apply run_alter_stop.
  - by apply pid_alter.
Qed.

Lemma step_enter_ok (w : world) c s' :
  winv w -> (c < length (cpus w))%nat -> at_ (cpus w !!! c) = Idle ->
  tab scheduler_enter (load c w) = Ret tt s' -> winv (store c (Scan 0) s' w).
Proof.
  intros Hw Hc Hat Hs. apply tab_Ret in Hs as (t' & Hs & ->). pose proof Hw as [Ht Hcp Hp].
  assert (Cli.ncli (me (pt (load c w))) = 0) as Hn by (apply (c_open _ _ _ Hcp); by rewrite Hat).
  unfold scheduler_enter, bind at 1, modify in Hs.
  destruct (plock (pt (kern w))) eqn:Hl; [by rewrite locking_acquire in Hs|].
  rewrite acquire_free in Hs by done. injection Hs as <-.
  unfold store. cbn [pt]. apply winv_move; try done. rewrite Hat, Hl. split; cbn; try done; [auto|].
  intros q. fold (ltab w). naive_solver.
Qed.

Lemma step_idle_ok (w : world) c ch s' :
  winv w -> (c < length (cpus w))%nat -> at_ (cpus w !!! c) = Idle ->
  tab (wakeup ch) (load c w) = Ret tt s' -> winv (store c Idle s' w).
Proof.
  intros Hw Hc Hat Hs. apply tab_Ret in Hs as (t' & Hs & ->). pose proof Hw as [Ht Hcp Hp].
  destruct (plock (pt (kern w))) eqn:Hl; [change (exec_call (KWakeup ch) (pt (load c w)) = Ret tt t') in Hs; by rewrite locking_call in Hs|].
  assert (free (pt (load c w))) as Hf by (apply load_free; [done | by rewrite Hat | done]).
  rewrite wakeup_eq in Hs by done. injection Hs as <-. unfold store. cbn [pt]. apply winv_move; try done.
  - eapply tinv_calm; [done | apply calm_wakeup].
  - rewrite Hat, Hl. split; cbn; [| done | done |].
    + by destruct Hf.
    + intros q. change (procs (pt (kern w))) with (ltab w). rewrite (run_wakeup ch (ltab w) q). naive_solver.
  - eapply pinv_same; [apply pid_wakeup | done].
Qed.

Lemma held_sched_return b t : held t -> held (set_me (Cli.mk_cpu (Cli.ncli (me t)) b (Cli.IF (me t))) t).
Proof. done. Qed.

Lemma alter_id (l : list proc) i : alter (fun p => p) i l = l.
Proof.
  apply list_eq. intros j. destruct (decide (i = j)) as [<-|Hj].
  - rewrite list_lookup_alter_eq. by destruct (l !! i).
  - by rewrite list_lookup_alter_ne.
Qed.

Lemma step_released_ok (w : world) c p m s' :
  winv w -> (c < length (cpus w))%nat -> at_ (cpus w !!! c) = Run p true ->
  (m = yield_return \/ exists b, m = (sched_return b ;; yield_return)) ->
  tab m (load c w) = Ret tt s' -> winv (store c (Run p false) s' w).
Proof.
  intros Hw Hc Hat Hm Hs. pose proof (load_held w c Hw ltac:(by rewrite Hat)) as Hh.
  apply tab_Ret in Hs as (t' & Hs & ->).
  assert (exists cl, t' = unlocked (set_me cl (pt (load c w)))) as (cl & ->).
  { destruct Hm as [->|(b & ->)].
    - unfold yield_return in Hs. rewrite release_held in Hs by done. injection Hs as <-. by eexists.
    - unfold yield_return, bind, sched_return, modify in Hs.
      rewrite release_held in Hs by done. injection Hs as <-. by eexists. }
  eapply step_resume_ok with (f := fun p => p); try done. cbn. by rewrite alter_id.
Qed.

Lemma sleep_return_eq b p t :
  held t -> exists t', (sched_return b ;; sleep_return p false ;; zoom me set_me Cli.popcli) t = Ret tt t' /\
    free t' /\ procs t' = alter (set_chan 0) p (procs t) /\ initproc t' = initproc t /\ nextpid t' = nextpid t.
Proof.
  intros (Hl & Hn & Hi). destruct t as [lk l np ip [n i e]]; cbn in *; subst.
  unfold sched_return, sleep_return, upd, when, release_pt, zoom, bind, modify, reads. cbn.
  destruct b; cbn; eexists; (split; [reflexivity|]); done.
Qed.

(** [wait] after a wakeup, and a first call of [wait], reach the loop. *)
Lemma wait_return_loop b p (s : kst K) :
  held (pt s) ->
  exists s0, (tab (sched_return b) ;; wait_return ptable_addr p) s = wait_loop ptable_addr p s0 /\
    held (pt s0) /\ initproc (pt s0) = initproc (pt s) /\ nextpid (pt s0) = nextpid (pt s) /\
    procs (pt s0) = alter (set_chan 0) p (procs (pt s)).
Proof.
  intros Hh. eexists. split; [|split].
  - unfold wait_return, sleep_return, when. cbn [negb].
    unfold bind at 1 2, tab at 1 2, zoom, sched_return, upd, bind, modify, ret. reflexivity.
  - done.
  - done.
Qed.

Lemma wait_first_loop p (s : kst K) :
  free (pt s) -> wait ptable_addr p s = wait_loop ptable_addr p (mk_kst (locked (pt s)) (ks s)).
Proof. intros Hf. unfold wait, bind, tab at 1, zoom. by rewrite acquire_free. Qed.

Lemma wait_free (w : world) c p :
  winv w -> at_ (cpus w !!! c) = Run p false -> wait ptable_addr p (load c w) <> Panic "acquire" ->
  plock (pt (kern w)) = false /\ free (pt (load c w)).
Proof.
  intros Hw Hat Hnp. assert (plock (pt (kern w)) = false) as Hl.
  { destruct (plock (pt (kern w))) eqn:E; [|done]. destruct Hnp.
    unfold wait, bind, tab, zoom. by rewrite locking_acquire. }
  split; [done|]. apply load_free; [done | by rewrite Hat | done].
Qed.

Lemma step_other_ok (w : world) c p s' :
  winv w -> (c < length (cpus w))%nat -> at_ (cpus w !!! c) = Run p false -> keeps (load c w) s' ->
  winv (store c (Run p false) s' w) /\
  (jobs w !!! p = JRun -> initproc (pt (kern w)) <> Some p ->
     winv (set_job p JExit (store c (Run p false) s' w))).
Proof.
  intros Hw Hc Hat Hk. pose proof (at_running _ _ _ _ Hw Hat) as Hrun. pose proof Hw as [Ht Hcp Hp].
  apply keeps_alt in Hk as (l' & Hpt & Hk). change (procs (pt (load c w))) with (ltab w) in Hk.
  pose proof (tinv_calm _ _ _ _ _ _ Ht (calm_keeps _ _ Hk)) as Ht1.
  destruct s' as [t' k']. cbn in Hpt. subst t'. unfold set_job, store. cbn [pt kern cpus jobs conts forks].
  pose proof (load_open w c p Hw Hat). split; intros; apply step_stay_ok; try done.
  1, 4: by apply run_keeps. 1, 3: by eapply pinv_keeps.
  apply tinv_job_exit; try done. apply (run_keeps _ _ Hk) in Hrun. right. right. exact Hrun.
Qed.

Lemma step_yields_ok (w : world) c p ch s' :
  winv w -> (c < length (cpus w))%nat -> at_ (cpus w !!! c) = Run p false ->
  tab (yield p) (load c w) = Sleep ch s' ->
  winv (set_cont p (RYield (saved s')) (store c (Scan (S p)) s' w)).
Proof.
  intros Hw Hc Hat Hs. pose proof (at_running _ _ _ _ Hw Hat) as Hrun. pose proof Hw as [Ht _ _].
  destruct (locking_free _ w c p Hw Hat (locking_yield p)) as [Hl Hf]; [eauto|].
  apply tab_Sleep in Hs as (t' & Hs & ->). rewrite (yield_eq _ _ Hf) in Hs. injection Hs as _ <-.
  assert (p < length (ltab w))%nat as Hlt by (apply alive_lt; unfold alive; auto).
  eapply step_leave_simple; try done. cbn. apply tinv_cont.
  - eapply tinv_calm; [exact Ht|]. apply calm_alter. cbn. fold (ltab w). rewrite Hrun. unfold alive.
    split_and!; naive_solver.
  - by rewrite length_alter.
  - rewrite alter_at by done. done.
Qed.

Lemma step_sleeps_ok (w : world) c p ch ch' s' :
  winv w -> (c < length (cpus w))%nat -> at_ (cpus w !!! c) = Run p false ->
  tab (zoom me set_me Cli.pushcli ;; sleep p ch false) (load c w) = Sleep ch' s' ->
  winv (set_cont p (RSleep (saved s')) (store c (Scan (S p)) s' w)).
Proof.
  intros Hw Hc Hat Hs. pose proof (at_running _ _ _ _ Hw Hat) as Hrun. pose proof Hw as [Ht _ _].
  destruct (locking_free _ w c p Hw Hat (locking_sleep p ch)) as [Hl Hf]; [eauto|].
  apply tab_Sleep in Hs as (t' & Hs & ->). rewrite (sleep_eq _ _ _ Hf) in Hs. injection Hs as _ <-.
  eapply step_leave_simple; try done. cbn. apply tinv_sleep; [done | | done].
  fold (ltab w). rewrite Hrun. unfold alive; auto.
Qed.

Lemma step_exits_ok (w : world) c p ch s' :
  winv w -> (c < length (cpus w))%nat -> at_ (cpus w !!! c) = Run p false -> jobs w !!! p = JExit ->
  tab (exit_tail ptable_addr p) (load c w) = Sleep ch s' ->
  winv (store c (Scan (S p)) s' w).
Proof.
  intros Hw Hc Hat Hj Hs. pose proof (at_running _ _ _ _ Hw Hat) as Hrun. pose proof Hw as [Ht _ _].
  destruct (locking_free _ w c p Hw Hat (locking_exit p)) as [Hl Hf]; [eauto|].
  apply tab_Sleep in Hs as (t' & Hs & ->). rewrite (exit_tail_eq _ _ _ Hf) in Hs. injection Hs as _ <-.
  assert (p < length (ltab w))%nat as Hlt by (apply alive_lt; unfold alive; auto).
  unfold store. cbn [pt]. eapply step_leave_ok; auto; try done.
  - by apply tinv_exit.
  - by apply run_exit.
  - destruct (exit_effect_spec ptable_addr p (initproc (pt (load c w))) (ltab w) Hlt ltac:(congruence))
      as (_ & _ & Hpid & _). exact Hpid.
Qed.

Lemma winv_step (w w' : world) :
  winv w -> step ptable_addr trapret_addr forkret_addr w w' -> winv w'.
Proof.
  intros Hw Hst. destruct Hst as
    [ w c s' Hc Hat Hs | w c k r s' Hc Hat Hs | w c p s' Hc Hat Hk Hs | w c p b s' Hc Hat Hk Hs
    | w c p b s' Hc Hat Hk Hs | w c p b r s' Hc Hat Hk Hs | w c p b ch s' Hc Hat Hk Hs
    | w c p i e Hc Hat | w c p s' Hc Hat Hs | w c p k s' Hc Hat Hs | w c p ch s' Hc Hat Hs
    | w c p ch ch' s' Hc Hat Hj Hs | w c p r s' Hc Hat Hj Hs | w c p ch s' Hc Hat Hj Hs
    | w c p s' Hc Hat Hj Hs | w c p ch s' Hc Hat Hj Hs | w c p r s' Hc Hat Hj Hs
    | w c p np r s' Hc Hat Hj Hs | w c p np r s' Hc Hat Hj Hs | w c p np r s' Hc Hat Hj Hs | w c ch s' Hc Hat Hs ].
  - by apply step_enter_ok.
  - by apply step_scan_ok with k.
  - eapply (step_released_ok w c p yield_return); [done | done | done | by left | exact Hs].
  - eapply (step_released_ok w c p (sched_return b ;; yield_return)); [done | done | done | right; by exists b | exact Hs].
  - pose proof (load_held w c Hw ltac:(by rewrite Hat)) as Hh. apply tab_Ret in Hs as (t' & Hs & ->).
    destruct (sleep_return_eq b p _ Hh) as (t1 & Hs1 & Hf & Hpr & Hi & Hn). rewrite Hs1 in Hs.
    injection Hs as <-. by eapply step_resume_ok.
  - pose proof (load_held w c Hw ltac:(by rewrite Hat)) as Hh.
    destruct (wait_return_loop b p _ Hh) as (s0 & Heq & Hh0 & Hi & Hn & Hpr). rewrite Heq in Hs.
    eapply step_waited_ok; eauto.
  - pose proof (load_held w c Hw ltac:(by rewrite Hat)) as Hh.
    destruct (wait_return_loop b p _ Hh) as (s0 & Heq & Hh0 & Hi & Hn & Hpr). rewrite Heq in Hs.
    eapply step_wait_sleep_ok; eauto.
  - pose proof Hw as [Ht _ Hp]. by apply step_stay_ok.
  - by apply step_other_ok.
  - by apply step_call_ok with k.
  - by eapply step_yields_ok.
  - by eapply step_sleeps_ok.
  - destruct (wait_free w c p Hw Hat) as [Hl Hf]; [by rewrite Hs|]. rewrite wait_first_loop in Hs by done.
    eapply step_waited_ok; [done | done | exact Hat | by right | .. | exact Hs]; try done. by left.
  - destruct (wait_free w c p Hw Hat) as [Hl Hf]; [by rewrite Hs|]. rewrite wait_first_loop in Hs by done.
    eapply step_wait_sleep_ok; [done | done | exact Hat | by right | .. | exact Hs]; try done. by left.
  - apply exit_files_spec in Hs as [Hk Hi]. by apply step_other_ok.
  - by eapply step_exits_ok.
  - by apply step_alloc_ok.
  - by apply step_stack_ok.
  - by apply step_copy_ok.
  - by eapply step_publish_ok.
  - by apply step_idle_ok with ch.
Qed.

(** ** Boot *)

Definition zeroed (c0 : bool) : ptab :=
  mk_ptab false (replicate NPROC zero_proc) 1 None (Cli.mk_cpu 0 false c0).

(** After [userinit] slot 0 holds the first process, and the rest is empty. *)
Definition first_view (i : nat) : procstate * Z * option nat * Z :=
  if decide (i = O) then (RUNNABLE, 1, None, 0) else (UNUSED, 0, None, 0).

Lemma lookup_replicate_default {A} `{Inhabited A} n i : replicate n inhabitant !!! i = (inhabitant : A).
Proof.
  destruct (decide (i < n)%nat); [by apply lookup_total_replicate_2|].
  apply lookup_total_ge. rewrite length_replicate. lia.
Qed.

(** Runs the next part of [H], which keeps the views of the slots. *)
Ltac peel H Hk :=
  let a := fresh "a" in let s := fresh "s" in let H1 := fresh "H" in
  apply bind_Ret in H as (a & s & H1 & H);
  match type of H1 with ?m _ = _ => assert (pres m) as Hx by eauto with pres nocore; apply Hx in H1; clear Hx end;
  apply (keeps_trans _ _ _ Hk) in H1; clear Hk; rename H1 into Hk.

Lemma userinit_spec c0 k0 (s' : kst K) :
  userinit trapret_addr forkret_addr (mk_kst (zeroed c0) k0) = Ret tt s' ->
  free (pt s') /\ initproc (pt s') = Some O /\ nextpid (pt s') = 2 /\
  length (procs (pt s')) = NPROC /\ forall i, view (procs (pt s') !!! i) = first_view i.
Proof.
  unfold userinit. intros (r & s1 & Ha & H1)%bind_Ret.
  set (l0 := alter (born 1) O (replicate NPROC zero_proc)).
  assert (exists l1, lkeeps l0 l1 /\ (r = Some O \/ r = None) /\
    (r <> None -> free (pt s1) /\ nextpid (pt s1) = 2 /\ procs (pt s1) = l1)) as (l1 & Hk1 & Hr & Hp1).
  { unfold allocproc in Ha. apply bind_Ret in Ha as (i & s0 & Hs0 & Ha).
    apply tab_Ret in Hs0 as (t0 & Hs0 & ->). rewrite allocproc_slot_eq in Hs0 by done.
    change (find_index (is_state UNUSED) (procs (pt (mk_kst (zeroed c0) k0)))) with (Some O) in Hs0.
    injection Hs0 as <- <-. apply allocproc_stack_spec in Ha as (l1 & Hk & Hr & Hpt).
    exists l1. split; [exact Hk|]. split; [exact Hr|].
    rewrite Hpt. destruct r; [done|]. by intros []. }
  apply bind_Ret in H1 as ([] & s2 & H2 & H3). apply tab_Ret in H2 as (t2 & [= <-] & ->).
  destruct Hr as [->| ->]; [|done]. destruct (Hp1 ltac:(done)) as (Hf & Hn & Hl).
  apply bind_Ret in H3 as (pd & s3 & H4%pres_sys & H3). destruct (pd =? 0); [done|].
  rename H4 into Hk. unfold getp in H3. do 14 peel H3 Hk.
  apply keeps_alt in Hk as (l2 & Hpt & Hk2). match type of Hpt with pt ?s = _ => rename s into sx end.
  apply bind_Ret in H3 as ([] & sa & H4 & H3). apply tab_Ret in H4 as (t4 & H4 & ->).
  rewrite acquire_free in H4 by by rewrite Hpt. injection H4 as <-.
  apply bind_Ret in H3 as ([] & sb & H5 & H3). apply tab_Ret in H5 as (t5 & [= <-] & ->).
  apply tab_Ret in H3 as (t6 & H3 & ->). cbn [pt] in H3. rewrite release_held in H3 by done.
  injection H3 as <-. cbn. rewrite Hpt. cbn. cbn in Hk2. rewrite Hl in Hk2.
  destruct (lkeeps_trans _ _ _ Hk1 Hk2) as [Hlen Hv].
  split_and!; try done; [by rewrite length_alter, Hlen|].
  intros i. unfold first_view. destruct (decide (i = O)) as [->|Hi].
  - assert (length l0 = NPROC) as Hl0 by (unfold l0; by rewrite length_alter, length_replicate).
    rewrite alter_at by (rewrite Hlen, Hl0; unfold NPROC; lia).
    specialize (Hv O). unfold view in *. cbn. by injection Hv as _ -> -> ->.
  - rewrite alter_ne by done. rewrite Hv. unfold l0. rewrite alter_ne by done.
    change zero_proc with (inhabitant : proc). by rewrite lookup_replicate_default.
Qed.

Lemma boot_inv (w : world) : boot trapret_addr forkret_addr w -> winv w.
Proof.
  intros (k0 & c0 & Hu & Hcpus & Hj & Hk & Hfk).
  destruct (userinit_spec c0 k0 (kern w) Hu) as ([Hl _] & Hi & Hn & Hlen & Hv).
  fold (ltab w) in Hlen, Hv.
  assert (forall i, st (ltab w) i = (if decide (i = O) then RUNNABLE else UNUSED) /\
    pid (ltab w !!! i) = (if decide (i = O) then 1 else 0) /\ par (ltab w) i = None) as Hf.
  { intros i. specialize (Hv i). unfold first_view, view in Hv. case_decide; by injection Hv as -> -> -> _. }
  assert (forall i, jobs w !!! i = JRun) as Hjobs by (intros i; rewrite Hj; change JRun with (inhabitant : job); apply lookup_replicate_default).
  assert (forall i, conts w !!! i = RFork) as Hconts by (intros i; rewrite Hk; change RFork with (inhabitant : cont); apply lookup_replicate_default).
  assert (forall c, at_ (cpus w !!! c) = Idle /\ Cli.ncli (cli (cpus w !!! c)) = 0) as Hc.
  { intros c. destruct (decide (c < length (cpus w))%nat) as [Hlt|Hge]; [|by rewrite lookup_total_ge by lia].
    rewrite Forall_forall in Hcpus. apply Hcpus. apply list_elem_of_lookup_total. eauto. }
  split; split; try (intros *; rewrite ?Hjobs, ?Hconts; done).
  - by rewrite Hj, Hlen, length_replicate.
  - by rewrite Hk, Hlen, length_replicate.
  - exists O. rewrite Hi. destruct (Hf O) as (-> & _ & ->). cbn. unfold alive. auto.
  - intros i. by destruct (Hf i) as (_ & _ & ->).
  - intros i _. apply Hf.
  - intros np. destruct (Hf np) as (-> & _ & _). by case_decide.
  - intros p np. rewrite Hjobs. naive_solver.
  - intros i. rewrite Hi. destruct (Hf i) as (-> & _ & _). case_decide; [by subst|]. unfold alive. naive_solver.
  - intros c p. destruct (Hc c) as [-> _]. done.
  - intros p. destruct (Hf p) as (-> & _ & _). by case_decide.
  - intros c c' p. destruct (Hc c) as [-> _]. done.
  - intros c. destruct (Hc c) as [-> _]. done.
  - congruence.
  - intros c c'. destruct (Hc c) as [-> _]. done.
  - intros c _. apply Hc.
  - lia.
  - rewrite Hn, Hfk. done.
  - intros _ i. destruct (Hf i) as (_ & -> & _). case_decide; lia.
  - intros _ i j. destruct (Hf i) as (_ & -> & _), (Hf j) as (_ & -> & _). repeat case_decide; lia.
Qed.

Lemma reachable_inv (w0 w : world) :
  boot trapret_addr forkret_addr w0 -> star (step ptable_addr trapret_addr forkret_addr) w0 w -> winv w.
Proof.
  intros Hb. apply star_inv; [|by apply boot_inv]. intros a b Ha Hs. by eapply winv_step.
Qed.

(** C18: on any number of CPUs, in every reachable state: a process runs on at
    most one CPU and is then marked running; a process marked running is on a
    CPU; the table lock is held by at most one CPU, which has interrupts off
    and holds no other lock. *)
Theorem one_cpu_per_process (w0 w : world) :
  boot trapret_addr forkret_addr w0 -> star (step ptable_addr trapret_addr forkret_addr) w0 w ->
  (forall c c' p, runs (at_ (cpus w !!! c)) = Some p -> runs (at_ (cpus w !!! c')) = Some p -> c = c') /\
  (forall p, st (ltab w) p = RUNNING <-> exists c, runs (at_ (cpus w !!! c)) = Some p) /\
  (forall c c', holder (at_ (cpus w !!! c)) = true -> holder (at_ (cpus w !!! c')) = true -> c = c') /\
  (forall c, holder (at_ (cpus w !!! c)) = true ->
     Cli.ncli (cli (cpus w !!! c)) = 1 /\ Cli.IF (cli (cpus w !!! c)) = false).
Proof.
  intros Hb Hs. destruct (reachable_inv w0 w Hb Hs) as [_ [I1 I2 I3 I4 I5 I6 I7] _].
  split_and!; auto.
  - intros p. split; [apply I2 | intros [c Hc]; by eapply I1].
  - intros c Hc. by destruct (I4 c Hc).
Qed.

(** As long as fewer than 2^31 - 1 processes were ever created, no two
    slots hold the same process id (0 marks a slot that was reaped or never
    used). *)
Theorem pids_unique (w0 w : world) i j :
  boot trapret_addr forkret_addr w0 -> star (step ptable_addr trapret_addr forkret_addr) w0 w ->
  forks w < 2 ^ 31 - 1 ->
  pid (ltab w !!! i) = pid (ltab w !!! j) -> pid (ltab w !!! i) <> 0 -> i = j.
Proof.
  intros Hb Hs Hf. destruct (reachable_inv w0 w Hb Hs) as [_ _ [_ _ _ I]]. by apply I.
Qed.

(** C6: no wakeup of [wait] is lost: in every reachable state, a process that
    sleeps in [wait] sleeps on its own address and none of its children has
    exited (one that exits makes it runnable in the same critical section). *)
Theorem no_lost_wakeup (w0 w : world) p b i :
  boot trapret_addr forkret_addr w0 -> star (step ptable_addr trapret_addr forkret_addr) w0 w ->
  st (ltab w) p = SLEEPING -> conts w !!! p = RWait b -> par (ltab w) i = Some p ->
  chan (ltab w !!! p) = proc_addr ptable_addr (Some p) /\ st (ltab w) i <> ZOMBIE.
Proof.
  intros Hb Hs Hsl Hk Hp. destruct (reachable_inv w0 w Hb Hs) as [I _ _].
  destruct (t_wait _ _ _ _ _ I p b Hsl Hk). auto.
Qed.

(** C32: there is always a living first process, and every other process, also
    one that has exited, has a parent that is alive: when a process exits, its
    children pass to the first one, so that every exited process can be
    waited for. *)
Theorem living_parent (w0 w : world) i :
  boot trapret_addr forkret_addr w0 -> star (step ptable_addr trapret_addr forkret_addr) w0 w ->
  (exists i0, initproc (pt (kern w)) = Some i0 /\ alive (st (ltab w) i0)) /\
  (alive (st (ltab w) i) \/ st (ltab w) i = ZOMBIE -> initproc (pt (kern w)) <> Some i ->
     exists q, par (ltab w) i = Some q /\ alive (st (ltab w) q)).
Proof.
  intros Hb Hs. destruct (reachable_inv w0 w Hb Hs) as [I _ _]. split; [|apply I].
  destruct (t_init _ _ _ _ _ I) as (i0 & ? & ? & _). eauto.
Qed.

(** C33: the checks of [sched] never fire: in every reachable state with the
    table lock free, a running process that yields, sleeps on a channel
    holding one other lock, or exits reaches its switch to the scheduler. *)
Theorem sched_never_panics (w0 w : world) c p ch :
  boot trapret_addr forkret_addr w0 -> star (step ptable_addr trapret_addr forkret_addr) w0 w ->
  at_ (cpus w !!! c) = Run p false -> plock (pt (kern w)) = false ->
  (exists s', tab (yield p) (load c w) = Sleep 0 s') /\
  (exists s', tab (zoom me set_me Cli.pushcli ;; sleep p ch false) (load c w) = Sleep ch s') /\
  (exists s', tab (exit_tail ptable_addr p) (load c w) = Sleep 0 s').
Proof.
  intros Hb Hs Hat Hl. pose proof (load_free w c (reachable_inv w0 w Hb Hs) ltac:(by rewrite Hat) Hl) as Hf.
  split_and!; eexists; apply tab_Sleep; eexists; (split; [|reflexivity]).
  - by apply yield_eq.
  - by apply sleep_eq.
  - by apply exit_tail_eq.
Qed.
End safety.

(** ** A run: the first process forks, waits, and its child runs *)

(** Services that always succeed, on a state without content. *)
#[local] Instance idle_services : Services unit := {
  kalloc := ret 0x80400000;
  kfree _ := ret tt;
  store16 _ _ := ret tt;
  store32 _ _ := ret tt;
  kmemset _ _ _ := ret tt;
  kmemcpy _ _ _ := ret tt;
  setupkvm := ret 0x80401000;
  inituvm _ := ret tt;
  switchuvm _ := ret tt;
  allocuvm _ _ n := ret n;
  deallocuvm _ _ n := ret n;
  copyuvm _ _ := ret 0x80402000;
  freevm _ := ret tt;
  filedup f := ret f;
  fileclose _ := ret tt;
  idup i := ret i;
  iput _ := ret tt;
  namei_root := ret 0x80110000;
  begin_op := ret tt;
  end_op := ret tt;
  kfree_awake _ _ _ _ := ltac:(discriminate);
  freevm_awake _ _ _ _ := ltac:(discriminate);
}.

Definition demo_addr : Z := 0x80112d00.
Abbreviation demo_world := (world (K := unit)).
Abbreviation demo_step := (step (K := unit) demo_addr 1 2).

Definition demo_boot : demo_world :=
  mk_world
    (match userinit 1 2 (mk_kst (zeroed true) tt) with Ret _ s => s | _ => mk_kst (zeroed true) tt end)
    [mk_cpuctl Idle (Cli.mk_cpu 0 false false); mk_cpuctl Idle (Cli.mk_cpu 0 false false)]
    (replicate NPROC JRun) (replicate NPROC RFork) 1.

Lemma demo_boot_ok : boot 1 2 demo_boot.
Proof.
  exists tt, true. split; [vm_compute; reflexivity|]. split; [|done].
  repeat constructor.
Qed.

(** The state and the value an operation of CPU 0 ends with. *)
Definition ended {A} (o : outcome (kst unit) A) : kst unit :=
  match o with Ret _ s | Sleep _ s => s | _ => mk_kst (zeroed true) tt end.

Definition d1 : demo_world := store 0 (Scan 0) (ended (tab scheduler_enter (load 0 demo_boot))) demo_boot.
Definition d2 : demo_world := store 0 (Run 0 true) (ended (tab (scheduler 0) (load 0 d1))) d1.
Definition d3 : demo_world := store 0 (Run 0 false) (ended (tab yield_return (load 0 d2))) d2.
Definition d4 : demo_world :=
  set_job 0 (JStack 1) (add_fork (store 0 (Run 0 false) (ended (tab allocproc_slot (load 0 d3))) d3)).
Definition d5 : demo_world :=
  set_job 0 (JCopy 1) (store 0 (Run 0 false) (ended (allocproc_stack 1 2 1 (load 0 d4))) d4).
Definition d6 : demo_world :=
  set_job 0 (JPub 1) (store 0 (Run 0 false) (ended (fork_copy 0 1 (load 0 d5))) d5).
Definition d7 : demo_world :=
  set_cont 1 RFork (set_job 1 JRun (set_job 0 JRun
    (store 0 (Run 0 false) (ended (tab (fork_publish 1) (load 0 d6))) d6))).
Definition d8 : demo_world :=
  let s := ended (wait demo_addr 0 (load 0 d7)) in
  set_cont 0 (RWait (saved s)) (store 0 (Scan 1) s d7).
Definition d9 : demo_world := store 0 (Run 1 true) (ended (tab (scheduler 1) (load 0 d8))) d8.
Definition d10 : demo_world := store 0 (Run 1 false) (ended (tab yield_return (load 0 d9))) d9.

Ltac demo := first [vm_compute; reflexivity | vm_compute; repeat constructor].

Lemma demo_s1 : demo_step demo_boot d1.
Proof. unfold d1. apply step_enter; demo. Qed.
Lemma demo_s2 : demo_step d1 d2.
Proof. unfold d2. apply (step_scan _ _ _ d1 0 0 (Some O)); demo. Qed.
Lemma demo_s3 : demo_step d2 d3.
Proof. unfold d3. apply step_forkret; demo. Qed.
Lemma demo_s4 : demo_step d3 d4.
Proof. unfold d4. apply (step_alloc _ _ _ d3 0 0 (Some 1%nat)); demo. Qed.
Lemma demo_s5 : demo_step d4 d5.
Proof. unfold d5. apply (step_stack _ _ _ d4 0 0 1 (Some 1%nat)); demo. Qed.
Lemma demo_s6 : demo_step d5 d6.
Proof. unfold d6. apply (step_copy _ _ _ d5 0 0 1 true); demo. Qed.
Lemma demo_s7 : demo_step d6 d7.
Proof. unfold d7. apply (step_publish _ _ _ d6 0 0 1 2); demo. Qed.
Lemma demo_s8 : demo_step d7 d8.
Proof. unfold d8. apply (step_wait_sleep _ _ _ d7 0 0 (proc_addr demo_addr (Some O))); demo. Qed.
Lemma demo_s9 : demo_step d8 d9.
Proof. unfold d9. apply (step_scan _ _ _ d8 0 1 (Some 1%nat)); demo. Qed.
Lemma demo_s10 : demo_step d9 d10.
Proof. unfold d10. apply step_forkret; demo. Qed.

Lemma demo_reach10 : star demo_step demo_boot d10.
Proof.
  exact
    (star_snoc _ _ _ _ (star_snoc _ _ _ _ (star_snoc _ _ _ _ (star_snoc _ _ _ _ (star_snoc _ _ _ _ (star_snoc _ _ _ _ (star_snoc _ _ _ _ (star_snoc _ _ _ _ (star_snoc _ _ _ _ (star_snoc _ _ _ _ (star_refl _ _) demo_s1) demo_s2) demo_s3) demo_s4) demo_s5) demo_s6) demo_s7) demo_s8) demo_s9) demo_s10).
Qed.

Lemma one_cpu_per_process_witness :
  st (ltab d10) 1%nat = RUNNING /\ exists c, runs (at_ (cpus d10 !!! c)) = Some 1%nat.
Proof.
  destruct (one_cpu_per_process demo_addr 1 2 demo_boot d10 demo_boot_ok demo_reach10) as (_ & H & _ & _).
  assert (st (ltab d10) 1%nat = RUNNING) as Hr by (vm_compute; reflexivity).
  split; [exact Hr | apply (H 1%nat); exact Hr].
Defined.

Lemma pids_unique_witness : forks d10 < 2 ^ 31 - 1 /\ pid (ltab d10 !!! 0%nat) <> pid (ltab d10 !!! 1%nat).
Proof.
  assert (forks d10 < 2 ^ 31 - 1) as Hf by (vm_compute; reflexivity).
  split; [exact Hf|]. intros E.
  discriminate (pids_unique demo_addr 1 2 demo_boot d10 0 1 demo_boot_ok demo_reach10 Hf E
    ltac:(vm_compute; discriminate)).
Defined.

Lemma no_lost_wakeup_witness :
  chan (ltab d10 !!! 0%nat) = proc_addr demo_addr (Some O) /\ st (ltab d10) 1%nat <> ZOMBIE.
Proof.
  apply (no_lost_wakeup demo_addr 1 2 demo_boot d10 0 true 1 demo_boot_ok demo_reach10);
    vm_compute; reflexivity.
Defined.

Lemma living_parent_witness : exists q, par (ltab d10) 1%nat = Some q /\ alive (st (ltab d10) q).
Proof.
  destruct (living_parent demo_addr 1 2 demo_boot d10 1 demo_boot_ok demo_reach10) as [_ H].
  apply H; [left; right; right; vm_compute; reflexivity | vm_compute; discriminate].
Defined.

Lemma sched_never_panics_witness : exists s', tab (yield 1) (load 0 d10) = Sleep 0 s'.
Proof.
  destruct (sched_never_panics demo_addr 1 2 demo_boot d10 0 1 77 demo_boot_ok demo_reach10) as [H _].
  - reflexivity.
  - vm_compute. reflexivity.
  - exact H.
Defined.
