(* ===== verification/Sleeplock.v ===== *)
(** * Sleep locks (sleeplock.c)

    [acquiresleep] is one pass of its loop: it takes the lock, or goes to
    sleep on the lock's address ([Sleep]) with the inner spin lock released;
    a process that wakes up runs it again, which is what the loop does after
    [sleep] returns with the spin lock taken.  [releasesleep] calls [wakeup]
    while it holds the spin lock; its result is the channel of that call. *)

From S2P Require Import Prelude.

Record sleeplock := mk_sleeplock {
  lk : bool;       (* the spin lock protecting this sleep lock *)
  locked : bool;
  spid : Z;        (* process holding the lock *)
}.
#[export] Instance sleeplock_inhabited : Inhabited sleeplock := populate (mk_sleeplock false false 0).

Definition initsleeplock : sleeplock := mk_sleeplock false false 0.

Definition spin_acquire : M sleeplock unit := fun l =>
  if lk l then Panic "acquire" else Ret tt (mk_sleeplock true (locked l) (spid l)).
Definition spin_release : M sleeplock unit := fun l =>
  if lk l then Ret tt (mk_sleeplock false (locked l) (spid l)) else Panic "release".

(** [sleep(lk, &lk->lk)] releases the spin lock. *)
Definition go_to_sleep (addr : Z) : M sleeplock unit := fun l =>
  Sleep addr (mk_sleeplock false (locked l) (spid l)).

Definition acquiresleep (addr pid : Z) : M sleeplock unit :=
  spin_acquire ;;
  let! l := get in
  if locked l then go_to_sleep addr
  else
    modify (fun l => mk_sleeplock (lk l) true pid) ;;
    spin_release.

(** Returns the channel that is woken up. *)
Definition releasesleep (addr : Z) : M sleeplock Z :=
  spin_acquire ;;
  modify (fun l => mk_sleeplock (lk l) false 0) ;;
  spin_release ;;
  ret addr.

Definition holdingsleep (pid : Z) : M sleeplock bool :=
  spin_acquire ;;
  let! r := reads (fun l => locked l && (spid l =? pid)) in
  spin_release ;;
  ret r.

(** ** The lock used by many processes

    Process [i] is outside, holds the lock, sleeps on the channel its
    [acquiresleep] has named, or has been woken and is ready to try again.  A
    wakeup makes ready those that sleep on its channel. *)

Inductive where_ := Outside | Ready | Holding | Asleep (ch : Z).

Record world := mk_world { sl : sleeplock; ps : list where_ }.

Definition wake (a : Z) (l : list where_) : list where_ :=
  (fun x => match x with Asleep ch => if ch =? a then Ready else x | x => x end) <$> l.

Inductive step (addr : Z) : world -> world -> Prop :=
| step_take w i l' : ps w !! i = Some Outside \/ ps w !! i = Some Ready ->
    acquiresleep addr (Z.of_nat i) (sl w) = Ret tt l' -> step addr w (mk_world l' (<[i := Holding]> (ps w)))
| step_block w i ch l' : ps w !! i = Some Outside \/ ps w !! i = Some Ready ->
    acquiresleep addr (Z.of_nat i) (sl w) = Sleep ch l' -> step addr w (mk_world l' (<[i := Asleep ch]> (ps w)))
| step_drop w i a l' : ps w !! i = Some Holding ->
    releasesleep addr (sl w) = Ret a l' -> step addr w (mk_world l' (wake a (<[i := Outside]> (ps w)))).

Definition inv (addr : Z) (w : world) : Prop :=
  lk (sl w) = false /\
  (forall i j, ps w !! i = Some Holding -> ps w !! j = Some Holding -> i = j) /\
  (forall i, ps w !! i = Some Holding -> locked (sl w) = true /\ spid (sl w) = Z.of_nat i) /\
  (locked (sl w) = true -> exists i, ps w !! i = Some Holding) /\
  (forall i ch, ps w !! i = Some (Asleep ch) -> locked (sl w) = true /\ ch = addr).

Lemma acquiresleep_eq addr pid l :
  lk l = false ->
  acquiresleep addr pid l =
    if locked l then Sleep addr l else Ret tt (mk_sleeplock false true pid).
Proof. destruct l as [k b q]; cbn. intros ->. by destruct b. Qed.

Lemma releasesleep_eq addr l :
  lk l = false -> releasesleep addr l = Ret addr (mk_sleeplock false false 0).
Proof. destruct l as [k b q]; cbn. by intros ->. Qed.

Lemma holdingsleep_eq pid l :
  lk l = false -> holdingsleep pid l = Ret (locked l && (spid l =? pid)) l.
Proof. destruct l as [k b q]; cbn. by intros ->. Qed.

Lemma sl_wake_lookup a l i x :
  wake a l !! i = Some x ->
  l !! i = Some x /\ x <> Asleep a \/ l !! i = Some (Asleep a) /\ x = Ready.
Proof.
  unfold wake. rewrite list_lookup_fmap. destruct (l !! i) as [y|]; [|done]. cbn.
  intros [= <-]. destruct y as [| | |ch]; auto. destruct (Z.eqb_spec ch a) as [->|Hne]; [auto | left; split; [done | congruence]].
Qed.

Lemma insert_lookup_cases {A} (l : list A) i j x y :
  <[i := x]> l !! j = Some y -> i = j /\ x = y \/ i <> j /\ l !! j = Some y.
Proof.
  intros H. destruct (decide (i = j)) as [<-|Hj].
  - left. split; [done|]. pose proof (lookup_lt_Some _ _ _ H) as Hlt. rewrite length_insert in Hlt.
    rewrite list_lookup_insert_eq in H by done. congruence.
  - right. by rewrite list_lookup_insert_ne in H.
Qed.

Lemma step_keeps_inv addr w w' : inv addr w -> step addr w w' -> inv addr w'.
Proof.
  intros (I1 & I2 & I3 & I4 & I5) Hst.
  destruct Hst as [w i l' Hi Ha | w i ch l' Hi Ha | w i a l' Hi Ha].
  - rewrite acquiresleep_eq in Ha by done. destruct (locked (sl w)) eqn:E; [done|]. injection Ha as <-.
    assert (forall j, ps w !! j <> Some Holding) as Hno.
    { intros j Hj. destruct (I3 j Hj). congruence. }
    assert (i < length (ps w))%nat as Hlt by (destruct Hi as [Hi|Hi]; by apply lookup_lt_Some in Hi).
    unfold inv; cbn. split_and!; try done.
    + intros j k [[<- _]|[_ Hj]]%insert_lookup_cases [[<- _]|[_ Hk]]%insert_lookup_cases;
        [done | by destruct (Hno k) | by destruct (Hno j) | by destruct (Hno j)].
    + intros j [[<- _]|[_ Hj]]%insert_lookup_cases; [done | by destruct (Hno j)].
    + intros _. exists i. by apply list_lookup_insert_eq.
    + intros j ch [[_ ?]|[_ Hj]]%insert_lookup_cases; [done|]. by destruct (I5 j ch Hj).
  - rewrite acquiresleep_eq in Ha by done. destruct (locked (sl w)) eqn:E; [|done]. injection Ha as <- <-.
    assert (i < length (ps w))%nat as Hlt by (destruct Hi as [Hi|Hi]; by apply lookup_lt_Some in Hi).
    unfold inv; cbn. split_and!; try done.
    + intros j k [[_ ?]|[_ Hj]]%insert_lookup_cases [[_ ?]|[_ Hk]]%insert_lookup_cases; try done. by apply I2.
    + intros j [[_ ?]|[_ Hj]]%insert_lookup_cases; [done|]. rewrite E. by apply I3.
    + intros _. destruct I4 as (j & Hj); [done|]. exists j. rewrite list_lookup_insert_ne; [done|].
      intros ->. destruct Hi; congruence.
    + intros j ch [[_ [= <-]]|[_ Hj]]%insert_lookup_cases; [done|]. by destruct (I5 j ch Hj).
  - rewrite releasesleep_eq in Ha by done. injection Ha as <- <-.
    assert (forall j, ps w !! j = Some Holding -> j = i) as Hone by (intros; by apply I2).
    assert (forall j, wake addr (<[i := Outside]> (ps w)) !! j <> Some Holding) as Hno.
    { intros j [[[[_ ?]|[Hij Hj]]%insert_lookup_cases _]|[_ ?]]%sl_wake_lookup; try done.
      destruct Hij. symmetry. by apply Hone. }
    unfold inv; cbn. split_and!; try done.
    + intros j k Hj. by destruct (Hno j).
    + intros j Hj. by destruct (Hno j).
    + intros j ch [[[[_ ?]|[_ Hj]]%insert_lookup_cases Hne]|[_ ?]]%sl_wake_lookup; try done. destruct (I5 j ch Hj) as [_ ->]. done.
Qed.

(** C26: a sleep lock gives mutual exclusion, records its holder, and loses no
    wakeup: in every state that processes reach by taking and releasing it, at
    most one holds it, the lock names that one, and a process sleeps on it only
    while another one holds it, whose [releasesleep] wakes the channel that
    the process sleeps on. *)
Theorem sleeplock_safe addr n w :
  star (step addr) (mk_world initsleeplock (replicate n Outside)) w ->
  (forall i j, ps w !! i = Some Holding -> ps w !! j = Some Holding -> i = j) /\
  (forall i, ps w !! i = Some Holding -> spid (sl w) = Z.of_nat i) /\
  (forall i ch, ps w !! i = Some (Asleep ch) -> exists j, ps w !! j = Some Holding /\
     exists a l', releasesleep addr (sl w) = Ret a l' /\ wake a (ps w) !! i = Some Ready).
Proof.
  intros Hs. assert (inv addr w) as (I1 & I2 & I3 & I4 & I5).
  { eapply star_inv; [| |exact Hs]; [intros; by eapply step_keeps_inv|].
    unfold inv; cbn. split_and!; try done.
    - intros i j ?%lookup_replicate_1. naive_solver.
    - intros i ?%lookup_replicate_1. naive_solver.
    - intros i ch ?%lookup_replicate_1. naive_solver. }
  split; [done|]. split; [apply I3|]. intros i ch Hi. destruct (I5 i ch Hi) as [Hl ->]. destruct (I4 Hl) as [j Hj]. exists j. split; [done|].
  exists addr, (mk_sleeplock false false 0). split; [by apply releasesleep_eq|]. unfold wake. rewrite list_lookup_fmap, Hi. cbn. by rewrite Z.eqb_refl.
Qed.

Lemma sleeplock_safe_witness :
  let w := mk_world (mk_sleeplock false true 0) [Holding; Asleep 64] in
  exists j, ps w !! j = Some Holding /\ exists a l', releasesleep 64 (sl w) = Ret a l' /\ wake a (ps w) !! 1%nat = Some Ready.
Proof.
  intros w.
  destruct (sleeplock_safe 64 2 w) as (_ & _ & H).
  - pose (l1 := mk_sleeplock false true 0).
    apply (star_snoc _ _ (mk_world l1 [Holding; Outside])).
    + exact (star_snoc _ _ _ _ (star_refl _ _)
        (step_take 64 (mk_world initsleeplock [Outside; Outside]) 0 l1 (or_introl eq_refl) eq_refl)).
    + exact (step_block 64 (mk_world l1 [Holding; Outside]) 1 64 l1 (or_introl eq_refl) eq_refl).
  - apply (H 1%nat 64). reflexivity.
Defined.
