(* ===== verification/Bio.v ===== *)
(** * The buffer cache (bio.c, buf.h) over a disk (memide.c, ide.c)

    The cache is an array of [NBUF] buffers threaded on a circular list by
    the arrays [nxt] and [prv]; index [NBUF] is [bcache.head].  A buffer
    pointer is its index.  The disk is an array of 512-byte blocks with the
    trace of the blocks written to it, in order.  [iderw] is the transfer of
    memide.c, which is also what a request to ide.c has done when it returns;
    the class [Driver] says which requests a driver refuses. *)

From S2P Require Import Prelude Sleeplock.

Definition BSIZE : nat := 512.
Definition NBUF : nat := 30.
Definition B_VALID : Z := 2.
Definition B_DIRTY : Z := 4.

Record buf := mk_buf {
  flags : Z;
  dev : Z;
  blockno : Z;
  lock : sleeplock;
  refcnt : Z;
  data : list Z;
}.
Definition zero_buf : buf := mk_buf 0 0 0 initsleeplock 0 (replicate BSIZE 0).
#[export] Instance buf_inhabited : Inhabited buf := populate zero_buf.

Definition set_flags f (b : buf) := mk_buf f (dev b) (blockno b) (lock b) (refcnt b) (data b).
Definition set_lock l (b : buf) := mk_buf (flags b) (dev b) (blockno b) l (refcnt b) (data b).
Definition set_refcnt n (b : buf) := mk_buf (flags b) (dev b) (blockno b) (lock b) n (data b).
Definition set_data d (b : buf) := mk_buf (flags b) (dev b) (blockno b) (lock b) (refcnt b) d.

Record bst := mk_bst {
  b_lock : bool;
  bufs : list buf;
  nxt : list nat;
  prv : list nat;
  disk : list (list Z);
  trace : list (Z * list Z);
  cur : Z;     (* myproc()->pid *)
}.

Definition set_block_lock v (s : bst) := mk_bst v (bufs s) (nxt s) (prv s) (disk s) (trace s) (cur s).
Definition set_bufs l (s : bst) := mk_bst (b_lock s) l (nxt s) (prv s) (disk s) (trace s) (cur s).
Definition set_links n p (s : bst) := mk_bst (b_lock s) (bufs s) n p (disk s) (trace s) (cur s).
Definition write_block bn d (s : bst) :=
  mk_bst (b_lock s) (bufs s) (nxt s) (prv s) (<[Z.to_nat bn := d]> (disk s)) (trace s ++ [(bn, d)]) (cur s).

Definition getb (i : nat) : M bst buf := reads (fun s => bufs s !!! i).
Definition updb (i : nat) (f : buf -> buf) : M bst unit :=
  modify (fun s => set_bufs (alter f i (bufs s)) s).

Definition acquire_b : M bst unit := fun s =>
  if b_lock s then Panic "acquire" else Ret tt (set_block_lock true s).
Definition release_b : M bst unit := fun s =>
  if b_lock s then Ret tt (set_block_lock false s) else Panic "release".

(** Operations of a buffer's sleep lock. *)
Definition on_lock {A} (i : nat) (m : M sleeplock A) : M bst A :=
  zoom (fun s => lock (bufs s !!! i)) (fun l s => set_bufs (alter (set_lock l) i (bufs s)) s) m.

Section bio.
(** The address of a buffer's lock, as a sleep channel. *)
Variable lock_addr : nat -> Z.

Definition holding_buf (i : nat) : M bst bool :=
  let! s := get in on_lock i (holdingsleep (cur s)).

(** The test [(b->flags & (B_VALID|B_DIRTY)) == B_VALID]. *)
Definition clean_valid (f : Z) : bool := Z.land f (Z.lor B_VALID B_DIRTY) =? B_VALID.
Definition is_dirty (f : Z) : bool := negb (Z.land f B_DIRTY =? 0).
Definition is_valid (f : Z) : bool := negb (Z.land f B_VALID =? 0).
Definition clear_dirty (f : Z) : Z := Z.land f (Z.lnot B_DIRTY).

(** What a driver refuses, with its panic message, and the size of the disk
    that holds device 1. *)
Class Driver := {
  refuses : buf -> option string;
  nblocks : Z;
  nblocks_int : nblocks <= 2 ^ 31;
  refuses_not : forall b, dev b = 1 -> 0 <= blockno b < nblocks -> refuses b = None;
}.
Context `{Driver}.

Definition iderw (i : nat) : M bst unit :=
  let! h := holding_buf i in
  if negb h then panic "iderw: buf not locked"
  else
    let! b := getb i in
    if clean_valid (flags b) then panic "iderw: nothing to do"
    else
      match refuses b with
      | Some msg => panic msg
      | None =>
          (if is_dirty (flags b) then
             updb i (set_flags (clear_dirty (flags b))) ;;
             modify (write_block (blockno b) (data b))
           else
             let! s := get in
             updb i (set_data (disk s !!! Z.to_nat (blockno b)))) ;;
          updb i (fun b => set_flags (Z.lor (flags b) B_VALID) b)
      end.

(** [for(b = from; b != &bcache.head; b = links[b]) if(test(b)) ...]: the
    first buffer that passes, or none; the fuel is the number of buffers. *)
Fixpoint scan (fuel : nat) (links : list nat) (test : nat -> bool) (b : nat) : option (option nat) :=
  match fuel with
  | O => None
  | S fuel => if (b =? NBUF)%nat then Some None
              else if test b then Some (Some b) else scan fuel links test (links !!! b)
  end.

Definition is_block (d n : Z) (b : buf) : bool := (dev b =? d) && (blockno b =? n).
Definition is_free (b : buf) : bool := (refcnt b =? 0) && negb (is_dirty (flags b)).

Definition bget (d n : Z) : M bst nat :=
  acquire_b ;;
  let! s := get in
  match scan (S NBUF) (nxt s) (fun i => is_block d n (bufs s !!! i)) (nxt s !!! NBUF) with
  | None => hang
  | Some (Some i) =>
      updb i (fun b => set_refcnt (u32 (refcnt b + 1)) b) ;;
      release_b ;;
      on_lock i (acquiresleep (lock_addr i) (cur s)) ;;
      ret i
  | Some None =>
      match scan (S NBUF) (prv s) (fun i => is_free (bufs s !!! i)) (prv s !!! NBUF) with
      | None => hang
      | Some (Some i) =>
          updb i (fun b => mk_buf 0 d n (lock b) 1 (data b)) ;;
          release_b ;;
          on_lock i (acquiresleep (lock_addr i) (cur s)) ;;
          ret i
      | Some None => panic "bget: no buffers"
      end
  end.

Definition bread (d n : Z) : M bst nat :=
  let! i := bget d n in
  let! b := getb i in
  when (negb (is_valid (flags b))) (iderw i) ;;
  ret i.

Definition bwrite (i : nat) : M bst unit :=
  let! h := holding_buf i in
  if negb h then panic "bwrite"
  else
    updb i (fun b => set_flags (Z.lor (flags b) B_DIRTY) b) ;;
    iderw i.

(** [b->next->prev = b->prev; b->prev->next = b->next; ...]: to the front. *)
Definition to_front (i : nat) (s : bst) : bst :=
  let p1 := <[nxt s !!! i := prv s !!! i]> (prv s) in
  let n1 := <[p1 !!! i := nxt s !!! i]> (nxt s) in
  let n2 := <[i := n1 !!! NBUF]> n1 in
  let p2 := <[i := NBUF]> p1 in
  let p3 := <[n2 !!! NBUF := i]> p2 in
  let n3 := <[NBUF := i]> n2 in
  set_links n3 p3 s.

(** Returns the channel of the lock that is released. *)
Definition brelse (i : nat) : M bst Z :=
  let! h := holding_buf i in
  if negb h then panic "brelse"
  else
    let! ch := on_lock i (releasesleep (lock_addr i)) in
    acquire_b ;;
    updb i (fun b => set_refcnt (u32 (refcnt b - 1)) b) ;;
    let! b := getb i in
    when (refcnt b =? 0) (modify (to_front i)) ;;
    release_b ;;
    ret ch.
End bio.

(** [binit] on the zeroed cache. *)
Definition link_front (i : nat) (np : list nat * list nat) : list nat * list nat :=
  let '(n, p) := np in
  let n1 := <[i := n !!! NBUF]> n in
  let p1 := <[i := NBUF]> p in
  let p2 := <[n1 !!! NBUF := i]> p1 in
  (<[NBUF := i]> n1, p2).

Definition binit (s : bst) : bst :=
  let np0 := (<[NBUF := NBUF]> (nxt s), <[NBUF := NBUF]> (prv s)) in
  let '(n, p) := foldl (fun np i => link_front i np) np0 (seq 0 NBUF) in
  mk_bst false (set_lock initsleeplock <$> bufs s) n p (disk s) (trace s) (cur s).

(** memide.c: the disk is the file system image linked into the kernel. *)
Definition memide_disksize (img_size : Z) : Z := u32 img_size / Z.of_nat BSIZE.
Definition memide_refuses (disksize : Z) (b : buf) : option string :=
  if negb (dev b =? 1) then Some "iderw: request not for disk 1"
  else if disksize <=? blockno b then Some "iderw: block out of range"
  else None.

#[refine, local] Instance memide (img_size : Z) : Driver := {
  refuses := memide_refuses (memide_disksize img_size);
  nblocks := memide_disksize img_size;
}.
Proof.
  - unfold memide_disksize. pose proof (u32_range img_size).
    change (Z.of_nat BSIZE) with 512. apply Z.div_le_upper_bound; lia.
  - intros b Hd Hb. unfold memide_refuses. rewrite Hd. cbn.
    by rewrite (proj2 (Z.leb_gt _ _)) by lia.
Defined.

(** ide.c: [idestart] refuses block numbers from [FSSIZE], and [iderw] the
    second disk when it is absent. *)
Definition FSSIZE : Z := 2000.
Definition ide_refuses (havedisk1 : bool) (b : buf) : option string :=
  if negb (dev b =? 0) && negb havedisk1 then Some "iderw: ide disk 1 not present"
  else if FSSIZE <=? blockno b then Some "incorrect blockno"
  else None.

#[refine, local] Instance ide : Driver := { refuses := ide_refuses true; nblocks := FSSIZE }.
Proof.
  - done.
  - intros b Hd Hb. unfold ide_refuses. rewrite Hd. cbn.
    by rewrite (proj2 (Z.leb_gt _ _)) by lia.
Defined.

(** The kernel's memory before [binit]: everything zero. *)
Definition zero_bst (d : list (list Z)) (pid : Z) : bst :=
  mk_bst false (replicate NBUF zero_buf) (replicate (S NBUF) 0%nat) (replicate (S NBUF) 0%nat) d [] pid.
