(* ===== verification/BioInv.v ===== *)
(** * Correctness of the buffer cache

    The circular list is a permutation of the buffers whose order is the use
    of the buffers ([path]).  [cache s D H] is the invariant: [H] are the
    buffers the running process holds, [D] maps the blocks pinned by the log
    to the contents that were logged.  [bread], [bwrite] and [brelse] are
    specified against it; the log and the file system use these lemmas. *)

From S2P Require Import Prelude Sleeplock Bio.

(** ** The circular list *)

Fixpoint path (n p : list nat) (a : nat) (l : list nat) (b : nat) : Prop :=
  match l with
  | [] => n !!! a = b /\ p !!! b = a
  | x :: l => n !!! a = x /\ p !!! x = a /\ path n p x l b
  end.

Lemma path_app n p a l1 x l2 b :
  path n p a (l1 ++ x :: l2) b <-> path n p a l1 x /\ path n p x l2 b.
Proof. revert a. induction l1 as [|y l1 IH]; intros a; cbn; [tauto|]. rewrite IH. tauto. Qed.

Lemma path_ext n p n' p' a l b :
  (forall x, x ∈ a :: l -> n' !!! x = n !!! x) -> (forall x, x ∈ l ++ [b] -> p' !!! x = p !!! x) ->
  path n p a l b -> path n' p' a l b.
Proof.
  revert a. induction l as [|x l IH]; intros a Hn Hp; cbn.
  - intros [H1 H2]. split; [rewrite Hn by left; done | rewrite Hp by left; done].
  - intros (H1 & H2 & H3). split; [rewrite Hn by left; done|]. split; [rewrite Hp by left; done|].
    apply IH; [|intros; apply Hp; by right | done]. intros y Hy. apply Hn. by right.
Qed.

Lemma path_rev n p a l b : path n p a l b -> path p n b (rev l) a.
Proof.
  revert a. induction l as [|x l IH]; intros a; cbn; [tauto|]. intros (H1 & H2 & H3).
  apply path_app. split; [by apply IH | done].
Qed.

(** The last node of a path gets a new successor. *)
Lemma path_retarget n p a l b c z :
  path n p a l b -> last (a :: l) = Some z -> NoDup (a :: l) -> c ∉ l ->
  (z < length n)%nat -> (c < length p)%nat ->
  path (<[z := c]> n) (<[c := z]> p) a l c.
Proof.
  revert a. induction l as [|x l IH]; intros a; cbn.
  - intros _ [= <-] _ _ Hz Hc. split; [by apply insert_at | by apply insert_at].
  - intros (H1 & H2 & H3) Hl Hnd Hc Hz Hcl. apply NoDup_cons in Hnd as [Ha Hnd].
    split; [|split].
    + rewrite insert_ne; [done|]. intros ->. apply Ha. by apply last_Some_elem_of.
    + rewrite insert_ne; [done|]. set_solver.
    + apply IH; try done. set_solver.
Qed.

Lemma path_last n p a l b : path n p a l b -> last (a :: l) = Some (p !!! b).
Proof.
  revert a. induction l as [|x l IH]; intros a; cbn; [by intros [_ ->]|].
  intros (_ & _ & H). by apply IH.
Qed.

Lemma path_first n p a l b : path n p a l b -> n !!! a = default b (head l).
Proof. destruct l; cbn; tauto. Qed.

Definition links_ok (n p : list nat) (l : list nat) : Prop :=
  length n = S NBUF /\ length p = S NBUF /\ Permutation l (seq 0 NBUF) /\ path n p NBUF l NBUF.

Lemma links_lt n p l i : links_ok n p l -> i ∈ l <-> (i < NBUF)%nat.
Proof. intros (_ & _ & Hp & _). rewrite Hp, elem_of_seq. lia. Qed.

Lemma links_nodup n p l : links_ok n p l -> NoDup (NBUF :: l).
Proof.
  intros (_ & _ & Hp & _). constructor.
  - rewrite Hp, elem_of_seq. lia.
  - rewrite Hp. apply NoDup_seq.
Qed.

(** Unlinking a buffer. *)
Lemma path_unlink n p l1 i l2 :
  length n = S NBUF -> length p = S NBUF -> NoDup (NBUF :: l1 ++ i :: l2) ->
  Forall (fun x => (x < NBUF)%nat) (l1 ++ i :: l2) ->
  path n p NBUF (l1 ++ i :: l2) NBUF ->
  let p1 := <[n !!! i := p !!! i]> p in
  let n1 := <[p1 !!! i := n !!! i]> n in
  path n1 p1 NBUF (l1 ++ l2) NBUF /\ p1 !!! i = p !!! i.
Proof.
  intros Hn Hp Hnd Hlt [P1 P2]%path_app. cbn zeta.
  pose proof (path_last _ _ _ _ _ P1) as Hx. pose proof (path_first _ _ _ _ _ P2) as Hy.
  set (x := p !!! i) in *. set (y := n !!! i) in *.
  assert (x ∈ NBUF :: l1) as Hxin by by apply last_Some_elem_of.
  rewrite Forall_app, Forall_cons in Hlt. destruct Hlt as (F1 & Fi & F2).
  rewrite NoDup_cons, NoDup_app, NoDup_cons in Hnd. destruct Hnd as (N0 & N1 & N2 & N3 & N4).
  assert (forall z, z ∈ NBUF :: l1 -> (z < S NBUF)%nat) as Hb1.
  { intros z [->|Hz]%elem_of_cons; [lia|]. rewrite Forall_forall in F1. specialize (F1 z Hz). lia. }
  assert (y <> i /\ (y < S NBUF)%nat /\ y ∉ l1) as (Hyi & Hyb & Hyl).
  { rewrite Hy. destruct l2 as [|z l2]; cbn.
    - split; [lia|]. split; [lia|]. set_solver.
    - apply Forall_cons in F2 as [? _]. split; [set_solver|]. split; [lia|]. intros Hz. by apply (N2 z Hz); set_solver. }
  assert (<[y := x]> p !!! i = x) as E by (rewrite insert_ne; done).
  rewrite E. split; [|done].
  assert (NoDup (NBUF :: l1)) as Hnd1 by (constructor; [set_solver | done]).
  pose proof (path_retarget n p NBUF l1 i y x P1 Hx Hnd1 Hyl ltac:(rewrite Hn; auto) ltac:(lia)) as P1'.
  destruct l2 as [|z l2]; cbn in Hy.
  - rewrite app_nil_r. by rewrite Hy in *.
  - apply path_app. rewrite Hy in *. split; [done|]. destruct P2 as (_ & _ & P2).
    eapply path_ext; [| |exact P2].
    + intros w Hw. apply insert_ne. intros <-.
      apply elem_of_cons in Hxin as [->|Hxin]; [set_solver|]. by apply (N2 x Hxin); set_solver.
    + intros w Hw. apply insert_ne. intros <-.
      apply elem_of_app in Hw as [Hw|Hw]; [by apply NoDup_cons in N4 as [? _]|].
      apply list_elem_of_singleton in Hw as ->. set_solver.
Qed.

(** Linking a buffer in at the front. *)
Lemma path_push n p m i :
  length n = S NBUF -> length p = S NBUF -> (i < NBUF)%nat -> NoDup (NBUF :: i :: m) ->
  Forall (fun x => (x < NBUF)%nat) m -> path n p NBUF m NBUF ->
  let n2 := <[i := n !!! NBUF]> n in
  let p2 := <[i := NBUF]> p in
  path (<[NBUF := i]> n2) (<[n2 !!! NBUF := i]> p2) NBUF (i :: m) NBUF.
Proof.
  intros Hn Hp Hi Hnd Hlt P. cbn zeta. pose proof (path_first _ _ _ _ _ P) as Hh.
  rewrite !NoDup_cons in Hnd. destruct Hnd as (N0 & N1 & N2).
  assert (<[i := n !!! NBUF]> n !!! NBUF = n !!! NBUF) as -> by (apply insert_ne; lia).
  set (h := n !!! NBUF) in *.
  assert (h <> i /\ (h < S NBUF)%nat) as [Hhi Hhb].
  { rewrite Hh. destruct m as [|x m]; cbn; [lia|]. apply Forall_cons in Hlt as [? _]. set_solver by lia. }
  cbn [path]. split; [|split].
  - apply insert_at. rewrite length_insert. lia.
  - rewrite insert_ne by done. apply insert_at. lia.
  - assert (<[NBUF := i]> (<[i := h]> n) !!! i = h) as Hni
      by (rewrite insert_ne by lia; apply insert_at; lia).
    assert (<[h := i]> (<[i := NBUF]> p) !!! h = i) as Hph by (apply insert_at; rewrite length_insert; lia).
    clearbody h. destruct m as [|x m]; cbn in Hh; subst h.
    + done.
    + cbn. split; [done|]. split; [done|]. destruct P as (_ & _ & P).
      eapply path_ext; [| |exact P].
      * intros w Hw. rewrite !insert_ne; [done | |]; intros <-; set_solver.
      * intros w Hw. apply NoDup_cons in N2 as [N2 _]. rewrite !insert_ne; [done | |]; intros <-; set_solver.
Qed.

Lemma to_front_links s l i :
  links_ok (nxt s) (prv s) l -> (i < NBUF)%nat ->
  exists l1 l2, l = l1 ++ i :: l2 /\
    links_ok (nxt (to_front i s)) (prv (to_front i s)) (i :: l1 ++ l2).
Proof.
  intros Hok Hi. pose proof (links_nodup _ _ _ Hok) as Hnd.
  assert (i ∈ l) as Hin by by eapply links_lt.
  assert (Forall (fun x => (x < NBUF)%nat) l) as Hlt
    by (apply Forall_forall; intros x Hx; by eapply links_lt).
  destruct Hok as (Hn & Hp & Hperm & P).
  apply list_elem_of_split in Hin as (l1 & l2 & ->). exists l1, l2. split; [done|].
  destruct (path_unlink _ _ l1 i l2 Hn Hp Hnd Hlt P) as [P1 E1].
  unfold to_front. cbn [nxt prv set_links].
  set (p1 := <[nxt s !!! i := prv s !!! i]> (prv s)) in *.
  set (n1 := <[p1 !!! i := nxt s !!! i]> (nxt s)) in *.
  assert (NoDup (NBUF :: i :: l1 ++ l2)) as Hnd'.
  { assert (Permutation (NBUF :: i :: l1 ++ l2) (NBUF :: l1 ++ i :: l2)) as E
      by (constructor; apply Permutation_middle). by rewrite E. }
  split; [|split; [|split]].
  - unfold n1. by rewrite !length_insert.
  - unfold p1. by rewrite !length_insert.
  - rewrite <- Hperm. apply Permutation_middle.
  - apply path_push; try done; try (unfold n1, p1; by rewrite ?length_insert).
    rewrite Forall_app, Forall_cons in Hlt. apply Forall_app. tauto.
Qed.

(** The scans of [bget] see the buffers in list order. *)
Lemma scan_path fuel n p a l test :
  path n p a l NBUF -> Forall (fun x => (x < NBUF)%nat) l -> (length l < fuel)%nat ->
  scan fuel n test (n !!! a) = Some (List.find test l).
Proof.
  revert a l. induction fuel as [|fuel IH]; intros a l P Hlt Hf; [lia|].
  destruct l as [|x l]; cbn [path] in P; cbn [scan].
  - destruct P as [-> _]. rewrite Nat.eqb_refl. done.
  - destruct P as (-> & _ & P). apply Forall_cons in Hlt as [Hx Hlt].
    destruct (Nat.eqb_spec x NBUF); [lia|]. cbn [List.find]. destruct (test x); [done|].
    apply IH; [done | done | cbn in Hf; lia].
Qed.

Lemma links_scan n p l test :
  links_ok n p l ->
  scan (S NBUF) n test (n !!! NBUF) = Some (List.find test l) /\
  scan (S NBUF) p test (p !!! NBUF) = Some (List.find test (rev l)).
Proof.
  intros Hok. assert (Forall (fun x => (x < NBUF)%nat) l) as Hlt
    by (apply Forall_forall; intros x Hx; by eapply links_lt).
  destruct Hok as (Hn & Hp & Hperm & P).
  assert (length l = NBUF) as Hlen by (rewrite Hperm; apply length_seq).
  split.
  - eapply scan_path; [exact P | done | lia].
  - eapply scan_path; [apply path_rev; exact P | | rewrite length_rev; lia].
    apply Forall_forall. intros x. rewrite list_elem_of_In, <- in_rev, <- list_elem_of_In.
    rewrite Forall_forall in Hlt. apply Hlt.
Qed.

Lemma find_total {A} (test : A -> bool) l :
  match List.find test l with
  | Some x => x ∈ l /\ test x = true
  | None => forall x, x ∈ l -> test x = false
  end.
Proof.
  destruct (List.find test l) eqn:E.
  - apply find_some in E as [H1 H2]. by apply list_elem_of_In in H1.
  - intros x Hx%list_elem_of_In. by eapply find_none in E.
Qed.

Lemma find_rev_last {A} (f : A -> bool) l x :
  List.find f (rev l) = Some x ->
  exists l1 l2, l = l1 ++ x :: l2 /\ f x = true /\ forall y, y ∈ l2 -> f y = false.
Proof.
  induction l as [|z l IH] using rev_ind; [done|]. rewrite rev_app_distr. cbn.
  destruct (f z) eqn:Ez.
  - intros [= ->]. exists l, []. split; [done|]. split; [done|]. set_solver.
  - intros Hx. destruct (IH Hx) as (l1 & l2 & -> & Hf & Hl2). exists l1, (l2 ++ [z]).
    split; [by rewrite <- app_assoc|]. split; [done|]. intros y. rewrite elem_of_app, list_elem_of_singleton.
    intros [?| ->]; auto.
Qed.

(** The links determine the list. *)
Lemma path_unique n p a l l' :
  path n p a l NBUF -> path n p a l' NBUF -> NBUF ∉ l -> NBUF ∉ l' -> l = l'.
Proof.
  revert a l'. induction l as [|x l IH]; intros a [|y l'] P P' Hn Hn'; cbn in *; try done.
  - destruct P as [P _], P' as [P' _]. set_solver.
  - destruct P as [P _], P' as [P' _]. set_solver.
  - destruct P as (P & _ & P2), P' as (P' & _ & P2'). assert (x = y) as -> by congruence. f_equal.
    apply (IH y); set_solver.
Qed.

Lemma links_split_unique n p l1 l2 m1 m2 i :
  links_ok n p (l1 ++ i :: l2) -> links_ok n p (m1 ++ i :: m2) -> m1 = l1 /\ m2 = l2.
Proof.
  intros Hl Hm. pose proof (links_nodup _ _ _ Hl) as Nl. pose proof (links_nodup _ _ _ Hm) as Nm.
  assert (m1 ++ i :: m2 = l1 ++ i :: l2) as E.
  { destruct Hl as (_ & _ & _ & Pl), Hm as (_ & _ & _ & Pm).
    apply (path_unique n p NBUF); [done.. | |]; by apply NoDup_cons. }
  apply NoDup_cons in Nl as [_ (_ & Nl & _)%NoDup_app]. apply NoDup_cons in Nm as [_ (_ & Nm & _)%NoDup_app].
  assert (i ∉ m1) as H1 by (intros Hi; apply (Nm i Hi); left).
  assert (i ∉ l1) as H2 by (intros Hi; apply (Nl i Hi); left).
  clear Hl Hm Nl Nm. revert l1 E H2. induction m1 as [|x m1 IH]; intros [|y l1] E H2; cbn in E.
  - injection E as ->. done.
  - injection E as ->. set_solver.
  - injection E as ->. set_solver.
  - injection E as -> E. destruct (IH ltac:(set_solver) l1 E ltac:(set_solver)) as [-> ->]. done.
Qed.

(** ** The cache invariant *)

Section cache.
Context (lock_addr : nat -> Z) `{DR : Driver}.
Abbreviation bread := (bread lock_addr).
Abbreviation bget := (bget lock_addr).
Abbreviation brelse := (brelse lock_addr).

Definition unheld : sleeplock := mk_sleeplock false false 0.
Definition held_by (pid : Z) : sleeplock := mk_sleeplock false true pid.

Definition block_of (s : bst) (i : nat) : Z := blockno (bufs s !!! i).

Record cache (s : bst) (D : gmap Z (list Z)) (H : gset nat) : Prop := {
  k_lock : b_lock s = false;
  k_len : length (bufs s) = NBUF;
  k_links : exists l, links_ok (nxt s) (prv s) l;
  k_disk : nblocks <= Z.of_nat (length (disk s));
  k_disk_len b : 0 <= b < nblocks -> length (disk s !!! Z.to_nat b) = BSIZE;
  k_data i : length (data (bufs s !!! i)) = BSIZE;
  k_held i : i ∈ H -> (i < NBUF)%nat /\ lock (bufs s !!! i) = held_by (cur s) /\
    refcnt (bufs s !!! i) = 1 /\ dev (bufs s !!! i) = 1 /\ 0 <= block_of s i < nblocks /\
    (flags (bufs s !!! i) = 2 /\ D !! block_of s i = None \/
     flags (bufs s !!! i) = 6 /\ is_Some (D !! block_of s i));
  k_idle i : (i < NBUF)%nat -> i ∉ H ->
    lock (bufs s !!! i) = unheld /\ refcnt (bufs s !!! i) = 0 /\
    (dev (bufs s !!! i) = 0 /\ flags (bufs s !!! i) = 0 \/
     dev (bufs s !!! i) = 1 /\ 0 <= block_of s i < nblocks /\
     (flags (bufs s !!! i) = 2 /\ D !! block_of s i = None /\
        data (bufs s !!! i) = disk s !!! Z.to_nat (block_of s i) \/
      flags (bufs s !!! i) = 6 /\ D !! block_of s i = Some (data (bufs s !!! i))));
  k_unique i j : (i < NBUF)%nat -> (j < NBUF)%nat -> dev (bufs s !!! i) = 1 -> dev (bufs s !!! j) = 1 ->
    block_of s i = block_of s j -> i = j;
  k_pinned b : is_Some (D !! b) ->
    exists i, (i < NBUF)%nat /\ dev (bufs s !!! i) = 1 /\ block_of s i = b /\ flags (bufs s !!! i) = 6;
}.

(** The contents of a block, as logged or on disk. *)
Definition view (s : bst) (D : gmap Z (list Z)) (b : Z) : list Z :=
  default (disk s !!! Z.to_nat b) (D !! b).

(** Two cache states that differ in the buffer [i] only (and in the order of
    the list). *)
Definition only (i : nat) (s s' : bst) : Prop :=
  disk s' = disk s /\ trace s' = trace s /\ cur s' = cur s /\
  (forall j, j <> i -> bufs s' !!! j = bufs s !!! j).

Lemma lt_of_dev s i : length (bufs s) = NBUF -> dev (bufs s !!! i) <> 0 -> (i < NBUF)%nat.
Proof.
  intros Hl Hd. rewrite <- Hl. apply lookup_total_lt. intros E. rewrite E in Hd. done.
Qed.

(** A buffer that is neither held nor pinned is left, by counting. *)
Lemma free_exists s D H :
  cache s D H -> (size D + size H < NBUF)%nat ->
  exists i, (i < NBUF)%nat /\ i ∉ H /\ flags (bufs s !!! i) <> 6.
Proof.
  intros I Hsz.
  destruct (decide (Exists (fun i => i ∉ H /\ flags (bufs s !!! i) <> 6) (seq 0 NBUF))) as [Hex|Hno].
  - apply Exists_exists in Hex as (i & Hi & ? & ?). apply elem_of_seq in Hi. exists i. split; [lia | done].
  - exfalso.
    assert (forall i, i ∈ seq 0 NBUF -> ~ (i ∉ H /\ flags (bufs s !!! i) <> 6)) as Hno'
      by (intros i Hi Hx; apply Hno, Exists_exists; eauto). clear Hno. rename Hno' into Hno.
    set (pin := filter (fun i => i ∉ H) (seq 0 NBUF)).
    assert (NoDup pin) as Hnd by apply NoDup_filter, NoDup_seq.
    assert (forall i, i ∈ pin -> (i < NBUF)%nat /\ i ∉ H /\ flags (bufs s !!! i) = 6) as Hpin.
    { intros i Hi. apply list_elem_of_filter in Hi as [HiH Hi]. specialize (Hno i Hi).
      apply elem_of_seq in Hi. split; [lia|]. split; [done|].
      destruct (decide (flags (bufs s !!! i) = 6)); [done|]. by destruct Hno. }
    assert (forall i, i ∈ pin -> dev (bufs s !!! i) = 1 /\ is_Some (D !! block_of s i)) as Hpin2.
    { intros i Hi. destruct (Hpin i Hi) as (? & ? & Hf).
      destruct (k_idle _ _ _ I i) as (_ & _ & [[_ Hz]|(Hd & _ & [[Hz _]|[_ Hb]])]);
        [done | done | congruence | congruence |]. split; [done|]. rewrite Hb. eauto. }
    assert (list_to_set (block_of s <$> pin) ⊆ dom D) as Hsub.
    { intros b Hb. apply elem_of_list_to_set, list_elem_of_fmap in Hb as (i & -> & Hi).
      apply elem_of_dom. by apply Hpin2. }
    assert (length pin <= size D)%nat as Hle.
    { rewrite <- size_dom. transitivity (size (list_to_set (C := gset Z) (block_of s <$> pin))); [|by apply subseteq_size].
      rewrite size_list_to_set; [by rewrite length_fmap|].
      apply NoDup_fmap_2_strong; [|done]. intros i j Hi Hj E.
      destruct (Hpin i Hi) as (? & _), (Hpin j Hj) as (? & _), (Hpin2 i Hi), (Hpin2 j Hj).
      by eapply k_unique. }
    assert (seq 0 NBUF ⊆+ elements H ++ pin) as Hcov.
    { apply NoDup_submseteq; [apply NoDup_seq|]. intros i Hi. apply elem_of_app.
      destruct (decide (i ∈ H)); [left; by apply elem_of_elements | right; by apply list_elem_of_filter]. }
    apply submseteq_length in Hcov. rewrite length_seq, length_app in Hcov. 
    assert (size H = length (elements H)) as E by done. lia.
Qed.

(** ** The operations *)

Lemma set_lock_id (b : buf) l : lock b = l -> set_lock l b = b.
Proof. destruct b; cbn. by intros ->. Qed.

Lemma alter_bufs_id f i (s : bst) : f (bufs s !!! i) = bufs s !!! i -> set_bufs (alter f i (bufs s)) s = s.
Proof.
  intros Hf. destruct s as [a l n p d tr c]; cbn in *. unfold set_bufs; cbn. f_equal.
  apply list_eq. intros j. destruct (decide (i = j)) as [<-|Hj].
  - rewrite list_lookup_alter_eq. destruct (l !! i) as [b|] eqn:E; [|done]. cbn.
    rewrite (list_lookup_total_correct _ _ _ E) in Hf. by rewrite Hf.
  - by rewrite list_lookup_alter_ne.
Qed.

Lemma on_lock_Ret {A} i (m : M sleeplock A) s a l :
  m (lock (bufs s !!! i)) = Ret a l -> on_lock i m s = Ret a (set_bufs (alter (set_lock l) i (bufs s)) s).
Proof. intros Hm. unfold on_lock, zoom. by rewrite Hm. Qed.

Lemma holding_buf_eq i s :
  lock (bufs s !!! i) = held_by (cur s) -> holding_buf i s = Ret true s.
Proof.
  intros Hl. unfold holding_buf, bind, get.
  rewrite (on_lock_Ret i _ s true (held_by (cur s))).
  - by rewrite alter_bufs_id by by apply set_lock_id.
  - rewrite holdingsleep_eq by by rewrite Hl. by rewrite Hl; cbn; rewrite Z.eqb_refl.
Qed.

Lemma alter_compose (f g : buf -> buf) i (l : list buf) : alter f i (alter g i l) = alter (fun b => f (g b)) i l.
Proof.
  apply list_eq. intros j. destruct (decide (i = j)) as [<-|Hj].
  - rewrite !list_lookup_alter_eq. by destruct (l !! i).
  - by rewrite !list_lookup_alter_ne.
Qed.

Lemma alter_cong (f g : buf -> buf) i (l : list buf) :
  (forall b, l !! i = Some b -> f b = g b) -> alter f i l = alter g i l.
Proof.
  intros Hfg. apply list_eq. intros j. destruct (decide (i = j)) as [<-|Hj].
  - rewrite !list_lookup_alter_eq. destruct (l !! i) eqn:E; cbn; [|done]. by rewrite Hfg.
  - by rewrite !list_lookup_alter_ne.
Qed.

(** A clean buffer is read from the disk; a dirty one is written to it. *)
Lemma iderw_read i s :
  (i < length (bufs s))%nat -> lock (bufs s !!! i) = held_by (cur s) ->
  flags (bufs s !!! i) = 0 -> refuses (bufs s !!! i) = None ->
  iderw i s = Ret tt (set_bufs (alter (fun b =>
    set_flags 2 (set_data (disk s !!! Z.to_nat (block_of s i)) b)) i (bufs s)) s).
Proof.
  intros Hi Hl Hf Hr. unfold iderw. rewrite (bind_ret _ _ _ _ _ (holding_buf_eq i s Hl)). cbn [negb].
  unfold bind at 1, getb, reads. rewrite Hf. change (clean_valid 0) with false. change (is_dirty 0) with false. rewrite Hr.
  unfold bind, updb, modify, get. cbn. unfold set_bufs; cbn. rewrite alter_compose. do 2 f_equal.
  apply alter_cong. intros b Hb. apply list_lookup_total_correct in Hb. rewrite Hb in *.
  unfold set_flags, set_data, block_of; cbn. rewrite Hb, Hf. reflexivity.
Qed.

Lemma iderw_write i s :
  (i < length (bufs s))%nat -> lock (bufs s !!! i) = held_by (cur s) ->
  flags (bufs s !!! i) = 6 -> refuses (bufs s !!! i) = None ->
  iderw i s = Ret tt (write_block (block_of s i) (data (bufs s !!! i))
    (set_bufs (alter (set_flags 2) i (bufs s)) s)).
Proof.
  intros Hi Hl Hf Hr. unfold iderw. rewrite (bind_ret _ _ _ _ _ (holding_buf_eq i s Hl)). cbn [negb].
  unfold bind at 1, getb, reads. rewrite Hf. change (clean_valid 6) with false. change (is_dirty 6) with true. rewrite Hr.
  unfold bind, updb, modify, get. cbn. unfold set_bufs, write_block; cbn. rewrite alter_compose. done.
Qed.

Definition cached (s : bst) (b : Z) (i : nat) : Prop :=
  (i < NBUF)%nat /\ dev (bufs s !!! i) = 1 /\ block_of s i = b.

Lemma is_block_spec s b i : is_block 1 b (bufs s !!! i) = true <-> dev (bufs s !!! i) = 1 /\ block_of s i = b.
Proof. unfold is_block, block_of. rewrite andb_true_iff, !Z.eqb_eq. done. Qed.

(** The two ways through [bget]. *)
Lemma bget_hit s D H b i :
  cache s D H -> cached s b i -> i ∉ H ->
  bget 1 b s = Ret i (set_bufs (alter (fun x => set_lock (held_by (cur s)) (set_refcnt 1 x)) i (bufs s)) s).
Proof.
  intros I (Hi & Hd & Hb) HiH. destruct (k_links _ _ _ I) as [l Hl].
  destruct (k_idle _ _ _ I i Hi HiH) as (Hlk & Hrc & _).
  unfold Bio.bget, bind at 1, acquire_b. rewrite (k_lock _ _ _ I). unfold bind at 1, get.
  cbn [nxt bufs set_block_lock].
  rewrite (proj1 (links_scan _ _ l (fun j => is_block 1 b (bufs s !!! j)) Hl)).
  pose proof (find_total (fun j => is_block 1 b (bufs s !!! j)) l) as Hfind.
  destruct (List.find _ l) as [j|].
  - destruct Hfind as [Hjl [Hdj Hbj]%is_block_spec]. apply (links_lt _ _ _ _ Hl) in Hjl.
    assert (j = i) as -> by (eapply k_unique; eauto; congruence).
    unfold bind, updb, modify, release_b. cbn [b_lock set_bufs set_block_lock bufs].
    erewrite on_lock_Ret.
    2: { cbn [bufs set_block_lock set_bufs]. rewrite alter_at by (rewrite (k_len _ _ _ I); done). cbn.
         rewrite Hlk. reflexivity. }
    cbn. unfold set_bufs, set_block_lock; cbn. rewrite (k_lock _ _ _ I), alter_compose. do 2 f_equal.
    apply alter_cong. intros x Hx. apply list_lookup_total_correct in Hx. rewrite Hx in *. cbn. by rewrite Hrc.
  - exfalso. specialize (Hfind i ltac:(by eapply links_lt)).
    assert (is_block 1 b (bufs s !!! i) = true) by by apply is_block_spec. congruence.
Qed.

Lemma is_free_spec s D H i :
  cache s D H -> (i < NBUF)%nat -> is_free (bufs s !!! i) = true <-> i ∉ H /\ flags (bufs s !!! i) <> 6.
Proof.
  intros I Hi. unfold is_free. destruct (decide (i ∈ H)) as [HiH|HiH].
  - destruct (k_held _ _ _ I i HiH) as (_ & _ & -> & _). cbn. split; [done | tauto].
  - destruct (k_idle _ _ _ I i Hi HiH) as (_ & -> & [[_ ->]|(_ & _ & [[-> _]|[-> _]])]); cbn; naive_solver.
Qed.

Lemma bget_miss s D H b :
  cache s D H -> (forall i, ~ cached s b i) -> (size D + size H < NBUF)%nat ->
  exists i, (i < NBUF)%nat /\ i ∉ H /\ flags (bufs s !!! i) <> 6 /\
    bget 1 b s = Ret i (set_bufs (alter (fun x => mk_buf 0 1 b (held_by (cur s)) 1 (data x)) i (bufs s)) s).
Proof.
  intros I Hno Hsz. destruct (k_links _ _ _ I) as [l Hl].
  destruct (free_exists s D H I Hsz) as (i0 & Hi0 & Hi0H & Hi0f).
  unfold Bio.bget, bind at 1, acquire_b. rewrite (k_lock _ _ _ I). unfold bind at 1, get.
  cbn [nxt prv bufs set_block_lock].
  rewrite (proj1 (links_scan _ _ l (fun j => is_block 1 b (bufs s !!! j)) Hl)).
  rewrite (proj2 (links_scan _ _ l (fun j => is_free (bufs s !!! j)) Hl)).
  pose proof (find_total (fun j => is_block 1 b (bufs s !!! j)) l) as Hfind.
  destruct (List.find _ l) as [j|].
  { destruct Hfind as [Hjl Hj%is_block_spec]. apply (links_lt _ _ _ _ Hl) in Hjl. by destruct (Hno j). }
  pose proof (find_total (fun j => is_free (bufs s !!! j)) (rev l)) as Hfree.
  assert (forall j, j ∈ rev l <-> (j < NBUF)%nat) as Hrev.
  { intros j. rewrite list_elem_of_In, <- in_rev, <- list_elem_of_In. by eapply links_lt. }
  destruct (List.find _ (rev l)) as [j|].
  - destruct Hfree as [Hj%Hrev Hfj]. apply (is_free_spec s D H j I Hj) in Hfj as [HjH Hjf].
    exists j. split; [done|]. split; [done|]. split; [done|].
    destruct (k_idle _ _ _ I j Hj HjH) as (Hlk & _).
    unfold bind, updb, modify, release_b. cbn [b_lock set_bufs set_block_lock bufs].
    erewrite on_lock_Ret.
    2: { cbn [bufs set_block_lock set_bufs]. rewrite alter_at by (rewrite (k_len _ _ _ I); done). cbn.
         rewrite Hlk. reflexivity. }
    cbn. unfold set_bufs, set_block_lock; cbn. rewrite (k_lock _ _ _ I), alter_compose. done.
  - exfalso. specialize (Hfree i0 ltac:(by apply Hrev)).
    assert (is_free (bufs s !!! i0) = true) by by eapply is_free_spec. congruence.
Qed.

(** The conditions on one buffer [x] at index [i]. *)
Definition held_ok (pid : Z) (D : gmap Z (list Z)) (x : buf) : Prop :=
  lock x = held_by pid /\ refcnt x = 1 /\ dev x = 1 /\ 0 <= blockno x < nblocks /\
  (flags x = 2 /\ D !! blockno x = None \/ flags x = 6 /\ is_Some (D !! blockno x)).
Definition idle_ok (dk : list (list Z)) (D : gmap Z (list Z)) (x : buf) : Prop :=
  lock x = unheld /\ refcnt x = 0 /\
  (dev x = 0 /\ flags x = 0 \/
   dev x = 1 /\ 0 <= blockno x < nblocks /\
   (flags x = 2 /\ D !! blockno x = None /\ data x = dk !!! Z.to_nat (blockno x) \/
    flags x = 6 /\ D !! blockno x = Some (data x))).

Lemma held_iff s D H i : cache s D H -> i ∈ H -> held_ok (cur s) D (bufs s !!! i).
Proof. intros I Hi. by destruct (k_held _ _ _ I i Hi) as [_ Hh]. Qed.

Lemma idle_iff s D H i : cache s D H -> (i < NBUF)%nat -> i ∉ H -> idle_ok (disk s) D (bufs s !!! i).
Proof. intros I Hi Hn. exact (k_idle _ _ _ I i Hi Hn). Qed.

(** One buffer, and the block it is for, change. *)
Lemma cache_change s D H s' D' H' i x :
  cache s D H -> (i < NBUF)%nat ->
  b_lock s' = false -> (exists l, links_ok (nxt s') (prv s') l) -> cur s' = cur s ->
  bufs s' = <[i := x]> (bufs s) ->
  length (disk s') = length (disk s) ->
  (forall b, b <> blockno x -> disk s' !!! Z.to_nat b = disk s !!! Z.to_nat b \/ ~ 0 <= b < nblocks) ->
  length (disk s' !!! Z.to_nat (blockno x)) = BSIZE ->
  (forall j, j <> i -> j ∈ H' <-> j ∈ H) ->
  (forall b, b <> blockno x -> D' !! b = D !! b) ->
  length (data x) = BSIZE ->
  (i ∈ H' -> held_ok (cur s) D' x) -> (i ∉ H' -> idle_ok (disk s') D' x) ->
  (is_Some (D' !! blockno x) -> dev x = 1 /\ flags x = 6) ->
  (flags (bufs s !!! i) = 6 -> block_of s i = blockno x) ->
  (forall j, (j < NBUF)%nat -> j <> i -> dev (bufs s !!! j) = 1 -> block_of s j <> blockno x) ->
  cache s' D' H'.
Proof.
  intros I Hi Hlk Hlinks Hcur Hb Hdl Hdd Hdx HH HD Hlen Hheld Hidle Hpin Hold Huniq.
  assert (forall j, j <> i -> bufs s' !!! j = bufs s !!! j) as Hne
    by (intros j Hj; rewrite Hb; apply insert_ne; congruence).
  assert (bufs s' !!! i = x) as Hat by (rewrite Hb; apply insert_at; rewrite (k_len _ _ _ I); done).
  assert (forall j, j <> i -> block_of s' j = block_of s j) as Hbl by (intros; unfold block_of; by rewrite Hne).
  split.
  - done.
  - rewrite Hb, length_insert. apply I.
  - done.
  - rewrite Hdl. apply I.
  - intros b Hb0. destruct (decide (b = blockno x)) as [->|Hbx]; [done|].
    destruct (Hdd b Hbx) as [->|?]; [|done]. by apply (k_disk_len _ _ _ I).
  - intros j. destruct (decide (j = i)) as [->|Hj]; [by rewrite Hat|]. rewrite Hne by done. apply I.
  - intros j Hj. destruct (decide (j = i)) as [->|Hji].
    + split; [done|]. unfold block_of. rewrite Hat, Hcur. by apply Hheld.
    + rewrite Hbl, Hne, Hcur by done. apply HH in Hj; [|done].
      destruct (k_held _ _ _ I j Hj) as (Hlt & H1 & H2 & H3 & H4 & H5).
      rewrite HD; [done|]. by apply Huniq.
  - intros j Hlt Hj. destruct (decide (j = i)) as [->|Hji].
    + unfold block_of. rewrite Hat. by apply Hidle.
    + rewrite Hbl, Hne by done. rewrite HH in Hj by done.
      destruct (k_idle _ _ _ I j Hlt Hj) as (H1 & H2 & H3). split; [done|]. split; [done|].
      destruct H3 as [?|(H3 & H4 & H5)]; [by left|]. right. split; [done|]. split; [done|].
      assert (block_of s j <> blockno x) as Hbx by by apply Huniq.
      rewrite HD by done. destruct (Hdd _ Hbx) as [E|E]; [by rewrite E | by destruct E].
  - intros j k Hj Hk. destruct (decide (j = i)) as [->|Hji], (decide (k = i)) as [->|Hki]; try done.
    + rewrite (Hbl k), (Hne k), Hat by done. unfold block_of at 1. rewrite Hat. intros _ Hdk E.
      by destruct (Huniq k Hk Hki Hdk).
    + rewrite (Hbl j), (Hne j), Hat by done. unfold block_of at 2. rewrite Hat. intros Hdj _ E.
      by destruct (Huniq j Hj Hji Hdj).
    + rewrite !Hbl, !Hne by done. by apply (k_unique _ _ _ I).
  - intros b Hsome. destruct (decide (b = blockno x)) as [->|Hbx].
    + exists i. destruct (Hpin Hsome). unfold block_of. by rewrite Hat.
    + rewrite HD in Hsome by done. destruct (k_pinned _ _ _ I b Hsome) as (j & Hj & Hdj & Hbj & Hfj).
      assert (j <> i) as Hji by (intros ->; apply Hold in Hfj; congruence).
      exists j. rewrite Hbl, Hne by done. done.
Qed.

Lemma alter_as_insert (f : buf -> buf) i (l : list buf) :
  (i < length l)%nat -> alter f i l = <[i := f (l !!! i)]> l.
Proof.
  intros Hi. apply list_eq. intros j. destruct (decide (i = j)) as [<-|Hj].
  - rewrite list_lookup_alter_eq, list_lookup_insert_eq by done.
    destruct (lookup_lt_is_Some_2 l i Hi) as [b Hb]. by rewrite Hb, (list_lookup_total_correct _ _ _ Hb).
  - by rewrite list_lookup_alter_ne, list_lookup_insert_ne.
Qed.

(** A buffer is changed in place, without touching the list or the disk. *)
Lemma cache_buf s D H D' H' i x :
  cache s D H -> (i < NBUF)%nat -> 0 <= blockno x < nblocks ->
  (forall j, j <> i -> j ∈ H' <-> j ∈ H) ->
  (forall b, b <> blockno x -> D' !! b = D !! b) -> length (data x) = BSIZE ->
  (i ∈ H' -> held_ok (cur s) D' x) -> (i ∉ H' -> idle_ok (disk s) D' x) ->
  (is_Some (D' !! blockno x) -> dev x = 1 /\ flags x = 6) ->
  (flags (bufs s !!! i) = 6 -> block_of s i = blockno x) ->
  (forall j, (j < NBUF)%nat -> j <> i -> dev (bufs s !!! j) = 1 -> block_of s j <> blockno x) ->
  cache (set_bufs (<[i := x]> (bufs s)) s) D' H'.
Proof.
  intros I Hi Hbx HH HD Hlen Hh Hid Hp Ho Hu.
  eapply cache_change; try done; try apply I; auto.
Qed.

Definition got (s s' : bst) (D : gmap Z (list Z)) (H : gset nat) (b : Z) (i : nat) : Prop :=
  i ∉ H /\ (i < NBUF)%nat /\ cache s' D ({[i]} ∪ H) /\ only i s s' /\
  block_of s' i = b /\ data (bufs s' !!! i) = view s D b.

Lemma only_insert i x s : only i s (set_bufs (<[i := x]> (bufs s)) s).
Proof. split_and!; try done. intros j Hj. cbn. apply insert_ne. congruence. Qed.

Lemma other_block s D H b i j :
  cache s D H -> cached s b i -> (j < NBUF)%nat -> j <> i -> dev (bufs s !!! j) = 1 -> block_of s j <> b.
Proof. intros I (Hi & Hd & Hb) Hj Hji Hdj E. apply Hji. eapply k_unique; eauto. congruence. Qed.

Lemma bread_hit s D H b i :
  cache s D H -> cached s b i -> i ∉ H -> exists s', bread 1 b s = Ret i s' /\ got s s' D H b i.
Proof.
  intros I Hc HiH. pose proof Hc as (Hi & Hd & Hb).
  unfold Bio.bread. rewrite (bind_ret _ _ _ _ _ (bget_hit s D H b i I Hc HiH)).
  rewrite alter_as_insert by (rewrite (k_len _ _ _ I); done).
  set (x := set_lock _ (set_refcnt 1 (bufs s !!! i))).
  destruct (k_idle _ _ _ I i Hi HiH) as (_ & _ & [[? _]|(_ & Hr & Hst)]); [congruence|].
  assert (flags x = 2 \/ flags x = 6) as Hf by (destruct Hst as [[? _]|[? _]]; auto).
  unfold bind at 1, getb, reads. cbn [bufs set_bufs].
  rewrite insert_at by (rewrite (k_len _ _ _ I); done).
  assert (is_valid (flags x) = true) as -> by (destruct Hf as [->| ->]; done). cbn [negb when].
  eexists. split; [reflexivity|]. split; [done|]. split; [done|]. split; [|split; [apply only_insert|]].
  - apply (cache_buf s D H D); try done.
    + set_solver.
    + apply I.
    + intros _. repeat split; try done; try apply Hr.
      destruct Hst as [(? & ? & _)|[? Hs]]; [by left | right; split; [done|]].
      change (blockno x) with (block_of s i). rewrite Hs. eauto.
    + set_solver.
    + intros Hs. split; [done|]. destruct Hst as [(_ & Hn & _)|[? _]]; [|done].
      change (blockno x) with (block_of s i) in Hs. rewrite Hn in Hs. by destruct Hs.
    + intros j. rewrite <- Hb in Hc. by eapply other_block.
  - unfold block_of at 1. cbn. rewrite insert_at by (rewrite (k_len _ _ _ I); done). split; [done|].
    unfold view. cbn. rewrite <- Hb. destruct Hst as [(_ & -> & ->)|[_ ->]]; done.
Qed.

Lemma bread_miss s D H b :
  cache s D H -> (forall i, ~ cached s b i) -> 0 <= b < nblocks -> (size D + size H < NBUF)%nat ->
  exists i s', bread 1 b s = Ret i s' /\ got s s' D H b i.
Proof.
  intros I Hno Hb Hsz. destruct (bget_miss s D H b I Hno Hsz) as (i & Hi & HiH & Hfi & Hg).
  unfold Bio.bread. rewrite (bind_ret _ _ _ _ _ Hg).
  rewrite alter_as_insert by (rewrite (k_len _ _ _ I); done).
  assert (i < length (bufs s))%nat as Hil by (rewrite (k_len _ _ _ I); done).
  unfold bind at 1, getb, reads. cbn [bufs set_bufs]. rewrite insert_at by done. cbn [flags].
  change (is_valid 0) with false. cbn [negb when]. unfold bind at 1.
  assert (D !! b = None) as HDb.
  { destruct (D !! b) eqn:E; [|done]. exfalso.
    destruct (k_pinned _ _ _ I b) as (j & ? & ? & ? & _); [rewrite E; eauto|]. by apply (Hno j). }
  rewrite iderw_read; cbn [bufs set_bufs cur]; rewrite ?insert_at, ?length_insert by done; try done.
  2: { by apply refuses_not. }
  unfold block_of at 1. cbn [bufs disk set_bufs]. rewrite insert_at by done. cbn [blockno].
  rewrite alter_as_insert by (rewrite length_insert; done). rewrite insert_at by done.
  unfold set_bufs. cbn [bufs b_lock nxt prv disk trace cur]. rewrite list_insert_insert_eq.
  change (mk_bst (b_lock s) ?l (nxt s) (prv s) (disk s) (trace s) (cur s)) with (set_bufs l s).
  eexists i, _. split; [reflexivity|]. split; [done|]. split; [done|]. split; [|split; [apply only_insert|]].
  - apply (cache_buf s D H D); try done; cbn.
    + set_solver.
    + by apply (k_disk_len _ _ _ I).
    + intros _. repeat split; try done; try apply Hb. left. done.
    + set_solver.
    + intros [? ?]. congruence.
    + intros j Hj Hji Hdj E. by apply (Hno j).
  - unfold block_of. cbn. rewrite insert_at by done. cbn. unfold view. by rewrite HDb.
Qed.

(** [bread] returns a locked buffer with the contents of the block: what was
    logged for it, else what is on disk.  It needs a buffer that is neither
    held nor pinned, and a block that the process does not hold already. *)
Lemma bread_spec s D H b :
  cache s D H -> 0 <= b < nblocks -> (size D + size H < NBUF)%nat ->
  (forall j, j ∈ H -> block_of s j <> b) ->
  exists i s', bread 1 b s = Ret i s' /\ got s s' D H b i.
Proof.
  intros I Hb Hsz Hnot.
  destruct (decide (Exists (fun i => dev (bufs s !!! i) = 1 /\ block_of s i = b) (seq 0 NBUF))) as [Hex|Hno].
  - apply Exists_exists in Hex as (i & Hi & Hd & Hbi). apply elem_of_seq in Hi. exists i.
    apply bread_hit; [done | by split_and!; [lia | |] |]. intros HiH. by apply (Hnot i HiH).
  - apply bread_miss; try done. intros i (Hi & Hd & Hbi). apply Hno, Exists_exists. exists i.
    split; [apply elem_of_seq; lia | done].
Qed.

Lemma held_other s D H i j :
  cache s D H -> i ∈ H -> (j < NBUF)%nat -> j <> i -> dev (bufs s !!! j) = 1 ->
  block_of s j <> block_of s i.
Proof.
  intros I Hi. destruct (k_held _ _ _ I i Hi) as (Hlt & _ & _ & Hd & _).
  by apply (other_block s D H (block_of s i) i j).
Qed.

(** The holder of a buffer changes its contents in memory. *)
Lemma set_data_spec s D H i d :
  cache s D H -> i ∈ H -> length d = BSIZE ->
  exists s', updb i (set_data d) s = Ret tt s' /\ cache s' D H /\ only i s s' /\
    block_of s' i = block_of s i /\ bufs s' !!! i = set_data d (bufs s !!! i).
Proof.
  intros I Hi Hd. destruct (k_held _ _ _ I i Hi) as (Hlt & H1 & H2 & H3 & H4 & H5).
  assert (i < length (bufs s))%nat as Hil by (rewrite (k_len _ _ _ I); done).
  eexists. split; [reflexivity|]. rewrite alter_as_insert by done. split; [|split; [apply only_insert|]].
  - apply (cache_buf s D H D); try done.
    + intros Hs. split; [done|]. destruct H5 as [[_ Hn]|[? _]]; [|done].
      change (blockno _) with (block_of s i) in Hs. rewrite Hn in Hs. by destruct Hs.
    + intros j. by eapply held_other.
  - unfold block_of. cbn. by rewrite insert_at.
Qed.

(** The log pins a held buffer with its present contents. *)
Lemma pin_spec s D H i :
  cache s D H -> i ∈ H ->
  exists s', updb i (fun b => set_flags (Z.lor (flags b) B_DIRTY) b) s = Ret tt s' /\
    cache s' (<[block_of s i := data (bufs s !!! i)]> D) H /\ only i s s' /\
    bufs s' !!! i = set_flags 6 (bufs s !!! i).
Proof.
  intros I Hi. destruct (k_held _ _ _ I i Hi) as (Hlt & H1 & H2 & H3 & H4 & H5).
  assert (i < length (bufs s))%nat as Hil by (rewrite (k_len _ _ _ I); done).
  eexists. split; [reflexivity|]. rewrite alter_as_insert by done.
  assert (Z.lor (flags (bufs s !!! i)) B_DIRTY = 6) as -> by (destruct H5 as [[-> _]|[-> _]]; done).
  split; [|split; [apply only_insert|]].
  - apply (cache_buf s D H); try done; cbn.
    + intros b Hb. by rewrite lookup_insert_ne.
    + apply I.
    + intros _. repeat split; try done; try apply H4. cbn. right. rewrite lookup_insert_eq. eauto.
    + intros j. by eapply held_other.
  - cbn. by apply insert_at.
Qed.

(** [bwrite] writes the contents of a held buffer to its block; the block is
    no longer pinned. *)
Lemma bwrite_spec s D H i :
  cache s D H -> i ∈ H ->
  exists s', bwrite i s = Ret tt s' /\ cache s' (delete (block_of s i) D) H /\
    disk s' = <[Z.to_nat (block_of s i) := data (bufs s !!! i)]> (disk s) /\
    trace s' = trace s ++ [(block_of s i, data (bufs s !!! i))] /\ cur s' = cur s /\
    (forall j, j <> i -> bufs s' !!! j = bufs s !!! j) /\
    bufs s' !!! i = set_flags 2 (bufs s !!! i).
Proof.
  intros I Hi. destruct (k_held _ _ _ I i Hi) as (Hlt & H1 & H2 & H3 & H4 & H5).
  assert (i < length (bufs s))%nat as Hil by (rewrite (k_len _ _ _ I); done).
  unfold bwrite. rewrite (bind_ret _ _ _ _ _ (holding_buf_eq i s H1)). cbn [negb].
  unfold bind, updb, modify. rewrite alter_as_insert by done.
  assert (Z.lor (flags (bufs s !!! i)) B_DIRTY = 6) as -> by (destruct H5 as [[-> _]|[-> _]]; done).
  set (x := set_flags 6 (bufs s !!! i)). set (s1 := set_bufs (<[i := x]> (bufs s)) s).
  assert (bufs s1 !!! i = x) as Hx by by apply insert_at.
  rewrite (iderw_write i s1).
  2: cbn; by rewrite length_insert. 2: by rewrite Hx. 2: by rewrite Hx.
  2: { rewrite Hx. by apply refuses_not. }
  unfold block_of at 1. rewrite !Hx. cbn [bufs s1 set_bufs].
  rewrite alter_as_insert by (rewrite length_insert; done). rewrite insert_at by done.
  unfold set_bufs. cbn [bufs b_lock nxt prv disk trace cur]. rewrite list_insert_insert_eq.
  assert (Z.to_nat (block_of s i) < length (disk s))%nat as Hbl by (pose proof (k_disk _ _ _ I); lia).
  eexists. split; [reflexivity|]. split_and!; try done.
  - eapply (cache_change s D H); try done; try exact (k_lock _ _ _ I); try exact (k_links _ _ _ I); cbn.
    + by rewrite length_insert.
    + intros b Hb. destruct (decide (0 <= b)); [left | right; lia]. apply insert_ne.
      change (blockno (bufs s !!! i)) with (block_of s i) in *. lia.
    + rewrite insert_at by done. apply I.
    + intros b Hb. apply lookup_delete_ne. done.
    + apply I.
    + intros _. repeat split; try done; try apply H4. left. split; [done|]. apply lookup_delete_eq.
    + change (blockno (bufs s !!! i)) with (block_of s i). rewrite lookup_delete_eq. by intros [].
    + intros j. by eapply held_other.
  - intros j Hj. cbn. apply insert_ne. congruence.
  - cbn. by apply insert_at.
Qed.

(** [brelse] gives back a buffer whose contents are on disk or logged. *)
Lemma brelse_spec s D H i :
  cache s D H -> i ∈ H -> data (bufs s !!! i) = view s D (block_of s i) ->
  exists ch s', brelse i s = Ret ch s' /\ cache s' D (H ∖ {[i]}) /\ only i s s' /\
    (exists l1 l2, links_ok (nxt s) (prv s) (l1 ++ i :: l2) /\ links_ok (nxt s') (prv s') (i :: l1 ++ l2)).
Proof.
  intros I Hi Hdata. destruct (k_held _ _ _ I i Hi) as (Hlt & H1 & H2 & H3 & H4 & H5).
  assert (i < length (bufs s))%nat as Hil by (rewrite (k_len _ _ _ I); done).
  destruct (k_links _ _ _ I) as [l Hl].
  destruct (to_front_links s l i Hl Hlt) as (l1 & l2 & -> & Hl').
  unfold Bio.brelse. rewrite (bind_ret _ _ _ _ _ (holding_buf_eq i s H1)). cbn [negb].
  unfold bind at 1. rewrite (on_lock_Ret i _ s (lock_addr i) unheld) by by rewrite H1.
  unfold bind at 1, acquire_b. cbn [b_lock set_bufs]. rewrite (k_lock _ _ _ I).
  unfold bind at 1, updb, modify. unfold bind at 1, getb, reads.
  cbn [bufs set_bufs set_block_lock b_lock nxt prv disk trace cur].
  rewrite alter_compose, alter_as_insert by done. rewrite insert_at by done.
  cbn [refcnt set_refcnt set_lock]. rewrite H2. change (u32 (1 - 1)) with 0. cbn [Z.eqb when].
  unfold bind at 1, modify, bind, release_b, ret.
  cbn [b_lock to_front set_links set_bufs set_block_lock].
  eexists _, _. split; [reflexivity|].
  set (x := set_refcnt 0 (set_lock unheld (bufs s !!! i))).
  split; [|split].
  - eapply (cache_change s D H _ _ _ i x); try done; try exact (k_lock _ _ _ I); try exact (k_data _ _ _ I i);
      try exact (k_disk_len _ _ _ I _ H4).
    + exists (i :: l1 ++ l2). exact Hl'.
    + by left.
    + set_solver.
    + set_solver.
    + intros _. split; [done|]. split; [done|]. right. split; [done|]. split; [done|].
      unfold view in Hdata. destruct H5 as [[Hf Hn]|[Hf [d Hd]]].
      * left. split; [done|]. split; [done|]. by rewrite Hn in Hdata.
      * right. split; [done|]. change (blockno x) with (block_of s i). rewrite Hd in *. by f_equal.
    + intros Hs. split; [done|]. destruct H5 as [[_ Hn]|[? _]]; [|done].
      change (blockno x) with (block_of s i) in Hs. rewrite Hn in Hs. by destruct Hs.
    + intros j. by eapply held_other.
  - split_and!; try done. intros j Hj. cbn. apply insert_ne. congruence.
  - exists l1, l2. split; [exact Hl | exact Hl'].
Qed.

(** [bread] of a block that no buffer in [H] is for: there is a buffer to
    recycle, or the block is pinned and so cached. *)
Lemma bread_any s D H b :
  cache s D H -> 0 <= b < nblocks -> (size D + size H < NBUF)%nat \/ is_Some (D !! b) ->
  (forall j, j ∈ H -> block_of s j <> b) ->
  exists i s', bread 1 b s = Ret i s' /\ got s s' D H b i.
Proof.
  intros I Hb [Hsz|Hp] Hnot; [by apply bread_spec|].
  destruct (k_pinned _ _ _ I b Hp) as (i & Hi & Hd & Hbi & _). exists i.
  apply bread_hit; [done.. |]. intros Hin. by apply (Hnot i Hin).
Qed.

(** Two blocks read one after the other. *)
Lemma bread_two s D a b :
  cache s D ∅ -> 0 <= a < nblocks -> 0 <= b < nblocks -> a <> b -> (size D < NBUF)%nat ->
  (S (size D) < NBUF)%nat \/ is_Some (D !! b) ->
  exists i j s1 s2, bread 1 a s = Ret i s1 /\ bread 1 b s1 = Ret j s2 /\ i <> j /\
    cache s2 D ({[j]} ∪ {[i]}) /\ disk s2 = disk s /\ trace s2 = trace s /\ cur s2 = cur s /\
    block_of s2 i = a /\ block_of s2 j = b /\
    data (bufs s2 !!! i) = view s D a /\ data (bufs s2 !!! j) = view s D b.
Proof.
  intros I Ha Hb Hab Hsz Hsz2.
  destruct (bread_any s D ∅ a I Ha) as (i & s1 & E1 & Hg1);
    [rewrite size_empty; left; lia | set_solver |].
  destruct Hg1 as (_ & Hi & I1 & (Hdk1 & Htr1 & Hcur1 & Ho1) & Hbi & Hdi).
  rewrite union_empty_r_L in I1.
  destruct (bread_any s1 D {[i]} b I1 Hb) as (j & s2 & E2 & Hg2).
  { rewrite size_singleton. destruct Hsz2; [left; lia | by right]. }
  { intros k ->%elem_of_singleton. congruence. }
  destruct Hg2 as (Hj & Hjl & I2 & (Hdk2 & Htr2 & Hcur2 & Ho2) & Hbj & Hdj).
  assert (i <> j) as Hij by set_solver.
  exists i, j, s1, s2. unfold view, block_of in *.
  rewrite (Ho2 i Hij), Hdk2, Hdk1, Htr2, Htr1, Hcur2, Hcur1, Hdj, Hdk1, Hbj. done.
Qed.

(** The two buffers of a copy, [src] clean or pinned with what the disk or
    the log has, [dst] written through, are released. *)
Lemma write_release s D i j d :
  cache s D ({[j]} ∪ {[i]}) -> i <> j -> length d = BSIZE ->
  data (bufs s !!! j) = view s D (block_of s j) -> block_of s i <> block_of s j ->
  exists s1 s2, updb i (set_data d) s = Ret tt s1 /\ bwrite i s1 = Ret tt s2 /\
    disk s2 = <[Z.to_nat (block_of s i) := d]> (disk s) /\
    trace s2 = trace s ++ [(block_of s i, d)] /\ cur s2 = cur s /\
    (exists c1 s3 c2 s4, brelse j s2 = Ret c1 s3 /\ brelse i s3 = Ret c2 s4 /\
      cache s4 (delete (block_of s i) D) ∅ /\ disk s4 = disk s2 /\ trace s4 = trace s2 /\ cur s4 = cur s2) /\
    (exists c1 s3 c2 s4, brelse i s2 = Ret c1 s3 /\ brelse j s3 = Ret c2 s4 /\
      cache s4 (delete (block_of s i) D) ∅ /\ disk s4 = disk s2 /\ trace s4 = trace s2 /\ cur s4 = cur s2).
Proof.
  intros I Hij Hd Hj Hne.
  destruct (set_data_spec s D _ i d I ltac:(set_solver) Hd) as (s1 & E1 & I1 & Ho1 & Hb1 & Hx1).
  destruct (bwrite_spec s1 D _ i I1 ltac:(set_solver)) as (s2 & E2 & I2 & Hdk2 & Htr2 & Hc2 & Ho2 & Hx2).
  destruct Ho1 as (Hdk1 & Htr1 & Hc1 & Ho1).
  exists s1, s2. rewrite Hb1, Hx1 in *. cbn [set_data data] in *.
  assert (block_of s2 i = block_of s i) as Hbi by by unfold block_of; rewrite Hx2.
  assert (bufs s2 !!! j = bufs s !!! j) as Hbj by (rewrite Ho2, Ho1 by congruence; done).
  assert (0 <= block_of s i < nblocks) as Hri by by apply (k_held _ _ _ I i ltac:(set_solver)).
  assert (0 <= block_of s j < nblocks) as Hrj by by apply (k_held _ _ _ I j ltac:(set_solver)).
  assert (Z.to_nat (block_of s i) < length (disk s))%nat as Hlt by (pose proof (k_disk _ _ _ I); lia).
  assert (data (bufs s2 !!! i) = view s2 (delete (block_of s i) D) (block_of s2 i)) as Hvi.
  { rewrite Hbi. unfold view. rewrite lookup_delete_eq, Hdk2, Hdk1, Hx2. cbn. by rewrite insert_at. }
  assert (data (bufs s2 !!! j) = view s2 (delete (block_of s i) D) (block_of s2 j)) as Hvj.
  { unfold block_of at 2. rewrite Hbj, Hj. unfold view, block_of in *. rewrite lookup_delete_ne by done.
    rewrite Hdk2, Hdk1, insert_ne by lia. done. }
  split_and!; try done; [congruence.. | |].
  - destruct (brelse_spec s2 _ _ j I2 ltac:(set_solver) Hvj) as (c1 & s3 & E3 & I3 & (A1 & A2 & A3 & A4) & _).
    destruct (brelse_spec s3 _ _ i I3 ltac:(set_solver)) as (c2 & s4 & E4 & I4 & (B1 & B2 & B3 & B4) & _).
    { unfold view, block_of in *. by rewrite A4, A1 by congruence. }
    exists c1, s3, c2, s4. split_and!; try done; try congruence.
    eapply (eq_rect _ (cache s4 _) I4). set_solver.
  - destruct (brelse_spec s2 _ _ i I2 ltac:(set_solver) Hvi) as (c1 & s3 & E3 & I3 & (A1 & A2 & A3 & A4) & _).
    destruct (brelse_spec s3 _ _ j I3 ltac:(set_solver)) as (c2 & s4 & E4 & I4 & (B1 & B2 & B3 & B4) & _).
    { unfold view, block_of in *. by rewrite A4, A1 by congruence. }
    exists c1, s3, c2, s4. split_and!; try done; try congruence.
    eapply (eq_rect _ (cache s4 _) I4). set_solver.
Qed.

(** [binit] on the zeroed memory: the buffers in one circle, the last one in
    front. *)
Lemma binit_eq d pid : exists n p,
  binit (zero_bst d pid) = mk_bst false (replicate NBUF zero_buf) n p d [] pid /\
  links_ok n p (rev (seq 0 NBUF)).
Proof.
  eexists _, _. split; [by vm_compute|].
  split_and!; [done | done | by rewrite <- Permutation_rev | by vm_compute].
Qed.

Lemma binit_keeps d pid :
  disk (binit (zero_bst d pid)) = d /\ trace (binit (zero_bst d pid)) = [] /\ cur (binit (zero_bst d pid)) = pid.
Proof. by destruct (binit_eq d pid) as (n & p & -> & _). Qed.

(** [binit] leaves an empty cache. *)
Lemma binit_cache d pid :
  nblocks <= Z.of_nat (length d) ->
  (forall b, 0 <= b < nblocks -> length (d !!! Z.to_nat b) = BSIZE) ->
  cache (binit (zero_bst d pid)) ∅ ∅.
Proof.
  intros Hd Hl. destruct (binit_eq d pid) as (n & p & -> & Hlk).
  assert (forall i, replicate NBUF zero_buf !!! i = zero_buf) as Hz.
  { intros i. destruct (decide (i < NBUF)%nat) as [Hi|Hi].
    - by rewrite (list_lookup_total_correct _ _ zero_buf) by by apply lookup_replicate_2.
    - by rewrite lookup_total_ge by (rewrite length_replicate; lia). }
  split; unfold block_of; cbn [bufs b_lock nxt prv disk cur]; intros; rewrite ?Hz in *.
  - done.
  - apply length_replicate.
  - by eexists.
  - done.
  - by apply Hl.
  - apply length_replicate.
  - set_solver.
  - split_and!; [done.. | by left].
  - done.
  - rewrite lookup_empty in H. by destruct H.
Qed.
(** ** Whole reads and writes *)

(** A block is read and released. *)
Lemma read_block_run t D b :
  cache t D ∅ -> 0 <= b < nblocks -> (size D < NBUF)%nat ->
  exists i t1 ch t2, bread 1 b t = Ret i t1 /\ data (bufs t1 !!! i) = view t D b /\
    brelse i t1 = Ret ch t2 /\ cache t2 D ∅ /\
    disk t2 = disk t /\ trace t2 = trace t /\ cur t2 = cur t.
Proof.
  intros I Hb Hsz.
  destruct (bread_any t D ∅ b I Hb) as (i & t1 & E1 & _ & Hi & I1 & (Hdk & Htr & Hcu & _) & Hbi & Hdi);
    [rewrite size_empty; left; lia | set_solver |].
  rewrite union_empty_r_L in I1.
  destruct (brelse_spec t1 D {[i]} i I1 ltac:(set_solver)) as (ch & t2 & E2 & I2 & (Hdk2 & Htr2 & Hcu2 & _) & _).
  { rewrite Hdi, Hbi. unfold view. by rewrite Hdk. }
  exists i, t1, ch, t2. rewrite difference_diag_L in I2. split_and!; try done; congruence.
Qed.

Lemma updb_data i (f : list Z -> list Z) t :
  updb i (fun b => set_data (f (data b)) b) t = updb i (set_data (f (data (bufs t !!! i)))) t.
Proof.
  unfold updb, modify. do 2 f_equal. apply alter_cong. intros b Hb.
  by rewrite (list_lookup_total_correct _ _ _ Hb).
Qed.

(** A block is read, changed, written through and released. *)
Lemma rewrite_block_run t D b f :
  cache t D ∅ -> 0 <= b < nblocks -> (size D < NBUF)%nat -> D !! b = None ->
  length (f (disk t !!! Z.to_nat b)) = BSIZE ->
  let c := f (disk t !!! Z.to_nat b) in
  exists i t1 t2 t3 ch t4, bread 1 b t = Ret i t1 /\
    updb i (fun b => set_data (f (data b)) b) t1 = Ret tt t2 /\ bwrite i t2 = Ret tt t3 /\
    brelse i t3 = Ret ch t4 /\ cache t4 D ∅ /\ disk t4 = <[Z.to_nat b := c]> (disk t) /\
    trace t4 = trace t ++ [(b, c)] /\ cur t4 = cur t.
Proof.
  intros I Hb Hsz HD Hf c.
  destruct (bread_any t D ∅ b I Hb) as (i & t1 & E1 & _ & Hi & I1 & (Hdk & Htr & Hcu & _) & Hbi & Hdi);
    [rewrite size_empty; left; lia | set_solver |].
  rewrite union_empty_r_L in I1. unfold view in Hdi. rewrite HD in Hdi. cbn in Hdi.
  destruct (set_data_spec t1 D {[i]} i c I1 ltac:(set_solver) Hf) as (t2 & E2 & I2 & (Hdk2 & Htr2 & Hcu2 & _) & Hb2 & Hx2).
  destruct (bwrite_spec t2 D {[i]} i I2 ltac:(set_solver)) as (t3 & E3 & I3 & Hdk3 & Htr3 & Hcu3 & _ & Hx3).
  rewrite Hb2, Hx2, Hbi in *. cbn [data set_data] in *. rewrite delete_id in I3 by done.
  assert (block_of t3 i = b) as Hb3 by (unfold block_of in *; rewrite Hx3; cbn; done).
  destruct (brelse_spec t3 D {[i]} i I3 ltac:(set_solver)) as (ch & t4 & E4 & I4 & (Hdk4 & Htr4 & Hcu4 & _) & _).
  { rewrite Hb3, Hx3. unfold view. rewrite HD, Hdk3, insert_at; [done|]. rewrite Hdk2, Hdk. pose proof (k_disk _ _ _ I). lia. }
  exists i, t1, t2, t3, ch, t4. rewrite difference_diag_L in I4. rewrite updb_data, Hdi.
  split_and!; try done; try congruence.
Qed.

(** A client of the cache that reads and writes whole blocks. *)
Inductive command := Read (b : Z) | Write (b : Z) (d : list Z).

Definition do_command (c : command) : M bst (list Z) :=
  match c with
  | Read b =>
      let! i := bread 1 b in
      let! x := getb i in
      brelse i ;;
      ret (data x)
  | Write b d =>
      let! i := bread 1 b in
      updb i (fun x => set_data d x) ;;
      bwrite i ;;
      brelse i ;;
      ret d
  end.
Fixpoint do_commands (cs : list command) : M bst (list (list Z)) :=
  match cs with
  | [] => ret []
  | c :: cs =>
      let! d := do_command c in
      let! ds := do_commands cs in
      ret (d :: ds)
  end.

(** The same on an array of blocks. *)
Definition spec_command (c : command) (dk : list (list Z)) : list Z * list (list Z) :=
  match c with
  | Read b => (dk !!! Z.to_nat b, dk)
  | Write b d => (d, <[Z.to_nat b := d]> dk)
  end.
Fixpoint spec_commands (cs : list command) (dk : list (list Z)) : list (list Z) * list (list Z) :=
  match cs with
  | [] => ([], dk)
  | c :: cs =>
      let '(d, dk1) := spec_command c dk in
      let '(ds, dk2) := spec_commands cs dk1 in
      (d :: ds, dk2)
  end.
Definition command_ok (c : command) : Prop :=
  match c with
  | Read b => 0 <= b < nblocks
  | Write b d => 0 <= b < nblocks /\ length d = BSIZE
  end.

Lemma do_command_spec c s :
  cache s ∅ ∅ -> command_ok c ->
  exists s', do_command c s = Ret (spec_command c (disk s)).1 s' /\ cache s' ∅ ∅ /\
    disk s' = (spec_command c (disk s)).2.
Proof.
  intros I Hc. destruct c as [b|b d]; cbn [spec_command fst snd].
  - destruct (read_block_run s ∅ b I Hc) as (i & s1 & ch & s2 & E1 & Hd & E2 & I2 & Hdk & _);
      [rewrite map_size_empty; unfold NBUF; lia|].
    exists s2. split; [|done]. unfold do_command. rewrite (bind_ret _ _ _ _ _ E1).
    unfold getb, reads. unfold bind at 1. rewrite (bind_ret _ _ _ _ _ E2), Hd. done.
  - destruct Hc as [Hb Hl].
    destruct (rewrite_block_run s ∅ b (fun _ => d) I Hb) as (i & s1 & s2 & s3 & ch & s4 & E1 & E2 & E3 & E4 & I4 & Hdk & _);
      [rewrite map_size_empty; unfold NBUF; lia | done | done |].
    exists s4. split; [|done]. unfold do_command.
    by rewrite (bind_ret _ _ _ _ _ E1), (bind_ret _ _ _ _ _ E2), (bind_ret _ _ _ _ _ E3), (bind_ret _ _ _ _ _ E4).
Qed.

(** C9: through the buffer cache the disk is an array of blocks: from an empty
    cache any sequence of reads and writes of whole blocks runs without
    panicking or sleeping, every read returns what was last written to its
    block, whatever the cache recycled in between, and the disk ends as the
    array does. *)
Theorem bcache_refines cs d pid :
  nblocks <= Z.of_nat (length d) -> (forall b, 0 <= b < nblocks -> length (d !!! Z.to_nat b) = BSIZE) ->
  Forall command_ok cs ->
  exists s', do_commands cs (binit (zero_bst d pid)) = Ret (spec_commands cs d).1 s' /\
    disk s' = (spec_commands cs d).2.
Proof.
  intros Hn Hl Hcs. pose proof (binit_cache d pid Hn Hl) as I. destruct (binit_keeps d pid) as [Hd _].
  revert I Hd. generalize (binit (zero_bst d pid)). intros s I Hd. rewrite <- Hd. clear Hn Hl Hd d pid.
  revert s I. induction Hcs as [|c cs Hc _ IH]; intros s I; cbn [do_commands spec_commands].
  - by exists s.
  - destruct (do_command_spec c s I Hc) as (s1 & E1 & I1 & Hd1).
    destruct (spec_command c (disk s)) as [x dk1]. cbn [fst snd] in *.
    destruct (IH s1 I1) as (s2 & E2 & Hd2). rewrite Hd1 in *.
    destruct (spec_commands cs dk1) as [ds dk2]. cbn [fst snd] in *.
    exists s2. split; [|done]. by rewrite (bind_ret _ _ _ _ _ E1), (bind_ret _ _ _ _ _ E2).
Qed.

(** [bget] recycles the buffer that has been unused for longest: on a miss
    it takes, of the buffers that are neither referenced nor dirty, the one
    furthest back in the list, to whose front [brelse] moves the buffer that
    is released. *)
Theorem bget_recycles_lru s D H b l i s' :
  cache s D H -> links_ok (nxt s) (prv s) l -> (forall j, ~ cached s b j) -> bget 1 b s = Ret i s' ->
  exists l1 l2, l = l1 ++ i :: l2 /\ is_free (bufs s !!! i) = true /\
    (forall j, j ∈ l2 -> is_free (bufs s !!! j) = false) /\
    forall s2 D2 H2, cache s2 D2 H2 -> i ∈ H2 -> nxt s2 = nxt s -> prv s2 = prv s ->
      data (bufs s2 !!! i) = view s2 D2 (block_of s2 i) ->
      exists ch s3, brelse i s2 = Ret ch s3 /\ links_ok (nxt s3) (prv s3) (i :: l1 ++ l2).
Proof.
  intros I Hl Hno E. unfold Bio.bget, bind at 1, acquire_b in E. rewrite (k_lock _ _ _ I) in E.
  unfold bind at 1, get in E. cbn [nxt prv bufs set_block_lock] in E.
  rewrite (proj1 (links_scan _ _ l (fun j => is_block 1 b (bufs s !!! j)) Hl)) in E.
  rewrite (proj2 (links_scan _ _ l (fun j => is_free (bufs s !!! j)) Hl)) in E.
  pose proof (find_total (fun j => is_block 1 b (bufs s !!! j)) l) as Hfind.
  destruct (List.find _ l) as [j|].
  { destruct Hfind as [Hjl Hj%is_block_spec]. apply (links_lt _ _ _ _ Hl) in Hjl. by destruct (Hno j). }
  destruct (List.find _ (rev l)) as [j|] eqn:Hf; [|done].
  assert (j = i) as ->.
  { apply bind_Ret in E as (? & ? & _ & E). apply bind_Ret in E as (? & ? & _ & E).
    apply bind_Ret in E as (? & ? & _ & E). by injection E. }
  destruct (find_rev_last _ _ _ Hf) as (l1 & l2 & -> & Hi & H2). exists l1, l2. split; [done|].
  split; [done|]. split; [done|]. intros s2 D2 H2' I2 Hin Hn Hp Hd.
  destruct (brelse_spec s2 D2 H2' i I2 Hin Hd) as (ch & s3 & E3 & _ & _ & (m1 & m2 & Hm & Hm')).
  exists ch, s3. split; [done|]. rewrite Hn, Hp in Hm.
  destruct (links_split_unique _ _ _ _ _ _ _ Hl Hm) as [-> ->]. done.
Qed.
End cache.

(** A disk of two blocks. *)
Definition two_blocks : list (list Z) := [replicate BSIZE 0; replicate BSIZE 1].

Lemma two_blocks_len b : 0 <= b < @nblocks (memide 1024) -> length (two_blocks !!! Z.to_nat b) = BSIZE.
Proof.
  change (@nblocks (memide 1024)) with 2. intros Hb. assert (b = 0 \/ b = 1) as [-> | ->] by lia; by vm_compute.
Qed.

Lemma bcache_refines_witness :
  Forall (@command_ok (memide 1024)) [Write 1 (replicate BSIZE 7); Read 1; Read 0] /\
  exists s', @do_commands (fun i => Z.of_nat i) (memide 1024) [Write 1 (replicate BSIZE 7); Read 1; Read 0]
      (binit (zero_bst two_blocks 1)) = Ret [replicate BSIZE 7; replicate BSIZE 7; replicate BSIZE 0] s'.
Proof.
  assert (Forall (@command_ok (memide 1024)) [Write 1 (replicate BSIZE 7); Read 1; Read 0]) as Hok.
  { repeat constructor; cbn; change (memide_disksize 1024) with 2; try lia. }
  split; [exact Hok|].
  destruct (@bcache_refines (fun i => Z.of_nat i) (memide 1024) _ two_blocks 1 ltac:(by vm_compute) two_blocks_len Hok)
    as (s' & E & _). exists s'. exact E.
Defined.

Lemma bget_recycles_lru_witness :
  exists i s', @bget (fun i => Z.of_nat i) 1 1 (binit (zero_bst two_blocks 1)) = Ret i s' /\
  exists l1 l2, rev (seq 0 NBUF) = l1 ++ i :: l2 /\
    is_free (bufs (binit (zero_bst two_blocks 1)) !!! i) = true.
Proof.
  pose proof (@binit_cache (memide 1024) two_blocks 1 ltac:(by vm_compute) two_blocks_len) as I.
  destruct (binit_eq two_blocks 1) as (n & p & E & Hl).
  assert (forall j, ~ cached (binit (zero_bst two_blocks 1)) 1 j) as Hno.
  { intros j (Hj & Hd & _). rewrite E in Hd. cbn [bufs] in Hd.
    rewrite (list_lookup_total_correct _ _ zero_buf) in Hd by by apply lookup_replicate_2. done. }
  destruct (@bget_miss (fun i => Z.of_nat i) (memide 1024) _ ∅ ∅ 1 I Hno) as (i & _ & _ & _ & Eg).
  { rewrite map_size_empty, size_empty. unfold NBUF. lia. }
  eexists i, _. split; [exact Eg|].
  destruct (@bget_recycles_lru (fun i => Z.of_nat i) (memide 1024) _ ∅ ∅ 1 (rev (seq 0 NBUF)) i _ I
    ltac:(rewrite E; exact Hl) Hno Eg) as (l1 & l2 & H1 & H2 & _).
  exists l1, l2. split; [exact H1 | exact H2].
Defined.
