(* ===== verification/Log.v ===== *)
(** * The log (log.c, and [readsb] of fs.c)

    The state is [struct log] beside the buffer cache and the disk.  The
    counted loops run over [log.lh.n], which their bodies do not change.
    [struct logheader] is 31 little-endian words at the start of the header
    block.  [sleep(&log, &log.lock)] is [Sleep]: the lock is released, and a
    process that wakes up runs [begin_check] again with the lock taken. *)

From S2P Require Import Prelude Sleeplock Bio.

Definition MAXOPBLOCKS : Z := 10.
Definition LOGSIZE : Z := MAXOPBLOCKS * 3.

Record log := mk_log {
  l_lock : bool;
  l_start : Z;
  l_size : Z;
  l_outstanding : Z;
  l_committing : bool;
  l_dev : Z;
  lh_n : Z;
  lh_block : list Z;    (* int block[LOGSIZE] *)
}.

Definition set_llock v l := mk_log v (l_start l) (l_size l) (l_outstanding l) (l_committing l) (l_dev l) (lh_n l) (lh_block l).
Definition set_outstanding v l := mk_log (l_lock l) (l_start l) (l_size l) v (l_committing l) (l_dev l) (lh_n l) (lh_block l).
Definition set_committing v l := mk_log (l_lock l) (l_start l) (l_size l) (l_outstanding l) v (l_dev l) (lh_n l) (lh_block l).
Definition set_n v l := mk_log (l_lock l) (l_start l) (l_size l) (l_outstanding l) (l_committing l) (l_dev l) v (lh_block l).
Definition set_block v l := mk_log (l_lock l) (l_start l) (l_size l) (l_outstanding l) (l_committing l) (l_dev l) (lh_n l) v.

(** [log] before [initlog]. *)
Definition zero_log : log := mk_log false 0 0 0 false 0 0 (replicate (Z.to_nat LOGSIZE) 0).

Record lst := mk_lst { lg : log; bc : bst }.
Definition set_lg l (s : lst) := mk_lst l (bc s).
Definition set_bc b (s : lst) := mk_lst (lg s) b.
Definition bio {A} (m : M bst A) : M lst A := zoom bc set_bc m.
Definition logm {A} (m : M log A) : M lst A := zoom lg set_lg m.

(** ** The header block *)

Fixpoint put_blocks (bl : list Z) (i : nat) (d : list Z) : list Z :=
  match bl with
  | [] => d
  | b :: bl => put_blocks bl (S i) (set32 d (4 + 4 * i) (u32 b))
  end.
(** [hb->n = n; for(i ...) hb->block[i] = block[i]] *)
Definition put_header (n : Z) (bl : list Z) (d : list Z) : list Z :=
  put_blocks (take (Z.to_nat n) bl) 0 (set32 d 0 (u32 n)).
Definition header_n (d : list Z) : Z := i32 (get32 d 0).
Definition header_block (d : list Z) (i : Z) : Z := i32 (get32 d (Z.to_nat (4 + 4 * i))).

(** ** [struct superblock] *)

Record superblock := mk_superblock {
  sb_size : Z; sb_nblocks : Z; sb_ninodes : Z; sb_nlog : Z;
  sb_logstart : Z; sb_inodestart : Z; sb_bmapstart : Z;
}.
Definition superblock_of (d : list Z) : superblock :=
  mk_superblock (get32 d 0) (get32 d 4) (get32 d 8) (get32 d 12) (get32 d 16) (get32 d 20) (get32 d 24).

Section log.
Context (lock_addr : nat -> Z) `{DR : Driver}.
(** The address of [log], the channel of its sleepers. *)
Variable log_addr : Z.

Definition readsb (dev : Z) : M lst superblock :=
  let! bp := bio (bread lock_addr dev 1) in
  let! b := bio (getb bp) in
  bio (brelse lock_addr bp) ;;
  ret (superblock_of (data b)).

(** ** Copying blocks between the log and their home *)

Definition block_at (tail : Z) : M lst Z :=
  let! l := reads lg in
  if (0 <=? tail) && (tail <? LOGSIZE) then ret (lh_block l !!! Z.to_nat tail) else undefined.

Definition install_trans_body (tail : Z) : M lst unit :=
  let! l := reads lg in
  let! lbuf := bio (bread lock_addr (u32 (l_dev l)) (u32 (l_start l + tail + 1))) in
  let! h := block_at tail in
  let! dbuf := bio (bread lock_addr (u32 (l_dev l)) (u32 h)) in
  let! b := bio (getb lbuf) in
  bio (updb dbuf (set_data (data b))) ;;
  bio (bwrite dbuf) ;;
  bio (brelse lock_addr lbuf) ;;
  bio (brelse lock_addr dbuf) ;;
  ret tt.
Definition install_trans : M lst unit :=
  let! l := reads lg in for_ (Z.to_nat (lh_n l)) 0 install_trans_body.

Definition write_log_body (tail : Z) : M lst unit :=
  let! l := reads lg in
  let! to := bio (bread lock_addr (u32 (l_dev l)) (u32 (l_start l + tail + 1))) in
  let! h := block_at tail in
  let! from := bio (bread lock_addr (u32 (l_dev l)) (u32 h)) in
  let! b := bio (getb from) in
  bio (updb to (set_data (data b))) ;;
  bio (bwrite to) ;;
  bio (brelse lock_addr from) ;;
  bio (brelse lock_addr to) ;;
  ret tt.
Definition write_log : M lst unit :=
  let! l := reads lg in for_ (Z.to_nat (lh_n l)) 0 write_log_body.

(** ** The header *)

Definition read_head_body (d : list Z) (i : Z) : M lst unit :=
  if i <? LOGSIZE then
    logm (modify (fun l => set_block (aset (lh_block l) i (header_block d i)) l))
  else undefined.
Definition read_head : M lst unit :=
  let! l := reads lg in
  let! bf := bio (bread lock_addr (u32 (l_dev l)) (u32 (l_start l))) in
  let! b := bio (getb bf) in
  logm (modify (set_n (header_n (data b)))) ;;
  for_ (Z.to_nat (header_n (data b))) 0 (read_head_body (data b)) ;;
  bio (brelse lock_addr bf) ;;
  ret tt.

Definition write_head : M lst unit :=
  let! l := reads lg in
  let! bf := bio (bread lock_addr (u32 (l_dev l)) (u32 (l_start l))) in
  (if LOGSIZE <? lh_n l then undefined else ret tt) ;;
  bio (updb bf (fun b => set_data (put_header (lh_n l) (lh_block l) (data b)) b)) ;;
  bio (bwrite bf) ;;
  bio (brelse lock_addr bf) ;;
  ret tt.

Definition recover_from_log : M lst unit :=
  read_head ;;
  install_trans ;;
  logm (modify (set_n 0)) ;;
  write_head.

Definition initlog (dev : Z) : M lst unit :=
  (if Z.of_nat BSIZE <=? 4 * (1 + LOGSIZE) then panic "initlog: too big logheader" else ret tt) ;;
  logm (modify (set_llock false)) ;;
  let! sb := readsb dev in
  logm (modify (fun l => mk_log (l_lock l) (i32 (sb_logstart sb)) (i32 (sb_nlog sb))
    (l_outstanding l) (l_committing l) dev (lh_n l) (lh_block l))) ;;
  recover_from_log.

Definition commit : M lst unit :=
  let! l := reads lg in
  when (0 <? lh_n l)
    (write_log ;;
     write_head ;;
     install_trans ;;
     logm (modify (set_n 0)) ;;
     write_head).

(** ** Operations *)

Definition acquire_l : M log unit := fun l =>
  if l_lock l then Panic "acquire" else Ret tt (set_llock true l).
Definition release_l : M log unit := fun l =>
  if l_lock l then Ret tt (set_llock false l) else Panic "release".
Definition sleep_l : M log unit := fun l => Sleep log_addr (set_llock false l).

(** One pass of the loop of [begin_op], with the lock taken. *)
Definition begin_check : M log unit :=
  let! l := get in
  if l_committing l then sleep_l
  else if LOGSIZE <? lh_n l + (l_outstanding l + 1) * MAXOPBLOCKS then sleep_l
  else
    modify (set_outstanding (l_outstanding l + 1)) ;;
    release_l.
Definition begin_op : M log unit := acquire_l ;; begin_check.
(** After [sleep] returned, with the lock taken again. *)
Definition begin_op_return : M log unit := acquire_l ;; begin_check.

(** The part of [end_op] before the commit: returns [do_commit]; when it is
    false, [wakeup(&log)] was called. *)
Definition end_op_start : M log bool :=
  acquire_l ;;
  modify (fun l => set_outstanding (l_outstanding l - 1) l) ;;
  let! l := get in
  if l_committing l then panic "log.committing"
  else if l_outstanding l =? 0 then
    modify (set_committing true) ;;
    release_l ;;
    ret true
  else
    release_l ;;
    ret false.
(** The part after the commit. *)
Definition end_op_finish : M log unit :=
  acquire_l ;;
  modify (set_committing false) ;;
  release_l.
(** Returns the channel it wakes up, on either path. *)
Definition end_op : M lst Z :=
  let! do_commit := logm end_op_start in
  when do_commit (commit ;; logm end_op_finish) ;;
  ret log_addr.

(** The part of [log_write] that is about the log: the first index whose
    block is [bn], or the end. *)
Definition absorb (bn : Z) (l : log) : log :=
  let i := default (Z.to_nat (lh_n l)) (find_index (fun x => u32 x =? bn) (take (Z.to_nat (lh_n l)) (lh_block l))) in
  let l' := set_block (<[i := i32 bn]> (lh_block l)) l in
  if Z.of_nat i =? lh_n l then set_n (lh_n l + 1) l' else l'.

Definition log_write_log (bn : Z) : M log unit :=
  let! l := get in
  if (LOGSIZE <=? lh_n l) || (l_size l - 1 <=? lh_n l) then panic "too big a transaction"
  else if l_outstanding l <? 1 then panic "log_write outside of trans"
  else
    acquire_l ;;
    modify (absorb bn).

Definition log_write (i : nat) : M lst unit :=
  let! b := bio (getb i) in
  logm (log_write_log (blockno b)) ;;
  bio (updb i (fun b => set_flags (Z.lor (flags b) B_DIRTY) b)) ;;
  logm release_l.
End log.
