(* ===== verification/LogInv.v ===== *)
(** * Commit and recovery, run

    What [write_log], [write_head], [install_trans], [read_head], [commit] and
    [initlog] do to the cache, the disk and its trace of writes. *)

From S2P Require Import Prelude Sleeplock Bio BioInv Log.

(** ** The disk after a sequence of writes *)

Abbreviation blocks := (list (list Z)).
Abbreviation writes := (list (Z * list Z)).

Definition apply_writes (d : blocks) (w : writes) : blocks :=
  foldl (fun d x => <[Z.to_nat x.1 := x.2]> d) d w.

Lemma apply_app d w1 w2 : apply_writes d (w1 ++ w2) = apply_writes (apply_writes d w1) w2.
Proof. apply foldl_app. Qed.

Lemma apply_length d w : length (apply_writes d w) = length d.
Proof. revert d. induction w as [|x w IH]; intros d; cbn; [done|]. by rewrite IH, length_insert. Qed.

Lemma apply_ne d w b :
  0 <= b -> Forall (fun x => 0 <= x.1 /\ x.1 <> b) w -> apply_writes d w !!! Z.to_nat b = d !!! Z.to_nat b.
Proof.
  intros Hb. revert d. induction w as [|x w IH]; intros d Hw; cbn; [done|].
  apply Forall_cons in Hw as [[Hx Hne] Hw]. rewrite IH by done. apply insert_ne. lia.
Qed.

Lemma apply_in d w i a c :
  w !! i = Some (a, c) -> NoDup w.*1 -> Forall (fun x => 0 <= x.1) w -> (Z.to_nat a < length d)%nat ->
  apply_writes d w !!! Z.to_nat a = c.
Proof.
  revert d i. induction w as [|x w IH]; intros d i Hi Hnd Hpos Ha; [done|]. cbn [apply_writes foldl].
  apply NoDup_cons in Hnd as [Hx Hnd]. apply Forall_cons in Hpos as [Hx0 Hpos].
  destruct i as [|i]; cbn in Hi.
  - injection Hi as ->. cbn in *. change (apply_writes (<[Z.to_nat a := c]> d) w !!! Z.to_nat a = c).
    rewrite apply_ne; [by apply insert_at | done |].
    apply Forall_forall. intros y Hy. split; [by eapply (proj1 (Forall_forall _ _) Hpos)|].
    intros E. apply Hx. rewrite <- E. by apply list_elem_of_fmap_2.
  - change (apply_writes (<[Z.to_nat x.1 := x.2]> d) w !!! Z.to_nat a = c).
    eapply IH; [done.. |]. by rewrite length_insert.
Qed.

(** ** The header block *)

Lemma put_blocks_length bl i d :
  (4 + 4 * (i + length bl) <= length d)%nat -> length (put_blocks bl i d) = length d.
Proof.
  revert i d. induction bl as [|b bl IH]; intros i d H; cbn [put_blocks]; [done|]. cbn [length] in H.
  rewrite IH; rewrite length_set32; lia.
Qed.

Lemma put_blocks_before bl i d off :
  (off + 4 <= 4 + 4 * i)%nat -> (4 + 4 * (i + length bl) <= length d)%nat ->
  get32 (put_blocks bl i d) off = get32 d off.
Proof.
  revert i d. induction bl as [|b bl IH]; intros i d Ho H; cbn [put_blocks]; [done|]. cbn [length] in H.
  rewrite IH by (rewrite ?length_set32; lia). apply get32_set32_ne; lia.
Qed.

Lemma put_blocks_at bl i d j b :
  bl !! j = Some b -> (4 + 4 * (i + length bl) <= length d)%nat ->
  get32 (put_blocks bl i d) (4 + 4 * (i + j)) = u32 b.
Proof.
  revert i d j. induction bl as [|b' bl IH]; intros i d j Hj H; cbn [put_blocks]; [done|]. cbn [length] in H.
  destruct j as [|j]; cbn in Hj.
  - injection Hj as ->. rewrite put_blocks_before by (rewrite ?length_set32; lia).
    pose proof (u32_range b). by rewrite Nat.add_0_r, get32_set32_eq by lia.
  - replace (i + S j)%nat with (S i + j)%nat by lia. apply IH; [done|]. rewrite length_set32; lia.
Qed.

Lemma i32_u32 b : 0 <= b < 2 ^ 31 -> i32 (u32 b) = b.
Proof. intros H. rewrite u32_small by lia. apply i32_small. lia. Qed.

Lemma put_header_length bl d : (length bl <= 30)%nat -> length d = BSIZE ->
  length (put_header (Z.of_nat (length bl)) bl d) = BSIZE.
Proof.
  intros Hbl Hd. unfold put_header. rewrite Nat2Z.id, firstn_all, put_blocks_length; rewrite length_set32;
    unfold BSIZE in *; lia.
Qed.

Lemma put_header_n n bl d :
  0 <= n <= 30 -> length d = BSIZE -> header_n (put_header n bl d) = n.
Proof.
  intros Hn Hd. unfold header_n, put_header. rewrite put_blocks_before; try lia.
  - pose proof (u32_range n). rewrite get32_set32_eq by (unfold BSIZE in *; lia). apply i32_u32. lia.
  - rewrite length_set32 by (unfold BSIZE in *; lia). rewrite length_take. unfold BSIZE in *; lia.
Qed.

Lemma put_header_block bl d i b :
  (length bl <= 30)%nat -> length d = BSIZE -> bl !! i = Some b -> 0 <= b < 2 ^ 31 ->
  header_block (put_header (Z.of_nat (length bl)) bl d) (Z.of_nat i) = b.
Proof.
  intros Hbl Hd Hi Hb. unfold header_block, put_header. rewrite Nat2Z.id, firstn_all.
  replace (Z.to_nat (4 + 4 * Z.of_nat i)) with (4 + 4 * (0 + i))%nat by lia.
  rewrite (put_blocks_at bl 0 _ i b Hi) by (rewrite length_set32; unfold BSIZE in *; lia).
  by apply i32_u32.
Qed.

(** ** Running the operations *)

Lemma bio_run {A} (m : M bst A) l t a t' : m t = Ret a t' -> bio m (mk_lst l t) = Ret a (mk_lst l t').
Proof. unfold bio, zoom. cbn. by intros ->. Qed.

Lemma getb_run i l t : bio (getb i) (mk_lst l t) = Ret (bufs t !!! i) (mk_lst l t).
Proof. done. Qed.

Ltac run_bio E := rewrite (bind_ret _ _ _ _ _ (bio_run _ _ _ _ _ E)).

Section run.
Context (lock_addr : nat -> Z) `{DR : Driver}.
(** Where the superblock puts the log. *)
Context (start nlog : Z).
Hypothesis Hstart : 2 <= start.
Hypothesis Hnlog : 1 <= nlog <= LOGSIZE.
Hypothesis Hend : start + nlog <= nblocks.

Definition in_log (b : Z) : Prop := start <= b < start + nlog.
(** A block that may be logged. *)
Definition home (b : Z) : Prop := 0 <= b < nblocks /\ ~ in_log b /\ b <> 1.

(** [bl] are the blocks of a transaction. *)
Record trans (bl : list Z) : Prop := {
  t_nodup : NoDup bl;
  t_home : Forall home bl;
  t_len : Z.of_nat (length bl) < nlog;
}.

(** The log in memory, with the header listing [bl]. *)
Record at_log (l : log) (bl : list Z) : Prop := {
  a_start : l_start l = start;
  a_size : l_size l = nlog;
  a_dev : l_dev l = 1;
  a_n : lh_n l = Z.of_nat (length bl);
  a_block : take (length bl) (lh_block l) = bl;
  a_len : length (lh_block l) = Z.to_nat LOGSIZE;
}.

Lemma trans_len bl : trans bl -> (length bl < NBUF)%nat.
Proof. intros [_ _ H]. assert (Z.of_nat (length bl) < LOGSIZE) by lia. unfold LOGSIZE, MAXOPBLOCKS in *. unfold NBUF. lia. Qed.

Lemma trans_at bl i b : trans bl -> bl !! i = Some b -> home b /\ 0 <= b < 2 ^ 31.
Proof.
  intros T Hi. assert (home b) as Hb by (apply (proj1 (Forall_forall _ _) (t_home _ T)); by eapply list_elem_of_lookup_2).
  split; [done|]. destruct Hb as [? _]. pose proof nblocks_int. lia.
Qed.

Lemma block_at_run l t bl i b :
  trans bl -> at_log l bl -> bl !! i = Some b ->
  block_at (Z.of_nat i) (mk_lst l t) = Ret b (mk_lst l t).
Proof.
  intros T A Hi. pose proof (lookup_lt_Some _ _ _ Hi). pose proof (trans_len bl T).
  unfold block_at, bind, reads. cbn [lg].
  replace ((0 <=? Z.of_nat i) && (Z.of_nat i <? LOGSIZE)) with true
    by (symmetry; apply andb_true_iff; unfold LOGSIZE, MAXOPBLOCKS, NBUF in *; lia).
  unfold ret. f_equal. rewrite Nat2Z.id. apply list_lookup_total_correct.
  rewrite <- (a_block _ _ A), lookup_take in Hi. by case_decide.
Qed.

Lemma log_block_range i : (Z.of_nat i < nlog - 1)%Z -> in_log (start + Z.of_nat i + 1) /\ start + Z.of_nat i + 1 <> start /\
  0 <= start + Z.of_nat i + 1 < nblocks /\ u32 (start + Z.of_nat i + 1) = start + Z.of_nat i + 1.
Proof. intros H. pose proof nblocks_int. unfold in_log. rewrite u32_small; lia. Qed.

(** One block from the cache to the log. *)
Lemma write_log_body_run l t D bl i b c :
  trans bl -> at_log l bl -> bl !! i = Some b -> cache t D ∅ -> D !! b = Some c -> length c = BSIZE ->
  (size D < NBUF)%nat -> (forall x, is_Some (D !! x) -> ~ in_log x) ->
  exists t', write_log_body lock_addr (Z.of_nat i) (mk_lst l t) = Ret tt (mk_lst l t') /\ cache t' D ∅ /\
    disk t' = apply_writes (disk t) [(start + Z.of_nat i + 1, c)] /\
    trace t' = trace t ++ [(start + Z.of_nat i + 1, c)] /\ cur t' = cur t.
Proof.
  intros T A Hi I Hc Hcl Hsz Hout. destruct (trans_at _ _ _ T Hi) as [[Hb [Hnl _]] Hb31].
  pose proof (lookup_lt_Some _ _ _ Hi). pose proof (t_len _ T).
  destruct (log_block_range i ltac:(lia)) as (Hin & Hns & Hr & Hu). set (a := start + Z.of_nat i + 1) in *.
  assert (a <> b) as Hab by congruence.
  destruct (bread_two lock_addr t D a b I Hr Hb Hab Hsz (or_intror (mk_is_Some _ _ Hc)))
    as (p & q & t1 & t2 & E1 & E2 & Hpq & I2 & Hdk & Htr & Hcu & Hbp & Hbq & Hdp & Hdq).
  assert (view t D b = c) as Hv by (unfold view; by rewrite Hc).
  destruct (write_release lock_addr t2 D p q c I2 Hpq Hcl) as (t3 & t4 & E3 & E4 & Hdk4 & Htr4 & Hcu4 & (c1 & t5 & c2 & t6 & E5 & E6 & I6 & A1 & A2 & A3) & _).
  { unfold view, block_of in *. by rewrite Hdq, Hbq, Hdk. } { congruence. }
  unfold write_log_body. unfold bind at 1, reads. cbn [lg].
  rewrite (a_dev _ _ A), (a_start _ _ A). fold a. rewrite Hu. change (u32 1) with 1. run_bio E1.
  rewrite (bind_ret _ _ _ _ _ (block_at_run l t1 bl i b T A Hi)), (u32_small b) by lia. run_bio E2.
  rewrite (bind_ret _ _ _ _ _ (getb_run _ l t2)), Hdq, Hv.
  run_bio E3. run_bio E4. run_bio E5. run_bio E6.
  exists t6. unfold ret. split; [done|]. rewrite Hbp in *. rewrite A1, A2, A3, Hdk4, Htr4, Hcu4, Hdk, Htr, Hcu. cbn.
  split_and!; try done. rewrite delete_id in I6; [done|].
  destruct (D !! a) eqn:E; [|done]. by destruct (Hout a ltac:(eauto)).
Qed.

(** One block from the log to its home. *)
Lemma install_trans_body_run l t D bl i b :
  trans bl -> at_log l bl -> bl !! i = Some b -> cache t D ∅ ->
  (size D < NBUF)%nat -> (S (size D) < NBUF)%nat \/ is_Some (D !! b) -> (forall x, is_Some (D !! x) -> ~ in_log x) ->
  let c := disk t !!! Z.to_nat (start + Z.of_nat i + 1) in
  exists t', install_trans_body lock_addr (Z.of_nat i) (mk_lst l t) = Ret tt (mk_lst l t') /\
    cache t' (delete b D) ∅ /\ disk t' = apply_writes (disk t) [(b, c)] /\
    trace t' = trace t ++ [(b, c)] /\ cur t' = cur t.
Proof.
  intros T A Hi I Hsz Hsz2 Hout c. destruct (trans_at _ _ _ T Hi) as [[Hb [Hnl _]] Hb31].
  pose proof (lookup_lt_Some _ _ _ Hi). pose proof (t_len _ T).
  destruct (log_block_range i ltac:(lia)) as (Hin & Hns & Hr & Hu). set (a := start + Z.of_nat i + 1) in *.
  assert (a <> b) as Hab by congruence.
  destruct (bread_two lock_addr t D a b I Hr Hb Hab Hsz Hsz2)
    as (p & q & t1 & t2 & E1 & E2 & Hpq & I2 & Hdk & Htr & Hcu & Hbp & Hbq & Hdp & Hdq).
  assert (view t D a = c) as Hv.
  { unfold view. destruct (D !! a) eqn:E; [|done]. by destruct (Hout a ltac:(eauto)). }
  destruct (write_release lock_addr t2 D q p c) as (t3 & t4 & E3 & E4 & Hdk4 & Htr4 & Hcu4 & (c1 & t5 & c2 & t6 & E5 & E6 & I6 & A1 & A2 & A3) & _).
  { by rewrite (union_comm_L {[p]}). } { done. } { by apply (k_disk_len _ _ _ I). }
  { unfold view, block_of in *. by rewrite Hdp, Hbp, Hdk. } { congruence. }
  unfold install_trans_body. unfold bind at 1, reads. cbn [lg].
  rewrite (a_dev _ _ A), (a_start _ _ A). fold a. rewrite Hu. change (u32 1) with 1. run_bio E1.
  rewrite (bind_ret _ _ _ _ _ (block_at_run l t1 bl i b T A Hi)), (u32_small b) by lia. run_bio E2.
  rewrite (bind_ret _ _ _ _ _ (getb_run _ l t2)), Hdp, Hv.
  run_bio E3. run_bio E4. run_bio E5. run_bio E6.
  exists t6. unfold ret. split; [done|]. rewrite Hbq in *. rewrite A1, A2, A3, Hdk4, Htr4, Hcu4, Hdk, Htr, Hcu. done.
Qed.

(** *** The loops *)

Definition contents (D : gmap Z (list Z)) (bl : list Z) : blocks := (fun b => default [] (D !! b)) <$> bl.
Definition log_writes (cs : blocks) : writes := imap (fun i c => (start + Z.of_nat i + 1, c)) cs.
Definition log_contents (d : blocks) (n : nat) : blocks :=
  (fun i => d !!! Z.to_nat (start + Z.of_nat i + 1)) <$> seq 0 n.
Definition pinned (D : gmap Z (list Z)) (bl : list Z) : Prop := dom D = list_to_set bl.

Lemma pinned_at D bl i b : pinned D bl -> bl !! i = Some b -> exists c, D !! b = Some c.
Proof.
  intros P Hi. change (is_Some (D !! b)). apply elem_of_dom. rewrite P, elem_of_list_to_set.
  by eapply list_elem_of_lookup_2.
Qed.

Lemma pinned_home D bl x : trans bl -> pinned D bl -> is_Some (D !! x) -> home x.
Proof.
  intros T P Hx. apply elem_of_dom in Hx. rewrite P, elem_of_list_to_set in Hx.
  by apply (proj1 (Forall_forall _ _) (t_home _ T)).
Qed.

Lemma pinned_size D bl : trans bl -> pinned D bl -> (size D < NBUF)%nat.
Proof.
  intros T P. rewrite <- size_dom, P, size_list_to_set by apply (t_nodup _ T). by apply trans_len.
Qed.

Lemma pinned_len t D b c : cache t D ∅ -> D !! b = Some c -> length c = BSIZE.
Proof.
  intros I Hb. destruct (k_pinned _ _ _ I b ltac:(eauto)) as (i & Hi & Hd & Hbi & Hf).
  destruct (k_idle _ _ _ I i Hi ltac:(set_solver)) as (_ & _ & [[? _]|(_ & _ & [[? _]|[_ HD]])]); [congruence.. |].
  rewrite Hbi, Hb in HD. injection HD as ->. apply (k_data _ _ _ I).
Qed.

Lemma write_log_run l t D bl :
  trans bl -> at_log l bl -> cache t D ∅ -> pinned D bl ->
  exists t', write_log lock_addr (mk_lst l t) = Ret tt (mk_lst l t') /\ cache t' D ∅ /\
    disk t' = apply_writes (disk t) (log_writes (contents D bl)) /\
    trace t' = trace t ++ log_writes (contents D bl) /\ cur t' = cur t.
Proof.
  intros T A I P. set (W := log_writes (contents D bl)).
  assert (length W = length bl) as HW by by unfold W, log_writes; rewrite length_imap; apply length_fmap.
  unfold write_log. unfold bind, reads. cbn [lg]. rewrite (a_n _ _ A), Nat2Z.id.
  pose proof (wp_for (fun j s => exists t', s = mk_lst l t' /\ cache t' D ∅ /\ cur t' = cur t /\
    disk t' = apply_writes (disk t) (take (Z.to_nat j) W) /\ trace t' = trace t ++ take (Z.to_nat j) W)
    (length bl) 0 (write_log_body lock_addr) (mk_lst l t)) as H.
  apply wp_Ret in H as ([] & s' & E & t' & -> & I' & Hc & Hdk & Htr).
  - exists t'. rewrite Z.add_0_l, Nat2Z.id, <- HW, firstn_all in *. done.
  - exists t. cbn. rewrite app_nil_r. done.
  - intros j s Hj (t1 & -> & I1 & Hc1 & Hdk1 & Htr1). rewrite Z.add_0_l in Hj.
    destruct (lookup_lt_is_Some_2 bl (Z.to_nat j) ltac:(lia)) as [b Hb].
    destruct (pinned_at _ _ _ _ P Hb) as [c Hcb].
    assert (W !! Z.to_nat j = Some (start + j + 1, c)) as HWj.
    { unfold W, log_writes, contents. rewrite list_lookup_imap, list_lookup_fmap, Hb. cbn.
      rewrite Hcb. cbn. do 2 f_equal. lia. }
    destruct (write_log_body_run l t1 D bl (Z.to_nat j) b c T A Hb I1 Hcb) as (t2 & E & I2 & Hdk2 & Htr2 & Hc2).
    { by eapply pinned_len. } { by eapply pinned_size. } { intros x Hx. by apply (pinned_home D bl x T P Hx). }
    rewrite Z2Nat.id in * by lia. eapply wp_run; [exact E|]. exists t2.
    replace (Z.to_nat (j + 1)) with (S (Z.to_nat j)) by lia.
    rewrite (take_S_r _ _ _ HWj), apply_app, app_assoc, <- Hdk1, <- Htr1. split_and!; congruence.
Qed.

(** The pinned blocks that are left after [l] were written. *)
Definition unpin (l : list Z) (D : gmap Z (list Z)) : gmap Z (list Z) := foldl (fun D b => delete b D) D l.

Lemma lookup_unpin l D x : unpin l D !! x = if decide (x ∈ l) then None else D !! x.
Proof.
  revert D. induction l as [|b l IH]; intros D; cbn; [by case_decide; set_solver|].
  fold (unpin l (delete b D)). rewrite IH. destruct (decide (x = b)) as [->|Hxb].
  - rewrite lookup_delete_eq. repeat case_decide; set_solver.
  - rewrite lookup_delete_ne by done. repeat case_decide; set_solver.
Qed.

Lemma unpin_size l D : (size (unpin l D) <= size D)%nat.
Proof.
  rewrite <- !size_dom. apply subseteq_size. intros x. rewrite !elem_of_dom, lookup_unpin.
  case_decide; [by intros [? [=]] | done].
Qed.

Lemma unpin_all D bl : pinned D bl \/ D = ∅ -> unpin bl D = ∅.
Proof.
  intros HP. apply map_eq. intros x. rewrite lookup_unpin, lookup_empty. case_decide as Hx; [done|].
  destruct HP as [P | ->]; [|done]. apply not_elem_of_dom. by rewrite P, elem_of_list_to_set.
Qed.

(** During [install_trans] there is a buffer for the home block. *)
Lemma unpin_room D bl j b :
  trans bl -> pinned D bl \/ D = ∅ -> bl !! j = Some b ->
  (size (unpin (take j bl) D) < NBUF)%nat /\
  ((S (size (unpin (take j bl) D)) < NBUF)%nat \/ is_Some (unpin (take j bl) D !! b)) /\
  (forall x, is_Some (unpin (take j bl) D !! x) -> ~ in_log x).
Proof.
  intros T [P | ->] Hj.
  - pose proof (pinned_size D bl T P). pose proof (unpin_size (take j bl) D). split; [lia|]. split.
    + right. rewrite lookup_unpin, decide_False; [destruct (pinned_at D bl j b P Hj); eauto|].
      intros (k & Hk & Hkj)%elem_of_take. assert (k = j) by (eapply NoDup_lookup; [apply (t_nodup _ T)|..]; done). lia.
    + intros x Hx. rewrite lookup_unpin in Hx. case_decide; [by destruct Hx|].
      by apply (pinned_home D bl x T P Hx).
  - pose proof (unpin_size (take j bl) ∅) as Hs. rewrite map_size_empty in Hs. unfold NBUF. split; [lia|].
    split; [left; lia|]. intros x Hx. rewrite lookup_unpin in Hx. case_decide; by destruct Hx.
Qed.

Lemma home_writes_length (bl : list Z) (cs : blocks) : length cs = length bl -> length (zip bl cs) = length bl.
Proof. intros H. rewrite length_zip_with. lia. Qed.

Lemma zip_ne_log bl (cs : blocks) a :
  Forall home bl -> in_log a -> Forall (fun x => 0 <= x.1 /\ x.1 <> a) (zip bl cs).
Proof.
  intros Hh Ha. apply Forall_forall. intros [b c] Hx. apply elem_of_zip_l in Hx.
  destruct (proj1 (Forall_forall _ _) Hh b Hx) as ((? & ?) & Hn & _). cbn. split; [done | congruence].
Qed.

Lemma install_trans_run l t D bl :
  trans bl -> at_log l bl -> cache t D ∅ -> pinned D bl \/ D = ∅ ->
  let W := zip bl (log_contents (disk t) (length bl)) in
  exists t', install_trans lock_addr (mk_lst l t) = Ret tt (mk_lst l t') /\ cache t' ∅ ∅ /\
    disk t' = apply_writes (disk t) W /\ trace t' = trace t ++ W /\ cur t' = cur t.
Proof.
  intros T A I P W.
  assert (length W = length bl) as HW
    by (apply home_writes_length; unfold log_contents; by rewrite length_fmap, length_seq).
  unfold install_trans. unfold bind, reads. cbn [lg]. rewrite (a_n _ _ A), Nat2Z.id.
  pose proof (wp_for (fun j s => exists t', s = mk_lst l t' /\ cache t' (unpin (take (Z.to_nat j) bl) D) ∅ /\
    cur t' = cur t /\ disk t' = apply_writes (disk t) (take (Z.to_nat j) W) /\
    trace t' = trace t ++ take (Z.to_nat j) W)
    (length bl) 0 (install_trans_body lock_addr) (mk_lst l t)) as H.
  apply wp_Ret in H as ([] & s' & E & t' & -> & I' & Hc & Hdk & Htr).
  - exists t'. rewrite Z.add_0_l, Nat2Z.id in *. rewrite firstn_all, unpin_all in I' by done.
    rewrite <- HW, firstn_all in *. done.
  - exists t. cbn. rewrite app_nil_r. done.
  - intros j s Hj (t1 & -> & I1 & Hc1 & Hdk1 & Htr1). rewrite Z.add_0_l in Hj.
    destruct (lookup_lt_is_Some_2 bl (Z.to_nat j) ltac:(lia)) as [b Hb].
    destruct (unpin_room D bl _ b T P Hb) as (R1 & R2 & R3).
    destruct (install_trans_body_run l t1 _ bl (Z.to_nat j) b T A Hb I1 R1 R2 R3) as (t2 & E & I2 & Hdk2 & Htr2 & Hc2).
    rewrite Z2Nat.id in * by lia.
    pose proof (t_len _ T). destruct (log_block_range (Z.to_nat j) ltac:(lia)) as (Hin & _ & Hr & _).
    rewrite Z2Nat.id in * by lia.
    rewrite Hdk1, (apply_ne (disk t)) in Hdk2, Htr2 by first [lia | apply Forall_take, zip_ne_log; [apply (t_home _ T) | done]].
    set (c := disk t !!! Z.to_nat (start + j + 1)) in *.
    assert (W !! Z.to_nat j = Some (b, c)) as HWj.
    { unfold W, log_contents. apply lookup_zip_with_Some. exists b, c. split_and!; try done.
      rewrite list_lookup_fmap, lookup_seq_lt by lia. cbn. unfold c. do 3 f_equal. lia. }
    eapply wp_run; [exact E|]. exists t2.
    replace (Z.to_nat (j + 1)) with (S (Z.to_nat j)) by lia.
    rewrite (take_S_r _ _ _ HWj), (take_S_r _ _ _ Hb), apply_app, app_assoc, <- Htr1. unfold unpin.
    rewrite foldl_app. split_and!; try congruence. exact I2.
Qed.

(** *** The header block *)

Lemma write_head_run l t D bl :
  at_log l bl -> (length bl <= 30)%nat -> cache t D ∅ -> (size D < NBUF)%nat -> D !! start = None ->
  let c := put_header (Z.of_nat (length bl)) bl (disk t !!! Z.to_nat start) in
  exists t', write_head lock_addr (mk_lst l t) = Ret tt (mk_lst l t') /\ cache t' D ∅ /\
    disk t' = apply_writes (disk t) [(start, c)] /\ trace t' = trace t ++ [(start, c)] /\ cur t' = cur t.
Proof.
  intros A Hbl I Hsz HD c. pose proof nblocks_int.
  assert (forall d, put_header (lh_n l) (lh_block l) d = put_header (Z.of_nat (length bl)) bl d) as Hput.
  { intros d. unfold put_header. by rewrite (a_n _ _ A), Nat2Z.id, (a_block _ _ A), firstn_all. }
  destruct (rewrite_block_run lock_addr t D start (put_header (Z.of_nat (length bl)) bl) I) as
    (i & t1 & t2 & t3 & ch & t4 & E1 & E2 & E3 & E4 & I4 & Hdk & Htr & Hcu); try done; try lia.
  { apply put_header_length; [done|]. apply (k_disk_len _ _ _ I). lia. }
  exists t4. split; [|done].
  unfold write_head. unfold bind at 1, reads. cbn [lg].
  rewrite (a_dev _ _ A), (a_start _ _ A), (u32_small start) by lia. change (u32 1) with 1. run_bio E1.
  rewrite (proj2 (Z.ltb_ge LOGSIZE (lh_n l))) by (rewrite (a_n _ _ A); unfold LOGSIZE, MAXOPBLOCKS; lia).
  unfold bind at 1, ret at 1.
  rewrite (updb_data i (put_header _ _)) in E2. rewrite <- Hput, <- (updb_data i (put_header _ _)) in E2.
  run_bio E2. run_bio E3. run_bio E4. done.
Qed.

Lemma at_log_clear l bl : at_log l bl -> at_log (set_n 0 l) [].
Proof. intros []. by split. Qed.

Lemma logm_run {A} (m : M log A) l t a l' : m l = Ret a l' -> logm m (mk_lst l t) = Ret a (mk_lst l' t).
Proof. unfold logm, zoom. cbn. by intros ->. Qed.

(** *** The commit *)

Definition header_of (d : blocks) (bl : list Z) : list Z :=
  put_header (Z.of_nat (length bl)) bl (d !!! Z.to_nat start).

(** The writes of a commit: the log blocks, the header, the home blocks, and
    the header with no blocks. *)
Definition commit_writes (d : blocks) (bl : list Z) (cs : blocks) : writes :=
  log_writes cs ++ [(start, header_of d bl)] ++ zip bl cs ++ [(start, put_header 0 [] (header_of d bl))].

Lemma log_writes_at cs i x : log_writes cs !! i = Some x -> exists c, cs !! i = Some c /\ x = (start + Z.of_nat i + 1, c).
Proof. unfold log_writes. rewrite list_lookup_imap. destruct (cs !! i); cbn; [|done]. intros [= <-]. eauto. Qed.

Lemma log_writes_nodup cs : NoDup (log_writes cs).*1.
Proof.
  apply NoDup_alt. intros i j a. rewrite !list_lookup_fmap.
  destruct (log_writes cs !! i) eqn:Ei; [|done]. destruct (log_writes cs !! j) eqn:Ej; [|done].
  apply log_writes_at in Ei as (c & _ & ->). apply log_writes_at in Ej as (c' & _ & ->). cbn. intros [= <-] [= E]. lia.
Qed.

Lemma log_writes_ne cs b :
  Z.of_nat (length cs) < nlog -> ~ (in_log b /\ b <> start) -> Forall (fun x => 0 <= x.1 /\ x.1 <> b) (log_writes cs).
Proof.
  intros Hl Hb. apply Forall_lookup. intros i x Hi. pose proof (lookup_lt_Some _ _ _ Hi) as Hlt.
  unfold log_writes in Hlt. rewrite length_imap in Hlt.
  apply log_writes_at in Hi as (c & _ & ->). cbn. split; [lia|]. intros <-. apply Hb. unfold in_log. lia.
Qed.

Lemma log_writes_contents d cs :
  Z.of_nat (length cs) < nlog -> nblocks <= Z.of_nat (length d) ->
  log_contents (apply_writes d (log_writes cs)) (length cs) = cs.
Proof.
  intros Hl Hd. apply list_eq. intros i. unfold log_contents. rewrite list_lookup_fmap.
  destruct (decide (i < length cs)%nat) as [Hi|Hi].
  - rewrite lookup_seq_lt by done. cbn. destruct (lookup_lt_is_Some_2 cs i Hi) as [c Hc]. rewrite Hc. f_equal.
    apply apply_in with i; [|apply log_writes_nodup | |lia].
    + unfold log_writes. by rewrite list_lookup_imap, Hc.
    + apply Forall_lookup. intros j x (c' & _ & ->)%log_writes_at. cbn. lia.
  - by rewrite lookup_seq_ge, lookup_ge_None_2 by lia.
Qed.

Lemma log_contents_ext d d' n :
  (forall b, in_log b -> b <> start -> d' !!! Z.to_nat b = d !!! Z.to_nat b) -> Z.of_nat n < nlog ->
  log_contents d' n = log_contents d n.
Proof.
  intros He Hn. unfold log_contents. apply list_fmap_ext. intros i x Hx. apply lookup_seq in Hx as [-> Hi].
  apply He; unfold in_log; lia.
Qed.

Lemma log_contents_length d n : length (log_contents d n) = n.
Proof. unfold log_contents. by rewrite length_fmap, length_seq. Qed.

Lemma pinned_start D bl : trans bl -> pinned D bl -> D !! start = None.
Proof.
  intros T P. destruct (D !! start) eqn:E; [|done].
  destruct (pinned_home D bl start T P ltac:(eauto)) as (_ & Hn & _). destruct Hn. unfold in_log. lia.
Qed.

Lemma commit_run l t D bl :
  trans bl -> at_log l bl -> bl <> [] -> cache t D ∅ -> pinned D bl ->
  let W := commit_writes (disk t) bl (contents D bl) in
  exists t', commit lock_addr (mk_lst l t) = Ret tt (mk_lst (set_n 0 l) t') /\ cache t' ∅ ∅ /\
    disk t' = apply_writes (disk t) W /\ trace t' = trace t ++ W /\ cur t' = cur t.
Proof.
  intros T A Hne I P W. set (cs := contents D bl) in *.
  assert (length cs = length bl) as Hcs by apply length_fmap.
  pose proof (t_len _ T) as Hlen. pose proof (trans_len _ T) as Hlen30. pose proof (k_disk _ _ _ I) as Hnb.
  assert (in_log start) as Hst by (unfold in_log; lia).
  destruct (write_log_run l t D bl T A I P) as (t1 & E1 & I1 & Hdk1 & Htr1 & Hcu1). fold cs in Hdk1, Htr1.
  destruct (write_head_run l t1 D bl A) as (t2 & E2 & I2 & Hdk2 & Htr2 & Hcu2);
    [unfold NBUF in *; lia | done | by eapply pinned_size | by eapply pinned_start |].
  assert (disk t1 !!! Z.to_nat start = disk t !!! Z.to_nat start) as Hh1.
  { rewrite Hdk1. apply apply_ne; [lia|]. apply log_writes_ne; [lia | tauto]. }
  rewrite Hh1 in *. fold (header_of (disk t) bl) in *.
  destruct (install_trans_run l t2 D bl T A I2 ltac:(by left)) as (t3 & E3 & I3 & Hdk3 & Htr3 & Hcu3).
  assert (log_contents (disk t2) (length bl) = cs) as Hlc.
  { rewrite (log_contents_ext (disk t1)), Hdk1, <- Hcs by
      first [lia | intros x Hx Hxs; unfold in_log in Hx; rewrite Hdk2; cbn; rewrite insert_ne by lia; done].
    apply log_writes_contents; lia. }
  rewrite Hlc in *.
  destruct (write_head_run (set_n 0 l) t3 ∅ [] (at_log_clear l bl A)) as (t4 & E4 & I4 & Hdk4 & Htr4 & Hcu4);
    [cbn; lia | done | rewrite map_size_empty; unfold NBUF; lia | done |].
  assert (disk t3 !!! Z.to_nat start = header_of (disk t) bl) as Hh3.
  { rewrite Hdk3, apply_ne by first [lia | apply zip_ne_log; [apply (t_home _ T) | done]].
    rewrite Hdk2. apply insert_at. rewrite Hdk1, apply_length. cbn [fst]. lia. }
  rewrite Hh3 in *. change (Z.of_nat (length [])) with 0 in *.
  exists t4. unfold commit. unfold bind at 1, reads. cbn [lg].
  rewrite (proj2 (Z.ltb_lt 0 (lh_n l))) by (rewrite (a_n _ _ A); destruct bl; [done | cbn [length]; lia]).
  unfold when. rewrite (bind_ret _ _ _ _ _ E1), (bind_ret _ _ _ _ _ E2), (bind_ret _ _ _ _ _ E3).
  rewrite (bind_ret _ _ _ _ _ (logm_run (modify (set_n 0)) l t3 tt _ eq_refl)).
  split; [done|]. split; [done|]. unfold W, commit_writes. rewrite !apply_app, !app_assoc.
  rewrite Hdk4, Hdk3, Hdk2, Hdk1, Htr4, Htr3, Htr2, Htr1. split_and!; [done | by rewrite <- !app_assoc | congruence].
Qed.

(** *** The recovery *)

Definition hdr (d : blocks) : list Z := d !!! Z.to_nat start.
(** The blocks that the header on disk lists. *)
Definition disk_trans (d : blocks) : list Z :=
  (fun i => header_block (hdr d) (Z.of_nat i)) <$> seq 0 (Z.to_nat (header_n (hdr d))).

(** A disk that the log can be recovered from. *)
Record wf_disk (d : blocks) : Prop := {
  d_size : nblocks <= Z.of_nat (length d);
  d_len b : 0 <= b < nblocks -> length (d !!! Z.to_nat b) = BSIZE;
  d_logstart : sb_logstart (superblock_of (d !!! 1%nat)) = start;
  d_nlog : sb_nlog (superblock_of (d !!! 1%nat)) = nlog;
  d_n : 0 <= header_n (hdr d);
  d_trans : trans (disk_trans d);
}.

Definition recover_writes (d : blocks) : writes :=
  let bl := disk_trans d in
  zip bl (log_contents d (length bl)) ++ [(start, put_header 0 [] (hdr d))].

Lemma disk_trans_length d : length (disk_trans d) = Z.to_nat (header_n (hdr d)).
Proof. unfold disk_trans. by rewrite length_fmap, length_seq. Qed.

Lemma read_head_loop_run l t d n :
  (n <= 30)%nat -> length (lh_block l) = Z.to_nat LOGSIZE ->
  exists bl', for_ n 0 (read_head_body d) (mk_lst l t) = Ret tt (mk_lst (set_block bl' l) t) /\
    length bl' = Z.to_nat LOGSIZE /\ take n bl' = (fun i => header_block d (Z.of_nat i)) <$> seq 0 n.
Proof.
  intros Hn Hl.
  pose proof (wp_for (fun j s => exists bl', s = mk_lst (set_block bl' l) t /\ length bl' = Z.to_nat LOGSIZE /\
    take (Z.to_nat j) bl' = (fun i => header_block d (Z.of_nat i)) <$> seq 0 (Z.to_nat j))
    n 0 (read_head_body d) (mk_lst l t)) as H.
  apply wp_Ret in H as ([] & s' & E & bl' & -> & Hl' & Hb).
  - exists bl'. by rewrite Z.add_0_l, Nat2Z.id in Hb.
  - exists (lh_block l). by destruct l.
  - intros j s Hj (bl' & -> & Hl' & Hb). rewrite Z.add_0_l in Hj.
    unfold read_head_body. rewrite (proj2 (Z.ltb_lt j LOGSIZE)) by (unfold LOGSIZE, MAXOPBLOCKS; lia).
    unfold logm. apply wp_zoom, wp_modify. cbn. eexists. split; [reflexivity|].
    unfold aset. rewrite length_insert. split; [done|].
    replace (Z.to_nat (j + 1)) with (S (Z.to_nat j)) by lia.
    assert (Z.to_nat j < length bl')%nat by (rewrite Hl'; unfold LOGSIZE, MAXOPBLOCKS; lia).
    rewrite (take_S_r _ _ (header_block d j)) by by apply list_lookup_insert_eq.
    rewrite take_insert_ge, Hb, seq_S, fmap_app by lia. cbn. by rewrite Z2Nat.id by lia.
Qed.

Lemma read_head_run l t :
  l_start l = start -> l_size l = nlog -> l_dev l = 1 -> length (lh_block l) = Z.to_nat LOGSIZE ->
  cache t ∅ ∅ -> wf_disk (disk t) ->
  exists l' t', read_head lock_addr (mk_lst l t) = Ret tt (mk_lst l' t') /\ at_log l' (disk_trans (disk t)) /\
    l_outstanding l' = l_outstanding l /\ l_committing l' = l_committing l /\ l_lock l' = l_lock l /\
    cache t' ∅ ∅ /\ disk t' = disk t /\ trace t' = trace t /\ cur t' = cur t.
Proof.
  intros Hst Hsz Hdv Hlb I W. pose proof nblocks_int.
  destruct (read_block_run lock_addr t ∅ start I) as (i & t1 & ch & t2 & E1 & Hd1 & E2 & I2 & Hdk & Htr & Hcu);
    [lia | rewrite map_size_empty; unfold NBUF; lia |].
  change (view t ∅ start) with (hdr (disk t)) in Hd1.
  pose proof (t_len _ (d_trans _ W)) as Hlen. rewrite disk_trans_length in Hlen.
  unfold LOGSIZE, MAXOPBLOCKS in Hnlog.
  destruct (read_head_loop_run (set_n (header_n (hdr (disk t))) l) t1 (hdr (disk t))
    (Z.to_nat (header_n (hdr (disk t))))) as (bl' & E3 & Hl' & Hb'); [lia | done |].
  exists (set_block bl' (set_n (header_n (hdr (disk t))) l)), t2.
  unfold read_head. unfold bind at 1, reads. cbn [lg].
  rewrite Hdv, Hst, (u32_small start) by lia. change (u32 1) with 1. run_bio E1.
  rewrite (bind_ret _ _ _ _ _ (getb_run _ l t1)), Hd1.
  rewrite (bind_ret _ _ _ _ _ (logm_run (modify _) l t1 tt _ eq_refl)), (bind_ret _ _ _ _ _ E3).
  run_bio E2. split; [done|]. split; [|done].
  split; try done; cbn.
  - rewrite disk_trans_length. pose proof (d_n _ W). lia.
  - by rewrite disk_trans_length.
Qed.

Lemma recover_run l t :
  l_start l = start -> l_size l = nlog -> l_dev l = 1 -> length (lh_block l) = Z.to_nat LOGSIZE ->
  cache t ∅ ∅ -> wf_disk (disk t) ->
  exists l' t', recover_from_log lock_addr (mk_lst l t) = Ret tt (mk_lst l' t') /\ at_log l' [] /\
    l_outstanding l' = l_outstanding l /\ l_committing l' = l_committing l /\ l_lock l' = l_lock l /\
    cache t' ∅ ∅ /\ disk t' = apply_writes (disk t) (recover_writes (disk t)) /\
    trace t' = trace t ++ recover_writes (disk t) /\ cur t' = cur t.
Proof.
  intros Hst Hsz Hdv Hlb I W.
  destruct (read_head_run l t Hst Hsz Hdv Hlb I W) as (l1 & t1 & E1 & A1 & Ho & Hc & Hlk & I1 & Hdk1 & Htr1 & Hcu1).
  destruct (install_trans_run l1 t1 ∅ _ (d_trans _ W) A1 I1 ltac:(by right)) as (t2 & E2 & I2 & Hdk2 & Htr2 & Hcu2).
  destruct (write_head_run (set_n 0 l1) t2 ∅ [] (at_log_clear _ _ A1)) as (t3 & E3 & I3 & Hdk3 & Htr3 & Hcu3);
    [cbn; lia | done | rewrite map_size_empty; unfold NBUF; lia | done |].
  assert (disk t2 !!! Z.to_nat start = hdr (disk t)) as Hh.
  { rewrite Hdk2, apply_ne, Hdk1; [done | lia |]. apply zip_ne_log; [apply (t_home _ (d_trans _ W)) | unfold in_log; lia]. }
  rewrite Hh in *. change (Z.of_nat (length [])) with 0 in *. exists (set_n 0 l1), t3. unfold recover_from_log.
  rewrite (bind_ret _ _ _ _ _ E1), (bind_ret _ _ _ _ _ E2).
  rewrite (bind_ret _ _ _ _ _ (logm_run (modify _) l1 t2 tt _ eq_refl)), E3.
  split; [done|]. split; [by eapply at_log_clear|].
  unfold recover_writes. rewrite apply_app, app_assoc. rewrite Hdk1, Htr1 in *.
  rewrite Hdk3, Hdk2, Htr3, Htr2. split_and!; try done; congruence.
Qed.

(** [initlog] at boot: an empty cache over the disk [d]. *)
Lemma initlog_run d pid :
  wf_disk d ->
  exists l' t', initlog lock_addr 1 (mk_lst zero_log (binit (zero_bst d pid))) = Ret tt (mk_lst l' t') /\
    at_log l' [] /\ l_outstanding l' = 0 /\ l_committing l' = false /\ l_lock l' = false /\ cache t' ∅ ∅ /\
    disk t' = apply_writes d (recover_writes d) /\ trace t' = recover_writes d /\ cur t' = pid.
Proof.
  intros W. pose proof nblocks_int. pose proof (binit_cache d pid (d_size _ W) (d_len _ W)) as I.
  destruct (binit_keeps d pid) as (Hd0 & Htr0 & Hcu0).
  generalize dependent (binit (zero_bst d pid)). intros t I Hd0 Htr0 Hcu0.
  destruct (read_block_run lock_addr t ∅ 1 I) as (i & t1 & ch & t2 & E1 & Hd1 & E2 & I2 & Hdk & Htr & Hcu);
    [lia | rewrite map_size_empty; unfold NBUF; lia |].
  set (l0 := mk_log false (i32 start) (i32 nlog) 0 false 1 0 (replicate (Z.to_nat LOGSIZE) 0)).
  assert (i32 start = start /\ i32 nlog = nlog) as [Hi1 Hi2] by (rewrite !i32_small by lia; done).
  destruct (recover_run l0 t2) as (l' & t' & E3 & A & Ho & Hc & Hlk & I' & Hdk' & Htr' & Hcu');
    [done | done | done | apply length_replicate | done | by rewrite Hdk, Hd0 |].
  rewrite Hdk, Htr, Hd0, Htr0 in *.
  exists l', t'. split; [|split_and!; try done; congruence].
  unfold initlog, readsb. change (Z.of_nat BSIZE <=? 4 * (1 + LOGSIZE)) with false.
  unfold bind at 1, ret at 1. rewrite (bind_ret _ _ _ _ _ (logm_run (modify _) _ t tt _ eq_refl)).
  erewrite bind_ret; [|run_bio E1; rewrite (bind_ret _ _ _ _ _ (getb_run _ _ t1)); run_bio E2; reflexivity].
  rewrite (bind_ret _ _ _ _ _ (logm_run (modify _) _ t2 tt _ eq_refl)).
  rewrite Hd1. unfold view. rewrite lookup_empty, Hd0. cbn [default]. change (Z.to_nat 1) with 1%nat. rewrite (d_logstart _ W), (d_nlog _ W). exact E3.
Qed.
End run.
