(* ===== verification/Crash.v ===== *)
(** * Crash safety of the log

    Disk writes are synchronous and in order, so a crash leaves the disk with
    a prefix of the writes that the running operation would have made.
    [committed] is the disk as recovery will leave it; every prefix of the
    writes of a commit keeps it at the old contents or at the new ones, and
    every prefix of the writes of a recovery keeps it. *)

From S2P Require Import Prelude Sleeplock Bio BioInv Log LogInv.

Section crash.
Context (lock_addr : nat -> Z) `{DR : Driver}.
Context (start nlog : Z).
Abbreviation wf_disk := (wf_disk start nlog).
Abbreviation home := (home start nlog).
Abbreviation trans := (trans start nlog).
Abbreviation in_log := (in_log start nlog).
Abbreviation hdr := (hdr start).
Abbreviation disk_trans := (disk_trans start).
Abbreviation log_contents := (log_contents start).
Abbreviation log_writes := (log_writes start).
Abbreviation recover_writes := (recover_writes start).
Abbreviation commit_writes := (commit_writes start).
Abbreviation at_log := (at_log start nlog).

(** What recovery will leave in the block [b]. *)
Definition committed (d : blocks) (b : Z) : list Z :=
  match find_index (Z.eqb b) (disk_trans d) with
  | Some i => d !!! Z.to_nat (start + Z.of_nat i + 1)
  | None => d !!! Z.to_nat b
  end.

(** A log with the blocks [bl] waiting for the commit, nothing in use. *)
Record quiet (s : lst) (D : gmap Z (list Z)) (bl : list Z) : Prop := {
  q_log : at_log (lg s) bl;
  q_trans : trans bl;
  q_cache : cache (bc s) D ∅;
  q_pinned : pinned D bl;
  q_disk : wf_disk (disk (bc s));
  q_header : header_n (hdr (disk (bc s))) = 0;
}.

(** The kernel at boot, before [initlog]. *)
Definition boot (d : blocks) (pid : Z) : lst := mk_lst zero_log (binit (zero_bst d pid)).

(** A recovery that crashes after some of its writes. *)
Definition crashed_recovery (d d' : blocks) : Prop :=
  exists pid r k, initlog lock_addr 1 (boot d pid) = Ret tt r /\ d' = apply_writes d (take k (trace (bc r))).

Section proofs.
Hypothesis Hstart : 2 <= start.
Hypothesis Hnlog : 1 <= nlog <= LOGSIZE.
Hypothesis Hend : start + nlog <= nblocks.

Lemma in_log_start : in_log start.
Proof. unfold LogInv.in_log. lia. Qed.

Lemma trans_nil : trans [].
Proof. split; [constructor | constructor | cbn; lia]. Qed.

Lemma committed_in d i b : trans (disk_trans d) -> disk_trans d !! i = Some b ->
  committed d b = d !!! Z.to_nat (start + Z.of_nat i + 1).
Proof.
  intros T Hi. unfold committed. rewrite (find_index_first _ _ i b); [done | done | apply Z.eqb_refl |].
  intros j y Hj Hy. apply Z.eqb_neq. intros <-.
  assert (j = i) by (eapply NoDup_lookup; [apply (t_nodup _ _ _ T)|..]; done). lia.
Qed.

Lemma committed_out d b : b ∉ disk_trans d -> committed d b = d !!! Z.to_nat b.
Proof.
  intros Hb. unfold committed. rewrite (proj2 (find_index_None _ _)); [done|].
  apply Forall_forall. intros x Hx. apply Z.eqb_neq. congruence.
Qed.

(** Writes that leave the superblock alone keep everything but the header. *)
Definition fine (x : Z * list Z) : Prop := 0 <= x.1 < nblocks /\ x.1 <> 1 /\ length x.2 = BSIZE.

Lemma apply_len d w b :
  nblocks <= Z.of_nat (length d) -> (forall b, 0 <= b < nblocks -> length (d !!! Z.to_nat b) = BSIZE) ->
  Forall fine w -> 0 <= b < nblocks -> length (apply_writes d w !!! Z.to_nat b) = BSIZE.
Proof.
  revert d. induction w as [|x w IH]; intros d Hn Hd Hw Hb; cbn; [by apply Hd|].
  apply Forall_cons in Hw as [(Hx & Hx1 & Hxl) Hw]. apply IH; try done; [by rewrite length_insert|].
  intros b' Hb'. destruct (decide (x.1 = b')) as [<-|Hne].
  - rewrite insert_at by lia. done.
  - rewrite insert_ne by lia. by apply Hd.
Qed.

Lemma wf_apply d w :
  wf_disk d -> Forall fine w ->
  let d' := apply_writes d w in
  hdr d' = hdr d \/ header_n (hdr d') = 0 -> wf_disk d'.
Proof.
  intros W Hw d' Hh. pose proof (apply_length d w) as Hl.
  assert (d' !!! 1%nat = d !!! 1%nat) as H1.
  { apply (apply_ne d w 1); [lia|]. eapply Forall_impl; [exact Hw|]. intros x (? & ? & _). lia. }
  assert (disk_trans d' = disk_trans d \/ disk_trans d' = []) as Ht.
  { unfold LogInv.disk_trans. destruct Hh as [-> | ->]; [by left | by right]. }
  split.
  - unfold d'. rewrite Hl. apply (d_size _ _ _ W).
  - intros b Hb. apply apply_len; [apply (d_size _ _ _ W) | apply (d_len _ _ _ W) | done..].
  - rewrite H1. apply (d_logstart _ _ _ W).
  - rewrite H1. apply (d_nlog _ _ _ W).
  - destruct Hh as [-> | ->]; [apply (d_n _ _ _ W) | done].
  - destruct Ht as [-> | ->]; [apply (d_trans _ _ _ W) | apply trans_nil].
Qed.

Lemma zip_fine bl (cs : blocks) :
  Forall home bl -> Forall (fun c => length c = BSIZE) cs -> Forall fine (zip bl cs).
Proof.
  intros Hh Hc. apply Forall_forall. intros [b c] Hx.
  pose proof (elem_of_zip_l _ _ _ _ Hx) as Hb. pose proof (elem_of_zip_r _ _ _ _ Hx) as Hcc.
  destruct (proj1 (Forall_forall _ _) Hh b Hb) as (? & _ & ?).
  split; [done|]. split; [done|]. by apply (proj1 (Forall_forall _ _) Hc).
Qed.

Lemma log_contents_len d n :
  wf_disk d -> Z.of_nat n < nlog -> Forall (fun c => length c = BSIZE) (log_contents d n).
Proof.
  intros W Hn. apply Forall_fmap, Forall_forall. intros i Hi. apply elem_of_seq in Hi. cbn.
  apply (d_len _ _ _ W). lia.
Qed.

(** ** Recovery *)

(** Some of the home blocks written: the log is as it was. *)
Lemma install_prefix d k :
  wf_disk d ->
  let W := zip (disk_trans d) (log_contents d (length (disk_trans d))) in
  let d' := apply_writes d (take k W) in
  wf_disk d' /\ hdr d' = hdr d /\ forall b, home b -> committed d' b = committed d b.
Proof.
  intros W0 W d'. pose proof (d_trans _ _ _ W0) as T. pose proof (t_len _ _ _ T) as Hlen.
  assert (forall a, in_log a -> d' !!! Z.to_nat a = d !!! Z.to_nat a) as Hlog.
  { intros a Ha. apply apply_ne; [unfold LogInv.in_log in Ha; lia|].
    apply Forall_take, (zip_ne_log start nlog); [apply (t_home _ _ _ T) | done]. }
  assert (hdr d' = hdr d) as Hh by apply Hlog, in_log_start.
  assert (disk_trans d' = disk_trans d) as Ht by (unfold LogInv.disk_trans; by rewrite Hh).
  split.
  { apply wf_apply; [done | | by left]. apply Forall_take, zip_fine; [apply (t_home _ _ _ T)|].
    by apply log_contents_len. }
  split; [done|]. intros b Hb. destruct (decide (b ∈ disk_trans d)) as [Hin|Hout].
  - apply list_elem_of_lookup in Hin as [i Hi]. pose proof (lookup_lt_Some _ _ _ Hi).
    rewrite (committed_in d i b), (committed_in d' i b) by (rewrite ?Ht; done).
    apply Hlog. unfold LogInv.in_log. lia.
  - rewrite !committed_out by (rewrite ?Ht; done). apply apply_ne; [apply Hb|].
    apply Forall_forall. intros [x c] Hx. apply elem_of_take in Hx as (i & Hx & _).
    apply list_elem_of_lookup_2 in Hx. pose proof (elem_of_zip_l _ _ _ _ Hx) as Hxb. cbn.
    split; [by apply (proj1 (Forall_forall _ _) (t_home _ _ _ T) x Hxb) | congruence].
Qed.

(** All of them written. *)
Lemma install_all d :
  wf_disk d ->
  let W := zip (disk_trans d) (log_contents d (length (disk_trans d))) in
  forall b, home b -> apply_writes d W !!! Z.to_nat b = committed d b.
Proof.
  intros W0 W b Hb. pose proof (d_trans _ _ _ W0) as T. pose proof (t_len _ _ _ T) as Hlen.
  destruct (decide (b ∈ disk_trans d)) as [Hin|Hout].
  - apply list_elem_of_lookup in Hin as [i Hi]. pose proof (lookup_lt_Some _ _ _ Hi).
    rewrite (committed_in d i b T Hi). apply apply_in with i.
    + unfold W. apply lookup_zip_with_Some. eexists b, _. split_and!; [done.. |].
      unfold LogInv.log_contents. by rewrite list_lookup_fmap, lookup_seq_lt.
    + unfold W. rewrite fst_zip; [apply (t_nodup _ _ _ T)|]. by rewrite log_contents_length.
    + eapply Forall_impl; [apply zip_fine; [apply (t_home _ _ _ T) | by apply log_contents_len]|].
      intros x (? & _). lia.
    + pose proof (d_size _ _ _ W0). destruct Hb as [? _]. lia.
  - rewrite (committed_out d b Hout). apply apply_ne; [apply Hb|].
    apply Forall_forall. intros [x c] Hx. pose proof (elem_of_zip_l _ _ _ _ Hx) as Hxb. cbn.
    split; [by apply (proj1 (Forall_forall _ _) (t_home _ _ _ T) x Hxb) | congruence].
Qed.

Lemma header0_len d : length d = BSIZE -> length (put_header 0 [] d) = BSIZE.
Proof. intros H. by apply (put_header_length [] d); [cbn; lia|]. Qed.

(** The header is cleared at the end. *)
Lemma clear_header d b :
  wf_disk d -> let d' := apply_writes d [(start, put_header 0 [] (hdr d))] in
  wf_disk d' /\ header_n (hdr d') = 0 /\ (home b -> d' !!! Z.to_nat b = d !!! Z.to_nat b).
Proof.
  intros W d'. pose proof (d_size _ _ _ W).
  assert (hdr d' = put_header 0 [] (hdr d)) as Hh by (apply insert_at; cbn [fst]; lia).
  assert (length (hdr d) = BSIZE) as Hl by (apply (d_len _ _ _ W); lia).
  assert (header_n (hdr d') = 0) as H0 by (rewrite Hh; by apply put_header_n).
  split.
  - apply wf_apply; [done | | by right]. constructor; [|constructor]. unfold fine. cbn.
    rewrite header0_len by done. split_and!; lia.
  - split; [done|]. intros ((? & _) & Hn & _). apply insert_ne. cbn [fst].
    unfold LogInv.in_log in Hn. lia.
Qed.

(** The recovery's writes, cut anywhere. *)
Lemma recover_prefix d k :
  wf_disk d ->
  let d' := apply_writes d (take k (recover_writes d)) in
  wf_disk d' /\ forall b, home b -> committed d' b = committed d b.
Proof.
  intros W d'. unfold d', LogInv.recover_writes. set (Z0 := zip _ _).
  destruct (decide (k <= length Z0)%nat) as [Hk|Hk].
  - rewrite take_app_le by done. destruct (install_prefix d k W) as (W' & _ & Hc). done.
  - rewrite (take_ge (Z0 ++ _)) by (rewrite length_app; cbn; lia). rewrite apply_app.
    destruct (install_prefix d (length Z0) W) as (W' & Hh & Hc). fold Z0 in W', Hh, Hc.
    rewrite firstn_all in *. rewrite <- Hh.
    destruct (clear_header _ 0 W') as (W'' & H0 & _). split; [done|]. intros b Hb.
    rewrite committed_out by (unfold LogInv.disk_trans; rewrite H0; apply not_elem_of_nil).
    destruct (clear_header _ b W') as (_ & _ & ->); [|done]. by apply install_all.
Qed.

Lemma recover_all d b :
  wf_disk d -> home b -> apply_writes d (recover_writes d) !!! Z.to_nat b = committed d b.
Proof.
  intros W Hb. unfold LogInv.recover_writes. rewrite apply_app. set (Z0 := zip _ _).
  destruct (install_prefix d (length Z0) W) as (W' & Hh & _). fold Z0 in W', Hh. rewrite firstn_all in *.
  rewrite <- Hh. destruct (clear_header _ b W') as (_ & _ & ->); [|done]. by apply install_all.
Qed.
(** ** Commit *)

Lemma no_trans d b : header_n (hdr d) = 0 -> committed d b = d !!! Z.to_nat b.
Proof. intros H. apply committed_out. unfold LogInv.disk_trans. rewrite H. apply not_elem_of_nil. Qed.

Lemma log_writes_fine cs :
  Forall (fun c => length c = BSIZE) cs -> Z.of_nat (length cs) < nlog -> Forall fine (log_writes cs).
Proof.
  intros Hc Hl. apply Forall_lookup. intros i x Hi. pose proof (lookup_lt_Some _ _ _ Hi) as Hlt.
  unfold LogInv.log_writes in Hlt. rewrite length_imap in Hlt.
  apply log_writes_at in Hi as (c & Hci & ->). unfold fine. cbn.
  rewrite (Forall_lookup_1 _ _ _ _ Hc Hci). lia.
Qed.

(** Some of the log blocks written: nothing is committed. *)
Lemma log_prefix d cs k :
  wf_disk d -> header_n (hdr d) = 0 -> Forall (fun c => length c = BSIZE) cs -> Z.of_nat (length cs) < nlog ->
  let d' := apply_writes d (take k (log_writes cs)) in
  wf_disk d' /\ hdr d' = hdr d /\ forall b, home b -> committed d' b = d !!! Z.to_nat b.
Proof.
  intros W H0 Hc Hl d'.
  assert (forall b, 0 <= b -> ~ (in_log b /\ b <> start) -> d' !!! Z.to_nat b = d !!! Z.to_nat b) as Hsame.
  { intros b Hb Hn. apply apply_ne; [done|]. apply Forall_take. by apply (log_writes_ne start nlog Hstart). }
  assert (hdr d' = hdr d) as Hh by (apply Hsame; [lia | tauto]).
  split; [apply wf_apply; [done | by apply Forall_take, log_writes_fine | by left]|]. split; [done|].
  intros b (Hb & Hn & _). rewrite no_trans by by rewrite Hh. apply Hsame; [lia | tauto].
Qed.

(** The header written. *)
Lemma header_written d D bl :
  wf_disk d -> header_n (hdr d) = 0 -> trans bl -> Forall (fun c => length c = BSIZE) (contents D bl) ->
  let d1 := apply_writes d (log_writes (contents D bl)) in
  let d' := apply_writes d (log_writes (contents D bl) ++ [(start, header_of start d bl)]) in
  wf_disk d1 /\ hdr d1 = hdr d /\ (forall b, home b -> committed d1 b = d !!! Z.to_nat b) /\
  d' = <[Z.to_nat start := header_of start d bl]> d1 /\ hdr d' = header_of start d bl /\
  (forall b, b <> start -> 0 <= b -> d' !!! Z.to_nat b = d1 !!! Z.to_nat b) /\
  disk_trans d' = bl /\ log_contents d' (length bl) = contents D bl.
Proof.
  intros W H0 T Hc d1 d'. pose proof (t_len _ _ _ T) as Hlen. pose proof (d_size _ _ _ W).
  assert (length (contents D bl) = length bl) as Hcs by apply length_fmap.
  assert (length bl <= 30)%nat as H30 by (unfold LOGSIZE, MAXOPBLOCKS in *; lia).
  destruct (log_prefix d (contents D bl) (length (log_writes (contents D bl))) W H0 Hc ltac:(lia)) as (W1 & Hh1 & Hc1).
  rewrite firstn_all in *. fold d1 in W1, Hh1, Hc1.
  assert (length (hdr d) = BSIZE) as Hhl by (apply (d_len _ _ _ W); lia).
  assert (d' = <[Z.to_nat start := header_of start d bl]> d1) as Hd' by (unfold d'; by rewrite apply_app).
  assert (hdr d' = header_of start d bl) as Hh.
  { rewrite Hd'. apply insert_at. unfold d1. rewrite apply_length. lia. }
  assert (disk_trans d' = bl) as Ht.
  { apply list_eq. intros i. unfold LogInv.disk_trans. rewrite Hh. unfold header_of.
    rewrite put_header_n by (done || lia). rewrite Nat2Z.id, list_lookup_fmap.
    destruct (bl !! i) as [b|] eqn:Hi.
    - rewrite lookup_seq_lt by by apply lookup_lt_Some in Hi. cbn. f_equal.
      apply put_header_block; try done. by destruct (trans_at start nlog bl i b T Hi).
    - by rewrite lookup_seq_ge by by apply lookup_ge_None. }
  assert (forall b, b <> start -> 0 <= b -> d' !!! Z.to_nat b = d1 !!! Z.to_nat b) as Hne.
  { intros b Hb Hb0. rewrite Hd'. apply insert_ne. lia. }
  assert (log_contents d' (length bl) = contents D bl) as Hlc.
  { rewrite (log_contents_ext start nlog d1), <- Hcs by
      first [lia | intros x Hx Hxs; apply Hne; [done | unfold LogInv.in_log in Hx; lia]].
    apply (log_writes_contents start nlog); lia. }
  done.
Qed.

Lemma header_written_wf d D bl :
  wf_disk d -> header_n (hdr d) = 0 -> trans bl -> Forall (fun c => length c = BSIZE) (contents D bl) ->
  wf_disk (apply_writes d (log_writes (contents D bl) ++ [(start, header_of start d bl)])).
Proof.
  intros W H0 T Hc. pose proof (t_len _ _ _ T) as Hlen.
  destruct (header_written d D bl W H0 T Hc) as (W1 & Hh1 & Hc1 & Hd' & Hh & Hne & Ht & Hlc).
  assert (length (contents D bl) = length bl) as Hcs by apply length_fmap.
  assert (length bl <= 30)%nat as H30 by (unfold LOGSIZE, MAXOPBLOCKS in *; lia).
  assert (length (hdr d) = BSIZE) as Hhl by (apply (d_len _ _ _ W); lia).
  split.
  - rewrite Hd', length_insert. apply (d_size _ _ _ W1).
  - intros b Hb. apply apply_len; try done; [apply (d_size _ _ _ W) | apply (d_len _ _ _ W) |].
      apply Forall_app. split; [apply log_writes_fine; [done | lia]|]. constructor; [|constructor]. unfold fine. cbn.
      unfold header_of. rewrite put_header_length by done. lia.
  - change 1%nat with (Z.to_nat 1). rewrite Hne by lia. apply (d_logstart _ _ _ W1).
  - change 1%nat with (Z.to_nat 1). rewrite Hne by lia. apply (d_nlog _ _ _ W1).
  - rewrite Hh. unfold header_of. rewrite put_header_n by (done || lia). lia.
  - by rewrite Ht.
Qed.

(** From there on everything is committed, and what is left to do is what
    recovery does. *)
Lemma commit_point d D bl :
  wf_disk d -> header_n (hdr d) = 0 -> trans bl -> pinned D bl ->
  Forall (fun c => length c = BSIZE) (contents D bl) ->
  let d' := apply_writes d (log_writes (contents D bl) ++ [(start, header_of start d bl)]) in
  wf_disk d' /\ (forall b, home b -> committed d' b = default (d !!! Z.to_nat b) (D !! b)) /\
  commit_writes d bl (contents D bl) =
    log_writes (contents D bl) ++ [(start, header_of start d bl)] ++ recover_writes d'.
Proof.
  intros W H0 T P Hc d'. destruct (header_written d D bl W H0 T Hc) as (W1 & Hh1 & Hc1 & Hd' & Hh & Hne & Ht & Hlc).
  fold d' in Hh, Hne, Ht, Hlc. split; [by apply header_written_wf|].
  split.
  - intros b Hb. pose proof Hb as (Hb0 & Hnl & _).
    assert (b <> start) as Hbs by (unfold LogInv.in_log in Hnl; lia).
    destruct (decide (b ∈ bl)) as [Hin|Hout].
    + apply list_elem_of_lookup in Hin as [i Hi]. rewrite (committed_in d' i b) by (rewrite Ht; done).
      destruct (pinned_at D bl i b P Hi) as [c Hcb]. rewrite Hcb. cbn [default].
      assert (contents D bl !! i = Some c) as Hci by (unfold contents; by rewrite list_lookup_fmap, Hi; cbn; rewrite Hcb).
      rewrite <- Hlc in Hci. unfold LogInv.log_contents in Hci. rewrite list_lookup_fmap, lookup_seq_lt in Hci
        by by apply lookup_lt_Some in Hi. by injection Hci.
    + rewrite committed_out by by rewrite Ht. rewrite Hne by lia.
      assert (D !! b = None) as -> by (apply not_elem_of_dom; by rewrite P, elem_of_list_to_set).
      cbn [default]. rewrite <- Hc1 by done. by rewrite no_trans by by rewrite Hh1.
  - unfold LogInv.commit_writes, LogInv.recover_writes. by rewrite Ht, Hlc, Hh.
Qed.
(** ** Crashes, one after the other *)

Lemma crashed_keeps d d' :
  star crashed_recovery d d' -> wf_disk d ->
  wf_disk d' /\ forall b, home b -> committed d' b = committed d b.
Proof.
  induction 1 as [d|d d1 d2 _ IH Hstep]; intros W; [done|].
  destruct (IH W) as [W1 Hc1]. destruct Hstep as (pid & r & k & E & ->).
  destruct (initlog_run lock_addr start nlog Hstart Hnlog Hend d1 pid W1) as (l' & t' & E' & _ & _ & _ & _ & _ & _ & Htr & _).
  change (initlog lock_addr 1 (boot d1 pid) = Ret tt (mk_lst l' t')) in E'.
  assert (r = mk_lst l' t') as -> by congruence. cbn [bc]. rewrite Htr.
  destruct (recover_prefix d1 k W1) as [W2 Hc2]. split; [done|]. intros b Hb. by rewrite Hc2, Hc1.
Qed.

(** A recovery that is not interrupted. *)
Lemma recovers d pid :
  wf_disk d -> exists r, initlog lock_addr 1 (boot d pid) = Ret tt r /\ quiet r ∅ [] /\
    forall b, home b -> disk (bc r) !!! Z.to_nat b = committed d b.
Proof.
  intros W. destruct (initlog_run lock_addr start nlog Hstart Hnlog Hend d pid W)
    as (l' & t' & E & A & _ & _ & _ & I & Hdk & _). exists (mk_lst l' t'). split; [exact E|].
  assert (wf_disk (disk t') /\ header_n (hdr (disk t')) = 0) as [W' H0].
  { rewrite Hdk. unfold LogInv.recover_writes. rewrite apply_app. set (Z0 := zip _ _).
    destruct (install_prefix d (length Z0) W) as (W1 & Hh & _). fold Z0 in W1, Hh. rewrite firstn_all in *.
    rewrite <- Hh. destruct (clear_header _ 0 W1) as (W2 & H0 & _). exact (conj W2 H0). }
  split; [split; [exact A | apply trans_nil | exact I | done | exact W' | exact H0]|]. intros b Hb. cbn [bc]. rewrite Hdk. apply recover_all; assumption.
Qed.

Lemma quiet_contents s D bl : quiet s D bl -> Forall (fun c => length c = BSIZE) (contents D bl).
Proof.
  intros Q. apply Forall_fmap, Forall_forall. intros b Hb. cbn. apply list_elem_of_lookup in Hb as [i Hi].
  destruct (pinned_at D bl i b (q_pinned _ _ _ Q) Hi) as [c Hc]. rewrite Hc.
  eauto using pinned_len, q_cache.
Qed.

(** The disk after the first [k] writes of a commit. *)
Lemma commit_prefix s D bl k :
  quiet s D bl -> let W := commit_writes (disk (bc s)) bl (contents D bl) in
  let d' := apply_writes (disk (bc s)) (take k W) in
  wf_disk d' /\
  ((k <= length bl)%nat /\ (forall b, home b -> committed d' b = disk (bc s) !!! Z.to_nat b) \/
   (length bl < k)%nat /\ (forall b, home b -> committed d' b = view (bc s) D b)).
Proof.
  intros Q W d'. pose proof (quiet_contents _ _ _ Q) as Hc. destruct Q as [A T I P Wf H0].
  assert (length (log_writes (contents D bl)) = length bl) as Hl
    by (unfold LogInv.log_writes; rewrite length_imap; apply length_fmap).
  destruct (commit_point _ D bl Wf H0 T P Hc) as (W2 & Hc2 & HW). unfold d', W. rewrite HW.
  destruct (decide (k <= length bl)%nat) as [Hk|Hk].
  - rewrite take_app_le by lia. destruct (log_prefix _ (contents D bl) k Wf H0 Hc) as (W1 & _ & Hc1); [|by split; [|left]].
    assert (length (contents D bl) = length bl) as -> by apply length_fmap. apply (t_len _ _ _ T).
  - rewrite app_assoc, take_app_ge by (rewrite length_app; cbn; lia). rewrite apply_app.
    destruct (recover_prefix _ (k - length (log_writes (contents D bl) ++ [(start, header_of start (disk (bc s)) bl)])) W2)
      as [W3 Hc3]. split; [done|]. right. split; [lia|]. intros b Hb. rewrite Hc3, Hc2 by done. done.
Qed.

(** A commit returns, and its writes are [commit_writes]. *)
Lemma commit_quiet s D bl :
  quiet s D bl -> bl <> [] ->
  let W := commit_writes (disk (bc s)) bl (contents D bl) in
  exists t', commit lock_addr s = Ret tt (mk_lst (set_n 0 (lg s)) t') /\ quiet (mk_lst (set_n 0 (lg s)) t') ∅ [] /\
    disk t' = apply_writes (disk (bc s)) W /\ trace t' = trace (bc s) ++ W.
Proof.
  intros Q Hne W. pose proof (quiet_contents _ _ _ Q) as Hc. destruct s as [l t]. cbn [lg bc] in *.
  destruct (commit_run lock_addr start nlog Hstart Hnlog Hend l t D bl (q_trans _ _ _ Q) (q_log _ _ _ Q) Hne
    (q_cache _ _ _ Q) (q_pinned _ _ _ Q)) as (t' & E & I' & Hdk & Htr & _). fold W in Hdk, Htr.
  exists t'. split; [exact E|]. split; [|by split].
  destruct (commit_point (disk t) D bl (q_disk _ _ _ Q) (q_header _ _ _ Q) (q_trans _ _ _ Q) (q_pinned _ _ _ Q) Hc)
    as (W2 & _ & HW). fold W in HW. rewrite HW, app_assoc, apply_app in Hdk.
  set (d2 := apply_writes (disk t) _) in *. unfold LogInv.recover_writes in Hdk. rewrite apply_app in Hdk.
  set (Z0 := zip _ _) in *. destruct (install_prefix d2 (length Z0) W2) as (W1 & Hh & _).
  fold Z0 in W1, Hh. rewrite firstn_all in *. rewrite <- Hh in Hdk.
  destruct (clear_header _ 0 W1) as (W3 & H0 & _).
  split; cbn [lg bc]; [eapply at_log_clear, Q | apply trans_nil | exact I' | done | rewrite Hdk; exact W3 | rewrite Hdk; exact H0].
Qed.

(** A crash after [k] writes of the commit, and crashed recoveries. *)
Lemma crash_recovers s D bl k d pid :
  quiet s D bl ->
  star crashed_recovery (apply_writes (disk (bc s)) (take k (commit_writes (disk (bc s)) bl (contents D bl)))) d ->
  exists r, initlog lock_addr 1 (boot d pid) = Ret tt r /\ quiet r ∅ [] /\
    ((k <= length bl)%nat /\ (forall b, home b -> disk (bc r) !!! Z.to_nat b = disk (bc s) !!! Z.to_nat b) \/
     (length bl < k)%nat /\ (forall b, home b -> disk (bc r) !!! Z.to_nat b = view (bc s) D b)).
Proof.
  intros Q Hstar. destruct (commit_prefix s D bl k Q) as [Wk Hk].
  destruct (crashed_keeps _ d Hstar Wk) as [Wd Hcd]. destruct (recovers d pid Wd) as (r & Er & Qr & Hr).
  exists r. split; [exact Er|]. split; [exact Qr|].
  destruct Hk as [[Hk Hold]|[Hk Hnew]]; [left|right]; (split; [done|]); intros b Hb; rewrite Hr, Hcd by done; auto.
Qed.

(** C1: the log makes a transaction atomic.  [commit] returns and clears the
    log; when the machine stops after any number [k] of the commit's disk
    writes, and then again in any number of recoveries, the next [initlog]
    returns, and every block outside the log holds its contents from before
    the transaction (up to the write of the header) or the transaction's
    contents (from the write of the header on), all blocks the same way. *)
Theorem crash_safety s D bl :
  quiet s D bl -> bl <> [] ->
  exists s' W, commit lock_addr s = Ret tt s' /\ quiet s' ∅ [] /\
    disk (bc s') = apply_writes (disk (bc s)) W /\ trace (bc s') = trace (bc s) ++ W /\
    forall k d pid, star crashed_recovery (apply_writes (disk (bc s)) (take k W)) d ->
    exists r, initlog lock_addr 1 (boot d pid) = Ret tt r /\ quiet r ∅ [] /\
      ((k <= length bl)%nat /\ (forall b, home b -> disk (bc r) !!! Z.to_nat b = disk (bc s) !!! Z.to_nat b) \/
       (length bl < k)%nat /\ (forall b, home b -> disk (bc r) !!! Z.to_nat b = view (bc s) D b)).
Proof.
  intros Q Hne. destruct (commit_quiet s D bl Q Hne) as (t' & E & Q' & Hdk & Htr).
  eexists _, _. split; [exact E|]. split; [exact Q'|]. split; [exact Hdk|]. split; [exact Htr|].
  intros k d pid. by apply crash_recovers.
Qed.

(** A whole commit leaves the new contents. *)
Lemma commit_installs s D bl b :
  quiet s D bl -> bl <> [] -> home b ->
  apply_writes (disk (bc s)) (commit_writes (disk (bc s)) bl (contents D bl)) !!! Z.to_nat b = view (bc s) D b.
Proof.
  intros Q Hne Hb. set (W := commit_writes _ _ _). destruct (commit_quiet s D bl Q Hne) as (t' & _ & Q' & Hdk & _).
  destruct (commit_prefix s D bl (S (length W + length bl)) Q) as [_ [[Hk _]|[_ Hnew]]]; [lia|]. fold W in Hnew.
  rewrite take_ge in Hnew by lia. rewrite <- (Hnew b Hb), committed_out; [done|].
  unfold LogInv.disk_trans. fold W in Hdk. pose proof (q_header _ _ _ Q') as H0. cbn [bc] in H0. rewrite Hdk in H0. rewrite H0.
  apply not_elem_of_nil.
Qed.
End proofs.
End crash.


(** A disk of 40 blocks with the log in blocks 2 to 31, and a transaction
    that writes the block 35. *)
Definition demo_driver : Driver := memide 20480.
#[local] Existing Instance demo_driver.
Definition demo_disk : blocks :=
  <[1%nat := set32 (set32 (replicate BSIZE 0) 12 30) 16 2]> (replicate 40 (replicate BSIZE 0)).
Definition demo_block : list Z := replicate BSIZE 7.
Definition demo_boot : bst := binit (zero_bst demo_disk 1).
Definition demo_pinned (s : bst) : lst :=
  mk_lst (mk_log false 2 30 0 false 1 1 (35 :: replicate 29 0))
    (set_bufs (<[0%nat := mk_buf 6 1 35 initsleeplock 0 demo_block]> (bufs s)) s).
Definition demo_state : lst := demo_pinned demo_boot.

Lemma demo_disk_wf : wf_disk 2 30 demo_disk.
Proof.
  assert (length demo_disk = 40%nat) as Hl by (unfold demo_disk; by rewrite length_insert, length_replicate).
  assert (nblocks = 40) as Hn by by vm_compute.
  assert (header_n (hdr 2 demo_disk) = 0) as H0 by by vm_compute.
  assert (disk_trans 2 demo_disk = []) as Ht by (unfold disk_trans; by rewrite H0).
  split.
  - rewrite Hl, Hn. done.
  - intros b Hb. rewrite Hn in Hb. unfold demo_disk. destruct (decide (b = 1)) as [->|Hb1]; [by vm_compute|].
    rewrite insert_ne by lia. rewrite (list_lookup_total_correct _ _ (replicate BSIZE 0)).
    + apply length_replicate.
    + apply lookup_replicate_2. lia.
  - by vm_compute.
  - by vm_compute.
  - rewrite H0. done.
  - rewrite Ht. by apply trans_nil.
Qed.

Lemma demo_pinned_quiet s :
  cache s ∅ ∅ -> disk s = demo_disk -> (forall i, bufs s !!! i = zero_buf) ->
  quiet 2 30 (demo_pinned s) {[35 := demo_block]} [35].
Proof.
  intros I Hd Hz. split.
  - by split.
  - split; [apply NoDup_singleton | | done]. constructor; [|constructor]. unfold home, in_log.
    change nblocks with 40. lia.
  - unfold demo_pinned. cbn [bc]. apply (cache_buf s ∅ ∅).
    + exact I.
    + unfold NBUF. lia.
    + cbn [blockno]. change nblocks with 40. lia.
    + done.
    + cbn [blockno]. intros b Hb. by rewrite lookup_singleton_ne.
    + apply length_replicate.
    + set_solver.
    + intros _. split; [done|]. split; [done|]. right. split; [done|]. split; [cbn [blockno]; change nblocks with 40; lia|].
      right. split; [done|]. apply lookup_singleton_eq.
    + done.
    + by rewrite Hz.
    + intros j _ _. by rewrite Hz.
  - unfold pinned. by rewrite dom_singleton_L; cbn; rewrite union_empty_r_L.
  - unfold demo_pinned. cbn [bc disk set_bufs]. rewrite Hd. exact demo_disk_wf.
  - unfold demo_pinned. cbn [bc disk set_bufs]. rewrite Hd. by vm_compute.
Qed.

Lemma demo_quiet : quiet 2 30 demo_state {[35 := demo_block]} [35].
Proof.
  pose proof demo_disk_wf as W. apply demo_pinned_quiet.
  - exact (binit_cache demo_disk 1 (d_size _ _ _ W) (d_len _ _ _ W)).
  - exact (proj1 (binit_keeps demo_disk 1)).
  - intros i. unfold demo_boot. destruct (binit_eq demo_disk 1) as (n & p & -> & _). cbn [bufs].
    destruct (decide (i < NBUF)%nat).
    + by rewrite (list_lookup_total_correct _ _ zero_buf) by by apply lookup_replicate_2.
    + by rewrite lookup_total_ge by (rewrite length_replicate; lia).
Qed.

Lemma crash_safety_witness :
  quiet 2 30 demo_state {[35 := demo_block]} [35] /\
  exists s' W, commit (fun i => Z.of_nat i) demo_state = Ret tt s' /\
    disk (bc s') = apply_writes (disk (bc demo_state)) W /\
    exists r, initlog (fun i => Z.of_nat i) 1 (boot (apply_writes (disk (bc demo_state)) (take 2 W)) 1) = Ret tt r /\
      disk (bc r) !!! Z.to_nat 35 = demo_block.
Proof.
  pose proof demo_quiet as Q. split; [exact Q|].
  destruct (crash_safety (fun i => Z.of_nat i) 2 30 ltac:(lia) ltac:(done) ltac:(by vm_compute)
    demo_state {[35 := demo_block]} [35] Q ltac:(discriminate)) as (s' & W & E & _ & Hd & _ & Hcr).
  exists s', W. split; [exact E|]. split; [exact Hd|].
  destruct (Hcr 2%nat _ 1 (star_refl _ _)) as (r & Er & _ & [[Hk _]|[_ Hnew]]); [cbn in Hk; lia|].
  exists r. split; [exact Er|]. rewrite (Hnew 35); [unfold view; by rewrite lookup_singleton_eq|].
  unfold home, in_log. change nblocks with 40. lia.
Defined.
