(* ===== verification/LogOps.v ===== *)
(** * [begin_op], [log_write] and [end_op]

    What one operation does to the log, and the reservation of log space by
    any number of them. *)

From S2P Require Import Prelude Sleeplock Bio BioInv Log LogInv Crash.

Section ops.
Context (lock_addr : nat -> Z) `{DR : Driver}.
Context (start nlog : Z).

Definition add_block (b : Z) (bl : list Z) : list Z := if decide (b ∈ bl) then bl else bl ++ [b].

Lemma find_block bl b :
  Forall (fun x => 0 <= x < 2 ^ 31) bl -> NoDup bl ->
  match find_index (fun x => u32 x =? b) bl with
  | Some i => bl !! i = Some b
  | None => b ∉ bl
  end.
Proof.
  intros Hr Hnd. destruct (find_index _ bl) as [i|] eqn:E.
  - apply find_index_Some in E as (x & Hx & Hb & _). apply Z.eqb_eq in Hb.
    rewrite u32_small in Hb by (pose proof (Forall_lookup_1 _ _ _ _ Hr Hx); cbn in *; lia). congruence.
  - apply find_index_None in E. intros Hin.
    pose proof (proj1 (Forall_forall _ _) E b Hin) as Hb. pose proof (proj1 (Forall_forall _ _) Hr b Hin) as Hr'.
    cbn in *. rewrite u32_small in Hb by lia. by rewrite Z.eqb_refl in Hb.
Qed.

Lemma absorb_run l bl b :
  at_log start nlog l bl -> Forall (fun x => 0 <= x < 2 ^ 31) bl -> NoDup bl -> 0 <= b < 2 ^ 31 ->
  (length bl < 30)%nat ->
  at_log start nlog (absorb b l) (add_block b bl) /\
  l_lock (absorb b l) = l_lock l /\ l_outstanding (absorb b l) = l_outstanding l /\
  l_committing (absorb b l) = l_committing l.
Proof.
  intros A Hr Hnd Hb Hlen. unfold absorb. cbv zeta. rewrite (a_n _ _ _ _ A), Nat2Z.id, (a_block _ _ _ _ A).
  pose proof (find_block bl b Hr Hnd) as Hf. rewrite i32_small by lia. unfold add_block.
  assert (length (lh_block l) = 30%nat) as H30 by apply (a_len _ _ _ _ A).
  destruct (find_index _ bl) as [i|]; cbn [default from_option id].
  - pose proof (lookup_lt_Some _ _ _ Hf). rewrite decide_True by by eapply list_elem_of_lookup_2.
    rewrite (proj2 (Z.eqb_neq (Z.of_nat i) (Z.of_nat (length bl)))) by lia. split; [|done].
    destruct A as [A1 A2 A3 A4 A5 A6]. split; cbn; try done; [|by rewrite length_insert].
    rewrite list_insert_id; [done|]. rewrite <- A5, lookup_take in Hf. by case_decide.
  - rewrite decide_False by done. rewrite Z.eqb_refl. split; [|done].
    destruct A as [A1 A2 A3 A4 A5 A6]. split; cbn; try done; [| |by rewrite length_insert].
    + rewrite length_app; cbn. lia.
    + rewrite length_app, Nat.add_1_r, (take_S_r _ _ b) by (apply list_lookup_insert_eq; lia).
      by rewrite take_insert_ge, A5 by lia.
Qed.

Lemma trans_range bl : trans start nlog bl -> Forall (fun x => 0 <= x < 2 ^ 31) bl.
Proof.
  intros T. apply Forall_lookup. intros i b Hi. by destruct (trans_at _ _ _ _ _ T Hi).
Qed.

Lemma add_block_trans b bl :
  trans start nlog bl -> home start nlog b -> Z.of_nat (length bl) < nlog - 1 -> trans start nlog (add_block b bl).
Proof.
  intros [T1 T2 T3] Hb Hl. unfold add_block. case_decide; [done|]. split.
  - apply NoDup_app. split_and!; [done | set_solver | apply NoDup_singleton].
  - apply Forall_app. by split; [|constructor].
  - rewrite length_app. cbn. lia.
Qed.

Lemma add_block_pinned D bl b c : pinned D bl -> pinned (<[b := c]> D) (add_block b bl).
Proof.
  unfold pinned, add_block. intros P. rewrite dom_insert_L, P. case_decide; set_solver.
Qed.

(** [log_write] of a held buffer: the block is in the transaction, with what
    the buffer holds. *)
Lemma log_write_run l t D H bl i :
  trans start nlog bl -> at_log start nlog l bl -> cache t D H -> i ∈ H -> pinned D bl ->
  l_lock l = false -> 1 <= l_outstanding l -> home start nlog (block_of t i) ->
  nlog <= LOGSIZE -> Z.of_nat (length bl) < nlog - 1 ->
  let b := block_of t i in
  exists l' t', log_write i (mk_lst l t) = Ret tt (mk_lst l' t') /\
    at_log start nlog l' (add_block b bl) /\ cache t' (<[b := data (bufs t !!! i)]> D) H /\ only i t t' /\
    bufs t' !!! i = set_flags 6 (bufs t !!! i) /\
    l_lock l' = false /\ l_outstanding l' = l_outstanding l /\ l_committing l' = l_committing l.
Proof.
  intros T A I Hi P Hlk Hout Hhome Hnlog Hlen b.
  destruct (pin_spec t D H i I Hi) as (t' & E & I' & Ho & Hx).
  destruct (absorb_run (set_llock true l) bl b) as (A' & Hl' & Ho' & Hc');
    [by destruct A; split | by apply trans_range | apply (t_nodup _ _ _ T) | destruct Hhome; pose proof nblocks_int; lia
    | unfold LOGSIZE, MAXOPBLOCKS in Hnlog; lia |].
  exists (set_llock false (absorb b (set_llock true l))), t'. split.
  - unfold log_write. rewrite (bind_ret _ _ _ _ _ (getb_run i l t)). fold (block_of t i). fold b.
    rewrite (bind_ret _ _ _ tt (mk_lst (absorb b (set_llock true l)) t)).
    2:{ apply logm_run. unfold log_write_log, bind, get. rewrite (a_n _ _ _ _ A), (a_size _ _ _ _ A).
        rewrite (proj2 (Z.leb_gt LOGSIZE _)), (proj2 (Z.leb_gt (nlog - 1) _)), (proj2 (Z.ltb_ge (l_outstanding l) 1)) by lia.
        cbn [orb].
        unfold acquire_l. by rewrite Hlk. }
    rewrite (bind_ret _ _ _ _ _ (bio_run _ _ _ _ _ E)).
    apply logm_run. unfold release_l. by rewrite Hl'.
  - split; [by destruct A'; split|]. done.
Qed.
End ops.

(** ** Reservation of log space

    [ops] are the operations between their [begin_op] and [end_op], each with
    the number of blocks it may still write, [MAXOPBLOCKS] at first. *)

Module Reserve.

Record world := mk_world { wlog : log; ops : list Z }.

(** [log_write] as far as the log is concerned. *)
Definition write_one (bn : Z) : M log unit := log_write_log bn ;; release_l.
(** The end of a commit. *)
Definition commit_done : M log unit := modify (set_n 0) ;; end_op_finish.

Inductive event := Begin | Write (j : nat) (bn : Z) | End (j : nat) | Commit.

(** One event; [None] when it cannot happen, or panics. *)
Definition exec (log_addr : Z) (e : event) (w : world) : option world :=
  match e with
  | Begin =>
      match begin_op log_addr (wlog w) with
      | Ret _ l => Some (mk_world l (ops w ++ [MAXOPBLOCKS]))
      | Sleep _ l => Some (mk_world l (ops w))
      | _ => None
      end
  | Write j bn =>
      match ops w !! j with
      | Some r =>
          if 0 <? r then
            match write_one bn (wlog w) with
            | Ret _ l => Some (mk_world l (<[j := r - 1]> (ops w)))
            | _ => None
            end
          else None
      | None => None
      end
  | End j =>
      match ops w !! j with
      | Some _ =>
          match end_op_start (wlog w) with
          | Ret _ l => Some (mk_world l (delete j (ops w)))
          | _ => None
          end
      | None => None
      end
  | Commit =>
      if l_committing (wlog w) then
        match commit_done (wlog w) with
        | Ret _ l => Some (mk_world l (ops w))
        | _ => None
        end
      else None
  end.

Definition step (log_addr : Z) (w w' : world) : Prop := exists e, exec log_addr e w = Some w'.

Fixpoint run (log_addr : Z) (es : list event) (w : world) : option world :=
  match es with
  | [] => Some w
  | e :: es => match exec log_addr e w with Some w' => run log_addr es w' | None => None end
  end.

(** The log after [initlog], and no operation. *)
Definition init (start nlog : Z) : world :=
  mk_world (mk_log false start nlog 0 false 1 0 (replicate (Z.to_nat LOGSIZE) 0)) [].

Definition total (l : list Z) : Z := foldr Z.add 0 l.

Section proofs.
Context (log_addr start nlog : Z).

Record inv (w : world) : Prop := {
  r_lock : l_lock (wlog w) = false;
  r_size : l_size (wlog w) = nlog;
  r_out : l_outstanding (wlog w) = Z.of_nat (length (ops w));
  r_ops : Forall (fun r => 0 <= r <= MAXOPBLOCKS) (ops w);
  r_n : 0 <= lh_n (wlog w);
  r_space : lh_n (wlog w) + total (ops w) <= LOGSIZE;
  r_commit : l_committing (wlog w) = true -> ops w = [];
}.

Lemma total_app l1 l2 : total (l1 ++ l2) = total l1 + total l2.
Proof. unfold total. induction l1 as [|x l1 IH]; cbn [app foldr]; lia. Qed.

Lemma total_bound l : Forall (fun r => 0 <= r <= MAXOPBLOCKS) l -> 0 <= total l <= MAXOPBLOCKS * Z.of_nat (length l).
Proof. unfold MAXOPBLOCKS, total. induction 1; cbn [foldr length]; lia. Qed.

Lemma total_insert l j r r' : l !! j = Some r -> total (<[j := r']> l) = total l - r + r'.
Proof.
  unfold total. revert j. induction l as [|x l IH]; intros [|j] H; try done.
  - injection H as ->. cbn. lia.
  - specialize (IH j H). change (<[S j := r']> (x :: l)) with (x :: <[j := r']> l). cbn [foldr]. lia.
Qed.

Lemma total_delete l j r : l !! j = Some r -> total (delete j l) = total l - r.
Proof.
  unfold total. revert j. induction l as [|x l IH]; intros [|j] H; try done.
  - injection H as ->. cbn. lia.
  - specialize (IH j H). change (delete (S j) (x :: l)) with (x :: delete j l). cbn [foldr]. lia.
Qed.

(** The branches of the operations. *)
Lemma begin_op_eq l :
  l_lock l = false ->
  begin_op log_addr l =
    if l_committing l || (LOGSIZE <? lh_n l + (l_outstanding l + 1) * MAXOPBLOCKS) then Sleep log_addr l
    else Ret tt (set_outstanding (l_outstanding l + 1) l).
Proof.
  destruct l as [k st sz o c d n bl]; cbn. intros ->.
  unfold begin_op, begin_check, bind, acquire_l, sleep_l, get. cbn.
  destruct c; [done|]. by destruct (LOGSIZE <? _).
Qed.

Lemma end_op_start_eq l :
  l_lock l = false -> l_committing l = false ->
  end_op_start l =
    if l_outstanding l - 1 =? 0 then Ret true (set_committing true (set_outstanding (l_outstanding l - 1) l))
    else Ret false (set_outstanding (l_outstanding l - 1) l).
Proof.
  destruct l as [k st sz o c d n bl]; cbn. intros -> ->.
  unfold end_op_start, bind, acquire_l, get, modify. cbn. by destruct (o - 1 =? 0).
Qed.

Lemma write_one_eq l bn :
  l_lock l = false -> lh_n l < LOGSIZE -> lh_n l < l_size l - 1 -> 1 <= l_outstanding l ->
  write_one bn l = Ret tt (set_llock false (absorb bn (set_llock true l))).
Proof.
  intros Hk Hn Hs Ho. unfold write_one, log_write_log, bind, get.
  rewrite (proj2 (Z.leb_gt LOGSIZE _)), (proj2 (Z.leb_gt (l_size l - 1) _)), (proj2 (Z.ltb_ge (l_outstanding l) 1)) by lia.
  cbn [orb]. unfold acquire_l. rewrite Hk. unfold modify, release_l, absorb. cbv zeta.
  by destruct (_ =? _).
Qed.

Lemma write_one_inv l bn l' :
  write_one bn l = Ret tt l' -> l_lock l = false ->
  lh_n l < LOGSIZE /\ l_lock l' = false /\ l_size l' = l_size l /\ l_outstanding l' = l_outstanding l /\
  l_committing l' = l_committing l /\ lh_n l <= lh_n l' <= lh_n l + 1.
Proof.
  intros E Hk. unfold write_one, log_write_log, bind, get in E.
  destruct ((LOGSIZE <=? lh_n l) || (l_size l - 1 <=? lh_n l)) eqn:E1; [done|].
  destruct (l_outstanding l <? 1) eqn:E2; [done|]. apply orb_false_iff in E1 as [E1 _]. apply Z.leb_gt in E1.
  unfold acquire_l in E. rewrite Hk in E. unfold modify, release_l, absorb in E. cbv zeta in E.
  destruct (_ =? _); injection E as <-; cbn; split_and!; try done; lia.
Qed.

Lemma delete_length {A} (l : list A) j x : l !! j = Some x -> length (delete j l) = (length l - 1)%nat.
Proof. intros H. rewrite length_delete; [done|]. by eexists. Qed.

Lemma reserve_exec_inv e w w' : inv w -> exec log_addr e w = Some w' -> inv w'.
Proof.
  intros I E. pose proof I as [K S O F N T C]. destruct w as [l os]. cbn [wlog ops] in *.
  pose proof (total_bound os F) as Hb. destruct e as [|j bn|j|]; cbn [exec wlog ops] in E.
  - rewrite begin_op_eq in E by done.
    destruct (l_committing l) eqn:Ec; cbn [orb] in E; [injection E as <-; exact I|].
    destruct (LOGSIZE <? _) eqn:E2; injection E as <-; [exact I|]. btests. rewrite O in E2.
    split; cbn; try done.
    + rewrite length_app, O. cbn. lia.
    + apply Forall_app. split; [done|]. constructor; [unfold MAXOPBLOCKS; lia | done].
    + rewrite total_app. unfold total at 2. cbn. unfold LOGSIZE, MAXOPBLOCKS in *. lia.
    + by rewrite Ec.
  - destruct (os !! j) as [r|] eqn:Hj; [|done]. destruct (0 <? r) eqn:Hr; [|done].
    destruct (write_one bn l) as [[] l'|?|?|] eqn:Ew; try done. injection E as <-. btests.
    destruct (write_one_inv l bn l' Ew K) as (H1 & H2 & H3 & H4 & H5 & H6).
    split; cbn; rewrite ?length_insert; try congruence; try lia.
    + apply Forall_insert; [done|]. pose proof (Forall_lookup_1 _ _ _ _ F Hj). cbn in *. lia.
    + rewrite (total_insert os j r) by done. lia.
    + intros Hc. rewrite H5 in Hc. rewrite (C Hc) in Hj. done.
  - destruct (os !! j) as [r|] eqn:Hj; [|done].
    destruct (l_committing l) eqn:Ec; [by rewrite (C eq_refl) in Hj|].
    rewrite end_op_start_eq in E by done. pose proof (Forall_lookup_1 _ _ _ _ F Hj) as Hr. cbn in Hr.
    pose proof (lookup_lt_Some _ _ _ Hj) as Hlt. pose proof (delete_length _ _ _ Hj) as Hd.
    destruct (l_outstanding l - 1 =? 0) eqn:E0; injection E as <-; btests.
    all: split; cbn [wlog ops l_lock l_size l_outstanding lh_n l_committing set_committing set_outstanding]; try done; try (rewrite ?Hd; lia);
      try (rewrite (total_delete os j r) by done; lia); try (by apply Forall_delete).
    + intros _. apply length_zero_iff_nil. rewrite Hd. lia.
    + by rewrite Ec.
  - destruct (l_committing l) eqn:Ec; [|done]. unfold commit_done, end_op_finish, bind, modify, acquire_l in E.
    cbn in E. rewrite K in E. cbn in E. injection E as <-. rewrite (C eq_refl) in *. by split.
Qed.

Lemma reserve_init_inv : inv (init start nlog).
Proof. by split. Qed.

Lemma reserve_reach_inv w : star (step log_addr) (init start nlog) w -> inv w.
Proof. apply star_inv; [|apply reserve_init_inv]. intros a b Ha [e He]. by eapply reserve_exec_inv. Qed.

Lemma run_star es w w' : run log_addr es w = Some w' -> star (step log_addr) w w'.
Proof.
  revert w' . induction es as [|e es IH] using rev_ind; intros w' E.
  - injection E as <-. constructor.
  - assert (exists w1, run log_addr es w = Some w1 /\ exec log_addr e w1 = Some w') as (w1 & E1 & E2).
    { clear IH. revert w E. induction es as [|e' es IH]; intros w E; cbn in *.
      - exists w. split; [done|]. by destruct (exec log_addr e w).
      - destruct (exec log_addr e' w); [|done]. by apply IH. }
    eapply star_snoc; [by apply IH | by exists e].
Qed.

Lemma reserve_budget w j r : inv w -> ops w !! j = Some r -> r <= total (ops w).
Proof.
  intros [_ _ _ F _ _ _] Hj. pose proof (total_delete _ _ _ Hj) as Hd.
  pose proof (total_bound (delete j (ops w)) ltac:(by apply Forall_delete)). lia.
Qed.

(** [log_write] of an operation within its blocks, by the size of the log. *)
Lemma write_one_cases w j r bn :
  inv w -> ops w !! j = Some r -> 0 < r ->
  write_one bn (wlog w) =
    if lh_n (wlog w) <? nlog - 1 then Ret tt (set_llock false (absorb bn (set_llock true (wlog w))))
    else Panic "too big a transaction".
Proof.
  intros I Hj Hr. pose proof (reserve_budget w j r I Hj) as Hb. destruct I as [K S O F N T C]. pose proof (lookup_lt_Some _ _ _ Hj).
  destruct (Z.ltb_spec (lh_n (wlog w)) (nlog - 1)) as [Hlt|Hge].
  - apply write_one_eq; try done; lia.
  - unfold write_one, log_write_log, bind, get. rewrite S, (proj2 (Z.leb_le (nlog - 1) _)) by lia. by rewrite orb_true_r.
Qed.
End proofs.

(** Three operations of ten blocks each are let in, and all but the last
    block are written. *)
Definition crowded : list event :=
  [Begin; Begin; Begin] ++
  ((fun i => Write 0 (100 + Z.of_nat i)) <$> seq 0 10) ++
  ((fun i => Write 1 (200 + Z.of_nat i)) <$> seq 0 10) ++
  ((fun i => Write 2 (300 + Z.of_nat i)) <$> seq 0 9).

(** They fill the log that mkfs lays out, but for the block in which the log
    keeps its header. *)
Lemma crowded_panics :
  exists w, star (step 0) (init 2 LOGSIZE) w /\ ops w = [0; 0; 1] /\
    write_one 309 (wlog w) = Panic "too big a transaction".
Proof.
  destruct (run 0 crowded (init 2 LOGSIZE)) as [w|] eqn:E; [|vm_compute in E; discriminate].
  exists w. split; [by eapply run_star|]. vm_compute in E. injection E as <-. by vm_compute.
Qed.

(** C35: the reservation of [begin_op], for the log area of [LOGSIZE] blocks
    with the header among them that mkfs lays out.  However [begin_op],
    [end_op], commits and writes follow each other, the blocks in the log and
    the blocks that the open operations may still write fit in [LOGSIZE], and
    no [begin_op] or [end_op] panics.  A [log_write] of an operation within
    its [MAXOPBLOCKS] blocks panics in exactly one situation: the log has
    [LOGSIZE - 1] blocks, and this block is the last one that any open
    operation may write.  That situation can be reached: the
    reservation is one block too generous. *)
Theorem log_space log_addr start :
  (forall w, star (step log_addr) (init start LOGSIZE) w ->
     lh_n (wlog w) + total (ops w) <= LOGSIZE /\
     (exists l', begin_op log_addr (wlog w) = Ret tt l' \/ begin_op log_addr (wlog w) = Sleep log_addr l') /\
     (forall j r, ops w !! j = Some r -> exists dc l', end_op_start (wlog w) = Ret dc l') /\
     (forall j r bn, ops w !! j = Some r -> 0 < r ->
        (exists l', write_one bn (wlog w) = Ret tt l') \/
        write_one bn (wlog w) = Panic "too big a transaction" /\ lh_n (wlog w) = LOGSIZE - 1 /\ total (ops w) = 1)) /\
  (exists w bn, star (step 0) (init 2 LOGSIZE) w /\ ops w = [0; 0; 1] /\ write_one bn (wlog w) = Panic "too big a transaction").
Proof.
  split; [|destruct crowded_panics as (w & H); by exists w, 309].
  intros w I%reserve_reach_inv. pose proof I as [K S O F N T C]. split; [done|]. split; [|split].
  - rewrite begin_op_eq by done. destruct (l_committing _ || _); eexists; [by right | by left].
  - intros j r Hj. destruct (l_committing (wlog w)) eqn:Ec; [by rewrite C in Hj|].
    rewrite end_op_start_eq by done. destruct (_ =? 0); eauto.
  - intros j r bn Hj Hr. rewrite (write_one_cases LOGSIZE w j r bn I Hj Hr). pose proof (reserve_budget LOGSIZE w j r I Hj).
    destruct (Z.ltb_spec (lh_n (wlog w)) (LOGSIZE - 1)); [left; eauto | right]. split; [done | lia].
Qed.
End Reserve.
