(* ===== verification/Sh.v ===== *)
(** * The shell (sh.c)

    The input line is a byte array with a NUL; a [char*] into it is an index.
    The scanner and the parser keep the position [*ps] as the state of the
    monad; [panic] of the shell (print and exit) is [Panic].  The recursive
    functions have fuel, [Hang] when it runs out; [parse_terminates] shows
    that [parsecmd] gives them enough.  [malloc] is taken to succeed. *)

From S2P Require Import Prelude Cstring.

Definition MAXARGS : nat := 20.
Definition O_RDONLY : Z := 0.
Definition O_WRONLY : Z := 1.
Definition O_RDWR : Z := 2.
Definition O_CREATE : Z := 512.

(** [" \t\r\n\v"] and ["<|>&;()"] *)
Definition whitespace : list Z := [32; 9; 13; 10; 11].
Definition symbols : list Z := str "<|>&;()".

(** [strchr(l, c) != 0] on a string without its NUL. *)
Definition inb (c : Z) (l : list Z) : bool := existsb (Z.eqb c) l.

(** A parsed command with strings of type [A].  For the parser a string is
    its two ends in the line. *)
Inductive tcmd (A : Type) :=
| EXEC (argv : list A)
| REDIR (c : tcmd A) (file : A) (mode fd : Z)
| PIPE (left right : tcmd A)
| LIST (left right : tcmd A)
| BACK (c : tcmd A).
#[global] Arguments EXEC {A}.
#[global] Arguments REDIR {A}.
#[global] Arguments PIPE {A}.
#[global] Arguments LIST {A}.
#[global] Arguments BACK {A}.
Abbreviation cmd := (tcmd (nat * nat)).

Fixpoint cmd_map {A B} (f : A -> B) (c : tcmd A) : tcmd B :=
  match c with
  | EXEC argv => EXEC (f <$> argv)
  | REDIR c a m fd => REDIR (cmd_map f c) (f a) m fd
  | PIPE l r => PIPE (cmd_map f l) (cmd_map f r)
  | LIST l r => LIST (cmd_map f l) (cmd_map f r)
  | BACK c => BACK (cmd_map f c)
  end.

(** [cmd->argv[argc] = q; cmd->eargv[argc] = eq; argc++] on the [execcmd] at
    the end of the redirections that were put around it. *)
Fixpoint push_arg {A} (a : A) (c : tcmd A) : tcmd A :=
  match c with
  | EXEC argv => EXEC (argv ++ [a])
  | REDIR c f m fd => REDIR (push_arg a c) f m fd
  | c => c
  end.

Section parser.
(** The line and the index of its NUL. *)
Context (buf : list Z) (es : nat).

Definition ch (i : nat) : Z := default 0 (buf !! i).

(** [while(s < es && test of the byte at s) s++], at most [k] times. *)
Fixpoint skip (test : Z -> bool) (k s : nat) : nat :=
  match k with
  | O => s
  | S k => if (s <? es)%nat && test (ch s) then skip test k (S s) else s
  end.
Definition skip_ws (s : nat) : nat := skip (fun c => inb c whitespace) (es - s) s.
Definition is_word (c : Z) : bool := negb (inb c whitespace) && negb (inb c symbols).

(** The token at [*ps], its ends, and the position after it. *)
Definition scan_token (s : nat) : Z * nat :=
  let c := ch s in
  if c =? 0 then (0, s)
  else if inb c (str "|();&<") then (c, S s)
  else if c =? 62 then (if ch (S s) =? 62 then (43, S (S s)) else (62, S s))
  else (97, skip is_word (es - s) s).
Definition gettoken : M nat (Z * nat * nat) := fun ps =>
  let q := skip_ws ps in
  let '(r, eq) := scan_token q in
  Ret (r, q, eq) (skip_ws eq).

Definition peek (toks : string) : M nat bool := fun ps =>
  let s := skip_ws ps in
  Ret (negb (ch s =? 0) && inb (ch s) (str toks)) s.

(** The constructors. *)
Definition execcmd : cmd := EXEC [].
Definition pipecmd (l r : cmd) : cmd := PIPE l r.
Definition listcmd (l r : cmd) : cmd := LIST l r.
Definition backcmd (c : cmd) : cmd := BACK c.
Definition redircmd (c : cmd) (q eq : nat) (mode fd : Z) : cmd := REDIR c (q, eq) mode fd.

Fixpoint parseredirs (k : nat) (c : cmd) : M nat cmd :=
  match k with
  | O => hang
  | S k =>
      let! more := peek "<>" in
      if more then
        let! t := gettoken in
        let! f := gettoken in
        let '(tok, _, _) := t in
        let '(r, q, eq) := f in
        if negb (r =? 97) then panic "missing file for redirection"
        else if tok =? 60 then parseredirs k (redircmd c q eq O_RDONLY 0)
        else if tok =? 62 then parseredirs k (redircmd c q eq (Z.lor O_WRONLY O_CREATE) 1)
        else if tok =? 43 then parseredirs k (redircmd c q eq (Z.lor O_WRONLY O_CREATE) 1)
        else parseredirs k c
      else ret c
  end.

(** The loop of [parseexec]. *)
Fixpoint parseargs (k argc : nat) (c : cmd) : M nat cmd :=
  match k with
  | O => hang
  | S k =>
      let! stop := peek "|)&;" in
      if stop then ret c
      else
        let! t := gettoken in
        let '(tok, q, eq) := t in
        if tok =? 0 then ret c
        else if negb (tok =? 97) then panic "syntax"
        else
          let c := push_arg (q, eq) c in
          if (MAXARGS <=? S argc)%nat then panic "too many args"
          else
            let! c := parseredirs (S es) c in
            parseargs k (S argc) c
  end.

(** The loop of [parseline] on [&]. *)
Fixpoint parseback (k : nat) (c : cmd) : M nat cmd :=
  match k with
  | O => hang
  | S k =>
      let! more := peek "&" in
      if more then gettoken ;; parseback k (backcmd c) else ret c
  end.

Fixpoint parseline (fuel : nat) : M nat cmd :=
  match fuel with
  | O => hang
  | S fuel =>
      let! c := parsepipe fuel in
      let! c := parseback (S es) c in
      let! more := peek ";" in
      if more then
        gettoken ;;
        let! r := parseline fuel in
        ret (listcmd c r)
      else ret c
  end
with parsepipe (fuel : nat) : M nat cmd :=
  match fuel with
  | O => hang
  | S fuel =>
      let! c := parseexec fuel in
      let! more := peek "|" in
      if more then
        gettoken ;;
        let! r := parsepipe fuel in
        ret (pipecmd c r)
      else ret c
  end
with parseexec (fuel : nat) : M nat cmd :=
  match fuel with
  | O => hang
  | S fuel =>
      let! block := peek "(" in
      if block then parseblock fuel
      else
        let! c := parseredirs (S es) execcmd in
        parseargs (S es) 0 c
  end
with parseblock (fuel : nat) : M nat cmd :=
  match fuel with
  | O => hang
  | S fuel =>
      let! open := peek "(" in
      if negb open then panic "parseblock"
      else
        gettoken ;;
        let! c := parseline fuel in
        let! close := peek ")" in
        if negb close then panic "syntax - missing )"
        else
          gettoken ;;
          parseredirs (S es) c
  end.

(** [*eq = 0] for every counted string. *)
Fixpoint nulterminate (c : cmd) (b : list Z) : list Z :=
  match c with
  | EXEC argv => foldl (fun b a => <[a.2 := 0]> b) b argv
  | REDIR c f m fd => <[f.2 := 0]> (nulterminate c b)
  | PIPE l r => nulterminate r (nulterminate l b)
  | LIST l r => nulterminate r (nulterminate l b)
  | BACK c => nulterminate c b
  end.
End parser.

(** The command and the line with its strings terminated. *)
Definition parsecmd (buf : list Z) : M nat (cmd * list Z) :=
  match strlen buf with
  | None => undefined
  | Some n =>
      let es := Z.to_nat n in
      let! c := parseline buf es (4 * es + 4) in
      let! _ := peek buf es "" in
      let! s := get in
      if negb (s =? es)%nat then panic "syntax"
      else ret (c, nulterminate c buf)
  end.

(** ** What the scanner finds *)

Lemma inb_symbols c : inb c symbols = inb c (str "|();&<") || (c =? 62).
Proof. unfold inb, symbols. cbn. repeat destruct (c =? _); done. Qed.

(** [buf] is a line whose NUL is at [es]. *)
Definition line (buf : list Z) (es : nat) : Prop :=
  (es < length buf)%nat /\ ch buf es = 0 /\ forall i, (i < es)%nat -> ch buf i <> 0.

Section scanner.
Context (buf : list Z) (es : nat).
Hypothesis HL : line buf es.

(** The bytes from [q] to [eq] are a word that cannot be longer. *)
Definition word (q eq : nat) : Prop :=
  (q < eq <= es)%nat /\ (forall i, (q <= i < eq)%nat -> is_word (ch buf i) = true) /\
  (eq = es \/ is_word (ch buf eq) = false).

Lemma skip_spec test k s :
  (s <= es)%nat -> (es - s <= k)%nat ->
  let s' := skip buf es test k s in
  (s <= s' <= es)%nat /\ (forall i, (s <= i < s')%nat -> test (ch buf i) = true) /\
  (s' = es \/ test (ch buf s') = false).
Proof.
  revert s. induction k as [|k IH]; intros s Hs Hk; cbn [skip].
  - split; [lia|]. split; [lia|]. left. lia.
  - destruct (s <? es)%nat eqn:E1; cbn [andb].
    + destruct (test (ch buf s)) eqn:E2.
      * apply Nat.ltb_lt in E1. destruct (IH (S s)) as (H1 & H2 & H3); [lia | lia |].
        split; [lia|]. split; [|done]. intros i Hi. destruct (decide (i = s)) as [->|]; [done|]. apply H2. lia.
      * split; [lia|]. split; [lia|]. by right.
    + apply Nat.ltb_ge in E1. split; [lia|]. split; [lia|]. left. lia.
Qed.

Lemma skip_ws_spec s :
  (s <= es)%nat -> (s <= skip_ws buf es s <= es)%nat /\
  (skip_ws buf es s = es \/ inb (ch buf (skip_ws buf es s)) whitespace = false).
Proof. intros Hs. destruct (skip_spec (fun c => inb c whitespace) (es - s) s) as (H1 & _ & H3); [done | lia | done]. Qed.

Lemma skip_stop test k s : test (ch buf s) = false \/ (es <= s)%nat -> skip buf es test k s = s.
Proof.
  intros H. destruct k as [|k]; [done|]. cbn [skip]. destruct H as [-> | H]; [by rewrite andb_false_r|].
  by rewrite (proj2 (Nat.ltb_ge s es)).
Qed.

Lemma skip_ws_idemp s : (s <= es)%nat -> skip_ws buf es (skip_ws buf es s) = skip_ws buf es s.
Proof.
  intros Hs. destruct (skip_ws_spec s Hs) as [H1 H2]. unfold skip_ws at 1. apply skip_stop.
  destruct H2; [right; lia | by left].
Qed.

Lemma ch_es s : (s <= es)%nat -> ch buf s = 0 <-> s = es.
Proof.
  intros Hs. destruct HL as (_ & H0 & Hne). split; [|by intros ->].
  intros H. destruct (decide (s = es)); [done|]. destruct (Hne s); [lia | done].
Qed.

Lemma scan_token_spec q r eq :
  (q <= es)%nat -> (q = es \/ inb (ch buf q) whitespace = false) -> scan_token buf es q = (r, eq) ->
  (q <= eq <= es)%nat /\ (r = 0 -> q = es) /\ (r <> 0 -> (q < eq)%nat) /\ (r = 97 -> word q eq).
Proof.
  intros Hq Hws E. unfold scan_token in E. destruct (ch buf q =? 0) eqn:E0; btests.
  { injection E as <- <-. apply ch_es in E0; [|done]. split; [lia|]. split; [done|]. done. }
  assert (q < es)%nat as Hlt by (rewrite ch_es in E0 by done; lia).
  destruct (inb (ch buf q) (str "|();&<")) eqn:E1.
  { injection E as <- <-. split; [lia|]. split; [done|]. split; [lia|]. intros E2. rewrite E2 in E1. done. }
  destruct (ch buf q =? 62) eqn:E2.
  { destruct (ch buf (S q) =? 62) eqn:E3; injection E as <- <-; btests.
    - assert (S q <> es) by (intros Hs; rewrite Hs in E3; rewrite (proj2 (ch_es es ltac:(lia)) eq_refl) in E3; done).
      split; [lia|]. split; [done|]. split; [lia | done].
    - split; [lia|]. split; [done|]. split; [lia | done]. }
  injection E as <- <-. destruct Hws as [?|Hws]; [lia|].
  assert (is_word (ch buf q) = true) as Hw.
  { unfold is_word. by rewrite Hws, inb_symbols, E1, E2. }
  destruct (skip_spec is_word (es - q) q) as (H1 & H2 & H3); [done | lia |].
  set (e := skip buf es is_word (es - q) q) in *.
  assert (q < e)%nat as Hqe.
  { destruct (decide (e = q)) as [Heq|]; [|lia]. rewrite Heq in H3. destruct H3; [lia | congruence]. }
  split; [lia|]. split; [done|]. split; [done|]. intros _. split; [lia|]. split; [done|].
  destruct H3; [by left | by right].
Qed.

Lemma gettoken_spec s :
  (s <= es)%nat ->
  exists r q eq s', gettoken buf es s = Ret (r, q, eq) s' /\ q = skip_ws buf es s /\
    (s <= q)%nat /\ (q <= eq)%nat /\ (eq <= s')%nat /\ (s' <= es)%nat /\
    (r = 0 -> q = es) /\ (r <> 0 -> (q < eq)%nat) /\ (r = 97 -> word q eq).
Proof.
  intros Hs. destruct (skip_ws_spec s Hs) as [H1 H2]. unfold gettoken.
  destruct (scan_token buf es (skip_ws buf es s)) as [r eq] eqn:E.
  destruct (scan_token_spec _ r eq (proj2 H1) H2 E) as (H3 & H4 & H5 & H6).
  destruct (skip_ws_spec eq ltac:(lia)) as [H7 _].
  exists r, (skip_ws buf es s), eq, (skip_ws buf es eq). split_and!; try done; lia.
Qed.

Lemma peek_spec toks s :
  (s <= es)%nat ->
  exists b, peek buf es toks s = Ret b (skip_ws buf es s) /\ (s <= skip_ws buf es s <= es)%nat /\
    (b = true -> (skip_ws buf es s < es)%nat).
Proof.
  intros Hs. destruct (skip_ws_spec s Hs) as [H1 _]. eexists. split; [reflexivity|]. split; [done|].
  intros [H%negb_true_iff _]%andb_true_iff. apply Z.eqb_neq in H. rewrite ch_es in H by lia. lia.
Qed.

(** A token after a successful [peek]. *)
Lemma gettoken_after_peek s :
  (s <= es)%nat -> (skip_ws buf es s < es)%nat ->
  exists r q eq s', gettoken buf es (skip_ws buf es s) = Ret (r, q, eq) s' /\ q = skip_ws buf es s /\
    r <> 0 /\ (q < eq <= s')%nat /\ (s' <= es)%nat /\ (r = 97 -> word q eq).
Proof.
  intros Hs Hlt. destruct (gettoken_spec (skip_ws buf es s) ltac:(lia)) as (r & q & eq & s' & E & Hq & H1 & H2 & H3 & H4 & H5 & H6 & H7).
  rewrite skip_ws_idemp in Hq by done. assert (r <> 0) by (intros ->; rewrite H5 in Hq; lia).
  exists r, q, eq, s'. split_and!; try done. by apply H6.
Qed.

(** ** The parser returns, and its strings are words *)

Fixpoint words_ok (c : cmd) : Prop :=
  match c with
  | EXEC argv => Forall (fun a => word a.1 a.2) argv
  | REDIR c f _ _ => words_ok c /\ word f.1 f.2
  | PIPE l r | LIST l r => words_ok l /\ words_ok r
  | BACK c => words_ok c
  end.

Lemma push_arg_ok q eq c : words_ok c -> word q eq -> words_ok (push_arg (q, eq) c).
Proof.
  intros Hc Hw. induction c; cbn in *; try tauto.
  apply Forall_app. by split; [|constructor].
Qed.

(** From [s] on: returns at or after [s] with well-formed strings, or panics. *)
Definition good (m : M nat cmd) (s : nat) : Prop :=
  wpp m (fun c s' => (s <= s' <= es)%nat /\ words_ok c) s.

Lemma good_later m s s' : (s <= s')%nat -> good m s' ->
  wpp m (fun c s'' => (s <= s'' <= es)%nat /\ words_ok c) s'.
Proof. intros Hs Hm. eapply wpp_mono; [exact Hm|]. intros c s'' [? ?]. split; [lia | done]. Qed.

Lemma parseredirs_good k c s :
  (s <= es)%nat -> (es - s < k)%nat -> words_ok c -> good (parseredirs buf es k c) s.
Proof.
  revert c s. induction k as [|k IH]; intros c s Hs Hk Hc; [lia|]. unfold good. cbn [parseredirs].
  destruct (peek_spec "<>" s Hs) as (b & E & H1 & H2). apply wpp_bind, (wpp_run _ _ _ _ _ E).
  destruct b; [|by split].
  destruct (gettoken_after_peek s Hs (H2 eq_refl)) as (r & q & e & s1 & E1 & -> & Hr & H3 & H4 & _).
  apply wpp_bind, (wpp_run _ _ _ _ _ E1).
  destruct (gettoken_spec s1 H4) as (r2 & q2 & e2 & s2 & E2 & _ & H5 & H6 & H7 & H8 & _ & _ & Hw).
  apply wpp_bind, (wpp_run _ _ _ _ _ E2). cbn beta iota.
  destruct (r2 =? 97) eqn:E97; cbn [negb]; [|done]. btests.
  repeat case_match; apply good_later; try lia; apply IH; try lia; try done; cbn; auto.
Qed.

Lemma parseargs_good k argc c s :
  (s <= es)%nat -> (es - s < k)%nat -> words_ok c -> good (parseargs buf es k argc c) s.
Proof.
  revert argc c s. induction k as [|k IH]; intros argc c s Hs Hk Hc; [lia|]. unfold good. cbn [parseargs].
  destruct (peek_spec "|)&;" s Hs) as (b & E & H1 & H2). apply wpp_bind, (wpp_run _ _ _ _ _ E).
  destruct b; [by split|].
  destruct (gettoken_spec (skip_ws buf es s) ltac:(lia)) as (r & q & e & s1 & E1 & _ & H3 & H4 & H5 & H6 & _ & H7 & H8).
  apply wpp_bind, (wpp_run _ _ _ _ _ E1). cbn beta iota.
  destruct (r =? 0) eqn:E0; [split; [lia | done]|]. btests.
  destruct (r =? 97) eqn:E97; cbn [negb]; [|done]. btests.
  destruct (MAXARGS <=? S argc)%nat; [done|]. specialize (H7 E0).
  apply wpp_bind. eapply wpp_mono; [apply parseredirs_good; [lia | lia | by apply push_arg_ok, H8]|].
  intros c' s2 [H9 Hc']. cbn beta. apply good_later; [lia|]. apply IH; [lia.. | done].
Qed.

Lemma parseback_good k c s :
  (s <= es)%nat -> (es - s < k)%nat -> words_ok c -> good (parseback buf es k c) s.
Proof.
  revert c s. induction k as [|k IH]; intros c s Hs Hk Hc; [lia|]. unfold good. cbn [parseback].
  destruct (peek_spec "&" s Hs) as (b & E & H1 & H2). apply wpp_bind, (wpp_run _ _ _ _ _ E).
  destruct b; [|by split].
  destruct (gettoken_after_peek s Hs (H2 eq_refl)) as (r & q & e & s1 & E1 & -> & Hr & H3 & H4 & _).
  apply wpp_bind, (wpp_run _ _ _ _ _ E1). apply good_later; [lia|]. apply IH; [lia.. | done].
Qed.

(** Each round through the four functions eats a parenthesis, a bar or a
    semicolon. *)
Lemma parse_good fuel :
  (forall s, (s <= es)%nat -> (4 * (es - s) + 4 <= fuel)%nat -> good (parseline buf es fuel) s) /\
  (forall s, (s <= es)%nat -> (4 * (es - s) + 3 <= fuel)%nat -> good (parsepipe buf es fuel) s) /\
  (forall s, (s <= es)%nat -> (4 * (es - s) + 2 <= fuel)%nat -> good (parseexec buf es fuel) s) /\
  (forall s, (s <= es)%nat -> (4 * (es - s) + 1 <= fuel)%nat -> good (parseblock buf es fuel) s).
Proof.
  induction fuel as [|fuel (IHl & IHp & IHe & IHb)]; [split_and!; intros; lia|].
  split; [|split; [|split]]; intros s Hs Hf; unfold good; cbn [parseline parsepipe parseexec parseblock].
  - apply wpp_bind. eapply wpp_mono; [apply IHp; [done | lia]|]. intros c s1 [H1 Hc]. cbn beta.
    apply wpp_bind. eapply wpp_mono; [apply parseback_good; [lia | lia | done]|]. intros c' s2 [H2 Hc']. cbn beta.
    destruct (peek_spec ";" s2 ltac:(lia)) as (b & E & H3 & H4). apply wpp_bind, (wpp_run _ _ _ _ _ E).
    destruct b; [|split; [lia | done]].
    destruct (gettoken_after_peek s2 ltac:(lia) (H4 eq_refl)) as (r & q & e & s3 & E1 & -> & _ & H5 & H6 & _).
    apply wpp_bind, (wpp_run _ _ _ _ _ E1). apply wpp_bind.
    eapply wpp_mono; [apply IHl; [lia | lia]|]. intros c2 s4 [H7 Hc2]. split; [lia | done].
  - apply wpp_bind. eapply wpp_mono; [apply IHe; [done | lia]|]. intros c s1 [H1 Hc]. cbn beta.
    destruct (peek_spec "|" s1 ltac:(lia)) as (b & E & H3 & H4). apply wpp_bind, (wpp_run _ _ _ _ _ E).
    destruct b; [|split; [lia | done]].
    destruct (gettoken_after_peek s1 ltac:(lia) (H4 eq_refl)) as (r & q & e & s3 & E1 & -> & _ & H5 & H6 & _).
    apply wpp_bind, (wpp_run _ _ _ _ _ E1). apply wpp_bind.
    eapply wpp_mono; [apply IHp; [lia | lia]|]. intros c2 s4 [H7 Hc2]. split; [lia | done].
  - destruct (peek_spec "(" s Hs) as (b & E & H3 & H4). apply wpp_bind, (wpp_run _ _ _ _ _ E).
    destruct b; [apply good_later; [lia|]; apply IHb; lia|].
    apply wpp_bind. eapply wpp_mono; [apply parseredirs_good; [lia | lia | by constructor]|].
    intros c s1 [H5 Hc]. cbn beta. apply good_later; [lia|]. apply parseargs_good; [lia | lia | done].
  - destruct (peek_spec "(" s Hs) as (b & E & H3 & H4). apply wpp_bind, (wpp_run _ _ _ _ _ E).
    destruct b; cbn [negb]; [|done].
    destruct (gettoken_after_peek s Hs (H4 eq_refl)) as (r & q & e & s1 & E1 & -> & _ & H5 & H6 & _).
    apply wpp_bind, (wpp_run _ _ _ _ _ E1). apply wpp_bind.
    eapply wpp_mono; [apply IHl; [lia | lia]|]. intros c s2 [H7 Hc]. cbn beta.
    destruct (peek_spec ")" s2 ltac:(lia)) as (b2 & E2 & H8 & H9). apply wpp_bind, (wpp_run _ _ _ _ _ E2).
    destruct b2; cbn [negb]; [|done].
    destruct (gettoken_after_peek s2 ltac:(lia) (H9 eq_refl)) as (r2 & q2 & e2 & s3 & E3 & -> & _ & H10 & H11 & _).
    apply wpp_bind, (wpp_run _ _ _ _ _ E3). apply good_later; [lia|]. apply parseredirs_good; [lia | lia | done].
Qed.

(** ** Terminating the strings *)

(** The end of a word is not inside a word. *)
Lemma word_ends_apart q eq q' eq' : word q eq -> word q' eq' -> ~ (q <= eq' < eq)%nat.
Proof.
  intros ((? & ?) & H2 & _) (_ & _ & H3) Hin. destruct H3 as [-> | H3]; [lia|].
  rewrite H2 in H3 by lia. done.
Qed.

(** [b] is the line with some ends of words overwritten. *)
Definition cut (b : list Z) : Prop :=
  length b = length buf /\
  forall q eq, word q eq -> forall i, (q <= i < eq)%nat -> b !! i = buf !! i.

Lemma cut_end b q eq : cut b -> word q eq -> cut (<[eq := 0]> b).
Proof.
  intros [Hl Hb] Hw. split; [by rewrite length_insert|]. intros q' eq' Hw' i Hi.
  rewrite list_lookup_insert_ne; [by eapply Hb|]. intros ->. by eapply (word_ends_apart q' eq' q i).
Qed.

(** Ends that are 0 stay 0. *)
Lemma nulterminate_keeps c b :
  words_ok c -> cut b ->
  cut (nulterminate c b) /\ forall i, b !! i = Some 0 -> nulterminate c b !! i = Some 0.
Proof.
  assert (forall (b : list Z) e i, b !! i = Some 0 -> <[e := 0]> b !! i = Some 0) as Hins.
  { intros b' e i Hi. destruct (decide (e = i)) as [->|]; [|by rewrite list_lookup_insert_ne].
    apply list_lookup_insert_eq. by eapply lookup_lt_Some. }
  revert b. induction c as [argv|c IH [f e] m fd|l IHl r IHr|l IHl r IHr|c IH]; intros b Hc Hb; cbn in *.
  - revert b Hb. induction Hc as [|[q e] argv Hw _ IH]; intros b Hb; cbn; [done|].
    destruct (IH (<[e := 0]> b)) as [H1 H2]; [by eapply cut_end|]. split; [done|]. auto.
  - destruct Hc as [Hc Hw]. destruct (IH b Hc Hb) as [H1 H2]. split; [by eapply cut_end|]. auto.
  - destruct Hc as [Hl Hr]. destruct (IHl b Hl Hb) as [H1 H2]. destruct (IHr _ Hr H1) as [H3 H4]. auto.
  - destruct Hc as [Hl Hr]. destruct (IHl b Hl Hb) as [H1 H2]. destruct (IHr _ Hr H1) as [H3 H4]. auto.
  - by apply IH.
Qed.

(** The strings of a command, by their ends. *)
Fixpoint strings {A} (c : tcmd A) : list A :=
  match c with
  | EXEC argv => argv
  | REDIR c f _ _ => f :: strings c
  | PIPE l r | LIST l r => strings l ++ strings r
  | BACK c => strings c
  end.

Lemma strings_ok c : words_ok c -> Forall (fun a => word a.1 a.2) (strings c).
Proof.
  induction c; cbn; try done.
  - intros [? ?]. constructor; auto.
  - intros [? ?]. apply Forall_app. auto.
  - intros [? ?]. apply Forall_app. auto.
Qed.

Lemma nulterminate_ends c b :
  words_ok c -> cut b -> forall a, a ∈ strings c -> nulterminate c b !! a.2 = Some 0.
Proof.
  assert (forall (b : list Z) q e, cut b -> word q e -> <[e := 0]> b !! e = Some 0) as Hat.
  { intros b' q e [Hl _] ((_ & He) & _). apply list_lookup_insert_eq. rewrite Hl. destruct HL. lia. }
  revert b. induction c as [argv|c IH [f e] m fd|l IHl r IHr|l IHl r IHr|c IH]; intros b Hc Hb a Ha; cbn in *.
  - revert b Hb. induction Hc as [|[q e] argv Hw Hargv IH]; intros b Hb; [by apply elem_of_nil in Ha|].
    pose proof (cut_end b q e Hb Hw) as Hb'. apply elem_of_cons in Ha as [-> | Ha]; cbn.
    + eapply (nulterminate_keeps (EXEC argv)); [done.. |]. by eapply Hat.
    + by apply IH.
  - destruct Hc as [Hc Hw]. destruct (nulterminate_keeps c b Hc Hb) as [H1 _].
    apply elem_of_cons in Ha as [-> | Ha]; [by eapply Hat|].
    destruct (decide (e = a.2)) as [<-|]; [by eapply Hat|]. rewrite list_lookup_insert_ne by done. by apply IH.
  - destruct Hc as [Hl Hr]. destruct (nulterminate_keeps l b Hl Hb) as [H1 _].
    apply elem_of_app in Ha as [Ha|Ha]; [|by apply IHr].
    apply (nulterminate_keeps r _ Hr H1). by apply IHl.
  - destruct Hc as [Hl Hr]. destruct (nulterminate_keeps l b Hl Hb) as [H1 _].
    apply elem_of_app in Ha as [Ha|Ha]; [|by apply IHr].
    apply (nulterminate_keeps r _ Hr H1). by apply IHl.
  - by apply IH.
Qed.
End scanner.

Lemma strlen_line buf n : strlen buf = Some n -> line buf (Z.to_nat n) /\ 0 <= n.
Proof.
  revert n. induction buf as [|c buf IH]; intros n; cbn; [done|].
  destruct (c =? 0) eqn:E; btests.
  - intros [= <-]. split; [|done]. split; [cbn; lia|]. split; [done|]. cbn. lia.
  - destruct (strlen buf) as [m|]; cbn; [|done]. intros [= <-].
    destruct (IH m eq_refl) as [(H1 & H2 & H3) H4]. split; [|lia].
    replace (Z.to_nat (m + 1)) with (S (Z.to_nat m)) by lia. split; [cbn; lia|]. split; [done|].
    intros [|i] Hi; [done|]. apply H3. lia.
Qed.

Lemma strlen_total buf : terminated buf -> is_Some (strlen buf).
Proof.
  unfold terminated. induction buf as [|c buf IH]; intros H; [by apply elem_of_nil in H|]. cbn.
  destruct (c =? 0) eqn:E; [done|]. apply Z.eqb_neq in E.
  apply elem_of_cons in H as [H|H]; [congruence|]. destruct (IH H) as [m ->]. by eexists.
Qed.

Lemma parsecmd_good buf :
  terminated buf ->
  exists es, line buf es /\ wpp (parsecmd buf) (fun x _ => words_ok buf es x.1 /\ x.2 = nulterminate x.1 buf) 0%nat.
Proof.
  intros Ht. destruct (strlen_total buf Ht) as [n Hn]. destruct (strlen_line buf n Hn) as [HL _].
  exists (Z.to_nat n). split; [done|]. unfold parsecmd. rewrite Hn. apply wpp_bind.
  eapply wpp_mono; [apply (proj1 (parse_good buf _ HL (4 * Z.to_nat n + 4))); lia|]. intros c s [Hs Hc]. cbn beta.
  destruct (peek_spec buf _ HL "" s ltac:(lia)) as (b & E & _). apply wpp_bind, (wpp_run _ _ _ _ _ E).
  apply wpp_bind. unfold wpp at 1, get. destruct (negb _); done.
Qed.

(** The parser terminates on every input line: [parsecmd] returns a
    command or gives up with a message, whatever bytes the line holds; the
    recursion through [parseline], [parsepipe], [parseexec] and [parseblock]
    and all scanning loops end. *)
Theorem parse_terminates buf :
  terminated buf ->
  (exists c b s, parsecmd buf 0%nat = Ret (c, b) s) \/ (exists msg, parsecmd buf 0%nat = Panic msg).
Proof.
  intros Ht. destruct (parsecmd_good buf Ht) as (es & _ & H). unfold wpp in H.
  destruct (parsecmd buf 0%nat) as [[c b] s|msg| |]; [left; eauto | right; eauto | done | done].
Qed.

Lemma parse_terminates_witness :
  terminated (str "(a;b" ++ [0]) /\
  ((exists c b s, parsecmd (str "(a;b" ++ [0]) 0%nat = Ret (c, b) s) \/
   (exists msg, parsecmd (str "(a;b" ++ [0]) 0%nat = Panic msg)).
Proof.
  assert (terminated (str "(a;b" ++ [0])) as H by (apply (bool_decide_unpack _); vm_compute; exact I).
  split; [exact H | apply (parse_terminates _ H)].
Defined.

Lemma cstr_prefix (b : list Z) q n :
  (forall i, (i < n)%nat -> exists x, b !! (q + i)%nat = Some x /\ x <> 0) -> b !! (q + n)%nat = Some 0 ->
  cstr (drop q b) = slice q n b.
Proof.
  unfold slice. revert q. induction n as [|n IH]; intros q Hi Hz.
  - rewrite Nat.add_0_r in Hz. by rewrite (drop_S _ _ _ Hz).
  - destruct (Hi O ltac:(lia)) as (x & Hx & Hne). rewrite Nat.add_0_r in Hx. rewrite (drop_S _ _ _ Hx). cbn.
    apply Z.eqb_neq in Hne. rewrite Hne. f_equal. apply IH.
    + intros i Hlt. replace (S q + i)%nat with (q + S i)%nat by lia. apply Hi. lia.
    + by replace (S q + n)%nat with (q + S n)%nat by lia.
Qed.

(** When the parser returns, the line it leaves makes every argument and
    file name of the command a string of its own: it reads, up to the NUL that
    [nulterminate] put after it, as the bytes that were scanned, which are a
    word of the line that is not empty, holds no blank or symbol, and cannot
    be extended to the right. *)
Lemma parsed_strings buf c b s q eq :
  terminated buf -> parsecmd buf 0%nat = Ret (c, b) s -> (q, eq) ∈ strings c ->
  cstr (drop q b) = slice q (eq - q) buf /\ (q < eq)%nat /\
  Forall (fun x => is_word x = true) (slice q (eq - q) buf) /\
  (ch buf eq = 0 \/ is_word (ch buf eq) = false).
Proof.
  intros Ht E Hin. destruct (parsecmd_good buf Ht) as (es & HL & H). unfold wpp in H. rewrite E in H.
  cbn [fst snd] in H. destruct H as [Hok ->].
  pose proof (proj1 (Forall_forall _ _) (strings_ok buf es c Hok) (q, eq) Hin) as Hw. cbn in Hw.
  pose proof Hw as (Hr & Hword & Hend). destruct HL as (Hlen & H0 & Hne).
  assert (cut buf es buf) as Hcut by done.
  destruct (nulterminate_keeps buf es c buf Hok Hcut) as [[Hl Hb] _].
  pose proof (nulterminate_ends buf es (conj Hlen (conj H0 Hne)) c buf Hok Hcut (q, eq) Hin) as Hz. cbn in Hz.
  assert (forall i, (i < eq - q)%nat -> exists x, buf !! (q + i)%nat = Some x /\ x = ch buf (q + i)) as Hx.
  { intros i Hi. destruct (lookup_lt_is_Some_2 buf (q + i)) as [x Hx]; [lia|]. exists x. unfold ch. by rewrite Hx. }
  split; [|split; [lia|split]].
  - rewrite (cstr_prefix _ q (eq - q)).
    + unfold slice. apply list_eq. intros i. rewrite !lookup_take, !lookup_drop. case_decide as Hi; [|done].
      apply (Hb q eq Hw). lia.
    + intros i Hi. rewrite (Hb q eq Hw) by lia. destruct (Hx i Hi) as (x & Hx1 & ->). exists (ch buf (q + i)).
      split; [done|]. apply Hne. lia.
    + by replace (q + (eq - q))%nat with eq by lia.
  - apply Forall_lookup. intros i x Hi. unfold slice in Hi. rewrite lookup_take, lookup_drop in Hi.
    case_decide as Hlt; [|done]. destruct (Hx i Hlt) as (x' & Hx1 & ->). rewrite Hx1 in Hi. injection Hi as <-.
    apply Hword. lia.
  - destruct Hend as [-> | Hend]; [by left | by right].
Qed.
