(* ===== verification/ShParse.v ===== *)
(** * The grammar of the shell

    [lex] says how a text is cut into tokens, whatever blanks lie between
    them; [line_t], [pipe_t] and [exec_t] are the grammar's trees, [show_line]
    their tokens and [mean_line] the command they stand for.  The parser of
    sh.c gives that command back. *)

From S2P Require Import Prelude Cstring Sh.

(** ** Tokens *)

Abbreviation token := (list Z).

Definition is_ws (c : Z) : Prop := inb c whitespace = true.

(** [t] is a token when [rest] follows it. *)
Definition token_before (t rest : list Z) : Prop :=
  (exists c, t = [c] /\ inb c (str "|();&<") = true) \/
  (t = str ">" /\ head rest <> Some 62) \/
  t = str ">>" \/
  (t <> [] /\ Forall (fun c => is_word c = true /\ c <> 0) t /\
   match rest with [] => True | c :: _ => is_word c = false end).

Inductive lex : list Z -> list token -> Prop :=
| lex_end ws : Forall is_ws ws -> lex ws []
| lex_tok ws t rest ts :
    Forall is_ws ws -> token_before t rest -> lex rest ts -> lex (ws ++ t ++ rest) (t :: ts).

(** What [gettoken] returns for a token. *)
Definition code (t : token) : Z :=
  match t with
  | [] => 0
  | c :: _ =>
      if inb c (str "|();&<") then c
      else if c =? 62 then (match t with [_] => 62 | _ => 43 end)
      else 97
  end.

(** ** Trees *)

Inductive rop := RIn | ROut | RApp.
Inductive item := Word (w : token) | Redirect (op : rop) (file : token).

Inductive exec_t :=
| Simple (its : list item)
| Block (l : line_t) (rs : list (rop * token))
with pipe_t :=
| One (e : exec_t)
| Bar (e : exec_t) (p : pipe_t)
with line_t :=
| Last (p : pipe_t) (n : nat)
| Semi (p : pipe_t) (n : nat) (l : line_t).

Scheme exec_t_mut := Induction for exec_t Sort Prop
with pipe_t_mut := Induction for pipe_t Sort Prop
with line_t_mut := Induction for line_t Sort Prop.
Combined Scheme tree_ind from exec_t_mut, pipe_t_mut, line_t_mut.

Definition show_rop (op : rop) : token :=
  match op with RIn => str "<" | ROut => str ">" | RApp => str ">>" end.
Definition show_redir (r : rop * token) : list token := [show_rop r.1; r.2].
Definition show_item (i : item) : list token :=
  match i with Word w => [w] | Redirect op f => show_redir (op, f) end.

Fixpoint show_exec (e : exec_t) : list token :=
  match e with
  | Simple its => its ≫= show_item
  | Block l rs => str "(" :: show_line l ++ str ")" :: (rs ≫= show_redir)
  end
with show_pipe (p : pipe_t) : list token :=
  match p with
  | One e => show_exec e
  | Bar e p => show_exec e ++ str "|" :: show_pipe p
  end
with show_line (l : line_t) : list token :=
  match l with
  | Last p n => show_pipe p ++ replicate n (str "&")
  | Semi p n l => show_pipe p ++ replicate n (str "&") ++ str ";" :: show_line l
  end.

Definition redir (c : tcmd token) (r : rop * token) : tcmd token :=
  match r.1 with
  | RIn => REDIR c r.2 O_RDONLY 0
  | ROut | RApp => REDIR c r.2 (Z.lor O_WRONLY O_CREATE) 1
  end.
Definition mean_item (c : tcmd token) (i : item) : tcmd token :=
  match i with Word w => push_arg w c | Redirect op f => redir c (op, f) end.

Fixpoint mean_exec (e : exec_t) : tcmd token :=
  match e with
  | Simple its => foldl mean_item (EXEC []) its
  | Block l rs => foldl redir (mean_line l) rs
  end
with mean_pipe (p : pipe_t) : tcmd token :=
  match p with
  | One e => mean_exec e
  | Bar e p => PIPE (mean_exec e) (mean_pipe p)
  end
with mean_line (l : line_t) : tcmd token :=
  match l with
  | Last p n => Nat.iter n BACK (mean_pipe p)
  | Semi p n l => LIST (Nat.iter n BACK (mean_pipe p)) (mean_line l)
  end.

Definition word_tok (w : token) : Prop := w <> [] /\ Forall (fun c => is_word c = true /\ c <> 0) w.
Definition item_ok (i : item) : Prop := match i with Word w => word_tok w | Redirect _ f => word_tok f end.
Definition is_arg (i : item) : bool := match i with Word _ => true | _ => false end.
Definition nargs (its : list item) : nat := length (List.filter is_arg its).

(** Words are words, and there are fewer than [MAXARGS] of them. *)
Fixpoint exec_ok (e : exec_t) : Prop :=
  match e with
  | Simple its => Forall item_ok its /\ (nargs its < MAXARGS)%nat
  | Block l rs => line_ok l /\ Forall (fun r => word_tok r.2) rs
  end
with pipe_ok (p : pipe_t) : Prop :=
  match p with
  | One e => exec_ok e
  | Bar e p => exec_ok e /\ pipe_ok p
  end
with line_ok (l : line_t) : Prop :=
  match l with
  | Last p n => pipe_ok p
  | Semi p n l => pipe_ok p /\ line_ok l
  end.

Lemma cmd_map_push {A B} (f : A -> B) a c : cmd_map f (push_arg a c) = push_arg (f a) (cmd_map f c).
Proof. induction c; cbn; try done; [by rewrite fmap_app | by f_equal]. Qed.

(** ** Scanning a lexed text *)

Section text.
Context (text tail : list Z).
Abbreviation buf := (text ++ 0 :: tail).
Abbreviation es := (length text).
Hypothesis Hnz : Forall (fun c => c <> 0) text.

Definition read (a : nat * nat) : token := slice a.1 (a.2 - a.1) text.

Lemma ch_text i : (i < es)%nat -> exists c, text !! i = Some c /\ ch buf i = c.
Proof.
  intros Hi. destruct (lookup_lt_is_Some_2 text i Hi) as [c Hc]. exists c. split; [done|].
  unfold ch. by rewrite lookup_app_l, Hc.
Qed.

Lemma text_line : line buf es.
Proof.
  split; [rewrite length_app; cbn; lia|]. split.
  - unfold ch. by rewrite lookup_app_r, Nat.sub_diag by lia.
  - intros i Hi. destruct (ch_text i Hi) as (c & Hc & ->). by apply (Forall_lookup_1 _ _ _ _ Hnz Hc).
Qed.

(** A loop over the first part of what is left. *)
Lemma skip_over test l rest s :
  drop s text = l ++ rest -> Forall (fun c => test c = true) l ->
  match rest with [] => True | c :: _ => test c = false end ->
  skip buf es test (es - s) s = (s + length l)%nat /\ drop (s + length l) text = rest.
Proof.
  revert s. induction l as [|c l IH]; intros s Hd Hl Hr.
  - cbn in *. rewrite Nat.add_0_r. split; [|done]. apply skip_stop. destruct rest as [|c rest].
    + right. assert (length (drop s text) = O) as H by by rewrite Hd. rewrite length_drop in H. lia.
    + left. assert (s < es)%nat as Hs.
      { assert (length (drop s text) <> O) as H by by rewrite Hd. rewrite length_drop in H. lia. }
      destruct (ch_text s Hs) as (c' & Hc & ->). rewrite (drop_S _ _ _ Hc) in Hd. congruence.
  - apply Forall_cons in Hl as [Hc Hl].
    assert (s < es)%nat as Hs.
    { assert (length (drop s text) <> O) as H by by rewrite Hd. rewrite length_drop in H. lia. }
    destruct (ch_text s Hs) as (c' & Hc' & Hch). rewrite (drop_S _ _ _ Hc') in Hd. injection Hd as -> Hd.
    destruct (IH (S s) Hd Hl Hr) as [H1 H2]. cbn [length]. rewrite Nat.add_succ_r.
    replace (es - s)%nat with (S (es - S s)) by lia. cbn [skip].
    rewrite (proj2 (Nat.ltb_lt s es) Hs), Hch, Hc. done.
Qed.

Lemma token_first t rest :
  token_before t rest -> exists c t', t = c :: t' /\ inb c whitespace = false /\ c <> 0.
Proof.
  intros [(c & -> & H)|[[-> _]|[-> | (Hne & Hw & _)]]].
  - exists c, []. split; [done|]. split.
    + destruct (inb c whitespace) eqn:E; [|done]. exfalso. unfold inb, whitespace in *. cbn in *.
      repeat (apply orb_true_iff in E as [E|E]; [apply Z.eqb_eq in E; by subst|]). done.
    + intros ->. done.
  - by eexists _, _.
  - by eexists _, _.
  - destruct t as [|c t]; [done|]. exists c, t. split; [done|]. apply Forall_cons in Hw as [[Hw Hz] _].
    apply andb_true_iff in Hw as [Hw _]. by apply negb_true_iff in Hw.
Qed.

Definition at_ (s : nat) (ts : list token) : Prop := lex (drop s text) ts /\ (s <= es)%nat.

Lemma skip_ws_at s ts :
  at_ s ts -> let s' := skip_ws buf es s in
  match ts with
  | [] => s' = es
  | t :: ts' => exists rest, drop s' text = t ++ rest /\ token_before t rest /\ lex rest ts'
  end.
Proof.
  intros [Hl Hs]. unfold skip_ws. inversion Hl as [ws Hw Hd | ws t rest ts' Hw Ht Hr Hd]; subst.
  - destruct (skip_over (fun c => inb c whitespace) (drop s text) [] s) as [-> _];
      [by rewrite app_nil_r | done | done |]. rewrite length_drop. lia.
  - destruct (token_first t rest Ht) as (c & t' & -> & Hc & _).
    destruct (skip_over (fun c => inb c whitespace) ws ((c :: t') ++ rest) s) as [-> Hd']; [done | done | done |].
    by exists rest.
Qed.

Lemma drop_lt (l : list Z) s c l' : drop s l = c :: l' -> (s < length l)%nat /\ l !! s = Some c.
Proof.
  intros H. assert (s < length l)%nat as Hs.
  { assert (length (drop s l) <> O) as H1 by by rewrite H. rewrite length_drop in H1. lia. }
  split; [done|]. rewrite <- (Nat.add_0_r s), <- lookup_drop, H. done.
Qed.

Lemma ch_drop s c l' : drop s text = c :: l' -> ch buf s = c.
Proof. intros [Hs Hc]%drop_lt. destruct (ch_text s Hs) as (c' & Hc' & ->). congruence. Qed.

Lemma ch_drop_nil s : drop s text = [] -> (s <= es)%nat -> ch buf s = 0.
Proof.
  intros H Hs. assert (length (drop s text) = O) as H1 by by rewrite H. rewrite length_drop in H1.
  assert (s = es) as -> by lia. apply text_line.
Qed.

Lemma at_bound s ts : at_ s ts -> (s <= skip_ws buf es s <= es)%nat.
Proof. intros [_ Hs]. by apply (skip_ws_spec buf es s Hs). Qed.

(** [peek] on the token that comes next. *)
Lemma peek_at toks s ts :
  at_ s ts ->
  exists s', peek buf es toks s = Ret (match ts with (c :: _) :: _ => inb c (str toks) | _ => false end) s' /\ at_ s' ts.
Proof.
  intros Ha. pose proof (at_bound s ts Ha) as Hb. pose proof (skip_ws_at s ts Ha) as Hw. cbn zeta in Hw.
  exists (skip_ws buf es s). unfold peek. destruct ts as [|t ts].
  - rewrite Hw. rewrite (proj1 (proj2 text_line)). cbn [negb andb Z.eqb]. split; [done|].
    split; [|lia]. rewrite drop_ge by lia. by constructor.
  - destruct Hw as (rest & Hd & Ht & Hl). destruct (token_first t rest Ht) as (c & t' & -> & _ & Hz).
    rewrite (ch_drop _ c (t' ++ rest) Hd). apply Z.eqb_neq in Hz. rewrite Hz. split; [done|].
    split; [|lia]. rewrite Hd. by apply (lex_tok [] (c :: t') rest ts); [constructor | |].
Qed.

Lemma scan_token_at s t rest :
  drop s text = t ++ rest -> token_before t rest ->
  scan_token buf es s = (code t, (s + length t)%nat) /\ drop (s + length t) text = rest.
Proof.
  intros Hd Ht.
  assert (drop (s + length t) text = rest) as Hrest by (rewrite <- drop_drop, Hd; apply drop_app_length).
  split; [|done]. unfold scan_token. pose proof Ht as [(c & -> & H)|[[-> H]|[-> | (Hne & Hw & H)]]].
  - rewrite (ch_drop s c rest Hd), H. cbn [code]. rewrite H. destruct (c =? 0) eqn:E; [by apply Z.eqb_eq in E; subst|].
    by rewrite Nat.add_1_r.
  - rewrite (ch_drop s 62 rest Hd). cbn. rewrite Nat.add_1_r in *. destruct rest as [|c rest].
    + rewrite ch_drop_nil; [done | done |]. apply drop_lt in Hd. lia.
    + rewrite (ch_drop (S s) c rest Hrest). cbn in H. destruct (c =? 62) eqn:E; [|done]. apply Z.eqb_eq in E. congruence.
  - change (str ">>") with [62; 62] in *. rewrite (ch_drop s 62 (62 :: rest) Hd). cbn.
    assert (drop (S s) text = 62 :: rest) as Hd1
      by (rewrite <- Nat.add_1_r, <- drop_drop, Hd; done).
    rewrite (ch_drop (S s) 62 rest Hd1). cbn. f_equal. lia.
  - destruct t as [|c t]; [done|]. pose proof Hw as [[Hwc Hz] _]%Forall_cons.
    rewrite (ch_drop s c (t ++ rest) Hd). apply Z.eqb_neq in Hz. rewrite Hz.
    assert (inb c (str "|();&<") = false /\ (c =? 62) = false) as [E1 E2].
    { apply andb_true_iff in Hwc as [_ Hwc]. apply negb_true_iff in Hwc. rewrite inb_symbols in Hwc.
      by apply orb_false_iff in Hwc. }
    rewrite E1, E2. cbn [code]. rewrite E1, E2. f_equal.
    destruct (skip_over is_word (c :: t) rest s) as [-> _]; [done | | done | done].
    eapply Forall_impl; [exact Hw|]. by intros x [? _].
Qed.

Lemma slice_drop s (t rest : list Z) : drop s text = t ++ rest -> slice s (length t) text = t.
Proof. intros H. unfold slice. rewrite H. apply take_app_length. Qed.

(** [gettoken] takes the token that comes next. *)
Lemma gettoken_at s t ts :
  at_ s (t :: ts) ->
  exists q e s', gettoken buf es s = Ret (code t, q, e) s' /\ read (q, e) = t /\ at_ s' ts.
Proof.
  intros Ha. pose proof (at_bound s _ Ha) as Hb. destruct (skip_ws_at s _ Ha) as (rest & Hd & Ht & Hl).
  set (q := skip_ws buf es s) in *. destruct (scan_token_at q t rest Hd Ht) as [E Hr].
  assert (q + length t <= es)%nat as Hle.
  { assert (length (drop q text) = length (t ++ rest)) as H by by rewrite Hd.
    rewrite length_drop, length_app in H. lia. }
  exists q, (q + length t)%nat, (skip_ws buf es (q + length t)). split; [|split].
  - unfold gettoken. fold q. by rewrite E.
  - unfold read. cbn. replace (q + length t - q)%nat with (length t) by lia. by eapply slice_drop.
  - assert (at_ (q + length t) ts) as Ha' by (split; [by rewrite Hr | done]).
    destruct (peek_at "" _ ts Ha') as (s' & E' & Ha''). unfold peek in E'. by injection E' as _ <-.
Qed.

Lemma gettoken_end s : at_ s [] -> exists s', gettoken buf es s = Ret (0, es, es) s' /\ at_ s' [].
Proof.
  intros Ha. unfold gettoken. rewrite (skip_ws_at s [] Ha). unfold scan_token.
  rewrite (proj1 (proj2 text_line)). cbn. eexists. split; [done|].
  unfold skip_ws. rewrite skip_stop by lia. split; [|done]. rewrite drop_ge by done. by constructor.
Qed.

(** ** Parsing *)

(** [m] eats the tokens up to [rest] and returns what reads as [c]. *)
Definition parses (m : M nat cmd) (ts rest : list token) (c : tcmd token) : Prop :=
  forall s, at_ s (ts ++ rest) -> exists c' s', m s = Ret c' s' /\ at_ s' rest /\ cmd_map read c' = c.

Definition first_in (l : string) (ts : list token) : bool :=
  match ts with (c :: _) :: _ => inb c (str l) | _ => false end.

Lemma code_word w : word_tok w -> code w = 97 /\ (forall l, (forall c, inb c (str l) = true -> inb c symbols = true) -> first_in l [w] = false).
Proof.
  intros [Hne Hw]. destruct w as [|c w]; [done|]. apply Forall_cons in Hw as [[Hc _] _].
  apply andb_true_iff in Hc as [_ Hc]. apply negb_true_iff in Hc. split.
  - pose proof Hc as Hc'. rewrite inb_symbols in Hc'. apply orb_false_iff in Hc' as [E1 E2]. cbn [code]. by rewrite E1, E2.
  - intros l Hl. cbn. destruct (inb c (str l)) eqn:E; [|done]. rewrite (Hl c E) in Hc. done.
Qed.

Lemma code_rop op : code (show_rop op) = match op with RIn => 60 | ROut => 62 | RApp => 43 end.
Proof. by destruct op. Qed.

Lemma parseredirs_parses k c0 rs rest :
  (length rs < k)%nat -> Forall (fun r => word_tok r.2) rs -> first_in "<>" rest = false ->
  parses (parseredirs buf es k c0) (rs ≫= show_redir) rest (foldl redir (cmd_map read c0) rs).
Proof.
  revert k c0. induction rs as [|[op f] rs IH]; intros k c0 Hk Hrs Hrest s Ha.
  - destruct k as [|k]; [cbn in Hk; lia|]. cbn [parseredirs mbind list_bind app] in *.
    destruct (peek_at "<>" s rest Ha) as (s1 & E1 & Ha1). fold (first_in "<>" rest) in E1. rewrite Hrest in E1.
    rewrite (bind_ret _ _ _ _ _ E1). by exists c0, s1.
  - destruct k as [|k]; [cbn in Hk; lia|]. cbn [length] in Hk. apply Forall_cons in Hrs as [Hf Hrs]. cbn in Hf.
    change (((op, f) :: rs) ≫= show_redir) with (show_rop op :: f :: (rs ≫= show_redir)) in Ha.
    cbn [parseredirs app] in *.
    destruct (peek_at "<>" s _ Ha) as (s1 & E1 & Ha1).
    assert (peek buf es "<>" s = Ret true s1) as E1' by (rewrite E1; by destruct op).
    destruct (gettoken_at s1 _ _ Ha1) as (q1 & e1 & s2 & E2 & _ & Ha2).
    destruct (gettoken_at s2 _ _ Ha2) as (q & e & s3 & E3 & Hread & Ha3).
    rewrite (proj1 (code_word f Hf)) in E3. rewrite code_rop in E2.
    destruct (IH k (REDIR c0 (q, e) (match op with RIn => O_RDONLY | _ => Z.lor O_WRONLY O_CREATE end)
      (match op with RIn => 0 | _ => 1 end)) ltac:(lia) Hrs Hrest s3 Ha3) as (c' & s' & E & Ha' & Hc').
    exists c', s'. split; [|split; [done|]].
    + rewrite (bind_ret _ _ _ _ _ E1'), (bind_ret _ _ _ _ _ E2), (bind_ret _ _ _ _ _ E3). by destruct op.
    + rewrite Hc'. cbn [foldl cmd_map]. rewrite Hread. by destruct op.
Qed.

Lemma lex_length l ts : lex l ts -> (length ts <= length l)%nat.
Proof.
  induction 1 as [|ws t rest ts _ Ht _ IH]; cbn; [lia|]. rewrite !length_app.
  destruct (token_first t rest Ht) as (c & t' & -> & _). cbn. lia.
Qed.

Lemma at_length s ts : at_ s ts -> (length ts <= es - s)%nat.
Proof. intros [H _]. apply lex_length in H. by rewrite length_drop in H. Qed.

(** A simple command as its leading redirections and its words, each with the
    redirections after it. *)
Fixpoint groups (its : list item) : list (rop * token) * list (token * list (rop * token)) :=
  match its with
  | [] => ([], [])
  | Word w :: its => let '(rs, gs) := groups its in ([], (w, rs) :: gs)
  | Redirect op f :: its => let '(rs, gs) := groups its in ((op, f) :: rs, gs)
  end.
Definition show_group (g : token * list (rop * token)) : list token := g.1 :: (g.2 ≫= show_redir).
Definition mean_group (c : tcmd token) (g : token * list (rop * token)) : tcmd token :=
  foldl redir (push_arg g.1 c) g.2.
Definition redirs_ok (rs : list (rop * token)) : Prop := Forall (fun r => word_tok r.2) rs.

Lemma groups_spec its rs gs :
  groups its = (rs, gs) -> Forall item_ok its ->
  its ≫= show_item = (rs ≫= show_redir) ++ (gs ≫= show_group) /\
  (forall c, foldl mean_item c its = foldl mean_group (foldl redir c rs) gs) /\
  redirs_ok rs /\ Forall (fun g => word_tok g.1 /\ redirs_ok g.2) gs /\ length gs = nargs its.
Proof.
  revert rs gs. induction its as [|[w|op f] its IH]; intros rs gs E Hok; cbn [groups] in E.
  - injection E as <- <-. split_and!; try done; constructor.
  - destruct (groups its) as [rs' gs'] eqn:Eg. injection E as <- <-. apply Forall_cons in Hok as [Hw Hok].
    destruct (IH rs' gs' eq_refl Hok) as (H1 & H2 & H3 & H4 & H5). split_and!.
    + cbn. f_equal. exact H1.
    + intros c. cbn [foldl mean_item]. rewrite H2. done.
    + constructor.
    + by constructor.
    + unfold nargs in *. cbn. by rewrite H5.
  - destruct (groups its) as [rs' gs'] eqn:Eg. injection E as <- <-. apply Forall_cons in Hok as [Hw Hok].
    destruct (IH rs' gs' eq_refl Hok) as (H1 & H2 & H3 & H4 & H5). split_and!; try done.
    + change (show_redir (op, f) ++ (its ≫= show_item) = show_redir (op, f) ++ (rs' ≫= show_redir) ++ (gs' ≫= show_group)).
      by rewrite H1.
    + intros c. cbn [foldl mean_item]. by rewrite H2.
    + by constructor.
Qed.

(** What may follow a simple command. *)
Definition ends_args (rest : list token) : Prop := rest = [] \/ first_in "|)&;" rest = true.

Lemma ends_no_redir rest : ends_args rest -> first_in "<>" rest = false.
Proof.
  intros [-> | H]; [done|]. destruct rest as [|[|c t] rest]; [done..|]. cbn in *.
  repeat (apply orb_true_iff in H as [H|H]; [apply Z.eqb_eq in H; by subst|]). done.
Qed.

Lemma symbols_sub l : forallb (fun c => inb c symbols) (str l) = true ->
  forall c, inb c (str l) = true -> inb c symbols = true.
Proof.
  intros H c Hc. rewrite forallb_forall in H. apply existsb_exists in Hc as (x & Hx & Hcx).
  apply Z.eqb_eq in Hcx. subst. by apply H.
Qed.

Lemma first_word l w ts : forallb (fun c => inb c symbols) (str l) = true -> word_tok w -> first_in l (w :: ts) = false.
Proof.
  intros Hl Hw. destruct (code_word w Hw) as [_ H]. specialize (H l (symbols_sub l Hl)).
  destruct Hw as [Hne _]. by destruct w.
Qed.

Lemma parseargs_parses k argc c0 gs rest :
  (length gs < k)%nat -> (argc + length gs < MAXARGS)%nat ->
  Forall (fun g => word_tok g.1 /\ redirs_ok g.2) gs -> ends_args rest ->
  parses (parseargs buf es k argc c0) (gs ≫= show_group) rest (foldl mean_group (cmd_map read c0) gs).
Proof.
  revert k argc c0. induction gs as [|[w rs] gs IH]; intros k argc c0 Hk Hargc Hgs Hrest s Ha.
  - destruct k as [|k]; [cbn in Hk; lia|]. cbn [parseargs mbind list_bind app] in *.
    destruct (peek_at "|)&;" s rest Ha) as (s1 & E1 & Ha1). fold (first_in "|)&;" rest) in E1.
    rewrite (bind_ret _ _ _ _ _ E1). destruct Hrest as [-> | ->]; [|by exists c0, s1]. cbn.
    destruct (gettoken_end s1 Ha1) as (s2 & E2 & Ha2). rewrite (bind_ret _ _ _ _ _ E2). by exists c0, s2.
  - destruct k as [|k]; [cbn in Hk; lia|]. cbn [length] in Hk, Hargc. apply Forall_cons in Hgs as [[Hw Hrs] Hgs].
    cbn [fst snd] in Hw, Hrs. change (((w, rs) :: gs) ≫= show_group) with (w :: (rs ≫= show_redir) ++ (gs ≫= show_group)) in Ha.
    cbn [parseargs app] in *. rewrite <- app_assoc in Ha.
    destruct (peek_at "|)&;" s _ Ha) as (s1 & E1 & Ha1). fold (first_in "|)&;" (w :: (rs ≫= show_redir) ++ (gs ≫= show_group) ++ rest)) in E1.
    rewrite first_word in E1 by done. rewrite (bind_ret _ _ _ _ _ E1).
    destruct (gettoken_at s1 _ _ Ha1) as (q & e & s2 & E2 & Hread & Ha2). rewrite (proj1 (code_word w Hw)) in E2.
    rewrite (bind_ret _ _ _ _ _ E2). cbn [Z.eqb negb Pos.eqb].
    rewrite (proj2 (Nat.leb_gt MAXARGS (S argc))) by lia.
    destruct (parseredirs_parses (S es) (push_arg (q, e) c0) rs ((gs ≫= show_group) ++ rest)) with (s := s2)
      as (c1 & s3 & E3 & Ha3 & Hc1).
    { pose proof (at_length _ _ Ha2) as H. rewrite length_app in H.
      assert (length rs <= length (rs ≫= show_redir))%nat by (clear; induction rs; cbn; lia). lia. }
    { done. }
    { destruct gs as [|[w' rs'] gs]; [by apply ends_no_redir|]. apply Forall_cons in Hgs as [[Hw' _] _]. by apply first_word. }
    { done. }
    rewrite (bind_ret _ _ _ _ _ E3).
    destruct (IH k (S argc) c1 ltac:(lia) ltac:(lia) Hgs Hrest s3 Ha3) as (c' & s' & E & Ha' & Hc').
    exists c', s'. split; [done|]. split; [done|]. rewrite Hc', Hc1, cmd_map_push, Hread. done.
Qed.

Lemma parseback_parses k c0 n rest :
  (n < k)%nat -> first_in "&" rest = false ->
  parses (parseback buf es k c0) (replicate n (str "&")) rest (Nat.iter n BACK (cmd_map read c0)).
Proof.
  revert k c0. induction n as [|n IH]; intros k c0 Hk Hrest s Ha; (destruct k as [|k]; [lia|]); cbn [parseback].
  - destruct (peek_at "&" s rest Ha) as (s1 & E1 & Ha1). fold (first_in "&" rest) in E1. rewrite Hrest in E1.
    rewrite (bind_ret _ _ _ _ _ E1). by exists c0, s1.
  - change (replicate (S n) (str "&")) with (str "&" :: replicate n (str "&")) in Ha. cbn [app] in Ha.
    destruct (peek_at "&" s _ Ha) as (s1 & E1 & Ha1).
    assert (peek buf es "&" s = Ret true s1) as E1' by by rewrite E1.
    rewrite (bind_ret _ _ _ _ _ E1').
    destruct (gettoken_at s1 _ _ Ha1) as (q & e & s2 & E2 & _ & Ha2). rewrite (bind_ret _ _ _ _ _ E2).
    destruct (IH k (BACK c0) ltac:(lia) Hrest s2 Ha2) as (c' & s' & E & Ha' & Hc').
    exists c', s'. split; [done|]. split; [done|]. rewrite Hc'. cbn [cmd_map]. by rewrite Nat.iter_succ_r.
Qed.

(** What may follow a pipe and a line. *)
Definition ends_pipe (rest : list token) : Prop := ends_args rest /\ first_in "|" rest = false.
Definition ends_line (rest : list token) : Prop :=
  ends_pipe rest /\ first_in "&" rest = false /\ first_in ";" rest = false.

Lemma ends_backs n ts rest : ends_pipe (replicate n (str "&") ++ (str ";" :: ts) ++ rest).
Proof. destruct n; (split; [right; reflexivity | reflexivity]). Qed.

Lemma peek_yes toks s t ts :
  at_ s (t :: ts) -> first_in toks (t :: ts) = true ->
  exists s1 q e s2, peek buf es toks s = Ret true s1 /\ gettoken buf es s1 = Ret (code t, q, e) s2 /\
    at_ s1 (t :: ts) /\ at_ s2 ts.
Proof.
  intros Ha Hf. destruct (peek_at toks s _ Ha) as (s1 & E1 & Ha1). fold (first_in toks (t :: ts)) in E1.
  rewrite Hf in E1. destruct (gettoken_at s1 _ _ Ha1) as (q & e & s2 & E2 & _ & Ha2). by exists s1, q, e, s2.
Qed.

Lemma peek_no toks s ts :
  at_ s ts -> first_in toks ts = false -> exists s1, peek buf es toks s = Ret false s1 /\ at_ s1 ts.
Proof.
  intros Ha Hf. destruct (peek_at toks s _ Ha) as (s1 & E1 & Ha1). fold (first_in toks ts) in E1.
  rewrite Hf in E1. by exists s1.
Qed.

Lemma simple_start its rest :
  Forall item_ok its -> ends_args rest -> first_in "(" ((its ≫= show_item) ++ rest) = false.
Proof.
  intros Hok Hr. destruct its as [|[w|op f] its].
  - cbn. destruct Hr as [-> | H]; [done|]. destruct rest as [|[|c t] rest]; [done..|]. cbn in *.
    repeat (apply orb_true_iff in H as [H|H]; [apply Z.eqb_eq in H; by subst|]). done.
  - apply Forall_cons in Hok as [Hw _]. by apply first_word.
  - by destruct op.
Qed.

Lemma parse_simple fuel its rest :
  exec_ok (Simple its) -> ends_args rest ->
  parses (parseexec buf es (S fuel)) (show_exec (Simple its)) rest (mean_exec (Simple its)).
Proof.
  intros [Hok Hn] Hrest s Ha. cbn [parseexec show_exec mean_exec] in *.
  destruct (peek_no "(" s _ Ha (simple_start its rest Hok Hrest)) as (s1 & E1 & Ha1).
  rewrite (bind_ret _ _ _ _ _ E1). destruct (groups its) as [rs gs] eqn:Eg.
  destruct (groups_spec its rs gs Eg Hok) as (H1 & H2 & H3 & H4 & H5). rewrite H1, <- app_assoc in Ha1.
  pose proof (at_length _ _ Ha1) as Hlen. rewrite !length_app in Hlen.
  assert (length rs <= length (rs ≫= show_redir))%nat by (clear; induction rs; cbn; lia).
  assert (length gs <= length (gs ≫= show_group))%nat.
  { clear. induction gs as [|g gs IH]; [done|]. change ((g :: gs) ≫= show_group) with (show_group g ++ (gs ≫= show_group)).
    rewrite length_app. cbn. lia. }
  destruct (parseredirs_parses (S es) (EXEC []) rs ((gs ≫= show_group) ++ rest)) with (s := s1) as (c1 & s2 & E2 & Ha2 & Hc1);
    [lia | done | | done |].
  { destruct gs as [|[w' rs'] gs]; [by apply ends_no_redir|]. apply Forall_cons in H4 as [[Hw' _] _]. by apply first_word. }
  rewrite (bind_ret _ _ _ _ _ E2).
  destruct (parseargs_parses (S es) 0 c1 gs rest) with (s := s2) as (c' & s' & E & Ha' & Hc');
    [lia | rewrite H5; lia | done | done | done |].
  exists c', s'. split; [done|]. split; [done|]. by rewrite Hc', Hc1, H2.
Qed.

Lemma parse_all :
  (forall e, exec_ok e -> forall fuel rest, (4 * length (show_exec e) + 2 <= fuel)%nat -> ends_args rest ->
     parses (parseexec buf es fuel) (show_exec e) rest (mean_exec e)) /\
  (forall p, pipe_ok p -> forall fuel rest, (4 * length (show_pipe p) + 3 <= fuel)%nat -> ends_pipe rest ->
     parses (parsepipe buf es fuel) (show_pipe p) rest (mean_pipe p)) /\
  (forall l, line_ok l -> forall fuel rest, (4 * length (show_line l) + 4 <= fuel)%nat -> ends_line rest ->
     parses (parseline buf es fuel) (show_line l) rest (mean_line l)).
Proof.
  apply tree_ind.
  - intros its Hok fuel rest Hf Hrest. destruct fuel as [|fuel]; [lia|]. by apply parse_simple.
  - intros l IHl rs [Hl Hrs] fuel rest Hf Hrest s Ha.
    cbn [show_exec mean_exec length] in *. rewrite length_app in Hf. cbn [length] in Hf.
    destruct fuel as [|[|fuel]]; [lia.. |]. cbn [parseexec parseblock app] in *. rewrite <- app_assoc in Ha.
    destruct (peek_yes "(" s _ _ Ha eq_refl) as (s1 & _ & _ & _ & E1 & _ & Ha1 & _).
    destruct (peek_yes "(" s1 _ _ Ha1 eq_refl) as (s2 & q & e & s3 & E2 & E3 & _ & Ha3).
    rewrite (bind_ret _ _ _ _ _ E1), (bind_ret _ _ _ _ _ E2). cbn [negb]. rewrite (bind_ret _ _ _ _ _ E3).
    destruct (IHl Hl fuel (str ")" :: (rs ≫= show_redir) ++ rest)) with (s := s3) as (c1 & s4 & E4 & Ha4 & Hc1);
      [lia | split_and!; [split; [by right | done] | done | done] | done |].
    rewrite (bind_ret _ _ _ _ _ E4).
    destruct (peek_yes ")" s4 _ _ Ha4 eq_refl) as (s5 & q5 & e5 & s6 & E5 & E6 & _ & Ha6).
    rewrite (bind_ret _ _ _ _ _ E5). cbn [negb]. rewrite (bind_ret _ _ _ _ _ E6), <- Hc1.
    apply (parseredirs_parses (S es) c1 rs rest); [| done | by apply ends_no_redir | done].
    pose proof (at_length _ _ Ha6) as Hlen. rewrite length_app in Hlen.
    assert (length rs <= length (rs ≫= show_redir))%nat by (clear; induction rs; cbn; lia). lia.
  - intros e IHe Hok fuel rest Hf [Hr1 Hr2] s Ha. destruct fuel as [|fuel]; [lia|]. cbn [parsepipe show_pipe mean_pipe] in *.
    destruct (IHe Hok fuel rest ltac:(lia) Hr1 s Ha) as (c1 & s1 & E1 & Ha1 & Hc1). rewrite (bind_ret _ _ _ _ _ E1).
    destruct (peek_no "|" s1 _ Ha1 Hr2) as (s2 & E2 & Ha2). rewrite (bind_ret _ _ _ _ _ E2). by exists c1, s2.
  - intros e IHe p IHp [Hoke Hokp] fuel rest Hf Hr s Ha. destruct fuel as [|fuel]; [lia|].
    cbn [parsepipe show_pipe mean_pipe] in *. rewrite length_app in Hf. cbn [length] in Hf. rewrite <- app_assoc in Ha.
    destruct (IHe Hoke fuel (str "|" :: show_pipe p ++ rest) ltac:(lia) ltac:(by right) s Ha) as (c1 & s1 & E1 & Ha1 & Hc1).
    rewrite (bind_ret _ _ _ _ _ E1).
    destruct (peek_yes "|" s1 _ _ Ha1 eq_refl) as (s2 & q & e2 & s3 & E2 & E3 & _ & Ha3).
    rewrite (bind_ret _ _ _ _ _ E2), (bind_ret _ _ _ _ _ E3).
    destruct (IHp Hokp fuel rest ltac:(lia) Hr s3 Ha3) as (c2 & s4 & E4 & Ha4 & Hc2). rewrite (bind_ret _ _ _ _ _ E4).
    exists (PIPE c1 c2), s4. split; [done|]. split; [done|]. cbn. by rewrite Hc1, Hc2.
  - intros p IHp n Hok fuel rest Hf (Hr1 & Hr2 & Hr3) s Ha. destruct fuel as [|fuel]; [lia|].
    cbn [parseline show_line mean_line] in *. rewrite length_app in Hf. rewrite <- app_assoc in Ha.
    destruct (IHp Hok fuel (replicate n (str "&") ++ rest) ltac:(lia)) with (s := s) as (c1 & s1 & E1 & Ha1 & Hc1);
      [destruct n; [done | split; [by right | done]] | done |].
    rewrite (bind_ret _ _ _ _ _ E1). pose proof (at_length _ _ Ha1) as Hlen. rewrite length_app, length_replicate in Hlen.
    destruct (parseback_parses (S es) c1 n rest ltac:(lia) Hr2 s1 Ha1) as (c2 & s2 & E2 & Ha2 & Hc2).
    rewrite (bind_ret _ _ _ _ _ E2). destruct (peek_no ";" s2 _ Ha2 Hr3) as (s3 & E3 & Ha3).
    rewrite (bind_ret _ _ _ _ _ E3). exists c2, s3. by rewrite Hc2, Hc1.
  - intros p IHp n l IHl [Hokp Hokl] fuel rest Hf Hr s Ha. destruct fuel as [|fuel]; [lia|].
    cbn [parseline show_line mean_line] in *. rewrite !length_app in Hf. cbn [length] in Hf. rewrite <- !app_assoc in Ha.
    destruct (IHp Hokp fuel (replicate n (str "&") ++ (str ";" :: show_line l) ++ rest) ltac:(lia)) with (s := s)
      as (c1 & s1 & E1 & Ha1 & Hc1); [apply ends_backs | done |].
    rewrite (bind_ret _ _ _ _ _ E1). pose proof (at_length _ _ Ha1) as Hlen. rewrite length_app, length_replicate in Hlen.
    destruct (parseback_parses (S es) c1 n ((str ";" :: show_line l) ++ rest) ltac:(lia) eq_refl s1 Ha1) as (c2 & s2 & E2 & Ha2 & Hc2).
    rewrite (bind_ret _ _ _ _ _ E2). destruct (peek_yes ";" s2 _ _ Ha2 eq_refl) as (s3 & q & e & s4 & E3 & E4 & _ & Ha4).
    rewrite (bind_ret _ _ _ _ _ E3), (bind_ret _ _ _ _ _ E4).
    destruct (IHl Hokl fuel rest ltac:(lia) Hr s4 Ha4) as (c3 & s5 & E5 & Ha5 & Hc3). rewrite (bind_ret _ _ _ _ _ E5).
    exists (LIST c2 c3), s5. split; [done|]. split; [done|]. cbn. by rewrite Hc2, Hc1, Hc3.
Qed.
End text.

Lemma parse_tree l text tail :
  line_ok l -> lex text (show_line l) -> Forall (fun c => c <> 0) text ->
  exists c b s, parsecmd (text ++ 0 :: tail) 0%nat = Ret (c, b) s /\ cmd_map (read text) c = mean_line l.
Proof.
  intros Hok Hlex Hnz. pose proof (text_line text tail Hnz) as HL.
  assert (strlen (text ++ 0 :: tail) = Some (Z.of_nat (length text))) as Hs.
  { clear -Hnz. induction Hnz as [|c text Hc _ IH]; cbn; [done|]. apply Z.eqb_neq in Hc. rewrite Hc, IH. cbn. f_equal. lia. }
  assert (at_ text 0 (show_line l ++ [])) as Ha by (rewrite app_nil_r; split; [done | lia]).
  pose proof (at_length text _ _ Ha) as Hlen. rewrite app_nil_r in Hlen.
  destruct (proj2 (proj2 (parse_all text tail Hnz)) l Hok (4 * length text + 4)%nat [] ltac:(lia)) with (s := 0%nat)
    as (c & s1 & E1 & Ha1 & Hc); [split_and!; [split; [by left | done] | done | done] | done |].
  destruct (peek_at text tail Hnz "" s1 [] Ha1) as (s2 & E2 & _).
  assert (s2 = length text) as ->.
  { pose proof (skip_ws_at text tail s1 [] Ha1) as H. unfold peek in E2. cbn in H. by injection E2 as _ <-. }
  exists c, (nulterminate c (text ++ 0 :: tail)), (length text). split; [|done].
  unfold parsecmd. rewrite Hs, Nat2Z.id. rewrite (bind_ret _ _ _ _ _ E1), (bind_ret _ _ _ _ _ E2).
  unfold bind, get. by rewrite Nat.eqb_refl.
Qed.

(** C22: the parser implements the shell's grammar.  For every tree of the
    grammar and every text that is cut into the tree's tokens, with any blanks
    between them, [parsecmd] accepts the text and returns the command the tree
    stands for: the strings it points to read as the tree's words. *)
Theorem parse_show l text tail :
  line_ok l -> lex text (show_line l) -> Forall (fun c => c <> 0) text ->
  exists c b s, parsecmd (text ++ 0 :: tail) 0%nat = Ret (c, b) s /\ cmd_map (read text) c = mean_line l.
Proof. apply parse_tree. Qed.

(** [" (a;b x)>f | c<g&"] *)
Definition demo_tree : line_t :=
  Last (Bar (Block (Semi (One (Simple [Word (str "a")])) 0 (Last (One (Simple [Word (str "b"); Word (str "x")])) 0))
              [(ROut, str "f")])
         (One (Simple [Word (str "c"); Redirect RIn (str "g")]))) 1.

Lemma demo_lex : lex (str " (a;b x)>f | c<g&") (show_line demo_tree).
Proof.
  assert (forall c ws rest ts, Forall is_ws ws -> inb c (str "|();&<") = true -> lex rest ts ->
    lex (ws ++ [c] ++ rest) ([c] :: ts)) as Hsym.
  { intros c ws rest ts H1 H2 H3. apply lex_tok; [done | left; eauto | done]. }
  assert (forall w ws c rest ts, Forall is_ws ws -> word_tok w -> is_word c = false -> lex (c :: rest) ts ->
    lex (ws ++ w ++ c :: rest) (w :: ts)) as Hword.
  { intros w ws c rest ts H1 [H2 H3] H4 H5. apply lex_tok; [done | right; right; right; done | done]. }
  assert (forall c, is_word c && negb (c =? 0) = true -> word_tok [c]) as Hw1.
  { intros c [H1 H2]%andb_true_iff. split; [done|]. constructor; [|done]. split; [done|].
    intros ->. done. }
  apply (Hsym 40 [32]); [by repeat constructor | done |].
  apply (Hword [97] [] 59); [constructor | by apply Hw1 | done |].
  apply (Hsym 59 []); [constructor | done |].
  apply (Hword [98] [] 32); [constructor | by apply Hw1 | done |].
  apply (Hword [120] [32] 41); [by repeat constructor | by apply Hw1 | done |].
  apply (Hsym 41 []); [constructor | done |].
  apply (lex_tok [] [62]); [constructor | right; left; done |].
  apply (Hword [102] [] 32); [constructor | by apply Hw1 | done |].
  apply (Hsym 124 [32]); [by repeat constructor | done |].
  apply (Hword [99] [32] 60); [by repeat constructor | by apply Hw1 | done |].
  apply (Hsym 60 []); [constructor | done |].
  apply (Hword [103] [] 38); [constructor | by apply Hw1 | done |].
  apply (Hsym 38 []); [constructor | done |].
  constructor. constructor.
Qed.

Lemma demo_tree_ok : line_ok demo_tree.
Proof.
  assert (forall c, is_word c && negb (c =? 0) = true -> word_tok [c]) as Hw1.
  { intros c [H1 H2]%andb_true_iff. split; [done|]. constructor; [|done]. split; [done|]. intros ->. done. }
  cbn [line_ok pipe_ok exec_ok demo_tree]. split_and!; repeat (apply Forall_cons; split); try (by apply Hw1); try (by apply Forall_nil);
    apply Nat.ltb_lt; reflexivity.
Qed.

Lemma demo_nonzero : Forall (fun c => c <> 0) (str " (a;b x)>f | c<g&").
Proof. repeat constructor; discriminate. Qed.

Lemma parse_show_witness :
  exists c b s, parsecmd (str " (a;b x)>f | c<g&" ++ [0]) 0%nat = Ret (c, b) s /\
    cmd_map (read (str " (a;b x)>f | c<g&")) c =
    BACK (PIPE (REDIR (LIST (EXEC [str "a"]) (EXEC [str "b"; str "x"])) (str "f") 513 1)
               (REDIR (EXEC [str "c"]) (str "g") 0 0)).
Proof. exact (parse_show demo_tree (str " (a;b x)>f | c<g&") [] demo_tree_ok demo_lex demo_nonzero). Defined.
