(* ===== verification/ShRun.v ===== *)
(** * Running commands ([runcmd], [main] of sh.c)

    [runcmd] and [main] as programs of system calls: [prog] is the tree of the
    calls a process makes, with a branch for each result and the child at each
    [fork].  [interp] runs a program over the table of open files, where [open],
    [dup] and [pipe] take the lowest free descriptors as the kernel's [fdalloc]
    does, and collects the programs executed with their tables. *)

From S2P Require Import Prelude Cstring Sh ShParse.

Inductive prog :=
| Exit
| Print (fd : Z) (msg : list Z) (k : prog)
| Exec (path : list Z) (argv : list (list Z)) (k : prog)   (* returns only when it fails *)
| Close (fd : Z) (k : prog)
| Open (path : list Z) (mode : Z) (k : Z -> prog)
| Dup (fd : Z) (k : prog)
| Pipe (k : option (Z * Z) -> prog)
| Fork (child : prog) (k : Z -> prog)
| Wait (k : prog)
| Chdir (path : list Z) (k : Z -> prog).

Definition newline : list Z := [10].
Definition panic_prog (s : string) : prog := Print 2 (str s ++ newline) Exit.
Definition fork1 (child parent : prog) : prog :=
  Fork child (fun pid => if pid =? -1 then panic_prog "fork" else parent).

Fixpoint runcmd (c : tcmd (list Z)) : prog :=
  match c with
  | EXEC [] => Exit
  | EXEC (a :: argv) => Exec a (a :: argv) (Print 2 (str "exec " ++ a ++ str " failed" ++ newline) Exit)
  | REDIR c file mode fd =>
      Close fd (Open file mode (fun r =>
        if r <? 0 then Print 2 (str "open " ++ file ++ str " failed" ++ newline) Exit else runcmd c))
  | LIST l r => fork1 (runcmd l) (Wait (runcmd r))
  | PIPE l r =>
      Pipe (fun p =>
        match p with
        | None => panic_prog "pipe"
        | Some (p0, p1) =>
            fork1 (Close 1 (Dup p1 (Close p0 (Close p1 (runcmd l)))))
            (fork1 (Close 0 (Dup p0 (Close p0 (Close p1 (runcmd r)))))
            (Close p0 (Close p1 (Wait (Wait Exit)))))
        end)
  | BACK c => fork1 (runcmd c) Exit
  end.

(** The child of [main]: parse the line and run it. *)
Definition run_line (buf : list Z) : prog :=
  match parsecmd buf 0%nat with
  | Ret (c, b) _ =>
      runcmd (cmd_map (fun a => cstr (drop a.1 b)) c)
  | Panic msg => panic_prog msg
  | _ => Exit
  end.

(** [getcmd] with a buffer of [nbuf] bytes: the line, or nothing at the end of
    the input, and the input that is left. *)
Definition getcmd (inp : list Z) (nbuf : nat) : option (list Z) * list Z :=
  let '(buf, rest) := gets inp (replicate nbuf 0) nbuf in
  (if ch buf 0 =? 0 then None else Some buf, rest).

Definition is_cd (buf : list Z) : bool := (ch buf 0 =? 99) && (ch buf 1 =? 100) && (ch buf 2 =? 32).
(** [buf[strlen(buf)-1] = 0; buf+3] *)
Definition cd_path (buf : list Z) : list Z :=
  match strlen buf with
  | Some n => cstr (drop 3 (<[Z.to_nat (n - 1) := 0]> buf))
  | None => []
  end.

(** The loop of [main]; every line takes a byte of the input. *)
Fixpoint main_loop (fuel : nat) (inp : list Z) : prog :=
  match fuel with
  | O => Exit
  | S fuel =>
      let '(line, rest) := getcmd inp 200 in
      match line with
      | None => Print 2 (str "$ ") Exit
      | Some buf =>
          Print 2 (str "$ ")
            (if is_cd buf then
               Chdir (cd_path buf) (fun r =>
                 if r <? 0 then Print 2 (str "cannot cd " ++ cd_path buf ++ newline) (main_loop fuel rest)
                 else main_loop fuel rest)
             else fork1 (run_line buf) (Wait (main_loop fuel rest)))
      end
  end.

(** [while((fd = open("console", O_RDWR)) >= 0)]; the fourth descriptor is
    the last one it can open. *)
Fixpoint open_console (fuel : nat) (k : prog) : prog :=
  match fuel with
  | O => k
  | S fuel => Open (str "console") O_RDWR (fun fd => if 0 <=? fd then if 3 <=? fd then Close fd k else open_console fuel k else k)
  end.

(** [main], on the input [inp]. *)
Definition sh_main (inp : list Z) : prog := open_console 4 (main_loop (S (length inp)) inp).

(** ** Open files *)

Inductive obj := FFile (path : list Z) (mode : Z) | FPipe (id : nat) (write_end : bool) | FOther (n : nat).

Abbreviation ftable := (list (option obj)).
Definition NOFILE : nat := 16.

Definition is_none (o : option obj) : bool := match o with None => true | Some _ => false end.
(** The lowest free descriptor. *)
Definition fdalloc (t : ftable) : option nat := find_index is_none t.

Record event := mk_event { e_argv : list (list Z); e_files : ftable }.

(** The programs executed, in one order, when [exec] and [fork] succeed and
    [open] fails only for want of a descriptor; [n] numbers the pipes. *)
Fixpoint interp (p : prog) (t : ftable) (n : nat) : list event * nat :=
  match p with
  | Exit => ([], n)
  | Print _ _ k => interp k t n
  | Exec _ argv _ => ([mk_event argv t], n)
  | Close fd k => interp k (<[Z.to_nat fd := None]> t) n
  | Open path mode k =>
      match fdalloc t with
      | Some fd => interp (k (Z.of_nat fd)) (<[fd := Some (FFile path mode)]> t) n
      | None => interp (k (-1)) t n
      end
  | Dup fd k =>
      match fdalloc t with
      | Some fd' => interp k (<[fd' := mjoin (t !! Z.to_nat fd)]> t) n
      | None => interp k t n
      end
  | Pipe k =>
      match fdalloc t with
      | Some p0 =>
          let t0 := <[p0 := Some (FPipe n false)]> t in
          match fdalloc t0 with
          | Some p1 =>
              interp (k (Some (Z.of_nat p0, Z.of_nat p1))) (<[p1 := Some (FPipe n true)]> t0) (S n)
          | None => interp (k None) t n
          end
      | None => interp (k None) t n
      end
  | Fork child k =>
      let '(e1, n1) := interp child t n in
      let '(e2, n2) := interp (k 1) t n1 in
      (e1 ++ e2, n2)
  | Wait k => interp k t n
  | Chdir _ k => interp (k 0) t n
  end.

(** ** What the commands should run with *)

Fixpoint wiring (c : tcmd (list Z)) (t : ftable) (n : nat) : list event * nat :=
  match c with
  | EXEC [] => ([], n)
  | EXEC argv => ([mk_event argv t], n)
  | REDIR c file mode fd => wiring c (<[Z.to_nat fd := Some (FFile file mode)]> t) n
  | LIST l r | PIPE l r =>
      let '(tl, tr, n0) :=
        match c with
        | PIPE _ _ => (<[1%nat := Some (FPipe n true)]> t, <[0%nat := Some (FPipe n false)]> t, S n)
        | _ => (t, t, n)
        end in
      let '(e1, n1) := wiring l tl n0 in
      let '(e2, n2) := wiring r tr n1 in
      (e1 ++ e2, n2)
  | BACK c => wiring c t n
  end.

(** The redirections the parser makes: of 0 and 1. *)
Fixpoint std_redirs {A} (c : tcmd A) : Prop :=
  match c with
  | EXEC _ => True
  | REDIR c _ _ fd => (fd = 0 \/ fd = 1) /\ std_redirs c
  | PIPE l r | LIST l r => std_redirs l /\ std_redirs r
  | BACK c => std_redirs c
  end.

(** 0 and 1 are open, and two descriptors are free. *)
Definition usable (t : ftable) : Prop :=
  exists a b p q r, t = Some a :: Some b :: p ++ None :: q ++ None :: r /\ Forall is_Some p /\ Forall is_Some q.

Lemma find_free (p : ftable) l : Forall is_Some p -> find_index is_none (p ++ None :: l) = Some (length p).
Proof. induction 1 as [|o p [x ->] _ IH]; cbn; [done|]. by rewrite IH. Qed.

Lemma insert_mid {A} (p : list A) x y l : <[length p := y]> (p ++ x :: l) = p ++ y :: l.
Proof. induction p as [|z p IH]; cbn; [done|]. f_equal. exact IH. Qed.

Lemma lookup_mid {A} (p : list A) x l : (p ++ x :: l) !! length p = Some x.
Proof. by rewrite lookup_app_r, Nat.sub_diag. Qed.

Lemma usable_0 t o : usable t -> usable (<[0%nat := Some o]> t).
Proof. intros (a & b & p & q & r & -> & Hp & Hq). by exists o, b, p, q, r. Qed.

Lemma usable_1 t o : usable t -> usable (<[1%nat := Some o]> t).
Proof. intros (a & b & p & q & r & -> & Hp & Hq). by exists a, o, p, q, r. Qed.

(** [close(fd); open(...)] for a standard descriptor. *)
Lemma redir_files t fd file mode n k :
  usable t -> fd = 0 \/ fd = 1 ->
  interp (Close fd (Open file mode k)) t n = interp (k fd) (<[Z.to_nat fd := Some (FFile file mode)]> t) n.
Proof. intros (a & b & p & q & r & -> & Hp & Hq) [-> | ->]; done. Qed.

(** The two ends, by position. *)
Section pipe.
Context (a b : obj) (p q r : ftable) (n : nat).
Hypothesis (Hp : Forall is_Some p) (Hq : Forall is_Some q).
Let t := Some a :: Some b :: p ++ None :: q ++ None :: r.
Let p0 := S (S (length p)).
Let p1 := S (S (length p + S (length q))).
Let both := Some a :: Some b :: p ++ Some (FPipe n false) :: q ++ Some (FPipe n true) :: r.

Lemma pipe_files k : interp (Pipe k) t n = interp (k (Some (Z.of_nat p0, Z.of_nat p1))) both (S n).
Proof.
  cbn [interp]. unfold fdalloc, t. cbn [find_index is_none]. rewrite (find_free p) by done. cbn [fmap option_fmap option_map].
  change (<[S (S (length p)) := Some (FPipe n false)]> (Some a :: Some b :: p ++ None :: q ++ None :: r))
    with (Some a :: Some b :: <[length p := Some (FPipe n false)]> (p ++ None :: q ++ None :: r)).
  rewrite insert_mid. cbn [find_index is_none].
  replace (p ++ Some (FPipe n false) :: q ++ None :: r) with ((p ++ Some (FPipe n false) :: q) ++ None :: r)
    by by rewrite <- app_assoc.
  rewrite find_free by (apply Forall_app; split; [done | by constructor]). cbn [fmap option_fmap option_map].
  replace (S (S (length (p ++ Some (FPipe n false) :: q)))) with p1 by (unfold p1; rewrite length_app; done).
  f_equal. unfold p1, both.
  change (<[S (S (length p + S (length q))) := Some (FPipe n true)]>
    (Some a :: Some b :: (p ++ Some (FPipe n false) :: q) ++ None :: r))
    with (Some a :: Some b :: <[(length p + S (length q))%nat := Some (FPipe n true)]>
      ((p ++ Some (FPipe n false) :: q) ++ None :: r)).
  replace (length p + S (length q))%nat with (length (p ++ Some (FPipe n false) :: q)) by (rewrite length_app; done).
  rewrite insert_mid. by rewrite <- app_assoc.
Qed.

Lemma close_both x y :
  <[p1 := None]> (<[p0 := None]> (x :: y :: p ++ Some (FPipe n false) :: q ++ Some (FPipe n true) :: r)) =
  x :: y :: p ++ None :: q ++ None :: r.
Proof.
  unfold p0, p1. cbn. do 2 f_equal.
  transitivity (<[(length p + S (length q))%nat := None]> (<[length p := None]> (p ++ Some (FPipe n false) :: q ++ Some (FPipe n true) :: r)));
    [done|]. rewrite insert_mid.
  replace (length p + S (length q))%nat with (length (p ++ @None obj :: q)) by (rewrite length_app; done).
  replace (p ++ None :: q ++ Some (FPipe n true) :: r) with ((p ++ None :: q) ++ Some (FPipe n true) :: r)
    by by rewrite <- app_assoc.
  rewrite insert_mid. by rewrite <- app_assoc.
Qed.

Lemma end0 x y : (x :: y :: p ++ Some (FPipe n false) :: q ++ Some (FPipe n true) :: r) !! p0 = Some (Some (FPipe n false)).
Proof. unfold p0. cbn. apply lookup_mid. Qed.

Lemma end1 x y : (x :: y :: p ++ Some (FPipe n false) :: q ++ Some (FPipe n true) :: r) !! p1 = Some (Some (FPipe n true)).
Proof.
  unfold p1. cbn.
  replace (length p + S (length q))%nat with (length (p ++ Some (FPipe n false) :: q)) by (rewrite length_app; done).
  replace (p ++ Some (FPipe n false) :: q ++ Some (FPipe n true) :: r) with ((p ++ Some (FPipe n false) :: q) ++ Some (FPipe n true) :: r)
    by by rewrite <- app_assoc.
  apply lookup_mid.
Qed.

Lemma left_files k m :
  interp (Close 1 (Dup (Z.of_nat p1) (Close (Z.of_nat p0) (Close (Z.of_nat p1) k)))) both m =
  interp k (<[1%nat := Some (FPipe n true)]> t) m.
Proof.
  cbn [interp]. rewrite !Nat2Z.id. change (Z.to_nat 1) with 1%nat. unfold both.
  change (<[1%nat := None]> (Some a :: Some b :: ?l)) with (Some a :: None :: l).
  change (fdalloc (Some a :: None :: _)) with (Some 1%nat). cbn beta iota.
  rewrite end1. cbn [mjoin option_join].
  change (<[1%nat := Some (FPipe n true)]> (Some a :: None :: ?l)) with (Some a :: Some (FPipe n true) :: l).
  by rewrite close_both.
Qed.

Lemma right_files k m :
  interp (Close 0 (Dup (Z.of_nat p0) (Close (Z.of_nat p0) (Close (Z.of_nat p1) k)))) both m =
  interp k (<[0%nat := Some (FPipe n false)]> t) m.
Proof.
  cbn [interp]. rewrite !Nat2Z.id. change (Z.to_nat 0) with 0%nat. unfold both.
  change (<[0%nat := None]> (Some a :: ?l)) with (None :: l).
  change (fdalloc (None :: _)) with (Some 0%nat). cbn beta iota.
  rewrite end0. cbn [mjoin option_join].
  change (<[0%nat := Some (FPipe n false)]> (None :: ?l)) with (Some (FPipe n false) :: l).
  by rewrite close_both.
Qed.
End pipe.

Lemma wiring_runs c t n : usable t -> std_redirs c -> interp (runcmd c) t n = wiring c t n.
Proof.
  revert t n. induction c as [argv|c IH file mode fd|l IHl r IHr|l IHl r IHr|c IH]; intros t n Ht Hc.
  - by destruct argv.
  - destruct Hc as [Hfd Hc]. cbn [runcmd wiring]. rewrite redir_files by done.
    rewrite (proj2 (Z.ltb_ge fd 0)) by lia. apply IH; [|done].
    destruct Hfd as [-> | ->]; [by apply usable_0 | by apply usable_1].
  - destruct Hc as [Hl Hr]. pose proof Ht as (a & b & p & q & r' & -> & Hp & Hq). cbn [runcmd wiring].
    rewrite pipe_files by done. cbn [fork1]. unfold fork1.
    change (interp (Fork ?c ?k) ?t ?m) with
      (let '(e1, n1) := interp c t m in let '(e2, n2) := interp (k 1) t n1 in (e1 ++ e2, n2)).
    rewrite left_files, IHl by (done || by apply usable_1).
    destruct (wiring l _ _) as [e1 n1]. cbn [Z.eqb].
    change (interp (Fork ?c ?k) ?t ?m) with
      (let '(e1, n1) := interp c t m in let '(e2, n2) := interp (k 1) t n1 in (e1 ++ e2, n2)).
    rewrite right_files, IHr by (done || by apply usable_0).
    destruct (wiring r _ _) as [e2 n2]. cbn [Z.eqb interp]. by rewrite app_nil_r.
  - destruct Hc as [Hl Hr]. cbn [runcmd wiring fork1]. unfold fork1. cbn [interp Z.eqb].
    rewrite IHl by done. destruct (wiring l t n) as [e1 n1]. rewrite IHr by done. by destruct (wiring r t n1).
  - cbn [runcmd wiring]. unfold fork1. cbn [interp Z.eqb]. rewrite IH by done. destruct (wiring c t n). by rewrite app_nil_r.
Qed.

(** ** A line that is typed *)

Lemma push_arg_redirs {A} (a : A) c : std_redirs c -> std_redirs (push_arg a c).
Proof. induction c; cbn; tauto. Qed.

Lemma redir_std c rs : std_redirs c -> std_redirs (foldl redir c rs).
Proof.
  revert c. induction rs as [|[op f] rs IH]; intros c Hc; [done|]. cbn. apply IH.
  destruct op; cbn; tauto.
Qed.

Lemma items_std c its : std_redirs c -> std_redirs (foldl mean_item c its).
Proof.
  revert c. induction its as [|[w|op f] its IH]; intros c Hc; [done | |]; cbn; apply IH.
  - by apply push_arg_redirs.
  - destruct op; cbn; tauto.
Qed.

Lemma backs_std {A} n (c : tcmd A) : std_redirs c -> std_redirs (Nat.iter n BACK c).
Proof. intros H. induction n; done. Qed.

Lemma mean_std :
  (forall e, std_redirs (mean_exec e)) /\ (forall p, std_redirs (mean_pipe p)) /\ (forall l, std_redirs (mean_line l)).
Proof.
  apply tree_ind; intros; cbn.
  - by apply items_std.
  - by apply redir_std.
  - done.
  - done.
  - by apply backs_std.
  - split; [by apply backs_std | done].
Qed.

Lemma cmd_map_ext {A B} (f g : A -> B) c : (forall a, a ∈ strings c -> f a = g a) -> cmd_map f c = cmd_map g c.
Proof.
  induction c; cbn; intros H.
  - f_equal. apply list_fmap_ext. intros i a Ha. apply H. by eapply list_elem_of_lookup_2.
  - f_equal; [apply IHc; set_solver | apply H; set_solver].
  - f_equal; [apply IHc1; set_solver | apply IHc2; set_solver].
  - f_equal; [apply IHc1; set_solver | apply IHc2; set_solver].
  - f_equal. by apply IHc.
Qed.

(** C23: a command line does what it says.  For every tree of the grammar and
    every text of it, the child that the shell forks executes exactly the
    simple commands of the tree with their words as arguments, each with its
    standard input and output redirected as the tree asks and nothing else
    changed: a file for a redirection, the two ends of one pipe on the two
    sides of a bar, and no stray end of a pipe left open in any of them. *)
Theorem shell_runs_line l text tail t n :
  line_ok l -> lex text (show_line l) -> Forall (fun c => c <> 0) text -> usable t ->
  interp (run_line (text ++ 0 :: tail)) t n = wiring (mean_line l) t n.
Proof.
  intros Hok Hlex Hnz Ht. destruct (parse_tree l text tail Hok Hlex Hnz) as (c & b & s & E & Hc).
  unfold run_line. rewrite E.
  assert (cmd_map (fun a => cstr (drop a.1 b)) c = mean_line l) as ->; [|apply wiring_runs; [done | apply mean_std]].
  rewrite <- Hc. apply cmd_map_ext. intros [q e] Hin. cbn beta. cbn [fst].
  assert (terminated (text ++ 0 :: tail)) as Hterm by (unfold terminated; set_solver).
  destruct (parsed_strings _ c b s q e Hterm E Hin) as (-> & Hqe & Hw & Hend).
  destruct (parsecmd_good _ Hterm) as (es & HL & Hg). unfold wpp in Hg. rewrite E in Hg. destruct Hg as [Hg _].
  pose proof (proj1 (Forall_forall _ _) (strings_ok _ es c Hg) (q, e) Hin) as ((_ & Hes) & _). cbn in Hes.
  assert (es = length text) as ->.
  { pose proof (text_line text tail Hnz) as (H1 & H2 & H3). destruct HL as (H4 & H5 & H6).
    destruct (Nat.lt_trichotomy es (length text)) as [Hlt|[->|Hlt]]; [by destruct (H3 es Hlt) | done | by destruct (H6 _ Hlt)]. }
  unfold read, slice. cbn [fst snd]. rewrite drop_app_le by lia. rewrite take_app_le; [done|]. rewrite length_drop. lia.
Qed.

Lemma shell_runs_line_witness :
  let t := [Some (FOther 0); Some (FOther 1); Some (FOther 2); None; None] in
  usable t /\
  interp (run_line (str " (a;b x)>f | c<g&" ++ [0])) t 0 =
  ([mk_event [str "a"] (<[1%nat := Some (FFile (str "f") 513)]> t);
    mk_event [str "b"; str "x"] (<[1%nat := Some (FFile (str "f") 513)]> t);
    mk_event [str "c"] (<[0%nat := Some (FFile (str "g") 0)]> t)], 1%nat).
Proof.
  intros t.
  assert (usable t) as Ht.
  { exists (FOther 0), (FOther 1), [Some (FOther 2)], [], []. split; [reflexivity|]. split; by repeat constructor. }
  split; [exact Ht|].
  exact (shell_runs_line demo_tree (str " (a;b x)>f | c<g&") [] t 0 demo_tree_ok demo_lex demo_nonzero Ht).
Defined.

(** The input is enough fuel for [main]. *)
Lemma gets_loop_rest inp buf i max buf' rest :
  gets_loop inp buf i max = (buf', rest) -> (length rest <= length inp)%nat /\
  ((i + 1 < max)%nat -> inp <> [] -> (length rest < length inp)%nat).
Proof.
  revert buf i. induction inp as [|c inp IH]; intros buf i E; cbn [gets_loop] in E.
  - destruct (i + 1 <? max)%nat; injection E as <- <-; done.
  - destruct (i + 1 <? max)%nat eqn:Em.
    + destruct (_ || _).
      * injection E as <- <-. cbn. split; intros; lia.
      * destruct (IH _ _ E) as [H _]. cbn. split; intros; lia.
    + injection E as <- <-. split; [done|]. apply Nat.ltb_ge in Em. lia.
Qed.

Lemma getcmd_consumes inp buf rest : getcmd inp 200 = (Some buf, rest) -> (length rest < length inp)%nat.
Proof.
  unfold getcmd, gets. destruct (gets_loop _ _ _ _) as [b r] eqn:E. destruct (ch b 0 =? 0) eqn:E0; [done|].
  intros [= <- <-]. apply gets_loop_rest in E as H. destruct H as [_ H]. apply H; [lia|].
  intros ->. cbn in E. injection E as <- _. by vm_compute in E0.
Qed.

Lemma main_loop_fuel k k' inp : (length inp < k)%nat -> (length inp < k')%nat -> main_loop k inp = main_loop k' inp.
Proof.
  revert k' inp. induction k as [|k IH]; intros k' inp Hk Hk'; [lia|]. destruct k' as [|k']; [lia|]. cbn [main_loop].
  destruct (getcmd inp 200) as [[buf|] rest] eqn:E; [|done]. apply getcmd_consumes in E.
  by rewrite (IH k' rest) by lia.
Qed.

(** ** The start of the shell *)

(** The first three descriptors, open to the console where they were closed. *)
Definition with_console (t : ftable) : ftable :=
  ((fun o => match o with None => Some (FFile (str "console") O_RDWR) | _ => o end) <$> take 3 t) ++ drop 3 t.

Lemma open_full k fuel a b c t n :
  interp (open_console (S fuel) k) (Some a :: Some b :: Some c :: t) n = interp k (Some a :: Some b :: Some c :: t) n.
Proof.
  cbn [open_console interp]. unfold fdalloc. cbn [find_index is_none]. destruct (find_index is_none t) as [i|] eqn:Ei; [|done]. cbn [fmap option_fmap option_map].
  rewrite (proj2 (Z.leb_le 0 _)), (proj2 (Z.leb_le 3 _)) by lia. cbn [interp]. rewrite Nat2Z.id, list_insert_insert_eq.
  apply find_index_Some in Ei as (x & Hx & Hn & _). destruct x; [done|]. by rewrite list_insert_id.
Qed.

(** The shell starts with its three standard descriptors open: those that
    were closed are open to the console, and no other descriptor has changed. *)
Theorem sh_main_descriptors inp a b c t n :
  interp (sh_main inp) (a :: b :: c :: t) n = interp (main_loop (S (length inp)) inp) (with_console (a :: b :: c :: t)) n.
Proof.
  unfold sh_main. generalize (main_loop (S (length inp)) inp) as k. intros k.
  destruct a, b, c; unfold with_console; cbn [take drop fmap list_fmap app];
    repeat first [apply open_full | progress cbn [open_console interp fdalloc find_index is_none fmap option_fmap option_map] | change (interp k ?t n) with (interp k t n)];
    try done.
Qed.
