(* ===== verification/Format.v ===== *)
(** * Formatted output (printf.c, the copy of it in dTicks.c, cprintf of console.c)

    The functions write either to a file descriptor, whose bytes are collected,
    or into a buffer, an array in which an access out of bounds is
    [undefined].  dTicks.c holds a copy of the code of printf.c whose
    [s_getReverseDigits] lacks the case of zero; [zero_case] tells the two
    apart. *)

From S2P Require Import Prelude Cstring.

(** An argument of a format: a word, or a string. *)
Inductive arg := AInt (z : Z) | AStr (s : list Z).

(** [s_putc] on a file descriptor, or [s_sputc] at an address in the buffer. *)
Inductive sink := Fd | Buf (base : Z).

Definition s_putc (k : sink) (len index c : Z) : M (list Z) unit := fun o =>
  match k with
  | Fd => Ret tt (o ++ [u8 c])
  | Buf base =>
      if index <? len then
        if base + index <? Z.of_nat (length o) then Ret tt (<[Z.to_nat (base + index) := u8 c]> o)
        else undefined o
      else Ret tt o
  end.

Definition digit (x : Z) : Z := default 0 (str "0123456789ABCDEF" !! Z.to_nat x).

(** [while(i + 1 < length && x != 0) ...], [k] digits at most. *)
Fixpoint rev_digits (k : nat) (base x : Z) : list Z :=
  match k with
  | O => []
  | S k => if x =? 0 then [] else digit (x mod base) :: rev_digits k base (x / base)
  end.

Section printf.
Variable zero_case : bool.

Definition s_getReverseDigits (len : nat) (xx base : Z) (sgn : bool) : list Z :=
  let neg := sgn && (xx <? 0) in
  let x := if neg then u32 (- xx) else u32 xx in
  let ds := rev_digits (len - 1) base x in
  let ds := if zero_case && (xx =? 0) && (length ds + 1 <? len)%nat then ds ++ [digit 0] else ds in
  if neg && (length ds <? len)%nat then ds ++ [45] else ds.

(** [while(--i >= 0 && j < length) putcFunction(..., j, localBuffer[i]), j++] *)
Fixpoint put_digits (k : sink) (len j : Z) (ds : list Z) : M (list Z) unit :=
  match ds with
  | [] => ret tt
  | c :: ds =>
      if j <? len then s_putc k len j c ;; put_digits k len (j + 1) ds else ret tt
  end.

Definition s_printint (k : sink) (len xx base : Z) (sgn : bool) : M (list Z) Z :=
  let ds := s_getReverseDigits 16 xx base sgn in
  put_digits k len 0 (rev ds) ;;
  ret (Z.of_nat (length ds)).

Definition s_min (a b : Z) : Z := if a <? b then a else b.

(** The sink at [&outbuffer[outindex]]. *)
Definition shift_sink (k : sink) (out : Z) : sink :=
  match k with Fd => Fd | Buf base => Buf (base + out) end.

Fixpoint put_string (k : sink) (len out : Z) (s : list Z) : M (list Z) Z :=
  match s with
  | [] => undefined
  | c :: s => if c =? 0 then ret out else s_putc k len out c ;; put_string k len (u32 (out + 1)) s
  end.

Definition pop_arg {A} (ap : list arg) (k : arg -> list arg -> M (list Z) A) : M (list Z) A :=
  match ap with [] => undefined | a :: ap => k a ap end.
Definition int_arg {A} (a : arg) (k : Z -> M (list Z) A) : M (list Z) A :=
  match a with AInt z => k z | AStr _ => undefined end.

(** The loop over the format; [st] is [state == '%']. *)
Fixpoint s_printf_loop (k : sink) (len : Z) (fmt : list Z) (st : bool) (out : Z) (ap : list arg) : M (list Z) Z :=
  match fmt with
  | [] => undefined
  | c0 :: fmt =>
      if (c0 =? 0) || negb (out <? len) then ret out
      else
        let c := u8 c0 in
        if negb st then
          if c =? 37 then s_printf_loop k len fmt true out ap
          else s_putc k len out c ;; s_printf_loop k len fmt false (u32 (out + 1)) ap
        else if c =? 100 then
          pop_arg ap (fun a ap => int_arg a (fun z =>
            let! r := s_printint (shift_sink k out) (u32 (len - out)) (i32 z) 10 true in
            s_printf_loop k len fmt false (u32 (out + r)) ap))
        else if (c =? 120) || (c =? 112) then
          pop_arg ap (fun a ap => int_arg a (fun z =>
            let! r := s_printint (shift_sink k out) (u32 (len - out)) (i32 z) 16 false in
            s_printf_loop k len fmt false (u32 (out + r)) ap))
        else if c =? 115 then
          pop_arg ap (fun a ap =>
            let! out :=
              match a with
              | AStr s => put_string k len out s
              | AInt z => if u32 z =? 0 then put_string k len out (str "(null)" ++ [0]) else undefined
              end in
            s_printf_loop k len fmt false out ap)
        else if c =? 99 then
          pop_arg ap (fun a ap => int_arg a (fun z =>
            s_putc k len out z ;; s_printf_loop k len fmt false (u32 (out + 1)) ap))
        else if c =? 37 then
          s_putc k len out c ;; s_printf_loop k len fmt false (u32 (out + 1)) ap
        else
          s_putc k len out 37 ;;
          s_putc k len (u32 (out + 1)) c ;;
          s_printf_loop k len fmt false (u32 (out + 2)) ap
  end.

Definition s_printf (k : sink) (n : Z) (fmt : list Z) (ap : list arg) : M (list Z) Z :=
  let len := u32 (n - 1) in
  let! out := s_printf_loop k len fmt false 0 ap in
  ret (i32 (s_min len out)).

Definition snprintf (n : Z) (fmt : list Z) (ap : list arg) : M (list Z) Z :=
  let! r := s_printf (Buf 0) n fmt ap in
  let count := u32 r in
  (if count <? u32 n then
     fun o => if count <? Z.of_nat (length o) then Ret tt (<[Z.to_nat count := 0]> o) else undefined o
   else ret tt) ;;
  ret (i32 count).

Definition printf (fmt : list Z) (ap : list arg) : M (list Z) unit :=
  s_printf Fd (2 ^ 30) fmt ap ;; ret tt.
End printf.

(** ** dTicks.c *)

Definition ticks_getReverseDigits := s_getReverseDigits false.
Definition ticks_printint := s_printint false.
Definition ticks_printf_loop := s_printf_loop false.
Definition ticks_printf := s_printf false.
Definition ticks_snprintf := snprintf false.

(** [read] of the ticks device into a buffer. *)
Definition ticksread (ticks n : Z) : M (list Z) Z := ticks_snprintf n (str "%d" ++ [0]) [AInt ticks].
Definition tickswrite (n : Z) : Z := 0.

(** ** The other devices (dHello.c, dNull.c, dZero.c) *)

(** [for(; count < n && string[count]; ++count) outbuffer[count] = string[count]] *)
Fixpoint cnputs_loop (n count : Z) (s : list Z) : M (list Z) Z :=
  match s with
  | [] => undefined
  | c :: s =>
      if (count <? n) && negb (c =? 0) then
        (fun o => if count <? Z.of_nat (length o) then Ret tt (<[Z.to_nat count := c]> o) else undefined o) ;;
        cnputs_loop n (count + 1) s
      else ret count
  end.
Definition s_cnputs (n : Z) (s : list Z) : M (list Z) Z :=
  let! count := cnputs_loop n 0 s in
  (if count <? n then
     fun o => if count <? Z.of_nat (length o) then Ret tt (<[Z.to_nat count := 0]> o) else undefined o
   else ret tt) ;;
  ret count.

(** dNull.c and dZero.c each hold a copy of it. *)
Definition null_cnputs := s_cnputs.
Definition zero_cnputs := s_cnputs.

Definition helloread (n : Z) : M (list Z) Z := s_cnputs n (str "Hello, World!" ++ [0]).
Definition hellowrite (n : Z) : Z := n.
Definition nullRead (n : Z) : M (list Z) Z := null_cnputs n (str "NULL" ++ [0]).
Definition nullWrite (n : Z) : Z := n.
Definition zeroRead (n : Z) : M (list Z) Z := zero_cnputs n (str "0" ++ [0]).
Definition zeroWrite (n : Z) : Z := n.

(** ** The kernel's [printint] and [cprintf] (console.c) *)

Definition ldigit (x : Z) : Z := default 0 (str "0123456789abcdef" !! Z.to_nat x).

(** [do buf[i++] = digits[x % base]; while((x /= base) != 0)] *)
Fixpoint kdigits (k : nat) (base x : Z) : list Z :=
  match k with
  | O => []
  | S k => ldigit (x mod base) :: (if x / base =? 0 then [] else kdigits k base (x / base))
  end.

Definition printint (xx base : Z) (sign : bool) : list Z :=
  let neg := sign && (xx <? 0) in
  let x := if neg then u32 (- xx) else u32 xx in
  let ds := kdigits 16 base x in
  rev (if neg then ds ++ [45] else ds).

(** The bytes that [cprintf] hands to [consputc]. *)
Fixpoint cprintf (fmt : list Z) (ap : list arg) : option (list Z) :=
  match fmt with
  | [] => None
  | c0 :: fmt =>
      let c := u8 c0 in
      if c =? 0 then Some []
      else if negb (c =? 37) then (fun o => c :: o) <$> cprintf fmt ap
      else
        match fmt with
        | [] => None
        | d0 :: fmt =>
            let d := u8 d0 in
            if d =? 0 then Some []
            else if d =? 100 then
              match ap with AInt z :: ap => (fun o => printint (i32 z) 10 true ++ o) <$> cprintf fmt ap | _ => None end
            else if (d =? 120) || (d =? 112) then
              match ap with AInt z :: ap => (fun o => printint (i32 z) 16 false ++ o) <$> cprintf fmt ap | _ => None end
            else if d =? 115 then
              match ap with
              | AStr s :: ap => (fun o => cstr s ++ o) <$> cprintf fmt ap
              | AInt z :: ap => if u32 z =? 0 then (fun o => str "(null)" ++ o) <$> cprintf fmt ap else None
              | [] => None
              end
            else if d =? 37 then (fun o => 37 :: o) <$> cprintf fmt ap
            else (fun o => 37 :: d :: o) <$> cprintf fmt ap
        end
  end.

(** ** What the functions print *)

(** The text of a format and its arguments, without any bound. *)
Definition show_int (zero_case : bool) (z base : Z) (sgn : bool) : list Z :=
  rev (s_getReverseDigits zero_case 16 z base sgn).

Fixpoint render (zero_case : bool) (fmt : list Z) (st : bool) (ap : list arg) : option (list Z) :=
  match fmt with
  | [] => None
  | c0 :: fmt =>
      if c0 =? 0 then Some []
      else
        let c := u8 c0 in
        if negb st then
          if c =? 37 then render zero_case fmt true ap else (fun t => c :: t) <$> render zero_case fmt false ap
        else if c =? 100 then
          match ap with
          | AInt z :: ap => (fun t => show_int zero_case (i32 z) 10 true ++ t) <$> render zero_case fmt false ap
          | _ => None
          end
        else if (c =? 120) || (c =? 112) then
          match ap with
          | AInt z :: ap => (fun t => show_int zero_case (i32 z) 16 false ++ t) <$> render zero_case fmt false ap
          | _ => None
          end
        else if c =? 115 then
          match ap with
          | AStr s :: ap => if bool_decide (terminated s) then (fun t => (u8 <$> cstr s) ++ t) <$> render zero_case fmt false ap else None
          | AInt z :: ap => if u32 z =? 0 then (fun t => str "(null)" ++ t) <$> render zero_case fmt false ap else None
          | [] => None
          end
        else if c =? 99 then
          match ap with AInt z :: ap => (fun t => u8 z :: t) <$> render zero_case fmt false ap | _ => None end
        else if c =? 37 then (fun t => c :: t) <$> render zero_case fmt false ap
        else (fun t => 37 :: c :: t) <$> render zero_case fmt false ap
  end.

(** The output after [w] is put at index [out] with the bound [len]. *)
Definition emit (k : sink) (len out : Z) (w o : list Z) : list Z :=
  match k with
  | Fd => o ++ w
  | Buf base => splice (Z.to_nat (base + out)) (take (Z.to_nat (len - out)) w) o
  end.
(** The bound is within the buffer; a file descriptor is not cut short. *)
Definition room (k : sink) (len out : Z) (w o : list Z) : Prop :=
  match k with
  | Fd => out + Z.of_nat (length w) <= len
  | Buf base => 0 <= base /\ base + len <= Z.of_nat (length o)
  end.

Lemma emit_nil k len out o : emit k len out [] o = o.
Proof.
  destruct k; cbn; [apply app_nil_r|]. rewrite take_nil. apply splice_nil.
Qed.

Lemma emit_length k len out w o :
  0 <= out -> room k len out w o ->
  match k with Fd => True | Buf _ => length (emit k len out w o) = length o end.
Proof.
  intros Ho Hr. destruct k as [|base]; [done|]. cbn in *. destruct (decide (out < len)).
  - apply length_splice. rewrite length_take. lia.
  - replace (Z.to_nat (len - out)) with O by lia. by rewrite take_0, splice_nil.
Qed.

Lemma emit_app k len out w1 w2 o :
  0 <= out -> room k len out (w1 ++ w2) o ->
  emit k len (out + Z.of_nat (length w1)) w2 (emit k len out w1 o) = emit k len out (w1 ++ w2) o.
Proof.
  intros Ho Hr. destruct k as [|base]; cbn in *; [by rewrite app_assoc|].
  destruct (decide (len - out <= Z.of_nat (length w1))) as [Hle|Hgt].
  - replace (Z.to_nat (len - (out + Z.of_nat (length w1)))) with O by lia. rewrite take_0, splice_nil.
    by rewrite take_app_le by lia.
  - rewrite (take_ge w1) by lia. rewrite take_app_ge by lia.
    replace (Z.to_nat (base + (out + Z.of_nat (length w1)))) with (Z.to_nat (base + out) + length w1)%nat by lia.
    replace (Z.to_nat (len - (out + Z.of_nat (length w1)))) with (Z.to_nat (len - out) - length w1)%nat by lia.
    apply splice_app. rewrite length_take. lia.
Qed.

Lemma room_app k len out w1 w2 o :
  0 <= out -> room k len out (w1 ++ w2) o ->
  room k len out w1 o /\ room k len (out + Z.of_nat (length w1)) w2 (emit k len out w1 o).
Proof.
  intros Ho Hr. pose proof (emit_length k len out w1 o Ho) as Hl. destruct k as [|base]; cbn in *.
  - rewrite length_app in Hr. lia.
  - rewrite Hl by done. done.
Qed.

Lemma s_putc_emit k len out c o :
  0 <= out -> room k len out [u8 c] o -> s_putc k len out c o = Ret tt (emit k len out [u8 c] o).
Proof.
  intros Ho Hr. destruct k as [|base]; cbn in *; [done|]. destruct (out <? len) eqn:E; btests.
  - rewrite (proj2 (Z.ltb_lt (base + out) _)) by lia. f_equal.
    rewrite take_ge by (cbn; lia). apply list_eq. intros i.
    rewrite lookup_splice by (cbn; lia). case_decide as Hi; cbn in Hi.
    + assert (i = Z.to_nat (base + out)) as -> by lia. rewrite list_lookup_insert_eq by lia.
      by rewrite Nat.sub_diag.
    + by rewrite list_lookup_insert_ne by lia.
  - f_equal. symmetry. replace (Z.to_nat (len - out)) with O by lia. by rewrite take_0, splice_nil.
Qed.

(** Digits go through a sink that starts at [out]. *)
Lemma put_digits_emit k len out j ds o :
  0 <= out -> 0 <= j -> out <= len -> Forall (fun c => u8 c = c) ds -> room k len (out + j) ds o ->
  put_digits (shift_sink k out) (len - out) j ds o = Ret tt (emit k len (out + j) ds o).
Proof.
  intros Ho. revert j o. induction ds as [|c ds IH]; intros j o Hj Hle Hc Hr; cbn [put_digits].
  - by rewrite emit_nil.
  - apply Forall_cons in Hc as [Hc Hds]. change (c :: ds) with ([c] ++ ds) in *.
    destruct (room_app k len (out + j) [c] ds o ltac:(lia) Hr) as [Hr1 Hr2].
    destruct (j <? len - out) eqn:E; btests.
    + rewrite (bind_ret _ _ _ tt (emit k len (out + j) [c] o)).
      * replace (out + j + Z.of_nat (length [c])) with (out + (j + 1)) in Hr2 by (cbn; lia).
        rewrite IH by (done || lia). f_equal.
        replace (out + (j + 1)) with (out + j + Z.of_nat (length [c])) by (cbn; lia).
        apply emit_app; [lia | done].
      * assert (s_putc (shift_sink k out) (len - out) j c o = Ret tt (emit (shift_sink k out) (len - out) j [u8 c] o)) as ->.
        { apply s_putc_emit; [lia|]. rewrite Hc. destruct k; cbn in *; lia. }
        f_equal. rewrite Hc. destruct k as [|base]; cbn; [done|]. do 2 f_equal; [lia|]. f_equal. lia.
    + destruct k as [|base]; cbn in Hr |- *.
      * cbn in *. lia.
      * unfold ret. f_equal. replace (Z.to_nat (len - (out + j))) with O by lia. by rewrite take_0, splice_nil.
Qed.

Lemma digit_byte x : u8 (digit x) = digit x.
Proof.
  unfold digit. destruct (str "0123456789ABCDEF" !! Z.to_nat x) as [c|] eqn:E; [|done]. cbn.
  assert (Forall (fun c => u8 c = c) (str "0123456789ABCDEF")) as H by by repeat constructor.
  exact (Forall_lookup_1 _ _ _ _ H E).
Qed.

Lemma rev_digits_bytes k base x : Forall (fun c => u8 c = c) (rev_digits k base x).
Proof.
  revert x. induction k as [|k IH]; intros x; cbn; [constructor|]. destruct (x =? 0); [constructor|].
  constructor; [apply digit_byte | apply IH].
Qed.

Lemma rev_digits_length k base x : (length (rev_digits k base x) <= k)%nat.
Proof.
  revert x. induction k as [|k IH]; intros x; cbn; [lia|]. destruct (x =? 0); cbn; [lia|]. specialize (IH (x / base)). lia.
Qed.

Lemma getReverseDigits_bytes zc z base sgn :
  Forall (fun c => u8 c = c) (s_getReverseDigits zc 16 z base sgn) /\
  (length (s_getReverseDigits zc 16 z base sgn) <= 16)%nat.
Proof.
  unfold s_getReverseDigits.
  assert (forall x, Forall (fun c => u8 c = c) (rev_digits 15 base x) /\ (length (rev_digits 15 base x) <= 15)%nat)
    as Hd by (intros; split; [apply rev_digits_bytes | apply rev_digits_length]).
  assert (Forall (fun c => u8 c = c) [digit 0] /\ Forall (fun c => u8 c = c) [45]) as [H0 Hm]
    by (split; by repeat constructor).
  set (x := if sgn && (z <? 0) then u32 (- z) else u32 z). destruct (Hd x) as [Hb Hl]. cbv zeta.
  change (16 - 1)%nat with 15%nat.
  destruct (zc && (z =? 0) && (length (rev_digits 15 base x) + 1 <? 16)%nat) eqn:E; [apply andb_true_iff in E as [_ E%Nat.ltb_lt]|];
    destruct (sgn && (z <? 0) && _); rewrite ?Forall_app, ?length_app; cbn [length]; split_and?; (done || lia).
Qed.

Lemma printint_emit zc k len out z base sgn o :
  0 <= out < len -> len < 2 ^ 32 -> room k len out (show_int zc z base sgn) o ->
  s_printint zc (shift_sink k out) (u32 (len - out)) z base sgn o =
    Ret (Z.of_nat (length (show_int zc z base sgn))) (emit k len out (show_int zc z base sgn) o).
Proof.
  intros Ho Hl Hr. unfold s_printint, show_int in *. rewrite (u32_small (len - out)) by lia.
  destruct (getReverseDigits_bytes zc z base sgn) as [Hb _].
  rewrite (bind_ret _ _ _ tt (emit k len out (rev (s_getReverseDigits zc 16 z base sgn)) o)).
  - by rewrite length_rev.
  - rewrite <- (Z.add_0_r out) at 3. apply put_digits_emit; try lia; [by apply Forall_rev|].
    by rewrite Z.add_0_r.
Qed.

Lemma emit_stop k len out w o : len <= out -> room k len out w o -> emit k len out w o = o.
Proof.
  intros Hle Hr. destruct k; cbn in *.
  - destruct w; cbn in *; [apply app_nil_r | lia].
  - replace (Z.to_nat (len - out)) with O by lia. by rewrite take_0, splice_nil.
Qed.

Lemma put_string_emit k len s : forall out o,
  terminated s -> 0 <= out -> out + Z.of_nat (length (cstr s)) < 2 ^ 32 ->
  room k len out (u8 <$> cstr s) o ->
  put_string k len out s o = Ret (out + Z.of_nat (length (cstr s))) (emit k len out (u8 <$> cstr s) o).
Proof.
  induction s as [|c s IH]; intros out o Ht Ho Hb Hr; [by apply elem_of_nil in Ht|].
  cbn [put_string cstr] in *. destruct (c =? 0) eqn:E; btests.
  - cbn. by rewrite emit_nil, Z.add_0_r.
  - apply elem_of_cons in Ht as [?|Ht]; [congruence|]. cbn [fmap list_fmap length] in *.
    change (u8 c :: (u8 <$> cstr s)) with ([u8 c] ++ (u8 <$> cstr s)) in *.
    destruct (room_app _ _ _ _ _ _ Ho Hr) as [Hr1 Hr2].
    rewrite (bind_ret _ _ _ _ _ (s_putc_emit k len out c o Ho Hr1)).
    rewrite <- emit_app by done. cbn [length] in *. rewrite u32_small by lia.
    replace (Z.of_nat 1) with 1 in * by lia. rewrite (IH (out + 1)); [f_equal; lia | done | lia | lia | done].
Qed.

Lemma u8_idemp c : u8 (u8 c) = u8 c.
Proof. apply Zmod_mod. Qed.

Lemma s_min_eq a b : s_min a b = Z.min a b.
Proof. unfold s_min. destruct (a <? b) eqn:E; btests; lia. Qed.

(** [f] run at index [out] prints [text], cut at the bound. *)
Definition prints (k : sink) (len out : Z) (text : list Z) (f : M (list Z) Z) (o : list Z) : Prop :=
  exists out', f o = Ret out' (emit k len out text o) /\
    s_min len out' = s_min len (out + Z.of_nat (length text)).

Section loop.
Context (zc : bool) (k : sink) (len : Z) (Hlen : 0 <= len < 2 ^ 32) (fmt : list Z).
Context (IH : forall st out ap text o,
  render zc fmt st ap = Some text -> 0 <= out -> out + Z.of_nat (length text) < 2 ^ 32 ->
  room k len out text o -> prints k len out text (s_printf_loop zc k len fmt st out ap) o).
Context (out : Z) (Hout : 0 <= out < len) (text o : list Z).
Context (Hb : out + Z.of_nat (length text) < 2 ^ 32) (Hr : room k len out text o).

(** One turn that prints [w], and the rest of the loop. *)
Lemma step_prints {A} st w t ap (m : M (list Z) A) (kk : A -> M (list Z) Z) a :
  render zc fmt st ap = Some t -> text = w ++ t ->
  (room k len out w o -> m o = Ret a (emit k len out w o)) ->
  kk a = s_printf_loop zc k len fmt st (out + Z.of_nat (length w)) ap ->
  prints k len out text (bind m kk) o.
Proof.
  intros Ht Etext Hm Hk. revert Hb Hr. rewrite Etext, length_app. intros Hb' Hr'.
  destruct (room_app _ _ _ _ _ _ (proj1 Hout) Hr') as [Hr1 Hr2].
  destruct (IH st (out + Z.of_nat (length w)) ap t _ Ht ltac:(lia) ltac:(lia) Hr2) as (out' & E & Hmin).
  exists out'. rewrite (bind_ret _ _ _ _ _ (Hm Hr1)), Hk, E, Hmin, emit_app by (done || lia).
  split; [done|]. f_equal. rewrite length_app. lia.
Qed.

Lemma putc_prints c t ap :
  render zc fmt false ap = Some t -> text = u8 c :: t ->
  prints k len out text (s_putc k len out c ;; s_printf_loop zc k len fmt false (u32 (out + 1)) ap) o.
Proof.
  intros Ht Etext. apply (step_prints false [u8 c] t ap _ _ tt); [done | done | apply s_putc_emit; lia |].
  cbn beta. pose proof Hb as Hb'. rewrite Etext in Hb'. cbn [length] in Hb' |- *. by rewrite u32_small by lia.
Qed.

Lemma int_prints base sgn z t ap :
  render zc fmt false ap = Some t -> text = show_int zc (i32 z) base sgn ++ t ->
  prints k len out text
    (let! r := s_printint zc (shift_sink k out) (u32 (len - out)) (i32 z) base sgn in
     s_printf_loop zc k len fmt false (u32 (out + r)) ap) o.
Proof.
  intros Ht Etext. eapply step_prints; [done | done | intros; apply printint_emit; (lia || done) |].
  cbn beta. pose proof Hb as Hb'. rewrite Etext, length_app in Hb'. by rewrite u32_small by lia.
Qed.

Lemma string_prints s t ap :
  terminated s -> render zc fmt false ap = Some t -> text = (u8 <$> cstr s) ++ t ->
  prints k len out text (let! out := put_string k len out s in s_printf_loop zc k len fmt false out ap) o.
Proof.
  intros Hs Ht Etext. pose proof Hb as Hb'. rewrite Etext, length_app, length_fmap in Hb'.
  eapply step_prints; [done | done | intros; apply put_string_emit; (done || lia)|]. cbn beta. by rewrite length_fmap.
Qed.

Lemma two_prints c t ap :
  render zc fmt false ap = Some t -> text = 37 :: u8 c :: t ->
  prints k len out text
    (s_putc k len out 37 ;; s_putc k len (u32 (out + 1)) c ;;
     s_printf_loop zc k len fmt false (u32 (out + 2)) ap) o.
Proof.
  intros Ht Etext. pose proof Hb as Hb'. rewrite Etext in Hb'. cbn [length] in Hb'.
  assert (forall m1 m2 f, (bind (A := unit) m1 (fun _ => bind (A := unit) m2 (fun _ => f)) : M (list Z) Z) o =
    bind (m1 ;; m2) (fun _ => f) o) as Eassoc by (intros; unfold bind; by destruct (m1 o)).
  unfold prints. rewrite Eassoc. rewrite !u32_small by lia.
  apply (step_prints false [37; u8 c] t ap _ _ tt); [done | done | | done].
  intros Hr'. destruct (room_app k len out [37] [u8 c] o (proj1 Hout) Hr') as [Hr1 Hr2].
  rewrite (bind_ret _ _ _ _ _ (s_putc_emit k len out 37 o (proj1 Hout) Hr1)).
  rewrite s_putc_emit by (lia || done). f_equal. apply (emit_app k len out [37] [u8 c]); (lia || done).
Qed.
End loop.

(** The loop prints the text of the format, cut at the bound. *)
Lemma printf_loop_prints zc k len : 0 <= len < 2 ^ 32 -> forall fmt st out ap text o,
  render zc fmt st ap = Some text -> 0 <= out -> out + Z.of_nat (length text) < 2 ^ 32 ->
  room k len out text o -> prints k len out text (s_printf_loop zc k len fmt st out ap) o.
Proof.
  intros Hlen fmt. induction fmt as [|c0 fmt IH]; intros st out ap text o Hre Ho Hb Hr; [done|].
  cbn [s_printf_loop render] in *.
  destruct (c0 =? 0) eqn:E0; cbn [orb].
  { injection Hre as <-. exists out. by rewrite emit_nil, Z.add_0_r. }
  destruct (out <? len) eqn:El; cbn [negb]; btests.
  2:{ exists out. rewrite emit_stop by done. split; [done|]. rewrite !s_min_eq. lia. }
  assert (0 <= out < len) as Hout by lia. cbv zeta in Hre |- *.
  destruct st; cbn [negb] in *.
  2:{ destruct (u8 c0 =? 37); [by apply IH|]. apply fmap_Some in Hre as (t & Ht & ->).
      eapply putc_prints; try done. by rewrite u8_idemp. }
  destruct (u8 c0 =? 100).
  { destruct ap as [|[z|s] ap]; try done. apply fmap_Some in Hre as (t & Ht & ->). by eapply int_prints. }
  destruct ((u8 c0 =? 120) || (u8 c0 =? 112)).
  { destruct ap as [|[z|s] ap]; try done. apply fmap_Some in Hre as (t & Ht & ->). by eapply int_prints. }
  destruct (u8 c0 =? 115).
  { destruct ap as [|[z|s] ap]; [done| |]; cbn [pop_arg].
    - destruct (u32 z =? 0); [|done]. apply fmap_Some in Hre as (t & Ht & ->). eapply string_prints; try done.
      by apply (bool_decide_unpack _).
    - destruct (bool_decide (terminated s)) eqn:Es; [|done]. apply bool_decide_eq_true in Es.
      apply fmap_Some in Hre as (t & Ht & ->). by eapply string_prints. }
  destruct (u8 c0 =? 99).
  { destruct ap as [|[z|s] ap]; try done. apply fmap_Some in Hre as (t & Ht & ->). by eapply putc_prints. }
  destruct (u8 c0 =? 37); apply fmap_Some in Hre as (t & Ht & ->).
  - eapply putc_prints; try done. by rewrite u8_idemp.
  - eapply two_prints; try done. by rewrite u8_idemp.
Qed.

(** ** The results of [snprintf] and [printf] *)

Lemma snprintf_run zc n fmt ap text o :
  render zc fmt false ap = Some text -> Z.of_nat (length text) < 2 ^ 32 ->
  1 <= n < 2 ^ 31 -> n <= Z.of_nat (length o) ->
  snprintf zc n fmt ap o =
    Ret (Z.min (n - 1) (Z.of_nat (length text)))
        (splice 0 (take (Z.to_nat (n - 1)) text ++ [0]) o).
Proof.
  intros Hre Ht Hn Hlo. unfold snprintf, s_printf. rewrite (u32_small (n - 1)) by lia.
  destruct (printf_loop_prints zc (Buf 0) (n - 1) ltac:(lia) fmt false 0 ap text o) as (out & E & Hmin);
    [done | lia | lia | cbn; lia |].
  unfold bind at 1 2. rewrite E. cbn -[Z.min take splice].
  rewrite Hmin, s_min_eq, Z.add_0_l. change (Z.to_nat (0 + 0)) with 0%nat. rewrite (i32_small (Z.min _ _)) by lia. rewrite (u32_small (Z.min _ _)), (u32_small n) by lia.
  unfold bind. rewrite (proj2 (Z.ltb_lt (Z.min _ _) n)) by lia.
  rewrite Z.sub_0_r. set (w := take (Z.to_nat (n - 1)) text).
  assert (Z.min (n - 1) (Z.of_nat (length text)) = Z.of_nat (length w)) as -> by (unfold w; rewrite length_take; lia).
  assert (Z.of_nat (length w) < n) by (unfold w; rewrite length_take; lia).
  rewrite (length_splice 0 w o) by lia. rewrite (proj2 (Z.ltb_lt (Z.of_nat (length w)) (Z.of_nat (length o)))) by lia.
  rewrite i32_small by lia. unfold ret. f_equal.
  rewrite <- splice_app by (cbn; lia). rewrite Nat2Z.id. cbn [Nat.add].
  apply list_eq. intros i. rewrite lookup_splice by (rewrite length_splice; cbn; lia).
  case_decide as Hi; cbn [length] in Hi.
  - assert (i = length w) as -> by lia. rewrite Nat.sub_diag. apply list_lookup_insert_eq. rewrite length_splice; lia.
  - apply list_lookup_insert_ne. lia.
Qed.

(** C37: [snprintf] with a bound [1 <= n] that the buffer holds writes the text of
    the format cut to [n - 1] bytes and a terminating 0, returns the number of
    bytes before that 0, and leaves the rest of the buffer as it was. *)
Theorem snprintf_correct n fmt ap text o :
  render true fmt false ap = Some text -> Z.of_nat (length text) < 2 ^ 32 ->
  1 <= n < 2 ^ 31 -> n <= Z.of_nat (length o) ->
  snprintf true n fmt ap o =
    Ret (Z.min (n - 1) (Z.of_nat (length text)))
        (take (Z.to_nat (n - 1)) text ++ 0 :: drop (S (length (take (Z.to_nat (n - 1)) text))) o).
Proof.
  intros. rewrite (snprintf_run _ _ _ _ text) by done. f_equal. unfold splice. cbn [take app Nat.add].
  rewrite <- app_assoc, length_app. cbn [length app]. by rewrite Nat.add_1_r.
Qed.

Lemma snprintf_correct_witness :
  snprintf true 6 (str "p%d:%s" ++ [0]) [AInt 42; AStr (str "init" ++ [0])] (replicate 8 7) =
    Ret 5 (str "p42:i" ++ [0; 7; 7]).
Proof.
  rewrite (snprintf_correct 6 _ _ (str "p42:init") (replicate 8 7)); [vm_compute; reflexivity | reflexivity | rewrite ?length_replicate; cbn; lia ..].
Defined.

(** ** Numbers, printed and read back *)

Lemma rev_digits_pos k base x : 1 < base -> 0 < x -> (0 < k)%nat -> rev_digits k base x <> [].
Proof. intros. destruct k; [lia|]. cbn. destruct (x =? 0) eqn:E; btests; [lia | done]. Qed.

Lemma digit_10 d : 0 <= d < 10 -> digit d = 48 + d.
Proof.
  intros H. assert (forallb (fun i => digit (Z.of_nat i) =? 48 + Z.of_nat i) (seq 0 10) = true) as Hall by done.
  rewrite forallb_forall in Hall. specialize (Hall (Z.to_nat d)). rewrite in_seq in Hall.
  rewrite Z2Nat.id in Hall by lia. apply Z.eqb_eq, Hall. lia.
Qed.

Lemma atoi_digits k x tail :
  0 <= x < 10 ^ Z.of_nat k -> x < 2 ^ 31 ->
  atoi_loop (rev (rev_digits k 10 x) ++ tail) 0 = atoi_loop tail x.
Proof.
  revert x tail. induction k as [|k IH]; intros x tail Hx Hm; cbn [rev_digits].
  - change (10 ^ Z.of_nat 0) with 1 in Hx. by replace x with 0 by lia.
  - destruct (x =? 0) eqn:E; btests; [by subst|]. cbn [rev]. rewrite <- app_assoc.
    rewrite Nat2Z.inj_succ, Z.pow_succ_r in Hx by lia.
    pose proof (Z.div_mod x 10 ltac:(lia)). pose proof (Z.mod_pos_bound x 10 ltac:(lia)).
    rewrite IH by lia. cbn [app atoi_loop].
    rewrite digit_10 by done. unfold ch_0, ch_9.
    rewrite (proj2 (Z.leb_le 48 (48 + x mod 10))), (proj2 (Z.leb_le (48 + x mod 10) 57)) by lia. cbn [andb].
    f_equal. replace (i32 (x / 10 * 10)) with (x / 10 * 10) by (symmetry; apply i32_small; lia).
    destruct (decide (x / 10 * 10 + (48 + x mod 10) < 2 ^ 31)).
    + rewrite !i32_small by (rewrite ?i32_small; lia). lia.
    + replace (i32 (x / 10 * 10 + (48 + x mod 10)) - 48) with (i32 (x / 10 * 10 + (48 + x mod 10)) + (-48)) by lia.
      rewrite i32_add_l, i32_small; lia.
Qed.

Lemma show_nat zc z tail :
  0 <= z < 2 ^ 31 -> zc = true \/ 0 < z -> head tail = Some 0 -> atoi (show_int zc z 10 true ++ tail) = Some z.
Proof.
  intros Hz Hzc Ht. unfold atoi, show_int, s_getReverseDigits. change (16 - 1)%nat with 15%nat.
  rewrite (proj2 (Z.ltb_ge z 0)) by lia. cbn [andb]. rewrite u32_small by lia.
  assert (forall n, atoi_loop tail n = Some n) as Hend.
  { intros n. destruct tail as [|c tail]; [done|]. injection Ht as ->. done. }
  destruct (z =? 0) eqn:E; btests.
  - subst. destruct Hzc as [->|?]; [|lia]. cbn. apply Hend.
  - rewrite andb_false_r. cbn [andb]. rewrite atoi_digits by (cbn; lia). apply Hend.
Qed.

Lemma show_int_length zc z base sgn : (length (show_int zc z base sgn) <= 16)%nat.
Proof. unfold show_int. rewrite length_rev. apply getReverseDigits_bytes. Qed.

Lemma snprintf_d zc z n o :
  0 <= z < 2 ^ 31 -> zc = true \/ 0 < z -> 17 <= n < 2 ^ 31 -> n <= Z.of_nat (length o) ->
  exists o', snprintf zc n (str "%d" ++ [0]) [AInt z] o = Ret (Z.of_nat (length (show_int zc z 10 true))) o' /\
    atoi o' = Some z.
Proof.
  intros Hz Hzc Hn Ho. pose proof (show_int_length zc z 10 true) as Hl.
  assert (render zc (str "%d" ++ [0]) false [AInt z] = Some (show_int zc z 10 true)) as Hre.
  { cbn -[show_int]. rewrite app_nil_r, i32_small by lia. done. }
  rewrite (snprintf_run zc n _ _ _ o Hre) by lia. rewrite Z.min_r by lia. eexists. split; [done|].
  rewrite take_ge by lia. unfold splice. rewrite take_0. cbn [app]. rewrite <- app_assoc. by apply show_nat.
Qed.

(** C0: A non-negative [int] printed by [snprintf] with ["%d"] is read back by
    [atoi], for every value up to [2^31 - 1]. *)
Theorem print_atoi z n o :
  0 <= z < 2 ^ 31 -> 17 <= n < 2 ^ 31 -> n <= Z.of_nat (length o) ->
  exists r o', snprintf true n (str "%d" ++ [0]) [AInt z] o = Ret r o' /\ atoi o' = Some z.
Proof. intros Hz Hn Ho. destruct (snprintf_d true z n o) as (o' & ? & ?); eauto. Qed.

Lemma print_atoi_witness :
  exists r o', snprintf true 20 (str "%d" ++ [0]) [AInt 2147483647] (replicate 20 1) = Ret r o' /\
    atoi o' = Some 2147483647.
Proof. apply print_atoi; rewrite ?length_replicate; lia. Defined.

(** C0: A read of the ticks device with room for a number leaves the decimal
    text of the tick count in the buffer when the count is positive; at
    count 0 it returns 0 bytes and an empty string, since the copy of the
    formatting code in dTicks.c has no case for zero. *)
Theorem ticksread_value ticks n o :
  0 <= ticks < 2 ^ 31 -> 17 <= n < 2 ^ 31 -> n <= Z.of_nat (length o) ->
  if ticks =? 0 then ticksread ticks n o = Ret 0 (<[0%nat := 0]> o)
  else exists r o', ticksread ticks n o = Ret r o' /\ 0 < r /\ atoi o' = Some ticks.
Proof.
  intros Ht Hn Ho. destruct (ticks =? 0) eqn:E; btests.
  - subst. unfold ticksread, ticks_snprintf. rewrite (snprintf_run false n _ _ [] o) by (done || cbn; lia).
    rewrite Z.min_r by (cbn; lia). rewrite take_nil. cbn [app length]. f_equal.
    destruct o; [cbn in Ho; lia | done].
  - destruct (snprintf_d false ticks n o) as (o' & Hs & Ha); [done | lia | done | done|].
    eexists _, o'. split; [exact Hs|]. split; [|done].
    unfold show_int. rewrite length_rev. unfold s_getReverseDigits. rewrite (proj2 (Z.ltb_ge ticks 0)) by lia.
    cbn [andb]. rewrite u32_small by lia. pose proof (rev_digits_pos 15 10 ticks ltac:(lia) ltac:(lia) ltac:(lia)).
    change (16 - 1)%nat with 15%nat. destruct (rev_digits 15 10 ticks); [done | cbn [length]; lia].
Qed.

Lemma ticksread_value_witness :
  ticksread 0 17 (replicate 17 1) = Ret 0 (<[0%nat := 0]> (replicate 17 1)) /\
  exists r o', ticksread 905 17 (replicate 17 1) = Ret r o' /\ 0 < r /\ atoi o' = Some 905.
Proof.
  split; [apply (ticksread_value 0) | apply (ticksread_value 905)]; rewrite ?length_replicate; lia.
Defined.

(** ** The printers of the kernel and of the user library *)

Lemma kdigits_rev k x :
  0 <= x < 10 ^ Z.of_nat k -> kdigits (S k) 10 x = rev_digits k 10 x ++ (if x =? 0 then [digit 0] else []).
Proof.
  revert x. induction k as [|k IH]; intros x Hx.
  - change (10 ^ Z.of_nat 0) with 1 in Hx. by replace x with 0 by lia.
  - change (kdigits (S (S k)) 10 x) with
      (ldigit (x mod 10) :: (if x / 10 =? 0 then [] else kdigits (S k) 10 (x / 10))).
    rewrite Nat2Z.inj_succ, Z.pow_succ_r in Hx by lia. cbn [rev_digits].
    pose proof (Z.div_mod x 10 ltac:(lia)). pose proof (Z.mod_pos_bound x 10 ltac:(lia)).
    assert (ldigit (x mod 10) = digit (x mod 10)) as ->.
    { assert (forallb (fun i => ldigit (Z.of_nat i) =? digit (Z.of_nat i)) (seq 0 10) = true) as Hall by done.
      rewrite forallb_forall in Hall. specialize (Hall (Z.to_nat (x mod 10))). rewrite in_seq in Hall.
      rewrite Z2Nat.id in Hall by lia. apply Z.eqb_eq, Hall. lia. }
    destruct (x =? 0) eqn:E; btests; [by subst|]. rewrite app_nil_r. f_equal.
    destruct (x / 10 =? 0) eqn:E2; btests; [rewrite E2; by destruct k|].
    rewrite IH by lia. rewrite (proj2 (Z.eqb_neq (x / 10) 0)) by done. apply app_nil_r.
Qed.

(** C0: The kernel's [printint] of console.c and the user library's printer of
    printf.c, written with different loops, print the same decimal text for
    every [int], the least one included. *)
Theorem printint_same z : - 2 ^ 31 <= z < 2 ^ 31 -> printint z 10 true = show_int true z 10 true.
Proof.
  intros Hz. unfold printint, show_int, s_getReverseDigits. f_equal. change (16 - 1)%nat with 15%nat.
  set (x := if true && (z <? 0) then u32 (- z) else u32 z).
  assert (0 <= x <= 2 ^ 31 /\ (x =? 0) = (z =? 0)) as [Hx Hzero].
  { unfold x. destruct (z <? 0) eqn:E; cbn [andb]; btests; rewrite u32_small by lia; (split; [lia|]).
    - rewrite (proj2 (Z.eqb_neq z 0)) by lia. apply Z.eqb_neq. lia.
    - done. }
  rewrite kdigits_rev by (cbn; lia). rewrite Hzero. cbv zeta. cbn [andb].
  destruct (z =? 0) eqn:E; btests; [by subst z|]. cbn [andb]. rewrite app_nil_r.
  pose proof (rev_digits_length 15 10 x). rewrite (proj2 (Nat.ltb_lt (length (rev_digits 15 10 x)) 16)) by lia.
  by rewrite andb_true_r.
Qed.

Lemma printint_same_witness : printint (-2147483648) 10 true = show_int true (-2147483648) 10 true.
Proof. apply printint_same. lia. Defined.

(** ** The devices hello, null and zero *)

Lemma cnputs_loop_run n s : forall count o,
  terminated s -> 0 <= count -> n <= Z.of_nat (length o) ->
  cnputs_loop n count s o =
    Ret (count + Z.of_nat (length (take (Z.to_nat (n - count)) (cstr s))))
        (splice (Z.to_nat count) (take (Z.to_nat (n - count)) (cstr s)) o).
Proof.
  induction s as [|c s IH]; intros count o Ht Hc Ho; [by apply elem_of_nil in Ht|]. cbn [cnputs_loop cstr].
  destruct (c =? 0) eqn:E0; cbn [negb]; [rewrite andb_false_r, take_nil, splice_nil; cbn; by rewrite Z.add_0_r|].
  rewrite andb_true_r. btests. apply elem_of_cons in Ht as [?|Ht]; [congruence|].
  destruct (count <? n) eqn:E; btests.
  - unfold bind. rewrite (proj2 (Z.ltb_lt count _)) by lia.
    rewrite IH; [| done | lia | by rewrite length_insert].
    replace (Z.to_nat (n - count)) with (S (Z.to_nat (n - (count + 1)))) by lia. cbn [take length].
    set (w := take _ (cstr s)). f_equal; [lia|].
    change (c :: w) with ([c] ++ w). rewrite <- splice_app by (unfold w; cbn [length]; rewrite length_take; lia).
    f_equal; [cbn [length]; lia|]. apply list_eq. intros i. rewrite lookup_splice by (cbn; lia).
    case_decide as Hi; cbn [length] in Hi.
    + assert (i = Z.to_nat count) as -> by lia. rewrite Nat.sub_diag. apply list_lookup_insert_eq. lia.
    + apply list_lookup_insert_ne. lia.
  - replace (Z.to_nat (n - count)) with O by lia. rewrite take_0, splice_nil. cbn. by rewrite Z.add_0_r.
Qed.

(** A read of these devices copies the string cut to [n] bytes and terminates
    it when there is room; it never writes past the [n] bytes it was given. *)
Lemma s_cnputs_run n s o :
  terminated s -> 0 <= n -> n <= Z.of_nat (length o) ->
  s_cnputs n s o = Ret (Z.min n (Z.of_nat (length (cstr s)))) (splice 0 (take (Z.to_nat n) (cstr s ++ [0])) o).
Proof.
  intros Hs Hn Ho. unfold s_cnputs. rewrite (bind_ret _ _ _ _ _ (cnputs_loop_run n s 0 o Hs ltac:(lia) Ho)).
  rewrite Z.sub_0_r, Z.add_0_l. change (Z.to_nat 0) with 0%nat.
  assert (Z.of_nat (length (take (Z.to_nat n) (cstr s))) = Z.min n (Z.of_nat (length (cstr s)))) as E
    by (rewrite length_take; lia).
  rewrite E. destruct (Z.min _ _ <? n) eqn:El; btests.
  - rewrite take_ge by lia. rewrite take_ge by (rewrite length_app; cbn; lia).
    unfold bind. rewrite length_splice by lia. rewrite (proj2 (Z.ltb_lt (Z.min _ _) _)) by lia. unfold ret. f_equal.
    rewrite Z.min_r by lia. rewrite <- splice_app by (cbn; lia). rewrite Nat2Z.id. cbn [Nat.add].
    apply list_eq. intros i. rewrite lookup_splice by (rewrite length_splice; cbn; lia).
    case_decide as Hi; cbn [length] in Hi.
    + assert (i = length (cstr s)) as -> by lia. rewrite Nat.sub_diag. apply list_lookup_insert_eq.
      rewrite length_splice; lia.
    + apply list_lookup_insert_ne. lia.
  - rewrite take_app_le by lia. done.
Qed.
