(* ===== verification/User.v ===== *)
(** * User programs that read files (cat.c, wc.c, echo.c, countUD.c)

    A program runs on the descriptors it reads, the files it can open and the
    bytes it has written to descriptors 1 and 2.  A read may find fewer bytes
    than it asks for, as from a pipe or the console; [avail] says how many.
    [exit] inside a function is the result [false]. *)

From S2P Require Import Prelude Cstring Format.

Record ust := mk_ust {
  input : gmap Z (list Z);          (* what is left to read, by descriptor *)
  avail : list nat;                 (* what the next reads find; the later ones find all *)
  paths : gmap (list Z) (list Z);   (* the files *)
  out1 : list Z;
  out2 : list Z;
  broken : bool;                    (* writes fail *)
}.

Definition set_input i s := mk_ust i (avail s) (paths s) (out1 s) (out2 s) (broken s).
Definition set_avail a s := mk_ust (input s) a (paths s) (out1 s) (out2 s) (broken s).
Definition set_out1 o s := mk_ust (input s) (avail s) (paths s) o (out2 s) (broken s).
Definition set_out2 o s := mk_ust (input s) (avail s) (paths s) (out1 s) o (broken s).

(** The number of bytes a read of [n] gets when [len] are left. *)
Definition got (a : list nat) (n len : nat) : nat :=
  Nat.min len (match a with [] => n | k :: _ => Nat.min n (Nat.max 1 k) end).

(** [read]: the bytes, or [None] for -1. *)
Definition read (fd : Z) (n : nat) : M ust (option (list Z)) := fun s =>
  match input s !! fd with
  | None => Ret None s
  | Some l =>
      let k := got (avail s) n (length l) in
      Ret (Some (take k l)) (set_avail (tail (avail s)) (set_input (<[fd := drop k l]> (input s)) s))
  end.

Definition write (l : list Z) : M ust Z := fun s =>
  if broken s then Ret (-1) s else Ret (Z.of_nat (length l)) (set_out1 (out1 s ++ l) s).

Definition NOFILE : Z := 16.
(** The lowest free descriptor after the standard ones. *)
Definition free_fd (i : gmap Z (list Z)) : option Z :=
  Z.of_nat <$> find_index (fun o => match o with None => true | Some _ => false end) ((fun k => i !! Z.of_nat (3 + k)) <$> seq 0 13).

Definition open (path : list Z) : M ust Z := fun s =>
  match paths s !! path, free_fd (input s) with
  | Some c, Some k => Ret (k + 3) (set_input (<[k + 3 := c]> (input s)) s)
  | _, _ => Ret (-1) s
  end.

Definition close (fd : Z) : M ust unit := modify (fun s => set_input (delete fd (input s)) s).

(** [printf] does not look at the results of [write]. *)
Definition fmt1 (f : string) (ap : list arg) : M ust unit :=
  zoom out1 (fun o s => if broken s then s else set_out1 o s) (printf true (str f ++ [0]) ap).
Definition fmt2 (f : string) (ap : list arg) : M ust unit :=
  zoom out2 (fun o s => if broken s then s else set_out2 o s) (printf true (str f ++ [0]) ap).
Definition name_arg (a : list Z) : arg := AStr (a ++ [0]).
Definition eol_str : string := String (Ascii.ascii_of_nat 10) EmptyString.

(** ** cat.c *)

Fixpoint cat_loop (fuel : nat) (fd : Z) : M ust bool :=
  match fuel with
  | O => hang
  | S fuel =>
      let! r := read fd 512 in
      match r with
      | None => fmt1 ("cat: read error" ++ eol_str) [] ;; ret false
      | Some [] => ret true
      | Some l =>
          let! w := write l in
          if negb (w =? Z.of_nat (length l)) then fmt1 ("cat: write error" ++ eol_str) [] ;; ret false
          else cat_loop fuel fd
      end
  end.

(** Every turn takes a byte. *)
Definition left (fd : Z) (s : ust) : nat := match input s !! fd with Some l => length l | None => O end.
Definition cat (fd : Z) : M ust bool := fun s => cat_loop (S (left fd s)) fd s.

Fixpoint cat_files (argv : list (list Z)) : M ust unit :=
  match argv with
  | [] => ret tt
  | a :: argv =>
      let! fd := open a in
      if fd <? 0 then fmt1 ("cat: cannot open %s" ++ eol_str) [name_arg a]
      else
        let! go := cat fd in
        if go then close fd ;; cat_files argv else ret tt
  end.

(** [main], with the arguments after the program's name. *)
Definition cat_main (argv : list (list Z)) : M ust unit :=
  match argv with [] => cat 0 ;; ret tt | _ => cat_files argv end.

(** ** wc.c *)

Record counts := mk_counts { nl : Z; nw : Z; nc : Z; inword : bool }.

Definition spaces : list Z := [32; 13; 9; 10; 11; 0].
Definition is_space (c : Z) : bool := match strchr spaces c with Some (Some _) => true | _ => false end.

Definition wc_char (k : counts) (c : Z) : counts :=
  let nc := i32 (nc k + 1) in
  let nl := if c =? 10 then i32 (nl k + 1) else nl k in
  if is_space c then mk_counts nl (nw k) nc false
  else if negb (inword k) then mk_counts nl (i32 (nw k + 1)) nc true
  else mk_counts nl (nw k) nc (inword k).

Fixpoint wc_loop (fuel : nat) (fd : Z) (k : counts) : M ust (option counts) :=
  match fuel with
  | O => hang
  | S fuel =>
      let! r := read fd 512 in
      match r with
      | None => ret None
      | Some [] => ret (Some k)
      | Some l => wc_loop fuel fd (fold_left wc_char l k)
      end
  end.

Definition wc (fd : Z) (name : list Z) : M ust bool := fun s =>
  (let! r := wc_loop (S (left fd s)) fd (mk_counts 0 0 0 false) in
   match r with
   | None => fmt1 ("wc: read error" ++ eol_str) [] ;; ret false
   | Some k => fmt1 ("%d %d %d %s" ++ eol_str) [AInt (nl k); AInt (nw k); AInt (nc k); name_arg name] ;; ret true
   end) s.

Fixpoint wc_files (argv : list (list Z)) : M ust unit :=
  match argv with
  | [] => ret tt
  | a :: argv =>
      let! fd := open a in
      if fd <? 0 then fmt1 ("wc: cannot open %s" ++ eol_str) [name_arg a]
      else
        let! go := wc fd a in
        if go then close fd ;; wc_files argv else ret tt
  end.

Definition wc_main (argv : list (list Z)) : M ust unit :=
  match argv with [] => wc 0 [] ;; ret tt | _ => wc_files argv end.

(** ** echo.c *)

Fixpoint echo_main (argv : list (list Z)) : M ust unit :=
  match argv with
  | [] => ret tt
  | a :: argv => fmt1 "%s%s" [name_arg a; AStr (match argv with [] => [10; 0] | _ => [32; 0] end)] ;; echo_main argv
  end.

(** ** countUD.c *)

Definition is_ud (c : Z) : bool := (c =? 68) || (c =? 85) || (c =? 117) || (c =? 100).

(** [do ... while(0 < status)]; at the end of the file [buffer[0]] keeps the
    last byte. *)
Fixpoint count_loop (fuel : nat) (fd buffer ud other : Z) : M ust (bool * Z * Z) :=
  match fuel with
  | O => hang
  | S fuel =>
      let! r := read fd 1 in
      let buffer := match r with Some (c :: _) => c | _ => buffer end in
      let ud' := if is_ud buffer then i32 (ud + 1) else ud in
      let other' := if is_ud buffer then other else i32 (other + 1) in
      match r with
      | Some (_ :: _) => count_loop fuel fd buffer ud' other'
      | Some [] => ret (true, ud', other')
      | None => ret (false, ud', other')
      end
  end.

(** [path_addr] is the address of the argument, which the messages print. *)
Fixpoint count_files (path_addr : list Z -> Z) (argv : list (list Z)) (ud other : Z) : M ust (Z * Z) :=
  match argv with
  | [] => ret (ud, other)
  | a :: argv =>
      let! fd := open a in
      let! r := (if fd <? 0 then fmt1 ("Opening to file: %d" ++ eol_str) [AInt (path_addr a)] ;; ret (ud, other)
                 else
                   let! n := reads (left fd) in
                   let! r := count_loop (S n) fd 0 ud other in
                   let '(fine, ud, other) := r in
                   when (negb fine) (fmt1 ("Writing to file: %d" ++ eol_str) [AInt (path_addr a)]) ;;
                   ret (ud, other)) in
      close fd ;;
      count_files path_addr argv r.1 r.2
  end.

(** The result is that of [main]. *)
Definition count_main (path_addr : list Z -> Z) (name : list Z) (argv : list (list Z)) : M ust Z :=
  match argv with
  | [] => fmt1 ("Usage: %s <path>" ++ eol_str) [name_arg name] ;; ret 1
  | _ =>
      let! r := count_files path_addr argv 0 0 in
      fmt1 ("Number of UD's: %d" ++ eol_str) [AInt r.1] ;;
      fmt2 ("Number of others: %d" ++ eol_str) [AInt r.2] ;;
      ret (if 1 <=? r.1 then 0 else 1)
  end.

(** ** What the programs do *)

Lemma got_some a n (l : list Z) : (0 < n)%nat -> l <> [] -> take (got a n (length l)) l <> [].
Proof.
  intros Hn Hl E. assert (length (take (got a n (length l)) l) = O) as Hz by by rewrite E. rewrite length_take in Hz. unfold got in Hz.
  destruct l; [done|]. cbn [length] in Hz. destruct a; lia.
Qed.

Lemma got_le a n len : (got a n len <= len)%nat.
Proof. unfold got. lia. Qed.

(** A run of reads sees the bytes that are left, in any pieces. *)
Lemma read_run fd n s l :
  input s !! fd = Some l -> (0 < n)%nat ->
  exists x s', read fd n s = Ret (Some x) s' /\ (x = [] -> l = []) /\ (length x <= n)%nat /\
    (exists l', l = x ++ l' /\ input s' = <[fd := l']> (input s)) /\
    paths s' = paths s /\ out1 s' = out1 s /\ out2 s' = out2 s /\ broken s' = broken s.
Proof.
  intros Hi Hn. unfold read. rewrite Hi. eexists _, _. split; [reflexivity|]. cbn [set_avail set_input input paths out1 out2 broken]. split_and!; try done.
  - intros He. destruct (decide (l = [])) as [->|Hne]; [done|]. by destruct (got_some (avail s) n l Hn Hne).
  - rewrite length_take. unfold got. destruct (avail s); lia.
  - eexists. split; [symmetry; apply take_drop | done].
Qed.

Definition same_but_out (fd : Z) (s s' : ust) : Prop :=
  (forall k, k <> fd -> input s' !! k = input s !! k) /\ paths s' = paths s /\ broken s' = broken s.

Lemma cat_loop_copies fd fuel : forall s l,
  input s !! fd = Some l -> broken s = false -> (length l < fuel)%nat ->
  exists s', cat_loop fuel fd s = Ret true s' /\ out1 s' = out1 s ++ l /\ out2 s' = out2 s /\ same_but_out fd s s'.
Proof.
  induction fuel as [|fuel IH]; intros s l Hi Hb Hf; [lia|]. cbn [cat_loop].
  destruct (read_run fd 512 s l Hi ltac:(lia)) as (x & s1 & E1 & Hx & _ & (l' & -> & Hin) & Hp & Ho & Ho2 & Hbr).
  rewrite (bind_ret _ _ _ _ _ E1). destruct x as [|c x].
  - specialize (Hx eq_refl). cbn [app] in Hx. subst l'. exists s1. rewrite Ho, app_nil_r. split_and!; try done. split_and!; try done. intros k Hk. rewrite Hin. by apply lookup_insert_ne.
  - assert (write (c :: x) s1 = Ret (Z.of_nat (length (c :: x))) (set_out1 (out1 s1 ++ c :: x) s1)) as E2 by (unfold write; by rewrite Hbr, Hb).
    rewrite (bind_ret _ _ _ _ _ E2), Z.eqb_refl. cbn [negb].
    destruct (IH (set_out1 (out1 s1 ++ c :: x) s1) l') as (s2 & E3 & Ho3 & Ho4 & Hk & Hp2 & Hb2);
      [cbn [set_out1 input]; rewrite Hin; apply lookup_insert_eq | cbn; congruence | cbn [app length] in Hf; rewrite length_app in Hf; lia|].
    exists s2. cbn [set_out1 out1 out2 paths broken input] in *. split_and!; [done | by rewrite Ho3, Ho, <- app_assoc | congruence |].
    split_and!; [|congruence..]. intros k Hne. rewrite Hk, Hin by done. by apply lookup_insert_ne.
Qed.

(** One file after the other: the descriptor is 3 each time. *)
Definition quiet (s : ust) : Prop := input s !! 3 = None /\ broken s = false.

Lemma open_run a c s : quiet s -> paths s !! a = Some c -> open a s = Ret 3 (set_input (<[3 := c]> (input s)) s).
Proof.
  intros [Hq _] Hp. unfold open. rewrite Hp. assert (free_fd (input s) = Some 0) as ->; [|done].
  unfold free_fd. cbn [seq fmap list_fmap find_index]. change (Z.of_nat (3 + 0)) with 3. by rewrite Hq.
Qed.

(** [cat] with the names of files writes their contents one after the
    other, in however many pieces the reads deliver them. *)
Theorem cat_copies argv cs s :
  quiet s -> Forall2 (fun a c => paths s !! a = Some c) argv cs ->
  exists s', cat_files argv s = Ret tt s' /\ out1 s' = out1 s ++ concat cs /\ out2 s' = out2 s.
Proof.
  revert cs s. induction argv as [|a argv IH]; intros cs s Hq Hall; inversion Hall as [|? c ? cs' Ha Hcs]; subst; cbn [cat_files concat].
  { exists s. by rewrite app_nil_r. }
  rewrite (bind_ret _ _ _ _ _ (open_run a c s Hq Ha)). change (3 <? 0) with false. cbn iota. destruct Hq as [Hq Hb].
  set (s1 := set_input _ s). assert (input s1 !! 3 = Some c) as Hi by (unfold s1; cbn; apply lookup_insert_eq).
  destruct (cat_loop_copies 3 (S (left 3 s1)) s1 c Hi Hb) as (s2 & E2 & Ho & Ho2 & Hk & Hp & Hb2); [unfold left; rewrite Hi; lia|].
  assert (cat 3 s1 = Ret true s2) as E3 by exact E2. rewrite (bind_ret _ _ _ _ _ E3).
  assert (close 3 s2 = Ret tt (set_input (delete 3 (input s2)) s2)) as E4 by done. rewrite (bind_ret _ _ _ _ _ E4).
  destruct (IH cs' (set_input (delete 3 (input s2)) s2)) as (s3 & E5 & Ho3 & Ho4).
  - split; [apply lookup_delete_eq | cbn; unfold s1 in Hb2; cbn in Hb2; congruence].
  - cbn [set_input paths]. rewrite Hp. exact Hcs.
  - exists s3. cbn [set_input out1 out2] in *. split; [done|]. rewrite Ho3, Ho, <- app_assoc. split; [done|]. rewrite Ho4, Ho2. done.
Qed.

Definition demo_ust : ust := mk_ust ∅ [1%nat; 2%nat] {[str "a" := str "hello"; str "b" := str " world"]} [] [] false.

Lemma cat_copies_witness : exists s', cat_files [str "a"; str "b"] demo_ust = Ret tt s' /\ out1 s' = str "hello world".
Proof.
  destruct (cat_copies [str "a"; str "b"] [str "hello"; str " world"] demo_ust) as (s' & E & Ho & _).
  - split; reflexivity.
  - repeat constructor.
  - exists s'. split; [exact E|]. rewrite Ho. reflexivity.
Defined.

(** *** wc *)

(** The pieces between separators. *)
Fixpoint pieces (sep : Z -> bool) (l : list Z) : list (list Z) :=
  match l with
  | [] => [[]]
  | c :: l =>
      match pieces sep l with
      | p :: ps => if sep c then [] :: p :: ps else (c :: p) :: ps
      | [] => []
      end
  end.

Definition words (l : list Z) : list (list Z) := filter (fun p => p <> []) (pieces is_space l).
Definition lines (l : list Z) : nat := length (filter (fun c => c = 10) l).

Lemma pieces_cons sep l : exists p ps, pieces sep l = p :: ps.
Proof.
  induction l as [|c l (p & ps & E)]; cbn [pieces]; [by eexists _, _|]. rewrite E. destruct (sep c); by eexists _, _.
Qed.

(** The words begun before [l] and those in it. *)
Lemma wc_words l : forall k, nl k + Z.of_nat (length l) < 2 ^ 31 -> nw k + Z.of_nat (length l) < 2 ^ 31 -> nc k + Z.of_nat (length l) < 2 ^ 31 ->
   0 <= nl k -> 0 <= nw k -> 0 <= nc k ->
  let k' := fold_left wc_char l k in
  nl k' = nl k + Z.of_nat (lines l) /\ nc k' = nc k + Z.of_nat (length l) /\
  nw k' = nw k + Z.of_nat (length (words l)) - (if inword k && negb (bool_decide (head (pieces is_space l) = Some [])) then 1 else 0).
Proof.
  induction l as [|c l IH]; intros k Hm1 Hm2 Hm3 H1 H2 H3; cbn [fold_left].
  { change (words []) with ([] : list (list Z)). change (lines []) with 0%nat. cbn [length pieces head]. rewrite bool_decide_eq_true_2, andb_false_r by done. lia. }
  destruct (pieces_cons is_space l) as (p & ps & Ep). cbn [length] in Hm1, Hm2, Hm3.
  assert (0 <= nl (wc_char k c) <= nl k + 1 /\ 0 <= nw (wc_char k c) <= nw k + 1 /\ nc (wc_char k c) = nc k + 1 /\
    nl (wc_char k c) = nl k + (if c =? 10 then 1 else 0) /\
    nw (wc_char k c) = nw k + (if is_space c || inword k then 0 else 1) /\ inword (wc_char k c) = negb (is_space c)) as (Hl & Hw & Hc & El & Ew & Ei).
  { unfold wc_char. rewrite !i32_small by lia. destruct (c =? 10), (is_space c), (inword k) eqn:Eik; cbn [nl nw nc inword negb orb]; rewrite ?Eik; split_and!; lia || done. }
  destruct (IH (wc_char k c)) as (I1 & I2 & I3); [lia..|]. rewrite I1, I2, I3, El, Ew, Ei, Hc.
  unfold lines, words. cbn [pieces length]. rewrite Ep. split; [|split; [lia|]].
  { rewrite filter_cons. destruct (Z.eqb_spec c 10); [rewrite decide_True by done; cbn [length] | rewrite decide_False by done]; lia. }
  destruct (is_space c); cbn [orb negb andb head].
  - rewrite (filter_cons _ []), decide_False by (intros Hn; by apply Hn). rewrite bool_decide_eq_true_2 by done. cbn [negb]. rewrite andb_false_r. lia.
  - rewrite !(filter_cons _ (c :: p)), decide_True by done. rewrite (filter_cons _ p). cbn [length].
    rewrite (bool_decide_eq_false_2 (Some (c :: p) = Some [])) by done. cbn [negb]. rewrite andb_true_r.
    destruct (decide (p = [])) as [->|Hp].
    + rewrite decide_False by (intros Hn; by apply Hn). rewrite bool_decide_eq_true_2 by done. cbn [negb]. destruct (inword k); lia.
    + rewrite decide_True by done. rewrite bool_decide_eq_false_2 by congruence. cbn [negb length]. destruct (inword k); lia.
Qed.

Lemma words_le l : (length (words l) <= length l)%nat.
Proof.
  unfold words. induction l as [|c l IH]; cbn [pieces length]; [done|]. destruct (pieces_cons is_space l) as (p & ps & Ep). rewrite Ep in *.
  destruct (is_space c).
  - rewrite filter_cons, decide_False by (intros Hn; by apply Hn). lia.
  - rewrite filter_cons in *. rewrite decide_True by done. cbn [length]. destruct (decide _); cbn [length] in *; lia.
Qed.

(** *** Messages *)

Section render.
Context (fmt : list Z) (ap : list arg).

Lemma render_char c : 0 < c < 256 -> c <> 37 -> render true (c :: fmt) false ap = (fun t => c :: t) <$> render true fmt false ap.
Proof.
  intros Hc Hp. cbn [render]. rewrite (proj2 (Z.eqb_neq c 0)) by lia. cbn [negb]. unfold u8. rewrite Z.mod_small by lia.
  by rewrite (proj2 (Z.eqb_neq c 37)).
Qed.

Lemma render_d z : - 2 ^ 31 <= z < 2 ^ 31 ->
  render true (37 :: 100 :: fmt) false (AInt z :: ap) = (fun t => show_int true z 10 true ++ t) <$> render true fmt false ap.
Proof. intros Hz. transitivity ((fun t => show_int true (i32 z) 10 true ++ t) <$> render true fmt false ap); [reflexivity|]. by rewrite i32_small. Qed.

Lemma render_s a : terminated a ->
  render true (37 :: 115 :: fmt) false (AStr a :: ap) = (fun t => (u8 <$> cstr a) ++ t) <$> render true fmt false ap.
Proof.
  intros Ha. transitivity (if bool_decide (terminated a) then (fun t => (u8 <$> cstr a) ++ t) <$> render true fmt false ap else None); [reflexivity|].
  by rewrite bool_decide_eq_true_2.
Qed.
End render.

(** A message in full. *)
Lemma fmt1_run f ap text s :
  render true (str f ++ [0]) false ap = Some text -> Z.of_nat (length text) < 2 ^ 30 - 1 -> broken s = false ->
  fmt1 f ap s = Ret tt (set_out1 (out1 s ++ text) s).
Proof.
  intros Hr Hl Hb. unfold fmt1, zoom, printf, s_printf. rewrite u32_small by lia.
  destruct (printf_loop_prints true Fd (2 ^ 30 - 1) ltac:(lia) (str f ++ [0]) false 0 ap text (out1 s)) as (o & E & _); [done | lia | lia | cbn; lia|].
  unfold bind. rewrite E. cbn [ret emit]. by rewrite Hb.
Qed.

(** A name without a NUL byte. *)
Definition name_ok (a : list Z) : Prop := Forall (fun c => 0 < c < 256) a.

Lemma name_text a : name_ok a -> terminated (a ++ [0]) /\ u8 <$> cstr (a ++ [0]) = a.
Proof.
  intros Ha. split; [unfold terminated; set_solver|]. induction Ha as [|c a Hc _ IH]; [done|]. cbn [app cstr].
  rewrite (proj2 (Z.eqb_neq c 0)) by lia. cbn [fmap list_fmap]. unfold u8 at 1. rewrite Z.mod_small by lia. by rewrite IH.
Qed.

Definition decimal (z : Z) : list Z := show_int true z 10 true.

Lemma wc_loop_counts fd fuel : forall s l k,
  input s !! fd = Some l -> (length l < fuel)%nat ->
  exists s', wc_loop fuel fd k s = Ret (Some (fold_left wc_char l k)) s' /\ out1 s' = out1 s /\ broken s' = broken s.
Proof.
  induction fuel as [|fuel IH]; intros s l k Hi Hf; [lia|]. cbn [wc_loop].
  destruct (read_run fd 512 s l Hi ltac:(lia)) as (x & s1 & E1 & Hx & _ & (l' & -> & Hin) & _ & Ho & _ & Hbr).
  rewrite (bind_ret _ _ _ _ _ E1). destruct x as [|c x].
  - specialize (Hx eq_refl). cbn [app] in Hx. subst l'. by exists s1.
  - destruct (IH s1 l' (fold_left wc_char (c :: x) k)) as (s2 & E2 & Ho2 & Hb2);
      [rewrite Hin; apply lookup_insert_eq | cbn [app length] in Hf; rewrite length_app in Hf; lia|].
    exists s2. rewrite fold_left_app, E2. split_and!; congruence.
Qed.

(** [wc] prints the number of newlines, of words and of bytes of the
    input, and the name; a word is a longest piece without white space. *)
Theorem wc_counts fd name s l :
  input s !! fd = Some l -> broken s = false -> Z.of_nat (length l) < 2 ^ 31 -> name_ok name -> Z.of_nat (length name) < 2 ^ 20 ->
  exists s', wc fd name s = Ret true s' /\
    out1 s' = out1 s ++ decimal (Z.of_nat (lines l)) ++ [32] ++ decimal (Z.of_nat (length (words l))) ++ [32] ++
      decimal (Z.of_nat (length l)) ++ [32] ++ name ++ [10].
Proof.
  intros Hi Hb Hl Hn Hnl. unfold wc. destruct (wc_loop_counts fd (S (left fd s)) s l (mk_counts 0 0 0 false) Hi) as (s1 & E1 & Ho & Hb1);
    [unfold left; rewrite Hi; lia|].
  rewrite (bind_ret _ _ _ _ _ E1). destruct (wc_words l (mk_counts 0 0 0 false)) as (K1 & K2 & K3); cbn [nl nw nc inword]; [lia..|].
  cbn [nl nw nc inword andb] in K1, K2, K3. rewrite Z.sub_0_r in K3. set (k := fold_left _ _ _) in *.
  assert (nl k <= Z.of_nat (length l) /\ nw k <= Z.of_nat (length l)) as [B1 B2].
  { rewrite K1, K3. unfold lines. split; [pose proof (length_filter (fun c => c = 10) l); lia|].
    assert (length (words l) <= length l)%nat; [apply words_le | lia]. }
  destruct (name_text name Hn) as [Ht Hc].
  assert (render true (str ("%d %d %d %s" ++ eol_str) ++ [0]) false [AInt (nl k); AInt (nw k); AInt (nc k); name_arg name] =
    Some (decimal (nl k) ++ [32] ++ decimal (nw k) ++ [32] ++ decimal (nc k) ++ [32] ++ name ++ [10])) as Hr.
  { change (str ("%d %d %d %s" ++ eol_str) ++ [0]) with [37; 100; 32; 37; 100; 32; 37; 100; 32; 37; 115; 10; 0].
    rewrite !render_d by lia. rewrite !render_char by lia. rewrite !render_d by lia. rewrite !render_char by lia.
    rewrite !render_d by lia. rewrite !render_char by lia. unfold name_arg. rewrite render_s by done. rewrite render_char by lia. rewrite Hc. reflexivity. }
  assert (Z.of_nat (length (decimal (nl k) ++ [32] ++ decimal (nw k) ++ [32] ++ decimal (nc k) ++ [32] ++ name ++ [10])) < 2 ^ 30 - 1) as Hlen.
  { rewrite !length_app. cbn [length]. unfold decimal. pose proof (show_int_length true (nl k) 10 true). pose proof (show_int_length true (nw k) 10 true).
    pose proof (show_int_length true (nc k) 10 true). lia. }
  rewrite (bind_ret _ _ _ _ _ (fmt1_run _ _ _ s1 Hr Hlen ltac:(congruence))). eexists. split; [reflexivity|]. cbn [set_out1 out1]. by rewrite Ho, K1, K2, K3.
Qed.

Lemma wc_counts_witness :
  let s := mk_ust {[0 := str "one two" ++ [10] ++ str " three" ++ [10]]} [3%nat; 1%nat] ∅ [] [] false in
  exists s', wc 0 (str "x") s = Ret true s' /\ out1 s' = str "2 3 15 x" ++ [10].
Proof.
  destruct (wc_counts 0 (str "x") (mk_ust {[0 := str "one two" ++ [10] ++ str " three" ++ [10]]} [3%nat; 1%nat] ∅ [] [] false) (str "one two" ++ [10] ++ str " three" ++ [10]))
    as (s' & E & Ho).
  - reflexivity.
  - reflexivity.
  - reflexivity.
  - repeat constructor.
  - reflexivity.
  - exists s'. split; [exact E|]. rewrite Ho. vm_compute. reflexivity.
Defined.

(** *** echo *)

Fixpoint joined (argv : list (list Z)) : list Z :=
  match argv with
  | [] => []
  | [a] => a ++ [10]
  | a :: argv => a ++ [32] ++ joined argv
  end.

(** [echo] prints its arguments with spaces between them and a newline at
    the end. *)
Theorem echo_prints argv s :
  broken s = false -> Forall (fun a => name_ok a /\ Z.of_nat (length a) < 2 ^ 20) argv ->
  echo_main argv s = Ret tt (set_out1 (out1 s ++ joined argv) s).
Proof.
  intros Hb Ha. revert s Hb. induction Ha as [|a argv [Hok Hl] _ IH]; intros s Hb; cbn [echo_main joined].
  { rewrite app_nil_r. by destruct s. }
  destruct (name_text a Hok) as [Ht Hc]. set (sep := match argv with [] => 10 | _ => 32 end).
  assert (render true (str "%s%s" ++ [0]) false [name_arg a; AStr [sep; 0]] = Some (a ++ [sep])) as Hr.
  { change (str "%s%s" ++ [0]) with [37; 115; 37; 115; 0]. unfold name_arg. rewrite !render_s; [| |done]; [|unfold terminated; set_solver].
    rewrite Hc. unfold sep. by destruct argv. }
  assert (AStr (match argv with [] => [10; 0] | _ => [32; 0] end) = AStr [sep; 0]) as -> by (unfold sep; by destruct argv).
  rewrite (bind_ret _ _ _ _ _ (fmt1_run _ _ _ s Hr ltac:(rewrite length_app; cbn [length]; lia) Hb)). rewrite IH by done.
  cbn [set_out1 out1]. unfold set_out1. cbn. do 2 f_equal. rewrite <- !app_assoc. unfold sep. by destruct argv.
Qed.

Lemma echo_prints_witness : echo_main [str "hi"; str "there"] demo_ust = Ret tt (set_out1 (str "hi there" ++ [10]) demo_ust).
Proof. apply (echo_prints [str "hi"; str "there"] demo_ust); [reflexivity | repeat constructor]. Defined.

(** *** countUD *)

Definition count_of (l : list Z) : nat := length (filter (fun c => is_ud c = true) l).

(** The last byte is counted once more at the end of the file, and an empty
    file has one byte for it. *)
Lemma count_loop_run fd fuel : forall s l b ud other,
  input s !! fd = Some l -> (length l < fuel)%nat -> 0 <= ud -> 0 <= other ->
  ud + Z.of_nat (length l) + 1 < 2 ^ 31 -> other + Z.of_nat (length l) + 1 < 2 ^ 31 ->
  let seen := l ++ [default b (last l)] in
  exists s', count_loop fuel fd b ud other s =
    Ret (true, ud + Z.of_nat (count_of seen), other + Z.of_nat (length seen - count_of seen)) s' /\ out1 s' = out1 s /\ out2 s' = out2 s.
Proof.
  induction fuel as [|fuel IH]; intros s l b ud other Hi Hf Hu Ho Hub Hob; [lia|]. cbn [count_loop].
  destruct (read_run fd 1 s l Hi ltac:(lia)) as (x & s1 & E1 & Hx & Hx1 & (l' & -> & Hin) & _ & Ho1 & Ho2 & Hbr).
  rewrite (bind_ret _ _ _ _ _ E1). destruct x as [|c [|c2 x]]; [| |cbn in Hx1; lia].
  - specialize (Hx eq_refl). cbn [app] in Hx. subst l'. exists s1. split; [|done]. unfold count_of. cbn [app last default length]. rewrite filter_cons, filter_nil.
    destruct (is_ud b); [rewrite decide_True by done | rewrite decide_False by done]; rewrite i32_small by (cbn in *; lia); cbn [length]; do 3 f_equal; lia.
  - cbn [app length] in *. destruct (IH s1 l' c (if is_ud c then i32 (ud + 1) else ud) (if is_ud c then other else i32 (other + 1))) as (s2 & E2 & Ho3 & Ho4);
      [rewrite Hin; apply lookup_insert_eq | lia | destruct (is_ud c); rewrite ?i32_small by lia; lia.. |].
    exists s2. rewrite E2. split; [|split; congruence].
    assert (default b (last (c :: l')) = default c (last l')) as -> by (destruct l' as [|y l']; [done|]; change (last (c :: y :: l')) with (last (y :: l')); by destruct (last (y :: l')) eqn:El; [|by apply last_None in El]).
    set (t := l' ++ [default c (last l')]). assert (count_of t <= length t)%nat by apply length_filter.
    assert (count_of (c :: t) = (if is_ud c then 1 else 0) + count_of t)%nat as -> by (unfold count_of; rewrite filter_cons; destruct (is_ud c); [by rewrite decide_True | by rewrite decide_False]).
    cbn [length]. destruct (is_ud c); rewrite i32_small by lia; f_equal; f_equal; [f_equal|]; lia.
Qed.
