(* ===== verification/Grep.v ===== *)
(** * The pattern matcher and the line loop of grep (grep.c)

    The matcher of regular expressions with [^], [.], [*] and [$], shown equal
    to the language of the expression; and the loop that cuts the input into
    lines inside a buffer of 1024 bytes. *)

From S2P Require Import Prelude Cstring Format User.

(** ** The matcher *)

(** [do ... while( *text != 0 && ( *text++ == c || c == '.'))], with [matchhere]
    for the rest of the expression. *)
Fixpoint matchstar (here : list Z -> bool) (c : Z) (text : list Z) : bool :=
  here text || match text with
               | [] => false
               | x :: text => ((x =? c) || (c =? 46)) && matchstar here c text
               end.

Fixpoint matchhere (re text : list Z) {struct re} : bool :=
  match re with
  | [] => true
  | c :: re =>
      match re with
      | d :: re2 =>
          if d =? 42 then matchstar (matchhere re2) c text
          else match text with [] => false | x :: text => ((c =? 46) || (c =? x)) && matchhere re text end
      | [] =>
          if c =? 36 then match text with [] => true | _ => false end
          else match text with [] => false | x :: text => ((c =? 46) || (c =? x)) && matchhere re text end
      end
  end.

Fixpoint match_from (re text : list Z) : bool :=
  matchhere re text || match text with [] => false | _ :: text => match_from re text end.

Definition match_ (re text : list Z) : bool :=
  match re with
  | c :: re' => if c =? 94 then matchhere re' text else match_from re text
  | [] => match_from re text
  end.

(** ** The lines *)

(** [while((q = strchr(p, 10)) != 0)]; a line that does not match keeps its 0. *)
Fixpoint grep_lines (fuel : nat) (re buf : list Z) (p : nat) : M ust (list Z * nat) :=
  match fuel with
  | O => hang
  | S fuel =>
      match strchr (drop p buf) 10 with
      | Some (Some k) =>
          let q := (p + k)%nat in
          let buf := <[q := 0]> buf in
          if match_ re (cstr (drop p buf)) then
            let buf := <[q := 10]> buf in
            write (slice p (k + 1) buf) ;;
            grep_lines fuel re buf (q + 1)
          else grep_lines fuel re buf (q + 1)
      | Some None => ret (buf, p)
      | None => undefined
      end
  end.

Definition BUFSIZE : nat := 1024.

(** The result is the buffer, which later calls use again. *)
Fixpoint grep_loop (fuel : nat) (re : list Z) (fd : Z) (buf : list Z) (m : nat) : M ust (list Z) :=
  match fuel with
  | O => hang
  | S fuel =>
      let! r := read fd (BUFSIZE - m - 1) in
      match r with
      | None | Some [] => ret buf
      | Some l =>
          let buf := splice m l buf in
          let m := (m + length l)%nat in
          let buf := <[m := 0]> buf in
          let! r := grep_lines (S m) re buf 0 in
          let '(buf, p) := r in
          let m := if Nat.eqb p 0 then O else m in
          if Nat.eqb m 0 then grep_loop fuel re fd buf m
          else
            let m := (m - p)%nat in
            grep_loop fuel re fd (umemmove buf 0 p (Z.of_nat m)) m
      end
  end.

Definition grep (re : list Z) (fd : Z) (buf : list Z) : M ust (list Z) := fun s => grep_loop (S (left fd s)) re fd buf 0 s.

Fixpoint grep_files (re : list Z) (argv : list (list Z)) (buf : list Z) : M ust unit :=
  match argv with
  | [] => ret tt
  | a :: argv =>
      let! fd := open a in
      if fd <? 0 then fmt1 ("grep: cannot open %s" ++ eol_str) [name_arg a]
      else
        let! buf := grep re fd buf in
        close fd ;;
        grep_files re argv buf
  end.

(** [main], with the arguments after the program's name. *)
Definition grep_main (argv : list (list Z)) : M ust unit :=
  match argv with
  | [] => fmt2 ("usage: grep pattern [file ...]" ++ eol_str) []
  | [re] => grep re 0 (replicate BUFSIZE 0) ;; ret tt
  | re :: argv => grep_files re argv (replicate BUFSIZE 0)
  end.

(** ** What an expression means *)

Inductive item := One (c : Z) | Many (c : Z).

(** The items of an expression, and whether it ends in [$]. *)
Fixpoint parse (re : list Z) : list item * bool :=
  match re with
  | [] => ([], false)
  | c :: re =>
      match re with
      | d :: re2 =>
          if d =? 42 then let '(its, e) := parse re2 in (Many c :: its, e)
          else let '(its, e) := parse re in (One c :: its, e)
      | [] => if c =? 36 then ([], true) else ([One c], false)
      end
  end.

Definition fits (c x : Z) : Prop := c = 46 \/ c = x.

Inductive lang : list item -> list Z -> Prop :=
| lang_nil : lang [] []
| lang_one c x its w : fits c x -> lang its w -> lang (One c :: its) (x :: w)
| lang_many c its u w : Forall (fits c) u -> lang its w -> lang (Many c :: its) (u ++ w).

(** Some part of the text is in the language: the beginning of it after [^],
    the end of it before [$]. *)
Definition matches (re text : list Z) : Prop :=
  let '(start, re) := match re with c :: re' => if c =? 94 then (true, re') else (false, re) | [] => (false, re) end in
  let '(its, e) := parse re in
  exists pre w post, text = pre ++ w ++ post /\ lang its w /\ (start = true -> pre = []) /\ (e = true -> post = []).

Definition begins (its : list item) (e : bool) (text : list Z) : Prop :=
  exists w post, text = w ++ post /\ lang its w /\ (e = true -> post = []).

Lemma fits_spec c x : ((c =? 46) || (c =? x)) = true <-> fits c x.
Proof. unfold fits. destruct (Z.eqb_spec c 46), (Z.eqb_spec c x); cbn; intuition congruence. Qed.

Lemma begins_one c its e text :
  begins (One c :: its) e text <-> match text with [] => False | x :: t => fits c x /\ begins its e t end.
Proof.
  split.
  - intros (w & post & -> & Hl & He). inversion Hl; subst. cbn [app]. split; [done|]. by exists w0, post.
  - destruct text as [|x t]; [done|]. intros (Hx & w & post & -> & Hl & He). exists (x :: w), post. split; [done|]. split; [by constructor | done].
Qed.

Lemma begins_many c its e text :
  begins (Many c :: its) e text <-> exists u v, text = u ++ v /\ Forall (fits c) u /\ begins its e v.
Proof.
  split.
  - intros (w & post & -> & Hl & He). inversion Hl as [| |? ? u w' Hu Hw']; subst. exists u, (w' ++ post). split; [by rewrite app_assoc|]. split; [done|]. by exists w', post.
  - intros (u & v & -> & Hu & w & post & -> & Hl & He). exists (u ++ w), post. split; [by rewrite app_assoc|]. split; [by constructor | done].
Qed.

Lemma matchstar_spec here c (P : list Z -> Prop) : (forall t, here t = true <-> P t) ->
  forall text, matchstar here c text = true <-> exists u v, text = u ++ v /\ Forall (fits c) u /\ P v.
Proof.
  intros Hh. induction text as [|x text IH]; cbn [matchstar]; rewrite orb_true_iff, Hh.
  - split; [intros [Hp|]; [by exists [], [] | done]|]. intros (u & v & E & _ & Hp). symmetry in E. apply app_nil in E as [-> ->]. by left.
  - rewrite andb_true_iff, IH. rewrite (orb_comm (x =? c)), (Z.eqb_sym x c), fits_spec. split.
    + intros [Hp|(Hx & u & v & -> & Hu & Hp)]; [by exists [], (x :: text)|]. exists (x :: u), v. split; [done|]. split; [by constructor | done].
    + intros (u & v & E & Hu & Hp). destruct u as [|y u]; cbn [app] in E; [subst; by left|]. injection E as -> ->. right.
      inversion Hu; subst. split; [done|]. by exists u, v.
Qed.

Lemma matchhere_cons c d re text : matchhere (c :: d :: re) text =
  if d =? 42 then matchstar (matchhere re) c text
  else match text with [] => false | x :: text => ((c =? 46) || (c =? x)) && matchhere (d :: re) text end.
Proof. reflexivity. Qed.

Lemma parse_cons c d re : parse (c :: d :: re) =
  if d =? 42 then let '(its, e) := parse re in (Many c :: its, e) else let '(its, e) := parse (d :: re) in (One c :: its, e).
Proof. reflexivity. Qed.

Lemma matchhere_spec re : forall text, matchhere re text = true <-> begins (parse re).1 (parse re).2 text.
Proof.
  induction re as [re IH] using (induction_ltof1 _ (@length Z)). unfold ltof in IH. intros text. destruct re as [|c re].
  { cbn. split; [|done]. intros _. exists [], text. split; [done|]. split; [constructor | done]. }
  destruct re as [|d re2].
  { cbn [matchhere parse]. destruct (Z.eqb_spec c 36) as [->|Hc]; cbn [fst snd].
    - destruct text; (split; [|done || (intros (w & post & E & Hl & He); inversion Hl; subst; by rewrite (He eq_refl) in E)]); [intros _|done].
      exists [], []. split; [done|]. split; [constructor | done].
    - rewrite begins_one. destruct text as [|x t]; [done|]. rewrite andb_true_iff, fits_spec. split; intros [Hx _]; (split; [done|]); [|done].
      exists [], t. split; [done|]. split; [constructor | done]. }
  rewrite matchhere_cons, parse_cons. destruct (Z.eqb_spec d 42) as [->|Hd].
  - pose proof (IH re2 ltac:(cbn; lia)) as IH2. destruct (parse re2) as [its e]. cbn [fst snd] in *. rewrite begins_many. by apply matchstar_spec.
  - pose proof (IH (d :: re2) ltac:(cbn; lia)) as IH2.  destruct (parse (d :: re2)) as [its e]. cbn [fst snd] in *. rewrite begins_one. destruct text as [|x t]; [done|]. rewrite andb_true_iff, fits_spec.
    by rewrite <- IH2.
Qed.

Lemma match_from_spec re text : match_from re text = true <-> exists pre t, text = pre ++ t /\ begins (parse re).1 (parse re).2 t.
Proof.
  induction text as [|x text IH]; cbn [match_from]; rewrite orb_true_iff, matchhere_spec.
  - split; [intros [Hb|]; [by exists [], [] | done]|]. intros (pre & t & E & Hb). symmetry in E. apply app_nil in E as [-> ->]. by left.
  - rewrite IH. split.
    + intros [Hb|(pre & t & -> & Hb)]; [by exists [], (x :: text) | by exists (x :: pre), t].
    + intros (pre & t & E & Hb). destruct pre as [|y pre]; cbn [app] in E; [subst; by left|]. injection E as -> ->. right. by exists pre, t.
Qed.

(** C39: the matcher of grep.c, with its mutual recursion and its loops over the
    text, answers whether the text has a part in the language of the regular
    expression, at the beginning after [^] and at the end before [$]. *)
Theorem match_is_language re text : match_ re text = true <-> matches re text.
Proof.
  unfold match_, matches. assert (forall r, (exists pre t, text = pre ++ t /\ begins (parse r).1 (parse r).2 t) <->
    let '(its, e) := parse r in exists pre w post, text = pre ++ w ++ post /\ lang its w /\ (false = true -> pre = []) /\ (e = true -> post = [])) as Hf.
  { intros r. destruct (parse r) as [its e]. cbn [fst snd]. split.
    - intros (pre & t & -> & w & post & -> & Hl & He). by exists pre, w, post.
    - intros (pre & w & post & -> & Hl & _ & He). exists pre, (w ++ post). split; [done|]. by exists w, post. }
  destruct re as [|c re]; [by rewrite match_from_spec, Hf|]. destruct (c =? 94); [|by rewrite match_from_spec, Hf].
  rewrite matchhere_spec. destruct (parse re) as [its e]. cbn [fst snd]. split.
  - intros (w & post & -> & Hl & He). by exists [], w, post.
  - intros (pre & w & post & -> & Hl & Hp & He). rewrite (Hp eq_refl). by exists w, post.
Qed.

(** ** The lines that are printed *)

Definition is_nl (c : Z) : bool := c =? 10.
Definition no_nl (l : list Z) : Prop := 10 ∉ l.
Definition text_ok (l : list Z) : Prop := Forall (fun c => c <> 0) l.

(** The lines that end in a newline, and what follows the last of them. *)
Definition full_lines (l : list Z) : list (list Z) := removelast (pieces is_nl l).
Definition rest_of (l : list Z) : list Z := List.last (pieces is_nl l) [].
Definition hits (re l : list Z) : list Z := concat ((fun p => p ++ [10]) <$> filter (fun p => match_ re p = true) (full_lines l)).

Lemma pieces_none l : no_nl l -> pieces is_nl l = [l].
Proof.
  unfold no_nl. induction l as [|c l IH]; [done|]. intros [Hc Hl]%not_elem_of_cons. cbn [pieces]. rewrite IH by done.
  unfold is_nl. by rewrite (proj2 (Z.eqb_neq c 10)) by congruence.
Qed.

Lemma pieces_line a b : no_nl a -> pieces is_nl (a ++ 10 :: b) = a :: pieces is_nl b.
Proof.
  unfold no_nl. induction a as [|c a IH]; cbn [app pieces].
  - intros _. destruct (pieces_cons is_nl b) as (p & ps & ->). done.
  - intros [Hc Ha]%not_elem_of_cons. rewrite IH by done. unfold is_nl. by rewrite (proj2 (Z.eqb_neq c 10)) by congruence.
Qed.

Lemma lines_none l : no_nl l -> full_lines l = [] /\ rest_of l = l.
Proof. intros H. unfold full_lines, rest_of. by rewrite pieces_none. Qed.

Lemma lines_line a b : no_nl a -> full_lines (a ++ 10 :: b) = a :: full_lines b /\ rest_of (a ++ 10 :: b) = rest_of b.
Proof. intros H. unfold full_lines, rest_of. rewrite pieces_line by done. by destruct (pieces_cons is_nl b) as (p & ps & ->). Qed.

Lemma first_line l : no_nl l \/ exists a b, l = a ++ 10 :: b /\ no_nl a.
Proof. destruct (decide (10 ∈ l)) as [H|H]; [right | by left]. by apply list_elem_of_split_l in H. Qed.

(** Induction on the lines of a text. *)
Lemma lines_ind (P : list Z -> Prop) :
  (forall l, no_nl l -> P l) -> (forall a b, no_nl a -> P b -> P (a ++ 10 :: b)) -> forall l, P l.
Proof.
  intros H1 H2 l. induction l as [l IH] using (induction_ltof1 _ (@length Z)). unfold ltof in IH.
  destruct (first_line l) as [Hl|(a & b & -> & Ha)]; [by apply H1|]. apply H2; [done|]. apply IH. rewrite length_app. cbn. lia.
Qed.

Lemma lines_split l : exists x, l = x ++ rest_of l /\ no_nl (rest_of l) /\ (x = [] -> no_nl l).
Proof.
  induction l as [l Hl|a b Ha (x & E & Hn & _)] using lines_ind.
  - exists []. by rewrite (proj2 (lines_none l Hl)).
  - rewrite (proj2 (lines_line a b Ha)). exists (a ++ 10 :: x). split; [by rewrite <- app_assoc, <- app_comm_cons, <- E|]. split; [done|]. intros Hx. by destruct a.
Qed.

(** A text in two parts. *)
Lemma full_lines_app t l : full_lines (t ++ l) = full_lines t ++ full_lines (rest_of t ++ l).
Proof.
  induction t as [t Ht|a b Ha IH] using lines_ind.
  - by destruct (lines_none t Ht) as [-> ->].
  - rewrite <- app_assoc, <- app_comm_cons. rewrite (proj1 (lines_line a (b ++ l) Ha)), IH. by destruct (lines_line a b Ha) as [-> ->].
Qed.

Lemma hits_app re t l : hits re (t ++ l) = hits re t ++ hits re (rest_of t ++ l).
Proof. unfold hits. by rewrite full_lines_app, filter_app, fmap_app, concat_app. Qed.

Lemma hits_none re l : no_nl l -> hits re l = [].
Proof. intros H. unfold hits. by rewrite (proj1 (lines_none l H)). Qed.

(** ** The line loop *)

Lemma strchr_line a r : text_ok a -> no_nl a -> strchr (a ++ 10 :: r) 10 = Some (Some (length a)).
Proof.
  induction 1 as [|c a Hc _ IH]; intros Hn; [done|]. apply not_elem_of_cons in Hn as [Hn Ha]. cbn [app strchr length].
  rewrite (proj2 (Z.eqb_neq c 0)), (proj2 (Z.eqb_neq c 10)) by congruence. by rewrite IH.
Qed.

Lemma strchr_end a r : text_ok a -> no_nl a -> strchr (a ++ 0 :: r) 10 = Some None.
Proof.
  induction 1 as [|c a Hc _ IH]; intros Hn; [done|]. apply not_elem_of_cons in Hn as [Hn Ha]. cbn [app strchr].
  rewrite (proj2 (Z.eqb_neq c 0)), (proj2 (Z.eqb_neq c 10)) by congruence. by rewrite IH.
Qed.

Lemma insert_here {A} (p : list A) x y l : <[length p := y]> (p ++ x :: l) = p ++ y :: l.
Proof. induction p as [|z p IH]; cbn; [done|]. f_equal. exact IH. Qed.

Lemma grep_lines_run re fuel t : forall pre junk s,
  text_ok t -> (length t < fuel)%nat -> broken s = false ->
  exists pre', grep_lines fuel re (pre ++ t ++ 0 :: junk) (length pre) s =
      Ret (pre' ++ rest_of t ++ 0 :: junk, length pre') (set_out1 (out1 s ++ hits re t) s) /\
    (length pre' + length (rest_of t) = length pre + length t)%nat.
Proof.
  revert fuel. induction t as [t Ht|a b Ha IH] using lines_ind; intros fuel pre junk s Hok Hf Hb; destruct fuel as [|fuel]; try lia; cbn [grep_lines]; rewrite drop_app_length.
  { rewrite strchr_end by done. exists pre. rewrite (proj2 (lines_none t Ht)), hits_none, app_nil_r by done. split; [by destruct s | done]. }
  apply Forall_app in Hok as [Hoka [_ Hokb]%Forall_cons]. rewrite <- (app_assoc a), <- app_comm_cons.
  rewrite strchr_line by done. set (r := b ++ 0 :: junk).
  assert (forall y x, <[(length pre + length a)%nat := y]> (pre ++ a ++ x :: r) = pre ++ a ++ y :: r) as Hins.
  { intros y x. rewrite !(app_assoc pre). rewrite <- (length_app pre a). apply insert_here. }
  rewrite !Hins. rewrite drop_app_length, cstr_app_zero by done.
  rewrite length_app in Hf. cbn [length] in Hf.
  assert (forall x s1, broken s1 = false -> exists pre', grep_lines fuel re (pre ++ a ++ x :: r) (length pre + length a + 1) s1 =
      Ret (pre' ++ rest_of b ++ 0 :: junk, length pre') (set_out1 (out1 s1 ++ hits re b) s1) /\
    (length pre' + length (rest_of b) = length pre + length (a ++ 10%Z :: b))%nat) as Hgo.
  { intros x s1 Hb1. destruct (IH fuel (pre ++ a ++ [x]) junk s1) as (pre' & E & Hlen); [done | lia | done|].
    exists pre'. rewrite !length_app in *. cbn [length] in *. rewrite <- !app_assoc in E. cbn [app] in E. rewrite Nat.add_assoc in E. split; [exact E | lia]. }
  unfold hits. destruct (lines_line a b Ha) as [-> ->]. rewrite filter_cons. destruct (match_ re a).
  - rewrite decide_True by done.
    assert (write (slice (length pre) (length a + 1) (pre ++ a ++ 10 :: r)) s = Ret (Z.of_nat (length (a ++ [10]))) (set_out1 (out1 s ++ a ++ [10]) s)) as E1.
    { unfold write, slice. rewrite Hb, drop_app_length, take_app_add'; [done|]. done. }
    rewrite (bind_ret _ _ _ _ _ E1). destruct (Hgo 10 (set_out1 (out1 s ++ a ++ [10]) s) Hb) as (pre' & E2 & Hlen).
    exists pre'. split; [|done]. rewrite E2. cbn [set_out1 out1 fmap list_fmap concat]. unfold hits. by rewrite <- !app_assoc.
  - rewrite decide_False by done. apply Hgo. done.
Qed.

(** ** The buffer *)

(** Every line fits in the buffer. *)
Definition short (l : list Z) : Prop := Forall (fun p => (length p < BUFSIZE - 1)%nat) (full_lines l).

Lemma short_rest t l : short (t ++ l) -> short (rest_of t ++ l).
Proof. unfold short. rewrite full_lines_app, Forall_app. tauto. Qed.

(** A buffer without a newline that is full: there is no line to come. *)
Lemma short_full b l : no_nl b -> (BUFSIZE - 1 <= length b)%nat -> short (b ++ l) -> no_nl (b ++ l).
Proof.
  intros Hb Hlen Hs. destruct (first_line l) as [Hl|(a & r & -> & Ha)]; [unfold no_nl; by apply not_elem_of_app|]. exfalso.
  assert (no_nl (b ++ a)) as Hba by (unfold no_nl; by apply not_elem_of_app). unfold short in Hs. rewrite app_assoc in Hs. rewrite (proj1 (lines_line _ r Hba)) in Hs.
  apply Forall_cons in Hs as [Hs _]. rewrite length_app in Hs. lia.
Qed.

Lemma keep_tail (pre t junk : list Z) :
  umemmove (pre ++ t ++ junk) 0 (length pre) (Z.of_nat (length t)) = t ++ drop (length t) (pre ++ t ++ junk).
Proof.
  unfold umemmove. rewrite Nat2Z.id, copy_up_spec by (rewrite ?length_app; lia).
  unfold slice, splice. rewrite drop_app_length, take_app_length. done.
Qed.

Lemma load_buffer (b junk x : list Z) :
  (length b + length x < length b + length junk)%nat ->
  exists junk', <[(length b + length x)%nat := 0]> (splice (length b) x (b ++ junk)) = (b ++ x) ++ 0 :: junk' /\ (length junk' + length x + 1 = length junk)%nat.
Proof.
  intros Hl. unfold splice. rewrite take_app_length.
  assert (drop (length b + length x) (b ++ junk) = drop (length x) junk) as -> by (rewrite <- drop_drop, drop_app_length; done).
  destruct (drop (length x) junk) as [|y j] eqn:Ed.
  { apply (f_equal length) in Ed. rewrite length_drop in Ed. cbn in Ed. lia. }
  exists j. split; [|apply (f_equal length) in Ed; rewrite length_drop in Ed; cbn [length] in Ed; lia].
  rewrite app_assoc, <- length_app. apply insert_here.
Qed.

Lemma grep_loop_run re fd fuel : forall s l b junk,
  input s !! fd = Some l -> avail s = [] -> broken s = false -> text_ok (b ++ l) -> short (b ++ l) -> no_nl b ->
  length (b ++ junk) = BUFSIZE -> (length b < BUFSIZE)%nat -> (length l < fuel)%nat ->
  exists buf' s', grep_loop fuel re fd (b ++ junk) (length b) s = Ret buf' s' /\ out1 s' = out1 s ++ hits re (b ++ l) /\
    length buf' = BUFSIZE /\ same_but_out fd s s'.
Proof.
  induction fuel as [|fuel IH]; intros s l b junk Hi Ha Hb Hok Hsh Hn Hlen Hlb Hf; [lia|]. cbn [grep_loop].
  unfold read at 1. unfold bind at 1. rewrite Hi, Ha. unfold got. cbn [tail].
  set (k := Nat.min (length l) (BUFSIZE - length b - 1)). set (s1 := set_avail _ _).
  assert (take k l = [] -> no_nl (b ++ l)) as Hend.
  { intros Hz. apply (f_equal length) in Hz. rewrite length_take in Hz. cbn in Hz. destruct l as [|y l]; [by rewrite app_nil_r|].
    apply short_full; [done | cbn [length] in *; lia | done]. }
  assert (same_but_out fd s s1) as Hs1 by (split_and!; [intros j Hj; unfold s1; cbn; by apply lookup_insert_ne | done | done]).
  destruct (take k l) as [|c x] eqn:Ex.
  { exists (b ++ junk), s1. rewrite hits_none, app_nil_r by by apply Hend. split; [reflexivity|]. split; [reflexivity|]. split; [exact Hlen|]. exact Hs1. }
  assert (0 < k)%nat as Hk0 by (apply (f_equal length) in Ex; rewrite length_take in Ex; cbn in Ex; lia).
  rewrite <- Ex in *. clear Ex c x. set (x := take k l) in *. assert (l = x ++ drop k l) as El by (symmetry; apply take_drop). set (l' := drop k l) in *.
  assert (length x = k) as Hk by (unfold x; rewrite length_take; lia).
  destruct (load_buffer b junk x) as (j & -> & Hj); [rewrite length_app in Hlen; lia|].
  rewrite <- length_app. rewrite El, app_assoc in Hok, Hsh |- *. set (t := b ++ x) in *. apply Forall_app in Hok as Hokt. destruct Hokt as [Hokt _].
  destruct (grep_lines_run re (S (length t)) t [] j s1 Hokt ltac:(lia) Hb) as (pre' & E1 & Hlen1). cbn [app length] in E1, Hlen1. rewrite (bind_ret _ _ _ _ _ E1).
  set (s2 := set_out1 _ s1) in *. assert (input s2 !! fd = Some l') as Hi2 by (unfold s2, s1; cbn; apply lookup_insert_eq).
  assert (length l' + k = length l)%nat as Hl' by (unfold l'; rewrite length_drop; lia).
  assert (same_but_out fd s s2) as Hs2 by exact Hs1. assert (length (pre' ++ rest_of t ++ 0 :: j) = BUFSIZE) as Hbuf.
  { assert (length t = length b + length x)%nat by apply length_app. rewrite !length_app. rewrite length_app in Hlen. cbn [length] in *. lia. }
  assert (out1 s2 = out1 s ++ hits re t) as Ho2 by done. apply Forall_app in Hok as [_ Hokl].
  destruct (lines_split t) as (y & Ey & Hrest & Hy). rewrite hits_app, (app_assoc (out1 s)), <- Ho2.
  assert (forall s', same_but_out fd s2 s' -> same_but_out fd s s') as Htr.
  { intros s' (H1 & H2 & H3). destruct Hs2 as (H4 & H5 & H6). split_and!; [intros q Hq; rewrite H1, H4 by done; done | congruence..]. }
  destruct (Nat.eqb_spec (length pre') 0) as [Hp|Hp].
  - cbn [Nat.eqb]. assert (no_nl t) as Ht by (apply Hy; apply nil_length_inv; apply (f_equal length) in Ey; rewrite length_app in Ey; lia).
    assert (no_nl l' \/ l' = []) as Hl0.
    { destruct (decide (l' = [])) as [|Hne]; [by right | left]. assert (0 < length l')%nat by (destruct l'; [done | cbn; lia]).
      assert (no_nl (t ++ l')) as Htl by (apply short_full; [done | unfold t; rewrite length_app; lia | done]). unfold no_nl in *. rewrite not_elem_of_app in Htl. tauto. }
    assert (no_nl l') as Hl1 by (destruct Hl0 as [| ->]; [done | by apply not_elem_of_nil]).
    destruct (IH s2 l' [] (pre' ++ rest_of t ++ 0 :: j)) as (buf' & s' & E2 & Ho & Hb' & Hs');
      [done.. | unfold short; cbn [app]; by rewrite (proj1 (lines_none l' Hl1)) | apply not_elem_of_nil | done | cbn; unfold BUFSIZE; lia | lia|].
    exists buf', s'. split; [exact E2|]. rewrite Ho. cbn [app]. rewrite (proj2 (lines_none t Ht)).
    rewrite !hits_none; [| unfold no_nl; apply not_elem_of_app; by split | done]. split_and!; [done | done | by apply Htr].
  - rewrite (proj2 (Nat.eqb_neq (length t) 0)) by lia. replace (length t - length pre')%nat with (length (rest_of t)) by lia. rewrite keep_tail.
    destruct (IH s2 l' (rest_of t) (drop (length (rest_of t)) (pre' ++ rest_of t ++ 0 :: j))) as (buf' & s' & E2 & Ho & Hb' & Hs'); try done.
    + apply Forall_app. split; [|done]. rewrite Ey in Hokt. by apply Forall_app in Hokt as [_ ?].
    + by apply short_rest.
    + rewrite length_app, length_drop, Hbuf. rewrite !length_app in Hbuf. lia.
    + rewrite !length_app in Hbuf. cbn [length] in Hbuf. lia.
    + lia.
    + exists buf', s'. split_and!; try done. by apply Htr.
Qed.

(** C40: on a file in which no byte is NUL and every line is shorter than 1023
    bytes, and whose reads give all that is asked for as long as it lasts,
    [grep] writes exactly the lines that match, in order and complete; the
    bytes after the last newline are not a line.  A read that gives less, as
    from a pipe or the console, is not covered: see [grep_loses_piece]. *)
Theorem grep_prints re fd buf s l :
  input s !! fd = Some l -> avail s = [] -> broken s = false -> length buf = BUFSIZE -> text_ok l -> short l ->
  exists buf' s', grep re fd buf s = Ret buf' s' /\ out1 s' = out1 s ++ hits re l /\ length buf' = BUFSIZE /\ same_but_out fd s s'.
Proof.
  intros Hi Ha Hb Hl Hok Hs. unfold grep. apply (grep_loop_run re fd (S (left fd s)) s l [] buf); try done.
  - apply not_elem_of_nil.
  - cbn. unfold BUFSIZE. lia.
  - unfold left. rewrite Hi. lia.
Qed.

Definition demo_text : list Z := str "one" ++ [10] ++ str "two" ++ [10] ++ str "three" ++ [10] ++ str "four".

Lemma grep_prints_witness :
  exists buf' s', grep (str "^t.*e*$") 0 (replicate BUFSIZE 0) (mk_ust {[0 := demo_text]} [] ∅ [] [] false) = Ret buf' s' /\
    out1 s' = str "two" ++ [10] ++ str "three" ++ [10].
Proof.
  destruct (grep_prints (str "^t.*e*$") 0 (replicate BUFSIZE 0) (mk_ust {[0 := demo_text]} [] ∅ [] [] false) demo_text) as (buf' & s' & E & Ho & _).
  - reflexivity.
  - reflexivity.
  - reflexivity.
  - reflexivity.
  - repeat constructor; discriminate.
  - repeat constructor.
  - exists buf', s'. split; [exact E|]. rewrite Ho. vm_compute. reflexivity.
Defined.

(** A line that arrives in two pieces loses the first. *)
Lemma grep_loses_piece :
  let s := mk_ust {[0 := str "match" ++ [10]]} [2%nat] ∅ [] [] false in
  match grep (str "match") 0 (replicate BUFSIZE 0) s with Ret _ s' => out1 s' = [] | _ => False end.
Proof. vm_compute. reflexivity. Qed.
