(* ===== verification/Kbd.v ===== *)
(** * The keyboard (kbd.c, kbd.h)

    [kbdgetc] turns the scan codes of a PC keyboard into characters, keeping
    the modifiers in [shift].  Pressing and releasing the keys of a text, with
    shift where the text needs it, gives back the text. *)

From S2P Require Import Prelude.

Definition NO : Z := 0.
Definition SHIFT : Z := 1.
Definition CTL : Z := 2.
Definition ALT : Z := 4.
Definition CAPSLOCK : Z := 8.
Definition NUMLOCK : Z := 16.
Definition SCROLLLOCK : Z := 32.
Definition E0ESC : Z := 64.

Definition KEY_HOME : Z := 224.
Definition KEY_END : Z := 225.
Definition KEY_UP : Z := 226.
Definition KEY_DN : Z := 227.
Definition KEY_LF : Z := 228.
Definition KEY_RT : Z := 229.
Definition KEY_PGUP : Z := 230.
Definition KEY_PGDN : Z := 231.
Definition KEY_INS : Z := 232.
Definition KEY_DEL : Z := 233.

(** A table of 256 entries: its first rows, then the entries given by index;
    the rest are zero. *)
Definition table (rows : list Z) (entries : list (Z * Z)) (i : Z) : Z :=
  match rows !! Z.to_nat i with
  | Some c => c
  | None => default 0 (snd <$> find (fun p => fst p =? i) entries)
  end.

Definition shiftcode : Z -> Z :=
  table [] [(29, CTL); (42, SHIFT); (54, SHIFT); (56, ALT); (157, CTL); (184, ALT)].
Definition togglecode : Z -> Z := table [] [(58, CAPSLOCK); (69, NUMLOCK); (70, SCROLLLOCK)].

Definition keypad : list Z :=
  replicate 7 NO ++ str "7" ++
  str "89-456+1" ++
  str "230." ++ replicate 4 NO.
Definition cursor_keys : list (Z * Z) :=
  [(200, KEY_UP); (208, KEY_DN); (201, KEY_PGUP); (209, KEY_PGDN); (203, KEY_LF); (205, KEY_RT);
   (151, KEY_HOME); (207, KEY_END); (210, KEY_INS); (211, KEY_DEL)].

Definition normalmap : Z -> Z :=
  table ([NO; 27] ++ str "123456" ++
         str "7890-=" ++ [8; 9] ++
         str "qwertyui" ++
         str "op[]" ++ [10; NO] ++ str "as" ++
         str "dfghjkl;" ++
         str "'`" ++ [NO] ++ str "\zxcv" ++
         str "bnm,./" ++ [NO] ++ str "*" ++
         [NO] ++ str " " ++ replicate 6 NO ++ keypad)
    ((156, 10) :: (181, 47) :: cursor_keys).

Definition shiftmap : Z -> Z :=
  table ([NO; 27] ++ str "!@#$%^" ++
         str "&*()_+" ++ [8; 9] ++
         str "QWERTYUI" ++
         str "OP{}" ++ [10; NO] ++ str "AS" ++
         str "DFGHJKL:" ++
         [34] ++ str "~" ++ [NO] ++ str "|ZXCV" ++
         str "BNM<>?" ++ [NO] ++ str "*" ++
         [NO] ++ str " " ++ replicate 6 NO ++ keypad)
    ((156, 10) :: (181, 47) :: cursor_keys).

(** [C(x)], as an [uchar]. *)
Definition C (x : Z) : Z := u8 (x - 64).
Definition ctlmap : Z -> Z :=
  table (replicate 16 NO ++
         (C <$> str "QWERTYUI") ++
         (C <$> str "OP") ++ [NO; NO; 13; NO] ++ (C <$> str "AS") ++
         (C <$> str "DFGHJKL") ++ [NO] ++
         [NO; NO; NO] ++ (C <$> str "\ZXCV") ++
         (C <$> str "BNM") ++ [NO; NO] ++ (C <$> str "/") ++ [NO; NO])
    ((156, 13) :: (181, C 47) :: cursor_keys).

Definition charcode (m : Z) : Z -> Z :=
  if m =? 0 then normalmap else if m =? SHIFT then shiftmap else ctlmap.

(** The bytes waiting in the controller, and the modifiers. *)
Record keyboard := Keyboard { kbdata : list Z; shift : Z }.

(** One scan code: the character (0 for none) and the new modifiers. *)
Definition kbd_code (shift data : Z) : Z * Z :=
  if data =? 224 then (0, Z.lor shift E0ESC)
  else if negb (Z.land data 128 =? 0) then
    let data := if negb (Z.land shift E0ESC =? 0) then data else Z.land data 127 in
    (0, Z.land shift (Z.lnot (Z.lor (shiftcode data) E0ESC)))
  else
    let '(data, shift) :=
      if negb (Z.land shift E0ESC =? 0) then (Z.lor data 128, Z.land shift (Z.lnot E0ESC)) else (data, shift) in
    let shift := Z.lxor (Z.lor shift (shiftcode data)) (togglecode data) in
    let c := charcode (Z.land shift (Z.lor CTL SHIFT)) data in
    let c :=
      if negb (Z.land shift CAPSLOCK =? 0) then
        if (97 <=? c) && (c <=? 122) then c + (65 - 97)
        else if (65 <=? c) && (c <=? 90) then c + (97 - 65)
        else c
      else c in
    (c, shift).

Definition kbdgetc : M keyboard Z := fun k =>
  match kbdata k with
  | [] => Ret (-1) k
  | data :: q => let '(c, sh) := kbd_code (shift k) data in Ret c (Keyboard q sh)
  end.

(** ** Typing a text *)

(** The characters of a sequence of codes, and the modifiers after it. *)
Fixpoint decode (sh : Z) (codes : list Z) : list Z * Z :=
  match codes with
  | [] => ([], sh)
  | d :: codes => let '(c, sh) := kbd_code sh d in let '(cs, sh) := decode sh codes in (c :: cs, sh)
  end.

(** The keys of a US keyboard, row by row: the code (set 1) of the first key,
    what is printed on the keys and what shift makes of it. *)
Definition us_layout : list (Z * (list Z * list Z)) :=
  [(2, (str "1234567890-=", str "!@#$%^&*()_+"));
   (16, (str "qwertyuiop[]", str "QWERTYUIOP{}"));
   (28, ([10], []));
   (30, (str "asdfghjkl;'", str "ASDFGHJKL:" ++ [34]));
   (41, (str "`", str "~"));
   (43, (str "\", str "|"));
   (44, (str "zxcvbnm,./", str "ZXCVBNM<>?"));
   (57, (str " ", []))].

Definition in_row (c code : Z) (row : list Z) : option Z :=
  (fun p => code + Z.of_nat (fst p)) <$> list_find (fun x => x = c) row.

(** The code of the key of [c], and whether shift is needed. *)
Fixpoint key_of (c : Z) (rows : list (Z * (list Z * list Z))) : option (Z * bool) :=
  match rows with
  | [] => None
  | (code, (lower, upper)) :: rows =>
      match in_row c code lower, in_row c code upper with
      | Some k, _ => Some (k, false)
      | None, Some k => Some (k, true)
      | None, None => key_of c rows
      end
  end.

(** Press and release the key of [c], with the left shift key held if [c]
    needs it; a key that is released sends its code with the top bit set. *)
Definition strokes (c : Z) : list Z :=
  match key_of c us_layout with
  | Some (k, false) => [k; k + 128]
  | Some (k, true) => [42; k; k + 128; 42 + 128]
  | None => []
  end.

Definition typeable (c : Z) : Prop := 32 <= c <= 126 \/ c = 10.

Lemma decode_app sh a b :
  decode sh (a ++ b) = (fst (decode sh a) ++ fst (decode (snd (decode sh a)) b), snd (decode (snd (decode sh a)) b)).
Proof.
  revert sh. induction a as [|d a IH]; intros sh; cbn [app decode fst snd].
  - by destruct (decode sh b).
  - destruct (kbd_code sh d) as [c sh1]. rewrite IH. by destruct (decode sh1 a).
Qed.

Lemma decode_length sh codes : length (fst (decode sh codes)) = length codes.
Proof.
  revert sh. induction codes as [|d codes IH]; intros sh; cbn; [done|].
  destruct (kbd_code sh d) as [c sh1]. specialize (IH sh1). destruct (decode sh1 codes). cbn in *. lia.
Qed.

(** The key of [c] gives [c] once, and no other character. *)
Definition strokes_ok (c : Z) : bool :=
  let '(cs, sh) := decode 0 (strokes c) in bool_decide (filter (fun c => c <> 0) cs = [c]) && (sh =? 0).

Lemma strokes_correct c :
  typeable c -> filter (fun c => c <> 0) (fst (decode 0 (strokes c))) = [c] /\ snd (decode 0 (strokes c)) = 0.
Proof.
  intros Hc.
  assert (forallb strokes_ok (10 :: (Z.of_nat <$> seq 32 95)) = true) as Hall by (vm_compute; reflexivity).
  rewrite forallb_forall in Hall. specialize (Hall c). unfold strokes_ok in Hall.
  destruct (decode 0 (strokes c)) as [cs sh]. cbn [fst snd].
  assert (In c (10 :: (Z.of_nat <$> seq 32 95))) as Hin.
  { destruct Hc as [Hc| ->]; [right | by left]. apply list_elem_of_In, list_elem_of_fmap.
    exists (Z.to_nat c). split; [lia|]. apply elem_of_seq. lia. }
  specialize (Hall Hin). apply andb_true_iff in Hall as [H1 H2]. apply bool_decide_eq_true in H1. by apply Z.eqb_eq in H2.
Qed.

Lemma decode_text w :
  Forall typeable w ->
  filter (fun c => c <> 0) (fst (decode 0 (w ≫= strokes))) = w /\ snd (decode 0 (w ≫= strokes)) = 0.
Proof.
  induction 1 as [|c w Hc Hw [IH1 IH2]]; [done|]. cbn [mbind list_bind]. fold (w ≫= strokes).
  destruct (strokes_correct c Hc) as [E1 E2]. rewrite decode_app, E2. cbn [fst snd]. split; [|done].
  rewrite filter_app, E1, IH1. done.
Qed.

(** All characters are bytes. *)
Lemma table_byte rows entries i :
  Forall byte rows -> Forall (fun p => byte (snd p)) entries -> byte (table rows entries i).
Proof.
  intros Hr He. unfold table. destruct (rows !! Z.to_nat i) as [c|] eqn:E.
  - exact (Forall_lookup_1 _ _ _ _ Hr E).
  - destruct (find _ entries) as [p|] eqn:Ef; cbn; [|unfold byte; lia].
    apply find_some in Ef as [Hin _]. rewrite Forall_forall in He. apply He. by apply list_elem_of_In.
Qed.

Definition bytesb (l : list Z) : bool := forallb (fun b => (0 <=? b) && (b <? 256)) l.
Lemma bytesb_spec l : bytesb l = true -> Forall byte l.
Proof.
  intros H. apply Forall_forall. intros x Hx. apply list_elem_of_In in Hx.
  unfold bytesb in H. rewrite forallb_forall in H. specialize (H x Hx). btests. unfold byte. lia.
Qed.

Lemma charcode_byte m i : byte (charcode m i).
Proof.
  unfold charcode. destruct (m =? 0); [|destruct (m =? SHIFT)].
  all: apply table_byte; [apply bytesb_spec; vm_compute; reflexivity | repeat constructor; vm_compute; congruence].
Qed.

Lemma kbd_code_byte sh d : byte (fst (kbd_code sh d)).
Proof.
  unfold kbd_code. destruct (d =? 224); [cbn; unfold byte; lia|].
  destruct (negb (Z.land d 128 =? 0)); [cbn; unfold byte; lia|].
  set (x := if negb (Z.land sh E0ESC =? 0) then _ else _). destruct x as [d' sh']. cbn [fst].
  pose proof (charcode_byte (Z.land (Z.lxor (Z.lor sh' (shiftcode d')) (togglecode d')) (Z.lor CTL SHIFT)) d') as Hb.
  set (c := charcode _ d') in *. unfold byte in *.
  destruct (negb _); [|done]. destruct ((97 <=? c) && (c <=? 122)) eqn:E1; btests; [lia|].
  destruct ((65 <=? c) && (c <=? 90)) eqn:E2; btests; lia.
Qed.

Lemma decode_byte sh codes : Forall byte (fst (decode sh codes)).
Proof.
  revert sh. induction codes as [|d codes IH]; intros sh; cbn; [constructor|].
  pose proof (kbd_code_byte sh d) as Hb. destruct (kbd_code sh d) as [c sh1]. specialize (IH sh1).
  destruct (decode sh1 codes). by constructor.
Qed.
