(* ===== verification/Console.v ===== *)
(** * The console (console.c, kbd.c, uart.c)

    Output goes to the serial port and to the text screen; input comes from
    the keyboard and the serial port, is edited in place and read by lines.
    The state has the screen memory and the cursor registers of the CGA
    controller, the serial port, the keyboard controller, and the ring buffer
    [input] whose three 32-bit indices are never reduced modulo its size.  A
    read that finds no line sleeps; it continues, with [dst] the bytes it has
    stored so far, at the test of its loop.  The abstract terminal at the end
    of the file is what the code implements. *)

From S2P Require Import Prelude Proc Format Kbd.

(** ** The hardware *)

Record screen := Screen { crt : list Z; reg14 : Z; reg15 : Z }.
Record serial := Serial { uart : bool; tx : list Z; rx : list Z }.

Definition INPUT_BUF : Z := 128.
Record input := Input { ibuf : list Z; ir : Z; iw : Z; ie : Z }.

Record cst := Cst {
  cons_lock : bool;
  ip_lock : bool;
  panicked : bool;
  scr : screen;
  ser : serial;
  kbd : keyboard;
  inp : input;
  wakeups : list Z;
  cur_killed : bool;
  dst : list Z;
}.

Definition set_lock b s := Cst b (ip_lock s) (panicked s) (scr s) (ser s) (kbd s) (inp s) (wakeups s) (cur_killed s) (dst s).
Definition set_ip b s := Cst (cons_lock s) b (panicked s) (scr s) (ser s) (kbd s) (inp s) (wakeups s) (cur_killed s) (dst s).
Definition set_scr x s := Cst (cons_lock s) (ip_lock s) (panicked s) x (ser s) (kbd s) (inp s) (wakeups s) (cur_killed s) (dst s).
Definition set_ser x s := Cst (cons_lock s) (ip_lock s) (panicked s) (scr s) x (kbd s) (inp s) (wakeups s) (cur_killed s) (dst s).
Definition set_kbd x s := Cst (cons_lock s) (ip_lock s) (panicked s) (scr s) (ser s) x (inp s) (wakeups s) (cur_killed s) (dst s).
Definition set_inp x s := Cst (cons_lock s) (ip_lock s) (panicked s) (scr s) (ser s) (kbd s) x (wakeups s) (cur_killed s) (dst s).
Definition set_wakeups x s := Cst (cons_lock s) (ip_lock s) (panicked s) (scr s) (ser s) (kbd s) (inp s) x (cur_killed s) (dst s).
Definition set_dst x s := Cst (cons_lock s) (ip_lock s) (panicked s) (scr s) (ser s) (kbd s) (inp s) (wakeups s) (cur_killed s) x.

Definition acquire_cons : M cst unit := fun s =>
  if cons_lock s then Panic "acquire" else Ret tt (set_lock true s).
Definition release_cons : M cst unit := fun s =>
  if cons_lock s then Ret tt (set_lock false s) else Panic "release".
(** The lock of the device's inode, released while a reader waits. *)
Definition iunlock_ip : M cst unit := fun s =>
  if ip_lock s then Ret tt (set_ip false s) else Panic "iunlock".
Definition chan_ip : Z := 1.
Definition ilock_ip : M cst unit := fun s =>
  if ip_lock s then Sleep chan_ip s else Ret tt (set_ip true s).

(** ** Output *)

Definition BACKSPACE : Z := 256.

Definition crt_set (i v : Z) : M screen unit := fun s =>
  if (0 <=? i) && (i <? Z.of_nat (length (crt s))) then Ret tt (Screen (aset (crt s) i v) (reg14 s) (reg15 s))
  else undefined s.

(** [memmove(crt, crt+80, sizeof(crt[0])*23*80)], then the memset from [pos]. *)
Definition scroll (pos : Z) : M screen unit := fun s =>
  if (1920 <=? length (crt s))%nat then
    let m := splice 0 (slice 80 1840 (crt s)) (crt s) in
    Ret tt (Screen (splice (Z.to_nat pos) (replicate (Z.to_nat (1920 - pos)) 0) m) (reg14 s) (reg15 s))
  else undefined s.

(** The character at the cursor: the new position. *)
Definition cga_place (c pos : Z) : M screen Z :=
  if c =? 10 then ret (pos + (80 - pos mod 80))
  else if c =? BACKSPACE then ret (if 0 <? pos then pos - 1 else pos)
  else crt_set pos (Z.lor (Z.land c 255) 1792) ;; ret (pos + 1).

Definition cgaputc (c : Z) : M screen unit :=
  let! pos := reads (fun s => Z.lor (Z.shiftl (reg14 s) 8) (reg15 s)) in
  let! pos := cga_place c pos in
  if (pos <? 0) || (25 * 80 <? pos) then panic "pos under/overflow"
  else
    let! pos := if 24 <=? pos / 80 then scroll (pos - 80) ;; ret (pos - 80) else ret pos in
    modify (fun s => Screen (crt s) (u8 (Z.shiftr pos 8)) (u8 pos)) ;;
    crt_set pos (Z.lor 32 1792).

(** The wait for the transmitter, bounded by 128 tries, has no effect here. *)
Definition uartputc (c : Z) : M serial unit := fun s =>
  if negb (uart s) then Ret tt s else Ret tt (Serial (uart s) (tx s ++ [u8 c]) (rx s)).

Definition on_scr {A} (m : M screen A) : M cst A := zoom scr set_scr m.
Definition on_ser {A} (m : M serial A) : M cst A := zoom ser set_ser m.
Definition on_kbd {A} (m : M keyboard A) : M cst A := zoom kbd set_kbd m.

Definition consputc (c : Z) : M cst unit :=
  let! p := reads panicked in
  if p then hang
  else
    (if c =? BACKSPACE then on_ser (uartputc 8) ;; on_ser (uartputc 32) ;; on_ser (uartputc 8)
     else on_ser (uartputc c)) ;;
    on_scr (cgaputc c).

Fixpoint put_all (cs : list Z) : M cst unit :=
  match cs with [] => ret tt | c :: cs => consputc c ;; put_all cs end.

Definition consolewrite (buf : list Z) (n : Z) : M cst Z :=
  if Z.of_nat (length buf) <? n then undefined
  else
    iunlock_ip ;;
    acquire_cons ;;
    put_all ((fun b => Z.land b 255) <$> take (Z.to_nat n) buf) ;;
    release_cons ;;
    ilock_ip ;;
    ret n.

(** ** The process listing *)

Definition state_name (st : procstate) : list Z :=
  str match st with
      | UNUSED => "unused" | EMBRYO => "embryo" | SLEEPING => "sleep "
      | RUNNABLE => "runble" | RUNNING => "run   " | ZOMBIE => "zombie"
      end.

(** The text of [cprintf(" %p", pc[i])] up to the first zero. *)
Fixpoint dump_pcs (pcs : list Z) : option (list Z) :=
  match pcs with
  | [] => Some []
  | pc :: pcs =>
      if pc =? 0 then Some []
      else t ← cprintf (str " %p" ++ [0]) [AInt pc]; (fun t' => t ++ t') <$> dump_pcs pcs
  end.

(** [callerpcs] stands for what [getcallerpcs] finds on the stack of a
    sleeping process. *)
Fixpoint procdump (callerpcs : proc -> list Z) (ps : list proc) : option (list Z) :=
  match ps with
  | [] => Some []
  | p :: ps =>
      if bool_decide (state p = UNUSED) then procdump callerpcs ps
      else
        t1 ← cprintf (str "%d %s %s" ++ [0]) [AInt (pid p); AStr (state_name (state p) ++ [0]); AStr (pname p)];
        t2 ← (if bool_decide (state p = SLEEPING) then dump_pcs (take 10 (callerpcs p)) else Some []);
        t3 ← cprintf (str (String.String (Ascii.ascii_of_nat 10) "") ++ [0]) [];
        (fun t => t1 ++ t2 ++ t3 ++ t) <$> procdump callerpcs ps
  end.

(** ** Input *)

Definition ctl (x : Z) : Z := x - 64.
Definition chan_r : Z := 2.

(** [input.buf[input.e++ % INPUT_BUF] = c] *)
Definition push (c : Z) (i : input) : input :=
  Input (aset (ibuf i) (ie i mod INPUT_BUF) (u8 c)) (ir i) (iw i) (u32 (ie i + 1)).
Definition set_e e (i : input) : input := Input (ibuf i) (ir i) (iw i) e.
Definition on_inp (f : input -> input) : M cst unit := modify (fun s => set_inp (f (inp s)) s).

(** [while(input.e != input.w && input.buf[(input.e-1) % INPUT_BUF] != '\n')];
    [input.e - input.w] decreases, so that many turns are enough. *)
Fixpoint kill_line (fuel : nat) : M cst unit :=
  let! i := reads inp in
  if negb (ie i =? iw i) && negb (aref (ibuf i) (u32 (ie i - 1) mod INPUT_BUF) =? 10) then
    match fuel with
    | O => hang
    | S fuel => on_inp (set_e (u32 (ie i - 1))) ;; consputc BACKSPACE ;; kill_line fuel
    end
  else ret tt.

(** A character of the line, completing it at its end or in a full buffer. *)
Definition console_insert (c : Z) : M cst unit :=
  on_inp (push c) ;;
  consputc c ;;
  let! i := reads inp in
  when ((c =? 10) || (c =? ctl 68) || (ie i =? u32 (ir i + INPUT_BUF)))
    (on_inp (fun i => Input (ibuf i) (ir i) (ie i) (ie i)) ;;
     modify (fun s => set_wakeups (wakeups s ++ [chan_r]) s)).

(** One character; the result tells whether it asked for the listing. *)
Definition console_char (c : Z) : M cst bool :=
  if c =? ctl 80 then ret true
  else if c =? ctl 85 then
    let! i := reads inp in
    kill_line (Z.to_nat (u32 (ie i - iw i))) ;; ret false
  else if (c =? ctl 72) || (c =? 127) then
    let! i := reads inp in
    (if negb (ie i =? iw i) then on_inp (set_e (u32 (ie i - 1))) ;; consputc BACKSPACE else ret tt) ;;
    ret false
  else
    let! i := reads inp in
    (if negb (c =? 0) && (u32 (ie i - ir i) <? INPUT_BUF) then
       console_insert (if c =? 13 then 10 else c)
     else ret tt) ;;
    ret false.

(** [while((c = getc()) >= 0)]; [fuel] bounds the characters of [getc]. *)
Fixpoint console_chars (getc : M cst Z) (fuel : nat) (doprocdump : bool) : M cst bool :=
  let! c := getc in
  if c <? 0 then ret doprocdump
  else match fuel with
       | O => hang
       | S fuel => let! d := console_char c in console_chars getc fuel (doprocdump || d)
       end.

(** [dump] is the text that [procdump] prints when it is called. *)
Definition consoleintr (getc : M cst Z) (fuel : nat) (dump : list Z) : M cst unit :=
  acquire_cons ;;
  let! doprocdump := console_chars getc fuel false in
  release_cons ;;
  when doprocdump (acquire_cons ;; put_all dump ;; release_cons).

Definition uartgetc : M serial Z := fun s =>
  if negb (uart s) then Ret (-1) s
  else match rx s with [] => Ret (-1) s | c :: q => Ret c (Serial (uart s) (tx s) q) end.

Definition uartintr (dump : list Z) : M cst unit := fun s =>
  consoleintr (on_ser uartgetc) (length (rx (ser s))) dump s.

Definition take_char (i : input) : Z * input :=
  (aref (ibuf i) (ir i mod INPUT_BUF), Input (ibuf i) (u32 (ir i + 1)) (iw i) (ie i)).

Definition read_done (target n : Z) : M cst Z := release_cons ;; ilock_ip ;; ret (target - n).

(** [while(n > 0)], with [n] bytes to go (none for a negative count); [sleep]
    leaves with the lock released. *)
Fixpoint consoleread_loop (target : Z) (n : nat) : M cst Z :=
  match n with
  | O => read_done target (Z.min target 0)
  | S n' => fun s =>
      if ir (inp s) =? iw (inp s) then
        if cur_killed s then (release_cons ;; ilock_ip ;; ret (-1)) s
        else Sleep chan_r (set_lock false s)
      else
        let '(c, i) := take_char (inp s) in
        if c =? ctl 68 then
          let i := if Z.of_nat n <? target then Input (ibuf i) (u32 (ir i - 1)) (iw i) (ie i) else i in
          read_done target (Z.of_nat n) (set_inp i s)
        else
          let s := set_dst (dst s ++ [c]) (set_inp i s) in
          if c =? 10 then read_done target (Z.of_nat n') s else consoleread_loop target n' s
  end.

Definition consoleread (n : Z) : M cst Z :=
  iunlock_ip ;;
  acquire_cons ;;
  modify (set_dst []) ;;
  consoleread_loop n (Z.to_nat n).

(** A reader goes on after [sleep] with what it has stored. *)
Definition consoleread_return (n : Z) : M cst Z :=
  acquire_cons ;;
  let! d := reads dst in
  consoleread_loop n (Z.to_nat n - length d).

Definition kbdintr (dump : list Z) : M cst unit := fun s =>
  consoleintr (on_kbd kbdgetc) (length (kbdata (kbd s))) dump s.

(** ** The abstract terminal

    Lines that were completed and not yet read, the line being edited, the
    bytes sent on the serial port, and the text of the screen up to the
    cursor, row after row. *)

Record term := Term { ready : list Z; line : list Z; sent : list Z; text : list Z }.

Definition blank : Z := 1824.
Definition cell (c : Z) : Z := Z.lor (Z.land c 255) 1792.

(** Every row has 80 columns; the top row goes when the cursor leaves row 23. *)
Definition screen_put (c : Z) (t : list Z) : list Z :=
  let t :=
    if c =? 10 then t ++ replicate (80 - length t mod 80) blank
    else if c =? BACKSPACE then take (length t - 1) t
    else t ++ [cell c] in
  if (1920 <=? length t)%nat then drop 80 t else t.
Definition serial_put (c : Z) : list Z := if c =? BACKSPACE then [8; 32; 8] else [u8 c].

Definition echo (c : Z) (t : term) : term :=
  Term (ready t) (line t) (sent t ++ serial_put c) (screen_put c (text t)).
Definition echoes (cs : list Z) (t : term) : term := foldl (fun t c => echo c t) t cs.
Definition set_lines rd ln (t : term) : term := Term rd ln (sent t) (text t).

(** A key: listing, kill line, erase, or a character of the line. *)
Definition key (c : Z) (t : term) : term :=
  if c =? ctl 80 then t
  else if c =? ctl 85 then echoes (replicate (length (line t)) BACKSPACE) (set_lines (ready t) [] t)
  else if (c =? ctl 72) || (c =? 127) then
    match line t with
    | [] => t
    | _ => echo BACKSPACE (set_lines (ready t) (take (length (line t) - 1) (line t)) t)
    end
  else if negb (c =? 0) && (length (ready t ++ line t) <? 128)%nat then
    let c := if c =? 13 then 10 else c in
    let ln := line t ++ [c] in
    if (c =? 10) || (c =? ctl 68) || (length (ready t ++ ln) =? 128)%nat
    then echo c (set_lines (ready t ++ ln) [] t)
    else echo c (set_lines (ready t) ln t)
  else t.

Definition keys (cs : list Z) (t : term) : term := foldl (fun t c => key c t) t cs.

(** What a read of at most [n] bytes takes from the completed lines: the bytes
    up to a newline, or to a ^D, which is consumed only when it comes first.
    [None] if the read has to wait for more. *)
Fixpoint read_line (first : bool) (n : nat) (rd : list Z) : list Z * option (list Z) :=
  match n, rd with
  | O, _ => ([], Some rd)
  | _, [] => ([], None)
  | S n, c :: rd' =>
      if c =? ctl 68 then ([], Some (if first then rd' else rd))
      else if c =? 10 then ([c], Some rd')
      else let '(bs, r) := read_line false n rd' in (c :: bs, r)
  end.

(** The bytes that [read_line] leaves: all it has taken are gone also when it waits. *)
Definition left_over (r : option (list Z)) : list Z := default [] r.

(** ** The implementation of the terminal *)

Definition view (v : Z) : Z := if v =? 0 then blank else v.

(** The first 24 rows of the memory hold [t] and blanks. *)
Definition displays (m t : list Z) : Prop :=
  (1920 <= length m)%nat /\ (length t <= 1920)%nat /\
  forall i v, (i < 1920)%nat -> m !! i = Some v -> view v = default blank (t !! i).

Definition shows (s : screen) (t : list Z) : Prop :=
  displays (crt s) t /\ (length t < 1920)%nat /\
  reg14 s = Z.of_nat (length t) / 256 /\ reg15 s = Z.of_nat (length t) mod 256.

Definition holds (i : input) (rd ln : list Z) : Prop :=
  length (ibuf i) = 128%nat /\ 0 <= ir i < 2 ^ 32 /\ 0 <= iw i < 2 ^ 32 /\ 0 <= ie i < 2 ^ 32 /\
  u32 (iw i - ir i) = Z.of_nat (length rd) /\ u32 (ie i - iw i) = Z.of_nat (length ln) /\
  (length (rd ++ ln) <= 128)%nat /\
  forall k x, (rd ++ ln) !! k = Some x -> aref (ibuf i) ((ir i + Z.of_nat k) mod 128) = x.

Definition outputs (s : cst) (t : term) : Prop :=
  panicked s = false /\ shows (scr s) (text t) /\ (uart (ser s) = true -> tx (ser s) = sent t).
Definition implements (s : cst) (t : term) : Prop :=
  outputs s t /\ holds (inp s) (ready t) (line t) /\ Forall (fun c => c <> 10) (line t).

Lemma view_cell c : view (cell c) = cell c.
Proof.
  unfold view. destruct (cell c =? 0) eqn:E; btests; [|done].
  assert (Z.testbit (cell c) 8 = true) as Hb by (unfold cell; rewrite Z.lor_spec; apply orb_true_r).
  rewrite E in Hb. done.
Qed.

Lemma displays_set m t c :
  displays m t -> (length t < 1920)%nat ->
  displays (<[length t := cell c]> m) (t ++ [cell c]).
Proof.
  intros (Hm & Ht & H) Hlt. split; [by rewrite length_insert|]. split; [rewrite length_app; cbn; lia|].
  intros i v Hi Hv. destruct (decide (i = length t)) as [->|Hne].
  - rewrite list_lookup_insert_eq in Hv by lia. injection Hv as <-.
    by rewrite lookup_app_r, Nat.sub_diag, view_cell by lia.
  - rewrite list_lookup_insert_ne in Hv by done. rewrite (H i v Hi Hv). destruct (decide (i < length t)%nat).
    + by rewrite lookup_app_l by lia.
    + rewrite lookup_app_r by lia. rewrite (proj2 (lookup_ge_None t i)) by lia.
      replace (i - length t)%nat with (S (i - length t - 1)) by lia. done.
Qed.

Lemma displays_blanks m t k :
  displays m t -> (length t + k <= 1920)%nat -> displays m (t ++ replicate k blank).
Proof.
  intros (Hm & Ht & H) Hk. split; [done|]. split; [rewrite length_app, length_replicate; lia|].
  intros i v Hi Hv. rewrite (H i v Hi Hv). destruct (decide (i < length t)%nat).
  - by rewrite lookup_app_l by lia.
  - rewrite lookup_app_r by lia. rewrite (proj2 (lookup_ge_None t i)) by lia.
    destruct (decide (i - length t < k)%nat); [by rewrite lookup_replicate_2 by lia|].
    by rewrite (proj2 (lookup_ge_None _ _)) by (rewrite length_replicate; lia).
Qed.

(** Writing a blank at the cursor drops what is to its right by at most one cell. *)
Lemma displays_erase m t k :
  displays m t -> (k < 1920)%nat -> (length t <= S k)%nat -> displays (<[k := blank]> m) (take k t).
Proof.
  intros (Hm & Ht & H) Hk Hlen. split; [by rewrite length_insert|]. split; [rewrite length_take; lia|].
  intros i v Hi Hv. destruct (decide (i = k)) as [->|Hne].
  - rewrite list_lookup_insert_eq in Hv by lia. injection Hv as <-. by rewrite lookup_take_ge by lia.
  - rewrite list_lookup_insert_ne in Hv by done. rewrite (H i v Hi Hv). destruct (decide (i < k)%nat).
    + by rewrite lookup_take_lt by lia.
    + rewrite lookup_take_ge by lia. by rewrite (proj2 (lookup_ge_None t i)) by lia.
Qed.

Lemma displays_scroll m t :
  displays m t -> length t = 1920%nat ->
  displays (splice 1840 (replicate 80 0) (splice 0 (slice 80 1840 m) m)) (drop 80 t).
Proof.
  intros (Hm & Ht & H) Hl.
  assert (length (slice 80 1840 m) = 1840%nat) as Hs by (apply length_slice; lia).
  assert (length (splice 0 (slice 80 1840 m) m) = length m) as Hs2 by (apply length_splice; lia).
  split; [rewrite length_splice; rewrite ?length_replicate; lia|]. split; [rewrite length_drop; lia|].
  intros i v Hi. rewrite lookup_splice by (rewrite length_replicate; lia). rewrite length_replicate.
  rewrite lookup_drop. case_decide.
  - rewrite lookup_replicate_2 by lia. intros [= <-]. by rewrite (proj2 (lookup_ge_None t _)) by lia.
  - rewrite lookup_splice by lia. rewrite decide_True by lia. rewrite lookup_slice, decide_True by lia.
    intros Hv. rewrite Nat.sub_0_r in Hv. apply (H (80 + i)%nat v); [lia | done].
Qed.

Lemma regs_pos n : Z.lor (Z.shiftl (n / 256) 8) (n mod 256) = n.
Proof.
  rewrite Z.shiftl_mul_pow2 by lia. change (2 ^ 8) with 256.
  pose proof (Z.mod_pos_bound n 256 ltac:(lia)) as Hb. pose proof (Z.div_mod n 256 ltac:(lia)) as Hd.
  pose proof (Z.add_lor_land (n / 256 * 256) (n mod 256)) as Ha.
  assert (Z.land (n / 256 * 256) (n mod 256) = 0) as Hl; [|lia].
  apply Z.bits_inj'. intros k Hk. rewrite Z.land_spec, Z.bits_0.
  destruct (Z.lt_ge_cases k 8).
  - change 256 with (2 ^ 8) at 2. rewrite Z.mul_pow2_bits_low by lia. done.
  - change 256 with (2 ^ 8). rewrite (Z.mod_pow2_bits_high n 8 k) by lia. apply andb_false_r.
Qed.

(** The cursor is moved to [length t], where a blank is written. *)
Lemma cursor_run m k t a b :
  displays m t -> (k < 1920)%nat -> (length t <= S k)%nat ->
  exists s', (modify (fun s => Screen (crt s) (u8 (Z.shiftr (Z.of_nat k) 8)) (u8 (Z.of_nat k))) ;;
              crt_set (Z.of_nat k) (Z.lor 32 1792)) (Screen m a b) = Ret tt s' /\
    (length (take k t) = k -> shows s' (take k t)).
Proof.
  intros Hd Hk Hl. pose proof Hd as (Hm & _ & _).
  unfold bind, modify, crt_set. cbn [crt reg14 reg15].
  rewrite (proj2 (Z.leb_le 0 (Z.of_nat k))), (proj2 (Z.ltb_lt (Z.of_nat k) (Z.of_nat (length m)))) by lia. cbn [andb].
  eexists. split; [done|]. intros Hlen. unfold shows. cbn [crt reg14 reg15]. unfold aset. rewrite Nat2Z.id, Hlen.
  split; [by apply (displays_erase m t k)|]. split; [lia|].
  rewrite Z.shiftr_div_pow2 by lia. unfold u8. change (2 ^ 8) with 256. split; [|done].
  apply Z.mod_small. split; [apply Z.div_pos; lia|]. apply Z.div_lt_upper_bound; lia.
Qed.

(** After the character is placed, at most one row beyond the last. *)
Definition place (c : Z) (t : list Z) : list Z :=
  if c =? 10 then t ++ replicate (80 - length t mod 80) blank
  else if c =? BACKSPACE then take (length t - 1) t
  else t ++ [cell c].

Lemma place_length c t : (length t < 1920)%nat -> (length (place c t) <= 1920)%nat.
Proof.
  intros H. unfold place. destruct (c =? 10); [|destruct (c =? BACKSPACE)].
  - rewrite length_app, length_replicate. pose proof (Nat.div_mod_eq (length t) 80).
    pose proof (Nat.mod_upper_bound (length t) 80 ltac:(lia)). assert (length t / 80 < 24)%nat; [|lia].
    apply Nat.Div0.div_lt_upper_bound. lia.
  - rewrite length_take. lia.
  - rewrite length_app. cbn. lia.
Qed.

Lemma screen_put_place c t :
  screen_put c t = if (1920 <=? length (place c t))%nat then drop 80 (place c t) else place c t.
Proof. done. Qed.

Lemma cga_place_run c m t a b :
  displays m t -> (length t < 1920)%nat ->
  exists m' t', cga_place c (Z.of_nat (length t)) (Screen m a b) =
     Ret (Z.of_nat (length (place c t))) (Screen m' a b) /\
     displays m' t' /\ (length t' <= S (length (place c t)))%nat /\ take (length (place c t)) t' = place c t.
Proof.
  intros Hd Hlt. pose proof Hd as (Hm & _ & _). pose proof (place_length c t Hlt) as Hpl.
  unfold cga_place, place in *. destruct (c =? 10).
  - exists m, (t ++ replicate (80 - length t mod 80) blank). rewrite length_app, length_replicate in Hpl |- *.
    split; [|split; [by apply displays_blanks|split; [len|apply take_ge; len]]]. unfold ret. do 2 f_equal.
    pose proof (Nat.mod_upper_bound (length t) 80 ltac:(lia)).
    rewrite Nat2Z.inj_add, Nat2Z.inj_sub, Nat2Z.inj_mod by lia. done.
  - destruct (c =? BACKSPACE).
    + exists m, t. rewrite length_take. split; [|split; [done|split; [lia|f_equal; lia]]].
      unfold ret. do 2 f_equal. destruct (0 <? _) eqn:E0; btests; lia.
    + exists (<[length t := cell c]> m), (t ++ [cell c]).
      split; [|split; [by apply displays_set | split; [lia | apply take_ge; lia]]].
      unfold bind, crt_set. cbn [crt reg14 reg15].
      rewrite (proj2 (Z.leb_le 0 _)), (proj2 (Z.ltb_lt (Z.of_nat (length t)) (Z.of_nat (length m)))) by lia. cbn [andb].
      unfold ret, aset. rewrite Nat2Z.id, length_app. cbn [length]. f_equal. lia.
Qed.

Lemma cgaputc_run c s t :
  shows s t -> exists s', cgaputc c s = Ret tt s' /\ shows s' (screen_put c t).
Proof.
  intros (Hd & Hlt & H14 & H15). destruct s as [m a b]; cbn [crt reg14 reg15] in *.
  pose proof (place_length c t Hlt) as Hpl. rewrite screen_put_place.
  destruct (cga_place_run c m t a b Hd Hlt) as (m' & t' & E & Hd' & Hlen' & Ht').
  unfold cgaputc. rewrite (bind_ret _ _ _ (Z.of_nat (length t)) (Screen m a b)) by (unfold reads; cbn; by rewrite H14, H15, regs_pos).
  rewrite (bind_ret _ _ _ _ _ E).
  rewrite (proj2 (Z.ltb_ge _ 0)), (proj2 (Z.ltb_ge (25 * 80) _)) by lia. cbn [orb].
  destruct (1920 <=? length (place c t))%nat eqn:Es; [apply Nat.leb_le in Es | apply Nat.leb_gt in Es].
  - assert (length (place c t) = 1920%nat) as Hp by lia. rewrite Hp in Hlen', Ht' |- *.
    assert (length t' = 1920%nat) as Hl by (destruct Hd' as (_ & ? & _); pose proof (f_equal length Ht') as Hx; rewrite length_take, Hp in Hx; lia).
    rewrite take_ge in Ht' by lia. subst t'.
    pose proof (displays_scroll _ _ Hd' Hp) as Hds. destruct Hd' as (Hm' & _ & _).
    destruct (cursor_run _ 1840 (drop 80 (place c t)) a b Hds) as (s' & E' & Hs'); [lia | rewrite length_drop; lia |].
    exists s'. split.
    + change (24 <=? Z.of_nat 1920 / 80) with true. cbv iota. change (Z.of_nat 1920 - 80) with (Z.of_nat 1840).
      unfold bind at 1 2. unfold scroll. cbn [crt reg14 reg15]. rewrite (proj2 (Nat.leb_le 1920 _)) by lia.
      change (Z.to_nat (Z.of_nat 1840)) with 1840%nat. change (Z.to_nat (1920 - Z.of_nat 1840)) with 80%nat.
      exact E'.
    + rewrite <- (take_ge (drop 80 (place c t)) 1840) by (rewrite length_drop; lia).
      apply Hs'. rewrite length_take, length_drop. lia.
  - rewrite (proj2 (Z.leb_gt 24 _)) by (apply Z.div_lt_upper_bound; lia). unfold bind at 1, ret.
    destruct (cursor_run m' (length (place c t)) t' a b Hd') as (s' & E' & Hs'); [lia | done |].
    exists s'. split; [exact E'|]. rewrite Ht' in Hs'. by apply Hs'.
Qed.

(** What an operation leaves alone: the locks and the reader's data, and the
    input side of the two devices. *)
Definition keeps (s s' : cst) : Prop :=
  cons_lock s' = cons_lock s /\ ip_lock s' = ip_lock s /\ cur_killed s' = cur_killed s /\ dst s' = dst s.
Definition same_dev (s s' : cst) : Prop :=
  kbd s' = kbd s /\ rx (ser s') = rx (ser s) /\ uart (ser s') = uart (ser s).
Definition keeps_dev (s s' : cst) : Prop := keeps s s' /\ same_dev s s'.

#[export] Instance keeps_trans : Transitive keeps.
Proof. intros s1 s2 s3 (? & ? & ? & ?) (? & ? & ? & ?). repeat split; congruence. Qed.
#[export] Instance keeps_dev_trans : Transitive keeps_dev.
Proof. intros s1 s2 s3 (? & ? & ? & ?) (? & ? & ? & ?). split; [by etrans | repeat split; congruence]. Qed.
#[export] Instance keeps_dev_refl : Reflexive keeps_dev.
Proof. intros s. done. Qed.

(** [consputc] on the serial side. *)
Lemma uartputs_run cs s :
  foldr (fun c m => on_ser (uartputc c) ;; m) (ret tt) cs s =
    Ret tt (set_ser (Serial (uart (ser s)) (if uart (ser s) then tx (ser s) ++ (u8 <$> cs) else tx (ser s)) (rx (ser s))) s).
Proof.
  revert s. induction cs as [|c cs IH]; intros [? ? ? ? [u o i] ? ? ? ? ?].
  - cbn. rewrite app_nil_r. by destruct u.
  - cbn [foldr]. unfold bind at 1. unfold on_ser, zoom, uartputc. cbn [ser uart tx rx].
    destruct u; cbn [negb]; fold (on_ser (A := unit)).
    + change (zoom ser set_ser) with (on_ser (A := unit)). etrans; [apply IH|]. cbn. by rewrite <- app_assoc.
    + etrans; [apply IH|]. done.
Qed.

Lemma consputc_outputs c s t :
  outputs s t ->
  exists s', consputc c s = Ret tt s' /\ outputs s' (echo c t) /\ keeps_dev s s' /\
    inp s' = inp s /\ wakeups s' = wakeups s.
Proof.
  intros (Hp & Hs & Hu). destruct (cgaputc_run c _ _ Hs) as (sc & E & Hsc).
  unfold consputc. unfold bind at 1, reads. rewrite Hp.
  assert ((if c =? BACKSPACE then on_ser (uartputc 8) ;; on_ser (uartputc 32) ;; on_ser (uartputc 8)
           else on_ser (uartputc c)) s =
    Ret tt (set_ser (Serial (uart (ser s)) (if uart (ser s) then tx (ser s) ++ serial_put c else tx (ser s)) (rx (ser s))) s)) as Eu.
  { assert (forall c s, (on_ser (uartputc c) ;; ret tt) s = on_ser (uartputc c) s) as Hr
      by (intros ? x; unfold bind; by destruct (on_ser _ x) as [[]| | |]).
    unfold serial_put. destruct (c =? BACKSPACE).
    - etrans; [|apply (uartputs_run [8; 32; 8])]. cbn [foldr]. unfold bind.
      do 3 (destruct (on_ser _ _) as [[]| | |]; try done).
    - etrans; [|apply (uartputs_run [c])]. cbn [foldr]. symmetry. apply Hr. }
  rewrite (bind_ret _ _ _ _ _ Eu). unfold on_scr, zoom. cbn [scr set_ser]. rewrite E.
  eexists. split; [done|]. split; [|by repeat split].
  split; [done|]. split; [done|]. intros Hu'. cbn in Hu' |- *. by rewrite Hu', Hu.
Qed.

Lemma consputc_run c s t :
  implements s t ->
  exists s', consputc c s = Ret tt s' /\ implements s' (echo c t) /\ keeps_dev s s' /\
    inp s' = inp s /\ wakeups s' = wakeups s.
Proof.
  intros (Ho & Hi & Hl). destruct (consputc_outputs c s t Ho) as (s' & E & H & K & I & W).
  exists s'. split; [done|]. split; [|done]. split; [done|]. by rewrite I.
Qed.

Lemma put_all_run cs : forall s t,
  implements s t ->
  exists s', put_all cs s = Ret tt s' /\ implements s' (echoes cs t) /\ keeps_dev s s' /\
    inp s' = inp s /\ wakeups s' = wakeups s.
Proof.
  induction cs as [|c cs IH]; intros s t Hs; [by exists s|]. cbn [put_all].
  destruct (consputc_run c s t Hs) as (s1 & E1 & H1 & K1 & I1 & W1).
  destruct (IH s1 (echo c t) H1) as (s2 & E2 & H2 & K2 & I2 & W2).
  exists s2. rewrite (bind_ret _ _ _ _ _ E1). split; [done|]. split; [done|]. split; [by etrans|]. split; congruence.
Qed.

(** ** The ring buffer *)

Lemma mod128_ne r a b : 0 <= a -> a < b -> b < a + 128 -> (r + a) mod 128 <> (r + b) mod 128.
Proof.
  intros Ha Hab Hb E. pose proof (Z.div_mod (r + a) 128 ltac:(lia)). pose proof (Z.div_mod (r + b) 128 ltac:(lia)). lia.
Qed.

Lemma u32_step a b n : 0 <= b < 2 ^ 32 -> u32 (b - a) = n -> b = u32 (a + n).
Proof. intros Hb <-. rewrite u32_add_r. replace (a + (b - a)) with b by lia. by rewrite u32_small. Qed.

Lemma u32_dist a b n : 0 <= n < 2 ^ 32 -> b = u32 (a + n) -> u32 (b - a) = n.
Proof. intros Hn ->. rewrite u32_sub_l. replace (a + n - a) with n by lia. by apply u32_small. Qed.

Lemma u32_mod128 z : u32 z mod 128 = z mod 128.
Proof. exact (u32_mod_pow2 z 7 ltac:(lia)). Qed.

Section ring.
Context (i : input).

Lemma holds_indices rd ln :
  holds i rd ln ->
  iw i = u32 (ir i + Z.of_nat (length rd)) /\ ie i = u32 (ir i + Z.of_nat (length (rd ++ ln))).
Proof.
  intros (_ & Hr & Hw & He & Hrw & Hwe & Hl & _). apply u32_step in Hrw, Hwe; try done. split; [done|].
  rewrite Hwe, Hrw, u32_add_l, length_app. f_equal. lia.
Qed.

Lemma holds_space rd ln : holds i rd ln -> u32 (ie i - ir i) = Z.of_nat (length (rd ++ ln)).
Proof.
  intros H. destruct (holds_indices _ _ H) as [_ He]. destruct H as (_ & _ & _ & _ & _ & _ & Hl & _).
  apply u32_dist; [lia | done].
Qed.

Lemma holds_full rd ln :
  holds i rd ln -> (ie i =? u32 (ir i + INPUT_BUF)) = (length (rd ++ ln) =? 128)%nat.
Proof.
  intros H. pose proof (holds_space _ _ H) as Hd. destruct H as (_ & Hr & _ & He & _ & _ & Hl & _).
  destruct (length (rd ++ ln) =? 128)%nat eqn:E; [apply Nat.eqb_eq in E | apply Nat.eqb_neq in E].
  - apply Z.eqb_eq. apply u32_step; [done|]. rewrite Hd, E. done.
  - apply Z.eqb_neq. intros Heq. apply (u32_dist _ _ INPUT_BUF) in Heq; [|done]. unfold INPUT_BUF in Heq. lia.
Qed.

Lemma holds_no_line rd ln : holds i rd ln -> (ie i =? iw i) = match ln with [] => true | _ => false end.
Proof.
  intros (_ & _ & Hw & He & _ & Hd & _ & _). destruct ln as [|x ln].
  - apply Z.eqb_eq. apply u32_step in Hd; [|done]. cbn in Hd. by rewrite Z.add_0_r, u32_small in Hd.
  - apply Z.eqb_neq. intros E. rewrite E, Z.sub_diag in Hd. done.
Qed.

Lemma holds_no_ready rd ln : holds i rd ln -> (ir i =? iw i) = match rd with [] => true | _ => false end.
Proof.
  intros (_ & Hr & Hw & _ & Hd & _ & _ & _). destruct rd as [|x rd].
  - apply Z.eqb_eq. apply u32_step in Hd; [|done]. cbn in Hd. by rewrite Z.add_0_r, u32_small in Hd.
  - apply Z.eqb_neq. intros E. rewrite E, Z.sub_diag in Hd. done.
Qed.

Lemma holds_push rd ln c :
  holds i rd ln -> (length (rd ++ ln) < 128)%nat -> 0 <= c < 256 -> holds (push c i) rd (ln ++ [c]).
Proof.
  intros H Hlt Hc. destruct (holds_indices _ _ H) as [Ew Ee].
  destruct H as (Hb & Hr & Hw & He & Hrw & Hwe & Hl & Hx). unfold holds, push. cbn [ibuf ir iw ie].
  unfold aset. rewrite length_insert. unfold u8. rewrite (Z.mod_small c) by lia.
  assert (length (rd ++ ln ++ [c]) = S (length (rd ++ ln))) as Hlen by (rewrite !length_app; cbn; lia).
  split; [done|]. split; [done|]. split; [done|]. split; [apply u32_range|]. split; [done|]. split; [|split; [lia|]].
  - rewrite u32_sub_l. replace (ie i + 1 - iw i) with (ie i - iw i + 1) by lia. rewrite <- u32_add_l, Hwe, length_app.
    rewrite length_app in Hlt. rewrite u32_small; cbn [length]; lia.
  - intros k x Hk. rewrite app_assoc in Hk. rewrite Ee. unfold INPUT_BUF. rewrite u32_mod128.
    pose proof (Z.mod_pos_bound (ir i + Z.of_nat k) 128 ltac:(lia)).
    pose proof (Z.mod_pos_bound (ir i + Z.of_nat (length (rd ++ ln))) 128 ltac:(lia)).
    unfold aref. apply lookup_app_Some in Hk as [Hk|[Hge Hk]].
    + pose proof (lookup_lt_Some _ _ _ Hk). rewrite list_lookup_insert_ne; [by apply Hx|].
      pose proof (mod128_ne (ir i) (Z.of_nat k) (Z.of_nat (length (rd ++ ln))) ltac:(lia) ltac:(lia) ltac:(lia)). lia.
    + apply list_lookup_singleton_Some in Hk as [Hk ->]. replace k with (length (rd ++ ln)) by lia.
      rewrite list_lookup_insert_eq; [done | lia].
Qed.

Lemma holds_commit rd ln : holds i rd ln -> holds (Input (ibuf i) (ir i) (ie i) (ie i)) (rd ++ ln) [].
Proof.
  intros H. pose proof (holds_space _ _ H) as Hs. destruct H as (Hb & Hr & Hw & He & Hrw & Hwe & Hl & Hx).
  unfold holds. cbn [ibuf ir iw ie]. rewrite app_nil_r, Z.sub_diag. split_and!; try done; lia.
Qed.

Lemma holds_pop rd ln x :
  holds i rd (ln ++ [x]) ->
  holds (set_e (u32 (ie i - 1)) i) rd ln /\ aref (ibuf i) (u32 (ie i - 1) mod INPUT_BUF) = x.
Proof.
  intros H. destruct (holds_indices _ _ H) as [_ Ee].
  destruct H as (Hb & Hr & Hw & He & Hrw & Hwe & Hl & Hx).
  assert (length (rd ++ ln ++ [x]) = S (length (rd ++ ln))) as Hlen by (rewrite !length_app; cbn; lia). split.
  - unfold holds, set_e. cbn [ibuf ir iw ie]. pose proof (u32_range (ie i - 1)). split_and!; try done; try lia.
    + rewrite u32_sub_l. replace (ie i - 1 - iw i) with (ie i - iw i + (-1)) by lia. rewrite <- u32_add_l, Hwe, length_app.
      rewrite !length_app in Hl. cbn [length] in *. rewrite u32_small; lia.
    + intros k y Hk. apply Hx. rewrite app_assoc. by apply lookup_app_l_Some.
  - rewrite Ee, u32_sub_l. unfold INPUT_BUF. rewrite u32_mod128, Hlen.
    replace (ir i + Z.of_nat (S (length (rd ++ ln))) - 1) with (ir i + Z.of_nat (length (rd ++ ln))) by lia.
    apply Hx. rewrite app_assoc, lookup_app_r, Nat.sub_diag by lia. done.
Qed.

Lemma holds_take c rd ln :
  holds i (c :: rd) ln ->
  exists i', take_char i = (c, i') /\ holds i' rd ln /\ Input (ibuf i') (u32 (ir i' - 1)) (iw i') (ie i') = i.
Proof.
  intros (Hb & Hr & Hw & He & Hrw & Hwe & Hl & Hx). exists (snd (take_char i)). unfold take_char. cbn [snd ir iw ie ibuf].
  cbn [app length] in Hl, Hrw. split; [|split].
  - f_equal. rewrite <- (Z.add_0_r (ir i)). apply (Hx 0%nat). done.
  - unfold holds. cbn [ibuf ir iw ie]. pose proof (u32_range (ir i + 1)). split_and!; try done; try lia.
    + rewrite u32_sub_r. replace (iw i - (ir i + 1)) with (iw i - ir i + (-1)) by lia. rewrite <- u32_add_l, Hrw.
      rewrite length_app in Hl. rewrite u32_small; lia.
    + intros k x Hk. rewrite <- (Hx (S k) x Hk). rewrite <- (u32_mod128 (u32 (ir i + 1) + Z.of_nat k)), u32_add_l, u32_mod128.
      do 2 f_equal. lia.
  - rewrite u32_sub_l. replace (ir i + 1 - 1) with (ir i) by lia. rewrite u32_small by done. by destruct i.
Qed.
End ring.

(** ** One character of input *)

Lemma implements_inp s t i rd ln :
  implements s t -> holds i rd ln -> Forall (fun c => c <> 10) ln -> implements (set_inp i s) (set_lines rd ln t).
Proof. intros (Ho & _) Hi Hl. done. Qed.

Lemma kill_line_run fuel : forall s t,
  implements s t -> (length (line t) <= fuel)%nat ->
  exists s', kill_line fuel s = Ret tt s' /\
    implements s' (echoes (replicate (length (line t)) BACKSPACE) (set_lines (ready t) [] t)) /\
    keeps_dev s s' /\ wakeups s' = wakeups s.
Proof.
  induction fuel as [|fuel IH]; intros s t Hs Hf; pose proof Hs as (_ & Hi & Hln);
    cbn [kill_line]; unfold bind at 1, reads; rewrite (holds_no_line _ _ _ Hi).
  all: destruct (line t) as [|x0 l0 _] eqn:El using rev_ind.
  1, 3: exists s; split_and!; [done | by destruct t; cbn in *; subst | reflexivity | done].
  { rewrite length_app in Hf. cbn in Hf. lia. }
  rewrite length_app in Hf. cbn [length] in Hf.
  destruct (holds_pop _ _ _ _ Hi) as [Hpop Hlast]. rewrite Hlast.
  apply Forall_app in Hln as [Hl0 Hx0%Forall_inv].
  assert (match l0 ++ [x0] with [] => true | _ => false end = false) as -> by by destruct l0.
  rewrite (proj2 (Z.eqb_neq x0 10) Hx0). cbn [negb andb].
  unfold bind at 1, on_inp, modify.
  destruct (consputc_run BACKSPACE _ _ (implements_inp s t _ _ _ Hs Hpop Hl0)) as (s1 & E1 & H1 & K1 & I1 & W1).
  rewrite (bind_ret _ _ _ _ _ E1).
  destruct (IH s1 _ H1) as (s2 & E2 & H2 & K2 & W2); [cbn; lia|].
  exists s2. split; [done|]. split.
  - rewrite length_app, Nat.add_comm. exact H2.
  - split; [|by rewrite W2, W1]. etrans; [|exact K2]. exact K1.
Qed.

Lemma console_insert_run c s t :
  implements s t -> 0 <= c < 256 -> (length (ready t ++ line t) < 128)%nat ->
  exists s', console_insert c s = Ret tt s' /\ keeps_dev s s' /\
    implements s' (if (c =? 10) || (c =? ctl 68) || (length (ready t ++ line t ++ [c]) =? 128)%nat
                   then echo c (set_lines (ready t ++ line t ++ [c]) [] t)
                   else echo c (set_lines (ready t) (line t ++ [c]) t)).
Proof.
  intros (Ho & Hi & Hln) Hc Hlt. pose proof (holds_push _ _ _ _ Hi Hlt Hc) as Hpush.
  unfold console_insert. unfold bind at 1, on_inp, modify.
  destruct (consputc_outputs c (set_inp (push c (inp s)) s) (set_lines (ready t) (line t ++ [c]) t) Ho)
    as (s1 & E1 & H1 & K1 & I1 & W1).
  rewrite (bind_ret _ _ _ _ _ E1). unfold bind at 1, reads. rewrite I1. cbn [inp set_inp].
  rewrite (holds_full _ _ _ Hpush).
  destruct ((c =? 10) || (c =? ctl 68) || _) eqn:E; unfold when.
  - unfold bind. eexists. split; [done|]. split; [done|]. split; [done|]. split; [|by constructor].
    cbn [inp set_inp set_wakeups ready line]. rewrite I1. by apply holds_commit.
  - exists s1. split; [done|]. split; [done|]. split; [done|]. rewrite I1. split; [done|].
    btests. apply Forall_app. split; [done|]. by constructor.
Qed.

Lemma console_char_run c s t :
  implements s t -> 0 <= c < 256 ->
  exists s', console_char c s = Ret (c =? ctl 80) s' /\ implements s' (key c t) /\ keeps_dev s s'.
Proof.
  intros Hs Hc. pose proof Hs as (_ & Hi & Hln). unfold console_char, key.
  destruct (c =? ctl 80) eqn:E80; [by exists s|].
  destruct (c =? ctl 85) eqn:E85.
  { unfold bind at 1, reads. destruct (kill_line_run (Z.to_nat (u32 (ie (inp s) - iw (inp s)))) s t Hs) as (s' & E & H & K & _).
    { destruct Hi as (_ & _ & _ & _ & _ & -> & _). lia. }
    exists s'. by rewrite (bind_ret _ _ _ _ _ E). }
  destruct ((c =? ctl 72) || (c =? 127)) eqn:E72; unfold bind at 1, reads.
  { rewrite (holds_no_line _ _ _ Hi). destruct (line t) as [|x0 l0 _] eqn:El using rev_ind; [by exists s|].
    assert (match l0 ++ [x0] with [] => true | _ => false end = false) as -> by by destruct l0. cbn [negb].
    destruct (holds_pop _ _ _ _ Hi) as [Hpop _]. apply Forall_app in Hln as [Hl0 _].
    destruct (consputc_run BACKSPACE _ _ (implements_inp s t _ _ _ Hs Hpop Hl0)) as (s1 & E1 & H1 & K1 & _ & _).
    exists s1. unfold bind at 1 2, on_inp, modify. rewrite E1. split; [done|]. split; [|done].
    rewrite length_app, Nat.add_sub, take_app_length. by destruct l0. }
  rewrite (holds_space _ _ _ Hi).
  assert ((Z.of_nat (length (ready t ++ line t)) <? INPUT_BUF) = (length (ready t ++ line t) <? 128)%nat) as ->.
  { unfold INPUT_BUF. destruct (_ <? 128)%nat eqn:E; [apply Nat.ltb_lt in E | apply Nat.ltb_ge in E]; [apply Z.ltb_lt | apply Z.ltb_ge]; lia. }
  destruct (negb (c =? 0) && (length (ready t ++ line t) <? 128)%nat) eqn:Eok; [|by exists s].
  apply andb_true_iff in Eok as [_ Hlt%Nat.ltb_lt]. btests.
  destruct (console_insert_run (if c =? 13 then 10 else c) s t Hs) as (s' & E & K & Hs');
    [destruct (c =? 13); lia | done |].
  exists s'. by rewrite (bind_ret _ _ _ _ _ E).
Qed.

(** ** Interrupts

    What [consoleintr] relies on in the device it reads: [getc] delivers the
    pending characters one by one, then a negative value, and changes nothing
    else of the console; [residue] is what is left of the devices when all
    characters are taken. *)

Class CharSource {R} (getc : M cst Z) (pending : cst -> list Z) (residue : cst -> R) := {
  getc_char s c cs :
    pending s = c :: cs ->
    exists s', getc s = Ret c s' /\ pending s' = cs /\ residue s' = residue s /\ keeps s s' /\
      (forall t, implements s t -> implements s' t);
  getc_none s : pending s = [] -> exists c, getc s = Ret c s /\ c < 0;
  pending_dev s s' : same_dev s s' -> pending s' = pending s;
  residue_dev s s' : same_dev s s' -> residue s' = residue s;
}.

#[export] Instance uart_source :
  CharSource (on_ser uartgetc) (fun s => if uart (ser s) then rx (ser s) else [])
    (fun s => (kbd s, uart (ser s), if uart (ser s) then [] else rx (ser s))).
Proof.
  split.
  - intros s c cs Hp. unfold on_ser, zoom, uartgetc. destruct (uart (ser s)) eqn:Eu; [|done]. cbn [negb]. rewrite Hp.
    eexists. split; [done|]. cbn [kbd ser set_ser uart rx]. split; [by rewrite ?Eu|]. split; [by rewrite ?Eu|]. split; [done|].
    intros t ((? & ? & Htx) & ?). split; [|done]. split; [done|]. split; [done|]. intros _. by apply Htx.
  - intros s Hp. exists (-1). split; [|lia]. unfold on_ser, zoom, uartgetc. destruct (uart (ser s)) eqn:Eu; cbn [negb].
    + rewrite Hp. by destruct s.
    + by destruct s.
  - intros s s' (_ & -> & ->). done.
  - intros s s' (-> & -> & ->). done.
Qed.

#[export] Instance kbd_source :
  CharSource (on_kbd kbdgetc) (fun s => fst (decode (shift (kbd s)) (kbdata (kbd s))))
    (fun s => (snd (decode (shift (kbd s)) (kbdata (kbd s))), uart (ser s), rx (ser s))).
Proof.
  split.
  - intros s c cs. unfold on_kbd, zoom, kbdgetc. destruct (kbdata (kbd s)) as [|d q]; cbn [decode fst snd]; [done|].
    destruct (kbd_code (shift (kbd s)) d) as [c' sh]. destruct (decode sh q) as [cs' sh'] eqn:Ed. cbn [fst].
    intros [= -> ->]. eexists. split; [done|]. cbn. by rewrite Ed.
  - intros s Hp. exists (-1). split; [|lia]. unfold on_kbd, zoom, kbdgetc.
    destruct (kbdata (kbd s)) as [|d q]; [by destruct s|].
    cbn in Hp. destruct (kbd_code (shift (kbd s)) d) as [c' sh]. by destruct (decode sh q).
  - intros s s' (-> & _). done.
  - intros s s' (-> & -> & ->). done.
Qed.

(** [^P] among the characters asks for the listing, printed last. *)
Definition typed (cs dump : list Z) (t : term) : term :=
  if bool_decide (ctl 80 ∈ cs) then echoes dump (keys cs t) else keys cs t.

Section source.
Context {R} (getc : M cst Z) (pending : cst -> list Z) (residue : cst -> R) `{SRC : !CharSource getc pending residue}.

Lemma console_chars_run cs : forall fuel d s t,
  implements s t -> pending s = cs -> Forall byte cs -> (length cs <= fuel)%nat ->
  exists s', console_chars getc fuel d s = Ret (d || bool_decide (ctl 80 ∈ cs)) s' /\
    implements s' (keys cs t) /\ keeps s s' /\ pending s' = [] /\ residue s' = residue s.
Proof.
  induction cs as [|c cs IH]; intros fuel d s t Hs Hp Hb Hf.
  - destruct (@getc_none _ _ _ _ SRC s Hp) as (c & E & Hc). exists s.
    assert (console_chars getc fuel d s = (if c <? 0 then ret d else match fuel with O => hang | S fuel =>
      let! d0 := console_char c in console_chars getc fuel (d || d0) end) s) as ->
      by (destruct fuel; cbn [console_chars]; by rewrite (bind_ret _ _ _ _ _ E)).
    rewrite (proj2 (Z.ltb_lt c 0)) by done. rewrite orb_false_r. done.
  - destruct (@getc_char _ _ _ _ SRC s c cs Hp) as (s1 & E1 & P1 & R1 & K1 & H1). apply Forall_cons in Hb as [Hc Hb]. unfold byte in Hc.
    destruct fuel as [|fuel]; [cbn in Hf; lia|]. cbn [console_chars]. rewrite (bind_ret _ _ _ _ _ E1).
    rewrite (proj2 (Z.ltb_ge c 0)) by lia.
    destruct (console_char_run c s1 t (H1 t Hs) Hc) as (s2 & E2 & H2 & K2). rewrite (bind_ret _ _ _ _ _ E2).
    destruct (IH fuel (d || (c =? ctl 80)) s2 (key c t) H2) as (s3 & E3 & H3 & K3 & P3 & R3);
      [by rewrite (@pending_dev _ _ _ _ SRC s1 s2 (proj2 K2)) | done | cbn in Hf; lia |].
    exists s3. rewrite E3. split_and!; [|done|etrans; [exact K1|]; etrans; [exact (proj1 K2) | done]|done|by rewrite R3, (@residue_dev _ _ _ _ SRC s1 s2 (proj2 K2))].
    f_equal. rewrite <- orb_assoc. f_equal. rewrite (bool_decide_ext (ctl 80 ∈ c :: cs) (c = ctl 80 \/ ctl 80 ∈ cs)).
    + rewrite bool_decide_or. f_equal. destruct (Z.eqb_spec c (ctl 80)); by rewrite ?bool_decide_eq_true_2, ?bool_decide_eq_false_2 by done.
    + rewrite elem_of_cons. split; intros [?|?]; auto.
Qed.

Lemma consoleintr_run fuel dump s t :
  implements s t -> cons_lock s = false -> Forall byte (pending s) -> (length (pending s) <= fuel)%nat ->
  exists s', consoleintr getc fuel dump s = Ret tt s' /\ implements s' (typed (pending s) dump t) /\
    keeps s s' /\ pending s' = [] /\ residue s' = residue s.
Proof.
  intros Hs Hlk Hb Hf. unfold consoleintr. unfold bind at 1, acquire_cons. rewrite Hlk.
  assert (forall b x, pending (set_lock b x) = pending x) as Hp by (intros; by apply (@pending_dev _ _ _ _ SRC)).
  assert (forall b x, residue (set_lock b x) = residue x) as Hr by (intros; by apply (@residue_dev _ _ _ _ SRC)).
  destruct (console_chars_run (pending s) fuel false (set_lock true s) t Hs (Hp true s) Hb Hf)
    as (s1 & E1 & H1 & (L1 & K1) & P1 & R1).
  rewrite (bind_ret _ _ _ _ _ E1). unfold bind at 1, release_cons. rewrite L1. cbn [cons_lock set_lock orb].
  unfold typed, when. destruct (bool_decide (ctl 80 ∈ pending s)).
  - unfold bind at 1, acquire_cons. cbn [cons_lock set_lock].
    destruct (put_all_run dump (set_lock true (set_lock false s1)) (keys (pending s) t) H1) as (s2 & E2 & H2 & ((L2 & K2) & D2) & _).
    rewrite (bind_ret _ _ _ _ _ E2). cbn [cons_lock set_lock] in L2. rewrite L2. eexists. split; [done|].
    split; [done|]. split.
    + split; [by rewrite Hlk|]. cbn in *. destruct K1 as (? & ? & ?), K2 as (? & ? & ?). split_and!; congruence.
    + by rewrite Hp, Hr, (@pending_dev _ _ _ _ SRC _ _ D2), (@residue_dev _ _ _ _ SRC _ _ D2), !Hp, !Hr, R1, Hr.
  - eexists. split; [done|]. split; [done|]. rewrite Hp, !Hr, R1, Hr. split; [|done]. split; [by rewrite Hlk | done].
Qed.
End source.

(** ** Reads and writes *)

Lemma consolewrite_run bs s t :
  implements s t -> cons_lock s = false -> ip_lock s = true -> Forall byte bs ->
  exists s', consolewrite bs (Z.of_nat (length bs)) s = Ret (Z.of_nat (length bs)) s' /\
    implements s' (echoes bs t) /\ keeps_dev s s'.
Proof.
  intros Hs Hlk Hip Hb. unfold consolewrite. rewrite Z.ltb_irrefl, Nat2Z.id, take_ge by lia.
  unfold bind at 1, iunlock_ip. rewrite Hip. unfold bind at 1, acquire_cons. cbn [cons_lock set_ip]. rewrite Hlk.
  assert ((fun b => Z.land b 255) <$> bs = bs) as ->.
  { clear -Hb. induction Hb as [|b bs Hb _ IH]; cbn; [done|]. f_equal; [|done].
    change 255 with (Z.ones 8). rewrite Z.land_ones by lia. by apply Z.mod_small. }
  destruct (put_all_run bs (set_lock true (set_ip false s)) t Hs) as (s1 & E1 & H1 & ((L1 & I1 & K1) & D1) & _).
  rewrite (bind_ret _ _ _ _ _ E1). unfold bind at 1, release_cons. rewrite L1. cbn [cons_lock set_lock].
  unfold bind at 1, ilock_ip. cbn [ip_lock set_lock]. rewrite I1. cbn [ip_lock set_lock set_ip].
  eexists. split; [done|]. split; [done|]. split; [|done]. split; [by rewrite Hlk|]. split; [by rewrite Hip|]. done.
Qed.

Lemma read_done_run target n s :
  cons_lock s = true -> ip_lock s = false -> read_done target n s = Ret (target - n) (set_ip true (set_lock false s)).
Proof. intros Hl Hi. unfold read_done, bind, release_cons, ilock_ip. rewrite Hl. cbn. by rewrite Hi. Qed.

(** The state after a reader stored [bs] and left [rd]. *)
Definition reader_left (s s' : cst) (bs rd : list Z) (t : term) : Prop :=
  implements s' (set_lines rd (line t) t) /\ dst s' = dst s ++ bs /\ cons_lock s' = false /\
  cur_killed s' = cur_killed s /\ same_dev s s'.

Lemma consoleread_loop_run target n : forall s t,
  implements s t -> cons_lock s = true -> ip_lock s = false -> Z.of_nat n <= target ->
  let '(bs, r) := read_line (Z.of_nat n =? target) n (ready t) in
  exists s', reader_left s s' bs (left_over r) t /\
    consoleread_loop target n s =
      match r with
      | Some _ => Ret (target - Z.of_nat (n - length bs)) s'
      | None => if cur_killed s then Ret (-1) s' else Sleep chan_r s'
      end /\
    ip_lock s' = match r with Some _ => true | None => cur_killed s end.
Proof.
  induction n as [|n IH]; intros s t Hs Hlk Hip Htgt.
  - cbn [read_line consoleread_loop]. rewrite read_done_run by done. eexists. split; [|split; [f_equal; cbn; lia | done]].
    split; [by destruct t|]. split; [cbn; by rewrite app_nil_r|done].
  - pose proof Hs as (Ho & Hi & Hln). cbn [consoleread_loop]. rewrite (holds_no_ready _ _ _ Hi).
    destruct (ready t) as [|c rd] eqn:Erd; cbn [read_line].
    + destruct (cur_killed s) eqn:Ek.
      * unfold bind, release_cons, ilock_ip. rewrite Hlk. cbn [ip_lock set_lock]. rewrite Hip. eexists. split; [|done].
        split; [split; [done|]; split; [done | done]|]. split; [cbn; by rewrite app_nil_r|done].
      * eexists. split; [|done].
        split; [split; [done|]; split; [done | done]|]. split; [cbn; by rewrite app_nil_r|done].
    + destruct (holds_take _ _ _ _ Hi) as (i' & Et & Hi' & Eback). rewrite Et.
      destruct (c =? ctl 68) eqn:Ed.
      * rewrite read_done_run by done. cbn [left_over default].
        eexists. split; [|split; [f_equal; cbn [length]; lia|done]].
        split; [|split; [cbn; by rewrite app_nil_r|done]]. split; [done|]. split; [|done]. cbn [inp set_ip set_lock set_inp].
        destruct (Z.of_nat (S n) =? target) eqn:E; btests.
        -- rewrite (proj2 (Z.ltb_ge _ _)) by lia. done.
        -- rewrite (proj2 (Z.ltb_lt _ _)) by lia. by rewrite Eback.
      * destruct (c =? 10) eqn:E10.
        -- rewrite read_done_run by done. cbn [left_over default].
           eexists. split; [|split; [f_equal; cbn [length]; lia|done]]. split; [done|done].
        -- specialize (IH (set_dst (dst s ++ [c]) (set_inp i' s)) (set_lines rd (line t) t)).
           cbn [ready set_lines] in IH. rewrite (proj2 (Z.eqb_neq (Z.of_nat n) target)) in IH by lia.
           destruct (read_line false n rd) as [bs r]. destruct IH as (s' & (H1 & H2 & H3) & E & I); [done | done | done | lia |].
           exists s'. split; [|split; [exact E|done]]. split; [done|]. split; [|done]. rewrite H2. cbn. by rewrite <- app_assoc.
Qed.

(** ** The console as a service

    The events it takes part in: bytes arrive on the serial port or scan codes
    from the keyboard, each with its interrupt; a process writes, starts to
    read at most [n] bytes, or is woken in such a read with [d] stored. *)

Inductive op :=
| Receive (cs : list Z)
| Scan (codes : list Z)
| Print (bs : list Z)
| Read (n : nat)
| Wake (n : nat) (d : list Z).

Inductive obs := Quiet | Wrote (n : Z) | Got (r : Z) (bs : list Z) | Waits (bs : list Z).

Definition observe_read (m : M cst Z) : M cst obs := fun s =>
  match m s with
  | Ret r s' => Ret (Got r (dst s')) s'
  | Sleep _ s' => Ret (Waits (dst s')) s'
  | Panic msg => Panic msg
  | Hang => Hang
  end.

Definition do_op (dump : list Z) (o : op) : M cst obs := fun s =>
  match o with
  | Receive cs => (uartintr dump ;; ret Quiet) (set_ser (Serial (uart (ser s)) (tx (ser s)) (rx (ser s) ++ cs)) s)
  | Scan codes => (kbdintr dump ;; ret Quiet) (set_kbd (Keyboard (kbdata (kbd s) ++ codes) (shift (kbd s))) s)
  | Print bs => (let! r := consolewrite bs (Z.of_nat (length bs)) in ret (Wrote r)) (set_ip true s)
  | Read n => observe_read (consoleread (Z.of_nat n)) (set_ip true s)
  | Wake n d => observe_read (consoleread_return (Z.of_nat n)) (set_dst d (set_ip false s))
  end.

Fixpoint do_ops (dump : list Z) (os : list op) : M cst (list obs) :=
  match os with
  | [] => ret []
  | o :: os => let! r := do_op dump o in let! rs := do_ops dump os in ret (r :: rs)
  end.

(** The same events on the abstract terminal with the keyboard's modifiers. *)
Definition spec_read (killed : bool) (n : nat) (d : list Z) (t : term) : obs * term :=
  let '(bs, r) := read_line (bool_decide (d = [])) (n - length d) (ready t) in
  (match r with
   | Some _ => Got (Z.of_nat (length (d ++ bs))) (d ++ bs)
   | None => if killed then Got (-1) (d ++ bs) else Waits (d ++ bs)
   end, set_lines (left_over r) (line t) t).

Definition spec_op (port killed : bool) (dump : list Z) (o : op) (t : term) (sh : Z) : obs * term * Z :=
  match o with
  | Receive cs => (Quiet, if port then typed cs dump t else t, sh)
  | Scan codes => let '(cs, sh) := decode sh codes in (Quiet, typed cs dump t, sh)
  | Print bs => (Wrote (Z.of_nat (length bs)), echoes bs t, sh)
  | Read n => (spec_read killed n [] t, sh)
  | Wake n d => (spec_read killed n d t, sh)
  end.

Fixpoint spec_ops (port killed : bool) (dump : list Z) (os : list op) (t : term) (sh : Z) : list obs * term * Z :=
  match os with
  | [] => ([], t, sh)
  | o :: os =>
      let '(r, t, sh) := spec_op port killed dump o t sh in
      let '(rs, t, sh) := spec_ops port killed dump os t sh in (r :: rs, t, sh)
  end.

Definition op_ok (o : op) : Prop :=
  match o with
  | Receive cs => Forall byte cs
  | Scan codes => True
  | Print bs => Forall byte bs
  | Read n => True
  | Wake n d => (length d <= n)%nat
  end.

(** Between events no lock is held and no input is pending. *)
Definition idle (s : cst) (t : term) (sh : Z) : Prop :=
  implements s t /\ cons_lock s = false /\ kbd s = Keyboard [] sh /\ (uart (ser s) = true -> rx (ser s) = []).

Lemma read_line_length first n rd : (length (fst (read_line first n rd)) <= n)%nat.
Proof.
  revert first rd. induction n as [|n IH]; intros first [|c rd]; cbn; try lia.
  destruct (c =? ctl 68); cbn; [lia|]. destruct (c =? 10); cbn; [lia|].
  specialize (IH false rd). destruct (read_line false n rd). cbn in *. lia.
Qed.

(** A reader that holds the lock, with [d] stored. *)
Lemma reader_run n d s t sh :
  idle (set_lock false s) t sh -> cons_lock s = true -> ip_lock s = false -> (length d <= n)%nat -> dst s = d ->
  exists s', observe_read (consoleread_loop (Z.of_nat n) (n - length d)) s =
      Ret (fst (spec_read (cur_killed s) n d t)) s' /\
    idle s' (snd (spec_read (cur_killed s) n d t)) sh /\
    cur_killed s' = cur_killed s /\ uart (ser s') = uart (ser s).
Proof.
  intros (Hs & _ & Hk & Hrx) Hlk Hip Hd <-. unfold spec_read, observe_read.
  pose proof (consoleread_loop_run (Z.of_nat n) (n - length (dst s)) s t Hs Hlk Hip ltac:(lia)) as H.
  pose proof (read_line_length (bool_decide (dst s = [])) (n - length (dst s)) (ready t)) as Hlen.
  assert ((Z.of_nat (n - length (dst s)) =? Z.of_nat n) = bool_decide (dst s = []) \/ (n - length (dst s) = 0)%nat) as Hfirst.
  { destruct (dst s) as [|x l]; cbn [length]; [left; rewrite bool_decide_eq_true_2 by done; apply Z.eqb_eq; lia|].
    destruct (n - S (length l))%nat eqn:E; [by right|]. left. rewrite bool_decide_eq_false_2 by done. apply Z.eqb_neq.
    cbn in Hd. lia. }
  assert (read_line (Z.of_nat (n - length (dst s)) =? Z.of_nat n) (n - length (dst s)) (ready t) =
          read_line (bool_decide (dst s = [])) (n - length (dst s)) (ready t)) as Er.
  { destruct Hfirst as [->| ->]; [done|]. by destruct (ready t). }
  rewrite Er in H. destruct (read_line _ _ _) as [bs r]. cbn [fst] in Hlen.
  destruct H as (s' & (H1 & H2 & H3 & H4 & Hdk & Hdr & Hdu) & E & _).
  exists s'. rewrite E. split.
  - cbn [fst]. destruct r; [|destruct (cur_killed s)]; rewrite H2; try done.
    do 2 f_equal. rewrite length_app. lia.
  - split; [|done]. cbn [snd]. split; [done|]. split; [done|]. split; [by rewrite Hdk|]. by rewrite Hdu, Hdr.
Qed.

Lemma do_op_run dump o s t sh :
  idle s t sh -> op_ok o ->
  let '(r, t', sh') := spec_op (uart (ser s)) (cur_killed s) dump o t sh in
  exists s', do_op dump o s = Ret r s' /\ idle s' t' sh' /\
    cur_killed s' = cur_killed s /\ uart (ser s') = uart (ser s).
Proof.
  intros Hidle Hok. pose proof Hidle as (Hs & Hlk & Hk & Hrx). destruct o as [cs|codes|bs|n|n d]; cbn [spec_op do_op].
  - set (s0 := set_ser _ s).
    destruct (consoleintr_run (on_ser uartgetc) _ _ (length (rx (ser s) ++ cs)) dump s0 t) as (s' & E & H & (L & _ & K & _) & P & Rs);
      [done | done | | |].
    + cbn. destruct (uart (ser s)); [|constructor]. by rewrite Hrx.
    + cbn. destruct (uart (ser s)); cbn; lia.
    + exists s'. rewrite (bind_ret (uartintr dump) _ s0 tt s' E). split; [done|]. cbn in P, Rs. injection Rs as Rk Ru _.
      split; [|split; [done | by rewrite Ru]].
      split; [|split; [by rewrite L|split; [by rewrite Rk|]]].
      * cbn in H. destruct (uart (ser s)); [by rewrite Hrx in H | done].
      * intros Hu. by rewrite Hu in P.
  - rewrite Hk. cbn [kbdata shift app].
    set (s0 := set_kbd _ s). pose proof (decode_byte sh codes) as Hb.
    pose proof (decode_length sh codes) as Hl.
    destruct (consoleintr_run (on_kbd kbdgetc) _ _ (length codes) dump s0 t) as (s' & E & H & (L & _ & K & _) & P & Rs);
      [done | done | done | cbn; lia |].
    cbn in H, P, Rs. destruct (decode sh codes) as [cs sh'] eqn:Ed. cbn in H, Rs.
    exists s'. rewrite (bind_ret (kbdintr dump) _ s0 tt s' E). split; [done|]. injection Rs as Rsh Ru Rrx.
    split; [|split; [done | by rewrite Ru]]. split; [done|]. split; [by rewrite L|]. split.
    + destruct (kbd s') as [q sh1]. destruct q as [|d q]; cbn in *; [by subst|].
      destruct (kbd_code sh1 d) as [c1 sh2]. by destruct (decode sh2 q).
    + rewrite Ru, Rrx. done.
  - destruct (consolewrite_run bs (set_ip true s) t) as (s' & E & H & ((L & _ & K & _) & Dk & Dr & Du)); [done | done | done | done |].
    exists s'. unfold bind. rewrite E. split; [done|]. split; [|done]. split; [done|]. split; [by rewrite L|].
    cbn in Dk, Dr, Du. rewrite Dk, Dr, Du. done.
  - set (s0 := set_dst [] (set_lock true (set_ip false (set_ip true s)))).
    destruct (reader_run n [] s0 t sh) as (s' & E & H); [done | done | done | cbn; lia | done|].
    change (cur_killed s0) with (cur_killed s) in *.
    destruct (spec_read (cur_killed s) n [] t) as [r t']. exists s'. split; [|exact H].
    etrans; [|exact E]. unfold observe_read, consoleread, bind, iunlock_ip, acquire_cons, modify.
    cbn [ip_lock set_ip cons_lock]. rewrite Hlk, Nat2Z.id. cbn [length]. by rewrite Nat.sub_0_r.
  - set (s0 := set_lock true (set_dst d (set_ip false s))).
    destruct (reader_run n d s0 t sh) as (s' & E & H); [done | done | done | done | done|].
    change (cur_killed s0) with (cur_killed s) in *.
    destruct (spec_read (cur_killed s) n d t) as [r t']. exists s'. split; [|exact H].
    etrans; [|exact E]. unfold observe_read, consoleread_return, bind, acquire_cons, reads.
    cbn [ip_lock set_ip cons_lock set_dst]. rewrite Hlk, Nat2Z.id. done.
Qed.

(** C8: The console implements the abstract terminal.  For every sequence of
    serial and keyboard input, writes, reads and wake ups, the code returns
    (it never panics, in particular not with "pos under/overflow", and never
    hangs), with the observations that the terminal makes: echo and scrolling
    on the screen, erase and kill within the current line only, lines
    delivered to readers in order, at most the bytes asked for, and end of
    file for a ^D.  The indices of the input buffer may wrap around 2^32. *)
Theorem console_refines dump os s t sh :
  idle s t sh -> Forall op_ok os ->
  let '(rs, t', sh') := spec_ops (uart (ser s)) (cur_killed s) dump os t sh in
  exists s', do_ops dump os s = Ret rs s' /\ idle s' t' sh'.
Proof.
  intros Hs Hok. revert s t sh Hs. induction Hok as [|o os Ho _ IH]; intros s t sh Hs; cbn [spec_ops do_ops]; [by exists s|].
  pose proof (do_op_run dump o s t sh Hs Ho) as H1.
  destruct (spec_op (uart (ser s)) (cur_killed s) dump o t sh) as [[r t1] sh1].
  destruct H1 as (s1 & E1 & Hs1 & Hk & Hu). specialize (IH s1 t1 sh1 Hs1). rewrite Hk, Hu in IH.
  destruct (spec_ops (uart (ser s)) (cur_killed s) dump os t1 sh1) as [[rs t2] sh2].
  destruct IH as (s2 & E2 & Hs2). exists s2. by rewrite (bind_ret _ _ _ _ _ E1), (bind_ret _ _ _ _ _ E2).
Qed.

(** An empty screen, and indices about to wrap around. *)
Definition demo_cst : cst :=
  Cst false true false (Screen (replicate 2000 0) 0 0) (Serial true [] []) (Keyboard [] 0)
    (Input (replicate 128 0) (2 ^ 32 - 2) (2 ^ 32 - 2) (2 ^ 32 - 2)) [] false [].

Lemma demo_idle : idle demo_cst (Term [] [] [] []) 0.
Proof.
  split; [|done]. split; [|split; [|constructor]].
  - split; [done|]. split; [|done]. split; [|split_and!; try done; cbn; lia].
    split; [cbn; rewrite length_replicate; lia|]. split; [cbn; lia|].
    cbn [crt scr demo_cst]. intros i v Hi [-> _]%lookup_replicate. done.
  - cbn [inp demo_cst ready line]. unfold holds. cbn [ibuf ir iw ie app length]. rewrite length_replicate.
    split_and!; try done; try lia.
Qed.

Lemma console_refines_witness :
  exists s', do_ops [] [Receive [104; 120; 8; 105; 13]; Print [10; 36]; Read 10; Read 4; Receive [4]; Wake 4 []] demo_cst =
    Ret [Quiet; Wrote 2; Got 3 [104; 105; 10]; Waits []; Quiet; Got 0 []] s'.
Proof.
  destruct (console_refines [] [Receive [104; 120; 8; 105; 13]; Print [10; 36]; Read 10; Read 4; Receive [4]; Wake 4 []]
    demo_cst _ 0 demo_idle) as (s' & E & _); [repeat constructor; unfold byte; lia|].
  exists s'. exact E.
Defined.

(** ** From the keys to the reader *)

Lemma keys_filter cs t : keys cs t = keys (filter (fun c => c <> 0) cs) t.
Proof.
  revert t. induction cs as [|c cs IH]; intros t; [done|]. rewrite filter_cons. cbn [keys foldl]. case_decide as Hc.
  - apply IH.
  - assert (c = 0) as -> by lia. change (key 0 t) with t. apply IH.
Qed.

Definition plain (c : Z) : Prop := 32 <= c <= 126.
#[export] Instance plain_dec c : Decision (plain c).
Proof. unfold plain. apply _. Defined.

Lemma key_plain c t :
  plain c -> ready t = [] -> (length (line t) < 127)%nat -> key c t = echo c (set_lines [] (line t ++ [c]) t).
Proof.
  intros Hc Hr Hl. unfold plain in Hc. unfold key. rewrite Hr. cbn [app].
  rewrite (proj2 (Z.eqb_neq c (ctl 80))), (proj2 (Z.eqb_neq c (ctl 85))), (proj2 (Z.eqb_neq c (ctl 72))),
    (proj2 (Z.eqb_neq c 127)), (proj2 (Z.eqb_neq c 0)), (proj2 (Z.eqb_neq c 13)) by (unfold ctl; lia).
  rewrite (proj2 (Nat.ltb_lt _ _)) by lia. cbn [orb andb negb].
  rewrite (proj2 (Z.eqb_neq c 10)), (proj2 (Z.eqb_neq c (ctl 68))) by (unfold ctl; lia). cbn [orb].
  rewrite (proj2 (Nat.eqb_neq _ _)) by (rewrite length_app; cbn; lia). done.
Qed.

Lemma keys_line w t :
  Forall plain w -> ready t = [] -> (length (line t ++ w) < 128)%nat ->
  ready (keys (w ++ [10]) t) = line t ++ w ++ [10] /\ line (keys (w ++ [10]) t) = [].
Proof.
  intros Hw. revert t. induction Hw as [|c w Hc Hw IH]; intros t Hr Hl; cbn [app keys foldl].
  - rewrite app_nil_r in Hl. unfold key. rewrite Hr. cbn [app]. rewrite (proj2 (Nat.ltb_lt _ _)) by lia. done.
  - rewrite length_app in Hl. cbn [length] in Hl. rewrite key_plain by (done || lia).
    destruct (IH (echo c (set_lines [] (line t ++ [c]) t)) eq_refl) as [E1 E2].
    { cbn [line echo set_lines]. rewrite !length_app. cbn [length]. lia. }
    split; [|exact E2]. etrans; [exact E1|]. cbn [line echo set_lines]. by rewrite <- app_assoc.
Qed.

Lemma read_line_plain first w n rest :
  Forall plain w -> (length w < n)%nat -> read_line first n (w ++ 10 :: rest) = (w ++ [10], Some rest).
Proof.
  intros Hw. revert first n. induction Hw as [|c w Hc Hw IH]; intros first n Hn; (destruct n as [|n]; [cbn in Hn; lia|]); [done|].
  cbn [app read_line]. unfold plain in Hc.
  rewrite (proj2 (Z.eqb_neq c (ctl 68))), (proj2 (Z.eqb_neq c 10)) by (unfold ctl; lia).
  rewrite IH by (cbn in Hn; lia). done.
Qed.

(** C36: a line of at most 127 printable ASCII characters typed on a US
    keyboard ([us_layout] has the codes of its keys), with the shift key where
    it is needed, and ended with the enter key, is what the next read
    returns: the scan codes, the tables of kbd.h, the line editor and
    [consoleread] compose.  No modifier is on and no input is waiting at the
    start, and the read asks for at least the whole line. *)
Theorem typed_line_read dump w n s t :
  Forall plain w -> (length w < 128)%nat -> (length w < n)%nat ->
  idle s t 0 -> ready t = [] -> line t = [] ->
  exists s', do_ops dump [Scan ((w ++ [10]) ≫= strokes); Read n] s =
    Ret [Quiet; Got (Z.of_nat (length (w ++ [10]))) (w ++ [10])] s'.
Proof.
  intros Hw Hlw Hn Hs Hr Hl.
  assert (Forall typeable (w ++ [10])) as Hty.
  { apply Forall_app. split; [|by repeat constructor; right]. eapply Forall_impl; [exact Hw|]. intros c Hc. by left. }
  destruct (decode_text _ Hty) as [Hf Hsh].
  pose proof (do_op_run dump (Scan ((w ++ [10]) ≫= strokes)) s t 0 Hs I) as H1. cbn [spec_op] in H1.
  destruct (decode 0 ((w ++ [10]) ≫= strokes)) as [cs sh]. cbn [fst snd] in Hf, Hsh. subst sh.
  assert (typed cs dump t = keys cs t) as Ety.
  { unfold typed. rewrite bool_decide_eq_false_2; [done|]. intros Hin.
    assert (ctl 80 ∈ w ++ [10]) as Hin2 by (rewrite <- Hf; by apply list_elem_of_filter).
    rewrite Forall_forall in Hty. destruct (Hty _ Hin2) as [Hx|Hx]; vm_compute in Hx; [destruct Hx; congruence | congruence]. }
  rewrite Ety, keys_filter, Hf in H1. destruct H1 as (s1 & E1 & Hs1 & Hk & Hu).
  destruct (keys_line w t Hw Hr) as [Erd Eln]; [by rewrite Hl|]. rewrite Hl in Erd. cbn [app] in Erd.
  pose proof (do_op_run dump (Read n) s1 _ 0 Hs1 I) as H2. cbn [spec_op] in H2. unfold spec_read in H2.
  rewrite Erd in H2. cbn [length] in H2. rewrite Nat.sub_0_r, read_line_plain in H2 by done. cbn [app] in H2.
  destruct H2 as (s2 & E2 & _). exists s2. cbn [do_ops].
  rewrite (bind_ret _ _ _ _ _ E1). unfold bind. by rewrite E2.
Qed.

Lemma typed_line_read_witness :
  exists s', do_ops [] [Scan ((str "ls | wc > A_1" ++ [10]) ≫= strokes); Read 100] demo_cst =
    Ret [Quiet; Got 14 (str "ls | wc > A_1" ++ [10])] s'.
Proof.
  apply (typed_line_read [] (str "ls | wc > A_1") 100 demo_cst (Term [] [] [] []) );
    [apply (bool_decide_unpack _); vm_compute; exact I | cbn; lia | cbn; lia | exact demo_idle | reflexivity | reflexivity].
Defined.
