(* ===== verification/Blocks.v ===== *)
(** * What the file system uses of the block layer

    fs.c reads a block with [bread], changes the buffer in place, hands it to
    [log_write] and gives it back with [brelse].  [BlockIO] has these
    operations over any state; [BlockLaws] says what they promise: there is an
    assignment of contents to blocks that only [log_write] changes, as long as
    at most two buffers are held and the transaction has room.  The instance
    is bio.c with log.c, inside a transaction. *)

From S2P Require Import Prelude Sleeplock Bio BioInv Log LogInv Crash LogOps.

Class BlockIO (S : Type) := {
  bread : Z -> Z -> M S nat;
  bdata : S -> nat -> list Z;
  bput : nat -> list Z -> M S unit;
  log_write : nat -> M S unit;
  brelse : nat -> M S unit;
}.

Definition contents_map := Z -> list Z.
Definition upd (b : Z) (d : list Z) (C : contents_map) : contents_map := fun x => if decide (x = b) then d else C x.

Lemma upd_eq b d C : upd b d C b = d.
Proof. unfold upd. by rewrite decide_True. Qed.
Lemma upd_ne b d C x : x <> b -> upd b d C x = C x.
Proof. intros. unfold upd. by rewrite decide_False. Qed.

Lemma size_add (b : Z) (L : gset Z) : (size ({[b]} ∪ L) <= size L + 1)%nat.
Proof.
  rewrite size_union_alt, size_singleton. assert (size (L ∖ {[b]}) <= size L)%nat by (apply subseteq_size; set_solver). lia.
Qed.

(** The other buffers keep what they hold. *)
Definition same_data {S} `{IO : BlockIO S} (H : gmap nat Z) (s s' : S) : Prop :=
  forall j, is_Some (H !! j) -> bdata s' j = bdata s j.

(** [ok s H C L]: the buffers [H] are held, each with its block, the blocks
    have the contents [C], and [L] are the blocks of the transaction.
    [logged b] says that [b] is a block that may be part of one. *)
Class BlockLaws (S : Type) `{IO : BlockIO S} := {
  ok : S -> gmap nat Z -> contents_map -> gset Z -> Prop;
  logged : Z -> Prop;
  capacity : nat;

  ok_len s H C L b : ok s H C L -> logged b -> length (C b) = BSIZE;
  bread_law s H C L b :
    ok s H C L -> logged b -> (size H <= 1)%nat -> (forall j, H !! j <> Some b) ->
    exists i s', bread 1 b s = Ret i s' /\ H !! i = None /\ ok s' (<[i := b]> H) C L /\
      bdata s' i = C b /\ same_data H s s';
  bput_law s H C L i b d :
    ok s H C L -> H !! i = Some b -> length d = BSIZE ->
    exists s', bput i d s = Ret tt s' /\ ok s' H C L /\ bdata s' i = d /\ same_data (delete i H) s s';
  log_write_law s H C L i b :
    ok s H C L -> H !! i = Some b -> logged b -> (size ({[b]} ∪ L) <= capacity)%nat ->
    exists s', log_write i s = Ret tt s' /\ ok s' H (upd b (bdata s i) C) ({[b]} ∪ L) /\ same_data H s s';
  brelse_law s H C L i b :
    ok s H C L -> H !! i = Some b -> bdata s i = C b ->
    exists s', brelse i s = Ret tt s' /\ ok s' (delete i H) C L /\ same_data (delete i H) s s';
}.

(** ** Whole accesses *)

Section whole.
Context {S : Type} {IO : BlockIO S} {BL : BlockLaws S}.
Implicit Types (s : S).

(** A block is read and given back. *)
Lemma read_law s H C L b :
  ok s H C L -> logged b -> (size H <= 1)%nat -> (forall j, H !! j <> Some b) ->
  exists i s1 s2, bread 1 b s = Ret i s1 /\ bdata s1 i = C b /\ brelse i s1 = Ret tt s2 /\
    ok s2 H C L /\ same_data H s s2.
Proof.
  intros Hs Hb Hn Hnot. destruct (bread_law s H C L b Hs Hb Hn Hnot) as (i & s1 & E1 & Hi & H1 & Hd & Hsame).
  destruct (brelse_law s1 _ C L i b H1 (lookup_insert_eq _ _ _) Hd) as (s2 & E2 & H2 & Hsame2).
  exists i, s1, s2. rewrite delete_insert_id in * by done. split_and!; try done.
  intros j Hj. by rewrite (Hsame2 j Hj), (Hsame j Hj).
Qed.

(** A block is read, changed, logged and given back. *)
Lemma update_law s H C L b d :
  ok s H C L -> logged b -> (size H <= 1)%nat -> (forall j, H !! j <> Some b) -> length d = BSIZE ->
  (size ({[b]} ∪ L) <= capacity)%nat ->
  exists i s1 s2 s3 s4, bread 1 b s = Ret i s1 /\ bdata s1 i = C b /\ bput i d s1 = Ret tt s2 /\
    log_write i s2 = Ret tt s3 /\ brelse i s3 = Ret tt s4 /\
    ok s4 H (upd b d C) ({[b]} ∪ L) /\ same_data H s s4.
Proof.
  intros Hs Hb Hn Hnot Hd Hcap. destruct (bread_law s H C L b Hs Hb Hn Hnot) as (i & s1 & E1 & Hi & H1 & Hd1 & D1).
  destruct (bput_law s1 _ C L i b d H1 (lookup_insert_eq _ _ _) Hd) as (s2 & E2 & H2 & Hd2 & D2).
  destruct (log_write_law s2 _ C L i b H2 (lookup_insert_eq _ _ _) Hb Hcap) as (s3 & E3 & H3 & D3).
  rewrite Hd2 in H3. pose proof (D3 i ltac:(rewrite lookup_insert_eq; eauto)) as Hd3.
  destruct (brelse_law s3 _ _ _ i b H3 (lookup_insert_eq _ _ _)) as (s4 & E4 & H4 & D4); [by rewrite Hd3, Hd2, upd_eq|].
  exists i, s1, s2, s3, s4. rewrite delete_insert_id in * by done. split_and!; try done.
  intros j Hj. rewrite (D4 j Hj), (D3 j), (D2 j Hj), (D1 j Hj); [done|].
  destruct (decide (j = i)) as [->|]; [rewrite lookup_insert_eq; eauto | by rewrite lookup_insert_ne].
Qed.
End whole.

(** ** The buffer cache and the log *)

Section real.
Context (lock_addr : nat -> Z) `{DR : Driver}.
Context (start nlog : Z).
Hypothesis Hnlog : 1 <= nlog <= LOGSIZE.
(** The operations that are open, and the disk and the writes to it so far,
    which no operation changes before the commit. *)
Context (nops : Z) (d0 : blocks) (w0 : writes).
Hypothesis Hnops : 1 <= nops.

#[local] Instance log_io : BlockIO lst := {
  bread d b := bio (Bio.bread lock_addr d b);
  bdata s i := data (bufs (bc s) !!! i);
  bput i d := bio (updb i (set_data d));
  log_write := Log.log_write;
  brelse i := bio (Bio.brelse lock_addr i) ;; ret tt;
}.

(** Two of the 30 buffers are left for reading. *)
Definition log_capacity : nat := Nat.min 28 (Z.to_nat (nlog - 2)).

(** The state inside a transaction whose blocks so far are [L]. *)
Record in_trans (s : lst) (H : gmap nat Z) (C : contents_map) (L : gset Z) (D : gmap Z (list Z)) (bl : list Z) : Prop := {
  i_trans : trans start nlog bl;
  i_log : at_log start nlog (lg s) bl;
  i_cache : cache (bc s) D (dom H);
  i_pinned : pinned D bl;
  i_lock : l_lock (lg s) = false;
  i_out : l_outstanding (lg s) = nops /\ l_committing (lg s) = false;
  i_disk : disk (bc s) = d0 /\ trace (bc s) = w0;
  i_held i b : H !! i = Some b -> block_of (bc s) i = b;
  i_cont b : 0 <= b < nblocks -> C b = view (bc s) D b;
  i_len b c : D !! b = Some c -> length c = BSIZE;
  i_set : L = list_to_set bl;
  i_room : (size L <= log_capacity)%nat;
}.

Lemma in_trans_size s H C L D bl : in_trans s H C L D bl -> size D = size L /\ (length bl = size L)%nat.
Proof.
  intros I. rewrite (i_set _ _ _ _ _ _ I), size_list_to_set by apply (t_nodup _ _ _ (i_trans _ _ _ _ _ _ I)).
  split; [|done]. rewrite <- size_dom, (i_pinned _ _ _ _ _ _ I). apply size_list_to_set, (t_nodup _ _ _ (i_trans _ _ _ _ _ _ I)).
Qed.

Lemma in_trans_bread s H C L D bl b :
  in_trans s H C L D bl -> home start nlog b -> (size H <= 1)%nat -> (forall j, H !! j <> Some b) ->
  exists i s', bread 1 b s = Ret i s' /\ H !! i = None /\ in_trans s' (<[i := b]> H) C L D bl /\
    bdata s' i = C b /\ same_data H s s'.
Proof.
  intros I (Hb & _) Hn Hnot. destruct (in_trans_size _ _ _ _ _ _ I) as [HD _].
  pose proof (i_room _ _ _ _ _ _ I) as Hroom. unfold log_capacity in Hroom.
  destruct (bread_any lock_addr (bc s) D (dom H) b (i_cache _ _ _ _ _ _ I) Hb)
    as (i & t & E & Hi & _ & Hc & (Hdk & Htr & _ & Ho) & Hbi & Hdata).
  { left. rewrite size_dom, HD. unfold NBUF. lia. }
  { intros j Hj Hbj. apply elem_of_dom in Hj as [b' Hj]. rewrite (i_held _ _ _ _ _ _ I j b' Hj) in Hbj. subst. by apply (Hnot j). }
  apply not_elem_of_dom in Hi. destruct s as [l t0]. cbn [bc lg] in *.
  exists i, (mk_lst l t). split; [by apply bio_run|]. split; [done|].
  assert (forall j, is_Some (H !! j) -> bufs t !!! j = bufs t0 !!! j) as Hsame.
  { intros j Hj. apply Ho. intros ->. rewrite Hi in Hj. by destruct Hj. }
  split; [|split; [cbn [bdata log_io bc]; rewrite Hdata; symmetry; by apply (i_cont _ _ _ _ _ _ I)|]].
  - destruct I. split; try done; cbn [bc lg] in *.
    + by rewrite dom_insert_L.
    + by rewrite Hdk, Htr.
    + intros j b' Hj. destruct (decide (j = i)) as [->|Hne].
      * rewrite lookup_insert_eq in Hj. congruence.
      * rewrite lookup_insert_ne in Hj by done. unfold block_of. rewrite Hsame by eauto. by apply i_held0.
    + intros x Hx. rewrite i_cont0 by done. unfold view. by rewrite Hdk.
  - intros j Hj. cbn. by rewrite Hsame.
Qed.

Lemma in_trans_bput s H C L D bl i b d :
  in_trans s H C L D bl -> H !! i = Some b -> length d = BSIZE ->
  exists s', bput i d s = Ret tt s' /\ in_trans s' H C L D bl /\ bdata s' i = d /\ same_data (delete i H) s s'.
Proof.
  intros I Hi Hd.
  destruct (set_data_spec (bc s) D (dom H) i d (i_cache _ _ _ _ _ _ I)) as (t & E & Hc & (Hdk & Htr & _ & Ho) & Hb & Hx);
    [by apply elem_of_dom_2 in Hi | done |].
  destruct s as [l t0]. cbn [bc lg] in *. exists (mk_lst l t). split; [by apply bio_run|].
  split; [|split; [cbn; by rewrite Hx|]].
  - destruct I. split; try done; cbn [bc lg] in *.
    + by rewrite Hdk, Htr.
    + intros j b' Hj. destruct (decide (j = i)) as [->|Hne]; [rewrite Hb; by apply i_held0|].
      unfold block_of. rewrite Ho by done. by apply i_held0.
    + intros x Hx'. rewrite i_cont0 by done. unfold view. by rewrite Hdk.
  - intros j [x Hj]%lookup_delete_is_Some. cbn. by rewrite Ho.
Qed.

Lemma in_trans_log_write s H C L D bl i b :
  in_trans s H C L D bl -> H !! i = Some b -> home start nlog b -> (size ({[b]} ∪ L) <= log_capacity)%nat ->
  exists s', log_write i s = Ret tt s' /\
    in_trans s' H (upd b (bdata s i) C) ({[b]} ∪ L) (<[b := bdata s i]> D) (add_block b bl) /\ same_data H s s'.
Proof.
  intros I Hi Hb Hcap. destruct (in_trans_size _ _ _ _ _ _ I) as [_ Hlen].
  assert (size L <= size ({[b]} ∪ L))%nat as Hsz by (apply subseteq_size; set_solver).
  assert (0 < size ({[b]} ∪ L))%nat as Hpos.
  { assert (size (C := gset Z) {[b]} <= size ({[b]} ∪ L))%nat by (apply subseteq_size; set_solver). rewrite size_singleton in *. lia. }
  pose proof (i_held _ _ _ _ _ _ I i b Hi) as Hbi.
  assert (Z.of_nat (length bl) < nlog - 1) as Hl by (unfold log_capacity in Hcap; lia).
  destruct s as [l t]. cbn [bc lg] in *.
  destruct (log_write_run start nlog l t D (dom H) bl i) as (l' & t' & E & Ha & Hc & (Hdk & Htr & _ & Ho) & Hx & Hlk & Hout & Hcm);
    [apply I | apply I | apply I | by apply elem_of_dom_2 in Hi | apply I | apply I | pose proof (proj1 (i_out _ _ _ _ _ _ I)) as Ho; cbn in Ho; lia
    | by rewrite Hbi | lia | done |].
  rewrite Hbi in *. exists (mk_lst l' t'). split; [done|]. split.
  - split; try done; cbn [bc lg] in *.
    + apply add_block_trans; [apply I | done | done].
    + apply add_block_pinned, I.
    + rewrite Hout, Hcm. apply I.
    + rewrite Hdk, Htr. apply I.
    + intros j b' Hj. destruct (decide (j = i)) as [->|Hne].
      * unfold block_of. rewrite Hx. cbn. by apply (i_held _ _ _ _ _ _ I).
      * unfold block_of. rewrite Ho by done. by apply (i_held _ _ _ _ _ _ I).
    + intros x Hx'. unfold view. rewrite Hdk. destruct (decide (x = b)) as [->|Hne].
      * by rewrite upd_eq, lookup_insert_eq.
      * rewrite upd_ne, lookup_insert_ne by done. by apply (i_cont _ _ _ _ _ _ I).
    + intros x c [[<- <-]|[_ Hc']]%lookup_insert_Some; [|by apply (i_len _ _ _ _ _ _ I x c)].
      apply (k_data _ _ _ (i_cache _ _ _ _ _ _ I)).
    + rewrite (i_set _ _ _ _ _ _ I). unfold add_block. case_decide; set_solver.
  - intros j Hj. cbn. destruct (decide (j = i)) as [->|Hne]; [by rewrite Hx | by rewrite Ho].
Qed.

Lemma in_trans_brelse s H C L D bl i b :
  in_trans s H C L D bl -> H !! i = Some b -> bdata s i = C b ->
  exists s', brelse i s = Ret tt s' /\ in_trans s' (delete i H) C L D bl /\ same_data (delete i H) s s'.
Proof.
  intros I Hi Hd. pose proof (i_held _ _ _ _ _ _ I i b Hi) as Hbi.
  assert (i ∈ dom H) as Hdom by by apply elem_of_dom_2 in Hi.
  assert (0 <= b < nblocks) as Hb.
  { destruct (k_held _ _ _ (i_cache _ _ _ _ _ _ I) i Hdom) as (_ & _ & _ & _ & Hb & _). by rewrite Hbi in Hb. }
  destruct (brelse_spec lock_addr (bc s) D (dom H) i (i_cache _ _ _ _ _ _ I) Hdom) as (ch & t & E & Hc & (Hdk & Htr & _ & Ho) & _).
  { rewrite Hbi, <- (i_cont _ _ _ _ _ _ I) by done. done. }
  destruct s as [l t0]. cbn [bc lg] in *. exists (mk_lst l t).
  split; [cbn [brelse log_io]; by rewrite (bind_ret _ _ _ _ _ (bio_run _ _ _ _ _ E))|]. split.
  - destruct I. split; try done; cbn [bc lg] in *.
    + by rewrite dom_delete_L.
    + by rewrite Hdk, Htr.
    + intros j b' [Hne Hj]%lookup_delete_Some. unfold block_of. rewrite Ho by done. by apply i_held0.
    + intros x Hx. rewrite i_cont0 by done. unfold view. by rewrite Hdk.
  - intros j [x [Hne Hj]%lookup_delete_Some]. cbn. by rewrite Ho.
Qed.

#[local] Instance log_laws : BlockLaws lst.
Proof.
  refine {| ok s H C L := exists D bl, in_trans s H C L D bl; logged := home start nlog; capacity := log_capacity |}.
  - intros s H C L b (D & bl & I) (Hb & _). rewrite (i_cont _ _ _ _ _ _ I) by done. unfold view.
    destruct (D !! b) as [c|] eqn:E; cbn.
    + by apply (i_len _ _ _ _ _ _ I b).
    + by apply (k_disk_len _ _ _ (i_cache _ _ _ _ _ _ I)).
  - intros s H C L b (D & bl & I) Hb Hn Hnot.
    destruct (in_trans_bread _ _ _ _ _ _ _ I Hb Hn Hnot) as (i & s' & ? & ? & ? & ? & ?). exists i, s'. split_and!; eauto.
  - intros s H C L i b d (D & bl & I) Hi Hd.
    destruct (in_trans_bput _ _ _ _ _ _ _ _ _ I Hi Hd) as (s' & ? & ? & ? & ?). exists s'. split_and!; eauto.
  - intros s H C L i b (D & bl & I) Hi Hb Hcap.
    destruct (in_trans_log_write _ _ _ _ _ _ _ _ I Hi Hb Hcap) as (s' & ? & ? & ?). exists s'. split_and!; eauto.
  - intros s H C L i b (D & bl & I) Hi Hd.
    destruct (in_trans_brelse _ _ _ _ _ _ _ _ I Hi Hd) as (s' & ? & ? & ?). exists s'. split_and!; eauto.
Defined.
End real.
