(* ===== verification/Fs.v ===== *)
(** * The file system (fs.c)

    The layers of fs.c over the block interface: the block allocator, the
    inode cache and the inodes on disk, the contents of files, directories
    and path names.  Pointers to cached inodes are indices of [icache.inode];
    a null result is [None].  The device table [devsw] is an argument of the
    operations that consult it. *)

From S2P Require Import Prelude Cstring Sleeplock Bio Log Blocks.

Definition ROOTINO : Z := 1.
Definition ROOTDEV : Z := 1.
Definition NINODE : nat := 50.
Definition NDIRECT : Z := 12.
Definition NINDIRECT : Z := 128.
Definition MAXFILE : Z := NDIRECT + NINDIRECT.
Definition NDEV : Z := 10.
Definition BSZ : Z := 512.
Definition IPB : Z := 8.
Definition BPB : Z := 4096.
Definition DIRSIZ : nat := 14.
Definition T_DIR : Z := 1.
Definition T_FILE : Z := 2.
Definition T_DEV : Z := 3.

Definition IBLOCK (i : Z) (sb : superblock) : Z := u32 (i / IPB + sb_inodestart sb).
Definition BBLOCK (b : Z) (sb : superblock) : Z := u32 (b / BPB + sb_bmapstart sb).

(** The fields of [struct inode] that are a copy of the disk's. *)
Record dinode := mk_dinode {
  i_type : Z; i_major : Z; i_minor : Z; i_nlink : Z; i_size : Z; i_addrs : list Z;
}.

#[export] Instance dinode_eq_dec : EqDecision dinode.
Proof. solve_decision. Defined.

Record inode := mk_inode {
  i_dev : Z;
  i_inum : Z;
  i_ref : Z;
  i_lock : sleeplock;
  i_valid : Z;
  i_node : dinode;
}.

Definition zero_dinode : dinode := mk_dinode 0 0 0 0 0 (replicate 13 0).
Definition zero_inode : inode := mk_inode 0 0 0 initsleeplock 0 zero_dinode.
#[export] Instance inode_inhabited : Inhabited inode := populate zero_inode.

Definition set_type v d := mk_dinode v (i_major d) (i_minor d) (i_nlink d) (i_size d) (i_addrs d).
Definition set_size v d := mk_dinode (i_type d) (i_major d) (i_minor d) (i_nlink d) v (i_addrs d).
Definition set_nlink v d := mk_dinode (i_type d) (i_major d) (i_minor d) v (i_size d) (i_addrs d).
Definition set_addr k v d := mk_dinode (i_type d) (i_major d) (i_minor d) (i_nlink d) (i_size d) (aset (i_addrs d) k v).
Definition set_node n ip := mk_inode (i_dev ip) (i_inum ip) (i_ref ip) (i_lock ip) (i_valid ip) n.
Definition set_ref v ip := mk_inode (i_dev ip) (i_inum ip) v (i_lock ip) (i_valid ip) (i_node ip).
Definition set_valid v ip := mk_inode (i_dev ip) (i_inum ip) (i_ref ip) (i_lock ip) v (i_node ip).
Definition set_ilock v ip := mk_inode (i_dev ip) (i_inum ip) (i_ref ip) v (i_valid ip) (i_node ip).

(** ** [struct dinode] in a block *)

Definition dinode_at (inum : Z) : nat := (64 * Z.to_nat (inum mod IPB))%nat.

(** The addresses in consecutive words of a block. *)
Fixpoint put_words (ws : list Z) (off : nat) (d : list Z) : list Z :=
  match ws with [] => d | w :: ws => put_words ws (off + 4) (set32 d off w) end.
Definition get_words (n off : nat) (d : list Z) : list Z := (fun k => get32 d (off + 4 * k)) <$> seq 0 n.

Definition get_dinode (d : list Z) (off : nat) : dinode :=
  mk_dinode (i16 (get16 d off)) (i16 (get16 d (off + 2))) (i16 (get16 d (off + 4))) (i16 (get16 d (off + 6)))
    (get32 d (off + 8)) (get_words 13 (off + 12) d).
Definition put_dinode (n : dinode) (off : nat) (d : list Z) : list Z :=
  let d := set16 d off (i_type n) in
  let d := set16 d (off + 2) (i_major n) in
  let d := set16 d (off + 4) (i_minor n) in
  let d := set16 d (off + 6) (i_nlink n) in
  let d := set32 d (off + 8) (i_size n) in
  put_words (take 13 (i_addrs n)) (off + 12) d.

Section fs.
Context {T : Type} {IO : BlockIO T}.

Record fss := mk_fss {
  blk : T;
  sb : superblock;
  icache_lock : bool;
  inodes : list inode;
  mypid : Z;
  mycwd : nat;
}.

Definition set_blk b s := mk_fss b (sb s) (icache_lock s) (inodes s) (mypid s) (mycwd s).
Definition set_icache v s := mk_fss (blk s) (sb s) v (inodes s) (mypid s) (mycwd s).
Definition set_inodes l s := mk_fss (blk s) (sb s) (icache_lock s) l (mypid s) (mycwd s).
Definition set_sb v s := mk_fss (blk s) v (icache_lock s) (inodes s) (mypid s) (mycwd s).

Definition io {A} (m : M T A) : M fss A := zoom blk set_blk m.
Definition data_of (bp : nat) : M fss (list Z) := reads (fun s => bdata (blk s) bp).
Definition store (bp : nat) (d : list Z) : M fss unit := io (bput bp d).
Definition getip (ip : nat) : M fss inode := reads (fun s => inodes s !!! ip).
Definition updip (ip : nat) (f : inode -> inode) : M fss unit :=
  modify (fun s => set_inodes (alter f ip (inodes s)) s).
Definition updnode (ip : nat) (f : dinode -> dinode) : M fss unit :=
  updip ip (fun x => set_node (f (i_node x)) x).

Definition acquire_ic : M fss unit := fun s =>
  if icache_lock s then Panic "acquire" else Ret tt (set_icache true s).
Definition release_ic : M fss unit := fun s =>
  if icache_lock s then Ret tt (set_icache false s) else Panic "release".
Definition on_ilock {A} (ip : nat) (m : M sleeplock A) : M fss A :=
  zoom (fun s => i_lock (inodes s !!! ip)) (fun l s => set_inodes (alter (set_ilock l) ip (inodes s)) s) m.

(** ** Blocks *)

Definition readsb (dev : Z) : M fss superblock :=
  let! bp := io (bread dev 1) in
  let! d := data_of bp in
  io (brelse bp) ;;
  ret (superblock_of d).

Definition bzero (dev bno : Z) : M fss unit :=
  let! bp := io (bread dev bno) in
  let! d := data_of bp in
  store bp (memset d 0 0 BSIZE) ;;
  io (log_write bp) ;;
  io (brelse bp).

Definition bit_mask (bi : Z) : Z := Z.shiftl 1 (bi mod 8).
Definition bit_clear (d : list Z) (bi : Z) : bool := Z.land (aref d (bi / 8)) (bit_mask bi) =? 0.

(** The first clear bit of the block among the [k] bits from [bi]. *)
Fixpoint find_clear (k : nat) (d : list Z) (bi : Z) : option Z :=
  match k with
  | O => None
  | S k => if bit_clear d bi then Some bi else find_clear k d (bi + 1)
  end.

(** [for(b = 0; b < sb.size; b += BPB)], [k] bitmap blocks from the one of [b]. *)
Fixpoint balloc_loop (dev : Z) (k : nat) (b : Z) : M fss Z :=
  match k with
  | O => panic "balloc: out of blocks"
  | S k =>
      let! v := reads sb in
      let! bp := io (bread dev (BBLOCK b v)) in
      let! d := data_of bp in
      match find_clear (Z.to_nat (Z.min BPB (sb_size v - b))) d 0 with
      | Some bi =>
          store bp (aset d (bi / 8) (u8 (Z.lor (aref d (bi / 8)) (bit_mask bi)))) ;;
          io (log_write bp) ;;
          io (brelse bp) ;;
          bzero dev (b + bi) ;;
          ret (b + bi)
      | None =>
          io (brelse bp) ;;
          balloc_loop dev k (b + BPB)
      end
  end.
Definition balloc (dev : Z) : M fss Z :=
  let! v := reads sb in
  balloc_loop dev (Z.to_nat ((sb_size v + BPB - 1) / BPB)) 0.

Definition bfree (dev b : Z) : M fss unit :=
  let! v := reads sb in
  let! bp := io (bread dev (BBLOCK b v)) in
  let! d := data_of bp in
  let bi := b mod BPB in
  if bit_clear d bi then panic "freeing free block"
  else
    store bp (aset d (bi / 8) (u8 (Z.land (aref d (bi / 8)) (Z.lnot (bit_mask bi))))) ;;
    io (log_write bp) ;;
    io (brelse bp).

(** ** Inodes *)

Definition iinit (dev : Z) : M fss unit :=
  modify (set_icache false) ;;
  modify (fun s => set_inodes (set_ilock initsleeplock <$> inodes s) s) ;;
  let! v := readsb dev in
  modify (set_sb v).

Definition iget (dev inum : Z) : M fss nat :=
  acquire_ic ;;
  let! s := get in
  match find_index (fun x => (0 <? i_ref x) && (i_dev x =? dev) && (i_inum x =? inum)) (inodes s) with
  | Some ip =>
      updip ip (fun x => set_ref (i_ref x + 1) x) ;;
      release_ic ;;
      ret ip
  | None =>
      match find_index (fun x => i_ref x =? 0) (inodes s) with
      | None => panic "iget: no inodes"
      | Some ip =>
          updip ip (fun x => mk_inode dev inum 1 (i_lock x) 0 (i_node x)) ;;
          release_ic ;;
          ret ip
      end
  end.

(** [for(inum = 1; inum < sb.ninodes; inum++)], [k] inodes from [inum]. *)
Fixpoint ialloc_loop (dev type : Z) (k : nat) (inum : Z) : M fss nat :=
  match k with
  | O => panic "ialloc: no inodes"
  | S k =>
      let! v := reads sb in
      let! bp := io (bread dev (IBLOCK inum v)) in
      let! d := data_of bp in
      let off := dinode_at inum in
      if get16 d off =? 0 then
        store bp (set16 (memset d off 0 64) off type) ;;
        io (log_write bp) ;;
        io (brelse bp) ;;
        iget dev inum
      else
        io (brelse bp) ;;
        ialloc_loop dev type k (inum + 1)
  end.
Definition ialloc (dev type : Z) : M fss nat :=
  let! v := reads sb in ialloc_loop dev type (Z.to_nat (sb_ninodes v - 1)) 1.

Definition iupdate (ip : nat) : M fss unit :=
  let! x := getip ip in
  let! v := reads sb in
  let! bp := io (bread (i_dev x) (IBLOCK (i_inum x) v)) in
  let! d := data_of bp in
  store bp (put_dinode (i_node x) (dinode_at (i_inum x)) d) ;;
  io (log_write bp) ;;
  io (brelse bp).

Definition idup (ip : nat) : M fss nat :=
  acquire_ic ;;
  updip ip (fun x => set_ref (i_ref x + 1) x) ;;
  release_ic ;;
  ret ip.

Variable ilock_addr : nat -> Z.

Definition ilock (ip : nat) : M fss unit :=
  let! x := getip ip in
  if i_ref x <? 1 then panic "ilock"
  else
    let! s := get in
    on_ilock ip (acquiresleep (ilock_addr ip) (mypid s)) ;;
    let! x := getip ip in
    when (i_valid x =? 0)
      (let! v := reads sb in
       let! bp := io (bread (i_dev x) (IBLOCK (i_inum x) v)) in
       let! d := data_of bp in
       updip ip (set_node (get_dinode d (dinode_at (i_inum x)))) ;;
       io (brelse bp) ;;
       updip ip (set_valid 1) ;;
       let! x := getip ip in
       if i_type (i_node x) =? 0 then panic "ilock: no type" else ret tt).

Definition iunlock (ip : nat) : M fss unit :=
  let! s := get in
  let! h := on_ilock ip (holdingsleep (mypid s)) in
  let! x := getip ip in
  if negb h || (i_ref x <? 1) then panic "iunlock"
  else on_ilock ip (releasesleep (ilock_addr ip)) ;; ret tt.

(** [for(i = 0; i < NDIRECT; i++)] of [itrunc] *)
Definition itrunc_direct (ip : nat) (i : Z) : M fss unit :=
  let! x := getip ip in
  let a := aref (i_addrs (i_node x)) i in
  if a =? 0 then ret tt
  else bfree (i_dev x) a ;; updnode ip (set_addr i 0).

(** The blocks named by the indirect block, [bp], which is held. *)
Definition itrunc_indirect (dev : Z) (bp : nat) (j : Z) : M fss unit :=
  let! d := data_of bp in
  let a := get32 d (Z.to_nat (4 * j)) in
  if a =? 0 then ret tt else bfree dev a.

Definition itrunc (ip : nat) : M fss unit :=
  for_ (Z.to_nat NDIRECT) 0 (itrunc_direct ip) ;;
  let! x := getip ip in
  let a := aref (i_addrs (i_node x)) NDIRECT in
  (if a =? 0 then ret tt
   else
     let! bp := io (bread (i_dev x) a) in
     for_ (Z.to_nat NINDIRECT) 0 (itrunc_indirect (i_dev x) bp) ;;
     io (brelse bp) ;;
     bfree (i_dev x) a ;;
     updnode ip (set_addr NDIRECT 0)) ;;
  updnode ip (set_size 0) ;;
  iupdate ip.

Definition iput (ip : nat) : M fss unit :=
  let! s := get in
  on_ilock ip (acquiresleep (ilock_addr ip) (mypid s)) ;;
  let! x := getip ip in
  when (negb (i_valid x =? 0) && (i_nlink (i_node x) =? 0))
    (acquire_ic ;;
     let! x := getip ip in
     release_ic ;;
     when (i_ref x =? 1)
       (itrunc ip ;;
        updnode ip (set_type 0) ;;
        iupdate ip ;;
        updip ip (set_valid 0))) ;;
  on_ilock ip (releasesleep (ilock_addr ip)) ;;
  acquire_ic ;;
  updip ip (fun x => set_ref (i_ref x - 1) x) ;;
  release_ic.

Definition iunlockput (ip : nat) : M fss unit := iunlock ip ;; iput ip.

(** ** The contents of an inode *)

(** The [bn]-th entry of the indirect block [a]. *)
Definition bmap_indirect (dev a bn : Z) : M fss Z :=
  let! bp := io (bread dev a) in
  let! d := data_of bp in
  let off := Z.to_nat (4 * bn) in
  let a := get32 d off in
  let! a := if a =? 0 then
              let! a := balloc dev in
              let! d := data_of bp in
              store bp (set32 d off a) ;;
              io (log_write bp) ;;
              ret a
            else ret a in
  io (brelse bp) ;;
  ret a.

(** The address in slot [k] of the inode, allocating if necessary. *)
Definition bmap_addr (ip : nat) (k : Z) : M fss Z :=
  let! x := getip ip in
  let a := aref (i_addrs (i_node x)) k in
  if a =? 0 then
    let! a := balloc (i_dev x) in
    updnode ip (set_addr k a) ;;
    ret a
  else ret a.

Definition bmap (ip : nat) (bn : Z) : M fss Z :=
  let! x := getip ip in
  if bn <? NDIRECT then bmap_addr ip bn
  else
    let bn := bn - NDIRECT in
    if bn <? NINDIRECT then
      let! a := bmap_addr ip NDIRECT in
      bmap_indirect (i_dev x) a bn
    else panic "bmap: out of range".

Record stat := mk_stat { st_type : Z; st_dev : Z; st_ino : Z; st_nlink : Z; st_size : Z }.
Definition stati (ip : nat) : M fss stat :=
  let! x := getip ip in
  let n := i_node x in
  ret (mk_stat (i_type n) (i_dev x) (i_inum x) (i_nlink n) (i_size n)).

(** A row of [devsw]; [None] is a null pointer. *)
Record device := mk_device {
  dev_read : option (nat -> Z -> M fss (Z * list Z));
  dev_write : option (nat -> list Z -> Z -> M fss Z);
}.
(** [devsw] before a driver has registered itself. *)
Definition no_drivers (major : Z) : device := mk_device None None.
Variable devsw : Z -> device.
(** [ip->major < 0 || ip->major >= NDEV] *)
Definition no_major (major : Z) : bool := (major <? 0) || (NDEV <=? major).

(** The loop of [readi]: [n] bytes from [off], which are returned; every turn
    takes at least one byte and ends at a block boundary or at the end. *)
Fixpoint readi_loop (fuel : nat) (ip : nat) (off n : Z) : M fss (list Z) :=
  if n <=? 0 then ret []
  else
    match fuel with
    | O => hang
    | S fuel =>
        let! x := getip ip in
        let! a := bmap ip (off / BSZ) in
        let! bp := io (bread (i_dev x) a) in
        let m := Z.min n (BSZ - off mod BSZ) in
        let! d := data_of bp in
        io (brelse bp) ;;
        let! rest := readi_loop fuel ip (u32 (off + m)) (n - m) in
        ret (slice (Z.to_nat (off mod BSZ)) (Z.to_nat m) d ++ rest)
    end.

(** The return value, and the bytes stored at [dst]. *)
Definition readi (ip : nat) (off n : Z) : M fss (Z * list Z) :=
  let! x := getip ip in
  let nd := i_node x in
  if i_type nd =? T_DEV then
    if no_major (i_major nd) then ret (-1, [])
    else match dev_read (devsw (i_major nd)) with None => ret (-1, []) | Some rd => rd ip (i32 n) end
  else if (i_size nd <? off) || (u32 (off + n) <? off) then ret (-1, [])
  else
    let n := if i_size nd <? u32 (off + n) then i_size nd - off else n in
    let! bs := readi_loop (Z.to_nat (n / BSZ + 2)) ip off n in
    ret (i32 n, bs).

(** The loop of [writei]: the bytes of [src] from [off]; the result is the
    offset after the last one. *)
Fixpoint writei_loop (fuel : nat) (ip : nat) (off : Z) (src : list Z) : M fss Z :=
  match src with
  | [] => ret off
  | _ =>
      match fuel with
      | O => hang
      | S fuel =>
          let! x := getip ip in
          let! a := bmap ip (off / BSZ) in
          let! bp := io (bread (i_dev x) a) in
          let m := Z.min (Z.of_nat (length src)) (BSZ - off mod BSZ) in
          let! d := data_of bp in
          store bp (splice (Z.to_nat (off mod BSZ)) (take (Z.to_nat m) src) d) ;;
          io (log_write bp) ;;
          io (brelse bp) ;;
          writei_loop fuel ip (u32 (off + m)) (drop (Z.to_nat m) src)
      end
  end.

Definition writei (ip : nat) (src : list Z) (off n : Z) : M fss Z :=
  let! x := getip ip in
  let nd := i_node x in
  if i_type nd =? T_DEV then
    if no_major (i_major nd) then ret (-1)
    else match dev_write (devsw (i_major nd)) with None => ret (-1) | Some wr => wr ip src (i32 n) end
  else if (i_size nd <? off) || (u32 (off + n) <? off) then ret (-1)
  else if MAXFILE * BSZ <? u32 (off + n) then ret (-1)
  else if Z.of_nat (length src) <? n then undefined
  else
    let! off := writei_loop (Z.to_nat (n / BSZ + 2)) ip off (take (Z.to_nat n) src) in
    let! x := getip ip in
    when ((0 <? n) && (i_size (i_node x) <? off))
      (updnode ip (set_size off) ;;
       iupdate ip) ;;
    ret (i32 n).

(** ** Directories *)

Definition dirent_size : Z := 16.
Definition de_inum (de : list Z) : Z := get16 de 0.
Definition de_name (de : list Z) : list Z := slice 2 DIRSIZ de.

Definition namecmp (s t : list Z) : option Z := strncmp s t DIRSIZ.

(** [for(off = 0; off < dp->size; off += sizeof(de))]; the entry found is
    given with its offset. *)
Fixpoint dirlookup_loop (fuel : nat) (dp : nat) (name : list Z) (off : Z) : M fss (option (nat * Z)) :=
  let! x := getip dp in
  if off <? i_size (i_node x) then
    match fuel with
    | O => hang
    | S fuel =>
        let! de := readi dp off dirent_size in
        if negb (fst de =? dirent_size) then panic "dirlookup read"
        else if de_inum (snd de) =? 0 then dirlookup_loop fuel dp name (u32 (off + dirent_size))
        else
          match namecmp name (de_name (snd de)) with
          | None => undefined
          | Some r =>
              if r =? 0 then
                let! ip := iget (i_dev x) (de_inum (snd de)) in
                ret (Some (ip, off))
              else dirlookup_loop fuel dp name (u32 (off + dirent_size))
          end
    end
  else ret None.

Definition dirlookup (dp : nat) (name : list Z) : M fss (option (nat * Z)) :=
  let! x := getip dp in
  if negb (i_type (i_node x) =? T_DIR) then panic "dirlookup not DIR"
  else dirlookup_loop (Z.to_nat (i_size (i_node x) / dirent_size + 1)) dp name 0.

(** The offset of the first empty entry, or the end. *)
Fixpoint dirlink_loop (fuel : nat) (dp : nat) (off : Z) : M fss Z :=
  let! x := getip dp in
  if off <? i_size (i_node x) then
    match fuel with
    | O => hang
    | S fuel =>
        let! de := readi dp off dirent_size in
        if negb (fst de =? dirent_size) then panic "dirlink read"
        else if de_inum (snd de) =? 0 then ret off
        else dirlink_loop fuel dp (off + dirent_size)
    end
  else ret off.

Definition dirlink (dp : nat) (name : list Z) (inum : Z) : M fss Z :=
  let! r := dirlookup dp name in
  match r with
  | Some (ip, _) => iput ip ;; ret (-1)
  | None =>
      let! x := getip dp in
      let! off := dirlink_loop (Z.to_nat (i_size (i_node x) / dirent_size + 1)) dp 0 in
      match strncpy (replicate DIRSIZ 0) name DIRSIZ with
      | None => undefined
      | Some nm =>
          let! r := writei dp (le_enc 2 inum ++ nm) off dirent_size in
          if negb (r =? dirent_size) then panic "dirlink" else ret 0
      end
  end.

(** ** Paths *)

Definition slash : Z := 47.

Fixpoint skip_slashes (path : list Z) : option (list Z) :=
  match path with
  | [] => None
  | c :: p => if c =? slash then skip_slashes p else Some path
  end.
(** The bytes up to a slash or the end of the string, and what follows. *)
Fixpoint span_elem (path : list Z) : option (list Z * list Z) :=
  match path with
  | [] => None
  | c :: p =>
      if negb (c =? slash) && negb (c =? 0) then (fun r => (c :: fst r, snd r)) <$> span_elem p
      else Some ([], path)
  end.

(** The path after the element and [name], with the element copied into it;
    [None] inside for a null pointer. *)
Definition skipelem (path name : list Z) : option (option (list Z * list Z)) :=
  path ← skip_slashes path;
  if aref path 0 =? 0 then Some None
  else
    '(el, path) ← span_elem path;
    let name :=
      if (DIRSIZ <=? length el)%nat then splice 0 (take DIRSIZ el) name
      else splice 0 (el ++ [0]) name in
    path ← skip_slashes path;
    Some (Some (path, name)).

(** The loop of [namex]; every element shortens the path. *)
Fixpoint namex_loop (fuel : nat) (ip : nat) (path : list Z) (nameiparent : bool) (name : list Z)
  : M fss (option nat * list Z) :=
  match skipelem path name with
  | None => undefined
  | Some None =>
      if nameiparent then iput ip ;; ret (None, name) else ret (Some ip, name)
  | Some (Some (path, name)) =>
      match fuel with
      | O => hang
      | S fuel =>
          ilock ip ;;
          let! x := getip ip in
          if negb (i_type (i_node x) =? T_DIR) then iunlockput ip ;; ret (None, name)
          else if nameiparent && (aref path 0 =? 0) then iunlock ip ;; ret (Some ip, name)
          else
            let! next := dirlookup ip name in
            match next with
            | None => iunlockput ip ;; ret (None, name)
            | Some (next, _) => iunlockput ip ;; namex_loop fuel next path nameiparent name
            end
      end
  end.

Definition namex (path : list Z) (nameiparent : bool) (name : list Z) : M fss (option nat * list Z) :=
  let! ip := if aref path 0 =? slash then iget ROOTDEV ROOTINO
             else let! s := get in idup (mycwd s) in
  namex_loop (length path) ip path nameiparent name.

Definition namei (path : list Z) : M fss (option nat) :=
  let! r := namex path false (replicate DIRSIZ 0) in ret (fst r).
Definition nameiparent (path name : list Z) : M fss (option nat * list Z) := namex path true name.
End fs.
#[global] Arguments fss : clear implicits.
