(* ===== verification/FsAlloc.v ===== *)
(** * The block allocator (balloc, bfree and bzero of fs.c)

    [balloc] takes the free block with the least number, marks it in the
    bitmap and clears it; [bfree] unmarks one.  Both leave every other bit
    and every other block alone. *)

From S2P Require Import Prelude Cstring Sleeplock Bio Log Blocks Fs.

(** ** Bits of a block *)

Lemma bit_clear_spec d bi : 0 <= bi -> bit_clear d bi = negb (Z.testbit (aref d (bi / 8)) (bi mod 8)).
Proof.
  intros Hbi. unfold bit_clear, bit_mask. pose proof (Z.mod_pos_bound bi 8 ltac:(lia)) as Hk. set (k := bi mod 8) in *.
  rewrite Z.shiftl_1_l. set (a := aref d (bi / 8)). destruct (Z.testbit a k) eqn:E; cbn [negb].
  - apply Z.eqb_neq. intros H0. apply (f_equal (fun z => Z.testbit z k)) in H0.
    rewrite Z.land_spec, E, Z.pow2_bits_true, Z.bits_0 in H0 by lia. done.
  - apply Z.eqb_eq. apply Z.bits_inj'. intros n Hn. rewrite Z.land_spec, Z.bits_0, Z.pow2_bits_eqb by lia.
    destruct (Z.eqb_spec k n) as [<-|]; [by rewrite E | apply andb_false_r].
Qed.

Lemma aref_aset_eq l i x : 0 <= i < Z.of_nat (length l) -> aref (aset l i x) i = x.
Proof. intros H. unfold aref, aset. by rewrite list_lookup_insert_eq by lia. Qed.

Lemma aref_aset_ne l i j x : 0 <= i -> 0 <= j -> i <> j -> aref (aset l i x) j = aref l j.
Proof. intros Hi Hj H. unfold aref, aset. by rewrite list_lookup_insert_ne by lia. Qed.

(** Bits of a block and their bytes. *)
Lemma bit_pos x : 0 <= x < BPB -> 0 <= x / 8 < 512 /\ 0 <= x mod 8 < 8 /\ x = 8 * (x / 8) + x mod 8.
Proof.
  unfold BPB. intros H. pose proof (Z.mod_pos_bound x 8 ltac:(lia)). pose proof (Z.div_mod x 8 ltac:(lia)). lia.
Qed.

Lemma bit_set_at d bi x v :
  length d = BSIZE -> 0 <= bi < BPB -> 0 <= x < BPB ->
  bit_clear (aset d (bi / 8) (u8 v)) x =
    if bi / 8 =? x / 8 then negb (Z.testbit v (x mod 8)) else bit_clear d x.
Proof.
  intros Hd Hb Hx. pose proof (bit_pos bi Hb) as (Hb1 & _). pose proof (bit_pos x Hx) as (Hx1 & Hx2 & _).
  rewrite !bit_clear_spec by lia. destruct (Z.eqb_spec (bi / 8) (x / 8)) as [E|E].
  - rewrite E, aref_aset_eq by (rewrite Hd; unfold BSIZE; lia). unfold u8. by rewrite Z.mod_pow2_bits_low by lia.
  - by rewrite aref_aset_ne by lia.
Qed.

Lemma mark_bit d bi x :
  length d = BSIZE -> 0 <= bi < BPB -> 0 <= x < BPB ->
  bit_clear (aset d (bi / 8) (u8 (Z.lor (aref d (bi / 8)) (bit_mask bi)))) x =
    if decide (x = bi) then false else bit_clear d x.
Proof.
  intros Hd Hb Hx. rewrite bit_set_at by done. pose proof (bit_pos bi Hb) as (_ & Hb2 & Eb). pose proof (bit_pos x Hx) as (_ & Hx2 & Ex).
  unfold bit_mask. rewrite Z.shiftl_1_l, Z.lor_spec, Z.pow2_bits_eqb by lia.
  destruct (Z.eqb_spec (bi / 8) (x / 8)) as [E|E].
  - destruct (decide (x = bi)) as [->|Hne]; [by rewrite Z.eqb_refl, orb_true_r|].
    rewrite (proj2 (Z.eqb_neq (bi mod 8) (x mod 8))) by lia. rewrite orb_false_r, bit_clear_spec, E by lia. done.
  - by rewrite decide_False by congruence.
Qed.

Lemma unmark_bit d bi x :
  length d = BSIZE -> 0 <= bi < BPB -> 0 <= x < BPB ->
  bit_clear (aset d (bi / 8) (u8 (Z.land (aref d (bi / 8)) (Z.lnot (bit_mask bi))))) x =
    if decide (x = bi) then true else bit_clear d x.
Proof.
  intros Hd Hb Hx. rewrite bit_set_at by done. pose proof (bit_pos bi Hb) as (_ & Hb2 & Eb). pose proof (bit_pos x Hx) as (_ & Hx2 & Ex).
  unfold bit_mask. rewrite Z.shiftl_1_l, Z.land_spec, Z.lnot_spec, Z.pow2_bits_eqb by lia.
  destruct (Z.eqb_spec (bi / 8) (x / 8)) as [E|E].
  - destruct (decide (x = bi)) as [->|Hne]; [by rewrite Z.eqb_refl, andb_false_r|].
    rewrite (proj2 (Z.eqb_neq (bi mod 8) (x mod 8))) by lia. cbn [negb]. rewrite andb_true_r, bit_clear_spec, E by lia. done.
  - by rewrite decide_False by congruence.
Qed.

Lemma find_clear_spec k d bi :
  match find_clear k d bi with
  | Some r => bi <= r < bi + Z.of_nat k /\ bit_clear d r = true /\ forall x, bi <= x < r -> bit_clear d x = false
  | None => forall x, bi <= x < bi + Z.of_nat k -> bit_clear d x = false
  end.
Proof.
  revert bi. induction k as [|k IH]; intros bi; cbn [find_clear]; [lia|].
  destruct (bit_clear d bi) eqn:E; [split; [lia|]; split; [done | lia]|].
  specialize (IH (bi + 1)). destruct (find_clear k d (bi + 1)) as [r|].
  - destruct IH as (Hr & Hc & Hx). split; [lia|]. split; [done|]. intros x Hb.
    destruct (Z.eq_dec x bi) as [->|]; [done|]. apply Hx. lia.
  - intros x Hb. destruct (Z.eq_dec x bi) as [->|]; [done|]. apply IH. lia.
Qed.

Lemma length_aset {A} (l : list A) i x : length (aset l i x) = length l.
Proof. apply length_insert. Qed.

(** ** The layout of the disk *)

Section alloc.
Context {T : Type} {IO : BlockIO T} {BL : BlockLaws T}.

(** The bit of a block in the bitmap. *)
Definition used (v : superblock) (C : contents_map) (b : Z) : bool := negb (bit_clear (C (BBLOCK b v)) (b mod BPB)).

(** Bitmap and inode blocks come before the data blocks, which start at [ds]. *)
Record layout (v : superblock) (ds : Z) : Prop := {
  lay_size : 0 < ds <= sb_size v /\ sb_size v < 2 ^ 31;
  lay_bmap : 0 <= sb_bmapstart v < 2 ^ 31;
  lay_inodes : 0 <= sb_inodestart v < 2 ^ 31 /\ 0 <= sb_ninodes v < 2 ^ 31;
  lay_bitmap b : 0 <= b < sb_size v -> logged (BBLOCK b v) /\ BBLOCK b v < ds;
  lay_inode i : 0 <= i < sb_ninodes v -> logged (IBLOCK i v) /\ IBLOCK i v < ds;
  lay_apart b i : 0 <= b < sb_size v -> 0 <= i < sb_ninodes v -> BBLOCK b v <> IBLOCK i v;
  lay_data b : ds <= b < sb_size v -> logged b;
}.

(** The blocks before the data are marked; no buffer of the bitmap is held. *)
Definition marked (v : superblock) (ds : Z) (C : contents_map) : Prop := forall b, 0 <= b < ds -> used v C b = true.
Definition holds_data (v : superblock) (ds : Z) (C : contents_map) (H : gmap nat Z) : Prop :=
  forall j b, H !! j = Some b -> ds <= b < sb_size v /\ used v C b = true.

Lemma bblock_eq v ds b x :
  layout v ds -> 0 <= b < sb_size v -> 0 <= x < sb_size v -> BBLOCK b v = BBLOCK x v -> b / BPB = x / BPB.
Proof.
  intros Lay Hb Hx. pose proof (lay_size _ _ Lay). pose proof (lay_bmap _ _ Lay). unfold BBLOCK, BPB.
  pose proof (Z.div_mod b 4096 ltac:(lia)). pose proof (Z.mod_pos_bound b 4096 ltac:(lia)).
  pose proof (Z.div_mod x 4096 ltac:(lia)). pose proof (Z.mod_pos_bound x 4096 ltac:(lia)).
  rewrite !u32_small by lia. lia.
Qed.

Lemma io_run {A} (m : M T A) (s : fss T) a t : m (blk s) = Ret a t -> io m s = Ret a (set_blk t s).
Proof. intros E. unfold io, zoom. by rewrite E. Qed.

(** A block read, changed and logged, as fs.c does it. *)
Definition rewrite_block (dev b : Z) (f : list Z -> list Z) : M (fss T) unit :=
  let! bp := io (bread dev b) in
  let! d := data_of bp in
  store bp (f d) ;;
  io (log_write bp) ;;
  io (brelse bp).

Lemma rewrite_block_law s H C L b f :
  ok (blk s) H C L -> logged b -> (size H <= 1)%nat -> (forall j, H !! j <> Some b) -> length (f (C b)) = BSIZE ->
  (size ({[b]} ∪ L) <= capacity)%nat ->
  exists t, rewrite_block 1 b f s = Ret tt (set_blk t s) /\
    ok t H (upd b (f (C b)) C) ({[b]} ∪ L) /\ same_data H (blk s) t.
Proof.
  intros Hs Hb Hn Hnot Hf Hcap.
  destruct (update_law (blk s) H C L b (f (C b)) Hs Hb Hn Hnot Hf Hcap) as (i & s1 & s2 & s3 & s4 & E1 & Hd & E2 & E3 & E4 & H4 & D4).
  exists s4. split; [|done]. unfold rewrite_block.
  rewrite (bind_ret _ _ _ _ _ (io_run _ _ _ _ E1)). unfold bind at 1, data_of, reads. cbn [blk set_blk]. rewrite Hd.
  unfold store. rewrite (bind_ret _ _ _ _ _ (io_run _ (set_blk s1 s) _ _ E2)).
  rewrite (bind_ret _ _ _ _ _ (io_run _ (set_blk s2 (set_blk s1 s)) _ _ E3)).
  exact (io_run _ (set_blk s3 (set_blk s2 (set_blk s1 s))) _ _ E4).
Qed.

Lemma bzero_law s H C L b :
  ok (blk s) H C L -> logged b -> (size H <= 1)%nat -> (forall j, H !! j <> Some b) ->
  (size ({[b]} ∪ L) <= capacity)%nat ->
  exists t, bzero 1 b s = Ret tt (set_blk t s) /\
    ok t H (upd b (replicate BSIZE 0) C) ({[b]} ∪ L) /\ same_data H (blk s) t.
Proof.
  intros Hs Hb Hn Hnot Hcap. pose proof (ok_len _ _ _ _ _ Hs Hb) as Hlen.
  assert (memset (C b) 0 0 BSIZE = replicate BSIZE 0) as Em.
  { rewrite memset_correct by (rewrite Hlen; lia). apply splice_all. by rewrite length_replicate. }
  destruct (rewrite_block_law s H C L b (fun d => memset d 0 0 BSIZE) Hs Hb Hn Hnot) as (t & E & Ht);
    [cbn beta; rewrite Em; apply length_replicate | exact Hcap |].
  cbn beta in Ht. rewrite Em in Ht. exists t. split; [exact E | exact Ht].
Qed.

(** The bitmap after [b] is marked, or unmarked. *)
Definition mark (v : superblock) (b : Z) (C : contents_map) : contents_map :=
  let d := C (BBLOCK b v) in
  let bi := b mod BPB in
  upd (BBLOCK b v) (aset d (bi / 8) (u8 (Z.lor (aref d (bi / 8)) (bit_mask bi)))) C.
Definition unmark (v : superblock) (b : Z) (C : contents_map) : contents_map :=
  let d := C (BBLOCK b v) in
  let bi := b mod BPB in
  upd (BBLOCK b v) (aset d (bi / 8) (u8 (Z.land (aref d (bi / 8)) (Z.lnot (bit_mask bi))))) C.

Lemma mod_BPB x : 0 <= x mod BPB < BPB.
Proof. apply Z.mod_pos_bound. unfold BPB. lia. Qed.

Section bitmap.
Context (v : superblock) (ds : Z) (Lay : layout v ds) (C : contents_map).
Context (Hlen : forall b, 0 <= b < sb_size v -> length (C (BBLOCK b v)) = BSIZE).

Lemma used_mark b x :
  0 <= b < sb_size v -> 0 <= x < sb_size v -> used v (mark v b C) x = if decide (x = b) then true else used v C x.
Proof.
  intros Hb Hx. unfold used, mark. destruct (decide (BBLOCK x v = BBLOCK b v)) as [E|E].
  - rewrite E, upd_eq. rewrite mark_bit by (auto using mod_BPB). apply (bblock_eq v ds) in E; try done.
    pose proof (Z.div_mod b BPB ltac:(unfold BPB; lia)). pose proof (Z.div_mod x BPB ltac:(unfold BPB; lia)).
    destruct (decide (x = b)) as [->|Hne]; [by rewrite decide_True|].
    rewrite decide_False by (intros ?; apply Hne; congruence). done.
  - rewrite upd_ne by done. by rewrite decide_False by (intros ->; done).
Qed.

Lemma used_unmark b x :
  0 <= b < sb_size v -> 0 <= x < sb_size v -> used v (unmark v b C) x = if decide (x = b) then false else used v C x.
Proof.
  intros Hb Hx. unfold used, unmark. destruct (decide (BBLOCK x v = BBLOCK b v)) as [E|E].
  - rewrite E, upd_eq. rewrite unmark_bit by (auto using mod_BPB). apply (bblock_eq v ds) in E; try done.
    pose proof (Z.div_mod b BPB ltac:(unfold BPB; lia)). pose proof (Z.div_mod x BPB ltac:(unfold BPB; lia)).
    destruct (decide (x = b)) as [->|Hne]; [by rewrite decide_True|].
    rewrite decide_False by (intros ?; apply Hne; congruence). done.
  - rewrite upd_ne by done. by rewrite decide_False by (intros ->; done).
Qed.
End bitmap.

Lemma used_data v ds C b d x :
  layout v ds -> ds <= b -> 0 <= x < sb_size v -> used v (upd b d C) x = used v C x.
Proof.
  intros Lay Hb Hx. unfold used. rewrite upd_ne; [done|]. pose proof (lay_bitmap _ _ Lay x Hx). lia.
Qed.

(** The free block with the least number. *)
Definition first_free (v : superblock) (C : contents_map) (f : Z) : Prop :=
  0 <= f < sb_size v /\ used v C f = false /\ forall x, 0 <= x < f -> used v C x = true.

Lemma same_bitmap v b bi :
  0 <= b -> b mod BPB = 0 -> 0 <= bi < BPB -> BBLOCK (b + bi) v = BBLOCK b v /\ (b + bi) mod BPB = bi.
Proof.
  intros Hb Hm Hbi. pose proof (Z.div_mod b BPB ltac:(unfold BPB; lia)) as Hd. rewrite Hm in Hd.
  assert ((b + bi) / BPB = b / BPB) as E by (symmetry; apply (Z.div_unique_pos _ _ _ bi); lia).
  split; [unfold BBLOCK; by rewrite E|]. symmetry. apply (Z.mod_unique_pos _ _ (b / BPB)); lia.
Qed.

Section balloc.
Context (H : gmap nat Z) (C : contents_map) (L : gset Z) (ds : Z).
Context (Hn : (size H <= 1)%nat).

Lemma holds_bitmap v b :
  layout v ds -> holds_data v ds C H -> 0 <= b < sb_size v -> forall j, H !! j <> Some (BBLOCK b v).
Proof. intros Lay HH Hb j Hj. destruct (HH j _ Hj) as [? _]. pose proof (lay_bitmap _ _ Lay b Hb). lia. Qed.

Lemma holds_used v b : holds_data v ds C H -> used v C b = false -> forall j, H !! j <> Some b.
Proof. intros HH Hb j Hj. destruct (HH j _ Hj) as [_ ?]. congruence. Qed.

Lemma balloc_loop_law k : forall b (s : fss T) f,
  layout (sb s) ds -> ok (blk s) H C L -> holds_data (sb s) ds C H -> marked (sb s) ds C ->
  0 <= b -> b mod BPB = 0 -> sb_size (sb s) <= b + Z.of_nat k * BPB ->
  (forall x, 0 <= x < b -> x < sb_size (sb s) -> used (sb s) C x = true) -> first_free (sb s) C f ->
  (size L + 2 <= capacity)%nat ->
  exists t, balloc_loop 1 k b s = Ret f (set_blk t s) /\
    ok t H (upd f (replicate BSIZE 0) (mark (sb s) f C)) ({[f]} ∪ ({[BBLOCK f (sb s)]} ∪ L)) /\ same_data H (blk s) t.
Proof.
  induction k as [|k IH]; intros b s f Lay Hs HH Hmk Hb Hmod Hsz Hall Hf Hcap; cbn [balloc_loop].
  { destruct Hf as (Hf & Hu & _). rewrite Hall in Hu by lia. done. }
  pose proof Hf as (Hfr & Hfu & Hfl). pose proof (lay_size _ _ Lay) as Hsize.
  assert (b <= f) as Hbf by (destruct (Z.lt_ge_cases f b); [rewrite Hall in Hfu by lia; done | lia]).
  assert (ds <= f) as Hds by (destruct (Z.lt_ge_cases f ds); [rewrite Hmk in Hfu by lia; done | lia]).
  destruct (lay_bitmap _ _ Lay b ltac:(lia)) as [Hlog _].
  pose proof (ok_len _ _ _ _ _ Hs Hlog) as Hlen.
  unfold bind at 1, reads.
  pose proof (find_clear_spec (Z.to_nat (Z.min BPB (sb_size (sb s) - b))) (C (BBLOCK b (sb s))) 0) as Hfc.
  assert (forall bi, 0 <= bi < BPB -> used (sb s) C (b + bi) = negb (bit_clear (C (BBLOCK b (sb s))) bi)) as Hub.
  { intros bi Hbi. unfold used. destruct (same_bitmap (sb s) b bi Hb Hmod Hbi) as [-> ->]. done. }
  destruct (find_clear _ (C (BBLOCK b (sb s))) 0) as [bi|] eqn:Efc.
  - destruct Hfc as (Hbi & Hclr & Hmin). assert (0 <= bi < BPB) as Hbi' by lia.
    assert (f = b + bi) as ->.
    { destruct (Z.lt_trichotomy f (b + bi)) as [Hlt|[E|Hgt]]; [|done|].
      - specialize (Hub (f - b) ltac:(lia)). replace (b + (f - b)) with f in Hub by lia.
        rewrite (Hmin (f - b)), Hfu in Hub by lia. done.
      - specialize (Hfl (b + bi) ltac:(lia)). rewrite Hub, Hclr in Hfl by lia. done. }
    destruct (same_bitmap (sb s) b bi Hb Hmod Hbi') as [Ebb Emod].
    destruct (update_law (blk s) H C L (BBLOCK b (sb s)) (aset (C (BBLOCK b (sb s))) (bi / 8)
       (u8 (Z.lor (aref (C (BBLOCK b (sb s))) (bi / 8)) (bit_mask bi)))) Hs Hlog Hn)
      as (i & s1 & s2 & s3 & s4 & E1 & Hd & E2 & E3 & E4 & H4 & D4).
    { apply holds_bitmap; [done | done | lia]. }
    { by rewrite length_aset. }
    { pose proof (size_add (BBLOCK b (sb s)) L). lia. }
    rewrite (bind_ret _ _ _ _ _ (io_run _ _ _ _ E1)). unfold bind at 1, data_of, reads. cbn [blk set_blk]. rewrite Hd, Efc.
    unfold store. rewrite (bind_ret _ _ _ _ _ (io_run _ (set_blk s1 s) _ _ E2)).
    rewrite (bind_ret _ _ _ _ _ (io_run _ (set_blk s2 (set_blk s1 s)) _ _ E3)).
    rewrite (bind_ret _ _ _ _ _ (io_run _ (set_blk s3 (set_blk s2 (set_blk s1 s))) _ _ E4)).
    assert (logged (b + bi)) as Hlogb by (apply (lay_data _ _ Lay); lia).
    destruct (bzero_law (set_blk s4 s) H _ _ (b + bi) H4 Hlogb Hn) as (t & E5 & H5 & D5).
    { by apply (holds_used (sb s)). }
    { pose proof (size_add (b + bi) ({[BBLOCK b (sb s)]} ∪ L)). pose proof (size_add (BBLOCK b (sb s)) L). lia. }
    exists t. rewrite (bind_ret _ _ _ _ _ E5). split; [done|]. split.
    + unfold mark. rewrite Ebb, Emod. exact H5.
    + intros j Hj. rewrite (D5 j Hj). exact (D4 j Hj).
  - destruct (read_law (blk s) H C L (BBLOCK b (sb s)) Hs Hlog Hn) as (i & s1 & s2 & E1 & Hd & E2 & H2 & D2).
    { apply holds_bitmap; [done | done | lia]. }
    rewrite (bind_ret _ _ _ _ _ (io_run _ _ _ _ E1)). unfold bind at 1, data_of, reads. cbn [blk set_blk]. rewrite Hd, Efc.
    rewrite (bind_ret _ _ _ _ _ (io_run _ (set_blk s1 s) _ _ E2)).
    destruct (IH (b + BPB) (set_blk s2 s) f) as (t & E & Ht & Dt); try done.
    + unfold BPB. lia.
    + rewrite Z.add_mod, Hmod by (unfold BPB; lia). done.
    + cbn [sb set_blk]. lia.
    + cbn [sb set_blk]. intros x Hx Hxs. destruct (Z.lt_ge_cases x b); [apply Hall; lia|].
      replace x with (b + (x - b)) by lia. rewrite Hub by lia. rewrite Hfc by lia. done.
    + exists t. split; [exact E|]. split; [exact Ht|]. intros j Hj. rewrite (Dt j Hj). exact (D2 j Hj).
Qed.

(** The allocation succeeds when a block is free. *)
Lemma balloc_law (s : fss T) f :
  layout (sb s) ds -> ok (blk s) H C L -> holds_data (sb s) ds C H -> marked (sb s) ds C ->
  first_free (sb s) C f -> (size L + 2 <= capacity)%nat ->
  exists t, balloc 1 s = Ret f (set_blk t s) /\
    ok t H (upd f (replicate BSIZE 0) (mark (sb s) f C)) ({[f]} ∪ ({[BBLOCK f (sb s)]} ∪ L)) /\ same_data H (blk s) t.
Proof.
  intros Lay Hs HH Hmk Hf Hcap. unfold balloc. unfold bind, reads. pose proof (lay_size _ _ Lay).
  apply balloc_loop_law; try done; [|lia].
  pose proof (Z.div_mod (sb_size (sb s) + BPB - 1) BPB ltac:(unfold BPB; lia)).
  pose proof (Z.mod_pos_bound (sb_size (sb s) + BPB - 1) BPB ltac:(unfold BPB; lia)).
  rewrite Z2Nat.id by (apply Z.div_pos; unfold BPB; lia). lia.
Qed.

(** A full disk. *)
Lemma balloc_loop_full k : forall b (s : fss T),
  layout (sb s) ds -> ok (blk s) H C L -> holds_data (sb s) ds C H ->
  0 <= b -> b mod BPB = 0 -> b + Z.of_nat k * BPB < sb_size (sb s) + BPB ->
  (forall x, 0 <= x < sb_size (sb s) -> used (sb s) C x = true) ->
  balloc_loop 1 k b s = Panic "balloc: out of blocks".
Proof.
  induction k as [|k IH]; intros b s Lay Hs HH Hb Hmod Hsz Hall; cbn [balloc_loop]; [done|].
  destruct (lay_bitmap _ _ Lay b ltac:(unfold BPB in *; lia)) as [Hlog _]. unfold bind at 1, reads.
  destruct (read_law (blk s) H C L (BBLOCK b (sb s)) Hs Hlog Hn) as (i & s1 & s2 & E1 & Hd & E2 & H2 & D2).
  { apply holds_bitmap; [done | done | unfold BPB in *; lia]. }
  rewrite (bind_ret _ _ _ _ _ (io_run _ _ _ _ E1)). unfold bind at 1, data_of, reads. cbn [blk set_blk]. rewrite Hd.
  pose proof (find_clear_spec (Z.to_nat (Z.min BPB (sb_size (sb s) - b))) (C (BBLOCK b (sb s))) 0) as Hfc.
  destruct (find_clear _ (C (BBLOCK b (sb s))) 0) as [bi|] eqn:Efc.
  - destruct Hfc as (Hbi & Hclr & _). specialize (Hall (b + bi) ltac:(lia)). unfold used in Hall.
    destruct (same_bitmap (sb s) b bi Hb Hmod ltac:(lia)) as [Ebb Emod]. rewrite Ebb, Emod, Hclr in Hall. done.
  - rewrite (bind_ret _ _ _ _ _ (io_run _ (set_blk s1 s) _ _ E2)).
    apply IH; try done; cbn [sb set_blk]; [unfold BPB; lia | | lia].
    rewrite Z.add_mod, Hmod by (unfold BPB; lia). done.
Qed.

Lemma balloc_full (s : fss T) :
  layout (sb s) ds -> ok (blk s) H C L -> holds_data (sb s) ds C H ->
  (forall x, 0 <= x < sb_size (sb s) -> used (sb s) C x = true) ->
  balloc 1 s = Panic "balloc: out of blocks".
Proof.
  intros Lay Hs HH Hall. unfold balloc. unfold bind, reads. pose proof (lay_size _ _ Lay).
  apply balloc_loop_full; try done.
  pose proof (Z.div_mod (sb_size (sb s) + BPB - 1) BPB ltac:(unfold BPB; lia)).
  pose proof (Z.mod_pos_bound (sb_size (sb s) + BPB - 1) BPB ltac:(unfold BPB; lia)).
  rewrite Z2Nat.id by (apply Z.div_pos; unfold BPB; lia). unfold BPB in *. lia.
Qed.

Lemma bfree_law (s : fss T) b :
  layout (sb s) ds -> ok (blk s) H C L -> holds_data (sb s) ds C H -> 0 <= b < sb_size (sb s) ->
  used (sb s) C b = true -> (size ({[BBLOCK b (sb s)]} ∪ L) <= capacity)%nat ->
  exists t, bfree 1 b s = Ret tt (set_blk t s) /\
    ok t H (unmark (sb s) b C) ({[BBLOCK b (sb s)]} ∪ L) /\ same_data H (blk s) t.
Proof.
  intros Lay Hs HH Hb Hu Hcap. destruct (lay_bitmap _ _ Lay b Hb) as [Hlog _].
  pose proof (ok_len _ _ _ _ _ Hs Hlog) as Hlen. apply negb_true_iff in Hu.
  destruct (update_law (blk s) H C L (BBLOCK b (sb s)) (aset (C (BBLOCK b (sb s))) (b mod BPB / 8)
     (u8 (Z.land (aref (C (BBLOCK b (sb s))) (b mod BPB / 8)) (Z.lnot (bit_mask (b mod BPB)))))) Hs Hlog Hn)
    as (i & s1 & s2 & s3 & s4 & E1 & Hd & E2 & E3 & E4 & H4 & D4).
  { by apply holds_bitmap. }
  { by rewrite length_aset. }
  { done. }
  exists s4. split; [|done]. unfold bfree. unfold bind at 1, reads.
  rewrite (bind_ret _ _ _ _ _ (io_run _ _ _ _ E1)). unfold bind at 1, data_of, reads. cbn [blk set_blk]. rewrite Hd.
  cbv zeta. rewrite Hu.
  unfold store. rewrite (bind_ret _ _ _ _ _ (io_run _ (set_blk s1 s) _ _ E2)).
  rewrite (bind_ret _ _ _ _ _ (io_run _ (set_blk s2 (set_blk s1 s)) _ _ E3)).
  exact (io_run _ (set_blk s3 (set_blk s2 (set_blk s1 s))) _ _ E4).
Qed.

(** Freeing a block that is free is refused. *)
Lemma bfree_free (s : fss T) b :
  layout (sb s) ds -> ok (blk s) H C L -> holds_data (sb s) ds C H -> 0 <= b < sb_size (sb s) ->
  used (sb s) C b = false -> bfree 1 b s = Panic "freeing free block".
Proof.
  intros Lay Hs HH Hb Hu. destruct (lay_bitmap _ _ Lay b Hb) as [Hlog _]. apply negb_false_iff in Hu.
  destruct (bread_law (blk s) H C L (BBLOCK b (sb s)) Hs Hlog Hn) as (i & s1 & E1 & _ & _ & Hd & _); [by apply holds_bitmap|].
  unfold bfree. unfold bind at 1, reads. rewrite (bind_ret _ _ _ _ _ (io_run _ _ _ _ E1)).
  unfold bind at 1, data_of, reads. cbn [blk set_blk]. rewrite Hd. cbv zeta. by rewrite Hu.
Qed.
End balloc.
End alloc.
