(* ===== verification/FsFile.v ===== *)
(** * The contents of inodes (bmap, readi and writei of fs.c)

    An inode owns the blocks in its 13 address slots and the 128 slots of its
    indirect block.  As long as no block is in two slots and every slot's
    block is marked in the bitmap, [readi] and [writei] treat the inode as an
    array of bytes, whatever blocks hold it, and leave all other blocks
    alone. *)

From S2P Require Import Prelude Cstring Sleeplock Bio Log Blocks Fs FsAlloc.

Definition NSLOT : Z := 141.

(** The address in slot [i]: 12 direct, the indirect block, and its words. *)
Definition indirect (C : contents_map) (nd : dinode) (k : Z) : Z :=
  let a := aref (i_addrs nd) NDIRECT in
  if a =? 0 then 0 else get32 (C a) (Z.to_nat (4 * k)).
Definition slot (C : contents_map) (nd : dinode) (i : Z) : Z :=
  if i <=? NDIRECT then aref (i_addrs nd) i else indirect C nd (i - (NDIRECT + 1)).

(** The slot of the [bn]-th block of the file, and its address. *)
Definition slot_of (bn : Z) : Z := if bn <? NDIRECT then bn else bn + 1.
Definition fblock (C : contents_map) (nd : dinode) (bn : Z) : Z := slot C nd (slot_of bn).

(** The byte at offset [o], and the contents of the file. *)
Definition fbyte (C : contents_map) (nd : dinode) (o : Z) : Z := aref (C (fblock C nd (o / BSZ))) (o mod BSZ).
Definition fbytes (C : contents_map) (nd : dinode) (off : Z) (n : nat) : list Z :=
  (fun k => fbyte C nd (off + Z.of_nat k)) <$> seq 0 n.
Definition file (C : contents_map) (nd : dinode) : list Z := fbytes C nd 0 (Z.to_nat (i_size nd)).

Section file.
Context {T : Type} {IO : BlockIO T} {BL : BlockLaws T}.
Context (v : superblock) (ds : Z) (Lay : layout v ds).

Record file_ok (C : contents_map) (nd : dinode) : Prop := {
  f_addrs : length (i_addrs nd) = 13%nat;
  f_size : 0 <= i_size nd <= MAXFILE * BSZ;
  f_range i : 0 <= i < NSLOT -> slot C nd i <> 0 -> ds <= slot C nd i < sb_size v /\ used v C (slot C nd i) = true;
  f_inj i j : 0 <= i < NSLOT -> 0 <= j < NSLOT -> slot C nd i = slot C nd j -> slot C nd i <> 0 -> i = j;
  f_full bn : 0 <= bn -> bn * BSZ < i_size nd -> fblock C nd bn <> 0;
}.

(** The blocks have their size: the part of [ok] that is about contents. *)
Definition sized (C : contents_map) : Prop := forall b, logged b -> length (C b) = BSIZE.

(** [nd'] is [nd] but for the addresses. *)
Definition same_meta (nd nd' : dinode) : Prop :=
  i_type nd' = i_type nd /\ i_major nd' = i_major nd /\ i_minor nd' = i_minor nd /\
  i_nlink nd' = i_nlink nd /\ i_size nd' = i_size nd.

(** A free block [f] is put in the empty slot [k]. *)
Record adds (C : contents_map) (nd : dinode) (C' : contents_map) (nd' : dinode) (k f : Z) : Prop := {
  ad_slot : 0 <= k < NSLOT /\ slot C nd k = 0;
  ad_free : ds <= f < sb_size v /\ used v C f = false;
  ad_slots i : 0 <= i < NSLOT -> slot C' nd' i = if decide (i = k) then f else slot C nd i;
  ad_used x : 0 <= x < sb_size v -> used v C' x = if decide (x = f) then true else used v C x;
  ad_same b : ds <= b < sb_size v -> b <> f -> b <> slot C nd NDIRECT -> C' b = C b;
  ad_inode i : 0 <= i < sb_ninodes v -> C' (IBLOCK i v) = C (IBLOCK i v);
  ad_sized : sized C';
  ad_meta : same_meta nd nd' /\ length (i_addrs nd') = 13%nat;
}.

Lemma slot_of_range bn : 0 <= bn < MAXFILE -> 0 <= slot_of bn < NSLOT /\ slot_of bn <> NDIRECT.
Proof. unfold slot_of, MAXFILE, NSLOT, NDIRECT, NINDIRECT. intros H. destruct (bn <? 12) eqn:E; btests; lia. Qed.

Lemma slot_of_inj a b : slot_of a = slot_of b -> a = b.
Proof. unfold slot_of, NDIRECT. destruct (a <? 12) eqn:E1, (b <? 12) eqn:E2; btests; lia. Qed.

Lemma size_blocks nd bn : i_size nd <= MAXFILE * BSZ -> bn * BSZ < i_size nd -> bn < MAXFILE.
Proof. unfold BSZ. lia. Qed.

Lemma adds_ok C nd C' nd' k f : file_ok C nd -> adds C nd C' nd' k f -> file_ok C' nd'.
Proof.
  intros F A. pose proof (lay_size _ _ Lay) as Hsz. destruct (ad_slot _ _ _ _ _ _ A) as [Hk Hk0].
  destruct (ad_free _ _ _ _ _ _ A) as [Hf Hfu]. destruct (ad_meta _ _ _ _ _ _ A) as [(_ & _ & _ & _ & Es) El].
  assert (forall i, 0 <= i < NSLOT -> slot C nd i <> f) as Hnf.
  { intros i Hi E. destruct (f_range _ _ F i Hi) as [_ Hu]; [rewrite E; lia|]. congruence. }
  split.
  - done.
  - rewrite Es. apply F.
  - intros i Hi. rewrite (ad_slots _ _ _ _ _ _ A i Hi). case_decide as E.
    + intros _. split; [done|]. rewrite (ad_used _ _ _ _ _ _ A) by lia. by rewrite decide_True.
    + intros Hne. destruct (f_range _ _ F i Hi Hne) as [Hr Hu]. split; [done|].
      rewrite (ad_used _ _ _ _ _ _ A) by lia. by case_decide.
  - intros i j Hi Hj. rewrite (ad_slots _ _ _ _ _ _ A i Hi), (ad_slots _ _ _ _ _ _ A j Hj).
    repeat case_decide; subst; try done.
    + intros E. symmetry in E. by apply Hnf in E.
    + intros E. by apply Hnf in E.
    + by apply (f_inj _ _ F).
  - intros bn Hbn Hlt. rewrite Es in Hlt. pose proof (size_blocks nd bn (proj2 (f_size _ _ F)) Hlt) as Hmax.
    destruct (slot_of_range bn ltac:(lia)) as [Hs _]. unfold fblock. rewrite (ad_slots _ _ _ _ _ _ A) by done.
    case_decide; [lia|]. by apply (f_full _ _ F).
Qed.

(** What a sequence of additions leaves alone. *)
Inductive grown : contents_map -> dinode -> contents_map -> dinode -> nat -> Prop :=
| grown_refl C nd : grown C nd C nd 0
| grown_step C nd C1 nd1 C2 nd2 n k f : grown C nd C1 nd1 n -> adds C1 nd1 C2 nd2 k f -> grown C nd C2 nd2 (S n).

(** A block that is in use, and not in a slot of the file. *)
Definition foreign (C : contents_map) (nd : dinode) (b : Z) : Prop :=
  ds <= b < sb_size v /\ used v C b = true /\ forall i, 0 <= i < NSLOT -> slot C nd i <> b.

Lemma grown_keeps C nd C' nd' n :
  grown C nd C' nd' n -> file_ok C nd ->
  file_ok C' nd' /\ same_meta nd nd' /\
  (forall i, 0 <= i < NSLOT -> slot C nd i <> 0 -> slot C' nd' i = slot C nd i) /\
  (forall i, 0 <= i < NSLOT -> i <> NDIRECT -> slot C nd i <> 0 -> C' (slot C nd i) = C (slot C nd i)) /\
  (forall b, foreign C nd b -> foreign C' nd' b /\ C' b = C b) /\
  (forall i, 0 <= i < sb_ninodes v -> C' (IBLOCK i v) = C (IBLOCK i v)).
Proof.
  pose proof (lay_size _ _ Lay) as Hsz.
  induction 1 as [C nd|C nd C1 nd1 C2 nd2 n k f G IH A]; intros F.
  { split_and!; try done. }
  destruct (IH F) as (F1 & M1 & S1 & D1 & R1 & I1). pose proof (adds_ok _ _ _ _ _ _ F1 A) as F2.
  destruct (ad_slot _ _ _ _ _ _ A) as [Hk Hk0]. destruct (ad_free _ _ _ _ _ _ A) as [Hf Hfu].
  assert (forall i, 0 <= i < NSLOT -> slot C nd i <> 0 -> slot C2 nd2 i = slot C nd i) as S2.
  { intros i Hi Hne. rewrite (ad_slots _ _ _ _ _ _ A i Hi). pose proof (S1 i Hi Hne) as E.
    case_decide as Ek; [subst; congruence | done]. }
  split; [done|]. split.
  { destruct M1 as (? & ? & ? & ? & ?), (ad_meta _ _ _ _ _ _ A) as [(? & ? & ? & ? & ?) _]. unfold same_meta. split_and!; congruence. }
  split; [done|]. split; [|split].
  - intros i Hi Hid Hne. rewrite <- (D1 i Hi Hid Hne). pose proof (S1 i Hi Hne) as E1. rewrite <- E1 in Hne |- *.
    destruct (f_range _ _ F1 i Hi Hne) as [Hr Hu].
    apply (ad_same _ _ _ _ _ _ A); [done | intros E; congruence |].
    intros E. assert (i = NDIRECT) by (apply (f_inj _ _ F1); try done). done.
  - intros b Hb. destruct (R1 b Hb) as [(Hr & Hu & Hns) E1]. split.
    + split; [done|]. split; [rewrite (ad_used _ _ _ _ _ _ A) by lia; by case_decide|].
      intros i Hi. rewrite (ad_slots _ _ _ _ _ _ A i Hi). case_decide; [intros ->; congruence | by apply Hns].
    + rewrite <- E1. apply (ad_same _ _ _ _ _ _ A); [done | intros ->; congruence |].
      intros E. by apply (Hns NDIRECT).
  - intros i Hi. rewrite (ad_inode _ _ _ _ _ _ A) by done. by apply I1.
Qed.

(** ** One allocation *)

Section step.
Context (C : contents_map) (Hsized : sized C) (f : Z) (Hf : ds <= f < sb_size v) (Hfu : used v C f = false).
Let C1 := upd f (replicate BSIZE 0) (mark v f C).

Lemma bitmap_len b : 0 <= b < sb_size v -> length (C (BBLOCK b v)) = BSIZE.
Proof. intros Hb. by apply Hsized, (lay_bitmap _ _ Lay). Qed.

Lemma alloc_used x : 0 <= x < sb_size v -> used v C1 x = if decide (x = f) then true else used v C x.
Proof.
  intros Hx. pose proof (lay_size _ _ Lay). unfold C1. rewrite (used_data v ds) by (done || lia).
  apply (used_mark v ds); [done | exact bitmap_len | lia | done].
Qed.

Lemma alloc_same b : ds <= b -> b <> f -> C1 b = C b.
Proof.
  intros Hb Hne. pose proof (lay_size _ _ Lay). unfold C1, mark. rewrite upd_ne by done. apply upd_ne.
  pose proof (lay_bitmap _ _ Lay f ltac:(lia)). lia.
Qed.

Lemma alloc_inode i : 0 <= i < sb_ninodes v -> C1 (IBLOCK i v) = C (IBLOCK i v).
Proof.
  intros Hi. pose proof (lay_size _ _ Lay). pose proof (lay_inode _ _ Lay i Hi). unfold C1, mark.
  rewrite !upd_ne; [done | | lia]. intros E. symmetry in E. by apply (lay_apart _ _ Lay f i) in E; [|lia|].
Qed.

Lemma alloc_sized : sized C1.
Proof.
  intros b Hb. unfold C1, mark, upd. repeat case_decide; [apply length_replicate | | by apply Hsized].
  rewrite length_aset. pose proof (lay_size _ _ Lay). apply bitmap_len. lia.
Qed.

Lemma alloc_zero : C1 f = replicate BSIZE 0.
Proof. apply upd_eq. Qed.

Lemma get32_zero off : get32 (replicate BSIZE 0) off = 0.
Proof.
  unfold get32, slice. rewrite drop_replicate, take_replicate. generalize (4 `min` (BSIZE - off))%nat. intros n.
  induction n as [|n IH]; [done|]. change (replicate (S n) 0) with (0 :: replicate n 0). cbn [le_dec]. by rewrite IH.
Qed.

Lemma add_direct nd k :
  file_ok C nd -> 0 <= k <= NDIRECT -> slot C nd k = 0 -> adds C nd C1 (set_addr k f nd) k f.
Proof.
  intros F Hk H0. pose proof (lay_size _ _ Lay) as Hsz. pose proof (f_addrs _ _ F) as Hl. unfold NDIRECT in *.
  assert (forall i, 0 <= i <= 12 -> slot C nd i = aref (i_addrs nd) i) as Hdir.
  { intros i Hi. unfold slot, NDIRECT. by rewrite (proj2 (Z.leb_le i 12)) by lia. }
  split.
  - split; [unfold NSLOT; lia | done].
  - done.
  - intros i Hi. unfold slot at 1, NDIRECT. cbn [i_addrs set_addr]. destruct (i <=? 12) eqn:Ei; btests.
    + destruct (decide (i = k)) as [->|Hne]; [apply aref_aset_eq; lia|].
      rewrite aref_aset_ne by lia. symmetry. apply Hdir. lia.
    + rewrite decide_False by lia. unfold slot, indirect, NDIRECT. rewrite (proj2 (Z.leb_gt i 12)) by lia.
      cbn [i_addrs set_addr]. destruct (decide (k = 12)) as [->|Hne].
      * rewrite Hdir in H0 by lia. rewrite aref_aset_eq, H0 by lia. cbn [Z.eqb].
        rewrite (proj2 (Z.eqb_neq f 0)) by lia. rewrite alloc_zero. apply get32_zero.
      * rewrite aref_aset_ne by lia. destruct (aref (i_addrs nd) 12 =? 0) eqn:E; btests; [done|].
        destruct (f_range _ _ F 12) as [Hr Hu]; [unfold NSLOT; lia | by rewrite Hdir by lia|].
        rewrite Hdir in Hr, Hu by lia. rewrite alloc_same; [done | lia | congruence].
  - apply alloc_used.
  - intros b Hb Hne _. apply alloc_same; [lia | done].
  - apply alloc_inode.
  - apply alloc_sized.
  - split; [done|]. cbn. by rewrite length_aset.
Qed.

Lemma add_indirect nd k :
  file_ok C nd -> 0 <= k < NINDIRECT -> slot C nd NDIRECT <> 0 -> slot C nd (NDIRECT + 1 + k) = 0 ->
  let a := slot C nd NDIRECT in
  adds C nd (upd a (set32 (C a) (Z.to_nat (4 * k)) f) C1) nd (NDIRECT + 1 + k) f.
Proof.
  intros F Hk Ha H0 a. pose proof (lay_size _ _ Lay) as Hsz. unfold NDIRECT, NINDIRECT in *.
  destruct (f_range _ _ F 12 ltac:(unfold NSLOT; lia) Ha) as [Hr Hu]. fold a in Ha, Hr, Hu.
  assert (a <> f) as Haf by congruence.
  assert (length (C a) = BSIZE) as Hla by by apply Hsized, (lay_data _ _ Lay).
  assert (aref (i_addrs nd) 12 = a) as Ea by done.
  split.
  - split; [unfold NSLOT; lia | done].
  - done.
  - intros i Hi. unfold slot, indirect, NDIRECT. rewrite Ea. destruct (i <=? 12) eqn:Ei; btests; [by rewrite decide_False by lia|].
    rewrite (proj2 (Z.eqb_neq a 0) Ha), upd_eq. unfold NSLOT, BSIZE in *. destruct (decide (i = 12 + 1 + k)) as [->|Hne].
    + replace (12 + 1 + k - (12 + 1)) with k by lia. apply get32_set32_eq; [lia|]. lia.
    + apply get32_set32_ne; lia.
  - intros x Hx. rewrite (used_data v ds) by (done || lia). by apply alloc_used.
  - intros b Hb Hne Hna. rewrite upd_ne by done. apply alloc_same; [lia | done].
  - intros i Hi. rewrite upd_ne; [by apply alloc_inode|]. pose proof (lay_inode _ _ Lay i Hi). lia.
  - intros b Hb. unfold upd at 1. case_decide; [|by apply alloc_sized].
    rewrite length_set32; [done|]. unfold BSIZE in *. lia.
  - split; [done|]. apply F.
Qed.
End step.

(** ** Free blocks *)

Definition has_free (C : contents_map) (n : nat) : Prop :=
  exists X : gset Z, (n <= size X)%nat /\ forall x, x ∈ X -> 0 <= x < sb_size v /\ used v C x = false.

Lemma free_first C n : has_free C (S n) -> exists f, first_free v C f.
Proof.
  intros (X & Hs & HX). assert (exists x, x ∈ X) as [x Hx].
  { apply set_choose_L. intros ->. rewrite size_empty in Hs. lia. }
  destruct (HX x Hx) as [Hr Hu]. clear HX Hs Hx.
  pose proof (proj1 Hr) as Hx0. revert Hr Hu. pattern x. apply Z_lt_induction; [|exact Hx0]. intros y IH Hr Hu.
  destruct (decide (Exists (fun z => used v C z = false) (Z.of_nat <$> seq 0 (Z.to_nat y)))) as [He|Hno].
  - apply Exists_exists in He as (z & Hz & Huz). apply list_elem_of_fmap in Hz as (m & -> & Hm%elem_of_seq).
    apply (IH (Z.of_nat m)); [lia | lia | done].
  - exists y. split; [done|]. split; [done|]. intros z Hz. destruct (used v C z) eqn:E; [done|]. exfalso. apply Hno.
    apply Exists_exists. exists z. split; [|done]. apply list_elem_of_fmap. exists (Z.to_nat z).
    split; [lia|]. apply elem_of_seq. lia.
Qed.

Lemma adds_free C nd C' nd' k f n : adds C nd C' nd' k f -> has_free C (S n) -> has_free C' n.
Proof.
  intros A (X & Hs & HX). exists (X ∖ {[f]}). split.
  - assert (size X <= size (X ∖ {[f]}) + 1)%nat; [|lia].
    rewrite <- (size_singleton (C := gset Z) f). rewrite Nat.add_comm, <- size_union_alt. apply subseteq_size.
    intros x Hx. destruct (decide (x = f)); set_solver.
  - intros x [Hx Hne]%elem_of_difference. destruct (HX x Hx) as [Hr Hu]. split; [done|].
    rewrite (ad_used _ _ _ _ _ _ A) by done. by rewrite decide_False by set_solver.
Qed.

Lemma adds_marked C nd C' nd' k f : adds C nd C' nd' k f -> marked v ds C -> marked v ds C'.
Proof.
  intros A Hm b Hb. pose proof (lay_size _ _ Lay). rewrite (ad_used _ _ _ _ _ _ A) by lia. case_decide; [done | by apply Hm].
Qed.

Lemma grown_free C nd C' nd' n : grown C nd C' nd' n -> forall m, has_free C (n + m) -> has_free C' m.
Proof.
  induction 1 as [C nd|C nd C1 nd1 C2 nd2 n k f G IH A]; intros m Hm; [done|].
  apply (adds_free _ _ _ _ _ _ m A), IH. replace (n + S m)%nat with (S n + m)%nat by lia. done.
Qed.

Lemma grown_marked C nd C' nd' n : grown C nd C' nd' n -> marked v ds C -> marked v ds C'.
Proof. induction 1; intros Hm; [done|]. eapply adds_marked; eauto. Qed.

Lemma has_free_le C n m : (n <= m)%nat -> has_free C m -> has_free C n.
Proof. intros H (X & Hs & HX). exists X. split; [lia | done]. Qed.

(** ** [bmap] *)

Lemma ok_sized t H C L : ok t H C L -> sized C.
Proof. intros Hs b Hb. by apply (ok_len t H C L). Qed.

Lemma first_free_data C f : marked v ds C -> first_free v C f -> ds <= f < sb_size v /\ used v C f = false.
Proof.
  intros Hm (Hf & Hu & _). split; [|done]. destruct (Z.lt_ge_cases f ds); [|lia].
  rewrite Hm in Hu by lia. done.
Qed.

Lemma bmap_indirect_law (s : fss T) nd C L k :
  sb s = v -> ok (blk s) ∅ C L -> marked v ds C -> file_ok C nd -> 0 <= k < NINDIRECT -> slot C nd NDIRECT <> 0 ->
  let i := NDIRECT + 1 + k in
  (slot C nd i = 0 -> has_free C 1 /\ (size L + 3 <= capacity)%nat) ->
  exists t C' L' n, bmap_indirect 1 (slot C nd NDIRECT) k s = Ret (slot C' nd i) (set_blk t s) /\
    ok t ∅ C' L' /\ grown C nd C' nd n /\ slot C' nd i <> 0 /\ (n <= 1)%nat /\ (size L' <= size L + 3)%nat /\
    (slot C nd i <> 0 -> n = 0%nat /\ C' = C /\ L' = L).
Proof.
  intros Hsb Hs Hm F Hk Ha i Hroom. pose proof (lay_size _ _ Lay) as Hsz. set (a := slot C nd NDIRECT) in *.
  destruct (f_range _ _ F NDIRECT ltac:(unfold NSLOT, NDIRECT; lia) Ha) as [Hr Hu]. fold a in Hr, Hu.
  pose proof (lay_data _ _ Lay a Hr) as Hlog.
  assert (slot C nd i = get32 (C a) (Z.to_nat (4 * k))) as Ei.
  { unfold slot, i, indirect, NDIRECT in *. rewrite (proj2 (Z.leb_gt (12 + 1 + k) 12)) by lia.
    change (aref (i_addrs nd) 12) with a. rewrite (proj2 (Z.eqb_neq a 0)) by done. do 2 f_equal. lia. }
  destruct (bread_law (blk s) ∅ C L a Hs Hlog) as (bp & s1 & E1 & _ & H1 & Hd & _); [rewrite map_size_empty; lia | done |].
  unfold bmap_indirect. rewrite (bind_ret _ _ _ _ _ (io_run _ _ _ _ E1)).
  unfold bind at 1, data_of, reads. cbn [blk set_blk]. rewrite Hd. cbv zeta. rewrite <- Ei.
  destruct (slot C nd i =? 0) eqn:E0; btests.
  - destruct (Hroom E0) as [Hfree Hcap]. destruct (free_first _ _ Hfree) as [f Hff].
    destruct (first_free_data _ _ Hm Hff) as [Hf Hfu].
    destruct (balloc_law (<[bp := a]> ∅) C L ds) with (s := set_blk s1 s) (f := f) as (t1 & E2 & H2 & D2);
      [rewrite insert_empty, map_size_singleton; lia | cbn [sb set_blk]; by rewrite Hsb | exact H1 | | cbn; by rewrite Hsb | cbn; by rewrite Hsb | lia |].
    { intros j b [[<- <-]|[_ ?%lookup_empty_Some]]%lookup_insert_Some; [|done]. cbn. by rewrite Hsb. }
    cbn [sb set_blk] in E2, H2. rewrite Hsb in H2.
    unfold bind at 1 2. rewrite E2. unfold bind at 1, data_of, reads. cbn [blk set_blk].
    rewrite (D2 bp) by (rewrite lookup_insert_eq; eauto). cbn [blk set_blk]. rewrite Hd.
    set (C1 := upd f (replicate BSIZE 0) (mark v f C)) in *.
    assert (C1 a = C a) as Ea by (apply alloc_same; try done; [lia | congruence]).
    pose proof (ok_len _ _ _ _ _ H1 Hlog) as Hla.
    set (d' := set32 (C a) (Z.to_nat (4 * k)) f).
    destruct (bput_law t1 _ _ _ bp a d' H2 (lookup_insert_eq _ _ _)) as (t2 & E3 & H3 & Hd3 & _);
      [unfold d'; rewrite length_set32; [done | unfold NINDIRECT, BSIZE in *; lia]|].
    unfold store. unfold bind at 1. rewrite (io_run _ (set_blk t1 (set_blk s1 s)) _ _ E3).
    destruct (log_write_law t2 _ _ _ bp a H3 (lookup_insert_eq _ _ _) Hlog) as (t3 & E4 & H4 & D4).
    { pose proof (size_add a ({[f]} ∪ ({[BBLOCK f v]} ∪ L))). pose proof (size_add f ({[BBLOCK f v]} ∪ L)).
      pose proof (size_add (BBLOCK f v) L). lia. }
    rewrite Hd3 in H4. unfold bind at 1. rewrite (io_run _ (set_blk t2 (set_blk t1 (set_blk s1 s))) _ _ E4). unfold ret at 1.
    destruct (brelse_law t3 _ _ _ bp a H4 (lookup_insert_eq _ _ _)) as (t4 & E5 & H5 & _).
    { rewrite (D4 bp) by (rewrite lookup_insert_eq; eauto). by rewrite Hd3, upd_eq. }
    rewrite delete_insert_id in H5 by done.
    pose proof (add_indirect C (ok_sized _ _ _ _ Hs) f Hf Hfu nd k F Hk Ha E0) as A. cbv zeta in A. fold a C1 d' in A.
    assert (slot (upd a d' C1) nd i = f) as Es.
    { rewrite (ad_slots _ _ _ _ _ _ A); [by rewrite decide_True | unfold i, NSLOT, NDIRECT, NINDIRECT in *; lia]. }
    exists t4, (upd a d' C1), ({[a]} ∪ ({[f]} ∪ ({[BBLOCK f v]} ∪ L))), 1%nat. rewrite Es.
    split; [|split; [done|split; [econstructor; [constructor | exact A]|split; [lia|split; [lia|split; [|done]]]]]].
    + unfold bind. by rewrite (io_run _ (set_blk t3 (set_blk t2 (set_blk t1 (set_blk s1 s)))) _ _ E5).
    + pose proof (size_add a ({[f]} ∪ ({[BBLOCK f v]} ∪ L))). pose proof (size_add f ({[BBLOCK f v]} ∪ L)).
      pose proof (size_add (BBLOCK f v) L). lia.
  - destruct (brelse_law s1 _ _ _ bp a H1 (lookup_insert_eq _ _ _) Hd) as (t4 & E5 & H5 & _).
    rewrite delete_insert_id in H5 by done.
    exists t4, C, L, 0%nat. split; [|split_and!; try done; try lia; constructor].
    unfold bind at 1, ret at 1. unfold bind. by rewrite (io_run _ (set_blk s1 s) _ _ E5).
Qed.

(** The inode [ip] of the cache has the fields [nd]; [with_node] changes them. *)
Definition node_at (s : fss T) (ip : nat) (nd : dinode) : Prop :=
  (ip < length (inodes s))%nat /\ i_dev (inodes s !!! ip) = 1 /\ i_node (inodes s !!! ip) = nd.
Definition with_node (ip : nat) (nd : dinode) (t : T) (s : fss T) : fss T :=
  set_blk t (set_inodes (alter (set_node nd) ip (inodes s)) s).

Lemma with_node_at ip nd nd' t s : node_at s ip nd -> node_at (with_node ip nd' t s) ip nd'.
Proof.
  intros (Hl & Hd & Hn). unfold node_at, with_node. cbn [inodes set_blk set_inodes]. rewrite length_alter, alter_at by done.
  done.
Qed.

Lemma with_node_same ip nd t s : node_at s ip nd -> with_node ip nd t s = set_blk t s.
Proof.
  intros (Hl & Hd & Hn). unfold with_node. f_equal. destruct s as [b v' lk l p c]. cbn in *. unfold set_inodes. cbn. f_equal.
  apply list_eq. intros j. rewrite list_lookup_alter. destruct (decide (j = ip)) as [->|Hne].
  - rewrite decide_True by done. destruct (lookup_lt_is_Some_2 l ip Hl) as [x Hx]. rewrite Hx. cbn. f_equal.
    rewrite (list_lookup_total_correct _ _ _ Hx) in Hn. subst nd. by destruct x.
  - by rewrite decide_False by congruence.
Qed.

Lemma with_node_twice ip nd nd' t t' s : with_node ip nd' t' (with_node ip nd t s) = with_node ip nd' t' s.
Proof.
  unfold with_node. destruct s as [b v' lk l p c]. cbn. unfold set_blk, set_inodes. cbn. f_equal.
  apply list_eq. intros j. rewrite !list_lookup_alter. repeat case_decide; try done. by destruct (l !! ip).
Qed.

Lemma bmap_addr_law (s : fss T) ip nd C L k :
  sb s = v -> ok (blk s) ∅ C L -> marked v ds C -> node_at s ip nd -> file_ok C nd -> 0 <= k <= NDIRECT ->
  (slot C nd k = 0 -> has_free C 1 /\ (size L + 2 <= capacity)%nat) ->
  exists t C' nd' L' n, bmap_addr ip k s = Ret (slot C' nd' k) (with_node ip nd' t s) /\
    ok t ∅ C' L' /\ grown C nd C' nd' n /\ slot C' nd' k <> 0 /\ (n <= 1)%nat /\ (size L' <= size L + 2)%nat /\
    (slot C nd k <> 0 -> n = 0%nat /\ C' = C /\ nd' = nd /\ L' = L).
Proof.
  intros Hsb Hs Hm Hat F Hk Hroom. pose proof Hat as (Hl & Hdev & Hnode).
  assert (forall C nd, slot C nd k = aref (i_addrs nd) k) as Hslot.
  { intros C0 nd0. unfold slot. by rewrite (proj2 (Z.leb_le k NDIRECT)) by lia. }
  unfold bmap_addr. unfold bind at 1, getip, reads. rewrite Hnode, Hdev. cbv zeta. rewrite <- (Hslot C nd).
  destruct (slot C nd k =? 0) eqn:E0; btests.
  - destruct (Hroom E0) as [Hfree Hcap]. destruct (free_first _ _ Hfree) as [f Hff].
    destruct (first_free_data _ _ Hm Hff) as [Hf Hfu]. pose proof (lay_size _ _ Lay).
    destruct (balloc_law ∅ C L ds) with (s := s) (f := f) as (t & E & Ht & _);
      [rewrite map_size_empty; lia | by rewrite Hsb | done | | by rewrite Hsb | by rewrite Hsb | done |].
    { intros j b []%lookup_empty_Some. }
    rewrite Hsb in Ht. pose proof (add_direct C (ok_sized _ _ _ _ Hs) f Hf Hfu nd k F Hk E0) as A.
    eexists t, _, (set_addr k f nd), _, 1%nat.
    assert (slot (upd f (replicate BSIZE 0) (mark v f C)) (set_addr k f nd) k = f) as Es.
    { rewrite Hslot. cbn. apply aref_aset_eq. rewrite (f_addrs _ _ F). unfold NDIRECT in *. lia. }
    split; [|split; [exact Ht|]].
    + unfold bind. rewrite E. unfold updnode, updip, modify, ret. rewrite Es. f_equal.
      unfold with_node. destruct s as [b v' lk l p c]. cbn. unfold set_inodes, set_blk. cbn. f_equal.
      apply list_alter_ext; [|done]. intros x Hx. cbn in Hnode. rewrite (list_lookup_total_correct _ _ _ Hx) in Hnode. by rewrite Hnode.
    + rewrite Es. split; [econstructor; [constructor | exact A]|]. split; [lia|]. split; [lia|]. split; [|done].
      pose proof (size_add f ({[BBLOCK f v]} ∪ L)). pose proof (size_add (BBLOCK f v) L). lia.
  - exists (blk s), C, nd, L, 0%nat. rewrite with_node_same by done.
    split; [by destruct s|]. split_and!; try done; try lia. constructor.
Qed.

Lemma grown_trans C nd C1 nd1 C2 nd2 n m : grown C nd C1 nd1 n -> grown C1 nd1 C2 nd2 m -> grown C nd C2 nd2 (n + m).
Proof.
  intros G1. induction 1 as [|? ? ? ? ? ? m' ? ? G2 IH A]; [by rewrite Nat.add_0_r|].
  replace (n + S m')%nat with (S (n + m')) by lia. econstructor; [by apply IH | done].
Qed.

(** [bmap] finds the block, or adds it to the file. *)
Lemma bmap_law (s : fss T) ip nd C L bn :
  sb s = v -> ok (blk s) ∅ C L -> marked v ds C -> node_at s ip nd -> file_ok C nd -> 0 <= bn < MAXFILE ->
  (fblock C nd bn = 0 -> has_free C 2 /\ (size L + 5 <= capacity)%nat) ->
  exists t C' nd' L' n, bmap ip bn s = Ret (fblock C' nd' bn) (with_node ip nd' t s) /\
    ok t ∅ C' L' /\ grown C nd C' nd' n /\ fblock C' nd' bn <> 0 /\ (n <= 2)%nat /\ (size L' <= size L + 5)%nat /\
    (fblock C nd bn <> 0 -> n = 0%nat /\ C' = C /\ nd' = nd /\ L' = L).
Proof.
  intros Hsb Hs Hm Hat F Hbn Hroom. unfold bmap. unfold bind at 1, getip, reads. unfold fblock, slot_of in *.
  destruct (bn <? NDIRECT) eqn:E; btests.
  - destruct (bmap_addr_law s ip nd C L bn) as (t & C' & nd' & L' & n & E1 & H1 & G1 & Hne & Hn & HL & Hsame); try done; [lia | |].
    { intros H0. destruct (Hroom H0). split; [eapply has_free_le; [|done]; lia | lia]. }
    exists t, C', nd', L', n. split_and!; try done; lia.
  - destruct Hat as (Hl & Hdev & Hnode). rewrite Hdev. unfold MAXFILE in Hbn.
    rewrite (proj2 (Z.ltb_lt (bn - NDIRECT) NINDIRECT)) by lia.
    assert (slot C nd NDIRECT = 0 -> slot C nd (bn + 1) = 0) as Hind.
    { unfold slot, indirect, NDIRECT in *. rewrite (proj2 (Z.leb_gt (bn + 1) 12)) by lia. cbn. by intros ->. }
    destruct (bmap_addr_law s ip nd C L NDIRECT) as (t & C1 & nd1 & L1 & n1 & E1 & H1 & G1 & Hne1 & Hn1 & HL1 & Hsame1); try done.
    { intros H0. destruct (Hroom (Hind H0)). split; [eapply has_free_le; [|done]; lia | lia]. }
    rewrite (bind_ret _ _ _ _ _ E1).
    destruct (grown_keeps _ _ _ _ _ G1 F) as (F1 & _ & S1 & _).
    pose proof (with_node_at ip nd nd1 t s (conj Hl (conj Hdev Hnode))) as Hat1.
    destruct (bmap_indirect_law (with_node ip nd1 t s) nd1 C1 L1 (bn - NDIRECT)) as (t2 & C2 & L2 & n2 & E2 & H2 & G2 & Hne2 & Hn2 & HL2 & Hsame2).
    { done. } { done. } { by eapply grown_marked. } { done. } { lia. } { done. }
    { replace (NDIRECT + 1 + (bn - NDIRECT)) with (bn + 1) by lia. intros H0.
      assert (slot C nd (bn + 1) = 0) as H0'.
      { destruct (Z.eq_dec (slot C nd (bn + 1)) 0); [done|]. rewrite S1 in H0; [done | unfold NSLOT, NDIRECT, NINDIRECT in *; lia | done]. }
      destruct (Hroom H0') as [Hfr Hcap]. split; [|lia]. eapply grown_free; [exact G1|]. eapply has_free_le; [|exact Hfr]. lia. }
    replace (NDIRECT + 1 + (bn - NDIRECT)) with (bn + 1) in * by lia.
    exists t2, C2, nd1, L2, (n1 + n2)%nat.
    split; [|split; [done|split; [by eapply grown_trans|split; [done|split; [lia|split; [lia|]]]]]].
    + rewrite E2. done.
    + intros Hne. assert (slot C nd NDIRECT <> 0) as Hd by (intros H0; by apply Hne, Hind).
      destruct (Hsame1 Hd) as (-> & -> & -> & ->). destruct (Hsame2 Hne) as (-> & -> & ->). done.
Qed.

(** ** Reading *)

Lemma fbytes_app C nd off a b : fbytes C nd off (a + b) = fbytes C nd off a ++ fbytes C nd (off + Z.of_nat a) b.
Proof.
  unfold fbytes. rewrite seq_app, fmap_app. f_equal. cbn [Nat.add].
  apply list_eq. intros i. rewrite !list_lookup_fmap. destruct (decide (i < b)%nat).
  - rewrite !lookup_seq_lt by done. cbn. do 2 f_equal. lia.
  - by rewrite !(proj2 (lookup_ge_None _ _)) by (rewrite length_seq; lia).
Qed.

Lemma length_fbytes C nd off n : length (fbytes C nd off n) = n.
Proof. unfold fbytes. by rewrite length_fmap, length_seq. Qed.

Lemma lookup_fbytes C nd off n i : (i < n)%nat -> fbytes C nd off n !! i = Some (fbyte C nd (off + Z.of_nat i)).
Proof. intros Hi. unfold fbytes. by rewrite list_lookup_fmap, lookup_seq_lt. Qed.

(** Offsets within one block. *)
Lemma same_block off k : 0 <= off -> 0 <= k -> off mod BSZ + k < BSZ ->
  (off + k) / BSZ = off / BSZ /\ (off + k) mod BSZ = off mod BSZ + k.
Proof.
  unfold BSZ. intros Ho Hk H. pose proof (Z.div_mod off 512 ltac:(lia)). pose proof (Z.mod_pos_bound off 512 ltac:(lia)).
  split; symmetry; [apply (Z.div_unique_pos _ _ _ (off mod 512 + k)) | apply (Z.mod_unique_pos _ _ (off / 512))]; lia.
Qed.

Lemma slice_fbytes C nd off m :
  0 <= off -> off mod BSZ + Z.of_nat m <= BSZ -> length (C (fblock C nd (off / BSZ))) = BSIZE ->
  slice (Z.to_nat (off mod BSZ)) m (C (fblock C nd (off / BSZ))) = fbytes C nd off m.
Proof.
  intros Ho Hm Hl. pose proof (Z.mod_pos_bound off BSZ ltac:(unfold BSZ; lia)). apply list_eq. intros i. rewrite lookup_slice.
  case_decide as Hi.
  - rewrite lookup_fbytes by done. unfold fbyte. destruct (same_block off (Z.of_nat i)) as [-> ->]; [lia .. |].
    unfold aref. replace (Z.to_nat (off mod BSZ + Z.of_nat i)) with (Z.to_nat (off mod BSZ) + i)%nat by lia.
    destruct (lookup_lt_is_Some_2 (C (fblock C nd (off / BSZ))) (Z.to_nat (off mod BSZ) + i)) as [x ->]; [|done].
    rewrite Hl. unfold BSIZE, BSZ in *. lia.
  - symmetry. apply lookup_ge_None. rewrite length_fbytes. lia.
Qed.

(** The block of an offset that is in the file. *)
Lemma offset_block C nd off : file_ok C nd -> 0 <= off < i_size nd ->
  0 <= off / BSZ < MAXFILE /\ fblock C nd (off / BSZ) <> 0.
Proof.
  intros F Ho. pose proof (Z.div_mod off BSZ ltac:(unfold BSZ; lia)). pose proof (Z.mod_pos_bound off BSZ ltac:(unfold BSZ; lia)).
  assert (0 <= off / BSZ) by (apply Z.div_pos; unfold BSZ; lia).
  split; [|apply (f_full _ _ F); lia]. split; [done|]. apply (size_blocks nd); [apply F | lia].
Qed.

Lemma fblock_logged C nd bn : file_ok C nd -> 0 <= bn < MAXFILE -> fblock C nd bn <> 0 -> logged (fblock C nd bn).
Proof.
  intros F Hbn Hne. destruct (slot_of_range bn Hbn) as [Hs _]. destruct (f_range _ _ F _ Hs Hne) as [Hr _].
  by apply (lay_data _ _ Lay).
Qed.

Lemma readi_loop_law ip nd C L : file_ok C nd -> marked v ds C -> forall fuel (s : fss T) off n,
  sb s = v -> ok (blk s) ∅ C L -> node_at s ip nd -> 0 <= off -> off + n <= i_size nd ->
  n <= 0 \/ off mod BSZ + n <= BSZ * Z.of_nat fuel ->
  exists t, readi_loop fuel ip off n s = Ret (fbytes C nd off (Z.to_nat n)) (set_blk t s) /\ ok t ∅ C L.
Proof.
  intros F Hm. induction fuel as [|fuel IH]; intros s off n Hsb Hs Hat Ho Hn Hfuel; cbn [readi_loop].
  all: pose proof (Z.mod_pos_bound off BSZ ltac:(unfold BSZ; lia)) as Hmod; destruct (n <=? 0) eqn:E; btests.
  1, 3: exists (blk s); replace (Z.to_nat n) with O by lia; split; [by destruct s | done].
  { lia. }
  destruct Hfuel as [?|Hfuel]; [lia|]. pose proof Hat as (_ & Hdev & _).
  destruct (offset_block C nd off F ltac:(lia)) as [Hbn Hne].
  unfold bind at 1, getip, reads. rewrite Hdev.
  destruct (bmap_law s ip nd C L (off / BSZ)) as (t & C' & nd' & L' & n' & E1 & H1 & _ & _ & _ & _ & Hsame); try done.
  destruct (Hsame Hne) as (_ & -> & -> & ->). rewrite with_node_same in E1 by done.
  rewrite (bind_ret _ _ _ _ _ E1).
  pose proof (fblock_logged _ _ _ F Hbn Hne) as Hlog.
  destruct (read_law t ∅ C L _ H1 Hlog) as (bp & t1 & t2 & E2 & Hd & E3 & H3 & _); [rewrite map_size_empty; lia | done |].
  rewrite (bind_ret _ _ _ _ _ (io_run _ (set_blk t s) _ _ E2)). cbv zeta.
  unfold bind at 1, data_of, reads. cbn [blk set_blk]. rewrite Hd.
  rewrite (bind_ret _ _ _ _ _ (io_run _ (set_blk t1 (set_blk t s)) _ _ E3)).
  set (m := Z.min n (BSZ - off mod BSZ)). assert (0 < m <= n) as Hmn by (unfold m, BSZ in *; lia).
  assert (MAXFILE * BSZ < 2 ^ 32) as Hmax by done. pose proof (f_size _ _ F) as Hsz.
  rewrite u32_small by lia.
  destruct (IH (set_blk t2 s) (off + m) (n - m)) as (t3 & E4 & H4); try done; [lia | lia | |].
  { destruct (Z.le_gt_cases n (BSZ - off mod BSZ)); [left; lia|]. right.
    assert ((off + m) mod BSZ = 0) as ->; [|lia].
    unfold m. rewrite Z.min_r by lia. pose proof (Z.div_mod off BSZ ltac:(unfold BSZ; lia)).
    symmetry. apply (Z.mod_unique_pos _ _ (off / BSZ + 1)); unfold BSZ in *; lia. }
  exists t3. split; [|done]. etrans; [apply (bind_ret _ _ _ _ _ E4)|]. unfold ret. f_equal.
  rewrite slice_fbytes; [|done|lia|by apply (ok_len t ∅ C L)].
  replace (Z.to_nat n) with (Z.to_nat m + Z.to_nat (n - m))%nat by lia. rewrite fbytes_app. do 2 f_equal. lia.
Qed.

(** ** Writing *)

(** [src] is written at [off] into the file, and nothing else changes. *)
Record wrote (C : contents_map) (nd : dinode) (C' : contents_map) (nd' : dinode) (off : Z) (src : list Z) : Prop := {
  w_ok : file_ok C' nd';
  w_meta : same_meta nd nd';
  w_new k x : src !! k = Some x ->
    fblock C' nd' ((off + Z.of_nat k) / BSZ) <> 0 /\ fbyte C' nd' (off + Z.of_nat k) = x;
  w_old o : 0 <= o < MAXFILE * BSZ -> fblock C nd (o / BSZ) <> 0 ->
    fblock C' nd' (o / BSZ) <> 0 /\
    (o < off \/ off + Z.of_nat (length src) <= o -> fbyte C' nd' o = fbyte C nd o);
  w_foreign b : foreign C nd b -> foreign C' nd' b /\ C' b = C b;
  w_inode i : 0 <= i < sb_ninodes v -> C' (IBLOCK i v) = C (IBLOCK i v);
  w_stay : (forall k, (k < length src)%nat -> fblock C nd ((off + Z.of_nat k) / BSZ) <> 0) -> nd' = nd;
}.

Lemma div_file o : 0 <= o < MAXFILE * BSZ -> 0 <= o / BSZ < MAXFILE.
Proof. unfold BSZ. intros H. split; [apply Z.div_pos; lia | apply Z.div_lt_upper_bound; lia]. Qed.

Lemma wrote_nil C nd off : file_ok C nd -> wrote C nd C nd off [].
Proof. intros F. split; try done. Qed.

Lemma wrote_app C nd C1 nd1 C2 nd2 off w1 w2 :
  0 <= off -> off + Z.of_nat (length (w1 ++ w2)) <= MAXFILE * BSZ ->
  wrote C nd C1 nd1 off w1 -> wrote C1 nd1 C2 nd2 (off + Z.of_nat (length w1)) w2 ->
  wrote C nd C2 nd2 off (w1 ++ w2).
Proof.
  intros Ho Hmax W1 W2. rewrite length_app in Hmax. split.
  - apply W2.
  - destruct (w_meta _ _ _ _ _ _ W1) as (? & ? & ? & ? & ?), (w_meta _ _ _ _ _ _ W2) as (? & ? & ? & ? & ?).
    unfold same_meta. split_and!; congruence.
  - intros k x [Hk|[Hge Hk]]%lookup_app_Some.
    + pose proof (lookup_lt_Some _ _ _ Hk). destruct (w_new _ _ _ _ _ _ W1 k x Hk) as [Hb E].
      destruct (w_old _ _ _ _ _ _ W2 (off + Z.of_nat k) ltac:(lia) Hb) as [Hb2 E2]. split; [done|]. rewrite E2 by lia. done.
    + destruct (w_new _ _ _ _ _ _ W2 _ x Hk) as [Hb E].
      replace (off + Z.of_nat (length w1) + Z.of_nat (k - length w1)) with (off + Z.of_nat k) in * by lia. done.
  - intros o Ho' Hb. destruct (w_old _ _ _ _ _ _ W1 o Ho' Hb) as [Hb1 E1].
    destruct (w_old _ _ _ _ _ _ W2 o Ho' Hb1) as [Hb2 E2]. split; [done|]. rewrite length_app. intros Hout.
    rewrite E2, E1 by lia. done.
  - intros b Hb. destruct (w_foreign _ _ _ _ _ _ W1 b Hb) as [Hb1 E1]. destruct (w_foreign _ _ _ _ _ _ W2 b Hb1) as [Hb2 E2].
    split; [done | congruence].
  - intros i Hi. rewrite (w_inode _ _ _ _ _ _ W2), (w_inode _ _ _ _ _ _ W1) by done. done.
  - intros Hall. rewrite length_app in Hall. rewrite (w_stay _ _ _ _ _ _ W2); [apply (w_stay _ _ _ _ _ _ W1); intros; apply Hall; lia|].
    intros k Hk. replace (off + Z.of_nat (length w1) + Z.of_nat k) with (off + Z.of_nat (length w1 + k)) by lia.
    apply (w_old _ _ _ _ _ _ W1); [lia|]. apply Hall. lia.
Qed.

(** A data block of the file is overwritten in place. *)
Section put.
Context (C : contents_map) (nd : dinode) (F : file_ok C nd) (bn : Z) (Hbn : 0 <= bn < MAXFILE) (d : list Z).
Let a := fblock C nd bn.
Context (Ha : a <> 0).
Let C2 := upd a d C.

Lemma put_block : ds <= a < sb_size v /\ used v C a = true.
Proof. destruct (slot_of_range bn Hbn) as [Hs _]. exact (f_range _ _ F _ Hs Ha). Qed.

Lemma put_slot i : 0 <= i < NSLOT -> slot C2 nd i = slot C nd i.
Proof.
  intros Hi. unfold slot. destruct (i <=? NDIRECT); [done|]. unfold indirect.
  destruct (aref (i_addrs nd) NDIRECT =? 0) eqn:E; btests; [done|]. unfold C2. rewrite upd_ne; [done|].
  intros Eq. destruct (slot_of_range bn Hbn) as [Hs Hd].
  assert (slot_of bn = NDIRECT); [|done].
  apply (f_inj _ _ F); [done | unfold NSLOT, NDIRECT; lia | | done].
  change (slot C nd (slot_of bn)) with a. rewrite <- Eq. done.
Qed.

Lemma put_used x : 0 <= x < sb_size v -> used v C2 x = used v C x.
Proof. intros Hx. destruct put_block. apply (used_data v ds); [done | lia | done]. Qed.

Lemma put_fblock x : 0 <= x < MAXFILE -> fblock C2 nd x = fblock C nd x.
Proof. intros Hx. destruct (slot_of_range x Hx) as [Hs _]. by apply put_slot. Qed.

Lemma put_ok : file_ok C2 nd.
Proof.
  pose proof (lay_size _ _ Lay). split.
  - apply F.
  - apply F.
  - intros i Hi. rewrite put_slot by done. intros Hne. destruct (f_range _ _ F i Hi Hne). split; [done|]. rewrite put_used; [done | lia].
  - intros i j Hi Hj. rewrite !put_slot by done. by apply (f_inj _ _ F).
  - intros x Hx Hlt. rewrite put_fblock; [by apply (f_full _ _ F)|].
    split; [done|]. apply (size_blocks nd); [apply F | done].
Qed.

Lemma put_fbyte o :
  0 <= o < MAXFILE * BSZ -> fblock C nd (o / BSZ) <> 0 ->
  fbyte C2 nd o = if decide (o / BSZ = bn) then aref d (o mod BSZ) else fbyte C nd o.
Proof.
  intros Ho Hne. pose proof (div_file o Ho) as Hx. unfold fbyte. rewrite put_fblock by done. case_decide as E.
  - subst bn. unfold C2, a. by rewrite upd_eq.
  - unfold C2. rewrite upd_ne; [done|]. intros Eq. apply E, slot_of_inj.
    destruct (slot_of_range _ Hx) as [Hs _]. destruct (slot_of_range bn Hbn) as [Hs' _]. by apply (f_inj _ _ F).
Qed.

Lemma put_foreign b : foreign C nd b -> foreign C2 nd b /\ C2 b = C b.
Proof.
  intros (Hr & Hu & Hns). pose proof (lay_size _ _ Lay). split.
  - split; [done|]. split; [rewrite put_used; [done | lia]|]. intros i Hi. rewrite put_slot by done. by apply Hns.
  - unfold C2. apply upd_ne. intros ->. destruct (slot_of_range bn Hbn) as [Hs _]. by apply (Hns _ Hs).
Qed.

Lemma put_inode i : 0 <= i < sb_ninodes v -> C2 (IBLOCK i v) = C (IBLOCK i v).
Proof. intros Hi. destruct put_block. pose proof (lay_inode _ _ Lay i Hi). apply upd_ne. lia. Qed.

Lemma put_free n : has_free C n -> has_free C2 n.
Proof. intros (X & Hs & HX). exists X. split; [done|]. intros x Hx. destruct (HX x Hx). split; [done|]. by rewrite put_used. Qed.

Lemma put_marked : marked v ds C -> marked v ds C2.
Proof. intros Hm b Hb. pose proof (lay_size _ _ Lay). rewrite put_used by lia. by apply Hm. Qed.
End put.

Lemma aref_splice off w d i :
  (off + length w <= length d)%nat -> 0 <= i ->
  aref (splice off w d) i =
    if decide (Z.of_nat off <= i < Z.of_nat (off + length w)) then default 0 (w !! (Z.to_nat i - off)%nat) else aref d i.
Proof.
  intros Hl Hi. unfold aref. rewrite lookup_splice by done. case_decide; case_decide; try lia; done.
Qed.

(** One turn of the loop: [w] within the block of [off]. *)
Lemma turn_wrote C nd C1 nd1 n off w :
  file_ok C nd -> grown C nd C1 nd1 n -> 0 <= off -> off mod BSZ + Z.of_nat (length w) <= BSZ -> sized C1 ->
  0 <= off / BSZ < MAXFILE -> fblock C1 nd1 (off / BSZ) <> 0 -> w <> [] -> (fblock C nd (off / BSZ) <> 0 -> nd1 = nd) ->
  let a := fblock C1 nd1 (off / BSZ) in
  wrote C nd (upd a (splice (Z.to_nat (off mod BSZ)) w (C1 a)) C1) nd1 off w.
Proof.
  intros F G Ho Hw Hsz1 Hbn Ha Hwn Hst a. subst a. destruct (grown_keeps _ _ _ _ _ G F) as (F1 & M1 & S1 & D1 & R1 & I1).
  pose proof (fblock_logged _ _ _ F1 Hbn Ha) as Hlog. pose proof (Hsz1 _ Hlog) as Hla.
  pose proof (Z.mod_pos_bound off BSZ ltac:(unfold BSZ; lia)) as Hmod.
  pose proof (Z.div_mod off BSZ ltac:(unfold BSZ; lia)) as Hdiv.
  set (d := splice (Z.to_nat (off mod BSZ)) w (C1 (fblock C1 nd1 (off / BSZ)))).
  assert (forall o, 0 <= o < MAXFILE * BSZ -> fblock C nd (o / BSZ) <> 0 ->
    fblock C1 nd1 (o / BSZ) = fblock C nd (o / BSZ) /\ fbyte C1 nd1 o = fbyte C nd o) as Hgrown.
  { intros o Hor Hb. destruct (slot_of_range _ (div_file o Hor)) as [Hs Hd]. unfold fbyte, fblock in *.
    rewrite (S1 _ Hs Hb). split; [done|]. by rewrite (D1 _ Hs Hd Hb). }
  split.
  - by apply put_ok.
  - done.
  - intros k x Hk. pose proof (lookup_lt_Some _ _ _ Hk). destruct (same_block off (Z.of_nat k)) as [Eb Em]; [lia ..|].
    rewrite put_fblock by (rewrite ?Eb; done). rewrite Eb. split; [done|].
    rewrite put_fbyte; [| done | done | done | unfold BSZ in *; lia | by rewrite Eb].
    rewrite decide_True by done. rewrite Em. unfold d. rewrite aref_splice by (rewrite ?Hla; unfold BSIZE, BSZ in *; lia).
    rewrite decide_True by lia. replace (Z.to_nat (off mod BSZ + Z.of_nat k) - Z.to_nat (off mod BSZ))%nat with k by lia.
    by rewrite Hk.
  - intros o Hor Hb. destruct (Hgrown o Hor Hb) as [Eb Ey]. rewrite put_fblock by (try done; by apply div_file).
    rewrite Eb. split; [done|]. intros Hout. rewrite put_fbyte by (rewrite ?Eb; done). rewrite <- Ey. case_decide as E; [|done].
    unfold d. rewrite aref_splice by (rewrite ?Hla; unfold BSIZE, BSZ in *; try lia; apply Z.mod_pos_bound; lia).
    pose proof (Z.div_mod o BSZ ltac:(unfold BSZ; lia)). rewrite decide_False by lia. unfold fbyte. by rewrite E.
  - intros b Hb. destruct (R1 b Hb) as [Hb1 E1].
    destruct (put_foreign C1 nd1 F1 (off / BSZ) Hbn d Ha b Hb1) as [Hb2 E2]. split; [done|]. etrans; [exact E2 | done].
  - intros i Hi. rewrite <- (I1 i Hi). by apply (put_inode C1 nd1 F1).
  - intros Hall. apply Hst. specialize (Hall 0%nat). rewrite Z.add_0_r in Hall. apply Hall. destruct w; [done | cbn; lia].
Qed.

(** The loop of [writei] in [k] turns. *)
Lemma writei_loop_law ip extra : forall fuel k (s : fss T) nd C L off src,
  sb s = v -> ok (blk s) ∅ C L -> marked v ds C -> node_at s ip nd -> file_ok C nd ->
  0 <= off -> off + Z.of_nat (length src) <= MAXFILE * BSZ ->
  src = [] \/ off mod BSZ + Z.of_nat (length src) <= BSZ * Z.of_nat k -> (k <= fuel)%nat ->
  has_free C (2 * k + extra) -> (size L + 6 * k <= capacity)%nat ->
  exists t C' nd' L', writei_loop fuel ip off src s = Ret (off + Z.of_nat (length src)) (with_node ip nd' t s) /\
    ok t ∅ C' L' /\ wrote C nd C' nd' off src /\ marked v ds C' /\ has_free C' extra /\ (size L' <= size L + 6 * k)%nat.
Proof.
  induction fuel as [|fuel IH]; intros k s nd C L off src Hsb Hs Hm Hat F Ho Hmax Hk Hfuel Hfree Hcap;
    destruct src as [|x0 src0] eqn:Esrc; cbn [writei_loop].
  1, 3: exists (blk s), C, nd, L; rewrite with_node_same by done; split; [cbn; rewrite Z.add_0_r; by destruct s|];
    split; [done|]; split; [by apply wrote_nil|]; split; [done|]; split; [eapply has_free_le; [|done]; lia | lia].
  { destruct Hk as [?|Hk]; [done|]. replace k with O in Hk by lia. cbn [length] in Hk.
    pose proof (Z.mod_pos_bound off BSZ ltac:(unfold BSZ; lia)). lia. }
  rewrite <- Esrc in *. assert (0 < Z.of_nat (length src)) as Hpos by (subst src; cbn; lia). clear x0 src0 Esrc.
  destruct Hk as [->|Hk]; [cbn in Hpos; lia|].
  pose proof (Z.mod_pos_bound off BSZ ltac:(unfold BSZ; lia)) as Hmod. destruct k as [|k]; [lia|].
  assert (0 <= off / BSZ < MAXFILE) as Hbn by (apply div_file; lia).
  pose proof Hat as (_ & Hdev & _). unfold bind at 1, getip, reads. rewrite Hdev.
  destruct (bmap_law s ip nd C L (off / BSZ)) as (t & C1 & nd1 & L1 & n1 & E1 & H1 & G1 & Ha & Hn1 & HL1 & Hsame); try done.
  { intros _. split; [eapply has_free_le; [|exact Hfree]; lia | lia]. }
  rewrite (bind_ret _ _ _ _ _ E1). set (a := fblock C1 nd1 (off / BSZ)) in *.
  destruct (grown_keeps _ _ _ _ _ G1 F) as (F1 & _).
  pose proof (fblock_logged _ _ _ F1 Hbn Ha) as Hlog. fold a in Hlog.
  pose proof (ok_len _ _ _ _ _ H1 Hlog) as Hla. cbv zeta.
  set (m := Z.min (Z.of_nat (length src)) (BSZ - off mod BSZ)).
  assert (0 < m <= Z.of_nat (length src)) as Hmn by (unfold m, BSZ in *; lia).
  set (w := take (Z.to_nat m) src). assert (length w = Z.to_nat m) as Hlw by (unfold w; rewrite length_take; lia).
  set (d := splice (Z.to_nat (off mod BSZ)) w (C1 a)).
  assert (length d = BSIZE) as Hld by (unfold d; rewrite length_splice; [done|]; rewrite Hla, Hlw; unfold m, BSIZE, BSZ in *; lia).
  destruct (update_law t ∅ C1 L1 a d H1 Hlog) as (bp & t1 & t2 & t3 & t4 & E2 & Hd & E3 & E4 & E5 & H5 & _);
    [rewrite map_size_empty; lia | done | done | pose proof (size_add a L1); lia |].
  set (s1 := with_node ip nd1 t s) in *.
  rewrite (bind_ret _ _ _ _ _ (io_run _ s1 _ _ E2)).
  unfold bind at 1, data_of, reads. cbn [blk set_blk]. rewrite Hd. fold d. unfold store.
  rewrite (bind_ret _ _ _ _ _ (io_run _ (set_blk t1 s1) _ _ E3)).
  rewrite (bind_ret _ _ _ _ _ (io_run _ (set_blk t2 (set_blk t1 s1)) _ _ E4)).
  rewrite (bind_ret _ _ _ _ _ (io_run _ (set_blk t3 (set_blk t2 (set_blk t1 s1))) _ _ E5)).
  assert (MAXFILE * BSZ < 2 ^ 32) as H32 by done. rewrite u32_small by lia.
  pose proof (turn_wrote C nd C1 nd1 n1 off w F G1 Ho ltac:(rewrite Hlw; unfold m; lia) (ok_sized _ _ _ _ H1) Hbn Ha
    ltac:(intros Ew; rewrite Ew in Hlw; cbn in Hlw; lia) ltac:(intros Hne; by destruct (Hsame Hne) as (_ & _ & ? & _))) as W.
  cbv zeta in W. fold a d in W.
  destruct (IH k (set_blk t4 s1) nd1 (upd a d C1) ({[a]} ∪ L1) (off + m) (drop (Z.to_nat m) src))
    as (t5 & C' & nd' & L' & E6 & H6 & W6 & M6 & Fr6 & HL6).
  { done. } { done. } { apply (put_marked C1 nd1 F1 (off / BSZ) Hbn d Ha). by eapply grown_marked. }
  { exact (with_node_at ip nd nd1 t s Hat). } { apply W. } { lia. } { rewrite length_drop. lia. }
  { rewrite length_drop. destruct (Z.le_gt_cases (Z.of_nat (length src)) (BSZ - off mod BSZ)).
    - left. apply drop_ge. lia.
    - right. assert ((off + m) mod BSZ = 0) as ->; [|lia]. unfold m. rewrite Z.min_r by lia.
      pose proof (Z.div_mod off BSZ ltac:(unfold BSZ; lia)). symmetry. apply (Z.mod_unique_pos _ _ (off / BSZ + 1)); unfold BSZ in *; lia. }
  { lia. }
  { apply (put_free C1 nd1 F1 (off / BSZ) Hbn d Ha). eapply grown_free; [exact G1|]. eapply has_free_le; [|exact Hfree]. lia. }
  { pose proof (size_add a L1). lia. }
  exists t5, C', nd', L'. split.
  - etrans; [exact E6|]. f_equal; [rewrite length_drop; lia|]. exact (with_node_twice ip nd1 nd' t t5 s).
  - split; [done|]. split; [|split; [done|split; [done|pose proof (size_add a L1); lia]]].
    rewrite <- (take_drop (Z.to_nat m) src). fold w. eapply wrote_app; [done | | exact W | rewrite Hlw, Z2Nat.id by lia; exact W6].
    unfold w. by rewrite take_drop.
Qed.

(** ** Writing an inode block *)

Section meta.
Context (C : contents_map) (inum : Z) (Hi : 0 <= inum < sb_ninodes v) (d : list Z).
Let C2 := upd (IBLOCK inum v) d C.

Lemma meta_used x : 0 <= x < sb_size v -> used v C2 x = used v C x.
Proof. intros Hx. unfold used, C2. rewrite upd_ne; [done|]. by apply (lay_apart _ _ Lay). Qed.

Lemma meta_data b : ds <= b -> C2 b = C b.
Proof. intros Hb. apply upd_ne. pose proof (lay_inode _ _ Lay inum Hi). lia. Qed.

Lemma meta_slot nd i : file_ok C nd -> 0 <= i < NSLOT -> slot C2 nd i = slot C nd i.
Proof.
  intros F Hi'. unfold slot. destruct (i <=? NDIRECT); [done|]. unfold indirect.
  destruct (aref (i_addrs nd) NDIRECT =? 0) eqn:E; btests; [done|]. rewrite meta_data; [done|].
  destruct (f_range _ _ F NDIRECT) as [Hr _]; [unfold NSLOT, NDIRECT; lia | done |].
  change (slot C nd NDIRECT) with (aref (i_addrs nd) NDIRECT) in Hr. lia.
Qed.

Lemma meta_ok nd : file_ok C nd -> file_ok C2 nd.
Proof.
  intros F. pose proof (lay_size _ _ Lay). split.
  - apply F.
  - apply F.
  - intros i Hi'. rewrite meta_slot by done. intros Hne. destruct (f_range _ _ F i Hi' Hne). split; [done|]. rewrite meta_used; [done | lia].
  - intros i j Hi' Hj. rewrite !meta_slot by done. by apply (f_inj _ _ F).
  - intros x Hx Hlt. unfold fblock. destruct (slot_of_range x) as [Hs _]; [split; [done|]; apply (size_blocks nd); [apply F | done]|].
    rewrite meta_slot by done. by apply (f_full _ _ F).
Qed.

Lemma meta_fbyte nd o :
  file_ok C nd -> 0 <= o < MAXFILE * BSZ -> fblock C nd (o / BSZ) <> 0 -> fbyte C2 nd o = fbyte C nd o.
Proof.
  intros F Ho Hne. pose proof (div_file o Ho) as Hx. destruct (slot_of_range _ Hx) as [Hs _].
  unfold fbyte, fblock in *. rewrite meta_slot by done. rewrite meta_data; [done|].
  destruct (f_range _ _ F _ Hs Hne). lia.
Qed.

Lemma meta_foreign nd b : file_ok C nd -> foreign C nd b -> foreign C2 nd b /\ C2 b = C b.
Proof.
  intros F (Hr & Hu & Hns). pose proof (lay_size _ _ Lay). split; [|apply meta_data; lia].
  split; [done|]. split; [rewrite meta_used; [done | lia]|]. intros i Hi'. rewrite meta_slot by done. by apply Hns.
Qed.

Lemma meta_free n : has_free C n -> has_free C2 n.
Proof. intros (X & Hs & HX). exists X. split; [done|]. intros x Hx. destruct (HX x Hx). split; [done|]. by rewrite meta_used. Qed.

Lemma meta_marked : marked v ds C -> marked v ds C2.
Proof. intros Hm b Hb. pose proof (lay_size _ _ Lay). rewrite meta_used by lia. by apply Hm. Qed.
End meta.
End file.
