(* ===== verification/FsInode.v ===== *)
(** * Inodes on disk (iupdate and ilock of fs.c)

    [iupdate] writes the fields of a cached inode to its 64 bytes on disk and
    touches no other inode; [ilock] reads them back. *)

From S2P Require Import Prelude Cstring Sleeplock Bio Log Blocks Fs FsAlloc FsFile.

(** ** [struct dinode] as bytes *)

Definition dinode_bytes (n : dinode) : list Z :=
  le_enc 2 (i_type n) ++ le_enc 2 (i_major n) ++ le_enc 2 (i_minor n) ++ le_enc 2 (i_nlink n) ++
  le_enc 4 (i_size n) ++ (take 13 (i_addrs n) ≫= le_enc 4).

(** The fields are in the range of their C types. *)
Definition dinode_ok (n : dinode) : Prop :=
  - 2 ^ 15 <= i_type n < 2 ^ 15 /\ - 2 ^ 15 <= i_major n < 2 ^ 15 /\ - 2 ^ 15 <= i_minor n < 2 ^ 15 /\
  - 2 ^ 15 <= i_nlink n < 2 ^ 15 /\ 0 <= i_size n < 2 ^ 32 /\
  length (i_addrs n) = 13%nat /\ Forall (fun a => 0 <= a < 2 ^ 32) (i_addrs n).

Lemma length_words ws : length (ws ≫= le_enc 4) = (4 * length ws)%nat.
Proof.
  induction ws as [|w ws IH]; [done|]. change ((w :: ws) ≫= le_enc 4) with (le_enc 4 w ++ (ws ≫= le_enc 4)).
  rewrite length_app, IH, length_le_enc. cbn. lia.
Qed.

Lemma put_words_splice ws : forall off d,
  (off + 4 * length ws <= length d)%nat -> put_words ws off d = splice off (ws ≫= le_enc 4) d.
Proof.
  induction ws as [|w ws IH]; intros off d H; cbn [put_words]; [symmetry; apply splice_nil|].
  cbn [length] in H. rewrite IH by (rewrite length_set32; lia). unfold set32.
  change ((w :: ws) ≫= le_enc 4) with (le_enc 4 w ++ (ws ≫= le_enc 4)).
  rewrite <- splice_app by (rewrite length_words, length_le_enc; lia). by rewrite length_le_enc.
Qed.

Lemma length_dinode_bytes n : length (i_addrs n) = 13%nat -> length (dinode_bytes n) = 64%nat.
Proof. intros H. unfold dinode_bytes. rewrite !length_app, !length_le_enc, length_words, length_take, H. done. Qed.

Lemma put_dinode_splice n off d :
  length (i_addrs n) = 13%nat -> (off + 64 <= length d)%nat -> put_dinode n off d = splice off (dinode_bytes n) d.
Proof.
  intros Ha Hd. unfold put_dinode, dinode_bytes, set16, set32.
  assert (forall A e k, (k = length A)%nat -> (off + length A + length e <= length d)%nat ->
    splice (off + k) e (splice off A d) = splice off (A ++ e) d) as Hstep by (intros A e k -> ?; by apply splice_app).
  rewrite (Hstep (le_enc 2 (i_type n))) by (rewrite ?length_app, ?length_le_enc; lia).
  rewrite (Hstep (le_enc 2 (i_type n) ++ le_enc 2 (i_major n))) by (rewrite ?length_app, ?length_le_enc; lia).
  rewrite Hstep by (rewrite ?length_app, ?length_le_enc; lia).
  rewrite Hstep by (rewrite ?length_app, ?length_le_enc; lia).
  rewrite put_words_splice.
  - rewrite Hstep by (rewrite ?length_app, ?length_le_enc, ?length_words, ?length_take; lia). by rewrite <- !app_assoc.
  - rewrite length_splice; rewrite ?length_app, ?length_le_enc, ?length_take; lia.
Qed.

Lemma slice_slice off o n m (d : list Z) : (o + n <= m)%nat -> slice o n (slice off m d) = slice (off + o) n d.
Proof.
  intros H. apply list_eq. intros i. rewrite !lookup_slice. case_decide; [|done].
  rewrite decide_True by lia. f_equal. lia.
Qed.

Lemma get_dinode_slice d off : get_dinode d off = get_dinode (slice off 64 d) 0.
Proof.
  unfold get_dinode, get16, get32, get_words. rewrite !slice_slice by lia. rewrite !Nat.add_0_r.
  replace (off + (0 + 2))%nat with (off + 2)%nat by lia. replace (off + (0 + 4))%nat with (off + 4)%nat by lia.
  replace (off + (0 + 6))%nat with (off + 6)%nat by lia. replace (off + (0 + 8))%nat with (off + 8)%nat by lia.
  f_equal. apply list_fmap_ext. intros _ k Hk%list_elem_of_lookup_2%elem_of_seq. unfold get32. rewrite slice_slice by lia.
  do 2 f_equal. lia.
Qed.

Lemma get_words_enc ws pre :
  Forall (fun a => 0 <= a < 2 ^ 32) ws -> get_words (length ws) (length pre) (pre ++ (ws ≫= le_enc 4)) = ws.
Proof.
  revert pre. induction ws as [|w ws IH]; intros pre Hw; [done|]. apply Forall_cons in Hw as [Hw Hws].
  change ((w :: ws) ≫= le_enc 4) with (le_enc 4 w ++ (ws ≫= le_enc 4)).
  unfold get_words. cbn [length seq fmap list_fmap]. f_equal.
  - unfold get32, slice. rewrite Nat.mul_0_r, Nat.add_0_r, drop_app_length.
    rewrite take_app_length' by by rewrite length_le_enc. rewrite le_dec_enc. by apply Z.mod_small.
  - specialize (IH (pre ++ le_enc 4 w) Hws). unfold get_words in IH. etrans; [|exact IH].
    rewrite <- seq_shift. change (map S (seq 0 (length ws))) with (S <$> seq 0 (length ws)). rewrite <- list_fmap_compose.
    apply list_fmap_ext. intros _ k _. unfold compose. rewrite app_assoc, length_app, length_le_enc. f_equal. lia.
Qed.

Lemma get_dinode_bytes n : dinode_ok n -> get_dinode (dinode_bytes n) 0 = n.
Proof.
  intros (H1 & H2 & H3 & H4 & H5 & Hl & Ha). unfold get_dinode.
  assert (forall x, - 2 ^ 15 <= x < 2 ^ 15 -> i16 (le_dec (le_enc 2 x)) = x) as H16
    by (intros x Hx; rewrite le_dec_enc; by apply i16_u16).
  assert (get_words 13 (0 + 12) (dinode_bytes n) = i_addrs n) as Hw.
  { unfold dinode_bytes. rewrite take_ge by lia. rewrite !app_assoc.
    replace (0 + 12)%nat with (length ((((le_enc 2 (i_type n) ++ le_enc 2 (i_major n)) ++ le_enc 2 (i_minor n)) ++
      le_enc 2 (i_nlink n)) ++ le_enc 4 (i_size n))) by (rewrite !length_app, !length_le_enc; lia).
    rewrite <- Hl at 1. by apply get_words_enc. }
  rewrite Hw. unfold get16, get32, slice, dinode_bytes. cbn [Nat.add le_enc app drop take].
  rewrite (H16 (i_type n) H1 : i16 (le_dec [i_type n mod 256; i_type n / 256 mod 256]) = _).
  rewrite (H16 (i_major n) H2 : i16 (le_dec [i_major n mod 256; i_major n / 256 mod 256]) = _).
  rewrite (H16 (i_minor n) H3 : i16 (le_dec [i_minor n mod 256; i_minor n / 256 mod 256]) = _).
  rewrite (H16 (i_nlink n) H4 : i16 (le_dec [i_nlink n mod 256; i_nlink n / 256 mod 256]) = _).
  assert (le_dec (le_enc 4 (i_size n)) = i_size n) as E by (rewrite le_dec_enc; by apply Z.mod_small).
  cbn [le_enc] in E. rewrite take_0, E. by destruct n.
Qed.

(** What [iupdate] stores is what [ilock] reads. *)
Lemma get_put_dinode n off d :
  dinode_ok n -> (off + 64 <= length d)%nat -> get_dinode (put_dinode n off d) off = n.
Proof.
  intros Hn Hd. pose proof Hn as (_ & _ & _ & _ & _ & Hl & _). rewrite put_dinode_splice by done.
  rewrite get_dinode_slice, <- (length_dinode_bytes n Hl), slice_splice_eq by (rewrite length_dinode_bytes; done).
  by apply get_dinode_bytes.
Qed.

(** The other inodes of the block are as they were. *)
Lemma get_put_dinode_ne n off off' d :
  length (i_addrs n) = 13%nat -> (off + 64 <= length d)%nat -> (off' + 64 <= off \/ off + 64 <= off')%nat ->
  get_dinode (put_dinode n off d) off' = get_dinode d off'.
Proof.
  intros Hl Hd Hne. rewrite put_dinode_splice by done. rewrite !(get_dinode_slice _ off').
  rewrite slice_splice_ne; rewrite ?length_dinode_bytes; done.
Qed.

Lemma length_put_dinode n off d :
  length (i_addrs n) = 13%nat -> (off + 64 <= length d)%nat -> length (put_dinode n off d) = length d.
Proof. intros Hl Hd. rewrite put_dinode_splice by done. rewrite length_splice; [done|]. by rewrite length_dinode_bytes. Qed.

Lemma dinode_at_le inum : (dinode_at inum + 64 <= BSIZE)%nat.
Proof. unfold dinode_at, IPB, BSIZE. pose proof (Z.mod_pos_bound inum 8 ltac:(lia)). lia. Qed.

Section iupdate.
Context {T : Type} {IO : BlockIO T} {BL : BlockLaws T}.
Context (v : superblock) (ds : Z) (Lay : layout v ds).

(** The inode [inum] on disk. *)
Definition disk_inode (C : contents_map) (inum : Z) : dinode := get_dinode (C (IBLOCK inum v)) (dinode_at inum).
Definition put_inode (inum : Z) (nd : dinode) (C : contents_map) : contents_map :=
  upd (IBLOCK inum v) (put_dinode nd (dinode_at inum) (C (IBLOCK inum v))) C.

Lemma iupdate_law (s : fss T) ip nd C L :
  sb s = v -> ok (blk s) ∅ C L -> node_at s ip nd -> length (i_addrs nd) = 13%nat ->
  let inum := i_inum (inodes s !!! ip) in
  0 <= inum < sb_ninodes v -> (size ({[IBLOCK inum v]} ∪ L) <= capacity)%nat ->
  exists t, iupdate ip s = Ret tt (set_blk t s) /\ ok t ∅ (put_inode inum nd C) ({[IBLOCK inum v]} ∪ L).
Proof.
  intros Hsb Hs (Hl & Hdev & Hnode) Ha inum Hi Hcap. destruct (lay_inode _ _ Lay inum Hi) as [Hlog _].
  pose proof (ok_len _ _ _ _ _ Hs Hlog) as Hlen.
  destruct (update_law (blk s) ∅ C L (IBLOCK inum v) (put_dinode nd (dinode_at inum) (C (IBLOCK inum v))) Hs Hlog)
    as (i & s1 & s2 & s3 & s4 & E1 & Hd & E2 & E3 & E4 & H4 & _).
  { rewrite map_size_empty. lia. } { done. } { rewrite length_put_dinode; [done | done | rewrite Hlen; apply dinode_at_le]. } { done. }
  exists s4. split; [|done]. unfold iupdate. unfold bind at 1, getip, reads. unfold bind at 1, reads.
  rewrite Hdev, Hsb, Hnode. fold inum. rewrite (bind_ret _ _ _ _ _ (io_run _ _ _ _ E1)).
  unfold bind at 1, data_of, reads. cbn [blk set_blk]. rewrite Hd. unfold store.
  rewrite (bind_ret _ _ _ _ _ (io_run _ (set_blk s1 s) _ _ E2)).
  rewrite (bind_ret _ _ _ _ _ (io_run _ (set_blk s2 (set_blk s1 s)) _ _ E3)).
  exact (io_run _ (set_blk s3 (set_blk s2 (set_blk s1 s))) _ _ E4).
Qed.

Lemma updnode_run (s : fss T) ip nd f : node_at s ip nd -> updnode ip f s = Ret tt (with_node ip (f nd) (blk s) s).
Proof.
  intros (Hl & _ & Hn). unfold updnode, updip, modify, with_node. f_equal. destruct s as [b v' lk l p c]. cbn in *.
  unfold set_blk, set_inodes. cbn. f_equal. apply list_eq. intros j. rewrite !list_lookup_alter. case_decide; [|done]. subst j.
  destruct (l !! ip) as [x|] eqn:E; [|done]. cbn. by rewrite (list_lookup_total_correct _ _ _ E) in Hn; subst nd.
Qed.

Lemma with_node_inum ip nd t s j : (ip < length (inodes s))%nat -> i_inum (inodes (with_node (T := T) ip nd t s) !!! j) = i_inum (inodes s !!! j).
Proof.
  intros Hl. unfold with_node. cbn [inodes set_blk set_inodes]. destruct (decide (j = ip)) as [->|Hne].
  - by rewrite alter_at.
  - by rewrite list_lookup_total_alter_ne.
Qed.

Lemma disk_put_inode C inum nd : dinode_ok nd -> length (C (IBLOCK inum v)) = BSIZE -> disk_inode (put_inode inum nd C) inum = nd.
Proof.
  intros Hn Hl. unfold disk_inode, put_inode. rewrite upd_eq. apply get_put_dinode; [done|]. rewrite Hl. apply dinode_at_le.
Qed.

Lemma disk_put_inode_ne C inum nd j :
  0 <= inum < sb_ninodes v -> 0 <= j < sb_ninodes v -> j <> inum ->
  length (i_addrs nd) = 13%nat -> length (C (IBLOCK inum v)) = BSIZE ->
  disk_inode (put_inode inum nd C) j = disk_inode C j.
Proof.
  intros Hi Hj Hne Ha Hl. unfold disk_inode, put_inode.
  destruct (decide (IBLOCK j v = IBLOCK inum v)) as [E|E]; [|by rewrite upd_ne]. rewrite E, upd_eq.
  apply get_put_dinode_ne; [done | rewrite Hl; apply dinode_at_le |].
  pose proof (lay_inodes _ _ Lay). unfold IBLOCK, IPB in E.
  pose proof (Z.div_mod j 8 ltac:(lia)). pose proof (Z.mod_pos_bound j 8 ltac:(lia)).
  pose proof (Z.div_mod inum 8 ltac:(lia)). pose proof (Z.mod_pos_bound inum 8 ltac:(lia)).
  rewrite !u32_small in E by lia. unfold dinode_at, IPB. lia.
Qed.
End iupdate.
