(* ===== verification/FsRw.v ===== *)
(** * Reading and writing files (readi and writei of fs.c)

    The inodes on disk stand for a map from inode numbers to byte strings.
    On this map [readi] is a lookup of a slice and [writei] replaces a slice,
    growing the file when it writes past the end; no other file changes,
    although all of them share the bitmap and the inode blocks. *)

From S2P Require Import Prelude Cstring Sleeplock Bio Log Blocks Fs FsAlloc FsFile FsInode.

Section rw.
Context {T : Type} {IO : BlockIO T} {BL : BlockLaws T}.
Context (v : superblock) (ds : Z) (Lay : layout v ds).

Implicit Types (C : contents_map) (s : fss T).

(** Inode [i] is in use. *)
Definition live C (i : Z) : Prop := 0 <= i < sb_ninodes v /\ i_type (disk_inode v C i) <> 0.
(** The bytes of the file of inode [i]. *)
Definition file_of C (i : Z) : list Z := file C (disk_inode v C i).
(** Two inodes have no block in common. *)
Definition apart C (nd nd' : dinode) : Prop :=
  forall i j, 0 <= i < NSLOT -> 0 <= j < NSLOT -> slot C nd i <> 0 -> slot C nd i <> slot C nd' j.

(** The file system on disk is consistent. *)
Record fs_ok C : Prop := {
  o_marked : marked v ds C;
  o_file i : live C i -> file_ok v ds C (disk_inode v C i);
  o_apart i j : live C i -> live C j -> i <> j -> apart C (disk_inode v C i) (disk_inode v C j);
}.

(** Cached inode [ip] is a copy of inode [i] on disk, which is in use. *)
Definition cached s C (ip : nat) (i : Z) : Prop :=
  node_at s ip (disk_inode v C i) /\ i_inum (inodes s !!! ip) = i /\ live C i.

(** ** Reading *)

Lemma length_file C nd : length (file C nd) = Z.to_nat (i_size nd).
Proof. apply length_fbytes. Qed.

Lemma fbytes_slice C nd off n :
  0 <= off -> 0 <= n -> off + n <= i_size nd -> fbytes C nd off (Z.to_nat n) = slice (Z.to_nat off) (Z.to_nat n) (file C nd).
Proof.
  intros Ho Hn Hs. apply list_eq. intros k. rewrite lookup_slice. case_decide as Hk.
  - unfold file. rewrite !lookup_fbytes by lia. do 2 f_equal. lia.
  - apply lookup_ge_None. rewrite length_fbytes. lia.
Qed.

(** The number of bytes that [readi] gives: up to the end of the file. *)
Definition read_count C (i off n : Z) : Z := Z.min n (Z.of_nat (length (file_of C i)) - off).

Lemma turns_fuel off n : 0 <= off -> 0 <= n -> off mod BSZ + n <= BSZ * Z.of_nat (Z.to_nat (n / BSZ + 2)).
Proof.
  intros Ho Hn. unfold BSZ. pose proof (Z.mod_pos_bound off 512 ltac:(lia)). pose proof (Z.div_mod n 512 ltac:(lia)).
  pose proof (Z.mod_pos_bound n 512 ltac:(lia)). pose proof (Z.div_pos n 512 ltac:(lia) ltac:(lia)). lia.
Qed.

Lemma readi_law devsw s C L ip i off n :
  sb s = v -> ok (blk s) ∅ C L -> fs_ok C -> cached s C ip i -> i_type (disk_inode v C i) <> T_DEV ->
  0 <= off <= Z.of_nat (length (file_of C i)) -> 0 <= n -> off + n < 2 ^ 32 ->
  exists t, readi devsw ip off n s =
    Ret (read_count C i off n, slice (Z.to_nat off) (Z.to_nat (read_count C i off n)) (file_of C i)) (set_blk t s) /\ ok t ∅ C L.
Proof.
  intros Hsb Hs [Hm HF _] (Hat & Hin & Hi) Hty Ho Hn Hov. specialize (HF i Hi). unfold read_count, file_of in *. rewrite length_file in *.
  set (nd := disk_inode v C i) in *. destruct (f_size _ _ _ _ HF) as [Hz Hmx]. rewrite Z2Nat.id in * by lia.
  assert (MAXFILE * BSZ < 2 ^ 31) as Hmax by done.
  unfold readi. unfold bind at 1, getip, reads. pose proof Hat as (_ & _ & ->). cbv zeta. rewrite u32_small by lia.
  rewrite (proj2 (Z.eqb_neq _ _)) by done.
  rewrite (proj2 (Z.ltb_ge (i_size nd) off)), (proj2 (Z.ltb_ge (off + n) off)) by lia. cbn [orb].
  set (m := if i_size nd <? off + n then i_size nd - off else n).
  assert (m = Z.min n (i_size nd - off)) as Em by (unfold m; destruct (i_size nd <? off + n) eqn:E; btests; lia).
  destruct (readi_loop_law v ds Lay ip nd C L HF Hm (Z.to_nat (m / BSZ + 2)) s off m) as (t & E1 & H1); try done; [lia | lia | |].
  { right. apply turns_fuel; lia. }
  exists t. split; [|done]. rewrite (bind_ret _ _ _ _ _ E1). unfold ret. rewrite i32_small by lia. rewrite <- Em.
  by rewrite fbytes_slice by lia.
Qed.

(** ** Writing *)

(** The file after [src] is written at [off]. *)
Definition overwrite (off : Z) (src f : list Z) : list Z := splice (Z.to_nat off) src f.

Lemma lookup_overwrite off src (f : list Z) i : (off <= length f)%nat ->
  splice off src f !! i =
    if decide (off <= i < off + length src)%nat then src !! (i - off)%nat else f !! i.
Proof.
  intros Ho. unfold splice. case_decide as Hi.
  - rewrite lookup_app_r by (rewrite length_take; lia). rewrite length_take, lookup_app_l by lia. f_equal. lia.
  - destruct (decide (i < off)%nat).
    + rewrite lookup_app_l by (rewrite length_take; lia). by rewrite lookup_take_lt.
    + rewrite lookup_app_r by (rewrite length_take; lia). rewrite lookup_app_r by (rewrite length_take; lia).
      rewrite lookup_drop, length_take. f_equal. lia.
Qed.

(** The inode with the size that a write of [n] bytes at [off] leaves. *)
Definition grow (off n : Z) (nd : dinode) : dinode := set_size (Z.max (i_size nd) (off + n)) nd.

Lemma grow_ok C nd C' nd' off src :
  file_ok v ds C nd -> wrote v ds C nd C' nd' off src -> 0 <= off <= i_size nd ->
  off + Z.of_nat (length src) <= MAXFILE * BSZ ->
  file_ok v ds C' (grow off (Z.of_nat (length src)) nd').
Proof.
  intros F W Ho Hmax. pose proof (w_ok _ _ _ _ _ _ _ _ W) as F'. pose proof (f_size _ _ _ _ F) as Hsz.
  destruct (w_meta _ _ _ _ _ _ _ _ W) as (_ & _ & _ & _ & Es).
  split; [apply F' | cbn; rewrite Es; lia | apply F' | apply F' |].
  intros bn H0 Hlt. cbn in Hlt. rewrite Es in Hlt.
  change (fblock C' nd' bn <> 0). replace bn with (bn * BSZ / BSZ) by (apply Z.div_mul; done).
  destruct (Z.lt_ge_cases (bn * BSZ) (i_size nd)) as [H|H].
  - apply (w_old _ _ _ _ _ _ _ _ W); [unfold BSZ in *; lia|]. rewrite Z.div_mul by done. by apply (f_full _ _ _ _ F).
  - destruct (lookup_lt_is_Some_2 src (Z.to_nat (bn * BSZ - off))) as [x Hx]; [lia|].
    destruct (w_new _ _ _ _ _ _ _ _ W _ _ Hx) as [Hne _].
    by replace (off + Z.of_nat (Z.to_nat (bn * BSZ - off))) with (bn * BSZ) in Hne by lia.
Qed.

Lemma grow_file C nd C' nd' off src :
  file_ok v ds C nd -> wrote v ds C nd C' nd' off src -> 0 <= off <= i_size nd ->
  off + Z.of_nat (length src) <= MAXFILE * BSZ ->
  file C' (grow off (Z.of_nat (length src)) nd') = overwrite off src (file C nd).
Proof.
  intros F W Ho Hmax. pose proof (f_size _ _ _ _ F) as Hsz.
  destruct (w_meta _ _ _ _ _ _ _ _ W) as (_ & _ & _ & _ & Es).
  assert (length (overwrite off src (file C nd)) = Z.to_nat (Z.max (i_size nd) (off + Z.of_nat (length src)))) as Hlen.
  { unfold overwrite, splice. rewrite !length_app, length_take, length_drop, length_file. lia. }
  apply list_eq. intros k. destruct (decide (k < Z.to_nat (Z.max (i_size nd) (off + Z.of_nat (length src))))%nat) as [Hk|Hk].
  2: rewrite !lookup_ge_None_2; [done | lia | rewrite length_file; cbn; rewrite Es; lia].
  unfold overwrite. rewrite lookup_overwrite by (rewrite length_file; lia). unfold file at 1. rewrite lookup_fbytes by (cbn; rewrite Es; lia).
  rewrite Z.add_0_l. change (fbyte C' (grow off (Z.of_nat (length src)) nd')) with (fbyte C' nd'). case_decide as Hc.
  - destruct (lookup_lt_is_Some_2 src (k - Z.to_nat off)) as [x Hx]; [lia|]. rewrite Hx. f_equal.
    destruct (w_new _ _ _ _ _ _ _ _ W _ _ Hx) as [_ <-]. f_equal. lia.
  - unfold file. rewrite lookup_fbytes by lia. rewrite Z.add_0_l. f_equal.
    apply (w_old _ _ _ _ _ _ _ _ W); [lia | | lia]. apply (offset_block v ds C nd); [done | lia].
Qed.

(** Nothing of the inode changes when the bytes were in the file. *)
Lemma wrote_within C nd C' nd' off src :
  file_ok v ds C nd -> wrote v ds C nd C' nd' off src -> 0 <= off -> off + Z.of_nat (length src) <= i_size nd ->
  nd' = nd.
Proof.
  intros F W Ho Hs. apply (w_stay _ _ _ _ _ _ _ _ W). intros k Hk. apply (offset_block v ds C nd); [done | lia].
Qed.

(** ** Where a file's blocks are kept *)

(** [C'] has the blocks of the file as [C] has them, and in use. *)
Definition keeps C C' (nd : dinode) : Prop := forall k, 0 <= k < NSLOT -> slot C nd k <> 0 ->
  used v C' (slot C nd k) = true /\ C' (slot C nd k) = C (slot C nd k).

Section move.
Context C C' (nd : dinode) (K : keeps C C' nd).

Lemma move_slot k : 0 <= k < NSLOT -> slot C' nd k = slot C nd k.
Proof.
  intros Hk. unfold slot. destruct (k <=? NDIRECT); [done|]. unfold indirect.
  destruct (aref (i_addrs nd) NDIRECT =? 0) eqn:E; btests; [done|].
  by rewrite (proj2 (K NDIRECT ltac:(done) E) : C' (aref (i_addrs nd) NDIRECT) = _).
Qed.

Lemma move_ok : file_ok v ds C nd -> file_ok v ds C' nd.
Proof.
  intros F. split; [apply F | apply F | | |].
  - intros k Hk. rewrite move_slot by done. intros H0. split; [by apply (f_range _ _ _ _ F) | by apply K].
  - intros k k' Hk Hk'. rewrite !move_slot by done. by apply (f_inj _ _ _ _ F).
  - intros bn H0 Hlt. unfold fblock. rewrite move_slot; [by apply (f_full _ _ _ _ F)|].
    apply slot_of_range. split; [done|]. apply (size_blocks nd); [apply F | done].
Qed.

Lemma move_file : file_ok v ds C nd -> file C' nd = file C nd.
Proof.
  intros F. pose proof (f_size _ _ _ _ F) as Hsz. unfold file, fbytes. apply list_fmap_ext.
  intros _ o Ho%list_elem_of_lookup_2%elem_of_seq. rewrite Z.add_0_l. unfold fbyte.
  destruct (offset_block v ds C nd (Z.of_nat o) F) as [Hbn Hb]; [lia|].
  unfold fblock in *. pose proof (proj1 (slot_of_range _ Hbn)) as Hs. rewrite move_slot by done. by rewrite (proj2 (K _ Hs Hb)).
Qed.
End move.

(** ** Contents that agree

    Only the blocks that a transaction may hold matter. *)

Definition agree C C' : Prop := forall b, logged b -> C' b = C b.

#[global] Instance agree_equiv : Equivalence agree.
Proof.
  split; [done | intros C C' H b Hb; by rewrite H | intros C1 C2 C3 H12 H23 b Hb; by rewrite H23, H12].
Qed.

Section agree.
Context C C' (A : agree C C').

Lemma agree_inode i : 0 <= i < sb_ninodes v -> disk_inode v C' i = disk_inode v C i.
Proof. intros Hi. unfold disk_inode. rewrite A; [done|]. by apply (lay_inode _ _ Lay). Qed.

Lemma agree_used b : 0 <= b < sb_size v -> used v C' b = used v C b.
Proof. intros Hb. unfold used. rewrite A; [done|]. by apply (lay_bitmap _ _ Lay). Qed.

Lemma agree_keeps nd : file_ok v ds C nd -> keeps C C' nd.
Proof.
  intros F k Hk H0. destruct (f_range _ _ _ _ F k Hk H0) as [Hr Hu]. pose proof (lay_size _ _ Lay).
  rewrite agree_used by lia. split; [done|]. apply A. by apply (lay_data _ _ Lay).
Qed.

Lemma agree_live i : live C i -> live C' i.
Proof. intros [Hi Ht]. split; [done|]. by rewrite agree_inode. Qed.

Lemma agree_file i : fs_ok C -> live C i -> file_of C' i = file_of C i.
Proof.
  intros O Hi. unfold file_of. rewrite agree_inode by apply Hi.
  apply move_file; [apply agree_keeps, O, Hi | by apply O].
Qed.
End agree.

Lemma fs_ok_agree C C' : agree C C' -> fs_ok C -> fs_ok C'.
Proof.
  intros A O. assert (forall i, live C' i -> live C i) as Hl by (intros i; apply agree_live; by symmetry).
  pose proof (lay_size _ _ Lay). split.
  - intros b Hb. rewrite (agree_used C C') by (done || lia). by apply O.
  - intros i Hi%Hl. rewrite (agree_inode C C') by (done || apply Hi).
    apply (move_ok C); [apply agree_keeps; [done|] | ]; by apply O.
  - intros i j Hi%Hl Hj%Hl Hij. rewrite !(agree_inode C C') by (done || apply Hi || apply Hj).
    intros k l Hk Hl'. rewrite !(move_slot C C') by (done || by apply agree_keeps, O). by apply (o_apart _ O).
Qed.

#[global] Instance fs_ok_proper : Proper (agree ==> iff) fs_ok.
Proof. intros C C' A. split; apply fs_ok_agree; [done | by symmetry]. Qed.

(** ** The other files *)

(** From [C] to [C'] only inode [i], its blocks and free blocks change. *)
Record touches C C' (i : Z) : Prop := {
  t_live : live C i /\ live C' i;
  t_marked : marked v ds C';
  t_file : file_ok v ds C' (disk_inode v C' i);
  t_inode j : 0 <= j < sb_ninodes v -> j <> i -> disk_inode v C' j = disk_inode v C j;
  t_block b : foreign v ds C (disk_inode v C i) b -> foreign v ds C' (disk_inode v C' i) b /\ C' b = C b;
}.

Section others.
Context C C' (i : Z) (O : fs_ok C) (Tc : touches C C' i).

Lemma other_live j : j <> i -> live C' j <-> live C j.
Proof. intros Hj. unfold live. split; intros [Hr Ht]; split; try done; [by rewrite <- (t_inode _ _ _ Tc) | by rewrite (t_inode _ _ _ Tc)]. Qed.

Section other.
Context (j : Z) (Hj : live C j) (Hne : j <> i).
Let nd := disk_inode v C j.

Lemma other_foreign k : 0 <= k < NSLOT -> slot C nd k <> 0 -> foreign v ds C (disk_inode v C i) (slot C nd k).
Proof.
  intros Hk H0. destruct (f_range _ _ _ _ (o_file _ O j Hj) k Hk H0) as [Hr Hu]. split; [done|]. split; [done|].
  intros k' Hk' E. apply (o_apart _ O j i Hj (proj1 (t_live _ _ _ Tc)) Hne k k' Hk Hk' H0). by rewrite E.
Qed.

Lemma other_kept : keeps C C' nd.
Proof. intros k Hk H0. by destruct (t_block _ _ _ Tc _ (other_foreign k Hk H0)) as [(_ & ? & _) ?]. Qed.

Lemma other_slot k : 0 <= k < NSLOT -> slot C' nd k = slot C nd k.
Proof. apply move_slot, other_kept. Qed.
End other.

Lemma touches_ok : fs_ok C'.
Proof.
  split; [apply Tc | |].
  - intros j Hj. destruct (decide (j = i)) as [->|Hne]; [apply Tc|]. pose proof (proj1 (other_live j Hne) Hj) as Hj0.
    rewrite (t_inode _ _ _ Tc); [by apply (move_ok C); [apply other_kept | apply O] | apply Hj | done].
  - intros j k Hj Hk Hjk. destruct (decide (j = i)) as [->|Hji]; [|destruct (decide (k = i)) as [->|Hki]].
    + pose proof (proj1 (other_live k (not_eq_sym Hjk)) Hk) as Hk0. rewrite (t_inode _ _ _ Tc k) by (done || apply Hk).
      intros a b Ha Hb H0 E. rewrite (other_slot k) in E by done. rewrite E in H0.
      destruct (t_block _ _ _ Tc _ (other_foreign k Hk0 (not_eq_sym Hjk) b Hb H0)) as [(_ & _ & Hf) _]. by apply (Hf a Ha).
    + pose proof (proj1 (other_live j Hji) Hj) as Hj0. rewrite (t_inode _ _ _ Tc j) by (done || apply Hj).
      intros a b Ha Hb H0 E. rewrite (other_slot j) in H0, E by done.
      destruct (t_block _ _ _ Tc _ (other_foreign j Hj0 Hji a Ha H0)) as [(_ & _ & Hf) _]. by apply (Hf b Hb).
    + pose proof (proj1 (other_live j Hji) Hj) as Hj0. pose proof (proj1 (other_live k Hki) Hk) as Hk0.
      rewrite !(t_inode _ _ _ Tc) by (done || apply Hj || apply Hk).
      intros a b Ha Hb. rewrite !other_slot by done. by apply (o_apart _ O j k).
Qed.

Lemma touches_file j : live C j -> j <> i -> live C' j /\ file_of C' j = file_of C j.
Proof.
  intros Hj Hne. split; [by apply other_live|]. unfold file_of. rewrite (t_inode _ _ _ Tc); [by apply move_file; [apply other_kept | apply O] | apply Hj | done].
Qed.
End others.

(** ** The whole of [writei] *)

Lemma i16_range z : - 2 ^ 15 <= i16 z < 2 ^ 15.
Proof. unfold i16, u16. pose proof (Z.mod_pos_bound z (2 ^ 16) ltac:(lia)). destruct (z mod 2 ^ 16 <? 2 ^ 15) eqn:E; btests; lia. Qed.

(** The turns of the loop, each of which may allocate two blocks and log six. *)
Definition turns (off n : Z) : nat := Z.to_nat ((off mod BSZ + n + (BSZ - 1)) / BSZ).

Lemma turns_enough off n : 0 <= off -> 0 <= n ->
  off mod BSZ + n <= BSZ * Z.of_nat (turns off n) /\ (turns off n <= Z.to_nat (n / BSZ + 2))%nat.
Proof.
  intros Ho Hn. unfold turns, BSZ. pose proof (Z.mod_pos_bound off 512 ltac:(lia)).
  set (x := off mod 512 + n + (512 - 1)). pose proof (Z.div_mod x 512 ltac:(lia)). pose proof (Z.mod_pos_bound x 512 ltac:(lia)).
  pose proof (Z.div_pos x 512 ltac:(lia) ltac:(lia)).
  assert (x / 512 < n / 512 + 3); [|lia]. pose proof (Z.div_mod n 512 ltac:(lia)). pose proof (Z.mod_pos_bound n 512 ltac:(lia)). lia.
Qed.

Definition meta (nd : dinode) : Z * Z * Z * Z := (i_type nd, i_major nd, i_minor nd, i_nlink nd).

Lemma disk_dinode_ok C i nd : file_ok v ds C nd -> meta nd = meta (disk_inode v C i) -> dinode_ok nd.
Proof.
  intros F [= E1 E2 E3 E4]. pose proof (f_size _ _ _ _ F) as Hs. assert (MAXFILE * BSZ < 2 ^ 31) by done.
  unfold dinode_ok. rewrite E1, E2, E3, E4. do 4 (split; [apply i16_range|]). split; [lia|]. split; [apply F|].
  apply Forall_lookup_2. intros k a Hk. pose proof (lookup_lt_Some _ _ _ Hk) as Hl. rewrite (f_addrs _ _ _ _ F) in Hl.
  assert (slot C nd (Z.of_nat k) = a) as Ea.
  { unfold slot, NDIRECT. rewrite (proj2 (Z.leb_le _ _)) by lia. unfold aref. by rewrite Nat2Z.id, Hk. }
  pose proof (lay_size _ _ Lay) as Hls. destruct (decide (a = 0)) as [->|Hne]; [lia|].
  destruct (f_range _ _ _ _ F (Z.of_nat k)) as [Hr _]; [unfold NSLOT; lia | by rewrite Ea |]. rewrite Ea in Hr. lia.
Qed.

Section write.
Context C C' (i off : Z) (src : list Z) (nd' : dinode).
Context (O : fs_ok C) (Hi : live C i) (Hm : marked v ds C') (Hz : sized C').
Let nd := disk_inode v C i.
Context (W : wrote v ds C nd C' nd' off src).

Lemma write_inode j : 0 <= j < sb_ninodes v -> disk_inode v C' j = disk_inode v C j.
Proof. intros Hj. unfold disk_inode. by rewrite (w_inode _ _ _ _ _ _ _ _ W). Qed.

Lemma write_stays : nd' = nd -> touches C C' i.
Proof.
  intros E. pose proof (write_inode i (proj1 Hi)) as Ei. split.
  - split; [done|]. unfold live. by rewrite Ei.
  - done.
  - rewrite Ei. fold nd. rewrite <- E. apply W.
  - intros j Hj _. by apply write_inode.
  - intros b Hb. rewrite Ei. fold nd. rewrite <- E at 1. by apply (w_foreign _ _ _ _ _ _ _ _ W).
Qed.

Lemma write_grows :
  let nd2 := grow off (Z.of_nat (length src)) nd' in
  file_ok v ds C' nd2 -> touches C (put_inode v i nd2 C') i /\ disk_inode v (put_inode v i nd2 C') i = nd2 /\
  file (put_inode v i nd2 C') nd2 = file C' nd2.
Proof.
  intros nd2 F2. pose proof (f_size _ _ _ _ F2) as Hs2. destruct (w_meta _ _ _ _ _ _ _ _ W) as (Et & Ej & En & El & Es).
  assert (meta nd2 = meta (disk_inode v C' i)) as Em.
  { rewrite write_inode by apply Hi. fold nd. unfold meta, nd2, grow, set_size. cbn [i_type i_major i_minor i_nlink]. by rewrite Et, Ej, En, El. }
  pose proof (disk_dinode_ok C' i nd2 F2 Em) as Hd. pose proof (Hz _ (proj1 (lay_inode _ _ Lay i (proj1 Hi)))) as Hlen.
  pose proof (disk_put_inode v C' i nd2 Hd Hlen) as E2.
  split; [split|split; [done|]].
  - split; [done|]. split; [apply Hi|]. rewrite E2. cbn. rewrite Et. apply Hi.
  - by apply meta_marked with (ds := ds); [done | apply Hi | done].
  - rewrite E2. apply meta_ok; [done | apply Hi | done].
  - intros j Hj Hne. rewrite (disk_put_inode_ne v ds Lay); [by apply write_inode | apply Hi | done | done | apply F2 | done].
  - intros b Hb. rewrite E2. destruct (w_foreign _ _ _ _ _ _ _ _ W b Hb) as [Hf Hsame].
    destruct (meta_foreign v ds Lay C' i (proj1 Hi) (put_dinode nd2 (dinode_at i) (C' (IBLOCK i v))) nd2 b F2 Hf) as [Hf2 Hs].
    split; [done|]. unfold put_inode. by rewrite Hs.
  - unfold file, fbytes. apply list_fmap_ext. intros _ o Ho%list_elem_of_lookup_2%elem_of_seq.
    rewrite Z.add_0_l. apply meta_fbyte with (v := v) (ds := ds); [done | apply Hi | done | lia |].
    apply (offset_block v ds C' nd2); [done | lia].
Qed.
End write.

(** [writei] after its checks and its loop. *)
Lemma writei_after_loop devsw s ip nd off src t nd1 :
  let n := Z.of_nat (length src) in
  node_at s ip nd -> i_type nd <> T_DEV -> 0 <= off <= i_size nd -> off + n <= MAXFILE * BSZ ->
  writei_loop (Z.to_nat (n / BSZ + 2)) ip off src s = Ret (off + n) (with_node ip nd1 t s) ->
  writei devsw ip src off n s =
    (when ((0 <? n) && (i_size nd1 <? off + n)) (updnode ip (set_size (off + n)) ;; iupdate ip) ;; ret n) (with_node ip nd1 t s).
Proof.
  intros n Hat Hty Ho Hmax E1. assert (MAXFILE * BSZ < 2 ^ 31) as H31 by done. pose proof (with_node_at ip nd nd1 t s Hat) as Hat1.
  unfold writei. unfold bind at 1, getip at 1, reads. pose proof Hat as (_ & _ & ->). cbv zeta. rewrite u32_small by (unfold n in *; lia).
  rewrite (proj2 (Z.eqb_neq _ _)) by done. rewrite (proj2 (Z.ltb_ge (i_size nd) off)), (proj2 (Z.ltb_ge (off + n) off)) by (unfold n; lia).
  rewrite (proj2 (Z.ltb_ge (MAXFILE * BSZ) (off + n))) by lia. unfold n at 1. rewrite Z.ltb_irrefl. cbn [orb].
  unfold n at 2. rewrite Nat2Z.id, firstn_all, (bind_ret _ _ _ _ _ E1).
  unfold bind at 1, getip, reads. pose proof Hat1 as (_ & _ & ->). rewrite i32_small by (unfold n in *; lia). done.
Qed.

Lemma writei_law devsw s C L ip i off src extra :
  let n := Z.of_nat (length src) in
  sb s = v -> ok (blk s) ∅ C L -> fs_ok C -> cached s C ip i -> i_type (disk_inode v C i) <> T_DEV ->
  0 <= off <= Z.of_nat (length (file_of C i)) -> off + n <= MAXFILE * BSZ ->
  has_free v C (2 * turns off n + extra) -> (size L + 6 * turns off n + 1 <= capacity)%nat ->
  exists t C' L', writei devsw ip src off n s = Ret n (with_node ip (disk_inode v C' i) t s) /\
    ok t ∅ C' L' /\ touches C C' i /\ file_of C' i = overwrite off src (file_of C i) /\
    meta (disk_inode v C' i) = meta (disk_inode v C i) /\
    has_free v C' extra /\ (size L' <= size L + 6 * turns off n + 1)%nat.
Proof.
  intros n Hsb Hs O (Hat & Hin & Hi) Hty Ho Hmax Hfree Hcap. unfold file_of in *. rewrite length_file in Ho.
  pose proof (o_file _ O i Hi) as F. set (nd := disk_inode v C i) in *. pose proof (f_size _ _ _ _ F) as Hsz.
  assert (MAXFILE * BSZ < 2 ^ 31) as H31 by done.
  destruct (turns_enough off n) as [Ht Hfuel]; [lia | unfold n; lia |].
  destruct (writei_loop_law v ds Lay ip extra (Z.to_nat (n / BSZ + 2)) (turns off n) s nd C L off src)
    as (t & C1 & nd1 & L1 & E1 & H1 & W & Hm1 & Hf1 & HL1); try done; [apply O | lia | by right | lia |].
  pose proof (grow_ok _ _ _ _ _ _ F W ltac:(lia) Hmax) as F2. pose proof (grow_file _ _ _ _ _ _ F W ltac:(lia) Hmax) as Ef.
  destruct (w_meta _ _ _ _ _ _ _ _ W) as (Mt & Mj & Mn & Ml & Ms). pose proof (ok_sized _ _ _ _ H1) as Hz.
  pose proof (with_node_at ip nd nd1 t s Hat) as Hat1.
  assert (0 <= off <= i_size nd) as Ho' by lia.
  pose proof (writei_after_loop devsw s ip nd off src t nd1 Hat Hty Ho' Hmax E1) as E. cbv zeta in E. fold n in E. rewrite E.
  destruct ((0 <? n) && (i_size nd1 <? off + n)) eqn:Eg; cbn [when].
  - apply andb_true_iff in Eg as [Eg1 Eg2]. btests.
    assert (set_size (off + n) nd1 = grow off n nd1) as E2 by (unfold grow; f_equal; lia).
    destruct (write_grows C C1 i off src nd1 Hi Hm1 Hz W F2) as (Tc & Ed & Ef2). fold n in Tc, Ed, Ef2.
    set (nd2 := grow off n nd1) in *. pose proof (with_node_at ip nd1 nd2 t _ Hat1) as Hat2. pose proof Hat1 as (Hl1 & _ & _).
    assert (i_inum (inodes (with_node ip nd2 t (with_node ip nd1 t s)) !!! ip) = i) as Hin2
      by (rewrite with_node_inum by done; rewrite with_node_inum; [done | apply Hat]).
    destruct (iupdate_law v ds Lay (with_node ip nd2 t (with_node ip nd1 t s)) ip nd2 C1 L1 Hsb H1 Hat2) as (t2 & E3 & H3); [apply F2 | rewrite Hin2; apply Hi | |].
    { rewrite Hin2. pose proof (size_add (IBLOCK i v) L1). lia. }
    rewrite Hin2 in H3. exists t2, (put_inode v i nd2 C1), ({[IBLOCK i v]} ∪ L1). split.
    { rewrite (bind_ret _ _ _ tt (set_blk t2 (with_node ip nd2 t (with_node ip nd1 t s)))).
      - unfold ret. rewrite Ed, with_node_twice. by destruct s.
      - rewrite (bind_ret _ _ _ _ _ (updnode_run _ ip nd1 _ Hat1)), E2. exact E3. }
    split; [done|]. split; [done|]. split; [rewrite Ed, Ef2; exact Ef|].
    split; [rewrite Ed; unfold meta, nd2, grow, set_size; cbn [i_type i_major i_minor i_nlink]; by rewrite Mt, Mj, Mn, Ml|].
    split; [eapply meta_free; [done | apply Hi | done] | pose proof (size_add (IBLOCK i v) L1); lia].
  - assert (off + n <= i_size nd) as Hle by (apply andb_false_iff in Eg as [Eg|Eg]; btests; unfold n in *; lia).
    pose proof (wrote_within _ _ _ _ _ _ F W ltac:(lia) Hle) as ->.
    assert (disk_inode v C1 i = nd) as Ed by (by apply (write_inode C C1 i off src nd W), Hi).
    exists t, C1, L1. rewrite Ed. split; [done|]. split; [done|].
    split; [by apply (write_stays C C1 i off src nd)|]. split; [|split; [done|split; [done|lia]]].
    rewrite <- Ef. fold n. unfold grow. rewrite Z.max_l by lia. by destruct nd.
Qed.

(** [writei] refuses to leave a gap, to wrap and to pass the largest size. *)
Lemma writei_error devsw s C ip i off src n :
  cached s C ip i -> 0 <= i_size (disk_inode v C i) -> i_type (disk_inode v C i) <> T_DEV -> 0 <= off < 2 ^ 32 -> 0 <= n < 2 ^ 32 ->
  Z.of_nat (length (file_of C i)) < off \/ MAXFILE * BSZ < off + n ->
  writei devsw ip src off n s = Ret (-1) s.
Proof.
  intros (Hat & _ & _) Hsz Hty Ho Hn Hbad. unfold file_of in Hbad. rewrite length_file, Z2Nat.id in Hbad by done.
  unfold writei. unfold bind at 1, getip at 1, reads. pose proof Hat as (_ & _ & ->). cbv zeta.
  rewrite (proj2 (Z.eqb_neq _ _)) by done.
  destruct (i_size (disk_inode v C i) <? off) eqn:E1; [done|]. cbn [orb]. btests.
  destruct (u32 (off + n) <? off) eqn:E2; [done|]. btests.
  rewrite (proj2 (Z.ltb_lt (MAXFILE * BSZ) (u32 (off + n)))); [done|].
  assert (off + n < 2 ^ 32); [|rewrite u32_small by lia; lia].
  destruct (Z.lt_ge_cases (off + n) (2 ^ 32)) as [|Hge]; [done|]. unfold u32 in E2.
  replace ((off + n) mod 2 ^ 32) with (off + n - 2 ^ 32) in E2; [lia|].
  apply (Z.mod_unique_pos _ _ 1); lia.
Qed.

(** ** The claims *)

(** C11: [readi] reads the bytes of the file.  Of a consistent file system it
    returns the part of the file from [off] on, up to [n] bytes or the end,
    or -1 when [off] is behind the end or [off + n] wraps; it writes nothing
    and takes no block into the transaction. *)
Theorem readi_correct devsw s C L ip i off n :
  sb s = v -> ok (blk s) ∅ C L -> fs_ok C -> cached s C ip i -> i_type (disk_inode v C i) <> T_DEV ->
  0 <= off < 2 ^ 32 -> 0 <= n < 2 ^ 32 ->
  exists t, ok t ∅ C L /\
    readi devsw ip off n s =
      Ret (if (Z.of_nat (length (file_of C i)) <? off) || (2 ^ 32 <=? off + n) then (-1, [])
           else let m := Z.min n (Z.of_nat (length (file_of C i)) - off) in
                (m, slice (Z.to_nat off) (Z.to_nat m) (file_of C i))) (set_blk t s).
Proof.
  intros Hsb Hs O Hc Hty Ho Hn. destruct (_ || _) eqn:E.
  - exists (blk s). split; [done|]. destruct Hc as (Hat & _ & Hi). pose proof (f_size _ _ _ _ (o_file _ O i Hi)) as Hz.
    unfold file_of in E. rewrite length_file, Z2Nat.id in E by lia.
    unfold readi. unfold bind at 1, getip, reads. pose proof Hat as (_ & _ & ->). cbv zeta. rewrite (proj2 (Z.eqb_neq _ _)) by done.
    replace ((i_size (disk_inode v C i) <? off) || (u32 (off + n) <? off)) with true; [by destruct s|].
    symmetry. apply orb_true_iff in E as [->|E]; [done|]. apply orb_true_iff. right. btests. apply Z.ltb_lt. unfold u32.
    replace ((off + n) mod 2 ^ 32) with (off + n - 2 ^ 32) by (apply (Z.mod_unique_pos _ _ 1); lia). lia.
  - apply orb_false_iff in E as [E1 E2]. btests.
    destruct (readi_law devsw s C L ip i off n) as (t & E & H); try done; try lia. by exists t.
Qed.

(** C10: [writei] writes the bytes of the file and nothing else.  When the
    transaction and the disk have room, the file of the inode has [src] at
    [off] and is otherwise as it was, all other files are unchanged, the file
    system is consistent, and the inode in the cache is the inode on disk;
    beyond the end of the file or the largest size it returns -1 and changes
    nothing. *)
Theorem writei_correct devsw s C L ip i off src :
  let n := Z.of_nat (length src) in
  sb s = v -> ok (blk s) ∅ C L -> fs_ok C -> cached s C ip i -> i_type (disk_inode v C i) <> T_DEV ->
  0 <= off < 2 ^ 32 -> n < 2 ^ 32 ->
  has_free v C (2 * turns off n) -> (size L + 6 * turns off n + 1 <= capacity)%nat ->
  if (Z.of_nat (length (file_of C i)) <? off) || (MAXFILE * BSZ <? off + n) then writei devsw ip src off n s = Ret (-1) s
  else exists s' C' L', writei devsw ip src off n s = Ret n s' /\ sb s' = v /\ ok (blk s') ∅ C' L' /\ fs_ok C' /\ cached s' C' ip i /\
    file_of C' i = overwrite off src (file_of C i) /\
    meta (disk_inode v C' i) = meta (disk_inode v C i) /\
    (forall j, live C j -> j <> i -> live C' j /\ file_of C' j = file_of C j) /\
    (size L' <= size L + 6 * turns off n + 1)%nat.
Proof.
  intros n Hsb Hs O Hc Hty Ho Hn Hf Hcap. destruct (_ || _) eqn:E.
  - destruct Hc as (Hat & Hin & Hi). pose proof (f_size _ _ _ _ (o_file _ O i Hi)) as Hz.
    apply (writei_error devsw s C ip i off src n); try done; [lia | unfold n; lia |].
    apply orb_true_iff in E as [E|E]; btests; [by left | by right].
  - apply orb_false_iff in E as [E1 E2]. btests.
    destruct (writei_law devsw s C L ip i off src 0) as (t & C' & L' & E & H & Tc & Ef & Em & _ & HL); try done.
    { lia. } { fold n. by rewrite Nat.add_0_r. }
    exists (with_node ip (disk_inode v C' i) t s), C', L'. split; [done|]. split; [done|]. split; [done|].
    split; [by apply (touches_ok C C' i)|]. destruct Hc as (Hat & Hin & Hi). split.
    { split; [by apply (with_node_at _ (disk_inode v C i))|]. split; [|apply Tc]. rewrite with_node_inum; [done | apply Hat]. }
    split; [done|]. split; [done|]. split; [|done]. intros j Hj Hne. by apply (touches_file C C' i).
Qed.
End rw.
