(* ===== verification/FsDir.v ===== *)
(** * Directories (dirlookup and dirlink of fs.c)

    The contents of a directory are entries of 16 bytes; those with an inode
    number other than 0 stand for a map from names to inode numbers.  On this
    map [dirlookup] is the lookup and [dirlink] adds a name. *)

From S2P Require Import Prelude Cstring Sleeplock Bio Log Blocks Fs FsAlloc FsFile FsInode FsRw.

(** The name that [DIRSIZ] bytes hold. *)
Definition fname (bs : list Z) : list Z := take DIRSIZ (cstr bs).

Definition dents (bs : list Z) : list (list Z) := (fun k => slice (16 * k) 16 bs) <$> seq 0 (length bs / 16).
Definition empty_dent (de : list Z) : bool := de_inum de =? 0.
Definition named (nm : list Z) (de : list Z) : bool := negb (empty_dent de) && bool_decide (fname (de_name de) = nm).
(** The index of the entry of a name, and the inode number in it. *)
Definition dir_find (nm bs : list Z) : option nat := find_index (named nm) (dents bs).
Definition get_in (nm : list Z) (ds : list (list Z)) : option Z := k ← find_index (named nm) ds; de_inum <$> ds !! k.
Definition dir_get (nm bs : list Z) : option Z := get_in nm (dents bs).

(** ** Entries *)

Lemma length_dents bs : length (dents bs) = (length bs / 16)%nat.
Proof. unfold dents. by rewrite length_fmap, length_seq. Qed.

Lemma dents_at bs k : (k < length bs / 16)%nat -> dents bs !! k = Some (slice (16 * k) 16 bs).
Proof. intros Hk. unfold dents. by rewrite list_lookup_fmap, lookup_seq_lt by done. Qed.

Lemma dent_fits (bs : list Z) k : (k < length bs / 16)%nat -> (16 * k + 16 <= length bs)%nat.
Proof. intros Hk. pose proof (Nat.div_mod_eq (length bs) 16). lia. Qed.

Lemma length_dent (bs : list Z) k : (k < length bs / 16)%nat -> length (slice (16 * k) 16 bs) = 16%nat.
Proof. intros Hk. apply length_slice. by apply dent_fits. Qed.

Section splice.
Context (bs e : list Z) (k : nat) (He : length e = 16%nat) (Hm : length bs = (16 * (length bs / 16))%nat).

Lemma dents_splice_in : (k < length bs / 16)%nat -> dents (splice (16 * k) e bs) = <[k := e]> (dents bs).
Proof.
  intros Hk. pose proof (dent_fits bs k Hk) as Hf. assert (length (splice (16 * k) e bs) = length bs) as Hl by (apply length_splice; lia).
  apply list_eq. intros j. destruct (decide (j < length bs / 16)%nat) as [Hj|Hj].
  - rewrite dents_at by by rewrite Hl. destruct (decide (j = k)) as [->|Hne].
    + rewrite list_lookup_insert_eq by (rewrite length_dents; done). f_equal.
      pose proof (slice_splice_eq (16 * k) e bs ltac:(lia)) as E. by rewrite He in E.
    + rewrite list_lookup_insert_ne, dents_at by done. f_equal. pose proof (dent_fits bs j Hj). apply slice_splice_ne; lia.
  - rewrite !lookup_ge_None_2; [done | rewrite length_insert, length_dents; lia | rewrite length_dents, Hl; lia].
Qed.

Lemma dents_splice_end : k = (length bs / 16)%nat -> dents (splice (16 * k) e bs) = dents bs ++ [e].
Proof.
  intros ->. assert (splice (16 * (length bs / 16)) e bs = bs ++ e) as ->.
  { unfold splice. rewrite take_ge, drop_ge by lia. by rewrite app_nil_r. }
  assert (length (bs ++ e) / 16 = S (length bs / 16))%nat as El.
  { rewrite length_app, He. replace (length bs + 16)%nat with (S (length bs / 16) * 16)%nat by lia. by rewrite Nat.div_mul. }
  unfold dents. rewrite El, seq_S, fmap_app. f_equal.
  - apply list_fmap_ext. intros _ j Hj%list_elem_of_lookup_2%elem_of_seq. pose proof (dent_fits bs j ltac:(lia)) as Hf.
    unfold slice. rewrite drop_app_le by lia. rewrite take_app_le; [done|]. rewrite length_drop. lia.
  - unfold fmap. cbn [list_fmap]. f_equal. unfold slice. rewrite Nat.add_0_l, <- Hm, drop_app_length. apply take_ge. lia.
Qed.
End splice.

(** ** A new entry *)

Section insert.
Context (ds : list (list Z)) (e : list Z) (k : nat) (nm : list Z).
Context (He : named nm e = true).
Context (Habsent : find_index (named nm) ds = None).

Let ds' := if decide (k < length ds)%nat then <[k := e]> ds else ds ++ [e].
Context (Hk : match ds !! k with Some d => empty_dent d = true | None => k = length ds end).

Lemma insert_at_k : ds' !! k = Some e.
Proof.
  unfold ds'. case_decide as Hl; [by apply list_lookup_insert_eq|]. rewrite lookup_ge_None_2 in Hk by lia. subst k.
  by rewrite list_lookup_middle.
Qed.

Lemma insert_at_ne j : j <> k -> ds' !! j = ds !! j.
Proof.
  intros Hj. unfold ds'. case_decide as Hl; [by apply list_lookup_insert_ne|]. rewrite lookup_ge_None_2 in Hk by lia.
  destruct (decide (j < length ds)%nat); [by rewrite lookup_app_l|]. rewrite !lookup_ge_None_2; [done | lia | rewrite length_app; cbn; lia].
Qed.

Lemma find_inserted : find_index (named nm) ds' = Some k.
Proof.
  apply (find_index_first _ _ k e insert_at_k He). intros j y Hj Hy. rewrite insert_at_ne in Hy by lia.
  exact (Forall_lookup_1 _ _ _ _ (proj1 (find_index_None _ _) Habsent) Hy).
Qed.

Lemma named_other nm' d : nm' <> nm -> named nm d = true -> named nm' d = false.
Proof.
  unfold named. intros Hne [_ H]%andb_true_iff. apply bool_decide_eq_true in H. rewrite H.
  rewrite bool_decide_eq_false_2 by congruence. apply andb_false_r.
Qed.

Lemma find_other nm' : nm' <> nm -> find_index (named nm') ds' = find_index (named nm') ds.
Proof.
  intros Hne. pose proof (named_other nm' e Hne He) as Hen.
  assert (forall y, ds !! k = Some y -> named nm' y = false) as Hold.
  { intros y Hy. rewrite Hy in Hk. unfold named. by rewrite Hk. }
  destruct (find_index (named nm') ds) as [i|] eqn:Ei.
  - apply find_index_Some in Ei as (x & Hx & Hb & Hbefore).
    assert (i <> k) as Hik by (intros ->; rewrite (Hold x Hx) in Hb; done).
    apply (find_index_first _ _ i x); [by rewrite insert_at_ne | done |]. intros j y Hj Hy. destruct (decide (j = k)) as [->|Hjk].
    + rewrite insert_at_k in Hy. by injection Hy as <-.
    + rewrite insert_at_ne in Hy by done. by apply (Hbefore j).
  - apply find_index_None, Forall_lookup_2. intros j y Hy. destruct (decide (j = k)) as [->|Hjk].
    + rewrite insert_at_k in Hy. by injection Hy as <-.
    + rewrite insert_at_ne in Hy by done. exact (Forall_lookup_1 _ _ _ _ (proj1 (find_index_None _ _) Ei) Hy).
Qed.
End insert.

Lemma get_inserted ds e k nm nm' :
  named nm e = true -> find_index (named nm) ds = None ->
  match ds !! k with Some d => empty_dent d = true | None => k = length ds end ->
  get_in nm' (if decide (k < length ds)%nat then <[k := e]> ds else ds ++ [e]) = if decide (nm' = nm) then Some (de_inum e) else get_in nm' ds.
Proof.
  intros He Ha Hk. unfold get_in. destruct (decide (nm' = nm)) as [->|En].
  - rewrite (find_inserted ds e k nm He Ha Hk). cbn. by rewrite (insert_at_k ds e k Hk).
  - rewrite (find_other ds e k nm He Hk nm' En). destruct (find_index (named nm') ds) as [i|] eqn:Ei; [|done]. cbn.
    rewrite insert_at_ne; [done | done |]. intros ->. apply find_index_Some in Ei as (x & Hx & Hb & _). rewrite Hx in Hk.
    unfold named in Hb. by rewrite Hk in Hb.
Qed.

(** ** The bytes of an entry *)

(** The entry that [dirlink] writes. *)
Definition dent (inum : Z) (name : list Z) : list Z := le_enc 2 inum ++ take DIRSIZ (cstr name ++ replicate DIRSIZ 0).

Lemma length_dent_name name : length (take DIRSIZ (cstr name ++ replicate DIRSIZ 0)) = DIRSIZ.
Proof. rewrite length_take, length_app, length_replicate. lia. Qed.

Lemma length_new_dent inum name : length (dent inum name) = 16%nat.
Proof. unfold dent. by rewrite length_app, length_le_enc, length_dent_name. Qed.

Lemma cstr_all s : Forall (fun c => c <> 0) s -> cstr s = s.
Proof. induction 1 as [|c s Hc Hs IH]; [done|]. cbn. rewrite (proj2 (Z.eqb_neq _ _) Hc). by f_equal. Qed.

Lemma fname_padded name : fname (take DIRSIZ (cstr name ++ replicate DIRSIZ 0)) = fname name.
Proof.
  unfold fname. pose proof (cstr_nonzero name) as Hnz. destruct (decide (DIRSIZ <= length (cstr name))%nat) as [Hl|Hl].
  - rewrite take_app_le by done. rewrite cstr_all by by apply Forall_take. by rewrite take_take, Nat.min_id.
  - rewrite take_app_ge by lia. rewrite take_replicate.
    replace (DIRSIZ - length (cstr name))%nat with (S (DIRSIZ - length (cstr name) - 1)) by lia.
    replace (S (DIRSIZ - length (cstr name) - 1) `min` DIRSIZ)%nat with (S (DIRSIZ - length (cstr name) - 1)) by lia.
    rewrite replicate_S. by rewrite cstr_app_zero.
Qed.

Lemma dent_inum inum name : 0 <= inum < 2 ^ 16 -> de_inum (dent inum name) = inum.
Proof.
  intros Hi. unfold de_inum, dent, get16, slice. rewrite drop_0, take_app_length' by by rewrite length_le_enc.
  rewrite le_dec_enc. by apply Z.mod_small.
Qed.

Lemma dent_named inum name : 0 < inum < 2 ^ 16 -> named (fname name) (dent inum name) = true.
Proof.
  intros Hi. unfold named, empty_dent. rewrite dent_inum, (proj2 (Z.eqb_neq _ _)) by lia. apply bool_decide_eq_true.
  rewrite <- (fname_padded name). f_equal. unfold de_name, dent, slice.
  rewrite drop_app_length' by by rewrite length_le_enc. apply take_ge. by rewrite length_dent_name.
Qed.

Lemma dent_bytes inum name : Forall byte name -> Forall byte (dent inum name).
Proof.
  intros Hb. apply Forall_app. split; [apply le_enc_byte|]. apply Forall_take, Forall_app.
  split; [by apply cstr_bytes | apply Forall_replicate; unfold byte; lia].
Qed.

Lemma turns_dent k : turns (16 * Z.of_nat k) 16 = 1%nat.
Proof.
  unfold turns, BSZ. set (r := (16 * Z.of_nat k) mod 512).
  assert (0 <= r <= 496) as Hr.
  { unfold r. change 512 with (16 * 32). rewrite Zmult_mod_distr_l. pose proof (Z.mod_pos_bound (Z.of_nat k) 32 ltac:(lia)). lia. }
  replace ((r + 16 + (512 - 1)) / 512) with 1; [done|]. apply (Z.div_unique_pos _ _ _ (r + 15)); lia.
Qed.

(** ** The operations *)

Section dir.
Context {T : Type} {IO : BlockIO T} {BL : BlockLaws T}.
Context (v : superblock) (ds : Z) (Lay : layout v ds).
Context (ilock_addr : nat -> Z) (devsw : Z -> device (T := T)).
Implicit Types (C : contents_map) (s : fss T).

(** Inode [i] is a directory of whole entries. *)
Record directory C (i : Z) : Prop := {
  dr_type : i_type (disk_inode v C i) = T_DIR;
  dr_whole : length (file_of v C i) = (16 * (length (file_of v C i) / 16))%nat;
  dr_bytes : Forall byte (file_of v C i);
}.

Lemma cached_blk s C ip i t : cached v s C ip i -> cached v (set_blk t s) C ip i.
Proof. exact id. Qed.

Lemma byte_slice off n (bs : list Z) : Forall byte bs -> Forall byte (slice off n bs).
Proof. intros H. unfold slice. by apply Forall_take, Forall_drop. Qed.

Section in_dir.
Context C (L : gset Z) (dp : nat) (i : Z) (O : fs_ok v ds C) (Hd : directory C i) (Hi : live v C i).
Let f := file_of v C i.
Let n := (length f / 16)%nat.

Lemma dir_size : i_size (disk_inode v C i) = 16 * Z.of_nat n /\ 16 * Z.of_nat n <= MAXFILE * BSZ /\ Z.of_nat (length f) = 16 * Z.of_nat n.
Proof.
  pose proof (dr_whole _ _ Hd) as Hw. pose proof (f_size _ _ _ _ (o_file _ _ _ O i Hi)) as Hz.
  assert (length f = Z.to_nat (i_size (disk_inode v C i))) as Hl by apply length_file.
  change (length f = (16 * n)%nat) in Hw. lia.
Qed.

Lemma readi_dent s k :
  sb s = v -> ok (blk s) ∅ C L -> cached v s C dp i -> (k < n)%nat ->
  exists t, readi devsw dp (16 * Z.of_nat k) dirent_size s = Ret (dirent_size, slice (16 * k) 16 f) (set_blk t s) /\ ok t ∅ C L.
Proof.
  intros Hsb Hs Hc Hk. destruct dir_size as (Hsz & Hmx & Hlen). assert (MAXFILE * BSZ < 2 ^ 31) as H31 by done.
  destruct (readi_law v ds Lay devsw s C L dp i (16 * Z.of_nat k) dirent_size) as (t & E & H); try done.
  { by rewrite (dr_type _ _ Hd). } { fold f. lia. } { unfold dirent_size. lia. }
  exists t. split; [|done]. rewrite E. unfold read_count. fold f. rewrite Z.min_l by (unfold dirent_size; lia).
  unfold dirent_size. by replace (Z.to_nat (16 * Z.of_nat k)) with (16 * k)%nat by lia.
Qed.

Lemma named_cmp name k :
  Forall byte name -> readable name DIRSIZ -> (k < n)%nat ->
  exists r, namecmp name (de_name (slice (16 * k) 16 f)) = Some r /\
    (r = 0 <-> fname name = fname (de_name (slice (16 * k) 16 f))).
Proof.
  intros Hb Hr Hk. apply strncmp_correct; [done | apply byte_slice, byte_slice, Hd | done |].
  right. unfold de_name. rewrite length_slice; [done|]. rewrite length_dent by done. done.
Qed.

(** What [dirlookup] does with the entry it finds. *)
Definition found (k : nat) : M (fss T) (option (nat * Z)) :=
  let! ip := iget 1 (de_inum (slice (16 * k) 16 f)) in
  ret (Some (ip, 16 * Z.of_nat k)).

Lemma dirlookup_loop_law name : Forall byte name -> readable name DIRSIZ -> forall fuel k s,
  sb s = v -> ok (blk s) ∅ C L -> cached v s C dp i -> (k <= n)%nat -> (n - k <= fuel)%nat ->
  exists t, ok t ∅ C L /\ dirlookup_loop devsw fuel dp name (16 * Z.of_nat k) s =
    match find_index (named (fname name)) (drop k (dents f)) with
    | Some j => found (k + j) (set_blk t s)
    | None => Ret None (set_blk t s)
    end.
Proof.
  intros Hb Hr. assert (MAXFILE * BSZ < 2 ^ 31) as H31 by done. destruct dir_size as (Hsz & Hmx & Hlen).
  induction fuel as [|fuel IH]; intros k s Hsb Hs Hc Hk Hfuel; cbn [dirlookup_loop];
    unfold bind at 1, getip at 1, reads; pose proof Hc as ((_ & Hdev & ->) & _); rewrite Hsz, ?Hdev;
    destruct (16 * Z.of_nat k <? 16 * Z.of_nat n) eqn:E; btests.
  1: lia.
  1, 3: exists (blk s); split; [done|]; rewrite drop_ge by (rewrite length_dents; unfold n in *; lia); by destruct s.
  assert (k < n)%nat as Hkn by lia. destruct (readi_dent s k Hsb Hs Hc Hkn) as (t & E1 & H1).
  rewrite (bind_ret _ _ _ _ _ E1). cbn [fst snd]. rewrite Z.eqb_refl. cbn [negb].
  rewrite (drop_S _ _ _ (dents_at f k Hkn)). cbn [find_index]. set (de := slice (16 * k) 16 f) in *.
  destruct (IH (S k) (set_blk t s) Hsb H1 Hc ltac:(lia) ltac:(lia)) as (t2 & H2 & E2).
  replace (16 * Z.of_nat (S k)) with (16 * Z.of_nat k + dirent_size) in E2 by (unfold dirent_size; lia).
  rewrite <- (u32_small (16 * Z.of_nat k + dirent_size)) in E2 by (unfold dirent_size; lia).
  assert (forall x, dirlookup_loop devsw fuel dp name (u32 (16 * Z.of_nat k + dirent_size)) (set_blk t s) =
    match S <$> find_index (named (fname name)) (drop (S k) (dents f)) with
    | Some j => found (k + j) (set_blk t2 s) | None => Ret x (set_blk t2 s) end \/ x <> None) as Hrest.
  { intros [x|]; [by right|]. left. rewrite E2. destruct (find_index _ _) as [j|]; cbn [fmap option_fmap option_map]; [|done].
    by replace (k + S j)%nat with (S k + j)%nat by lia. }
  destruct (Hrest None) as [Hrest'|?]; [|done]. clear Hrest. unfold named at 1, empty_dent.
  destruct (de_inum de =? 0) eqn:E0; cbn [negb andb]; [by exists t2|].
  destruct (named_cmp name k Hb Hr Hkn) as (r & Ec & Hr0). fold de in Ec, Hr0. rewrite Ec.
  destruct (r =? 0) eqn:Er; btests.
  - rewrite bool_decide_eq_true_2 by (symmetry; by apply Hr0). exists t. split; [done|]. rewrite Nat.add_0_r. done.
  - rewrite bool_decide_eq_false_2 by (intros H; by apply Er, Hr0). by exists t2.
Qed.

Lemma dirlookup_law name s :
  Forall byte name -> readable name DIRSIZ -> sb s = v -> ok (blk s) ∅ C L -> cached v s C dp i ->
  exists t, ok t ∅ C L /\ dirlookup devsw dp name s =
    match dir_find (fname name) f with Some k => found k (set_blk t s) | None => Ret None (set_blk t s) end.
Proof.
  intros Hb Hr Hsb Hs Hc. unfold dirlookup. unfold bind at 1, getip at 1, reads. pose proof Hc as ((_ & _ & ->) & _).
  rewrite (dr_type _ _ Hd). cbn [negb Z.eqb Pos.eqb T_DIR]. destruct dir_size as (Hsz & _). rewrite Hsz. unfold dirent_size at 1.
  rewrite (Z.mul_comm 16), Z.div_mul by done.
  destruct (dirlookup_loop_law name Hb Hr (Z.to_nat (Z.of_nat n + 1)) 0 s) as (t & H & E); try done; [lia | lia |].
  exists t. split; [done|]. exact E.
Qed.

(** The index of the first empty entry, or the number of entries. *)
Definition free_index : nat := default n (find_index empty_dent (dents f)).

Lemma dirlink_loop_law : forall fuel k s,
  sb s = v -> ok (blk s) ∅ C L -> cached v s C dp i -> (k <= n)%nat -> (n - k <= fuel)%nat ->
  exists t, ok t ∅ C L /\ dirlink_loop devsw fuel dp (16 * Z.of_nat k) s =
    Ret (16 * Z.of_nat (k + default (n - k)%nat (find_index empty_dent (drop k (dents f))))) (set_blk t s).
Proof.
  destruct dir_size as (Hsz & Hmx & Hlen).
  induction fuel as [|fuel IH]; intros k s Hsb Hs Hc Hk Hfuel; cbn [dirlink_loop];
    unfold bind at 1, getip at 1, reads; pose proof Hc as ((_ & _ & ->) & _); rewrite Hsz;
    destruct (16 * Z.of_nat k <? 16 * Z.of_nat n) eqn:E; btests.
  1: lia.
  1, 3: exists (blk s); split; [done|]; rewrite drop_ge by (rewrite length_dents; unfold n in *; lia); cbn [find_index default from_option id];
    unfold ret; f_equal; [lia | by destruct s].
  assert (k < n)%nat as Hkn by lia. destruct (readi_dent s k Hsb Hs Hc Hkn) as (t & E1 & H1).
  rewrite (bind_ret _ _ _ _ _ E1). cbn [fst snd]. rewrite Z.eqb_refl. cbn [negb].
  rewrite (drop_S _ _ _ (dents_at f k Hkn)). cbn [find_index]. set (de := slice (16 * k) 16 f) in *. unfold empty_dent at 1.
  destruct (de_inum de =? 0); [exists t; split; [done|]; cbn; unfold ret; f_equal; lia|].
  destruct (IH (S k) (set_blk t s) Hsb H1 Hc ltac:(lia) ltac:(lia)) as (t2 & H2 & E2). exists t2. split; [done|].
  replace (16 * Z.of_nat k + dirent_size) with (16 * Z.of_nat (S k)) by (unfold dirent_size; lia).
  rewrite E2. destruct (find_index _ _) as [j|]; cbn [fmap option_fmap option_map default from_option id]; f_equal; lia.
Qed.

Lemma free_index_at : match dents f !! free_index with Some d => empty_dent d = true | None => free_index = length (dents f) end.
Proof.
  unfold free_index. destruct (find_index empty_dent (dents f)) as [j|] eqn:E; cbn [default from_option id].
  - apply find_index_Some in E as (x & -> & Hx & _). done.
  - by rewrite lookup_ge_None_2, length_dents by by rewrite length_dents.
Qed.

Lemma free_index_le : (free_index <= n)%nat.
Proof.
  unfold free_index. destruct (find_index empty_dent (dents f)) as [j|] eqn:E; cbn [default from_option id]; [|done].
  apply find_index_lt in E. rewrite length_dents in E. by apply Nat.lt_le_incl.
Qed.

(** The contents with the entry written: a name is added to the map. *)
Lemma dir_get_new inum name nm :
  0 < inum < 2 ^ 16 -> dir_find (fname name) f = None ->
  dir_get nm (overwrite (16 * Z.of_nat free_index) (dent inum name) f) = if decide (nm = fname name) then Some inum else dir_get nm f.
Proof.
  intros Hin Ha. unfold dir_get, overwrite. replace (Z.to_nat (16 * Z.of_nat free_index)) with (16 * free_index)%nat by lia.
  pose proof (dr_whole _ _ Hd) as Hw. pose proof (length_new_dent inum name) as Hl. pose proof free_index_le as Hle.
  pose proof (get_inserted (dents f) (dent inum name) free_index (fname name) nm (dent_named inum name Hin) Ha free_index_at) as G.
  rewrite dent_inum in G by lia. rewrite <- G. clear G. f_equal.
  destruct (decide (free_index < length (dents f))%nat) as [Hk|Hk]; rewrite length_dents in Hk; [by apply dents_splice_in|].
  apply dents_splice_end; [done | done |]. unfold n in Hle. lia.
Qed.

Lemma dirlink_law name inum s extra :
  Forall byte name -> readable name DIRSIZ -> 0 < inum < 2 ^ 16 -> dir_find (fname name) f = None ->
  sb s = v -> ok (blk s) ∅ C L -> cached v s C dp i -> Z.of_nat (length f) < MAXFILE * BSZ ->
  has_free v C (2 + extra) -> (size L + 7 <= capacity)%nat ->
  exists t C' L', dirlink ilock_addr devsw dp name inum s = Ret 0 (with_node dp (disk_inode v C' i) t s) /\
    ok t ∅ C' L' /\ touches v ds C C' i /\
    file_of v C' i = overwrite (16 * Z.of_nat free_index) (dent inum name) f /\
    meta (disk_inode v C' i) = meta (disk_inode v C i) /\ has_free v C' extra /\ (size L' <= size L + 7)%nat.
Proof.
  intros Hb Hr Hin Ha Hsb Hs Hc Hmax Hf Hcap. destruct dir_size as (Hsz & Hmx & Hlen). pose proof free_index_le as Hle.
  destruct (dirlookup_law name s Hb Hr Hsb Hs Hc) as (t1 & H1 & E1). rewrite Ha in E1.
  assert (strncpy (replicate DIRSIZ 0) name DIRSIZ = Some (take DIRSIZ (cstr name ++ replicate DIRSIZ 0))) as Ecp.
  { rewrite strncpy_correct; [| by rewrite length_replicate | done]. by rewrite drop_ge, app_nil_r by by rewrite length_replicate. }
  destruct (dirlink_loop_law (Z.to_nat (Z.of_nat n + 1)) 0 (set_blk t1 s) Hsb H1 Hc ltac:(lia) ltac:(lia)) as (t2 & H2 & E2).
  rewrite Nat.add_0_l, Nat.sub_0_r, drop_0 in E2. fold free_index in E2. change (16 * Z.of_nat 0) with 0 in E2.
  assert (MAXFILE * BSZ = 16 * 4480) as H16 by done. pose proof (length_new_dent inum name) as Hl.
  destruct (writei_law v ds Lay devsw (set_blk t2 (set_blk t1 s)) C L dp i (16 * Z.of_nat free_index) (dent inum name) extra)
    as (t & C' & L' & E3 & H3 & Tc & Ef & Em & Hf3 & HL); try done.
  { by rewrite (dr_type _ _ Hd). } { fold f. lia. } { rewrite Hl. lia. }
  { rewrite Hl. change (Z.of_nat 16) with 16. by rewrite turns_dent. } { rewrite Hl. change (Z.of_nat 16) with 16. rewrite turns_dent. lia. }
  rewrite Hl in E3, HL. change (Z.of_nat 16) with 16 in E3, HL. rewrite turns_dent in HL.
  exists t, C', L'. split; [|split_and!; try done; lia]. unfold dirlink. rewrite (bind_ret _ _ _ _ _ E1).
  unfold bind at 1, getip at 1, reads. pose proof (cached_blk _ _ _ _ t1 Hc) as ((_ & _ & ->) & _). rewrite Hsz. unfold dirent_size at 1.
  rewrite (Z.mul_comm 16), Z.div_mul by done. rewrite (bind_ret _ _ _ _ _ E2). rewrite Ecp.
  by rewrite (bind_ret _ _ _ _ _ E3).
Qed.
End in_dir.

(** ** The claims *)

(** C21: [dirlookup] is the lookup in the map of the directory.  In a
    directory of whole entries it returns null for a name that is not there,
    and otherwise the cached inode, from [iget], of the inode number that
    belongs to the name, and the offset of its entry; names agree when their
    first 14 characters do.  It writes nothing. *)
Theorem dirlookup_correct C L dp i name s :
  sb s = v -> ok (blk s) ∅ C L -> fs_ok v ds C -> cached v s C dp i -> directory C i ->
  Forall byte name -> readable name DIRSIZ ->
  let f := file_of v C i in
  exists t, ok t ∅ C L /\
    match dir_get (fname name) f with
    | None => dirlookup devsw dp name s = Ret None (set_blk t s)
    | Some inum => exists k, (16 * k + 16 <= length f)%nat /\ de_inum (slice (16 * k) 16 f) = inum /\ inum <> 0 /\
        fname (de_name (slice (16 * k) 16 f)) = fname name /\
        dirlookup devsw dp name s = (let! ip := iget 1 inum in ret (Some (ip, 16 * Z.of_nat k))) (set_blk t s)
    end.
Proof.
  intros Hsb Hs O Hc Hd Hb Hr f. pose proof Hc as (_ & _ & Hi).
  destruct (dirlookup_law C L dp i O Hd Hi name s Hb Hr Hsb Hs Hc) as (t & H & E). exists t. split; [done|].
  unfold dir_get, get_in. fold f in E. unfold dir_find in E. destruct (find_index (named (fname name)) (dents f)) as [k|] eqn:Ek; [|done].
  cbn [mbind option_bind]. apply find_index_Some in Ek as (x & Hx & Hn & _). pose proof (lookup_lt_Some _ _ _ Hx) as Hk. rewrite length_dents in Hk.
  rewrite dents_at in Hx by done. injection Hx as <-. rewrite dents_at by done. cbn [fmap option_fmap option_map].
  apply andb_true_iff in Hn as [Hn1 Hn2]. apply bool_decide_eq_true in Hn2. apply negb_true_iff, Z.eqb_neq in Hn1.
  exists k. split; [by apply dent_fits|]. done.
Qed.

(** C20: [dirlink] adds a name to the map of the directory.  For a name that
    is not there it returns 0, and afterwards the directory has the new name
    with its inode number and all other names as before, every other file is
    unchanged and the file system is consistent; for a name that is there it
    gives the inode back and returns -1. *)
Theorem dirlink_correct C L dp i name inum s :
  sb s = v -> ok (blk s) ∅ C L -> fs_ok v ds C -> cached v s C dp i -> directory C i ->
  Forall byte name -> readable name DIRSIZ -> 0 < inum < 2 ^ 16 ->
  Z.of_nat (length (file_of v C i)) < MAXFILE * BSZ -> has_free v C 2 -> (size L + 7 <= capacity)%nat ->
  match dir_get (fname name) (file_of v C i) with
  | Some old => exists t, ok t ∅ C L /\
      dirlink ilock_addr devsw dp name inum s = (let! ip := iget 1 old in iput ilock_addr ip ;; ret (-1)) (set_blk t s)
  | None => exists s' C' L', dirlink ilock_addr devsw dp name inum s = Ret 0 s' /\ sb s' = v /\ ok (blk s') ∅ C' L' /\
      fs_ok v ds C' /\ cached v s' C' dp i /\ directory C' i /\
      (forall nm, dir_get nm (file_of v C' i) = if decide (nm = fname name) then Some inum else dir_get nm (file_of v C i)) /\
      (forall j, live v C j -> j <> i -> live v C' j /\ file_of v C' j = file_of v C j)
  end.
Proof.
  intros Hsb Hs O Hc Hd Hb Hr Hin Hmax Hf Hcap. pose proof Hc as (Hat & Hinum & Hi). set (f := file_of v C i) in *.
  unfold dir_get at 1, get_in. destruct (find_index (named (fname name)) (dents f)) as [k|] eqn:Ek.
  - cbn [mbind option_bind]. destruct (dirlookup_law C L dp i O Hd Hi name s Hb Hr Hsb Hs Hc) as (t & H & E). fold f in E. unfold dir_find in E.
    rewrite Ek in E. pose proof (find_index_lt _ _ _ Ek) as Hk. rewrite length_dents in Hk. rewrite dents_at by done. cbn [fmap option_fmap option_map].
    exists t. split; [done|]. unfold dirlink. unfold bind at 1. rewrite E. unfold found, bind. by destruct (iget _ _ _).
  - cbn [mbind option_bind].
    destruct (dirlink_law C L dp i O Hd Hi name inum s 0) as (t & C' & L' & E & H & Tc & Ef & Em & _); try done.
    eexists _, C', L'. split; [exact E|]. split; [done|]. split; [done|]. split; [by eapply touches_ok|]. split.
    { split; [by apply (with_node_at _ (disk_inode v C i))|]. split; [|apply Tc]. rewrite with_node_inum; [done | apply Hat]. }
    assert (length (file_of v C' i) = (16 * (length (file_of v C' i) / 16))%nat /\ Forall byte (file_of v C' i)) as [Hw' Hb'].
    { rewrite Ef. unfold overwrite. pose proof (length_new_dent inum name) as Hl. pose proof (free_index_le C i) as Hle.
      pose proof (dr_whole _ _ Hd) as Hw. fold f in Hw, Hle |- *. set (k := free_index C i) in *.
      replace (Z.to_nat (16 * Z.of_nat k)) with (16 * k)%nat by lia. split.
      - unfold splice. rewrite !length_app, length_take, length_drop, Hl.
        replace (Nat.min (16 * k) (length f) + (16 + (length f - (16 * k + 16))))%nat with (Nat.max (length f / 16) (k + 1) * 16)%nat by lia.
        rewrite Nat.div_mul by done. lia.
      - unfold splice. apply Forall_app. split; [apply Forall_take, Hd|]. apply Forall_app. split; [by apply dent_bytes | apply Forall_drop, Hd]. }
    split; [split; [|done|done]|].
    { exact (eq_trans (f_equal (fun m => fst (fst (fst m))) Em) (dr_type _ _ Hd)). }
    split; [|intros j Hj Hne; by eapply touches_file]. intros nm. rewrite Ef. by apply dir_get_new.
Qed.
End dir.
