(* ===== verification/FsDemo.v ===== *)
(** * A small file system

    A disk of 40 blocks with the log in blocks 2 to 31, eight inodes in block
    32, the bitmap in block 33, and from block 34 on the data of the root
    directory and of one file; the witnesses of the theorems on the file
    system run on it, over the buffer cache and the log. *)

From S2P Require Import Prelude Cstring Sleeplock Bio BioInv Log LogInv Crash LogOps Blocks Fs FsAlloc FsFile FsInode FsRw FsDir.

#[local] Existing Instance demo_driver.

Definition fs_lock (i : nat) : Z := Z.of_nat i.

Definition fs_sb : superblock := mk_superblock 40 6 8 30 2 32 33.
Definition fs_super : list Z :=
  let d := set32 (set32 (set32 (replicate BSIZE 0) 0 40) 4 6) 8 8 in
  set32 (set32 (set32 (set32 d 12 30) 16 2) 20 32) 24 33.
Definition root_node : dinode := mk_dinode T_DIR 0 0 1 32 (34 :: replicate 12 0).
Definition file_node : dinode := mk_dinode T_FILE 0 0 1 5 (35 :: replicate 12 0).
Definition fs_inodes : list Z := put_dinode file_node 128 (put_dinode root_node 64 (replicate BSIZE 0)).
Definition fs_bitmap : list Z := replicate 4 255 ++ 15 :: replicate 507 0.
Definition entry (inum : Z) (name : string) : list Z := le_enc 2 inum ++ str name ++ replicate (DIRSIZ - String.length name) 0.
Definition fs_root : list Z := entry 1 "." ++ entry 2 "README" ++ replicate 480 0.
Definition fs_text : list Z := str "hello" ++ replicate 507 0.

Definition fs_disk : blocks :=
  [replicate BSIZE 0; fs_super] ++ replicate 30 (replicate BSIZE 0) ++ [fs_inodes; fs_bitmap; fs_root; fs_text] ++ replicate 4 (replicate BSIZE 0).
Definition fs_contents : contents_map := fun b => fs_disk !!! Z.to_nat b.

Lemma fs_disk_len b : 0 <= b < 40 -> length (fs_disk !!! Z.to_nat b) = BSIZE.
Proof.
  intros Hb. assert (Forall (fun d => length d = BSIZE) fs_disk) as HF.
  { apply Forall_forall. intros d Hd. apply (bool_decide_unpack _).
    assert (forallb (fun d => bool_decide (length d = BSIZE)) fs_disk = true) as H by by vm_compute.
    rewrite forallb_forall in H. specialize (H d). rewrite <- list_elem_of_In in H. by rewrite (H Hd). }
  apply (Forall_lookup_total_1 _ _ _ HF). change (length fs_disk) with 40%nat. lia.
Qed.

Lemma small_range (n : nat) x : 0 <= x < Z.of_nat n -> x ∈ (Z.of_nat <$> seq 0 n).
Proof. intros Hx. apply list_elem_of_fmap. exists (Z.to_nat x). rewrite elem_of_seq. lia. Qed.

(** A fact about every number below a bound, checked for each. *)
Lemma below_check (n : nat) (f : Z -> bool) : forallb f (Z.of_nat <$> seq 0 n) = true -> forall x, 0 <= x < Z.of_nat n -> f x = true.
Proof. intros H x Hx%small_range. rewrite forallb_forall in H. apply H. by apply list_elem_of_In. Qed.

Lemma fs_blocks b : 0 <= b < 40 -> BBLOCK b fs_sb = 33.
Proof. intros Hb. apply Z.eqb_eq. apply (below_check 40 (fun b => BBLOCK b fs_sb =? 33)); [by vm_compute | lia]. Qed.
Lemma fs_iblocks i : 0 <= i < 8 -> IBLOCK i fs_sb = 32.
Proof. intros Hi. apply Z.eqb_eq. apply (below_check 8 (fun i => IBLOCK i fs_sb =? 32)); [by vm_compute | lia]. Qed.

Lemma fs_home b : b = 32 \/ b = 33 \/ 34 <= b < 40 -> home 2 30 b.
Proof. intros Hb. unfold home, in_log. change nblocks with 40. lia. Qed.

Lemma fs_inode i : 0 <= i < 8 -> disk_inode fs_sb fs_contents i = if i =? 1 then root_node else if i =? 2 then file_node else zero_dinode.
Proof.
  intros Hi. set (nd := fun i : Z => if i =? 1 then root_node else if i =? 2 then file_node else zero_dinode).
  pose proof (below_check 8 (fun i => bool_decide (disk_inode fs_sb fs_contents i = nd i)) ltac:(by vm_compute) i Hi) as H.
  by apply bool_decide_eq_true in H.
Qed.

Lemma live_fs i : live fs_sb fs_contents i -> i = 1 \/ i = 2.
Proof.
  intros [Hi Ht]. change (sb_ninodes fs_sb) with 8 in Hi. rewrite fs_inode in Ht by done.
  destruct (i =? 1) eqn:E1; btests; [by left|]. destruct (i =? 2) eqn:E2; btests; [by right|done].
Qed.

Lemma fs_used b : 0 <= b < 40 -> used fs_sb fs_contents b = (b <? 36).
Proof.
  intros Hb. apply eqb_true_iff. apply (below_check 40 (fun b => Bool.eqb (used fs_sb fs_contents b) (b <? 36))); [by vm_compute | lia].
Qed.

(** A file of one block. *)
Section one_block.
Context (nd : dinode) (a : Z) (Ha : i_addrs nd = a :: replicate 12 0).

Lemma one_slot C k : 0 <= k < NSLOT -> slot C nd k = if k =? 0 then a else 0.
Proof.
  intros Hk. unfold slot, indirect, aref. rewrite Ha. destruct (k <=? NDIRECT) eqn:E; btests.
  - destruct (k =? 0) eqn:E0; btests; [by subst|]. replace (Z.to_nat k) with (S (Z.to_nat (k - 1))) by lia.
    change ((a :: replicate 12 0) !! S (Z.to_nat (k - 1))) with (replicate 12 0 !! Z.to_nat (k - 1)). by rewrite lookup_replicate_2 by (unfold NDIRECT in *; lia).
  - unfold NDIRECT in *. by rewrite (proj2 (Z.eqb_neq k 0)) by lia.
Qed.

Lemma one_ok v ds C : 0 < i_size nd <= BSZ -> ds <= a < sb_size v -> a <> 0 -> used v C a = true -> file_ok v ds C nd.
Proof.
  intros Hs Hr H0 Hu. split.
  - by rewrite Ha.
  - unfold MAXFILE, NDIRECT, NINDIRECT, BSZ in *. lia.
  - intros k Hk. rewrite one_slot by done. by destruct (k =? 0).
  - intros i j Hi Hj. rewrite !one_slot by done. destruct (i =? 0) eqn:E1, (j =? 0) eqn:E2; btests; try done; lia.
  - intros bn Hb Hlt. assert (bn = 0) as -> by (unfold BSZ in *; lia). unfold fblock. by rewrite one_slot.
Qed.
End one_block.

Lemma fs_demo_ok : fs_ok fs_sb 34 fs_contents.
Proof.
  split.
  - intros b Hb. rewrite fs_used by lia. apply Z.ltb_lt. lia.
  - intros i [->| ->]%live_fs; rewrite fs_inode by lia; cbn [Z.eqb Pos.eqb].
    + by apply (one_ok root_node 34).
    + by apply (one_ok file_node 35).
  - intros i j Hi%live_fs Hj%live_fs Hij. rewrite !fs_inode by lia. intros k l Hk Hl.
    destruct Hi as [->| ->], Hj as [->| ->]; try done; cbn [Z.eqb Pos.eqb];
      rewrite (one_slot root_node 34), (one_slot file_node 35) by done; destruct (k =? 0), (l =? 0); done.
Qed.

(** ** Inside a transaction *)

Definition fs_log (out : Z) : log := mk_log false 2 30 out false 1 0 (replicate 30 0).
Definition fs_cache : bst := binit (zero_bst fs_disk 1).
Definition fs_node (nd : dinode) (i : Z) : inode := mk_inode 1 i 1 initsleeplock 1 nd.
(** The kernel with [out] operations open and both inodes in the cache. *)
Definition fs_state (out : Z) : fss lst :=
  mk_fss (mk_lst (fs_log out) fs_cache) fs_sb false (fs_node root_node 1 :: fs_node file_node 2 :: replicate 48 zero_inode) 1 0.

Lemma nlog_ok : 1 <= 30 <= LOGSIZE.
Proof. done. Qed.
Lemma one_op : 1 <= 1.
Proof. done. Qed.

#[local] Instance fs_io : BlockIO lst := log_io fs_lock.
#[local] Instance fs_laws : BlockLaws lst := log_laws fs_lock 2 30 nlog_ok 1 fs_disk [] one_op.

Lemma fs_layout : layout fs_sb 34.
Proof.
  split.
  - done.
  - done.
  - done.
  - intros b Hb. rewrite fs_blocks by done. split; [apply fs_home; lia | done].
  - intros i Hi. rewrite fs_iblocks by done. split; [apply fs_home; lia | done].
  - intros b i Hb Hi. by rewrite fs_blocks, fs_iblocks.
  - intros b Hb. apply fs_home. change (sb_size fs_sb) with 40 in Hb. lia.
Qed.

Lemma fs_cache_ok : cache fs_cache ∅ ∅ /\ disk fs_cache = fs_disk /\ trace fs_cache = [].
Proof.
  destruct (binit_keeps fs_disk 1) as (Hd & Ht & _). split; [|by split].
  apply binit_cache; change nblocks with 40; [done | apply fs_disk_len].
Qed.

Lemma fs_trans : ok (blk (fs_state 1)) ∅ fs_contents ∅.
Proof.
  destruct fs_cache_ok as (Hc & Hd & Ht). exists ∅, []. unfold fs_state. cbn [blk].
  generalize dependent fs_cache. intros t Hc Hd Ht. split; cbn [lg bc].
  - by apply trans_nil.
  - by split.
  - by rewrite dom_empty_L.
  - done.
  - done.
  - done.
  - done.
  - done.
  - intros b Hb. unfold view. rewrite lookup_empty. unfold fs_contents. by rewrite Hd.
  - done.
  - done.
  - rewrite size_empty. lia.
Qed.

Lemma fs_live i : i = 1 \/ i = 2 -> live fs_sb fs_contents i.
Proof. intros Hi. split; [cbn; lia|]. rewrite fs_inode by lia. by destruct Hi as [->| ->]. Qed.

Lemma fs_cached out : cached fs_sb (fs_state out) fs_contents 1 2.
Proof.
  split; [|split; [reflexivity | by apply fs_live; right]]. rewrite fs_inode by lia.
  split; [cbn; lia | split; reflexivity].
Qed.

Lemma fs_hello : file_of fs_sb fs_contents 2 = str "hello".
Proof. by vm_compute. Qed.

Lemma fs_free : has_free fs_sb fs_contents 2.
Proof.
  exists {[36; 37]}. split; [by vm_compute|]. intros x Hx. assert (x = 36 \/ x = 37) as Hx' by set_solver.
  split; [cbn; lia|]. rewrite fs_used by lia. apply Z.ltb_ge. lia.
Qed.

Lemma readi_correct_witness :
  exists t, readi no_drivers 1 1 10 (fs_state 1) = Ret (4, str "ello") (set_blk t (fs_state 1)).
Proof.
  destruct (readi_correct fs_sb 34 fs_layout no_drivers (fs_state 1) fs_contents ∅ 1 2 1 10) as (t & _ & E).
  - reflexivity.
  - exact fs_trans.
  - exact fs_demo_ok.
  - exact (fs_cached 1).
  - by rewrite fs_inode by lia.
  - lia.
  - lia.
  - exists t. rewrite E, fs_hello. reflexivity.
Defined.

Lemma writei_correct_witness :
  exists s' C' L', writei no_drivers 1 (str "y!!") 4 3 (fs_state 1) = Ret 3 s' /\ ok (blk s') ∅ C' L' /\
    fs_ok fs_sb 34 C' /\ file_of fs_sb C' 2 = str "helly!!" /\ file_of fs_sb C' 1 = file_of fs_sb fs_contents 1.
Proof.
  pose proof (writei_correct fs_sb 34 fs_layout no_drivers (fs_state 1) fs_contents ∅ 1 2 4 (str "y!!")
    eq_refl fs_trans fs_demo_ok (fs_cached 1) ltac:(by rewrite fs_inode by lia) ltac:(lia) ltac:(done) fs_free
    ltac:(rewrite size_empty; vm_compute; lia)) as H.
  rewrite fs_hello in H. destruct H as (s' & C' & L' & E & _ & Hk & Ho & _ & Ef & _ & Hj & _).
  exists s', C', L'. split; [exact E|]. split; [exact Hk|]. split; [exact Ho|]. split; [exact Ef|].
  apply Hj; [by apply fs_live; left | done].
Defined.

(** ** The root directory *)

Lemma root_cached out : cached fs_sb (fs_state out) fs_contents 0 1.
Proof.
  split; [|split; [reflexivity | by apply fs_live; left]]. rewrite fs_inode by lia.
  split; [cbn; lia | split; reflexivity].
Qed.

Lemma root_file : file_of fs_sb fs_contents 1 = entry 1 "." ++ entry 2 "README".
Proof. by vm_compute. Qed.

Lemma bytes_check (l : list Z) : forallb (fun b => (0 <=? b) && (b <? 256)) l = true -> Forall byte l.
Proof.
  intros H. apply Forall_forall. intros b Hb%list_elem_of_In. rewrite forallb_forall in H. specialize (H b Hb).
  apply andb_true_iff in H as [H1 H2]. btests. unfold byte. lia.
Qed.

Lemma root_directory : directory fs_sb fs_contents 1.
Proof.
  split; [by rewrite fs_inode by lia | by rewrite root_file | rewrite root_file; apply bytes_check; by vm_compute].
Qed.

Definition cname (s : string) : list Z := str s ++ [0].

Lemma dirlookup_correct_witness :
  exists off s', dirlookup no_drivers 0 (cname "README") (fs_state 1) = Ret (Some (1%nat, off)) s'.
Proof.
  destruct (dirlookup_correct fs_sb 34 fs_layout no_drivers fs_contents ∅ 0 1 (cname "README") (fs_state 1)) as (t & _ & H).
  - reflexivity.
  - exact fs_trans.
  - exact fs_demo_ok.
  - exact (root_cached 1).
  - exact root_directory.
  - apply bytes_check. by vm_compute.
  - left. apply list_elem_of_In. cbn. tauto.
  - rewrite root_file in H. assert (dir_get (fname (cname "README")) (entry 1 "." ++ entry 2 "README") = Some 2) as Hg by by vm_compute.
    rewrite Hg in H. destruct H as (k & _ & _ & _ & _ & E). exists (16 * Z.of_nat k). eexists. rewrite E. reflexivity.
Defined.

Lemma dirlink_correct_witness :
  exists s' C', dirlink fs_lock no_drivers 0 (cname "new") 2 (fs_state 1) = Ret 0 s' /\
    dir_get (str "new") (file_of fs_sb C' 1) = Some 2 /\ dir_get (str ".") (file_of fs_sb C' 1) = Some 1.
Proof.
  pose proof (dirlink_correct fs_sb 34 fs_layout fs_lock no_drivers fs_contents ∅ 0 1 (cname "new") 2 (fs_state 1)
    eq_refl fs_trans fs_demo_ok (root_cached 1) root_directory ltac:(apply bytes_check; by vm_compute)
    ltac:(left; apply list_elem_of_In; cbn; tauto) ltac:(lia) ltac:(rewrite root_file; by vm_compute) fs_free
    ltac:(rewrite size_empty; vm_compute; lia)) as H.
  rewrite root_file in H.
  assert (dir_get (fname (cname "new")) (entry 1 "." ++ entry 2 "README") = None) as Hg by by vm_compute. rewrite Hg in H.
  destruct H as (s' & C' & L' & E & _ & _ & _ & _ & _ & Hget & _). exists s', C'. split; [exact E|]. split; rewrite Hget; by vm_compute.
Defined.
