(* ===== verification/File.v ===== *)
(** * Open files (file.c, pipealloc of pipe.c)

    The table of open files, over the file system of Fs.v, the pipes of
    Pipe.v and the page allocator of Kalloc.v.  Pointers to open files are
    indices of [ftable.file]; a pipe is known by the address of its page. *)

From S2P Require Import Prelude Kalloc Sleeplock Bio Log Blocks Fs.
From S2P Require Pipe.

Definition NFILE : nat := 100.
Definition NOFILE : nat := 16.

Inductive fd_type := FD_NONE | FD_PIPE | FD_INODE.
#[export] Instance fd_type_eq_dec : EqDecision fd_type.
Proof. solve_decision. Defined.

Record file := mk_file {
  f_type : fd_type;
  f_ref : Z;
  f_readable : bool;
  f_writable : bool;
  f_pipe : Z;
  f_ip : nat;
  f_off : Z;
}.
Definition zero_file : file := mk_file FD_NONE 0 false false 0 0 0.
#[export] Instance file_inhabited : Inhabited file := populate zero_file.

Definition set_fref v f := mk_file (f_type f) v (f_readable f) (f_writable f) (f_pipe f) (f_ip f) (f_off f).
Definition set_foff v f := mk_file (f_type f) (f_ref f) (f_readable f) (f_writable f) (f_pipe f) (f_ip f) v.
Definition set_none f := mk_file FD_NONE 0 (f_readable f) (f_writable f) (f_pipe f) (f_ip f) (f_off f).

(** [begin_op] and [end_op]: the file system over any log. *)
Class Trans (T : Type) := { begin_op : M T unit; end_op : M T unit }.

(** The kernel as a system call of one process sees it: the file system, the
    table of files, the pipes, the free pages, and of the process its
    descriptors, its [killed] flag, and its memory; [woken] are the channels
    that [wakeup] was called on. *)
Record sys (T : Type) := mk_sys {
  fs : fss T;
  ft_lock : bool;
  files : list file;
  pipes : gmap Z Pipe.pipe;
  km : kmem_t;
  woken : list Z;
  ofile : list (option nat);
  killed : bool;
  usz : Z;
  uesp : Z;
  umem : list Z;
}.
Arguments mk_sys {T}.
Arguments fs {T}.
Arguments ft_lock {T}.
Arguments files {T}.
Arguments pipes {T}.
Arguments km {T}.
Arguments woken {T}.
Arguments ofile {T}.
Arguments killed {T}.
Arguments usz {T}.
Arguments uesp {T}.
Arguments umem {T}.

Section file.
Context {T : Type} {IO : BlockIO T} {TR : Trans T}.
Context (kend : Z) (ilock_addr : nat -> Z) (devsw : Z -> device (T := T)).

Definition set_fs (v : fss T) (s : sys T) := mk_sys v (ft_lock s) (files s) (pipes s) (km s) (woken s) (ofile s) (killed s) (usz s) (uesp s) (umem s).
Definition set_ftlock v (s : sys T) : sys T := mk_sys (fs s) v (files s) (pipes s) (km s) (woken s) (ofile s) (killed s) (usz s) (uesp s) (umem s).
Definition set_files v (s : sys T) : sys T := mk_sys (fs s) (ft_lock s) v (pipes s) (km s) (woken s) (ofile s) (killed s) (usz s) (uesp s) (umem s).
Definition set_pipes v (s : sys T) : sys T := mk_sys (fs s) (ft_lock s) (files s) v (km s) (woken s) (ofile s) (killed s) (usz s) (uesp s) (umem s).
Definition set_km v (s : sys T) : sys T := mk_sys (fs s) (ft_lock s) (files s) (pipes s) v (woken s) (ofile s) (killed s) (usz s) (uesp s) (umem s).
Definition set_woken v (s : sys T) : sys T := mk_sys (fs s) (ft_lock s) (files s) (pipes s) (km s) v (ofile s) (killed s) (usz s) (uesp s) (umem s).
Definition set_fds v (s : sys T) : sys T := mk_sys (fs s) (ft_lock s) (files s) (pipes s) (km s) (woken s) v (killed s) (usz s) (uesp s) (umem s).
Definition set_umem v (s : sys T) : sys T := mk_sys (fs s) (ft_lock s) (files s) (pipes s) (km s) (woken s) (ofile s) (killed s) (usz s) (uesp s) v.

Definition fsm {A} (m : M (fss T) A) : M (sys T) A := zoom fs set_fs m.
Definition kmm {A} (m : M kmem_t A) : M (sys T) A := zoom km set_km m.
Definition getf (f : nat) : M (sys T) file := reads (fun s => files s !!! f).
Definition updf (f : nat) (g : file -> file) : M (sys T) unit := modify (fun s => set_files (alter g f (files s)) s).
Definition wake_chans (chans : list Z) : M (sys T) unit := modify (fun s => set_woken (woken s ++ chans) s).
Definition op_begin : M (sys T) unit := fsm (io begin_op).
Definition op_end : M (sys T) unit := fsm (io end_op).

Definition acquire_ft : M (sys T) unit := fun s =>
  if ft_lock s then Panic "acquire" else Ret tt (set_ftlock true s).
Definition release_ft : M (sys T) unit := fun s =>
  if ft_lock s then Ret tt (set_ftlock false s) else Panic "release".

Definition fileinit : M (sys T) unit := modify (set_ftlock false).

Definition filealloc : M (sys T) (option nat) :=
  acquire_ft ;;
  let! s := get in
  match find_index (fun f => f_ref f =? 0) (files s) with
  | Some f =>
      updf f (set_fref 1) ;;
      release_ft ;;
      ret (Some f)
  | None =>
      release_ft ;;
      ret None
  end.

Definition filedup (f : nat) : M (sys T) nat :=
  acquire_ft ;;
  let! x := getf f in
  if f_ref x <? 1 then panic "filedup"
  else
    updf f (set_fref (f_ref x + 1)) ;;
    release_ft ;;
    ret f.

(** [pipeclose] of the pipe in page [p]. *)
Definition pipe_close (p : Z) (writable : bool) : M (sys T) unit :=
  let! s := get in
  match pipes s !! p with
  | None => undefined
  | Some pi =>
      let '(pi', chans, gone) := Pipe.pipeclose p writable pi in
      modify (set_pipes (if gone then delete p (pipes s) else <[p := pi']> (pipes s))) ;;
      wake_chans chans ;;
      when gone (kmm (kfree kend p))
  end.

Definition fileclose (f : nat) : M (sys T) unit :=
  acquire_ft ;;
  let! x := getf f in
  if f_ref x <? 1 then panic "fileclose"
  else
    updf f (set_fref (f_ref x - 1)) ;;
    if 0 <? f_ref x - 1 then release_ft
    else
      updf f set_none ;;
      release_ft ;;
      match f_type x with
      | FD_PIPE => pipe_close (f_pipe x) (f_writable x)
      | FD_INODE =>
          op_begin ;;
          fsm (iput ilock_addr (f_ip x)) ;;
          op_end
      | FD_NONE => ret tt
      end.

Definition filestat (f : nat) : M (sys T) (option stat) :=
  let! x := getf f in
  match f_type x with
  | FD_INODE =>
      fsm (ilock ilock_addr (f_ip x)) ;;
      let! st := fsm (stati (f_ip x)) in
      fsm (iunlock ilock_addr (f_ip x)) ;;
      ret (Some st)
  | _ => ret None
  end.

(** The pipe operations up to their first sleep. *)
Definition pipe_read (p : Z) (n : Z) : M (sys T) (Z * list Z) :=
  fun s => match pipes s !! p with
           | None => undefined s
           | Some pi =>
               let '(r, bs, pi', chans) := Pipe.piperead_seg p (killed s) n pi in
               let s' := set_woken (woken s ++ chans) (set_pipes (<[p := pi']> (pipes s)) s) in
               match r with Pipe.Return r => Ret (r, bs) s' | Pipe.Asleep c => Sleep c s' end
           end.
Definition pipe_write (p : Z) (addr : list Z) (n : Z) : M (sys T) Z :=
  fun s => match pipes s !! p with
           | None => undefined s
           | Some pi =>
               let '(r, _, pi', chans) := Pipe.pipewrite p (killed s) addr n pi in
               let s' := set_woken (woken s ++ chans) (set_pipes (<[p := pi']> (pipes s)) s) in
               match r with Pipe.Return r => Ret r s' | Pipe.Asleep c => Sleep c s' end
           end.

(** The result, and the bytes stored at [addr]. *)
Definition fileread (f : nat) (n : Z) : M (sys T) (Z * list Z) :=
  let! x := getf f in
  if negb (f_readable x) then ret (-1, [])
  else
    match f_type x with
    | FD_PIPE => pipe_read (f_pipe x) n
    | FD_INODE =>
        fsm (ilock ilock_addr (f_ip x)) ;;
        let! x := getf f in
        let! r := fsm (readi devsw (f_ip x) (f_off x) (u32 n)) in
        when (0 <? fst r) (updf f (fun x => set_foff (u32 (f_off x + fst r)) x)) ;;
        fsm (iunlock ilock_addr (f_ip x)) ;;
        ret r
    | FD_NONE => panic "fileread"
    end.

Definition write_max : Z := (MAXOPBLOCKS - 1 - 1 - 2) / 2 * 512.

(** One transaction of [filewrite]: the first [n1] bytes of [addr]. *)
Definition write_chunk (f : nat) (addr : list Z) (n1 : Z) : M (sys T) Z :=
  op_begin ;;
  let! x := getf f in
  fsm (ilock ilock_addr (f_ip x)) ;;
  let! x := getf f in
  let! r := fsm (writei devsw (f_ip x) addr (f_off x) n1) in
  when (0 <? r) (updf f (fun x => set_foff (u32 (f_off x + r)) x)) ;;
  fsm (iunlock ilock_addr (f_ip x)) ;;
  op_end ;;
  ret r.

(** [while(i < n)]; the result is [i]. *)
Fixpoint filewrite_loop (fuel : nat) (f : nat) (addr : list Z) (i n : Z) : M (sys T) Z :=
  if i <? n then
    match fuel with
    | O => hang
    | S fuel =>
        let n1 := Z.min (n - i) write_max in
        let! r := write_chunk f (drop (Z.to_nat i) addr) n1 in
        if r <? 0 then ret i
        else if negb (r =? n1) then panic "short filewrite"
        else filewrite_loop fuel f addr (i + r) n
    end
  else ret i.

Definition filewrite (f : nat) (addr : list Z) (n : Z) : M (sys T) Z :=
  let! x := getf f in
  if negb (f_writable x) then ret (-1)
  else
    match f_type x with
    | FD_PIPE => pipe_write (f_pipe x) addr n
    | FD_INODE =>
        let! i := filewrite_loop (Z.to_nat (n / write_max + 1)) f addr 0 n in
        ret (if i =? n then n else -1)
    | FD_NONE => panic "filewrite"
    end.

(** The [bad] exit of [pipealloc], where no page was allocated. *)
Definition pipealloc_bad (f0 f1 : option nat) : M (sys T) (option (nat * nat)) :=
  match f0 with Some f => fileclose f | None => ret tt end ;;
  match f1 with Some f => fileclose f | None => ret tt end ;;
  ret None.

Definition pipealloc : M (sys T) (option (nat * nat)) :=
  let! f0 := filealloc in
  match f0 with
  | None => pipealloc_bad None None
  | Some r =>
      let! f1 := filealloc in
      match f1 with
      | None => pipealloc_bad f0 None
      | Some w =>
          let! p := kmm kalloc in
          if p =? 0 then pipealloc_bad f0 f1
          else
            modify (fun s => set_pipes (<[p := Pipe.pipe_init (slice 52 512 (page (pmem (km s)) p))]> (pipes s)) s) ;;
            updf r (fun x => mk_file FD_PIPE (f_ref x) true false p (f_ip x) (f_off x)) ;;
            updf w (fun x => mk_file FD_PIPE (f_ref x) false true p (f_ip x) (f_off x)) ;;
            ret (Some (r, w))
      end
  end.
End file.
