(* ===== verification/FsCrash.v ===== *)
(** * Writes to files are atomic (filewrite over fs.c, log.c and bio.c)

    One transaction of [filewrite], from [begin_op] to [end_op], over the
    buffer cache, the log and the disk: whenever the machine stops, recovery
    finds a consistent file system in which the write has happened entirely
    or not at all, and every other file is as it was. *)

From S2P Require Import Prelude Cstring Kalloc Sleeplock Bio BioInv Log LogInv Crash LogOps Blocks Fs FsAlloc FsFile FsInode FsRw FsDemo File.

(** ** Locks of inodes *)

Section ilock.
Context {T : Type} {IO : BlockIO T} (ilock_addr : nat -> Z).
Implicit Types (s : fss T).

(** Cached inode [ip] is in use, up to date and not locked. *)
Record ready s (ip : nat) : Prop := {
  y_lt : (ip < length (inodes s))%nat;
  y_ref : 1 <= i_ref (inodes s !!! ip);
  y_valid : i_valid (inodes s !!! ip) <> 0;
  y_lock : i_lock (inodes s !!! ip) = initsleeplock;
}.

Definition with_ilock (ip : nat) (l : sleeplock) s : fss T := set_inodes (alter (set_ilock l) ip (inodes s)) s.

Lemma on_ilock_run {A} ip (m : M sleeplock A) s a l :
  m (i_lock (inodes s !!! ip)) = Ret a l -> on_ilock ip m s = Ret a (with_ilock ip l s).
Proof. intros E. unfold on_ilock, zoom. by rewrite E. Qed.

Lemma with_ilock_at ip l s : (ip < length (inodes s))%nat -> inodes (with_ilock ip l s) !!! ip = set_ilock l (inodes s !!! ip).
Proof. intros Hl. unfold with_ilock. cbn [inodes set_inodes]. by rewrite alter_at. Qed.

Lemma with_ilock_twice ip l l' s : with_ilock ip l' (with_ilock ip l s) = with_ilock ip l' s.
Proof.
  unfold with_ilock. destruct s as [b v lk i p c]. unfold set_inodes. cbn. f_equal.
  apply list_eq. intros j. rewrite !list_lookup_alter. repeat case_decide; try done. by destruct (i !! ip).
Qed.

Lemma with_ilock_same ip s : i_lock (inodes s !!! ip) = initsleeplock -> with_ilock ip initsleeplock s = s.
Proof.
  intros H. unfold with_ilock. destruct s as [b v lk i p c]. unfold set_inodes. cbn in *. f_equal.
  apply list_eq. intros j. rewrite list_lookup_alter. case_decide; [|done]. subst j.
  destruct (i !! ip) as [x|] eqn:E; [|done]. rewrite (list_lookup_total_correct _ _ _ E) in H.
  cbn. f_equal. destruct x; cbn in *; by subst.
Qed.

Lemma ilock_ready s ip :
  ready s ip -> ilock ilock_addr ip s = Ret tt (with_ilock ip (mk_sleeplock false true (mypid s)) s).
Proof.
  intros [Hl Hr Hv Hk]. unfold ilock. unfold bind at 1, getip at 1, reads. rewrite (proj2 (Z.ltb_ge _ _)) by lia.
  unfold bind at 1, get. set (h := mk_sleeplock false true (mypid s)).
  assert (acquiresleep (ilock_addr ip) (mypid s) (i_lock (inodes s !!! ip)) = Ret tt h) as E by by rewrite Hk.
  rewrite (bind_ret _ _ _ _ _ (on_ilock_run ip _ s tt h E)).
  unfold bind at 1, getip at 1, reads. rewrite with_ilock_at by done. cbn [i_valid set_ilock].
  by rewrite (proj2 (Z.eqb_neq _ _)) by done.
Qed.

Lemma iunlock_held s ip :
  i_lock (inodes s !!! ip) = mk_sleeplock false true (mypid s) -> 1 <= i_ref (inodes s !!! ip) -> (ip < length (inodes s))%nat ->
  iunlock ilock_addr ip s = Ret tt (with_ilock ip initsleeplock s).
Proof.
  intros Hk Hr Hl. unfold iunlock. unfold bind at 1, get. set (h := mk_sleeplock false true (mypid s)) in *.
  assert (holdingsleep (mypid s) (i_lock (inodes s !!! ip)) = Ret true h) as E
    by (rewrite Hk; unfold h; cbn; by rewrite Z.eqb_refl).
  rewrite (bind_ret _ _ _ _ _ (on_ilock_run ip _ s true h E)).
  unfold bind at 1, getip at 1, reads. rewrite with_ilock_at by done. cbn [negb orb i_ref set_ilock].
  rewrite (proj2 (Z.ltb_ge _ _)) by done.
  rewrite (bind_ret _ _ _ (ilock_addr ip) (with_ilock ip initsleeplock (with_ilock ip h s))).
  - by rewrite with_ilock_twice.
  - apply on_ilock_run. by rewrite with_ilock_at by done.
Qed.
End ilock.

(** ** One transaction *)

Section atomic.
Context (lock_addr : nat -> Z) `{DR : Driver} (log_addr start nlog : Z).
Hypothesis Hstart : 2 <= start.
Hypothesis Hnlog : 27 <= nlog <= LOGSIZE.
Hypothesis Hend : start + nlog <= nblocks.

#[local] Instance log_trans : Trans lst := {
  begin_op := logm (Log.begin_op log_addr);
  end_op := Log.end_op lock_addr log_addr ;; ret tt;
}.

(** No operation is open and the log is empty. *)
Record resting (s : lst) : Prop := {
  rs_quiet : quiet start nlog s ∅ [];
  rs_lock : l_lock (lg s) = false;
  rs_out : l_outstanding (lg s) = 0;
  rs_commit : l_committing (lg s) = false;
}.

Definition on_disk (d : blocks) : contents_map := fun b => d !!! Z.to_nat b.
Definition same_home (C C' : contents_map) : Prop := forall b, home start nlog b -> C' b = C b.

Lemma begin_resting s :
  resting s -> exists s1, begin_op s = Ret tt s1 /\
    in_trans start nlog 1 (disk (bc s)) (trace (bc s)) s1 ∅ (on_disk (disk (bc s))) ∅ ∅ [].
Proof.
  intros [Q Hk Ho Hc]. destruct s as [l t]. cbn [lg bc] in *.
  exists (mk_lst (set_outstanding 1 l) t). split.
  - cbn [begin_op log_trans]. unfold logm, zoom. cbn [lg]. rewrite Reserve.begin_op_eq by done.
    pose proof (a_n _ _ _ _ (q_log _ _ _ _ _ Q)) as Hn. cbn in Hn. by rewrite Hc, Ho, Hn.
  - destruct Q as [A Tr Ca P W H0]. cbn [lg bc] in *. split; cbn [lg bc]; try done.
    + by destruct A; split.
    + rewrite size_empty. lia.
Qed.

(** The writes of the commit of a transaction. *)
Definition op_writes (d : blocks) (D : gmap Z (list Z)) (bl : list Z) : writes :=
  match bl with [] => [] | _ => commit_writes start d bl (LogInv.contents D bl) end.

Lemma in_trans_quiet s0 s C L D bl :
  resting s0 -> in_trans start nlog 1 (disk (bc s0)) (trace (bc s0)) s ∅ C L D bl ->
  quiet start nlog (mk_lst (set_committing true (set_outstanding 0 (lg s))) (bc s)) D bl.
Proof.
  intros [Q _ _ _] I. destruct (i_disk _ _ _ _ _ _ _ _ _ _ _ I) as [Hd _]. split; cbn [lg bc].
  - destruct (i_log _ _ _ _ _ _ _ _ _ _ _ I). by split.
  - apply I.
  - pose proof (i_cache _ _ _ _ _ _ _ _ _ _ _ I) as Hc. by rewrite dom_empty_L in Hc.
  - apply I.
  - rewrite Hd. apply Q.
  - rewrite Hd. apply Q.
Qed.

Lemma trans_view s0 s C L D bl b :
  in_trans start nlog 1 (disk (bc s0)) (trace (bc s0)) s ∅ C L D bl -> home start nlog b -> C b = view (bc s) D b.
Proof. intros I [Hb _]. by apply (i_cont _ _ _ _ _ _ _ _ _ _ _ I). Qed.

Lemma trans_empty s0 s C L D :
  in_trans start nlog 1 (disk (bc s0)) (trace (bc s0)) s ∅ C L D [] -> D = ∅.
Proof. intros I. pose proof (i_pinned _ _ _ _ _ _ _ _ _ _ _ I) as P. unfold pinned in P. by apply dom_empty_inv_L. Qed.

Lemma commit_trans s0 s C L D bl :
  resting s0 -> in_trans start nlog 1 (disk (bc s0)) (trace (bc s0)) s ∅ C L D bl ->
  let W := op_writes (disk (bc s0)) D bl in
  let l := set_committing true (set_outstanding 0 (lg s)) in
  exists t', commit lock_addr (mk_lst l (bc s)) = Ret tt (mk_lst (set_n 0 l) t') /\
    quiet start nlog (mk_lst (set_n 0 l) t') ∅ [] /\
    disk t' = apply_writes (disk (bc s0)) W /\ trace t' = trace (bc s0) ++ W /\ same_home C (on_disk (disk t')).
Proof.
  intros R I W l. pose proof (in_trans_quiet _ _ _ _ _ _ R I) as Q. fold l in Q.
  destruct (i_disk _ _ _ _ _ _ _ _ _ _ _ I) as [Hd Ht]. destruct bl as [|b0 bl0] eqn:Ebl.
  - pose proof (trans_empty _ _ _ _ _ I) as ->. exists (bc s). cbn [W op_writes apply_writes foldl].
    pose proof (a_n _ _ _ _ (q_log _ _ _ _ _ Q)) as Hn. cbn [lg length] in Hn.
    assert (set_n 0 l = l) as El by (destruct l; cbn in *; by rewrite Hn).
    rewrite El, app_nil_r. split; [|split; [done|split; [done|split; [done|]]]].
    + unfold commit. unfold bind at 1, reads. cbn [lg]. by rewrite Hn.
    + intros b Hb. rewrite (trans_view _ _ _ _ _ _ _ I Hb). unfold view, on_disk. by rewrite lookup_empty.
  - rewrite <- Ebl in *. assert (bl <> []) as Hne by by rewrite Ebl.
    destruct (commit_quiet lock_addr start nlog Hstart ltac:(lia) Hend _ D bl Q Hne) as (t' & E & Q' & Hdk & Htr).
    cbn [bc lg] in *. rewrite Hd in Hdk, Htr.
    assert (W = commit_writes start (disk (bc s0)) bl (LogInv.contents D bl)) as EW by (unfold W, op_writes; by rewrite Ebl).
    exists t'. rewrite EW. split; [done|]. split; [done|]. split; [done|]. split; [by rewrite Htr, Ht|].
    intros b Hb. unfold on_disk. rewrite Hdk, (trans_view _ _ _ _ _ _ _ I Hb).
    pose proof (commit_installs lock_addr start nlog Hstart ltac:(lia) Hend _ D bl b Q Hne Hb) as Hc. cbn [bc] in Hc.
    by rewrite Hd in Hc.
Qed.

Lemma end_trans s0 s C L D bl :
  resting s0 -> in_trans start nlog 1 (disk (bc s0)) (trace (bc s0)) s ∅ C L D bl ->
  let W := op_writes (disk (bc s0)) D bl in
  exists s', end_op s = Ret tt s' /\ resting s' /\
    disk (bc s') = apply_writes (disk (bc s0)) W /\ trace (bc s') = trace (bc s0) ++ W /\ same_home C (on_disk (disk (bc s'))).
Proof.
  intros R I W. destruct (commit_trans _ _ _ _ _ _ R I) as (t' & E & Q & Hd & Ht & Hh). fold W in Hd, Ht.
  destruct (i_out _ _ _ _ _ _ _ _ _ _ _ I) as [Ho Hc]. pose proof (Blocks.i_lock _ _ _ _ _ _ _ _ _ _ _ I) as Hk.
  set (l := set_committing true (set_outstanding 0 (lg s))) in *.
  exists (mk_lst (set_committing false (set_n 0 l)) t'). split.
  - cbn [end_op log_trans]. unfold Log.end_op.
    assert (logm end_op_start s = Ret true (mk_lst l (bc s))) as E1.
    { unfold logm, zoom. rewrite Reserve.end_op_start_eq by done. rewrite Ho. done. }
    rewrite (bind_ret _ _ _ log_addr (mk_lst (set_committing false (set_n 0 l)) t')); [done|].
    rewrite (bind_ret _ _ _ _ _ E1). cbn [when].
    rewrite (bind_ret _ _ _ tt (mk_lst (set_committing false (set_n 0 l)) t')); [done|].
    rewrite (bind_ret _ _ _ _ _ E). unfold logm, zoom, end_op_finish, bind, acquire_l, modify, release_l.
    clear -Hk. cbn [lg]. unfold l. destruct (lg s). cbn in *. by rewrite Hk.
  - split; [|by split; [|split]]. destruct Q. split; cbn [lg bc] in *; try done; [by destruct q_log; split..].
Qed.

(** A crash during the transaction. *)
Lemma crash_trans s0 s C L D bl k d pid :
  resting s0 -> in_trans start nlog 1 (disk (bc s0)) (trace (bc s0)) s ∅ C L D bl ->
  star (crashed_recovery lock_addr) (apply_writes (disk (bc s0)) (take k (op_writes (disk (bc s0)) D bl))) d ->
  exists r, initlog lock_addr 1 (boot d pid) = Ret tt r /\ quiet start nlog r ∅ [] /\
    (same_home (on_disk (disk (bc s0))) (on_disk (disk (bc r))) \/ same_home C (on_disk (disk (bc r)))).
Proof.
  intros R I. pose proof (in_trans_quiet _ _ _ _ _ _ R I) as Q. destruct (i_disk _ _ _ _ _ _ _ _ _ _ _ I) as [Hd Ht].
  assert (exists k', take k (op_writes (disk (bc s0)) D bl) = take k' (commit_writes start (disk (bc s0)) bl (LogInv.contents D bl)))
    as [k' ->] by (destruct bl; [exists O; cbn [op_writes]; by rewrite take_nil, take_0 | by exists k]).
  intros Hst. pose proof (crash_recovers lock_addr start nlog Hstart ltac:(lia) Hend _ D bl k' d pid Q) as Hr.
  cbn [bc] in Hr. rewrite Hd in Hr. destruct (Hr Hst) as (r & E & Qr & Hh). exists r. split; [done|]. split; [done|].
  destruct Hh as [[_ Hh]|[_ Hh]]; [by left|]. right. intros b Hb. unfold on_disk. rewrite Hh by done.
  by rewrite (trans_view _ _ _ _ _ _ _ I Hb).
Qed.

(** ** [filewrite] *)

Context (kend : Z) (ilock_addr : nat -> Z) (devsw : Z -> device (T := lst)).
Context (v : superblock) (ds : Z).

#[local] Instance crash_io : BlockIO lst := log_io lock_addr.

Lemma nlog_bounds : 1 <= nlog <= LOGSIZE.
Proof. lia. Qed.
Definition laws (d : blocks) (w : writes) : BlockLaws lst := log_laws lock_addr start nlog nlog_bounds 1 d w ltac:(lia).

(** The layout of the disk: what may be logged does not depend on its contents. *)
Definition disk_layout : Prop := layout (BL := laws [] []) v ds.

Lemma layout_at d w : disk_layout -> layout (BL := laws d w) v ds.
Proof. intros []. by split. Qed.

(** [C'] has the files of [C], with [new] as the contents of file [i]. *)
Definition files_with (C C' : contents_map) (i : Z) (new : list Z) : Prop :=
  fs_ok v ds C' /\ live v C' i /\ file_of v C' i = new /\
  forall j, live v C j -> j <> i -> live v C' j /\ file_of v C' j = file_of v C j.

Lemma files_with_same C C' C2 i new :
  disk_layout -> files_with C C' i new -> same_home C' C2 -> files_with C C2 i new.
Proof.
  intros Lay (O & Hi & Hf & Hj) A. pose proof (layout_at [] [] Lay) as Lay'.
  change (agree (BL := laws [] []) C' C2) in A. split; [by eapply fs_ok_agree|].
  split; [by eapply agree_live|]. split; [by rewrite <- Hf; eapply agree_file|].
  intros j Hl Hne. destruct (Hj j Hl Hne) as [Hl' <-]. split; [by eapply agree_live | by eapply agree_file].
Qed.

Lemma fsm_run {A} (m : M (fss lst) A) (s : sys lst) a t : m (fs s) = Ret a t -> fsm m s = Ret a (set_fs t s).
Proof. intros E. unfold fsm, zoom. by rewrite E. Qed.

Lemma cached_lock s C ip i l : cached (T := lst) v s C ip i -> cached v (with_ilock ip l s) C ip i.
Proof.
  intros ((Hl & Hd & Hn) & Hin & Hi). split; [|split; [|done]].
  - split; [unfold with_ilock; cbn; by rewrite length_alter|]. by rewrite with_ilock_at.
  - by rewrite with_ilock_at.
Qed.

Lemma ready_unlock s ip nd t h :
  ready (T := lst) s ip -> let s' := with_node ip nd t (with_ilock ip h s) in
  i_lock (inodes s' !!! ip) = h /\ 1 <= i_ref (inodes s' !!! ip) /\ (ip < length (inodes s'))%nat /\
  mypid s' = mypid s /\ ready (with_ilock ip initsleeplock s') ip.
Proof.
  intros [Hl Hr Hv Hk] s'. assert (ip < length (inodes (with_ilock ip h s)))%nat as Hl1 by (unfold with_ilock; cbn; by rewrite length_alter).
  assert (ip < length (inodes s'))%nat as Hl' by (unfold s', with_node; cbn; by rewrite !length_alter).
  assert (inodes s' !!! ip = set_node nd (set_ilock h (inodes s !!! ip))) as E.
  { unfold s', with_node. cbn [inodes set_blk set_inodes]. rewrite alter_at by done. by rewrite with_ilock_at. }
  rewrite E. split; [done|]. split; [done|]. split; [done|]. split; [done|].
  split; [unfold with_ilock at 1; cbn [inodes set_inodes]; by rewrite length_alter | ..]; by rewrite with_ilock_at, E.
Qed.

Lemma turns_chunk off n : 0 <= off -> 0 <= n <= write_max -> (turns off n <= 4)%nat.
Proof.
  intros Ho Hn. change write_max with 1536 in Hn. unfold turns, BSZ. pose proof (Z.mod_pos_bound off 512 ltac:(lia)).
  assert ((off mod 512 + n + (512 - 1)) / 512 < 5); [|lia]. apply Z.div_lt_upper_bound; lia.
Qed.

(** The file system part of [write_chunk], inside the transaction. *)
Lemma chunk_law d w (s : fss lst) C ip i off src :
  let n := Z.of_nat (length src) in
  disk_layout -> sb s = v -> ok (BlockLaws := laws d w) (blk s) ∅ C ∅ -> fs_ok v ds C -> ready s ip -> cached v s C ip i ->
  i_type (disk_inode v C i) <> T_DEV -> 0 <= off <= Z.of_nat (length (file_of v C i)) -> off + n <= MAXFILE * BSZ ->
  n <= write_max -> has_free v C (2 * turns off n) ->
  exists s1 s2 C' L', ilock ilock_addr ip s = Ret tt s1 /\ writei devsw ip src off n s1 = Ret n s2 /\
    iunlock ilock_addr ip s2 = Ret tt (with_ilock ip initsleeplock s2) /\
    ok (BlockLaws := laws d w) (blk s2) ∅ C' L' /\ files_with C C' i (overwrite off src (file_of v C i)) /\
    let s3 := with_ilock ip initsleeplock s2 in
    sb s3 = v /\ blk s3 = blk s2 /\ ready s3 ip /\ cached v s3 C' ip i.
Proof.
  intros n Lay Hsb Hs O Hy Hc Hty Ho Hmax Hn Hf. set (h := mk_sleeplock false true (mypid s)).
  pose proof (turns_chunk off n ltac:(lia) ltac:(unfold n; lia)) as Ht.
  destruct (writei_law (BL := laws d w) v ds (layout_at d w Lay) devsw (with_ilock ip h s) C ∅ ip i off src 0)
    as (t & C' & L' & E & H & Tc & Ef & _ & _ & _); try done.
  { by apply cached_lock. } { fold n. by rewrite Nat.add_0_r. }
  { fold n. rewrite size_empty. change capacity with (log_capacity nlog). unfold log_capacity. unfold LOGSIZE, MAXOPBLOCKS in *. lia. }
  destruct (ready_unlock s ip (disk_inode v C' i) t h Hy) as (Hk & Hr & Hl & Hp & Hy').
  eexists _, _, C', L'. split; [by apply ilock_ready|]. split; [exact E|].
  split; [apply iunlock_held; [by rewrite Hk, Hp | done | done]|]. split; [done|]. split.
  - split; [by eapply touches_ok|]. split; [apply Tc|]. split; [done|]. intros j Hj Hne. by eapply touches_file.
  - split; [done|]. split; [done|]. split; [done|]. apply cached_lock. destruct Hc as ((Hl0 & Hd0 & Hn0) & Hin & Hi).
    assert (ip < length (inodes (with_ilock ip h s)))%nat as Hl1 by (unfold with_ilock; cbn; by rewrite length_alter).
    split; [apply (with_node_at _ (disk_inode v C i)); split; [done|]; by rewrite with_ilock_at|].
    split; [rewrite with_node_inum by done; by rewrite with_ilock_at | apply Tc].
Qed.

Lemma chunk_run (s : sys lst) f ip off src n b1 s1 s2 b4 :
  0 < n -> off + n < 2 ^ 32 -> 0 <= off -> (f < length (files s))%nat -> f_ip (files s !!! f) = ip -> f_off (files s !!! f) = off ->
  begin_op (blk (fs s)) = Ret tt b1 -> ilock ilock_addr ip (set_blk b1 (fs s)) = Ret tt s1 ->
  writei devsw ip src off n s1 = Ret n s2 -> iunlock ilock_addr ip s2 = Ret tt (with_ilock ip initsleeplock s2) ->
  end_op (blk s2) = Ret tt b4 ->
  exists s', write_chunk ilock_addr devsw f src n s = Ret n s' /\
    fs s' = set_blk b4 (with_ilock ip initsleeplock s2) /\ files s' = alter (set_foff (off + n)) f (files s).
Proof.
  intros Hn Hov Ho Hf Hip Hoff E1 E2 E3 E4 E5. eexists. split.
  - unfold write_chunk. rewrite (bind_ret _ _ _ _ _ (fsm_run _ s _ _ (io_run _ _ _ _ E1))).
    unfold bind at 1, getf at 1, reads. cbn [files set_fs]. rewrite Hip.
    rewrite (bind_ret _ _ _ _ _ (fsm_run _ (set_fs (set_blk b1 (fs s)) s) _ _ E2)).
    unfold bind at 1, getf at 1, reads. cbn [files set_fs]. rewrite Hip, Hoff.
    rewrite (bind_ret _ _ _ _ _ (fsm_run _ (set_fs s1 (set_fs (set_blk b1 (fs s)) s)) _ _ E3)).
    rewrite (proj2 (Z.ltb_lt 0 n) Hn). cbn [when].
    unfold bind at 1, updf, modify. cbn [files set_fs set_files].
    rewrite (bind_ret _ _ _ tt (set_fs (with_ilock ip initsleeplock s2)
      (set_files (alter (fun x => set_foff (u32 (f_off x + n)) x) f (files s)) (set_fs s2 (set_fs s1 (set_fs (set_blk b1 (fs s)) s))))))
      by (unfold fsm, zoom; cbn [fs set_fs set_files]; by rewrite E4).
    rewrite (bind_ret _ _ _ tt (set_fs (set_blk b4 (with_ilock ip initsleeplock s2)) (set_fs (with_ilock ip initsleeplock s2)
      (set_files (alter (fun x => set_foff (u32 (f_off x + n)) x) f (files s)) (set_fs s2 (set_fs s1 (set_fs (set_blk b1 (fs s)) s)))))));
      [reflexivity|].
    unfold op_end. apply fsm_run. cbn [fs set_fs]. by apply io_run.
  - split; [done|]. cbn [files set_fs set_files]. apply list_eq. intros j. rewrite !list_lookup_alter. case_decide; [|done]. subst j.
    destruct (lookup_lt_is_Some_2 (files s) f Hf) as [x Hx]. rewrite Hx. cbn. f_equal. f_equal.
    rewrite (list_lookup_total_correct _ _ _ Hx) in Hoff. rewrite Hoff. apply u32_small. lia.
Qed.

(** C2: a write to a file is atomic.  In a kernel at rest, one transaction of
    [filewrite] (from [begin_op] to [end_op]) writes up to [write_max] bytes:
    the file has them at its offset, which moves on; all other files are
    unchanged; the file system is consistent.  If the machine stops after any
    number [k] of the disk writes, and again during any number of recoveries,
    the next boot's [initlog] returns with a consistent file system that has
    the file as it was before or as it is after the write, and all other
    files unchanged. *)
Theorem write_atomic (s : sys lst) f ip i off src :
  let n := Z.of_nat (length src) in
  let d := disk (bc (blk (fs s))) in
  let C := on_disk d in
  resting (blk (fs s)) -> disk_layout -> sb (fs s) = v -> fs_ok v ds C ->
  (f < length (files s))%nat -> f_ip (files s !!! f) = ip -> f_off (files s !!! f) = off ->
  ready (fs s) ip -> cached v (fs s) C ip i -> i_type (disk_inode v C i) <> T_DEV ->
  0 < n <= write_max -> 0 <= off <= Z.of_nat (length (file_of v C i)) -> off + n <= MAXFILE * BSZ ->
  has_free v C (2 * turns off n) ->
  let new := overwrite off src (file_of v C i) in
  exists s' W, write_chunk ilock_addr devsw f src n s = Ret n s' /\
    let d' := disk (bc (blk (fs s'))) in
    resting (blk (fs s')) /\ ready (fs s') ip /\ f_off (files s' !!! f) = off + n /\ files_with C (on_disk d') i new /\
    d' = apply_writes d W /\ trace (bc (blk (fs s'))) = trace (bc (blk (fs s))) ++ W /\
    forall k d1 pid, star (crashed_recovery lock_addr) (apply_writes d (take k W)) d1 ->
      exists r, initlog lock_addr 1 (boot d1 pid) = Ret tt r /\
        (files_with C (on_disk (disk (bc r))) i (file_of v C i) \/ files_with C (on_disk (disk (bc r))) i new).
Proof.
  intros n d C R Lay Hsb O Hf Hip Hoff Hy Hc Hty Hn Ho Hmax Hfree new. assert (MAXFILE * BSZ < 2 ^ 31) as H31 by done.
  destruct (begin_resting _ R) as (b1 & E1 & I1).
  assert (ready (set_blk b1 (fs s)) ip) as Hy1 by (destruct Hy; by split).
  destruct (chunk_law d (trace (bc (blk (fs s)))) (set_blk b1 (fs s)) C ip i off src Lay Hsb (ex_intro _ ∅ (ex_intro _ [] I1))
    O Hy1 Hc Hty Ho Hmax (proj2 Hn) Hfree) as (s1 & s2 & C' & L' & E2 & E3 & E4 & (D & bl & I2) & Hw & Hs3).
  destruct (end_trans _ _ _ _ _ _ R I2) as (b4 & E5 & R4 & Hd4 & Ht4 & Hh4).
  destruct (chunk_run s f ip off src n b1 s1 s2 b4 (proj1 Hn) ltac:(lia) (proj1 Ho) Hf Hip Hoff E1 E2 E3 E4 E5) as (s' & E & Hfs & Hfl).
  exists s', (op_writes d D bl). rewrite Hfs, Hfl. destruct Hs3 as (_ & _ & Hy3 & _). cbn [blk set_blk].
  split; [exact E|]. split; [exact R4|]. split; [destruct Hy3; by split|]. split; [by rewrite alter_at|].
  split; [by apply (files_with_same C C')|]. split; [exact Hd4|]. split; [exact Ht4|].
  intros k d1 pid Hst. destruct (crash_trans _ _ _ _ _ _ k d1 pid R I2 Hst) as (r & Er & _ & Hh). exists r. split; [exact Er|].
  destruct Hh as [Hh|Hh]; [left|right; by apply (files_with_same C C')].
  apply (files_with_same C C); [exact Lay | | exact Hh]. split; [exact O|]. split; [apply Hc|]. split; [reflexivity|].
  intros j Hj _. split; [exact Hj | reflexivity].
Qed.
End atomic.

(** ** The file of the small file system *)

#[local] Existing Instance demo_driver.
#[local] Instance demo_io : BlockIO lst := log_io fs_lock.
#[local] Instance demo_trans : Trans lst := log_trans fs_lock 0.

Definition demo_sys : sys lst :=
  mk_sys (fs_state 0) false (mk_file FD_INODE 1 true true 0 1 5 :: replicate 99 zero_file) ∅
    (mk_kmem false true 0 ∅) [] (Some O :: replicate 15 None) false 0 0 [].

Lemma fs_disk_wf : wf_disk 2 30 fs_disk.
Proof.
  assert (header_n (hdr 2 fs_disk) = 0) as H0 by by vm_compute.
  split; change nblocks with 40.
  - done.
  - apply fs_disk_len.
  - by vm_compute.
  - by vm_compute.
  - rewrite H0. done.
  - unfold disk_trans. rewrite H0. by apply trans_nil.
Qed.

Lemma demo_resting : resting 2 30 (blk (fs demo_sys)).
Proof.
  destruct fs_cache_ok as (Hc & Hd & _). unfold demo_sys, fs_state. cbn [blk fs]. generalize dependent fs_cache. intros t Hc Hd.
  split; [|reflexivity..]. split; cbn [lg bc].
  - by split.
  - by apply trans_nil.
  - exact Hc.
  - reflexivity.
  - rewrite Hd. exact fs_disk_wf.
  - rewrite Hd. by vm_compute.
Qed.

Lemma demo_layout Hn : disk_layout fs_lock 2 30 Hn fs_sb 34.
Proof. destruct fs_layout. by split. Qed.

Lemma demo_disk_eq : disk (bc (blk (fs demo_sys))) = fs_disk.
Proof. exact (proj1 (proj2 fs_cache_ok)). Qed.

#[local] Opaque fs_cache fs_disk fs_contents file_of.

Lemma write_atomic_witness :
  exists s' W, write_chunk fs_lock no_drivers 0 (str ", world") 7 demo_sys = Ret 7 s' /\
    file_of fs_sb (on_disk (disk (bc (blk (fs s'))))) 2 = str "hello, world" /\
    exists r, initlog fs_lock 1 (boot (apply_writes fs_disk (take 1 W)) 1) = Ret tt r /\
      (file_of fs_sb (on_disk (disk (bc r))) 2 = str "hello" \/ file_of fs_sb (on_disk (disk (bc r))) 2 = str "hello, world").
Proof.
  assert (27 <= 30 <= LOGSIZE) as Hn by done.
  assert (2 + 30 <= nblocks) as He by (change nblocks with 40; lia).
  pose proof (write_atomic fs_lock 0 2 30 ltac:(lia) Hn He fs_lock no_drivers fs_sb 34
    demo_sys 0 1 2 5 (str ", world") demo_resting (demo_layout Hn) eq_refl) as H.
  cbv zeta in H. rewrite demo_disk_eq in H. change (on_disk fs_disk) with fs_contents in H. rewrite fs_hello in H.
  destruct H as (s' & W & E & _ & _ & _ & (_ & _ & Hf & _) & _ & _ & Hcr); [exact fs_demo_ok | cbn; lia | reflexivity | reflexivity | | exact (fs_cached 0)
    | by rewrite fs_inode by lia | by vm_compute | by vm_compute | by vm_compute | exact fs_free |].
  { split; [cbn; lia | done | done | reflexivity]. }
  exists s', W. split; [exact E|]. split; [exact Hf|].
  destruct (Hcr 1%nat _ 1 (star_refl _ _)) as (r & Er & Hr). exists r.
  split; [exact Er|].
  destruct Hr as [(_ & _ & Hr & _)|(_ & _ & Hr & _)]; [by left | by right].
Defined.
