(* ===== verification/Sysfile.v ===== *)
(** * System calls on files (syscall.c, sysfile.c)

    The arguments of a system call are read from the memory of the process,
    [umem], whose addresses are [0] to [usz]; a string is the bytes from its
    address to its nul.  What the calls write to user memory is stored there. *)

From S2P Require Import Prelude Cstring Kalloc Sleeplock Bio Log Blocks Fs File.

Definition O_RDONLY : Z := 0x000.
Definition O_WRONLY : Z := 0x001.
Definition O_RDWR : Z := 0x002.
Definition O_CREATE : Z := 0x200.
Definition MAXARG : nat := 32.

(** ** Arguments *)

Section args.
Context {T : Type}.
Implicit Types (s : sys T).

Definition fetchint s (addr : Z) : option Z :=
  if (usz s <=? addr) || (usz s <? u32 (addr + 4)) then None else Some (i32 (get32 (umem s) (Z.to_nat addr))).

(** The address of the string and its length. *)
Definition fetchstr s (addr : Z) : option (Z * nat) :=
  if usz s <=? addr then None
  else pair addr <$> find_index (Z.eqb 0) (take (Z.to_nat (usz s - addr)) (drop (Z.to_nat addr) (umem s))).

Definition argint s (n : Z) : option Z := fetchint s (u32 (uesp s + 4 + 4 * n)).

Definition argptr s (n size : Z) : option Z :=
  i ← argint s n;
  if (size <? 0) || (usz s <=? u32 i) || (usz s <? u32 (u32 i + size)) then None else Some (u32 i).

Definition argstr s (n : Z) : option (Z * nat) :=
  addr ← argint s n;
  fetchstr s (u32 addr).

(** The bytes of a string argument, with the nul. *)
Definition ustring s (a : Z * nat) : list Z := slice (Z.to_nat (fst a)) (S (snd a)) (umem s).
Definition argpath s (n : Z) : option (list Z) := ustring s <$> argstr s n.
End args.

(** ** The system calls *)

Section sysfile.
Context {T : Type} {IO : BlockIO T} {TR : Trans T}.
Context (kend : Z) (ilock_addr : nat -> Z) (devsw : Z -> device (T := T)).
(** What the stack holds where [name] is. *)
Context (junk : list Z).

Local Notation fileclose := (fileclose kend ilock_addr).
Local Notation ilock := (ilock ilock_addr).
Local Notation iunlock := (iunlock ilock_addr).
Local Notation iput := (iput ilock_addr).
Local Notation iunlockput := (iunlockput ilock_addr).
Local Notation dirlookup := (dirlookup devsw).
Local Notation dirlink := (dirlink ilock_addr devsw).
Local Notation namei := (namei ilock_addr devsw).
Local Notation nameiparent := (nameiparent ilock_addr devsw).

Definition argfd (n : Z) : M (sys T) (option (nat * nat)) := reads (fun s =>
  fd ← argint s n;
  if (fd <? 0) || (Z.of_nat NOFILE <=? fd) then None
  else pair (Z.to_nat fd) <$> (ofile s !!! Z.to_nat fd)).

Definition fdalloc (f : nat) : M (sys T) Z :=
  let! s := get in
  match find_index (fun o => bool_decide (o = None)) (ofile s) with
  | Some fd => modify (set_fds (<[fd := Some f]> (ofile s))) ;; ret (Z.of_nat fd)
  | None => ret (-1)
  end.

Definition sys_dup : M (sys T) Z :=
  let! a := argfd 0 in
  match a with
  | None => ret (-1)
  | Some (_, f) =>
      let! fd := fdalloc f in
      if fd <? 0 then ret (-1) else filedup f ;; ret fd
  end.

(** Bytes stored in user memory. *)
Definition copyout (p : Z) (bs : list Z) : M (sys T) unit :=
  modify (fun s => set_umem (splice (Z.to_nat p) bs (umem s)) s).

(** The file, the count and the buffer of [sys_read] and [sys_write]. *)
Definition arg_buffer : M (sys T) (option (nat * Z * Z)) :=
  let! a := argfd 0 in
  reads (fun s =>
    '(_, f) ← a;
    n ← argint s 2;
    p ← argptr s 1 n;
    Some (f, n, p)).

Definition sys_read : M (sys T) Z :=
  let! a := arg_buffer in
  match a with
  | None => ret (-1)
  | Some (f, n, p) =>
      let! r := fileread ilock_addr devsw f n in
      copyout p (snd r) ;;
      ret (fst r)
  end.

Definition sys_write : M (sys T) Z :=
  let! a := arg_buffer in
  match a with
  | None => ret (-1)
  | Some (f, n, p) =>
      let! m := reads umem in
      filewrite ilock_addr devsw f (slice (Z.to_nat p) (Z.to_nat n) m) n
  end.

Definition sys_close : M (sys T) Z :=
  let! a := argfd 0 in
  match a with
  | None => ret (-1)
  | Some (fd, f) =>
      modify (fun s => set_fds (<[fd := None]> (ofile s)) s) ;;
      fileclose f ;;
      ret 0
  end.

(** [struct stat] as [stati] fills it: the two bytes after each short are
    not written. *)
Definition put_stat (p : nat) (st : stat) (d : list Z) : list Z :=
  let d := set16 d p (st_type st) in
  let d := set32 d (p + 4) (st_dev st) in
  let d := set32 d (p + 8) (st_ino st) in
  let d := set16 d (p + 12) (st_nlink st) in
  set32 d (p + 16) (st_size st).

Definition sys_fstat : M (sys T) Z :=
  let! a := argfd 0 in
  let! p := reads (fun s => argptr s 1 20) in
  match a, p with
  | Some (_, f), Some p =>
      let! st := filestat ilock_addr f in
      match st with
      | Some st =>
          modify (fun s => set_umem (put_stat (Z.to_nat p) st (umem s)) s) ;;
          ret 0
      | None => ret (-1)
      end
  | _, _ => ret (-1)
  end.

(** [end_op(); return r] *)
Definition op_return {A} (r : A) : M (sys T) A := op_end ;; ret r.

(** The label [bad] of [sys_link]. *)
Definition link_bad (ip : nat) : M (sys T) Z :=
  fsm (ilock ip) ;;
  fsm (updnode ip (fun n => set_nlink (i16 (i_nlink n - 1)) n)) ;;
  fsm (iupdate ip) ;;
  fsm (iunlockput ip) ;;
  op_return (-1).

(** [sys_link] from the lookup of the new name on. *)
Definition link_new (ip : nat) (new : list Z) : M (sys T) Z :=
  let! r := fsm (nameiparent new junk) in
  match fst r with
  | None => link_bad ip
  | Some dp =>
      fsm (ilock dp) ;;
      let! x := fsm (getip ip) in
      let! d := fsm (getip dp) in
      let! fails := if negb (i_dev d =? i_dev x) then ret true
                    else let! c := fsm (dirlink dp (snd r) (i_inum x)) in ret (c <? 0) in
      if fails then
        fsm (iunlockput dp) ;;
        link_bad ip
      else
        fsm (iunlockput dp) ;;
        fsm (iput ip) ;;
        op_return 0
  end.

Definition sys_link : M (sys T) Z :=
  let! old := reads (fun s => argpath s 0) in
  let! new := reads (fun s => argpath s 1) in
  match old, new with
  | Some old, Some new =>
      op_begin ;;
      let! ip := fsm (namei old) in
      match ip with
      | None => op_return (-1)
      | Some ip =>
          fsm (ilock ip) ;;
          let! x := fsm (getip ip) in
          if i_type (i_node x) =? T_DIR then
            fsm (iunlockput ip) ;;
            op_return (-1)
          else
            fsm (updnode ip (fun n => set_nlink (i16 (i_nlink n + 1)) n)) ;;
            fsm (iupdate ip) ;;
            fsm (iunlock ip) ;;
            link_new ip new
      end
  | _, _ => ret (-1)
  end.

(** [for(off = 2*sizeof(de); off < dp->size; off += sizeof(de))] *)
Fixpoint isdirempty_loop (fuel : nat) (dp : nat) (off : Z) : M (fss T) bool :=
  let! x := getip dp in
  if off <? i_size (i_node x) then
    match fuel with
    | O => hang
    | S fuel =>
        let! de := readi devsw dp off dirent_size in
        if negb (fst de =? dirent_size) then panic "isdirempty: readi"
        else if negb (de_inum (snd de) =? 0) then ret false
        else isdirempty_loop fuel dp (off + dirent_size)
    end
  else ret true.
Definition isdirempty (dp : nat) : M (fss T) bool :=
  let! x := getip dp in
  isdirempty_loop (Z.to_nat (i_size (i_node x) / dirent_size + 1)) dp (2 * dirent_size).

(** The label [bad] of [sys_unlink]. *)
Definition unlink_bad (dp : nat) : M (sys T) Z :=
  fsm (iunlockput dp) ;;
  op_return (-1).

(** [sys_unlink] once the entry, at [off] of [dp], was found. *)
Definition unlink_entry (dp ip : nat) (off : Z) : M (sys T) Z :=
  fsm (ilock ip) ;;
  let! x := fsm (getip ip) in
  if i_nlink (i_node x) <? 1 then panic "unlink: nlink < 1"
  else
    let isdir := i_type (i_node x) =? T_DIR in
    let! busy := if isdir then let! e := fsm (isdirempty ip) in ret (negb e) else ret false in
    if busy then
      fsm (iunlockput ip) ;;
      unlink_bad dp
    else
      let! r := fsm (writei devsw dp (replicate 16 0) off dirent_size) in
      if negb (r =? dirent_size) then panic "unlink: writei"
      else
        when isdir
          (fsm (updnode dp (fun n => set_nlink (i16 (i_nlink n - 1)) n)) ;;
           fsm (iupdate dp)) ;;
        fsm (iunlockput dp) ;;
        fsm (updnode ip (fun n => set_nlink (i16 (i_nlink n - 1)) n)) ;;
        fsm (iupdate ip) ;;
        fsm (iunlockput ip) ;;
        op_return 0.

Definition dot : list Z := str "." ++ [0].
Definition dotdot : list Z := str ".." ++ [0].

Definition sys_unlink : M (sys T) Z :=
  let! path := reads (fun s => argpath s 0) in
  match path with
  | None => ret (-1)
  | Some path =>
      op_begin ;;
      let! r := fsm (nameiparent path junk) in
      match fst r with
      | None => op_return (-1)
      | Some dp =>
          fsm (ilock dp) ;;
          match namecmp (snd r) dot, namecmp (snd r) dotdot with
          | Some c1, Some c2 =>
              if (c1 =? 0) || (c2 =? 0) then unlink_bad dp
              else
                let! e := fsm (dirlookup dp (snd r)) in
                match e with
                | None => unlink_bad dp
                | Some (ip, off) => unlink_entry dp ip off
                end
          | _, _ => undefined
          end
      end
  end.

(** [create] when the name is new, in the locked directory [dp]. *)
Definition create_new (dp : nat) (name : list Z) (type major minor : Z) : M (fss T) nat :=
  let! d := getip dp in
  let! ip := ialloc (i_dev d) type in
  ilock ip ;;
  updnode ip (fun n => mk_dinode (i_type n) major minor 1 (i_size n) (i_addrs n)) ;;
  iupdate ip ;;
  let! x := getip ip in
  when (type =? T_DIR)
    (updnode dp (fun n => set_nlink (i16 (i_nlink n + 1)) n) ;;
     iupdate dp ;;
     let! r1 := dirlink ip dot (i_inum x) in
     if r1 <? 0 then panic "create dots"
     else
       let! d := getip dp in
       let! r2 := dirlink ip dotdot (i_inum d) in
       if r2 <? 0 then panic "create dots" else ret tt) ;;
  let! r := dirlink dp name (i_inum x) in
  if r <? 0 then panic "create: dirlink"
  else
    iunlockput dp ;;
    ret ip.

Definition create (path : list Z) (type major minor : Z) : M (fss T) (option nat) :=
  let! r := nameiparent path junk in
  match fst r with
  | None => ret None
  | Some dp =>
      ilock dp ;;
      let! e := dirlookup dp (snd r) in
      match e with
      | Some (ip, _) =>
          iunlockput dp ;;
          ilock ip ;;
          let! x := getip ip in
          if (type =? T_FILE) && (i_type (i_node x) =? T_FILE) then ret (Some ip)
          else
            iunlockput ip ;;
            ret None
      | None => let! ip := create_new dp (snd r) type major minor in ret (Some ip)
      end
  end.

Definition is_set (x bits : Z) : bool := negb (Z.land x bits =? 0).

(** The inode of [sys_open], locked; [None] where it has returned -1. *)
Definition open_inode (path : list Z) (omode : Z) : M (sys T) (option nat) :=
  if is_set omode O_CREATE then fsm (create path T_FILE 0 0)
  else
    let! ip := fsm (namei path) in
    match ip with
    | None => ret None
    | Some ip =>
        fsm (ilock ip) ;;
        let! x := fsm (getip ip) in
        if (i_type (i_node x) =? T_DIR) && negb (omode =? O_RDONLY) then
          fsm (iunlockput ip) ;;
          ret None
        else ret (Some ip)
    end.

(** The file and descriptor of [sys_open]; a file without one is closed. *)
Definition open_file : M (sys T) (option (nat * Z)) :=
  let! f := filealloc in
  match f with
  | None => ret None
  | Some f =>
      let! fd := fdalloc f in
      if fd <? 0 then fileclose f ;; ret None else ret (Some (f, fd))
  end.

Definition sys_open : M (sys T) Z :=
  let! path := reads (fun s => argpath s 0) in
  let! omode := reads (fun s => argint s 1) in
  match path, omode with
  | Some path, Some omode =>
      op_begin ;;
      let! ip := open_inode path omode in
      match ip with
      | None => op_return (-1)
      | Some ip =>
          let! o := open_file in
          match o with
          | None =>
              fsm (iunlockput ip) ;;
              op_return (-1)
          | Some (f, fd) =>
              fsm (iunlock ip) ;;
              op_end ;;
              updf f (fun x => mk_file FD_INODE (f_ref x) (negb (is_set omode O_WRONLY))
                (is_set omode O_WRONLY || is_set omode O_RDWR) (f_pipe x) ip 0) ;;
              ret fd
          end
      end
  | _, _ => ret (-1)
  end.

Definition sys_mkdir : M (sys T) Z :=
  op_begin ;;
  let! path := reads (fun s => argpath s 0) in
  let! ip := match path with None => ret None | Some path => fsm (create path T_DIR 0 0) end in
  match ip with
  | None => op_return (-1)
  | Some ip =>
      fsm (iunlockput ip) ;;
      op_return 0
  end.

Definition sys_mknod : M (sys T) Z :=
  op_begin ;;
  let! path := reads (fun s => argpath s 0) in
  let! major := reads (fun s => argint s 1) in
  let! minor := reads (fun s => argint s 2) in
  let! ip := match path, major, minor with
             | Some path, Some major, Some minor => fsm (create path T_DEV (i16 major) (i16 minor))
             | _, _, _ => ret None
             end in
  match ip with
  | None => op_return (-1)
  | Some ip =>
      fsm (iunlockput ip) ;;
      op_return 0
  end.

Definition set_mycwd (ip : nat) (s : fss T) : fss T := mk_fss (blk s) (sb s) (icache_lock s) (inodes s) (mypid s) ip.

Definition sys_chdir : M (sys T) Z :=
  op_begin ;;
  let! path := reads (fun s => argpath s 0) in
  let! ip := match path with None => ret None | Some path => fsm (namei path) end in
  match ip with
  | None => op_return (-1)
  | Some ip =>
      fsm (ilock ip) ;;
      let! x := fsm (getip ip) in
      if negb (i_type (i_node x) =? T_DIR) then
        fsm (iunlockput ip) ;;
        op_return (-1)
      else
        fsm (iunlock ip) ;;
        let! s := get in
        fsm (iput (mycwd (fs s))) ;;
        op_end ;;
        fsm (modify (set_mycwd ip)) ;;
        ret 0
  end.

(** The arguments of [sys_exec]: the strings up to a null pointer. *)
Fixpoint fetch_argv (s : sys T) (k : nat) (uargv : Z) : option (list (list Z)) :=
  match k with
  | O => None
  | S k =>
      uarg ← fetchint s uargv;
      if uarg =? 0 then Some []
      else
        a ← fetchstr s (u32 uarg);
        cons (ustring s a) <$> fetch_argv s k (u32 (uargv + 4))
  end.
Definition sys_exec_args (s : sys T) : option (list Z * list (list Z)) :=
  path ← argpath s 0;
  uargv ← argint s 1;
  argv ← fetch_argv s MAXARG (u32 uargv);
  Some (path, argv).

Definition sys_pipe : M (sys T) Z :=
  let! fd := reads (fun s => argptr s 0 8) in
  match fd with
  | None => ret (-1)
  | Some fd =>
      let! p := pipealloc kend ilock_addr in
      match p with
      | None => ret (-1)
      | Some (rf, wf) =>
          let! fd0 := fdalloc rf in
          let! fd1 := if fd0 <? 0 then ret (-1) else fdalloc wf in
          if (fd0 <? 0) || (fd1 <? 0) then
            when (0 <=? fd0) (modify (fun s => set_fds (<[Z.to_nat fd0 := None]> (ofile s)) s)) ;;
            fileclose rf ;;
            fileclose wf ;;
            ret (-1)
          else
            modify (fun s => set_umem (set32 (set32 (umem s) (Z.to_nat fd) fd0) (Z.to_nat fd + 4) fd1) s) ;;
            ret 0
      end
  end.
End sysfile.

(** ** Pointers from user code *)

Section safe.
Context {T : Type} (s : sys T).
Context (Hsz : 0 <= usz s <= KERNBASE) (Hmem : Z.of_nat (length (umem s)) = usz s).

Lemma fetchint_iff addr x : 0 <= addr < 2 ^ 32 ->
  fetchint s addr = Some x <-> addr + 4 <= usz s /\ x = i32 (get32 (umem s) (Z.to_nat addr)).
Proof.
  intros Ha. unfold fetchint, KERNBASE in *. destruct (usz s <=? addr) eqn:E1; btests; cbn [orb].
  - split; [done|]. lia.
  - rewrite u32_small by lia. destruct (usz s <? addr + 4) eqn:E2; btests; [split; [done | lia]|].
    split; [by intros [= <-] | by intros [_ ->]].
Qed.

Lemma argptr_iff n size p : - 2 ^ 31 <= size < 2 ^ 31 ->
  argptr s n size = Some p <->
  exists i, argint s n = Some i /\ p = u32 i /\ 0 <= size /\ p < usz s /\ p + size <= usz s.
Proof.
  intros Hs. unfold argptr. destruct (argint s n) as [i|]; cbn; [|split; [done | by intros (? & ? & _)]].
  pose proof (u32_range i) as Hi. unfold KERNBASE in *.
  destruct ((size <? 0) || (usz s <=? u32 i) || (usz s <? u32 (u32 i + size))) eqn:E.
  - split; [done|]. intros (j & [= <-] & -> & H1 & H2 & H3). rewrite (u32_small (u32 i + size)) in E by lia.
    apply orb_true_iff in E as [[E|E]%orb_true_iff|E]; btests; lia.
  - apply orb_false_iff in E as [[E1 E2]%orb_false_iff E3]. btests. rewrite (u32_small (u32 i + size)) in E3 by lia.
    split; [intros [= <-]; eauto 10 | by intros (j & [= <-] & -> & _)].
Qed.

Lemma argstr_bytes n a k :
  argstr s n = Some (a, k) ->
  0 <= a /\ a + Z.of_nat k < usz s /\
  exists bs, ustring s (a, k) = bs ++ [0] /\ length bs = k /\ Forall (fun b => b <> 0) bs.
Proof.
  unfold argstr. destruct (argint s n) as [i|]; cbn; [|done]. pose proof (u32_range i) as Hi. unfold fetchstr.
  destruct (usz s <=? u32 i) eqn:E; btests; [done|].
  destruct (find_index _ _) as [j|] eqn:Ef; cbn; [|done]. intros [= <- <-].
  apply find_index_Some in Ef as (x & Hx & Hb & Hbefore). apply Z.eqb_eq in Hb. subst x.
  rewrite lookup_take in Hx. case_decide as Hj; [|done]. rewrite lookup_drop in Hx. split; [lia|]. split; [lia|].
  exists (slice (Z.to_nat (u32 i)) j (umem s)). unfold ustring. cbn [fst snd]. split; [|split].
  - unfold slice. erewrite take_S_r; [done|]. by rewrite lookup_drop.
  - apply length_slice. lia.
  - apply Forall_lookup_2. intros m b Hm. rewrite lookup_slice in Hm. case_decide as Hmj; [|done].
    specialize (Hbefore m b Hmj). rewrite lookup_take_lt, lookup_drop in Hbefore by lia. specialize (Hbefore Hm). by apply Z.eqb_neq in Hbefore.
Qed.
End safe.

(** The kernel follows no pointer of a system call out of the memory of
    the process.  [argptr] accepts a buffer exactly when it begins and ends
    within it, [argint] reads a word exactly when all of it is, and the string
    of [argstr] is in it up to its nul, with no nul before; additions that
    would wrap around let nothing through. *)
Theorem arguments_safe {T} (s : sys T) n :
  0 <= usz s <= KERNBASE -> Z.of_nat (length (umem s)) = usz s ->
  let addr := u32 (uesp s + 4 + 4 * n) in
  (forall x, argint s n = Some x <-> addr + 4 <= usz s /\ x = i32 (get32 (umem s) (Z.to_nat addr))) /\
  (forall size p, - 2 ^ 31 <= size < 2 ^ 31 ->
     argptr s n size = Some p <->
     exists i, argint s n = Some i /\ p = u32 i /\ 0 <= size /\ p < usz s /\ p + size <= usz s) /\
  (forall a k, argstr s n = Some (a, k) ->
     0 <= a /\ a + Z.of_nat k < usz s /\
     exists bs, ustring s (a, k) = bs ++ [0] /\ length bs = k /\ Forall (fun b => b <> 0) bs).
Proof.
  intros Hsz Hmem addr. split; [intros x; apply fetchint_iff; [done | apply u32_range]|]. split.
  - intros size p Hs. by apply argptr_iff.
  - intros a k. by apply argstr_bytes.
Qed.

(** A process with 16 bytes whose first argument is the address 8. *)
Definition tiny_sys : sys unit :=
  mk_sys (mk_fss tt (mk_superblock 0 0 0 0 0 0 0) false [] 0 0) false [] ∅ small_kmem [] [] false 16 0
    (replicate 4 0 ++ le_enc 4 8 ++ str "tmp" ++ [0] ++ replicate 4 1).

Lemma arguments_safe_witness :
  argptr tiny_sys 0 8 = Some 8 /\ argptr tiny_sys 0 9 = None /\ ustring tiny_sys (8, 3%nat) = str "tmp" ++ [0].
Proof.
  destruct (arguments_safe tiny_sys 0) as (H1 & H2 & H3); [by vm_compute | by vm_compute |].
  split; [apply H2; [lia|]; exists 8; by vm_compute|]. split.
  - destruct (argptr tiny_sys 0 9) as [p|] eqn:E; [|done]. apply H2 in E as (i & E & -> & _ & _ & Hp); [|lia].
    apply H1 in E as [_ ->]. by vm_compute in Hp.
  - destruct (H3 8 3%nat) as (_ & _ & bs & E & Hl & _); [by vm_compute|]. by vm_compute.
Defined.
