(* ===== verification/FileInv.v ===== *)
(** * Descriptors, open files and pipes

    Every system call on files keeps the tables consistent, whether it
    returns or goes to sleep: the count in an open file is the number of
    descriptors that refer to it, a pipe lives in a page of its own as long
    as one of its ends is open, and each end belongs to one open file. *)

From S2P Require Import Prelude Cstring Kalloc Blocks Fs File Sysfile.
From S2P Require Pipe.

(** [m] returns in a state with [Q] or sleeps in a state with [R]; it may
    also panic. *)
Definition runs {S A} (R : S -> Prop) (m : M S A) (Q : A -> S -> Prop) (s : S) : Prop :=
  match m s with Ret a s' => Q a s' | Sleep _ s' => R s' | _ => True end.

Section runs_rules.
Context {S A : Type} (R : S -> Prop).
Implicit Types (s : S).

Lemma runs_ret (a : A) (Q : A -> S -> Prop) s : Q a s -> runs R (ret a) Q s.
Proof. exact id. Qed.
Lemma runs_panic msg (Q : A -> S -> Prop) s : runs R (panic msg) Q s.
Proof. exact I. Qed.
Lemma runs_modify f (Q : unit -> S -> Prop) s : Q tt (f s) -> runs R (modify f) Q s.
Proof. exact id. Qed.
Lemma runs_reads (f : S -> A) (Q : A -> S -> Prop) s : Q (f s) s -> runs R (reads f) Q s.
Proof. exact id. Qed.
Lemma runs_get (Q : S -> S -> Prop) s : Q s s -> runs R get Q s.
Proof. exact id. Qed.
Lemma runs_bind {B} (m : M S B) (k : B -> M S A) (Q : A -> S -> Prop) s :
  runs R m (fun b s' => runs R (k b) Q s') s -> runs R (bind m k) Q s.
Proof. unfold runs, bind. by destruct (m s). Qed.
Lemma runs_mono (m : M S A) (P Q : A -> S -> Prop) s :
  runs R m P s -> (forall a s', P a s' -> Q a s') -> runs R m Q s.
Proof. unfold runs. destruct (m s); auto. Qed.
Lemma runs_when b (m : M S unit) (Q : unit -> S -> Prop) s :
  (b = true -> runs R m Q s) -> (b = false -> Q tt s) -> runs R (when b m) Q s.
Proof. destruct b; cbn; auto. Qed.
End runs_rules.

(** ** Counting descriptors *)

Definition fds (f : nat) (l : list (option nat)) : Z := Z.of_nat (length (filter (fun x => x = Some f) l)).
Definition one (b : Prop) `{Decision b} : Z := if decide b then 1 else 0.

Lemma fds_nonneg f l : 0 <= fds f l.
Proof. unfold fds. lia. Qed.

Lemma fds_cons f x l : fds f (x :: l) = one (x = Some f) + fds f l.
Proof.
  unfold fds, one. rewrite filter_cons. case_decide; cbn [length]; lia.
Qed.

Lemma fds_insert f l i x y : l !! i = Some x -> fds f (<[i := y]> l) = fds f l - one (x = Some f) + one (y = Some f).
Proof.
  revert i. induction l as [|z l IH]; intros [|i] Hi; try done.
  - injection Hi as ->. change (<[0%nat := y]> (x :: l)) with (y :: l). rewrite !fds_cons. lia.
  - change (<[Datatypes.S i := y]> (z :: l)) with (z :: <[i := y]> l). rewrite !fds_cons, (IH i Hi). lia.
Qed.

Lemma fds_pos f l i : l !! i = Some (Some f) -> 1 <= fds f l.
Proof.
  intros Hi. pose proof (fds_insert f l i _ None Hi) as E. pose proof (fds_nonneg f (<[i := None]> l)).
  unfold one in E. rewrite decide_True, decide_False in E by done. lia.
Qed.

(** ** The invariant *)

(** [o f] descriptors outside this process refer to open file [f]. *)
Record refs_ok (o : nat -> Z) (fl : list file) (l : list (option nat)) : Prop := {
  v_files : length fl = NFILE;
  v_fds : length l = NOFILE;
  v_ref f : (f < NFILE)%nat -> f_ref (fl !!! f) = o f + fds f l;
  v_range i f : l !! i = Some (Some f) -> (f < NFILE)%nat;
}.

Definition is_end (fl : list file) (p : Z) (w : bool) (f : nat) : Prop :=
  (f < NFILE)%nat /\ f_type (fl !!! f) = FD_PIPE /\ f_pipe (fl !!! f) = p /\ f_writable (fl !!! f) = w.
Definition is_open (w : bool) (pi : Pipe.pipe) : bool := if w then Pipe.writeopen pi else Pipe.readopen pi.

Record pipes_ok (kend : Z) (fl : list file) (ps : gmap Z Pipe.pipe) (k : kmem_t) : Prop := {
  v_none f : (f < NFILE)%nat -> f_ref (fl !!! f) = 0 -> f_type (fl !!! f) = FD_NONE;
  v_end p w f : is_end fl p w f -> exists pi, ps !! p = Some pi /\ is_open w pi = true;
  v_open p pi w : ps !! p = Some pi -> is_open w pi = true -> exists f, is_end fl p w f;
  v_some p pi : ps !! p = Some pi -> Pipe.readopen pi || Pipe.writeopen pi = true;
  v_uniq p w f g : is_end fl p w f -> is_end fl p w g -> f = g;
  v_mem : exists l, Kalloc.inv kend k l /\ forall p, is_Some (ps !! p) -> good_page kend p /\ p ∉ l;
}.

(** [o'] counts one descriptor of [f] more than [o]. *)
Definition more (f : nat) (o o' : nat -> Z) : Prop := forall g, o' g = o g + one (g = f).

Definition bump (f : nat) (o : nat -> Z) : nat -> Z := fun g => o g + one (g = f).

Lemma bump_more f o : more f o (bump f o).
Proof. done. Qed.

(** ** Changes of the tables *)

Lemma refs_ok_alter o o' fl l f g d :
  refs_ok o fl l -> (f < NFILE)%nat -> f_ref (g (fl !!! f)) = f_ref (fl !!! f) + d ->
  (forall h, o' h = o h + if decide (h = f) then d else 0) -> refs_ok o' (alter g f fl) l.
Proof.
  intros [H1 H2 H3 H4] Hf Hg Ho. split; [by rewrite length_alter | done | | done].
  intros h Hh. rewrite Ho. destruct (decide (h = f)) as [->|Hne].
  - rewrite alter_at by lia. rewrite Hg, H3 by done. lia.
  - rewrite list_lookup_total_alter_ne by done. rewrite H3 by done. lia.
Qed.

Lemma refs_ok_fd o o' fl l i x y :
  refs_ok o fl l -> l !! i = Some x -> (forall f, y = Some f -> (f < NFILE)%nat) ->
  (forall f, o' f + one (y = Some f) = o f + one (x = Some f)) -> refs_ok o' fl (<[i := y]> l).
Proof.
  intros [H1 H2 H3 H4] Hi Hy Ho. split; [done | by rewrite length_insert | |].
  - intros f Hf. rewrite (fds_insert f l i x y Hi), H3 by done. specialize (Ho f). lia.
  - intros j f Hj. destruct (decide (j = i)) as [->|Hne].
    + rewrite list_lookup_insert_eq in Hj by by eapply lookup_lt_Some. injection Hj as ->. by apply Hy.
    + rewrite list_lookup_insert_ne in Hj by done. by apply (H4 j).
Qed.

(** The two files are the same end of the same pipe, or no end of any. *)
Definition same_end (x y : file) : Prop :=
  (f_type x = FD_PIPE <-> f_type y = FD_PIPE) /\
  (f_type x = FD_PIPE -> f_pipe y = f_pipe x /\ f_writable y = f_writable x).

Lemma is_end_alter fl f g p w h :
  (f < length fl)%nat -> same_end (fl !!! f) (g (fl !!! f)) -> is_end (alter g f fl) p w h <-> is_end fl p w h.
Proof.
  intros Hf [E1 E2]. unfold is_end. destruct (decide (h = f)) as [->|Hne].
  - rewrite alter_at by done. rewrite <- E1. split; intros (? & Ht & ? & ?); destruct (E2 Ht); split_and!; congruence.
  - by rewrite list_lookup_total_alter_ne.
Qed.

Lemma pipes_ok_alter kend fl f g ps k :
  length fl = NFILE -> (f < NFILE)%nat -> pipes_ok kend fl ps k -> same_end (fl !!! f) (g (fl !!! f)) ->
  (f_ref (g (fl !!! f)) = 0 -> f_type (g (fl !!! f)) = FD_NONE) -> pipes_ok kend (alter g f fl) ps k.
Proof.
  intros Hl Hf [P1 P2 P3 P4 P5 P6] E H0. assert (f < length fl)%nat as Hf' by lia. split; [| | | done | | done].
  - intros h Hh. destruct (decide (h = f)) as [->|Hne]; [by rewrite alter_at|].
    rewrite list_lookup_total_alter_ne by done. by apply P1.
  - intros p w h He%is_end_alter; [|done..]. by apply (P2 p w h).
  - intros p pi w Hp Ho. destruct (P3 p pi w Hp Ho) as [h Hh]. exists h. by apply is_end_alter.
  - intros p w h1 h2 He1%is_end_alter He2%is_end_alter; [|done..]. by apply (P5 p w).
Qed.

(** A pipe whose ends stay open. *)
Lemma pipes_ok_insert kend fl ps k p pi pi' :
  pipes_ok kend fl ps k -> ps !! p = Some pi -> (forall w, is_open w pi' = is_open w pi) -> pipes_ok kend fl (<[p := pi']> ps) k.
Proof.
  intros [P1 P2 P3 P4 P5 P6] Hp Ho. split; [done | | | | done |].
  - intros q w f He. destruct (P2 q w f He) as (pj & Hq & Hw). destruct (decide (q = p)) as [->|Hne].
    + exists pi'. rewrite lookup_insert_eq, Ho. split; congruence.
    + exists pj. by rewrite lookup_insert_ne.
  - intros q pj w Hq Hw. destruct (decide (q = p)) as [->|Hne].
    + rewrite lookup_insert_eq in Hq. injection Hq as <-. rewrite Ho in Hw. by apply (P3 p pi w).
    + rewrite lookup_insert_ne in Hq by done. by apply (P3 q pj w).
  - intros q pj Hq. destruct (decide (q = p)) as [->|Hne].
    + rewrite lookup_insert_eq in Hq. injection Hq as <-. pose proof (Ho true) as E1. pose proof (Ho false) as E2. cbn in E1, E2.
      rewrite E1, E2. by apply (P4 p).
    + rewrite lookup_insert_ne in Hq by done. by apply (P4 q).
  - destruct P6 as (l & Hk & Hd). exists l. split; [done|]. intros q [<-|Hq]%lookup_insert_is_Some'; apply Hd; [by eexists | done].
Qed.

(** An end of a pipe is closed: its file is given up first. *)
Section close.
Context (kend : Z) (Hkend : KERNBASE < kend <= KERNBASE + PHYSTOP) (fl : list file) (ps : gmap Z Pipe.pipe) (k : kmem_t) (f : nat) (p : Z) (w : bool).
Context (g : file -> file) (Hg : f_type (g (fl !!! f)) = FD_NONE).
Context (Hl : length fl = NFILE) (P : pipes_ok kend fl ps k) (He : is_end fl p w f).

Lemma close_end q v h : is_end (alter g f fl) q v h <-> is_end fl q v h /\ h <> f.
Proof.
  pose proof (proj1 He) as Hf. unfold is_end. destruct (decide (h = f)) as [->|Hne].
  - rewrite alter_at by lia. rewrite Hg. naive_solver.
  - rewrite list_lookup_total_alter_ne by done. naive_solver.
Qed.

Lemma close_none h : (h < NFILE)%nat -> f_ref (alter g f fl !!! h) = 0 -> f_type (alter g f fl !!! h) = FD_NONE.
Proof.
  intros Hh. destruct (decide (h = f)) as [->|Hne]; [by rewrite alter_at by lia|].
  rewrite list_lookup_total_alter_ne by done. by apply (v_none _ _ _ _ P).
Qed.

Lemma close_other q v h : is_end fl q v h -> h <> f -> q <> p \/ v = negb w.
Proof.
  intros Hh Hne. destruct (decide (q = p)) as [->|]; [right|by left].
  destruct v, w; try done; destruct Hne; by eapply (v_uniq _ _ _ _ P).
Qed.

Lemma pipes_ok_close pi pi' :
  ps !! p = Some pi -> is_open w pi' = false -> is_open (negb w) pi' = is_open (negb w) pi ->
  Pipe.readopen pi' || Pipe.writeopen pi' = true -> pipes_ok kend (alter g f fl) (<[p := pi']> ps) k.
Proof.
  intros Hp Hw Hn Hs. split.
  - apply close_none.
  - intros q v h [Hh Hne]%close_end. destruct (v_end _ _ _ _ P q v h Hh) as (pj & Hq & Hv).
    destruct (decide (q = p)) as [->|Hqp]; [|exists pj; by rewrite lookup_insert_ne].
    exists pi'. rewrite lookup_insert_eq. split; [done|].
    destruct (close_other p v h Hh Hne) as [?|Hvw]; [done|]. rewrite Hvw, Hn, <- Hvw. congruence.
  - intros q pj v Hq Hv. destruct (decide (q = p)) as [->|Hqp].
    + rewrite lookup_insert_eq in Hq. injection Hq as <-.
      assert (v = negb w) as Hvw by (destruct v, w; try done; congruence).
      rewrite Hvw, Hn in Hv. destruct (v_open _ _ _ _ P p pi _ Hp Hv) as [h Hh]. exists h. rewrite Hvw. apply close_end.
      split; [done|]. intros ->. destruct Hh as (_ & _ & _ & H1), He as (_ & _ & _ & H2). rewrite H1 in H2. by destruct w.
    + rewrite lookup_insert_ne in Hq by done. destruct (v_open _ _ _ _ P q pj v Hq Hv) as [h Hh]. exists h. apply close_end.
      split; [done|]. intros ->. destruct Hh as (_ & _ & H1 & _), He as (_ & _ & H2 & _). congruence.
  - intros q pj Hq. destruct (decide (q = p)) as [->|Hqp].
    + rewrite lookup_insert_eq in Hq. by injection Hq as <-.
    + rewrite lookup_insert_ne in Hq by done. by apply (v_some _ _ _ _ P q).
  - intros q v h1 h2 [Hh1 _]%close_end [Hh2 _]%close_end. by apply (v_uniq _ _ _ _ P q v).
  - destruct (v_mem _ _ _ _ P) as (l & Hk & Hd). exists l. split; [done|].
    intros q [<-|Hq]%lookup_insert_is_Some'; apply Hd; [by eexists | done].
Qed.

Lemma pipes_ok_free pi :
  ps !! p = Some pi -> is_open (negb w) pi = false ->
  exists k', kfree kend p k = Ret tt k' /\ pipes_ok kend (alter g f fl) (delete p ps) k'.
Proof.
  intros Hp Hn. destruct (v_mem _ _ _ _ P) as (l & Hk & Hd). destruct (Hd p ltac:(by eexists)) as [Hgp Hnl].
  destruct (kfree_spec kend Hkend p k l Hk Hgp Hnl) as (k' & E & Hk' & _). exists k'. split; [done|]. split.
  - apply close_none.
  - intros q v h [Hh Hne]%close_end. destruct (v_end _ _ _ _ P q v h Hh) as (pj & Hq & Hv). exists pj.
    destruct (decide (q = p)) as [->|Hqp]; [|by rewrite lookup_delete_ne].
    destruct (close_other p v h Hh Hne) as [?|Hvw]; [done|]. rewrite Hvw in Hv. congruence.
  - intros q pj v [Hqp Hq]%lookup_delete_Some Hv. destruct (v_open _ _ _ _ P q pj v Hq Hv) as [h Hh]. exists h. apply close_end.
    split; [done|]. intros ->. destruct Hh as (_ & _ & H1 & _), He as (_ & _ & H2 & _). congruence.
  - intros q pj [_ Hq]%lookup_delete_Some. by apply (v_some _ _ _ _ P q).
  - intros q v h1 h2 [Hh1 _]%close_end [Hh2 _]%close_end. by apply (v_uniq _ _ _ _ P q v).
  - exists (p :: l). split; [done|]. intros q [pj [Hqp Hq]%lookup_delete_Some]. destruct (Hd q ltac:(by eexists)).
    split; [done|]. set_solver.
Qed.
End close.

(** A new pipe in page [p], with its ends in files [r] and [w]. *)
Section new.
Context (kend : Z) (fl : list file) (ps : gmap Z Pipe.pipe) (k k' : kmem_t) (p : Z) (l : list Z) (r w : nat).
Context (gr gw : file -> file) (pi : Pipe.pipe).
Context (Hl : length fl = NFILE) (P : pipes_ok kend fl ps k).
Context (Hr : (r < NFILE)%nat) (Hw : (w < NFILE)%nat) (Hrw : r <> w).
Context (Tr : f_type (fl !!! r) = FD_NONE) (Tw : f_type (fl !!! w) = FD_NONE).
Context (Hgr : f_type (gr (fl !!! r)) = FD_PIPE /\ f_pipe (gr (fl !!! r)) = p /\ f_writable (gr (fl !!! r)) = false /\ f_ref (gr (fl !!! r)) <> 0).
Context (Hgw : f_type (gw (fl !!! w)) = FD_PIPE /\ f_pipe (gw (fl !!! w)) = p /\ f_writable (gw (fl !!! w)) = true /\ f_ref (gw (fl !!! w)) <> 0).
Context (Hpi : Pipe.readopen pi = true /\ Pipe.writeopen pi = true).
Context (Hk : Kalloc.inv kend k (p :: l)) (Hk' : Kalloc.inv kend k' l).
Context (Hd : forall q, is_Some (ps !! q) -> good_page kend q /\ q ∉ p :: l).
Let fl' := alter gw w (alter gr r fl).

Lemma new_at h : (h < NFILE)%nat -> fl' !!! h = if decide (h = w) then gw (fl !!! w) else if decide (h = r) then gr (fl !!! r) else fl !!! h.
Proof.
  intros Hh. unfold fl'. case_decide as E1; [subst h; rewrite alter_at by (rewrite length_alter; lia)|].
  - by rewrite list_lookup_total_alter_ne.
  - rewrite list_lookup_total_alter_ne by done. case_decide as E2; [subst h; by rewrite alter_at by lia|].
    by rewrite list_lookup_total_alter_ne.
Qed.

Lemma new_fresh : ps !! p = None.
Proof. destruct (ps !! p) eqn:E; [|done]. destruct (Hd p ltac:(by eexists)) as [_ Hn]. set_solver. Qed.

Lemma new_end q v h : is_end fl' q v h <-> (q = p /\ h = (if v then w else r)) \/ (q <> p /\ is_end fl q v h).
Proof.
  destruct Hgr as (R1 & R2 & R3 & _), Hgw as (W1 & W2 & W3 & _). split.
  - intros (Hh & Ht & Hp & Hv). rewrite new_at in Ht, Hp, Hv by done. case_decide as E1; [|case_decide as E2].
    + subst h. left. rewrite W2 in Hp. rewrite W3 in Hv. by subst v.
    + subst h. left. rewrite R2 in Hp. rewrite R3 in Hv. by subst v.
    + right. assert (is_end fl q v h) as He by done. split; [|done]. intros ->.
      destruct (v_end _ _ _ _ P p v h He) as (pj & Hpj & _). by rewrite new_fresh in Hpj.
  - intros [[-> ->]|[Hq (Hh & Ht & Hp & Hv)]].
    + destruct v; (split; [done|]); rewrite new_at by done.
      * by rewrite decide_True by done.
      * by rewrite decide_False, decide_True by done.
    + split; [done|]. rewrite new_at by done. case_decide as E1; [congruence|]. by case_decide as E2; [congruence|].
Qed.

Lemma pipes_ok_new : pipes_ok kend fl' (<[p := pi]> ps) k'.
Proof.
  split.
  - intros h Hh. rewrite new_at by done. case_decide; [by intros; destruct Hgw as (_ & _ & _ & ?)|].
    case_decide; [by intros; destruct Hgr as (_ & _ & _ & ?)|]. by apply (v_none _ _ _ _ P).
  - intros q v h [[-> ->]|[Hq He]]%new_end.
    + exists pi. rewrite lookup_insert_eq. split; [done|]. by destruct v; apply Hpi.
    + rewrite lookup_insert_ne by done. by apply (v_end _ _ _ _ P q v h).
  - intros q pj v Hq Hv. destruct (decide (q = p)) as [->|Hqp]; [eexists; apply new_end; by left|].
    rewrite lookup_insert_ne in Hq by done. destruct (v_open _ _ _ _ P q pj v Hq Hv) as [h Hh]. exists h. apply new_end. by right.
  - intros q pj Hq. destruct (decide (q = p)) as [->|Hqp].
    + rewrite lookup_insert_eq in Hq. injection Hq as <-. by rewrite (proj1 Hpi).
    + rewrite lookup_insert_ne in Hq by done. by apply (v_some _ _ _ _ P q).
  - intros q v h1 h2 [[-> ->]|[H1 He1]]%new_end [[E2 ->]|[H2 He2]]%new_end; try done. by apply (v_uniq _ _ _ _ P q v).
  - exists l. split; [done|]. pose proof Hk as (_ & _ & Hnd & Hg & _). apply NoDup_cons in Hnd as [Hpl _]. apply Forall_cons in Hg as [Hgp _].
    intros q [<-|Hq]%lookup_insert_is_Some'; [done|]. destruct (Hd q Hq). split; [done|]. set_solver.
Qed.
End new.

Section inv.
Context {T : Type} {IO : BlockIO T} {TR : Trans T}.
Context (kend : Z) (Hkend : KERNBASE < kend <= KERNBASE + PHYSTOP).
Context (ilock_addr : nat -> Z) (devsw : Z -> device (T := T)) (junk : list Z).
Implicit Types (s : sys T) (o : nat -> Z).

Definition fd_inv o s : Prop :=
  ft_lock s = false /\ refs_ok o (files s) (ofile s) /\ pipes_ok kend (files s) (pipes s) (File.km s).

(** Code of the file system changes none of these. *)
Lemma runs_fsm {A} (R P : sys T -> Prop) (m : M (fss T) A) (Q : A -> sys T -> Prop) s :
  P s -> (forall t, P s -> R (set_fs t s)) -> (forall a t, P s -> Q a (set_fs t s)) -> runs R (fsm m) Q s.
Proof. intros HP HR HQ. unfold runs, fsm, zoom. destruct (m (fs s)); auto. Qed.

Lemma fd_inv_fs o s t : fd_inv o s -> fd_inv o (set_fs t s).
Proof. exact id. Qed.

Lemma alter_twice {A} (g h : A -> A) i (l : list A) : alter g i (alter h i l) = alter (fun x => g (h x)) i l.
Proof. apply list_eq. intros j. rewrite !list_lookup_alter. repeat case_decide; try done. by destruct (l !! i). Qed.

(** *** Files *)

Lemma filealloc_law o s :
  fd_inv o s -> exists r s', filealloc s = Ret r s' /\ ofile s' = ofile s /\
    match r with
    | None => s' = s
    | Some f => fd_inv (bump f o) s' /\ (f < NFILE)%nat /\ files s' = alter (set_fref 1) f (files s) /\
        f_ref (files s !!! f) = 0 /\ f_type (files s !!! f) = FD_NONE
    end.
Proof.
  intros (Hk & R & P). unfold filealloc. unfold bind at 1, acquire_ft. rewrite Hk. unfold bind at 1, get. cbn [files set_ftlock].
  destruct (find_index _ (files s)) as [f|] eqn:E.
  - apply find_index_Some in E as (x & Hx & Hb & _). apply Z.eqb_eq in Hb. pose proof (lookup_lt_Some _ _ _ Hx) as Hf.
    rewrite (v_files _ _ _ R) in Hf. pose proof (list_lookup_total_correct _ _ _ Hx) as Ex.
    assert (f_ref (files s !!! f) = 0) as H0 by by rewrite Ex. pose proof (v_none _ _ _ _ P f Hf H0) as Hty.
    eexists _, _. split; [reflexivity|]. split; [done|]. split; [|done]. split; [done|]. cbn. split.
    + apply (refs_ok_alter o _ _ _ f _ 1); [done | done | cbn; lia | done].
    + apply pipes_ok_alter; [apply R | done | done | by split | done].
  - eexists _, _. split; [reflexivity|]. split; [done|]. destruct s; cbn in *; by subst.
Qed.

Lemma fdalloc_law o o' s f :
  fd_inv o' s -> more f o o' -> (f < NFILE)%nat ->
  exists r s', fdalloc f s = Ret r s' /\ files s' = files s /\
    (r = -1 /\ s' = s \/ exists fd : nat, r = Z.of_nat fd /\ fd_inv o s' /\ ofile s' = <[fd := Some f]> (ofile s) /\ ofile s !! fd = Some None).
Proof.
  intros (Hk & R & P) Ho Hf. unfold fdalloc. unfold bind at 1, get. destruct (find_index _ (ofile s)) as [fd|] eqn:E.
  - apply find_index_Some in E as (x & Hx & Hb & _). apply bool_decide_eq_true in Hb. subst x.
    eexists _, _. split; [reflexivity|]. split; [done|]. right. exists fd. split; [done|]. split; [|done].
    split; [done|]. split; [|done]. apply (refs_ok_fd o' o _ _ fd None); [done | done | by intros ? [= <-] |].
    intros g. rewrite (Ho g). unfold one. repeat case_decide; try lia; naive_solver.
  - eexists _, _. split; [reflexivity|]. split; [done|]. by left.
Qed.

Lemma filedup_law o o' s f :
  fd_inv o s -> more f o o' -> (f < NFILE)%nat -> 1 <= f_ref (files s !!! f) ->
  exists s', filedup f s = Ret f s' /\ fd_inv o' s'.
Proof.
  intros (Hk & R & P) Ho Hf Hr. unfold filedup. unfold bind at 1, acquire_ft. rewrite Hk. unfold bind at 1, getf, reads. cbn [files set_ftlock].
  rewrite (proj2 (Z.ltb_ge _ _)) by lia. eexists. split; [reflexivity|]. split; [done|]. cbn. split.
  - apply (refs_ok_alter o _ _ _ f _ 1); [done | done | done | exact Ho].
  - apply pipes_ok_alter; [apply R | done | done | by split | cbn; lia].
Qed.

(** *** Closing *)

Lemma fileclose_more s f o o' :
  fd_inv o' s -> more f o o' -> (f < NFILE)%nat -> 1 < f_ref (files s !!! f) ->
  fd_inv o (set_files (alter (set_fref (f_ref (files s !!! f) - 1)) f (files s)) s).
Proof.
  intros (Hk & R & P) Ho Hf Hr. split; [done|]. cbn. split.
  - apply (refs_ok_alter o' _ _ _ f _ (-1)); [done | done | done|]. intros h. rewrite (Ho h). unfold one. case_decide; lia.
  - apply pipes_ok_alter; [apply R | done | done | by split | cbn; lia].
Qed.

Lemma runs_fs {A} o (m : M (fss T) A) s : fd_inv o s -> runs (fd_inv o) (fsm m) (fun _ s' => exists t, s' = set_fs t s) s.
Proof. intros H. by eapply runs_fsm; [exact H | intros t; apply fd_inv_fs | intros a t _; by exists t]. Qed.

Ltac fs_step := first [apply runs_bind | idtac]; eapply runs_mono; [by apply runs_fs|]; intros ? ? [? ->]; cbn beta.

Lemma pipe_close_law o s f p w pi :
  let fl := alter (fun x => set_none (set_fref 0 x)) f (files s) in
  ft_lock s = false -> refs_ok o fl (ofile s) -> length (files s) = NFILE -> pipes_ok kend (files s) (pipes s) (File.km s) ->
  is_end (files s) p w f -> pipes s !! p = Some pi ->
  exists s', pipe_close kend p w (set_files fl s) = Ret tt s' /\ fd_inv o s' /\ files s' = fl /\ ofile s' = ofile s.
Proof.
  intros fl Hk R Hl P He Hp. unfold pipe_close. unfold bind at 1, get. cbn [pipes set_files]. rewrite Hp.
  set (pi' := fst (fst (Pipe.pipeclose p w pi))).
  assert (is_open w pi' = false /\ is_open (negb w) pi' = is_open (negb w) pi) as [Hw Hn] by by destruct w.
  assert (Pipe.pipeclose p w pi = (pi', [if w then Pipe.chan_nread p else Pipe.chan_nwrite p],
    negb (Pipe.readopen pi') && negb (Pipe.writeopen pi'))) as -> by done.
  destruct (negb (Pipe.readopen pi') && negb (Pipe.writeopen pi')) eqn:Eg.
  - assert (is_open (negb w) pi = false) as Hn0.
    { rewrite <- Hn. apply andb_true_iff in Eg as [E1%negb_true_iff E2%negb_true_iff]. by destruct w. }
    destruct (pipes_ok_free kend Hkend (files s) (pipes s) (File.km s) f p w (fun x => set_none (set_fref 0 x)) eq_refl Hl P He pi Hp Hn0)
      as (k' & E & P'). eexists. split.
    + unfold bind at 1, modify, wake_chans. unfold bind at 1, modify. cbn [when]. unfold kmm, zoom. cbn [File.km set_woken set_pipes set_files].
      rewrite E. reflexivity.
    + by split; [split|].
  - eexists. split; [reflexivity|]. split; [|done]. split; [done|]. split; [done|].
    apply (pipes_ok_close kend Hkend (files s) (pipes s) (File.km s) f p w (fun x => set_none (set_fref 0 x)) eq_refl Hl P He pi pi'); try done.
    apply andb_false_iff in Eg as [E%negb_false_iff|E%negb_false_iff]; rewrite E; [done | apply orb_true_r].
Qed.

(** The last reference to [f] is given up: its file, its count and its end. *)
Section last.
Context o o' s (f : nat) (Hinv : fd_inv o' s) (Ho : more f o o') (Hf : (f < NFILE)%nat) (Hr : f_ref (files s !!! f) = 1).
Let x := files s !!! f.
Let fl := alter (fun x => set_none (set_fref 0 x)) f (files s).

Lemma fileclose_eq :
  fileclose kend ilock_addr f s =
    match f_type x with
    | FD_PIPE => pipe_close kend (f_pipe x) (f_writable x)
    | FD_INODE => op_begin ;; fsm (iput ilock_addr (f_ip x)) ;; op_end
    | FD_NONE => ret tt
    end (set_files fl s).
Proof.
  pose proof Hinv as (Hk & R & P). unfold fileclose.
  unfold bind at 1, acquire_ft. rewrite Hk. unfold bind at 1, getf, reads. cbn [files set_ftlock]. rewrite Hr. fold x.
  change (1 <? 1) with false. change (1 - 1) with 0. change (0 <? 0) with false. cbv iota.
  unfold bind at 1, updf, modify. cbn [files set_ftlock]. unfold bind at 1. cbn [files set_files set_ftlock]. rewrite alter_twice. fold fl.
  unfold bind at 1, release_ft. cbn [ft_lock set_files set_ftlock]. f_equal. destruct s; cbn in *; by subst.
Qed.

Lemma last_refs : refs_ok o fl (ofile s).
Proof.
  pose proof Hinv as (_ & R & _). apply (refs_ok_alter o' _ _ _ f _ (-1)); [done | done | cbn; lia|].
  intros h. rewrite (Ho h). unfold one. case_decide; lia.
Qed.

Lemma last_inv : f_type x <> FD_PIPE -> fd_inv o (set_files fl s).
Proof.
  pose proof Hinv as (Hk & R & P). intros Hty. split; [done|]. split; [exact last_refs|].
  apply pipes_ok_alter; [apply R | done | done | split; by intros | done].
Qed.

Lemma fileclose_ret : f_type x <> FD_INODE -> exists s', fileclose kend ilock_addr f s = Ret tt s' /\ fd_inv o s' /\
  ofile s' = ofile s /\ forall g, g <> f -> files s' !!! g = files s !!! g.
Proof.
  intros Hty. pose proof Hinv as (Hk & R & P). rewrite fileclose_eq. destruct (f_type x) eqn:Et; [| |done].
  - eexists. split; [reflexivity|]. split; [apply last_inv; by rewrite Et|]. split; [done|].
    intros g Hg. cbn [files set_files]. unfold fl. by rewrite list_lookup_total_alter_ne.
  - assert (is_end (files s) (f_pipe x) (f_writable x) f) as He by done.
    destruct (v_end _ _ _ _ P _ _ _ He) as (pi & Hp & _).
    destruct (pipe_close_law o s f _ _ pi Hk last_refs (v_files _ _ _ R) P He Hp) as (s' & Es & Hs' & Hfl & Hof). fold fl in Es, Hfl.
    exists s'. split; [done|]. split; [done|]. split; [done|]. intros g Hg. rewrite Hfl. unfold fl. by rewrite list_lookup_total_alter_ne.
Qed.
End last.

Lemma fileclose_law o o' s f :
  fd_inv o' s -> more f o o' -> (f < NFILE)%nat -> 1 <= f_ref (files s !!! f) ->
  runs (fd_inv o) (fileclose kend ilock_addr f) (fun _ => fd_inv o) s.
Proof.
  intros Hinv Ho Hf Hr. pose proof Hinv as (Hk & R & P). destruct (decide (f_ref (files s !!! f) = 1)) as [H1|H1].
  - destruct (decide (f_type (files s !!! f) = FD_INODE)) as [Et|Et].
    + unfold runs. rewrite (fileclose_eq o' s f Hinv H1), Et. pose proof (last_inv o o' s f Hinv Ho Hf H1 ltac:(by rewrite Et)) as Hfd.
      fold (runs (fd_inv o) (op_begin ;; fsm (iput ilock_addr (f_ip (files s !!! f))) ;; op_end) (fun _ => fd_inv o)
        (set_files (alter (fun x => set_none (set_fref 0 x)) f (files s)) s)).
      unfold op_begin, op_end. do 3 fs_step. done.
    + destruct (fileclose_ret o o' s f Hinv Ho Hf H1 Et) as (s' & E & H & _). unfold runs. by rewrite E.
  - unfold fileclose, runs. unfold bind at 1, acquire_ft. rewrite Hk. unfold bind at 1, getf, reads. cbn [files set_ftlock].
    rewrite (proj2 (Z.ltb_ge _ _)) by lia. unfold bind at 1, updf, modify. cbn [files set_ftlock].
    rewrite (proj2 (Z.ltb_lt _ _)) by lia. pose proof (fileclose_more s f o o' Hinv Ho Hf ltac:(lia)) as H.
    cbn. destruct H as (_ & H1' & H2). by split.
Qed.

(** *** Reading and writing *)

Lemma piperead_copy_open n pi : forall w, is_open w (snd (Pipe.piperead_copy n pi)) = is_open w pi.
Proof.
  revert pi. induction n as [|n IH]; intros pi w; [done|]. cbn [Pipe.piperead_copy]. destruct (Pipe.is_empty pi); [done|].
  cbn [Pipe.take_byte]. specialize (IH (snd (Pipe.take_byte pi)) w). cbn in IH.
  by destruct (Pipe.piperead_copy n _) as [bs p2].
Qed.

Lemma pipewrite_open p k n rest : forall i pi w,
  is_open w (snd (fst (Pipe.pipewrite_loop p k n rest i pi))) = is_open w pi.
Proof.
  induction rest as [|b rest IH]; intros i pi w; cbn [Pipe.pipewrite_loop]; [done|].
  destruct (Pipe.is_full pi); [by destruct (_ || _)|]. by rewrite IH.
Qed.

Lemma fd_inv_pipe o s p pi pi' l :
  fd_inv o s -> pipes s !! p = Some pi -> (forall w, is_open w pi' = is_open w pi) ->
  fd_inv o (set_woken l (set_pipes (<[p := pi']> (pipes s)) s)).
Proof. intros (Hk & R & P) Hp Ho. split; [done|]. split; [done|]. by eapply pipes_ok_insert. Qed.

Lemma pipe_read_law o s p n : fd_inv o s -> runs (fd_inv o) (pipe_read p n) (fun _ => fd_inv o) s.
Proof.
  intros H. unfold runs, pipe_read. destruct (pipes s !! p) as [pi|] eqn:Hp; [|done]. unfold Pipe.piperead_seg.
  destruct (Pipe.is_empty _ && _); [destruct (killed s); by eapply fd_inv_pipe|].
  pose proof (piperead_copy_open (Z.to_nat n) (Pipe.set_lock true pi)) as Ho.
  destruct (Pipe.piperead_copy _ _) as [bs pi']. by eapply fd_inv_pipe.
Qed.

Lemma pipe_write_law o s p a n : fd_inv o s -> runs (fd_inv o) (pipe_write p a n) (fun _ => fd_inv o) s.
Proof.
  intros H. unfold runs, pipe_write. destruct (pipes s !! p) as [pi|] eqn:Hp; [|done]. unfold Pipe.pipewrite, Pipe.pipewrite_seg.
  pose proof (pipewrite_open p (killed s) n (take (Z.to_nat n) a) 0 (Pipe.set_lock true pi)) as Ho.
  destruct (Pipe.pipewrite_loop _ _ _ _ _ _) as [[[r i] pi'] ch]. cbn in Ho. destruct r; by eapply fd_inv_pipe.
Qed.

(** A change of an open file that is about neither its count nor a pipe. *)
Lemma fd_inv_file o s f g :
  fd_inv o s -> (forall x, f_ref (g x) = f_ref x) -> (forall x, same_end x (g x)) -> (forall x, f_type (g x) = f_type x) ->
  fd_inv o (set_files (alter g f (files s)) s).
Proof.
  intros (Hk & R & P) Hr He Ht. destruct (decide (f < NFILE)%nat) as [Hf|Hf].
  - split; [done|]. cbn. split; [apply (refs_ok_alter o o _ _ f _ 0); try done; [by rewrite Hr; lia | intros; case_decide; lia]|].
    apply pipes_ok_alter; try done; [apply R|]. rewrite Hr, Ht. by apply P.
  - pose proof (v_files _ _ _ R). assert (alter g f (files s) = files s) as ->; [|by destruct s].
    apply list_eq. intros j. rewrite list_lookup_alter. case_decide; [|done]. subst j. by rewrite lookup_ge_None_2 by lia.
Qed.

Lemma updf_off_law o s f r : fd_inv o s -> runs (fd_inv o) (updf f (fun x => set_foff (u32 (f_off x + r)) x)) (fun _ => fd_inv o) s.
Proof. intros H. apply runs_modify. by apply fd_inv_file. Qed.

Lemma fileread_law o s f n : fd_inv o s -> runs (fd_inv o) (fileread ilock_addr devsw f n) (fun _ => fd_inv o) s.
Proof.
  intros H. unfold fileread. apply runs_bind, runs_reads. destruct (negb _); [by apply runs_ret|].
  destruct (f_type _); [apply runs_panic | by apply pipe_read_law |]. fs_step. apply runs_bind, runs_reads. fs_step. apply runs_bind.
  eapply runs_mono with (P := fun _ => fd_inv o).
  - apply runs_when; intros _; [by apply updf_off_law | done].
  - intros _ s3 H3. fs_step. by apply runs_ret.
Qed.

Lemma write_chunk_law o s f a n : fd_inv o s -> runs (fd_inv o) (write_chunk ilock_addr devsw f a n) (fun _ => fd_inv o) s.
Proof.
  intros H. unfold write_chunk, op_begin, op_end. fs_step. apply runs_bind, runs_reads. fs_step. apply runs_bind, runs_reads. fs_step.
  apply runs_bind. eapply runs_mono with (P := fun _ => fd_inv o).
  - apply runs_when; intros _; [by apply updf_off_law | done].
  - intros _ s3 H3. fs_step. fs_step. by apply runs_ret.
Qed.

Lemma filewrite_law o s f a n : fd_inv o s -> runs (fd_inv o) (filewrite ilock_addr devsw f a n) (fun _ => fd_inv o) s.
Proof.
  intros H. unfold filewrite. apply runs_bind, runs_reads. destruct (negb _); [by apply runs_ret|].
  destruct (f_type _); [apply runs_panic | by apply pipe_write_law |]. apply runs_bind.
  eapply runs_mono with (P := fun _ => fd_inv o); [|by intros; apply runs_ret].
  generalize (Z.to_nat (n / write_max + 1)) as fuel. generalize 0 as i. revert s H.
  intros s H i fuel. revert s i H. induction fuel as [|fuel IH]; intros s i H; cbn [filewrite_loop]; destruct (i <? n); try by apply runs_ret.
  { exact I. }
  apply runs_bind. eapply runs_mono; [by apply write_chunk_law|]. intros r s1 H1. cbn beta.
  destruct (r <? 0); [by apply runs_ret|]. destruct (negb _); [apply runs_panic | by apply IH].
Qed.

Lemma filestat_law o s f : fd_inv o s -> runs (fd_inv o) (filestat ilock_addr f) (fun _ => fd_inv o) s.
Proof.
  intros H. unfold filestat. apply runs_bind, runs_reads. destruct (f_type _); try by apply runs_ret. do 3 fs_step. by apply runs_ret.
Qed.

(** *** Pipes *)

Lemma bump_twice_more r w o : more r (bump w o) (bump w (bump r o)).
Proof. intros g. unfold bump. lia. Qed.

(** Two fresh files are given up again. *)
Lemma pipealloc_bad_law o s r w :
  fd_inv (bump w (bump r o)) s -> (r < NFILE)%nat -> (w < NFILE)%nat -> r <> w ->
  f_ref (files s !!! r) = 1 -> f_ref (files s !!! w) = 1 -> f_type (files s !!! r) <> FD_INODE -> f_type (files s !!! w) <> FD_INODE ->
  exists s1 s2, fileclose kend ilock_addr r s = Ret tt s1 /\ fileclose kend ilock_addr w s1 = Ret tt s2 /\ fd_inv o s2.
Proof.
  intros H Hr Hw Hne Fr Fw Tr Tw.
  destruct (fileclose_ret (bump w o) _ s r H (bump_twice_more r w o) Hr Fr Tr) as (s1 & E1 & H1 & _ & Hs1).
  pose proof (Hs1 w (not_eq_sym Hne)) as Ew.
  destruct (fileclose_ret o _ s1 w H1 (bump_more w o) Hw) as (s2 & E2 & H2 & _); [by rewrite Ew | by rewrite Ew |]. by exists s1, s2.
Qed.

Lemma kalloc_law o s :
  fd_inv o s -> exists p k' l, kalloc (File.km s) = Ret p k' /\ fd_inv o (set_km k' s) /\
    (p = 0 \/ p <> 0 /\ Kalloc.inv kend (File.km s) (p :: l) /\ Kalloc.inv kend k' l /\
      forall q, is_Some (pipes s !! q) -> good_page kend q /\ q ∉ p :: l).
Proof.
  intros (Hk & R & P). destruct (v_mem _ _ _ _ P) as (l & Hl & Hd). destruct (kalloc_spec kend Hkend (File.km s) l Hl) as (k' & E & Hk' & _).
  assert (fd_inv o (set_km k' s)) as H'.
  { split; [done|]. split; [done|]. destruct P as [P1 P2 P3 P4 P5 _]. split; try done. exists (tail l). split; [done|].
    intros q Hq. destruct (Hd q Hq). split; [done|]. by destruct l; [|set_solver]. }
  exists (default 0 (head l)), k', (tail l). split; [done|]. split; [done|]. destruct l as [|p l]; [by left|]. right. cbn.
  split; [|done]. pose proof Hl as (_ & _ & _ & Hg & _). apply Forall_inv in Hg. by apply (good_page_nonzero kend Hkend).
Qed.

Lemma pipealloc_law o s :
  fd_inv o s -> exists q s', pipealloc kend ilock_addr s = Ret q s' /\
    match q with
    | None => fd_inv o s'
    | Some (r, w) => fd_inv (bump w (bump r o)) s' /\ (r < NFILE)%nat /\ (w < NFILE)%nat /\ r <> w /\
        f_ref (files s' !!! r) = 1 /\ f_ref (files s' !!! w) = 1 /\
        f_type (files s' !!! r) = FD_PIPE /\ f_type (files s' !!! w) = FD_PIPE
    end.
Proof.
  intros H. unfold pipealloc. destruct (filealloc_law o s H) as (q & s1 & E1 & _ & H1). rewrite (bind_ret _ _ _ _ _ E1).
  destruct q as [r|]; [|subst s1; by eexists _, _]. destruct H1 as (H1 & Hr & Fl1 & _ & Tr).
  assert (length (files s) = NFILE) as Hl by apply H.
  assert (files s1 !!! r = set_fref 1 (files s !!! r)) as Er by (rewrite Fl1; apply alter_at; lia).
  destruct (filealloc_law _ s1 H1) as (q & s2 & E2 & _ & H2). rewrite (bind_ret _ _ _ _ _ E2).
  destruct q as [w|].
  2:{ subst s2. destruct (fileclose_ret o _ s1 r H1 (bump_more r o) Hr) as (s2 & E & H3 & _); [by rewrite Er | by rewrite Er; cbn; rewrite Tr |].
      exists None, s2. split; [|done]. unfold pipealloc_bad. by rewrite (bind_ret _ _ _ _ _ E). }
  destruct H2 as (H2 & Hw & Fl2 & F0 & Tw). assert (r <> w) as Hrw by (intros <-; rewrite Er in F0; done).
  assert (files s2 !!! w = set_fref 1 (files s1 !!! w)) as Ew by (rewrite Fl2; apply alter_at; rewrite Fl1, length_alter; lia).
  assert (files s2 !!! r = files s1 !!! r) as Er2 by (rewrite Fl2; by apply list_lookup_total_alter_ne).
  destruct (kalloc_law _ s2 H2) as (p & k' & l & Ek & H3 & Hp).
  rewrite (bind_ret _ _ _ p (set_km k' s2)) by (unfold kmm, zoom; by rewrite Ek).
  destruct (p =? 0) eqn:E0; btests.
  - destruct (pipealloc_bad_law o (set_km k' s2) r w H3) as (s3 & s4 & E3 & E4 & H4); try done; cbn [files set_km];
      rewrite ?Er2, ?Ew, ?Er; cbn; rewrite ?Tr, ?Tw; try done.
    exists None, s4. split; [|done]. unfold pipealloc_bad. rewrite (bind_ret _ _ _ _ _ E3). by rewrite (bind_ret _ _ _ _ _ E4).
  - destruct Hp as [?|(_ & Hk & Hk' & Hd)]; [done|]. eexists _, _. split; [reflexivity|].
    destruct H2 as (Hlk & R & P).
    set (gr := fun x => mk_file FD_PIPE (f_ref x) true false p (f_ip x) (f_off x)).
    set (gw := fun x => mk_file FD_PIPE (f_ref x) false true p (f_ip x) (f_off x)).
    assert (length (files s2) = NFILE) as Hl2 by apply R.
    assert (forall h, (h < NFILE)%nat -> alter gw w (alter gr r (files s2)) !!! h =
      if decide (h = w) then gw (files s2 !!! w) else if decide (h = r) then gr (files s2 !!! r) else files s2 !!! h) as Hat
      by (intros h Hh; by apply new_at).
    split; [|cbn [files set_files set_pipes set_km]; rewrite !Hat by done; rewrite (decide_False (P := r = w)) by done;
      rewrite !decide_True by done; rewrite Er2, Er, Ew; done].
    split; [done|]. cbn [files set_files set_pipes set_km ofile pipes File.km]. split.
    + apply (refs_ok_alter (bump w (bump r o)) _ _ _ w gw 0); [|done | by rewrite Z.add_0_r | by intros h; case_decide; lia].
      apply (refs_ok_alter (bump w (bump r o)) _ _ _ r gr 0); [done | done | by rewrite Z.add_0_r | by intros h; case_decide; lia].
    + apply (pipes_ok_new kend (files s2) (pipes s2) (File.km s2) k' p l r w gr gw); try done.
      * rewrite Er2, Er. cbn. by rewrite Tr.
      * rewrite Ew. cbn. by rewrite Tw.
      * by rewrite Er2, Er.
      * by rewrite Ew.
Qed.

(** *** System calls *)

Lemma argfd_law o n s : fd_inv o s -> exists a, argfd n s = Ret a s /\ forall fd f, a = Some (fd, f) -> ofile s !! fd = Some (Some f).
Proof.
  intros (_ & R & _). unfold argfd, reads. eexists. split; [reflexivity|]. intros fd f. destruct (argint s n) as [x|]; [|done]. cbn.
  destruct ((x <? 0) || (Z.of_nat NOFILE <=? x)) eqn:E; [done|]. apply orb_false_iff in E as [E1 E2]. btests.
  destruct (lookup_lt_is_Some_2 (ofile s) (Z.to_nat x)) as [y Hy]; [rewrite (v_fds _ _ _ R); lia|].
  rewrite (list_lookup_total_correct _ _ _ Hy). destruct y as [g|]; [|done]. cbn. by intros [= <- <-].
Qed.

Lemma fd_file o s fd f : (forall g, 0 <= o g) -> fd_inv o s -> ofile s !! fd = Some (Some f) -> (f < NFILE)%nat /\ 1 <= f_ref (files s !!! f).
Proof.
  intros Ho (_ & R & _) Hfd. pose proof (v_range _ _ _ R fd f Hfd) as Hf. split; [done|].
  rewrite (v_ref _ _ _ R f Hf). pose proof (fds_pos _ _ _ Hfd). specialize (Ho f). lia.
Qed.

Lemma sys_dup_law o s : (forall g, 0 <= o g) -> fd_inv o s -> exists r s', sys_dup s = Ret r s' /\ fd_inv o s'.
Proof.
  intros Ho H. unfold sys_dup. destruct (argfd_law o 0 s H) as (a & E & Ha). rewrite (bind_ret _ _ _ _ _ E).
  destruct a as [[fd f]|]; [|by exists (-1), s]. destruct (fd_file o s fd f Ho H (Ha _ _ eq_refl)) as [Hf Hr].
  set (o' := fun g => o g - one (g = f)). assert (more f o' o) as Hm by (intros g; unfold o'; lia).
  destruct (fdalloc_law o' o s f H Hm Hf) as (r & s1 & E1 & Fl & [[-> ->]|(n & -> & H1 & _)]); rewrite (bind_ret _ _ _ _ _ E1).
  - by exists (-1), s.
  - rewrite (proj2 (Z.ltb_ge _ _)) by lia. destruct (filedup_law o' o s1 f H1 Hm Hf) as (s2 & E2 & H2); [by rewrite Fl|].
    exists (Z.of_nat n), s2. by rewrite (bind_ret _ _ _ _ _ E2).
Qed.

Lemma sys_close_law o s : (forall g, 0 <= o g) -> fd_inv o s -> runs (fd_inv o) (sys_close kend ilock_addr) (fun _ => fd_inv o) s.
Proof.
  intros Ho H. unfold sys_close, runs. destruct (argfd_law o 0 s H) as (a & E & Ha). rewrite (bind_ret _ _ _ _ _ E).
  destruct a as [[fd f]|]; [|done]. pose proof (Ha _ _ eq_refl) as Hfd. destruct (fd_file o s fd f Ho H Hfd) as [Hf Hr].
  fold (runs (fd_inv o) (modify (fun s => set_fds (<[fd := None]> (ofile s)) s) ;; fileclose kend ilock_addr f ;; ret 0) (fun _ => fd_inv o) s).
  apply runs_bind, runs_modify, runs_bind. eapply runs_mono with (P := fun _ => fd_inv o); [|by intros; apply runs_ret].
  apply (fileclose_law o (bump f o)); [|apply bump_more | done | done].
  destruct H as (Hk & R & P). split; [done|]. split; [|done]. apply (refs_ok_fd o _ _ _ fd (Some f)); try done.
  intros g. unfold bump, one. repeat case_decide; try lia; naive_solver.
Qed.

Lemma arg_buffer_law s : exists a, arg_buffer s = Ret a s.
Proof. unfold arg_buffer, argfd, bind, reads. by eexists. Qed.

Lemma sys_read_law o s : fd_inv o s -> runs (fd_inv o) (sys_read ilock_addr devsw) (fun _ => fd_inv o) s.
Proof.
  intros H. unfold sys_read, runs. destruct (arg_buffer_law s) as (a & E). rewrite (bind_ret _ _ _ _ _ E).
  destruct a as [[[f n] p]|]; [|done].
  fold (runs (fd_inv o) (let! r := fileread ilock_addr devsw f n in copyout p (snd r) ;; ret (fst r)) (fun _ => fd_inv o) s).
  apply runs_bind. eapply runs_mono; [by apply fileread_law|]. intros r s1 H1. by apply runs_bind, runs_modify, runs_ret.
Qed.

Lemma sys_write_law o s : fd_inv o s -> runs (fd_inv o) (sys_write ilock_addr devsw) (fun _ => fd_inv o) s.
Proof.
  intros H. unfold sys_write, runs. destruct (arg_buffer_law s) as (a & E). rewrite (bind_ret _ _ _ _ _ E).
  destruct a as [[[f n] p]|]; [|done]. by apply filewrite_law.
Qed.

(** Calls that use the file system only. *)
Ltac fs_run := repeat
  lazymatch goal with
  | |- runs _ (bind _ _) _ _ => apply runs_bind
  | |- runs _ (reads _) _ _ => apply runs_reads
  | |- runs _ get _ _ => apply runs_get
  | |- runs _ (panic _) _ _ => apply runs_panic
  | |- runs _ (ret _) _ _ => apply runs_ret
  | |- runs _ (modify _) _ _ => apply runs_modify
  | |- runs _ (if ?b then _ else _) _ _ => destruct b
  | |- runs _ (match ?x with _ => _ end) _ _ => destruct x
  | |- runs _ (when ?b _) _ _ => destruct b; cbn [when]
  | |- runs _ undefined _ _ => exact I
  | |- runs _ _ _ _ => eapply runs_mono; [by apply runs_fs|]; intros ? ? [? ->]; cbn beta
  end.

Lemma sys_fstat_law o s : fd_inv o s -> runs (fd_inv o) (sys_fstat ilock_addr) (fun _ => fd_inv o) s.
Proof.
  intros H. unfold sys_fstat, argfd. apply runs_bind, runs_reads, runs_bind, runs_reads.
  destruct (_ ≫= _) as [[fd f]|]; [|by apply runs_ret]. destruct (argptr s 1 20); [|by apply runs_ret].
  apply runs_bind. eapply runs_mono; [by apply filestat_law|]. intros [st|] s1 H1; [|by apply runs_ret].
  apply runs_bind, runs_modify, runs_ret. exact H1.
Qed.

Lemma sys_link_law o s : fd_inv o s -> runs (fd_inv o) (sys_link ilock_addr devsw junk) (fun _ => fd_inv o) s.
Proof. intros H. unfold sys_link, link_new, link_bad, op_return, op_begin, op_end. fs_run; exact H. Qed.

Lemma sys_unlink_law o s : fd_inv o s -> runs (fd_inv o) (sys_unlink ilock_addr devsw junk) (fun _ => fd_inv o) s.
Proof. intros H. unfold sys_unlink, unlink_entry, unlink_bad, op_return, op_begin, op_end. fs_run; exact H. Qed.

Lemma sys_mkdir_law o s : fd_inv o s -> runs (fd_inv o) (sys_mkdir ilock_addr devsw junk) (fun _ => fd_inv o) s.
Proof. intros H. unfold sys_mkdir, op_return, op_begin, op_end. fs_run; exact H. Qed.

Lemma sys_mknod_law o s : fd_inv o s -> runs (fd_inv o) (sys_mknod ilock_addr devsw junk) (fun _ => fd_inv o) s.
Proof. intros H. unfold sys_mknod, op_return, op_begin, op_end. fs_run; exact H. Qed.

Lemma sys_chdir_law o s : fd_inv o s -> runs (fd_inv o) (sys_chdir ilock_addr devsw) (fun _ => fd_inv o) s.
Proof. intros H. unfold sys_chdir, op_return, op_begin, op_end. fs_run; exact H. Qed.

(** The new file of [sys_open]: with a descriptor, not an end of a pipe. *)
Definition fresh o s (f : nat) : Prop :=
  fd_inv o s /\ (f < NFILE)%nat /\ f_ref (files s !!! f) = 1 /\ f_type (files s !!! f) = FD_NONE.

Lemma open_file_law o s :
  fd_inv o s -> exists q s', open_file kend ilock_addr s = Ret q s' /\ match q with None => fd_inv o s' | Some (f, _) => fresh o s' f end.
Proof.
  intros H. unfold open_file. destruct (filealloc_law o s H) as (q & s1 & E1 & _ & H1). rewrite (bind_ret _ _ _ _ _ E1).
  destruct q as [f|]; [|subst s1; by exists None, s]. destruct H1 as (H1 & Hf & Fl & _ & Hty).
  assert (files s1 !!! f = set_fref 1 (files s !!! f)) as Ef by (rewrite Fl; apply alter_at; destruct H as (_ & R & _); rewrite (v_files _ _ _ R); done).
  destruct (fdalloc_law o (bump f o) s1 f H1 (bump_more f o) Hf) as (r & s2 & E2 & Fl2 & [[-> ->]|(n & -> & H2 & _)]); rewrite (bind_ret _ _ _ _ _ E2).
  - destruct (fileclose_ret o _ s1 f H1 (bump_more f o) Hf) as (s3 & E3 & H3 & _); [by rewrite Ef | by rewrite Ef; cbn; rewrite Hty |].
    exists None, s3. split; [|done]. change (-1 <? 0) with true. cbv iota. by rewrite (bind_ret _ _ _ _ _ E3).
  - rewrite (proj2 (Z.ltb_ge _ _)) by lia. exists (Some (f, Z.of_nat n)), s2. split; [done|]. unfold fresh. by rewrite Fl2, Ef.
Qed.

Lemma open_inode_law o s path m : fd_inv o s -> runs (fd_inv o) (open_inode ilock_addr devsw junk path m) (fun _ => fd_inv o) s.
Proof. intros H. unfold open_inode. fs_run; exact H. Qed.

Lemma sys_open_law o s : fd_inv o s -> runs (fd_inv o) (sys_open kend ilock_addr devsw junk) (fun _ => fd_inv o) s.
Proof.
  intros H. unfold sys_open, op_begin, op_return, op_end. apply runs_bind, runs_reads, runs_bind, runs_reads.
  destruct (argpath s 0) as [path|]; [|by apply runs_ret]. destruct (argint s 1) as [m|]; [|by apply runs_ret].
  fs_step. apply runs_bind. eapply runs_mono; [by apply open_inode_law|]. intros [ip|] s1 H1; cbn beta; [|fs_run; exact H1].
  apply runs_bind. destruct (open_file_law o s1 H1) as (q & s2 & E & H2). unfold runs at 1. rewrite E.
  destruct q as [[f fd]|]; [|fs_run; exact H2]. destruct H2 as (H2 & Hf & Hr & Hty). do 2 fs_step.
  apply runs_bind, runs_modify, runs_ret. destruct H2 as (Hk & R & P). split; [done|]. cbn. split.
  - apply (refs_ok_alter o o _ _ f _ 0); [done | done | cbn; lia | intros h; case_decide; lia].
  - apply pipes_ok_alter; [apply R | done | done | split; cbn; rewrite Hty; by split | cbn; by rewrite Hr].
Qed.

Lemma sys_pipe_bad o s r w :
  fd_inv (bump w (bump r o)) s -> (r < NFILE)%nat -> (w < NFILE)%nat -> r <> w ->
  f_ref (files s !!! r) = 1 -> f_ref (files s !!! w) = 1 -> f_type (files s !!! r) = FD_PIPE -> f_type (files s !!! w) = FD_PIPE ->
  exists s', (fileclose kend ilock_addr r ;; fileclose kend ilock_addr w ;; ret (-1)) s = Ret (-1) s' /\ fd_inv o s'.
Proof.
  intros H Hr Hw Hne Fr Fw Tr Tw.
  destruct (pipealloc_bad_law o s r w) as (s1 & s2 & E1 & E2 & H2); try done; [by rewrite Tr | by rewrite Tw |].
  exists s2. split; [|done]. rewrite (bind_ret _ _ _ _ _ E1). by rewrite (bind_ret _ _ _ _ _ E2).
Qed.

Lemma sys_pipe_law o s : fd_inv o s -> exists r s', sys_pipe kend ilock_addr s = Ret r s' /\ fd_inv o s'.
Proof.
  intros H. unfold sys_pipe. unfold bind at 1, reads. destruct (argptr s 0 8) as [p|]; [|by exists (-1), s].
  destruct (pipealloc_law o s H) as (q & s1 & E1 & H1). rewrite (bind_ret _ _ _ _ _ E1).
  destruct q as [[r w]|]; [|by exists (-1), s1]. destruct H1 as (H1 & Hr & Hw & Hne & Fr & Fw & Tr & Tw).
  destruct (fdalloc_law (bump w o) _ s1 r H1 (bump_twice_more r w o) Hr) as (c0 & s2 & E2 & Fl2 & [[-> ->]|(n0 & -> & H2 & Of & Hn)]);
    rewrite (bind_ret _ _ _ _ _ E2).
  { destruct (sys_pipe_bad o s1 r w) as (s3 & E3 & H3); try done. by exists (-1), s3. }
  rewrite (proj2 (Z.ltb_ge (Z.of_nat n0) 0)) by lia.
  destruct (fdalloc_law o _ s2 w H2 (bump_more w o) Hw) as (c1 & s3 & E3 & Fl3 & [[-> ->]|(n1 & -> & H3 & _)]); rewrite (bind_ret _ _ _ _ _ E3).
  - change (false || (-1 <? 0)) with true. cbv iota. rewrite (proj2 (Z.leb_le 0 (Z.of_nat n0))) by lia. cbn [when].
    unfold bind at 1, modify. rewrite Nat2Z.id. set (s4 := set_fds (<[n0 := None]> (ofile s2)) s2).
    destruct (sys_pipe_bad o s4 r w) as (s5 & E5 & H5); cbn [s4 files set_fds]; rewrite ?Fl2; try done; [|by exists (-1), s5].
    destruct H2 as (Hk & R & P). split; [done|]. split; [|done]. apply (refs_ok_fd (bump w o) _ _ _ n0 (Some r)); try done.
    + rewrite Of. apply list_lookup_insert_eq. by eapply lookup_lt_Some.
    + intros g. unfold bump, one. repeat case_decide; try lia; naive_solver.
  - rewrite (proj2 (Z.ltb_ge (Z.of_nat n1) 0)) by lia. cbn [orb]. eexists _, _. by split; [reflexivity|].
Qed.

(** The entries of [syscalls] that are about files. *)
Inductive file_call :=
| SYS_dup | SYS_read | SYS_write | SYS_close | SYS_fstat | SYS_link | SYS_unlink | SYS_open | SYS_mkdir | SYS_mknod | SYS_chdir | SYS_pipe.

Definition file_syscalls (c : file_call) : M (sys T) Z :=
  match c with
  | SYS_dup => sys_dup
  | SYS_read => sys_read ilock_addr devsw
  | SYS_write => sys_write ilock_addr devsw
  | SYS_close => sys_close kend ilock_addr
  | SYS_fstat => sys_fstat ilock_addr
  | SYS_link => sys_link ilock_addr devsw junk
  | SYS_unlink => sys_unlink ilock_addr devsw junk
  | SYS_open => sys_open kend ilock_addr devsw junk
  | SYS_mkdir => sys_mkdir ilock_addr devsw junk
  | SYS_mknod => sys_mknod ilock_addr devsw junk
  | SYS_chdir => sys_chdir ilock_addr devsw
  | SYS_pipe => sys_pipe kend ilock_addr
  end.

(** C13: every system call on files keeps descriptors, open files, pipes and
    pages consistent, whatever the file system below does and whatever the
    arguments are.  When it returns or sleeps, the count of each open file is
    the number of descriptors that refer to it, files without descriptors are
    free, each end of a pipe belongs to exactly one open file, and a pipe is
    in a page of its own that the allocator does not have, as long as one end
    is open.  [dup] and [pipe] always return. *)
Theorem descriptors_kept c o s :
  (forall f, 0 <= o f) -> fd_inv o s ->
  match file_syscalls c s with Ret _ s' => fd_inv o s' | Sleep _ s' => fd_inv o s' | _ => c <> SYS_dup /\ c <> SYS_pipe end /\
  (c = SYS_dup \/ c = SYS_pipe -> exists r s', file_syscalls c s = Ret r s').
Proof.
  intros Ho H. assert (forall m : M (sys T) Z, runs (fd_inv o) m (fun _ => fd_inv o) s -> c <> SYS_dup -> c <> SYS_pipe ->
    match m s with Ret _ s' => fd_inv o s' | Sleep _ s' => fd_inv o s' | _ => c <> SYS_dup /\ c <> SYS_pipe end /\
    (c = SYS_dup \/ c = SYS_pipe -> exists r s', m s = Ret r s')) as Hr.
  { intros m Hm H1 H2. split; [|by intros [?|?]]. unfold runs in Hm. by destruct (m s). }
  destruct c; cbn [file_syscalls].
  - destruct (sys_dup_law o s Ho H) as (r & s' & -> & Hs'). split; [done | by exists r, s'].
  - apply Hr; [by apply sys_read_law | done..].
  - apply Hr; [by apply sys_write_law | done..].
  - apply Hr; [by apply sys_close_law | done..].
  - apply Hr; [by apply sys_fstat_law | done..].
  - apply Hr; [by apply sys_link_law | done..].
  - apply Hr; [by apply sys_unlink_law | done..].
  - apply Hr; [by apply sys_open_law | done..].
  - apply Hr; [by apply sys_mkdir_law | done..].
  - apply Hr; [by apply sys_mknod_law | done..].
  - apply Hr; [by apply sys_chdir_law | done..].
  - destruct (sys_pipe_law o s H) as (r & s' & -> & Hs'). split; [done | by exists r, s'].
Qed.
End inv.
