(* ===== verification/FileDemo.v ===== *)
(** * The first pipe of a process

    A concrete state of the whole file layer, on the demonstration disk of
    [FsDemo.v]: no file is open and the process asks for its first pipe. *)

From stdpp Require Import base list gmap.
From S2P Require Import Prelude Cstring Kalloc Sleeplock Bio Log Crash Blocks Fs FsDemo FsCrash File Sysfile FileInv.

#[local] Existing Instance demo_driver.
#[local] Instance first_io : BlockIO lst := log_io fs_lock.
#[local] Instance first_trans : Trans lst := log_trans fs_lock 0.

(** No file is open; the argument of [pipe] is the address 16. *)
Definition first_sys : sys lst :=
  mk_sys (fs_state 0) false (replicate NFILE zero_file) ∅ one_page [] (replicate NOFILE None) false 32 0
    (replicate 4 0 ++ le_enc 4 16 ++ replicate 24 0).

Lemma no_fds f n : fds f (replicate n None) = 0.
Proof. unfold fds. induction n; [done|]. rewrite replicate_S, filter_cons_False; done. Qed.

#[local] Opaque fs_state.

Lemma first_inv : fd_inv small_end (fun _ => 0) first_sys.
Proof.
  assert (forall f, (f < NFILE)%nat -> replicate NFILE zero_file !!! f = zero_file) as Hz.
  { intros f Hf. apply list_lookup_total_correct. by apply lookup_replicate_2. }
  split; [reflexivity|]. unfold first_sys. cbn [files ofile pipes File.km]. split; split.
  - apply length_replicate.
  - apply length_replicate.
  - intros f Hf. rewrite Hz, no_fds by exact Hf. reflexivity.
  - intros i f Hi. by apply lookup_replicate in Hi as [? _].
  - intros f Hf _. rewrite Hz by exact Hf. reflexivity.
  - intros p w f (Hf & Ht & _). by rewrite Hz in Ht.
  - intros p pi w Hp. by rewrite lookup_empty in Hp.
  - intros p pi Hp. by rewrite lookup_empty in Hp.
  - intros p w f g (Hf & Ht & _). by rewrite Hz in Ht.
  - exists [small_end]. split; [exact one_page_inv|]. intros p [pi Hp]. by rewrite lookup_empty in Hp.
Qed.

Lemma descriptors_kept_witness :
  exists r s', file_syscalls small_end fs_lock no_drivers (replicate 14 0) SYS_pipe first_sys = Ret r s' /\
    fd_inv small_end (fun _ => 0) s'.
Proof.
  destruct (descriptors_kept small_end small_end_range fs_lock no_drivers (replicate 14 0) SYS_pipe (fun _ => 0) first_sys)
    as [H1 H2].
  - intros f. lia.
  - exact first_inv.
  - destruct (H2 (or_intror eq_refl)) as (r & s' & E). exists r, s'. rewrite E in H1. exact (conj E H1).
Defined.
