(* ===== verification/Vm.v ===== *)
(** * Page tables and user memory (vm.c, the paging part of mmu.h)

    The code runs on the physical memory of [Kalloc.v]: a page directory, a
    page table and a page of user memory are all pages of [pmem], a pointer
    to an entry is the kernel address of its word, and the null pointer is 0.
    [data] of the linker script is a section variable next to [kend].  The
    messages of [cprintf] are not part of the state. *)

From S2P Require Import Prelude Kalloc.

Definition PTXSHIFT : Z := 12.
Definition PDXSHIFT : Z := 22.
Definition NPDENTRIES : Z := 1024.

Definition PDX (va : Z) : Z := Z.land (Z.shiftr (u32 va) PDXSHIFT) 0x3FF.
Definition PTX (va : Z) : Z := Z.land (Z.shiftr (u32 va) PTXSHIFT) 0x3FF.
Definition PGADDR (d t o : Z) : Z := u32 (Z.lor (Z.lor (Z.shiftl d PDXSHIFT) (Z.shiftl t PTXSHIFT)) o).

Definition PTE_P : Z := 0x001.
Definition PTE_W : Z := 0x002.
Definition PTE_U : Z := 0x004.

Definition PTE_ADDR (pte : Z) : Z := Z.land pte (u32 (Z.lnot 0xFFF)).
Definition PTE_FLAGS (pte : Z) : Z := Z.land pte 0xFFF.

(** [e & f] as a condition. *)
Definition has (e f : Z) : bool := negb (Z.land e f =? 0).

(** ** Memory accesses at kernel addresses *)

Definition pg (a : Z) : Z := a - a mod PGSIZE.
Definition pgoff (a : Z) : nat := Z.to_nat (a mod PGSIZE).

Definition load32 (a : Z) : M kmem_t Z := reads (fun s => get32 (page (pmem s) (pg a)) (pgoff a)).
Definition store32 (a w : Z) : M kmem_t unit :=
  modify (fun s => set_page (pg a) (set32 (page (pmem s) (pg a)) (pgoff a) w) s).

(** [memset(v, 0, PGSIZE)] *)
Definition clear_page (v : Z) : M kmem_t unit := modify (set_page v zero_page).
(** [memmove(v, w, PGSIZE)] *)
Definition copy_page (v w : Z) : M kmem_t unit := modify (fun s => set_page v (page (pmem s) w) s).
(** [memmove(a, buf, length buf)] within a page *)
Definition copy_bytes (a : Z) (buf : list Z) : M kmem_t unit :=
  modify (fun s => set_page (pg a) (splice (pgoff a) buf (page (pmem s) (pg a))) s).

Section vm.
Variables kend data : Z.
Abbreviation kfree := (kfree kend).

Definition walkpgdir (pgdir va : Z) (alloc : bool) : M kmem_t Z :=
  let pde := pgdir + 4 * PDX va in
  let! e := load32 pde in
  if has e PTE_P then
    let! pgtab := P2V (PTE_ADDR e) in
    ret (pgtab + 4 * PTX va)
  else if negb alloc then ret 0
  else
    let! pgtab := kalloc in
    if pgtab =? 0 then ret 0
    else
      clear_page pgtab ;;
      let! pa := V2P pgtab in
      store32 pde (Z.lor (Z.lor (Z.lor pa PTE_P) PTE_W) PTE_U) ;;
      ret (pgtab + 4 * PTX va).

(** The loop runs once for each page from [a] to [last], around the end of
    the address space when [last] is below [a]. *)
Fixpoint mappages_loop (fuel : nat) (pgdir a last pa perm : Z) : M kmem_t Z :=
  match fuel with
  | O => hang
  | S fuel =>
      let! pte := walkpgdir pgdir a true in
      if pte =? 0 then ret (-1)
      else
        let! e := load32 pte in
        if has e PTE_P then panic "remap"
        else
          store32 pte (Z.lor (Z.lor pa perm) PTE_P) ;;
          if a =? last then ret 0
          else mappages_loop fuel pgdir (u32 (a + PGSIZE)) last (u32 (pa + PGSIZE)) perm
  end.

Definition mappages (pgdir va size pa perm : Z) : M kmem_t Z :=
  let a := PGROUNDDOWN va in
  let last := PGROUNDDOWN (u32 (va + size - 1)) in
  mappages_loop (S (Z.to_nat (u32 (last - a) / PGSIZE))) pgdir a last pa perm.

(** The loop of [deallocuvm] skips the rest of a missing page table. *)
Fixpoint deallocuvm_loop (fuel : nat) (pgdir a oldsz : Z) : M kmem_t unit :=
  match fuel with
  | O => hang
  | S fuel =>
      if a <? oldsz then
        let! pte := walkpgdir pgdir a false in
        if pte =? 0 then
          deallocuvm_loop fuel pgdir (u32 (u32 (PGADDR (PDX a + 1) 0 0 - PGSIZE) + PGSIZE)) oldsz
        else
          let! e := load32 pte in
          when (has e PTE_P)
            (let pa := PTE_ADDR e in
             if pa =? 0 then panic "kfree"
             else
               let! v := P2V pa in
               kfree v ;;
               store32 pte 0) ;;
          deallocuvm_loop fuel pgdir (u32 (a + PGSIZE)) oldsz
      else ret tt
  end.

Definition deallocuvm (pgdir oldsz newsz : Z) : M kmem_t Z :=
  if oldsz <=? newsz then ret oldsz
  else
    deallocuvm_loop (S (Z.to_nat (oldsz / PGSIZE + 1))) pgdir (PGROUNDUP newsz) oldsz ;;
    ret newsz.

Definition freevm (pgdir : Z) : M kmem_t unit :=
  if pgdir =? 0 then panic "freevm: no pgdir"
  else
    deallocuvm pgdir KERNBASE 0 ;;
    for_ 1024 0 (fun i =>
      let! e := load32 (pgdir + 4 * i) in
      when (has e PTE_P) (let! v := P2V (PTE_ADDR e) in kfree v)) ;;
    kfree pgdir.

(** ** The kernel part *)

Record kmap_t := mk_kmap { virt : Z; phys_start : Z; phys_end : Z; perm : Z }.

Definition kmap : list kmap_t :=
  [ mk_kmap KERNBASE 0 EXTMEM PTE_W;
    mk_kmap KERNLINK (KERNLINK - KERNBASE) (data - KERNBASE) 0;
    mk_kmap data (data - KERNBASE) PHYSTOP PTE_W;
    mk_kmap DEVSPACE DEVSPACE 0 PTE_W ].

Fixpoint setupkvm_loop (pgdir : Z) (ks : list kmap_t) : M kmem_t Z :=
  match ks with
  | [] => ret pgdir
  | k :: ks =>
      let! r := mappages pgdir (virt k) (u32 (phys_end k - phys_start k)) (phys_start k) (perm k) in
      if r <? 0 then freevm pgdir ;; ret 0
      else setupkvm_loop pgdir ks
  end.

Definition setupkvm : M kmem_t Z :=
  let! pgdir := kalloc in
  if pgdir =? 0 then ret 0
  else
    clear_page pgdir ;;
    let! top := P2V PHYSTOP in
    if DEVSPACE <? top then panic "PHYSTOP too high"
    else setupkvm_loop pgdir kmap.

(** ** The user part *)

Definition inituvm (pgdir : Z) (init : list Z) : M kmem_t unit :=
  if PGSIZE <=? Z.of_nat (length init) then panic "inituvm: more than a page"
  else
    let! mem := kalloc in
    if mem =? 0 then undefined
    else
      clear_page mem ;;
      let! pa := V2P mem in
      mappages pgdir 0 PGSIZE pa (Z.lor PTE_W PTE_U) ;;
      copy_bytes mem init.

Fixpoint allocuvm_loop (fuel : nat) (pgdir a oldsz newsz : Z) : M kmem_t Z :=
  match fuel with
  | O => hang
  | S fuel =>
      if a <? newsz then
        let! mem := kalloc in
        if mem =? 0 then
          deallocuvm pgdir newsz oldsz ;;
          ret 0
        else
          clear_page mem ;;
          let! pa := V2P mem in
          let! r := mappages pgdir a PGSIZE pa (Z.lor PTE_W PTE_U) in
          if r <? 0 then
            deallocuvm pgdir newsz oldsz ;;
            kfree mem ;;
            ret 0
          else allocuvm_loop fuel pgdir (u32 (a + PGSIZE)) oldsz newsz
      else ret newsz
  end.

Definition allocuvm (pgdir oldsz newsz : Z) : M kmem_t Z :=
  if KERNBASE <=? newsz then ret 0
  else if newsz <? oldsz then ret oldsz
  else
    let a := PGROUNDUP oldsz in
    allocuvm_loop (S (Z.to_nat ((newsz - a) / PGSIZE + 1))) pgdir a oldsz newsz.

Definition clearpteu (pgdir uva : Z) : M kmem_t unit :=
  let! pte := walkpgdir pgdir uva false in
  if pte =? 0 then panic "clearpteu"
  else
    let! e := load32 pte in
    store32 pte (Z.land e (u32 (Z.lnot PTE_U))).

(** [false] is [goto bad]. *)
Fixpoint copyuvm_loop (fuel : nat) (pgdir d i sz : Z) : M kmem_t bool :=
  match fuel with
  | O => hang
  | S fuel =>
      if i <? sz then
        let! pte := walkpgdir pgdir i false in
        if pte =? 0 then panic "copyuvm: pte should exist"
        else
          let! e := load32 pte in
          if negb (has e PTE_P) then panic "copyuvm: page not present"
          else
            let! mem := kalloc in
            if mem =? 0 then ret false
            else
              let! src := P2V (PTE_ADDR e) in
              copy_page mem src ;;
              let! pa := V2P mem in
              let! r := mappages d i PGSIZE pa (PTE_FLAGS e) in
              if r <? 0 then kfree mem ;; ret false
              else copyuvm_loop fuel pgdir d (u32 (i + PGSIZE)) sz
      else ret true
  end.

Definition copyuvm (pgdir sz : Z) : M kmem_t Z :=
  let! d := setupkvm in
  if d =? 0 then ret 0
  else
    let! ok := copyuvm_loop (S (Z.to_nat (sz / PGSIZE + 1))) pgdir d 0 sz in
    if ok : bool then ret d
    else freevm d ;; ret 0.

(** [walkpgdir] can return the null pointer, which is dereferenced. *)
Definition uva2ka (pgdir uva : Z) : M kmem_t Z :=
  let! pte := walkpgdir pgdir uva false in
  if pte =? 0 then undefined
  else
    let! e := load32 pte in
    if negb (has e PTE_P) then ret 0
    else if negb (has e PTE_U) then ret 0
    else P2V (PTE_ADDR e).

Fixpoint copyout_loop (fuel : nat) (pgdir va : Z) (buf : list Z) : M kmem_t Z :=
  match fuel with
  | O => hang
  | S fuel =>
      match buf with
      | [] => ret 0
      | _ =>
          let va0 := PGROUNDDOWN va in
          let! pa0 := uva2ka pgdir va0 in
          if pa0 =? 0 then ret (-1)
          else
            let n := Z.to_nat (Z.min (PGSIZE - (va - va0)) (Z.of_nat (length buf))) in
            copy_bytes (pa0 + (va - va0)) (take n buf) ;;
            copyout_loop fuel pgdir (u32 (va0 + PGSIZE)) (drop n buf)
      end
  end.

Definition copyout (pgdir va : Z) (buf : list Z) : M kmem_t Z :=
  copyout_loop (S (length buf)) pgdir va buf.
End vm.
