(* ===== verification/VmTab.v ===== *)
(** * The structure of a page table

    [ptab s pd T E]: the directory at [pd] and the tables [T] (by directory
    index) hold exactly the entries [E] (by page number).  The operations of
    vm.c that walk and extend a page table are shown to work on [T] and [E]
    as finite maps; pages move from the free list into [T] and no page
    outside the structure changes. *)

From S2P Require Import Prelude Kalloc Vm.

(** ** Addresses and entries *)

Lemma PDX_eq va : 0 <= va < 2 ^ 32 -> PDX va = va / PGSIZE / 1024.
Proof.
  intros H. unfold PDX, PDXSHIFT. rewrite u32_small by done.
  change 0x3FF with (Z.ones 10). rewrite Z.land_ones, Z.shiftr_div_pow2 by lia.
  unfold PGSIZE. rewrite Z.div_div by lia. change (4096 * 1024) with (2 ^ 22).
  apply Z.mod_small. split; [apply Z.div_pos; lia|]. apply Z.div_lt_upper_bound; lia.
Qed.

Lemma PTX_eq va : 0 <= va < 2 ^ 32 -> PTX va = (va / PGSIZE) mod 1024.
Proof.
  intros H. unfold PTX, PTXSHIFT. rewrite u32_small by done.
  change 0x3FF with (Z.ones 10). by rewrite Z.land_ones, Z.shiftr_div_pow2 by lia.
Qed.

Lemma page_number n k : 0 <= k < PGSIZE -> (PGSIZE * n + k) / PGSIZE = n.
Proof. unfold PGSIZE. intros. Z.div_mod_to_equations. lia. Qed.

Lemma PGROUNDDOWN_eq a : 0 <= a < 2 ^ 32 -> PGROUNDDOWN a = PGSIZE * (a / PGSIZE).
Proof.
  intros H. unfold PGROUNDDOWN. rewrite u32_small by done.
  change (u32 (Z.lnot (PGSIZE - 1))) with (2 ^ 32 - 2 ^ 12). rewrite land_high_mask by lia.
  change (2 ^ 12) with PGSIZE. pose proof (Z.div_mod a PGSIZE). unfold PGSIZE in *. lia.
Qed.

(** An entry is a page address with flags in its low bits. *)
Lemma lor_flags pa f : pa mod PGSIZE = 0 -> 0 <= f < PGSIZE -> Z.lor pa f = pa + f.
Proof.
  intros Hp Hf. rewrite <- Z.lxor_lor, <- Z.add_nocarry_lxor; try done;
    apply Z.bits_inj'; intros i Hi; rewrite Z.land_spec, Z.bits_0.
  all: unfold PGSIZE in *; change 4096 with (2 ^ 12) in *; destruct (Z.lt_ge_cases i 12).
  all: try (rewrite <- (Z.mod_small f (2 ^ 12)), Z.mod_pow2_bits_high by lia; apply andb_false_r).
  all: rewrite <- (Z.mod_pow2_bits_low pa 12) by lia; rewrite Hp, Z.bits_0; done.
Qed.

Lemma PTE_ADDR_eq e : 0 <= e < 2 ^ 32 -> PTE_ADDR e = PGSIZE * (e / PGSIZE).
Proof.
  intros H. unfold PTE_ADDR. change (u32 (Z.lnot 0xFFF)) with (2 ^ 32 - 2 ^ 12).
  rewrite land_high_mask by lia. change (2 ^ 12) with PGSIZE. pose proof (Z.div_mod e PGSIZE).
  unfold PGSIZE in *. lia.
Qed.

Lemma PTE_FLAGS_eq e : PTE_FLAGS e = e mod PGSIZE.
Proof. unfold PTE_FLAGS. change 0xFFF with (Z.ones 12). by rewrite Z.land_ones. Qed.

Lemma PTE_ADDR_entry pa f :
  0 <= pa < 2 ^ 32 -> pa mod PGSIZE = 0 -> 0 <= f < PGSIZE -> PTE_ADDR (pa + f) = pa.
Proof.
  intros H Hp Hf. unfold PGSIZE in *. apply Z.mod_divide in Hp as [q ->]; [|done].
  rewrite PTE_ADDR_eq by lia. unfold PGSIZE. Z.div_mod_to_equations. lia.
Qed.

Lemma PTE_FLAGS_entry pa f : pa mod PGSIZE = 0 -> 0 <= f < PGSIZE -> PTE_FLAGS (pa + f) = f.
Proof.
  intros Hp Hf. rewrite PTE_FLAGS_eq, <- Zplus_mod_idemp_l, Hp. by apply Z.mod_small.
Qed.

(** A flag of the low bits does not depend on the address. *)
Lemma has_flags e f : 0 <= f < PGSIZE -> has e f = has (PTE_FLAGS e) f.
Proof.
  intros Hf. unfold has, PTE_FLAGS. rewrite <- Z.land_assoc. repeat f_equal.
  change 0xFFF with (Z.ones 12). rewrite Z.land_comm, Z.land_ones by lia. symmetry.
  apply Z.mod_small. exact Hf.
Qed.

Lemma has_entry pa f g :
  pa mod PGSIZE = 0 -> 0 <= f < PGSIZE -> 0 <= g < PGSIZE -> has (pa + f) g = has f g.
Proof. intros. rewrite has_flags, PTE_FLAGS_entry by done. reflexivity. Qed.

Lemma has_lor_P f : has (Z.lor f PTE_P) PTE_P = true.
Proof.
  unfold has. rewrite Z.land_lor_distr_l. apply negb_true_iff, Z.eqb_neq. intros [_ E]%Z.lor_eq_0_iff. done.
Qed.

Lemma flags_range f g : 0 <= f < PGSIZE -> 0 <= g < PGSIZE -> 0 <= Z.lor f g < PGSIZE.
Proof.
  intros Hf Hg. unfold PGSIZE in *. split; [apply Z.lor_nonneg; lia|].
  destruct (Z.eq_dec (Z.lor f g) 0) as [->|Hz]; [lia|].
  assert (0 < Z.lor f g) by (pose proof (proj2 (Z.lor_nonneg f g) ltac:(lia)); lia).
  change 4096 with (2 ^ 12). apply Z.log2_lt_pow2; [done|]. rewrite Z.log2_lor by lia.
  apply Z.max_lub_lt.
  - destruct (Z.eq_dec f 0) as [->|]; [done|]. apply Z.log2_lt_pow2; lia.
  - destruct (Z.eq_dec g 0) as [->|]; [done|]. apply Z.log2_lt_pow2; lia.
Qed.

(** The entries [mappages] and [walkpgdir] write. *)
Definition pte (pa perm : Z) : Z := pa + Z.lor perm PTE_P.

Lemma pte_eq pa perm :
  pa mod PGSIZE = 0 -> 0 <= perm < PGSIZE -> Z.lor (Z.lor pa perm) PTE_P = pte pa perm.
Proof.
  intros Hp Hf. rewrite <- Z.lor_assoc. apply lor_flags; [done|]. by apply flags_range.
Qed.

Lemma pde_eq pa : pa mod PGSIZE = 0 -> Z.lor (Z.lor (Z.lor pa PTE_P) PTE_W) PTE_U = pa + 7.
Proof. intros Hp. rewrite <- !Z.lor_assoc. by apply lor_flags. Qed.

Lemma has_pte pa perm : pa mod PGSIZE = 0 -> 0 <= perm < PGSIZE -> has (pte pa perm) PTE_P = true.
Proof. intros. unfold pte. rewrite has_entry by (done || by apply flags_range). apply has_lor_P. Qed.

Lemma pte_range pa perm :
  0 <= pa < 2 ^ 32 -> pa mod PGSIZE = 0 -> 0 <= perm < PGSIZE -> 0 <= pte pa perm < 2 ^ 32.
Proof.
  intros H Hp Hf. pose proof (flags_range perm PTE_P Hf ltac:(done)). unfold pte, PGSIZE in *.
  apply Z.mod_divide in Hp as [q ->]; [|done]. lia.
Qed.

(** ** Words of a page *)

Definition ent (s : kmem_t) (t i : Z) : Z := get32 (page (pmem s) t) (Z.to_nat (4 * i)).
Definition put_ent (t i w : Z) (s : kmem_t) : kmem_t :=
  set_page t (set32 (page (pmem s) t) (Z.to_nat (4 * i)) w) s.

Lemma ent_addr t i :
  t mod PGSIZE = 0 -> 0 <= i < 1024 -> pg (t + 4 * i) = t /\ pgoff (t + 4 * i) = Z.to_nat (4 * i).
Proof.
  intros Ht Hi. unfold pg, pgoff. rewrite <- Zplus_mod_idemp_l, Ht, Z.add_0_l.
  unfold PGSIZE. rewrite Z.mod_small by lia. split; [lia | done].
Qed.

Lemma load32_ent t i s : t mod PGSIZE = 0 -> 0 <= i < 1024 -> load32 (t + 4 * i) s = Ret (ent s t i) s.
Proof. intros Ht Hi. destruct (ent_addr t i Ht Hi) as [E1 E2]. unfold load32, reads. by rewrite E1, E2. Qed.

Lemma store32_ent t i w s :
  t mod PGSIZE = 0 -> 0 <= i < 1024 -> store32 (t + 4 * i) w s = Ret tt (put_ent t i w s).
Proof. intros Ht Hi. destruct (ent_addr t i Ht Hi) as [E1 E2]. unfold store32, modify. by rewrite E1, E2. Qed.

Lemma page_put_ne s t i w a : a <> t -> page (pmem (put_ent t i w s)) a = page (pmem s) a.
Proof. intros. cbn. by rewrite page_insert_ne. Qed.

Lemma ent_page s s' t i : page (pmem s') t = page (pmem s) t -> ent s' t i = ent s t i.
Proof. unfold ent. by intros ->. Qed.

Lemma ent_put s t i j w u :
  length (page (pmem s) t) = 4096%nat -> 0 <= i < 1024 -> 0 <= j < 1024 -> 0 <= w < 2 ^ 32 ->
  ent (put_ent t i w s) u j = if decide (u = t /\ j = i) then w else ent s u j.
Proof.
  intros Hl Hi Hj Hw. unfold ent, put_ent. cbn. destruct (decide (u = t)) as [->|Hu].
  - rewrite page_insert_eq. destruct (decide (j = i)) as [->|Hne].
    + rewrite decide_True by done. rewrite get32_set32_eq; [done | lia | done].
    + rewrite decide_False by tauto. apply get32_set32_ne; lia.
  - rewrite decide_False by tauto. by rewrite page_insert_ne by done.
Qed.

Lemma zero_page_word i : (4 * i + 4 <= 4096)%nat -> get32 zero_page (4 * i) = 0.
Proof.
  intros H. unfold get32, slice, zero_page. rewrite drop_replicate, take_replicate.
  replace (_ `min` _)%nat with 4%nat by lia. reflexivity.
Qed.

Lemma ent_clear s t i : 0 <= i < 1024 -> ent (set_page t zero_page s) t i = 0.
Proof.
  intros Hi. unfold ent. cbn. rewrite page_insert_eq.
  replace (Z.to_nat (4 * i)) with (4 * Z.to_nat i)%nat by lia. apply zero_page_word. lia.
Qed.

(** ** Page tables as finite maps *)

Definition vals (T : gmap Z Z) : list Z := (map_to_list T).*2.

Lemma elem_of_vals T a : a ∈ vals T <-> exists i, T !! i = Some a.
Proof.
  unfold vals. rewrite list_elem_of_fmap. split.
  - intros ([i t] & -> & H%elem_of_map_to_list). by exists i.
  - intros [i H%elem_of_map_to_list]. by exists (i, a).
Qed.

Lemma vals_empty : vals ∅ = [].
Proof. unfold vals. by rewrite map_to_list_empty. Qed.

Lemma vals_insert T i t : T !! i = None -> vals (<[i := t]> T) ≡ₚ t :: vals T.
Proof. intros H. unfold vals. by rewrite map_to_list_insert. Qed.

Lemma vals_delete T i t : T !! i = Some t -> vals T ≡ₚ t :: vals (delete i T).
Proof. intros H. unfold vals. by rewrite <- (map_to_list_delete T i t H). Qed.

Lemma vals_union T1 T2 : T1 ##ₘ T2 -> vals (T1 ∪ T2) ≡ₚ vals T1 ++ vals T2.
Proof.
  induction T1 as [|i t T1 Hi IH] using map_ind; intros Hd.
  - rewrite map_empty_union. reflexivity.
  - apply map_disjoint_insert_l in Hd as [H2 Hd]. rewrite <- insert_union_l.
    rewrite !vals_insert by (try apply lookup_union_None; done). by rewrite IH.
Qed.

Lemma vals_inj T i j a : NoDup (vals T) -> T !! i = Some a -> T !! j = Some a -> i = j.
Proof.
  intros Hn Hi Hj. destruct (decide (i = j)) as [|Hne]; [done|]. exfalso.
  rewrite (vals_delete T i a Hi) in Hn. apply NoDup_cons in Hn as [Hn _]. apply Hn.
  apply elem_of_vals. exists j. by rewrite lookup_delete_ne.
Qed.

Section tables.
Variable kend : Z.
Hypothesis kend_range : KERNBASE < kend <= KERNBASE + PHYSTOP.
Implicit Types (s : kmem_t) (T E : gmap Z Z) (free : list Z).
Abbreviation good_page := (good_page kend).
Abbreviation inv := (inv kend).

Record ptab s (pd : Z) T E : Prop := {
  pt_good : Forall good_page (pd :: vals T);
  pt_nodup : NoDup (pd :: vals T);
  pt_idx : forall i t, T !! i = Some t -> 0 <= i < 1024;
  pt_dir : forall i, 0 <= i < 1024 -> ent s pd i = match T !! i with Some t => t - KERNBASE + 7 | None => 0 end;
  pt_ent : forall n t, T !! (n / 1024) = Some t -> ent s t (n mod 1024) = default 0 (E !! n);
  pt_dom : forall n e, E !! n = Some e -> is_Some (T !! (n / 1024)) /\ has e PTE_P = true /\ 0 <= e < 2 ^ 32;
}.

Lemma good_aligned v : good_page v -> v mod PGSIZE = 0.
Proof. by intros [? _]. Qed.

Lemma pt_tab s pd T E i t : ptab s pd T E -> T !! i = Some t -> good_page t /\ t <> pd.
Proof.
  intros H Ht. assert (t ∈ vals T) as Hin by (apply elem_of_vals; by exists i). split.
  - eapply Forall_forall; [exact (pt_good _ _ _ _ H)|]. by right.
  - intros ->. pose proof (pt_nodup _ _ _ _ H) as Hn. by apply NoDup_cons in Hn as [? _].
Qed.

(** The structure is in the pages of the directory and the tables. *)
Lemma ptab_same s s' pd T E :
  (forall a, a ∈ pd :: vals T -> page (pmem s') a = page (pmem s) a) -> ptab s pd T E -> ptab s' pd T E.
Proof.
  intros Hp [H1 H2 H3 H4 H5 H6]. split; try done.
  - intros i Hi. rewrite (ent_page s s'); [by apply H4|]. apply Hp. by left.
  - intros n t Ht. rewrite (ent_page s s'); [by apply H5|]. apply Hp. right. apply elem_of_vals. eauto.
Qed.

Lemma table_entry t :
  good_page t -> 0 <= t - KERNBASE < 2 ^ 32 /\ (t - KERNBASE) mod PGSIZE = 0 /\ PTE_ADDR (t - KERNBASE + 7) = t - KERNBASE /\
  has (t - KERNBASE + 7) PTE_P = true.
Proof.
  intros [Ha Hr]. assert (0 <= t - KERNBASE < 2 ^ 32) as H1 by (unfold KERNBASE, PHYSTOP in *; lia).
  assert ((t - KERNBASE) mod PGSIZE = 0) as H2 by (rewrite <- Zminus_mod_idemp_l, Ha; reflexivity).
  split; [exact H1|]. split; [exact H2|]. split.
  - by apply PTE_ADDR_entry.
  - by rewrite has_entry.
Qed.

Lemma P2V_good {S} t (s : S) : good_page t -> P2V (t - KERNBASE) s = Ret t s.
Proof.
  intros [Ha Hr]. unfold P2V. destruct (Z.ltb_spec KERNBASE (t - KERNBASE)); [unfold KERNBASE, PHYSTOP in *; lia|].
  unfold ret. rewrite u32_small by (unfold KERNBASE, PHYSTOP in *; lia). f_equal. lia.
Qed.

Lemma V2P_good {S} t (s : S) : good_page t -> V2P t s = Ret (t - KERNBASE) s.
Proof.
  intros [Ha Hr]. unfold V2P. destruct (Z.ltb_spec t KERNBASE); [lia|].
  unfold ret. rewrite u32_small by (unfold KERNBASE, PHYSTOP in *; lia). done.
Qed.

(** *** Walking *)

Definition slot (t n : Z) : Z := t + 4 * (n mod 1024).

Lemma index_range n : 0 <= n mod 1024 < 1024.
Proof. apply Z.mod_pos_bound. lia. Qed.

Lemma va_page n k : 0 <= n < 2 ^ 20 -> 0 <= k < PGSIZE ->
  0 <= PGSIZE * n + k < 2 ^ 32 /\ PDX (PGSIZE * n + k) = n / 1024 /\ PTX (PGSIZE * n + k) = n mod 1024.
Proof.
  intros Hn Hk. assert (0 <= PGSIZE * n + k < 2 ^ 32) as H by (unfold PGSIZE in *; lia).
  rewrite PDX_eq, PTX_eq, page_number by done. done.
Qed.

Lemma dir_range n : 0 <= n < 2 ^ 20 -> 0 <= n / 1024 < 1024.
Proof. intros. split; [apply Z.div_pos; lia|]. apply Z.div_lt_upper_bound; lia. Qed.

Lemma walk_found s pd T E n k t b :
  ptab s pd T E -> 0 <= n < 2 ^ 20 -> 0 <= k < PGSIZE -> T !! (n / 1024) = Some t ->
  walkpgdir pd (PGSIZE * n + k) b s = Ret (slot t n) s.
Proof.
  intros H Hn Hk Ht. destruct (va_page n k Hn Hk) as (_ & Ed & Et). unfold walkpgdir. rewrite Ed, Et.
  pose proof (pt_good _ _ _ _ H) as [Hpd _]%Forall_cons. destruct (pt_tab _ _ _ _ _ _ H Ht) as [Hg _].
  etrans; [apply bind_ret, load32_ent; [by apply good_aligned | by apply dir_range]|].
  rewrite (pt_dir _ _ _ _ H) by by apply dir_range. rewrite Ht.
  destruct (table_entry t Hg) as (_ & _ & E3 & E4). rewrite E3, E4.
  etrans; [apply bind_ret, P2V_good, Hg|]. reflexivity.
Qed.

Lemma walk_none s pd T E n k :
  ptab s pd T E -> 0 <= n < 2 ^ 20 -> 0 <= k < PGSIZE -> T !! (n / 1024) = None ->
  walkpgdir pd (PGSIZE * n + k) false s = Ret 0 s.
Proof.
  intros H Hn Hk Ht. destruct (va_page n k Hn Hk) as (_ & Ed & _). unfold walkpgdir. rewrite Ed.
  pose proof (pt_good _ _ _ _ H) as [Hpd _]%Forall_cons.
  etrans; [apply bind_ret, load32_ent; [by apply good_aligned | by apply dir_range]|].
  rewrite (pt_dir _ _ _ _ H), Ht by by apply dir_range. reflexivity.
Qed.

(** A cleared table enters the directory. *)
Lemma ptab_new_table s s' pd T E i t :
  ptab s pd T E -> 0 <= i < 1024 -> T !! i = None -> good_page t -> t ∉ pd :: vals T ->
  (forall j, 0 <= j < 1024 -> ent s' pd j = if decide (j = i) then t - KERNBASE + 7 else ent s pd j) ->
  (forall j, 0 <= j < 1024 -> ent s' t j = 0) ->
  (forall a, a <> pd -> a <> t -> page (pmem s') a = page (pmem s) a) ->
  ptab s' pd (<[i := t]> T) E.
Proof.
  intros [H1 H2 H3 H4 H5 H6] Hi Ht Hg [Hnpd Hnv]%not_elem_of_cons Hd Hz Hfr. split.
  - apply Forall_cons in H1 as [H1 H1']. constructor; [done|]. rewrite vals_insert by done. by constructor.
  - rewrite vals_insert by done. apply NoDup_cons in H2 as [H2 H2']. apply NoDup_cons. split.
    + apply not_elem_of_cons. by split; [apply not_eq_sym|].
    + by apply NoDup_cons.
  - intros j u. rewrite lookup_insert_Some. intros [[<- _]|[_ Hu]]; [done | by eapply H3].
  - intros j Hj. rewrite Hd by done. destruct (decide (j = i)) as [->|Hne].
    + by rewrite lookup_insert_eq.
    + rewrite lookup_insert_ne by done. by apply H4.
  - intros m u. rewrite lookup_insert_Some. intros [[Em <-]|[Hne Hu]].
    + rewrite Hz by apply index_range. destruct (E !! m) eqn:Em'; [|done].
      apply H6 in Em' as [[? Hx] _]. by rewrite <- Em, Ht in Hx.
    + assert (u ∈ vals T) as Hin by (apply elem_of_vals; eauto). rewrite (ent_page s s'); [by apply H5|].
      apply Hfr; [|by intros ->]. intros ->. by apply NoDup_cons in H2 as [? _].
  - intros m e Hm. destruct (H6 m e Hm) as ([u Hu] & ? & ?). split; [|done].
    apply lookup_insert_is_Some'. right. by exists u.
Qed.

(** A missing table is taken from the free list, cleared and entered. *)
Lemma walk_new s pd T E n k t free :
  ptab s pd T E -> 0 <= n < 2 ^ 20 -> 0 <= k < PGSIZE -> T !! (n / 1024) = None ->
  inv s (t :: free) -> NoDup (t :: free ++ pd :: vals T) ->
  exists s', walkpgdir pd (PGSIZE * n + k) true s = Ret (slot t n) s' /\ inv s' free /\
    ptab s' pd (<[n / 1024 := t]> T) E /\ forall a, a <> pd -> a <> t -> page (pmem s') a = page (pmem s) a.
Proof.
  intros H Hn Hk Ht Hi [Hnt Hnd]%NoDup_cons. destruct (va_page n k Hn Hk) as (_ & Ed & Et).
  unfold walkpgdir. rewrite Ed, Et. pose proof (dir_range n Hn) as Hd.
  pose proof (pt_good _ _ _ _ H) as [Hpd Hgt]%Forall_cons.
  assert (good_page t) as Hg by (destruct Hi as (_ & _ & _ & Hf & _); by apply Forall_cons in Hf as [? _]).
  apply not_elem_of_app in Hnt as [Hnf Hnt]. apply NoDup_app in Hnd as (_ & Hdj & _).
  destruct (kalloc_spec kend kend_range s _ Hi) as (s1 & E1 & Hi1 & Hm1 & _).
  change (kalloc s = Ret t s1) in E1. cbn [tail] in Hi1.
  set (s2 := set_page t zero_page s1). set (s3 := put_ent pd (n / 1024) (t - KERNBASE + 7) s2).
  assert (inv s2 free) as Hi2 by (apply (inv_write kend kend_range); [done | done | apply length_replicate]).
  pose proof (length_page kend s2 free pd Hi2) as Hlen.
  assert (pd <> t) as Hne by (apply not_elem_of_cons in Hnt as [? _]; by apply not_eq_sym).
  destruct (table_entry t Hg) as (Hr & Ha & _ & _).
  assert (0 <= t - KERNBASE + 7 < 2 ^ 32) as Hw.
  { destruct Hg as [_ Hg]. pose proof kend_range. unfold KERNBASE, PHYSTOP in *. lia. }
  exists s3. split_and!.
  - etrans; [apply bind_ret, load32_ent; [by apply good_aligned | done]|].
    rewrite (pt_dir _ _ _ _ H), Ht by done. cbn [negb has Z.land Z.eqb].
    etrans; [apply (bind_ret _ _ _ _ _ E1)|].
    destruct (Z.eqb_spec t 0) as [->|_]; [by destruct (good_page_nonzero kend kend_range 0 Hg)|].
    unfold clear_page. etrans; [apply (bind_ret _ _ _ tt s2); reflexivity|].
    etrans; [apply bind_ret, V2P_good, Hg|]. rewrite pde_eq by done.
    etrans; [apply bind_ret, store32_ent; [by apply good_aligned | done]|]. reflexivity.
  - apply (inv_write kend kend_range); [done | | by rewrite length_set32; rewrite Hlen; lia].
    intros Hin. apply (Hdj pd Hin). by left.
  - apply (ptab_new_table s); try done.
    + intros j Hj. subst s3. rewrite ent_put by done. destruct (decide (j = n / 1024)).
      * by rewrite decide_True.
      * rewrite decide_False by tauto. apply ent_page. cbn. by rewrite page_insert_ne, Hm1.
    + intros j Hj. rewrite (ent_page s2 s3) by by apply page_put_ne, not_eq_sym. by apply ent_clear.
    + intros a H1 H2. subst s3 s2. rewrite page_put_ne by done. cbn. by rewrite page_insert_ne, Hm1.
  - intros a H1 H2. subst s3 s2. rewrite page_put_ne by done. cbn. by rewrite page_insert_ne, Hm1.
Qed.

Lemma walk_full s pd T E n k :
  ptab s pd T E -> 0 <= n < 2 ^ 20 -> 0 <= k < PGSIZE -> T !! (n / 1024) = None ->
  inv s [] -> exists s', walkpgdir pd (PGSIZE * n + k) true s = Ret 0 s' /\ inv s' [] /\ pmem s' = pmem s.
Proof.
  intros H Hn Hk Ht Hi. destruct (va_page n k Hn Hk) as (_ & Ed & _). unfold walkpgdir. rewrite Ed.
  pose proof (pt_good _ _ _ _ H) as [Hpd _]%Forall_cons.
  destruct (kalloc_spec kend kend_range s _ Hi) as (s1 & E1 & Hi1 & Hm1 & _). exists s1. split; [|done].
  etrans; [apply bind_ret, load32_ent; [by apply good_aligned | by apply dir_range]|].
  rewrite (pt_dir _ _ _ _ H), Ht by by apply dir_range. cbn [negb has Z.land Z.eqb].
  etrans; [apply (bind_ret _ _ _ _ _ E1)|]. reflexivity.
Qed.

(** *** Setting and clearing an entry *)

Lemma slot_nonzero s pd T E i t n : ptab s pd T E -> T !! i = Some t -> (slot t n =? 0) = false.
Proof.
  intros H Ht. destruct (pt_tab _ _ _ _ _ _ H Ht) as [[_ Hg] _]. apply Z.eqb_neq. pose proof (index_range n).
  pose proof kend_range. unfold slot, KERNBASE in *. lia.
Qed.

Lemma load_slot s pd T E n t :
  ptab s pd T E -> T !! (n / 1024) = Some t -> load32 (slot t n) s = Ret (default 0 (E !! n)) s.
Proof.
  intros H Ht. destruct (pt_tab _ _ _ _ _ _ H Ht) as [Hg _]. unfold slot.
  rewrite load32_ent by (apply index_range || by apply good_aligned). by rewrite (pt_ent _ _ _ _ H n t Ht).
Qed.

Lemma store_slot s pd T E n t w :
  ptab s pd T E -> T !! (n / 1024) = Some t -> store32 (slot t n) w s = Ret tt (put_ent t (n mod 1024) w s).
Proof.
  intros H Ht. destruct (pt_tab _ _ _ _ _ _ H Ht) as [Hg _]. unfold slot.
  apply store32_ent; [by apply good_aligned | apply index_range].
Qed.

Lemma same_slot s pd T E n m t :
  ptab s pd T E -> T !! (n / 1024) = Some t -> T !! (m / 1024) = Some t -> m mod 1024 = n mod 1024 -> m = n.
Proof.
  intros H Hn Hm E1. pose proof (pt_nodup _ _ _ _ H) as [_ Hd]%NoDup_cons.
  pose proof (vals_inj T _ _ t Hd Hn Hm). pose proof (Z.div_mod n 1024). pose proof (Z.div_mod m 1024). lia.
Qed.

Lemma ptab_put s pd T E n t w E' :
  ptab s pd T E -> length (page (pmem s) t) = 4096%nat -> T !! (n / 1024) = Some t -> 0 <= w < 2 ^ 32 ->
  (forall m, default 0 (E' !! m) = if decide (m = n) then w else default 0 (E !! m)) ->
  (forall m e, E' !! m = Some e -> m = n /\ has e PTE_P = true /\ 0 <= e < 2 ^ 32 \/ E !! m = Some e) ->
  ptab (put_ent t (n mod 1024) w s) pd T E'.
Proof.
  intros H Hl Ht Hw He Hd. pose proof H as [H1 H2 H3 H4 H5 H6]. destruct (pt_tab _ _ _ _ _ _ H Ht) as [_ Hne]. split; try done.
  - intros i Hi. rewrite (ent_page s); [by apply H4|]. by apply page_put_ne, not_eq_sym.
  - intros m u Hu. rewrite ent_put by (done || apply index_range). rewrite He. destruct (decide (m = n)) as [->|Hmn].
    + rewrite Hu in Ht. injection Ht as ->. by rewrite decide_True.
    + rewrite decide_False; [by apply H5|]. intros [-> Em]. apply Hmn. by eapply same_slot.
  - intros m e [(-> & ? & ?)|Hm]%Hd; [|by apply H6]. by split; [exists t|].
Qed.

Lemma ptab_insert s pd T E n t w :
  ptab s pd T E -> length (page (pmem s) t) = 4096%nat -> T !! (n / 1024) = Some t ->
  has w PTE_P = true -> 0 <= w < 2 ^ 32 -> ptab (put_ent t (n mod 1024) w s) pd T (<[n := w]> E).
Proof.
  intros H Hl Ht Hp Hw. apply (ptab_put s _ _ E _ _ _ _ H Hl Ht Hw).
  - intros m. rewrite lookup_insert. by repeat case_decide.
  - intros m e. rewrite lookup_insert_Some. intros [[-> <-]|[_ ?]]; [by left | by right].
Qed.

Lemma ptab_delete s pd T E n t :
  ptab s pd T E -> length (page (pmem s) t) = 4096%nat -> T !! (n / 1024) = Some t ->
  ptab (put_ent t (n mod 1024) 0 s) pd T (delete n E).
Proof.
  intros H Hl Ht. apply (ptab_put s _ _ E _ _ _ _ H Hl Ht); [done| |].
  - intros m. rewrite lookup_delete. by repeat case_decide.
  - intros m e. rewrite lookup_delete_Some. intros [_ ?]. by right.
Qed.

(** *** Mapping a range *)

(** Pages move from the free list to the tables; nothing else changes. *)
Record grows (pd : Z) s free T s' free' T' : Prop := {
  g_inv : inv s' free';
  g_sub : T ⊆ T';
  g_perm : free' ++ vals T' ≡ₚ free ++ vals T;
  g_frame : forall a, a ∉ free -> a ∉ pd :: vals T -> page (pmem s') a = page (pmem s) a;
}.

Lemma grows_refl pd s free T : inv s free -> grows pd s free T s free T.
Proof. by split. Qed.

Lemma grows_free pd s free T s' free' T' a :
  grows pd s free T s' free' T' -> a ∉ free -> a ∉ pd :: vals T -> a ∉ free' /\ a ∉ pd :: vals T'.
Proof.
  intros G Hf [Hp Hv]%not_elem_of_cons. rewrite not_elem_of_cons.
  assert (a ∉ free' ++ vals T') as [? ?]%not_elem_of_app; [|done].
  rewrite (g_perm _ _ _ _ _ _ _ G). by apply not_elem_of_app.
Qed.

Lemma grows_trans pd s1 f1 T1 s2 f2 T2 s3 f3 T3 :
  grows pd s1 f1 T1 s2 f2 T2 -> grows pd s2 f2 T2 s3 f3 T3 -> grows pd s1 f1 T1 s3 f3 T3.
Proof.
  intros G1 G2. split.
  - apply G2.
  - etrans; [apply G1 | apply G2].
  - etrans; [apply G2 | apply G1].
  - intros a Hf Hv. destruct (grows_free _ _ _ _ _ _ _ a G1 Hf Hv) as [Hf' Hv'].
    rewrite (g_frame _ _ _ _ _ _ _ G2) by done. by apply G1.
Qed.

Lemma grows_nodup pd s free T s' free' T' :
  grows pd s free T s' free' T' -> NoDup (free ++ pd :: vals T) -> NoDup (free' ++ pd :: vals T').
Proof.
  intros G. rewrite <- !Permutation_middle. intros [Hn Hd]%NoDup_cons. apply NoDup_cons.
  by rewrite (g_perm _ _ _ _ _ _ _ G).
Qed.

Lemma length_vals T : length (vals T) = size T.
Proof. unfold vals. by rewrite length_fmap, length_map_to_list. Qed.

(** New tables are for directory entries from [lo] to [hi]. *)
Definition new_dirs (lo hi : Z) T T' : Prop := forall i, is_Some (T' !! i) -> is_Some (T !! i) \/ lo <= i <= hi.

Lemma new_dirs_trans lo hi lo1 hi1 lo2 hi2 T1 T2 T3 :
  new_dirs lo1 hi1 T1 T2 -> new_dirs lo2 hi2 T2 T3 -> lo <= lo1 -> hi1 <= hi -> lo <= lo2 -> hi2 <= hi -> new_dirs lo hi T1 T3.
Proof. intros H1 H2 ? ? ? ? i [Hi|Hi]%H2; [|right; lia]. destruct (H1 i Hi); [by left | right; lia]. Qed.

Lemma new_dirs_one i T T' : new_dirs i i T T' -> (size T' <= S (size T))%nat.
Proof.
  intros Hn. rewrite <- !size_dom. etrans; [apply (subseteq_size _ ({[i]} ∪ dom T))|].
  - intros j Hj%elem_of_dom. destruct (Hn j Hj) as [Hj'|Hj']; apply elem_of_union; [right; by apply elem_of_dom | left; apply elem_of_singleton; lia].
  - rewrite size_union_alt, size_singleton. assert (size (dom T ∖ {[i]}) <= size (dom T))%nat; [apply subseteq_size; set_solver | lia].
Qed.

Lemma walk_law s pd T E n free :
  ptab s pd T E -> inv s free -> NoDup (free ++ pd :: vals T) -> 0 <= n < 2 ^ 20 ->
  exists r s' T' free', walkpgdir pd (PGSIZE * n) true s = Ret r s' /\ grows pd s free T s' free' T' /\ ptab s' pd T' E /\
    new_dirs (n / 1024) (n / 1024) T T' /\
    ((r = 0 /\ free = [] /\ free' = [] /\ T !! (n / 1024) = None) \/
     exists t, T' !! (n / 1024) = Some t /\ r = slot t n).
Proof.
  intros H Hi Hnd Hn. replace (PGSIZE * n) with (PGSIZE * n + 0) by lia. destruct (T !! (n / 1024)) as [t|] eqn:Ht.
  - exists (slot t n), s, T, free. split; [by apply (walk_found s pd T E)|]. split; [by apply grows_refl|]. split; [done|]. split; [by intros i; left|]. eauto.
  - destruct free as [|t free].
    + destruct (walk_full s pd T E n 0 H Hn ltac:(done) Ht Hi) as (s' & E1 & Hi' & Hm). exists 0, s', T, [].
      split; [done|]. assert (forall a, page (pmem s') a = page (pmem s) a) as Hp by (intros; by rewrite Hm).
      split; [split; auto|]. split; [by apply (ptab_same s); auto|]. split; [by intros i; left|]. by left.
    + destruct (walk_new s pd T E n 0 t free H Hn ltac:(done) Ht Hi Hnd) as (s' & E1 & Hi' & H' & Hfr).
      exists (slot t n), s', (<[n / 1024 := t]> T), free. split; [done|]. split; [split|].
      * done.
      * by apply insert_subseteq.
      * rewrite vals_insert by done. by rewrite <- Permutation_middle.
      * intros a [Ha _]%not_elem_of_cons [Hb _]%not_elem_of_cons. by apply Hfr.
      * split; [done|]. split; [|right; exists t; by rewrite lookup_insert_eq].
        intros i [<-|?]%lookup_insert_is_Some'; [right; lia | by left].
Qed.

Lemma grows_put pd s free T s' free' T' i t w :
  grows pd s free T s' free' T' -> NoDup (free' ++ pd :: vals T') -> t ∈ vals T' -> 0 <= i < 1024 ->
  grows pd s free T (put_ent t i w s') free' T'.
Proof.
  intros G Hnd Ht Hi. pose proof (length_page kend s' free' t (g_inv _ _ _ _ _ _ _ G)) as Hl. split.
  - apply (inv_write kend kend_range); [apply G | | by rewrite length_set32; rewrite Hl; lia].
    intros Hin. apply NoDup_app in Hnd as (_ & Hd & _). apply (Hd t Hin). by right.
  - apply G.
  - apply G.
  - intros a Hf Hv. rewrite page_put_ne; [by apply G|]. intros ->.
    destruct (grows_free _ _ _ _ _ _ _ t G Hf Hv) as [_ [_ ?]%not_elem_of_cons]. done.
Qed.

Fixpoint add_range (k : nat) (n pa perm : Z) E : gmap Z Z :=
  match k with
  | O => E
  | S k => add_range k (n + 1) (u32 (pa + PGSIZE)) perm (<[n := pte pa perm]> E)
  end.

Lemma add_range_lookup k n pa perm E m :
  0 <= pa -> pa + PGSIZE * Z.of_nat k <= 2 ^ 32 ->
  add_range k n pa perm E !! m =
    if decide (n <= m < n + Z.of_nat k) then Some (pte (pa + PGSIZE * (m - n)) perm) else E !! m.
Proof.
  revert n pa E. induction k as [|k IH]; intros n pa E Hp Hr; cbn [add_range].
  - rewrite decide_False by lia. done.
  - destruct k as [|k'].
    + cbn [add_range]. rewrite lookup_insert. repeat case_decide; try lia; try done. subst. do 2 f_equal. lia.
    + rewrite u32_small by (unfold PGSIZE in *; lia).
      rewrite IH by (unfold PGSIZE in *; lia). rewrite lookup_insert. unfold PGSIZE in *.
      repeat case_decide; try lia; try done; do 2 f_equal; lia.
Qed.

(** One round of the loop: there is no page for a table, or the entry is set. *)
Lemma mappages_step s free T E n pd pa perm :
  ptab s pd T E -> inv s free -> NoDup (free ++ pd :: vals T) -> 0 <= n < 2 ^ 20 -> E !! n = None ->
  0 <= pa < 2 ^ 32 -> pa mod PGSIZE = 0 -> 0 <= perm < PGSIZE ->
  exists s' T' free', grows pd s free T s' free' T' /\ new_dirs (n / 1024) (n / 1024) T T' /\
    ((free = [] /\ free' = [] /\ ptab s' pd T' E /\
      forall fuel last, mappages_loop (S fuel) pd (PGSIZE * n) last pa perm s = Ret (-1) s') \/
     (ptab s' pd T' (<[n := pte pa perm]> E) /\
      forall fuel last, mappages_loop (S fuel) pd (PGSIZE * n) last pa perm s =
        (if PGSIZE * n =? last then ret 0
         else mappages_loop fuel pd (u32 (PGSIZE * n + PGSIZE)) last (u32 (pa + PGSIZE)) perm) s')).
Proof.
  intros H Hi Hnd Hn He Hpa Hal Hperm.
  destruct (walk_law s pd T E n free H Hi Hnd Hn) as (r & s1 & T1 & f1 & E1 & G & H1 & Hnd1 & Hr).
  destruct Hr as [(-> & -> & -> & _)|(t & Ht & ->)].
  { exists s1, T1, []. split; [done|]. split; [done|]. left. split; [done|]. split; [done|]. split; [done|]. intros fuel last. cbn [mappages_loop].
    etrans; [apply (bind_ret _ _ _ _ _ E1)|]. reflexivity. }
  pose proof (length_page kend s1 f1 t (g_inv _ _ _ _ _ _ _ G)) as Hl.
  exists (put_ent t (n mod 1024) (pte pa perm) s1), T1, f1. split.
  { apply grows_put; [done | by eapply grows_nodup | apply elem_of_vals; eauto | apply index_range]. }
  split; [done|]. right. split.
  { apply ptab_insert; [done | done | done | by apply has_pte | by apply pte_range]. }
  intros fuel last. cbn [mappages_loop]. etrans; [apply (bind_ret _ _ _ _ _ E1)|].
  rewrite (slot_nonzero s1 pd T1 E _ _ _ H1 Ht). etrans; [apply (bind_ret _ _ _ _ _ (load_slot s1 pd T1 E n t H1 Ht))|].
  rewrite He. cbn [default has Z.land Z.eqb negb]. rewrite pte_eq by done.
  etrans; [apply (bind_ret _ _ _ _ _ (store_slot s1 pd T1 E n t _ H1 Ht))|]. reflexivity.
Qed.

Lemma mappages_loop_law perm k : 0 <= perm < PGSIZE -> forall s free T E n pd pa,
  ptab s pd T E -> inv s free -> NoDup (free ++ pd :: vals T) ->
  0 <= n -> n + Z.of_nat k < 2 ^ 20 -> (forall m, n <= m <= n + Z.of_nat k -> E !! m = None) ->
  0 <= pa -> pa + PGSIZE * (Z.of_nat k + 1) <= 2 ^ 32 -> pa mod PGSIZE = 0 ->
  exists r s' T' free' j, mappages_loop (S k) pd (PGSIZE * n) (PGSIZE * (n + Z.of_nat k)) pa perm s = Ret r s' /\
    grows pd s free T s' free' T' /\ ptab s' pd T' (add_range j n pa perm E) /\
    new_dirs (n / 1024) ((n + Z.of_nat k) / 1024) T T' /\
    (r = 0 /\ j = S k \/ r = -1 /\ (j <= k)%nat /\ free' = [] /\ (j = O -> free = [])).
Proof.
  intros Hperm. induction k as [|k IH]; intros s free T E n pd pa H Hi Hnd Hn Hk He Hpa Hpr Hal.
  all: destruct (mappages_step s free T E n pd pa perm) as (s1 & T1 & f1 & G & Hnd1 & [(Hf0 & -> & H1 & E1)|(H1 & E1)]);
    [done | done | done | lia | apply He; lia | unfold PGSIZE in *; lia | done | done | |].
  1, 3: exists (-1), s1, T1, [], O; split; [apply E1|]; split; [done|]; split; [done|]; split; [|right; split; [done|]; split; [lia | done]];
    intros i [?|?]%Hnd1; [by left | right; split; [lia|]; etrans; [|apply (Z.div_le_mono n); lia]; lia].
  - exists 0, s1, T1, f1, 1%nat. split; [|split; [done|]; split; [done|]; split; [|by left]].
    2: { intros i [?|?]%Hnd1; [by left | right]. by rewrite Z.add_0_r. }
    rewrite E1, Z.add_0_r, Z.eqb_refl. reflexivity.
  - assert (u32 (pa + PGSIZE) = pa + PGSIZE) as Eu by (apply u32_small; unfold PGSIZE in *; lia).
    destruct (IH s1 f1 T1 (<[n := pte pa perm]> E) (n + 1) pd (u32 (pa + PGSIZE)))
      as (r & s' & T' & f' & j & E3 & G3 & H3 & Hnd3 & Hr); [done | apply G | by eapply grows_nodup | lia | lia | | | | |].
    + intros m Hm. rewrite lookup_insert_ne by lia. apply He. lia.
    + apply u32_range.
    + rewrite Eu. lia.
    + rewrite Eu, <- Zplus_mod_idemp_l, Hal. reflexivity.
    + exists r, s', T', f', (S j). split_and!; [| by eapply grows_trans | done | |].
      * rewrite E1. destruct (Z.eqb_spec (PGSIZE * n) (PGSIZE * (n + Z.of_nat (S k)))); [unfold PGSIZE in *; lia|].
        rewrite (u32_small (PGSIZE * n + PGSIZE)) by (unfold PGSIZE in *; lia).
        replace (PGSIZE * n + PGSIZE) with (PGSIZE * (n + 1)) by lia.
        replace (n + Z.of_nat (S k)) with (n + 1 + Z.of_nat k) by lia. exact E3.
      * eapply new_dirs_trans; [exact Hnd1 | exact Hnd3 | lia | | | ].
        1: apply Z.div_le_mono; lia. 1: apply Z.div_le_mono; lia. replace (n + 1 + Z.of_nat k) with (n + Z.of_nat (S k)) by lia. lia.
      * destruct Hr as [[-> ->]|(-> & ? & ? & _)]; [by left | right]. split; [done|]. split; [lia | done].
Qed.

(** [mappages] of [k + 1] whole pages. *)
Lemma mappages_eq pd n k pa perm s :
  0 <= n -> n + Z.of_nat k < 2 ^ 20 ->
  mappages pd (PGSIZE * n) (PGSIZE * (Z.of_nat k + 1)) pa perm s =
    mappages_loop (S k) pd (PGSIZE * n) (PGSIZE * (n + Z.of_nat k)) pa perm s.
Proof.
  intros Hn Hk. unfold mappages. cbn zeta.
  rewrite (u32_small (PGSIZE * n + _ - 1)) by (unfold PGSIZE in *; lia).
  rewrite !PGROUNDDOWN_eq by (unfold PGSIZE in *; lia).
  replace (PGSIZE * n + PGSIZE * (Z.of_nat k + 1) - 1) with (PGSIZE * (n + Z.of_nat k) + (PGSIZE - 1)) by (unfold PGSIZE; lia).
  rewrite page_number by (unfold PGSIZE; lia). replace (PGSIZE * n / PGSIZE) with n by (rewrite Z.mul_comm, Z.div_mul; done).
  replace (PGSIZE * (n + Z.of_nat k) - PGSIZE * n) with (Z.of_nat k * PGSIZE) by lia.
  rewrite u32_small by (unfold PGSIZE in *; lia). rewrite Z.div_mul by done. by rewrite Nat2Z.id.
Qed.
End tables.
