(* ===== verification/VmInv.v ===== *)
(** * Address spaces

    An address space owns its directory, its tables and the frames of its
    user pages; all of them, and the free pages, are distinct.  Each
    operation of vm.c is shown to keep this, with the pages it moves between
    the space and the free list and the pages whose contents it may change. *)

From S2P Require Import Prelude Kalloc Vm VmTab.

(** ** Entries of a range of pages *)

(** The kernel address of the page an entry refers to. *)
Definition frame (e : Z) : Z := PTE_ADDR e + KERNBASE.

(** The number of pages below [KERNBASE]. *)
Definition USER : Z := 524288.

Definition within (lo hi : Z) (E : gmap Z Z) : gmap Z Z := filter (fun p => lo <= p.1 < hi) E.
Definition cut (lo hi : Z) (E : gmap Z Z) : gmap Z Z := filter (fun p => ~ (lo <= p.1 < hi)) E.
Definition frames (E : gmap Z Z) : list Z := frame <$> vals E.

Lemma within_lookup lo hi E n :
  within lo hi E !! n = if decide (lo <= n < hi) then E !! n else None.
Proof.
  unfold within. apply option_eq. intros x. rewrite map_lookup_filter_Some. cbn [fst].
  case_decide; naive_solver.
Qed.

Lemma cut_lookup lo hi E n : cut lo hi E !! n = if decide (lo <= n < hi) then None else E !! n.
Proof.
  unfold cut. apply option_eq. intros x. rewrite map_lookup_filter_Some. cbn [fst].
  case_decide; naive_solver.
Qed.

Lemma elem_of_frames E a : a ∈ frames E <-> exists n e, E !! n = Some e /\ a = frame e.
Proof.
  unfold frames. rewrite list_elem_of_fmap. split.
  - intros (e & -> & [n Hn]%elem_of_vals). eauto.
  - intros (n & e & Hn & ->). exists e. split; [done|]. apply elem_of_vals. eauto.
Qed.

Lemma frames_insert E n e : E !! n = None -> frames (<[n := e]> E) ≡ₚ frame e :: frames E.
Proof. intros. unfold frames. by rewrite vals_insert. Qed.

Lemma frames_delete E n e : E !! n = Some e -> frames E ≡ₚ frame e :: frames (delete n E).
Proof. intros. unfold frames. by rewrite (vals_delete E n e). Qed.

Ltac map_ext := apply map_eq; intros ?; rewrite ?cut_lookup, ?within_lookup, ?lookup_delete, ?lookup_insert, ?cut_lookup, ?within_lookup;
  repeat case_decide; try done; try lia.

Lemma cut_step lo hi E : lo < hi -> cut lo hi E = cut (lo + 1) hi (delete lo E).
Proof. intros. map_ext. Qed.

Lemma within_step lo hi E : lo < hi -> delete lo (within lo hi E) = within (lo + 1) hi (delete lo E).
Proof. intros. map_ext. Qed.

Lemma within_delete lo hi E n : within lo hi (delete n E) = delete n (within lo hi E).
Proof. map_ext. Qed.

Lemma within_insert lo hi E n e : lo <= n < hi -> within lo hi (<[n := e]> E) = <[n := e]> (within lo hi E).
Proof. intros. map_ext; congruence. Qed.

(** Nothing is mapped between [lo] and [lo']. *)
Lemma cut_skip lo lo' hi E : lo <= lo' -> (forall n, lo <= n < lo' -> E !! n = None) -> cut lo hi E = cut lo' hi E.
Proof. intros ? He. map_ext; symmetry; apply He; lia. Qed.

Lemma within_skip lo lo' hi E :
  lo <= lo' -> (forall n, lo <= n < lo' -> E !! n = None) -> within lo hi E = within lo' hi E.
Proof. intros ? He. map_ext; apply He; lia. Qed.

Lemma within_nil lo hi E : hi <= lo -> within lo hi E = ∅.
Proof. intros. apply map_eq. intros n. rewrite within_lookup, lookup_empty. case_decide; [lia | done]. Qed.

Lemma cut_nil lo hi E : hi <= lo -> cut lo hi E = E.
Proof. intros. map_ext. Qed.

(** The frames of a part and of the rest. *)
Lemma frames_split lo hi E : frames E ≡ₚ frames (cut lo hi E) ++ frames (within lo hi E).
Proof.
  unfold frames. rewrite <- fmap_app, <- vals_union.
  - replace (cut lo hi E ∪ within lo hi E) with E; [done|]. apply map_eq. intros n.
    rewrite lookup_union, cut_lookup, within_lookup. case_decide; by destruct (E !! n).
  - apply map_disjoint_spec. intros n x y. rewrite cut_lookup, within_lookup. by case_decide.
Qed.

Lemma frame_pte v perm :
  v mod PGSIZE = 0 -> KERNBASE <= v < KERNBASE + 2 ^ 31 -> 0 <= perm < PGSIZE -> frame (pte (v - KERNBASE) perm) = v.
Proof.
  intros Hv Hr Hp. unfold frame, pte. rewrite PTE_ADDR_entry; [lia | lia | | by apply flags_range].
  rewrite <- Zminus_mod_idemp_l, Hv. reflexivity.
Qed.

(** The pages an address space owns. *)
Definition uframes (E : gmap Z Z) : list Z := frames (within 0 USER E).
Definition owns (pd : Z) (T E : gmap Z Z) : list Z := pd :: vals T ++ uframes E.

(** Pages outside [W] keep their contents. *)
Definition same_but (W : list Z) (s s' : kmem_t) : Prop := forall a, a ∉ W -> page (pmem s') a = page (pmem s) a.

Lemma same_but_refl W s : same_but W s s.
Proof. by intros a _. Qed.

Lemma same_but_trans W s1 s2 s3 : same_but W s1 s2 -> same_but W s2 s3 -> same_but W s1 s3.
Proof. intros H1 H2 a Ha. rewrite (H2 a Ha). by apply H1. Qed.

Lemma same_but_mono W W' s s' : W ⊆ W' -> same_but W s s' -> same_but W' s s'.
Proof. intros Hw H a Ha. apply H. set_solver. Qed.

Section spaces.
Variable kend : Z.
Hypothesis kend_range : KERNBASE < kend <= KERNBASE + PHYSTOP.
Implicit Types (s : kmem_t) (T E : gmap Z Z) (free W : list Z).
Abbreviation good_page := (good_page kend).
Abbreviation inv := (inv kend).
Abbreviation ptab := (ptab kend).

(** ** Ownership *)

Record aspace s free (pd : Z) T E : Prop := {
  as_inv : inv s free;
  as_tab : ptab s pd T E;
  as_nodup : NoDup (free ++ owns pd T E);
  as_good : Forall good_page (uframes E);
}.

Lemma aspace_nodup_tables s free pd T E : aspace s free pd T E -> NoDup (free ++ pd :: vals T).
Proof.
  intros [_ _ H _]. unfold owns in H. change (pd :: vals T ++ uframes E) with ((pd :: vals T) ++ uframes E) in H.
  rewrite app_assoc in H. by apply NoDup_app in H as [H _].
Qed.

Lemma uframes_apart s free pd T E a :
  aspace s free pd T E -> a ∈ uframes E -> a ∉ free /\ a ∉ pd :: vals T.
Proof.
  intros [_ _ Hnd _] Ha. change (owns pd T E) with ((pd :: vals T) ++ uframes E) in Hnd.
  rewrite app_assoc in Hnd. apply NoDup_app in Hnd as (_ & Hd & _). split; intros H; apply (Hd a); set_solver.
Qed.

Lemma elem_of_uframes E a : a ∈ uframes E <-> exists n e, 0 <= n < USER /\ E !! n = Some e /\ a = frame e.
Proof.
  unfold uframes. rewrite elem_of_frames. split.
  - intros (n & e & Hn & ->). rewrite within_lookup in Hn. case_decide; [eauto | done].
  - intros (n & e & Hn & He & ->). exists n, e. by rewrite within_lookup, decide_True.
Qed.

Lemma frame_apart s free pd T E n e :
  aspace s free pd T E -> 0 <= n < USER -> E !! n = Some e ->
  good_page (frame e) /\ frame e ∉ free /\ frame e ∉ pd :: vals T.
Proof.
  intros H Hn He. assert (frame e ∈ uframes E) as Hin by (apply elem_of_uframes; eauto). split.
  - by apply (proj1 (Forall_forall _ _) (as_good _ _ _ _ _ H)).
  - by apply (uframes_apart s free pd T E).
Qed.

Lemma P2V_frame {St} s free pd T E n e (x : St) :
  aspace s free pd T E -> 0 <= n < USER -> E !! n = Some e ->
  (PTE_ADDR e =? 0) = false /\ P2V (PTE_ADDR e) x = Ret (frame e) x.
Proof.
  intros H Hn He. destruct (frame_apart _ _ _ _ _ _ _ H Hn He) as (Hg & _ & _). split.
  - apply Z.eqb_neq. destruct Hg as [_ Hg]. pose proof kend_range. unfold frame in Hg. lia.
  - pose proof (P2V_good kend kend_range (frame e) x Hg) as E1. unfold frame in *.
    by replace (PTE_ADDR e + KERNBASE - KERNBASE) with (PTE_ADDR e) in E1 by lia.
Qed.

(** Unmapping a user page: its frame goes to the free list. *)
Lemma unmap_law s free pd T E n e t :
  aspace s free pd T E -> 0 <= n < USER -> E !! n = Some e -> T !! (n / 1024) = Some t ->
  exists s1, kfree kend (frame e) s = Ret tt s1 /\
    aspace (put_ent t (n mod 1024) 0 s1) (frame e :: free) pd T (delete n E) /\ ptab s1 pd T E /\
    same_but (frame e :: pd :: vals T) s (put_ent t (n mod 1024) 0 s1).
Proof.
  intros H Hn He Ht. destruct (frame_apart _ _ _ _ _ _ _ H Hn He) as (Hg & Hf & Hv).
  destruct (kfree_spec kend kend_range (frame e) s free (as_inv _ _ _ _ _ H) Hg Hf) as (s1 & E1 & Hi1 & _ & Hp & _).
  assert (ptab s1 pd T E) as H1.
  { apply (ptab_same kend s); [|apply H]. intros a Ha. apply Hp. by intros ->. }
  pose proof (length_page kend s1 _ t Hi1) as Hl. pose proof (index_range n).
  assert (t ∈ vals T) as Htv by (apply elem_of_vals; eauto).
  assert (uframes E ≡ₚ frame e :: uframes (delete n E)) as Hu.
  { unfold uframes. rewrite within_delete. apply frames_delete. by rewrite within_lookup, decide_True. }
  exists s1. split; [done|]. split; [split|split; [done|]].
  - apply (inv_write kend kend_range); [done | | by rewrite length_set32; rewrite Hl; lia].
    intros [->|Hin]%elem_of_cons; [apply Hv; by right|].
    pose proof (aspace_nodup_tables _ _ _ _ _ H) as (_ & Hd & _)%NoDup_app. apply (Hd t Hin). by right.
  - by apply ptab_delete.
  - pose proof (as_nodup _ _ _ _ _ H) as Hnd. unfold owns in *. revert Hnd. rewrite Hu. clear.
    intros Hnd. eapply NoDup_Permutation_proper; [|exact Hnd]. solve_Permutation.
  - pose proof (as_good _ _ _ _ _ H) as Hgu. rewrite Hu in Hgu. by apply Forall_cons in Hgu as [_ ?].
  - intros a [Ha Hv']%not_elem_of_cons. rewrite page_put_ne by (intros ->; apply Hv'; by right). by apply Hp.
Qed.

(** ** Shrinking *)

Lemma PGADDR_next n :
  0 <= n < USER -> u32 (u32 (PGADDR (PDX (PGSIZE * n) + 1) 0 0 - PGSIZE) + PGSIZE) = PGSIZE * (1024 * (n / 1024 + 1)).
Proof.
  intros Hn. unfold USER in Hn. destruct (va_page n 0) as (_ & Ed & _); [lia | done|]. rewrite Z.add_0_r in Ed.
  rewrite Ed, u32_add_l. unfold PGADDR, PDXSHIFT, PTXSHIFT. rewrite !Z.shiftl_0_l, !Z.lor_0_r, Z.shiftl_mul_pow2 by lia.
  replace (u32 ((n / 1024 + 1) * 2 ^ 22) - PGSIZE + PGSIZE) with (u32 ((n / 1024 + 1) * 2 ^ 22)) by lia.
  assert (n / 1024 < 512) by (apply Z.div_lt_upper_bound; lia). assert (0 <= n / 1024) by (apply Z.div_pos; lia).
  rewrite !u32_small; unfold PGSIZE; try lia. rewrite u32_small; lia.
Qed.

(** The number of pages that cover [sz] bytes. *)
Definition pages (sz : Z) : Z := (sz + PGSIZE - 1) / PGSIZE.

Lemma pages_lt n sz : PGSIZE * n < sz <-> n < pages sz.
Proof. unfold pages, PGSIZE. Z.div_mod_to_equations. lia. Qed.

Lemma PGROUNDUP_pages sz : 0 <= sz <= 2 ^ 32 - PGSIZE -> PGROUNDUP sz = PGSIZE * pages sz.
Proof.
  intros Hsz. destruct (PGROUNDUP_spec sz Hsz) as [Ha Hr]. apply Z.mod_divide in Ha as [q Hq]; [|done].
  unfold pages. rewrite Hq in *. unfold PGSIZE in *. Z.div_mod_to_equations. lia.
Qed.

Lemma pages_range sz : 0 <= sz <= KERNBASE -> 0 <= pages sz <= USER.
Proof. unfold pages, USER, PGSIZE, KERNBASE. intros. Z.div_mod_to_equations. lia. Qed.

Lemma no_table_no_entry s pd T E n :
  ptab s pd T E -> T !! (n / 1024) = None -> forall m, n <= m < 1024 * (n / 1024 + 1) -> E !! m = None.
Proof.
  intros H Ht m Hm. destruct (E !! m) eqn:Em; [|done]. apply (pt_dom kend _ _ _ _ H) in Em as [[t Hx] _].
  assert (m / 1024 = n / 1024) as E1 by (Z.div_mod_to_equations; lia). by rewrite E1, Ht in Hx.
Qed.

(** One round of the loop where there is a table. *)
Lemma deallocuvm_step s free pd T E n hi t oldsz :
  aspace s free pd T E -> 0 <= n < hi -> hi <= USER -> PGSIZE * n < oldsz -> T !! (n / 1024) = Some t ->
  exists s1 free1, aspace s1 free1 pd T (delete n E) /\
    free1 ++ frames (within (n + 1) hi (delete n E)) ≡ₚ free ++ frames (within n hi E) /\
    same_but (pd :: vals T ++ frames (within n hi E)) s s1 /\
    forall fuel, deallocuvm_loop kend (S fuel) pd (PGSIZE * n) oldsz s = deallocuvm_loop kend fuel pd (PGSIZE * (n + 1)) oldsz s1.
Proof.
  intros H Hn Hhi Hlt Ht. pose proof (as_tab _ _ _ _ _ H) as Hpt. assert (0 <= n < 2 ^ 20) as Hn20 by (unfold USER in *; lia).
  pose proof (walk_found kend kend_range s pd T E n 0 t false Hpt Hn20 ltac:(done) Ht) as E1. rewrite Z.add_0_r in E1.
  rewrite <- within_step by lia. destruct (E !! n) as [e|] eqn:He.
  - assert (0 <= n < USER) as Hnu by lia. destruct (unmap_law s free pd T E n e t H Hnu He Ht) as (s1 & E3 & H1 & Hpt1 & Hs1).
    assert (within n hi E !! n = Some e) as Hw by (rewrite within_lookup, decide_True; [done | lia]).
    do 2 eexists. split; [exact H1|]. split_and!.
    + rewrite (frames_delete _ _ _ Hw). solve_Permutation.
    + eapply same_but_mono; [|exact Hs1]. intros a. rewrite (frames_delete _ _ _ Hw). set_solver.
    + intros fuel. cbn [deallocuvm_loop]. rewrite (proj2 (Z.ltb_lt _ _) Hlt).
      etrans; [apply (bind_ret _ _ _ _ _ E1)|]. rewrite (slot_nonzero kend kend_range s pd T E _ _ _ Hpt Ht).
      etrans; [apply (bind_ret _ _ _ _ _ (load_slot kend s pd T E n t Hpt Ht))|]. rewrite He. cbn [default].
      destruct (pt_dom kend _ _ _ _ Hpt n e He) as (_ & Hpr & _). unfold id. rewrite Hpr. cbn [when].
      destruct (P2V_frame s free pd T E n e s H Hnu He) as [Hz Hpv]. rewrite Hz.
      assert ((let! v := P2V (PTE_ADDR e) in kfree kend v ;; store32 (slot t n) 0) s = Ret tt (put_ent t (n mod 1024) 0 s1)) as E4.
      { etrans; [apply (bind_ret _ _ _ _ _ Hpv)|]. etrans; [apply (bind_ret _ _ _ _ _ E3)|]. by apply (store_slot kend s1 pd T E). }
      etrans; [apply (bind_ret _ _ _ _ _ E4)|].
      rewrite u32_small by (unfold PGSIZE, USER in *; lia). by replace (PGSIZE * n + PGSIZE) with (PGSIZE * (n + 1)) by lia.
  - exists s, free. rewrite (delete_id E n He). rewrite delete_id by (rewrite within_lookup; by case_decide).
    split_and!; [done | done | apply same_but_refl|]. intros fuel. cbn [deallocuvm_loop]. rewrite (proj2 (Z.ltb_lt _ _) Hlt).
    etrans; [apply (bind_ret _ _ _ _ _ E1)|]. rewrite (slot_nonzero kend kend_range s pd T E _ _ _ Hpt Ht).
    etrans; [apply (bind_ret _ _ _ _ _ (load_slot kend s pd T E n t Hpt Ht))|]. rewrite He. cbn [default has Z.land Z.eqb negb when].
    rewrite u32_small by (unfold PGSIZE, USER in *; lia). by replace (PGSIZE * n + PGSIZE) with (PGSIZE * (n + 1)) by lia.
Qed.

Lemma deallocuvm_loop_law pd T oldsz fuel : oldsz <= KERNBASE -> forall s free E n,
  aspace s free pd T E -> 0 <= n -> (Z.to_nat (pages oldsz - n) < fuel)%nat ->
  exists s' free', deallocuvm_loop kend fuel pd (PGSIZE * n) oldsz s = Ret tt s' /\
    aspace s' free' pd T (cut n (pages oldsz) E) /\ free' ≡ₚ free ++ frames (within n (pages oldsz) E) /\
    same_but (pd :: vals T ++ frames (within n (pages oldsz) E)) s s'.
Proof.
  intros Hold. assert (pages oldsz <= USER) as Hpu by (unfold pages, USER, PGSIZE, KERNBASE in *; Z.div_mod_to_equations; lia).
  induction fuel as [|fuel IH]; intros s free E n H Hn Hfuel; [lia|].
  destruct (Z.ltb_spec (PGSIZE * n) oldsz) as [Hlt|Hge].
  2: { assert (pages oldsz <= n) by (apply Z.le_ngt; rewrite <- pages_lt; lia). cbn [deallocuvm_loop].
       rewrite (proj2 (Z.ltb_ge _ _) Hge). exists s, free. rewrite cut_nil, within_nil by done.
       split_and!; [done | done | by rewrite app_nil_r | apply same_but_refl]. }
  pose proof (proj1 (pages_lt _ _) Hlt) as Hnp. pose proof (as_tab _ _ _ _ _ H) as Hpt.
  destruct (T !! (n / 1024)) as [t|] eqn:Ht.
  - destruct (deallocuvm_step s free pd T E n (pages oldsz) t oldsz H) as (s1 & free1 & H1 & Hp1 & Hs1 & E1); [lia | done | done | done|].
    destruct (IH s1 free1 (delete n E) (n + 1) H1) as (s' & free' & E2 & H2 & Hp2 & Hs2); [lia | lia|].
    exists s', free'. rewrite E1, cut_step by done. split_and!; [done | done | by rewrite Hp2|].
    eapply same_but_trans; [exact Hs1|]. eapply same_but_mono; [|exact Hs2]. rewrite <- within_step by done.
    intros a. destruct (within n (pages oldsz) E !! n) as [e|] eqn:Hw.
    + rewrite (frames_delete _ _ _ Hw). set_solver.
    + by rewrite delete_id.
  - pose proof (walk_none kend s pd T E n 0 Hpt ltac:(unfold USER in *; lia) ltac:(done) Ht) as E1. rewrite Z.add_0_r in E1.
    pose proof (no_table_no_entry s pd T E n Hpt Ht) as Hno.
    assert (n < 1024 * (n / 1024 + 1)) as Hadv by (Z.div_mod_to_equations; lia).
    rewrite (cut_skip n (1024 * (n / 1024 + 1))), (within_skip n (1024 * (n / 1024 + 1))) by (done || lia).
    destruct (IH s free E (1024 * (n / 1024 + 1)) H) as (s' & free' & E2 & R); [lia | lia|].
    exists s', free'. split; [|exact R]. cbn [deallocuvm_loop]. rewrite (proj2 (Z.ltb_lt _ _) Hlt).
    etrans; [apply (bind_ret _ _ _ _ _ E1)|]. cbn [Z.eqb]. by rewrite PGADDR_next by lia.
Qed.

(** [deallocuvm(pgdir, oldsz, newsz)] unmaps the pages from [newsz] to
    [oldsz]; their frames become free. *)
Lemma deallocuvm_law s free pd T E oldsz newsz :
  aspace s free pd T E -> 0 <= newsz <= oldsz -> oldsz <= KERNBASE ->
  exists s' free', deallocuvm kend pd oldsz newsz s = Ret newsz s' /\
    aspace s' free' pd T (cut (pages newsz) (pages oldsz) E) /\
    free' ≡ₚ free ++ frames (within (pages newsz) (pages oldsz) E) /\
    same_but (pd :: vals T ++ frames (within (pages newsz) (pages oldsz) E)) s s'.
Proof.
  intros H Hsz Hk. unfold deallocuvm. destruct (Z.leb_spec oldsz newsz).
  { assert (oldsz = newsz) as -> by lia. exists s, free. rewrite cut_nil, within_nil by lia.
    split_and!; [done | done | by rewrite app_nil_r | apply same_but_refl]. }
  rewrite PGROUNDUP_pages by (unfold KERNBASE, PGSIZE in *; lia).
  destruct (deallocuvm_loop_law pd T oldsz (S (Z.to_nat (oldsz / PGSIZE + 1))) Hk s free E (pages newsz) H)
    as (s' & free' & E1 & R).
  - unfold pages, PGSIZE. Z.div_mod_to_equations. lia.
  - unfold pages, PGSIZE. Z.div_mod_to_equations. lia.
  - exists s', free'. split; [|exact R]. etrans; [apply (bind_ret _ _ _ _ _ E1)|]. done.
Qed.

(** ** Freeing *)

Lemma vals_within_step T i t : 0 <= i -> T !! i = Some t -> vals (within 0 (i + 1) T) ≡ₚ t :: vals (within 0 i T).
Proof.
  intros Hi Ht. replace (within 0 (i + 1) T) with (<[i := t]> (within 0 i T)).
  - apply vals_insert. rewrite within_lookup. case_decide; [lia | done].
  - map_ext. by subst.
Qed.

Lemma within_none_step T i : T !! i = None -> within 0 (i + 1) T = within 0 i T.
Proof. intros. map_ext. by replace i0 with i by lia. Qed.

(** The loop over the directory frees the tables. *)
Lemma free_tables s free pd T E :
  inv s free -> ptab s pd T E -> NoDup (free ++ pd :: vals T) ->
  wp (for_ 1024 0 (fun i =>
      let! e := load32 (pd + 4 * i) in when (has e PTE_P) (let! v := P2V (PTE_ADDR e) in kfree kend v)))
    (fun _ s' => exists free', inv s' free' /\ free' ≡ₚ free ++ vals T /\ same_but (vals T) s s') s.
Proof.
  intros Hi H Hnd. pose proof (pt_good _ _ _ _ _ H) as [Hpd Hgt]%Forall_cons.
  assert (pd ∉ vals T) as Hpv by (pose proof (pt_nodup _ _ _ _ _ H) as [? _]%NoDup_cons; done).
  assert (forall i, vals (within 0 i T) ⊆ vals T) as Hsub.
  { intros i a. rewrite !elem_of_vals. intros (j & Hj). exists j. rewrite within_lookup in Hj. by case_decide. }
  set (I i s' := exists f', inv s' f' /\ f' ≡ₚ free ++ vals (within 0 i T) /\ same_but (vals T) s s').
  eapply wp_mono; [apply (wp_for I)|].
  - exists free. rewrite within_nil by lia. split_and!; [done | by rewrite app_nil_r | apply same_but_refl].
  - intros i s1 Hir (f1 & Hi1 & Hp1 & Hs1). apply wp_bind. eapply wp_run; [apply load32_ent; [by apply (good_aligned kend) | lia]|].
    cbn beta. rewrite (ent_page s s1) by by apply Hs1. rewrite (pt_dir _ _ _ _ _ H) by lia.
    destruct (T !! i) as [t|] eqn:Ht.
    + destruct (pt_tab _ _ _ _ _ _ _ H Ht) as [Hg _]. destruct (table_entry kend kend_range t Hg) as (_ & _ & E3 & E4).
      rewrite E3, E4. cbn [when]. apply wp_bind. eapply wp_run; [by apply (P2V_good kend)|]. cbn beta.
      destruct (kfree_spec kend kend_range t s1 f1 Hi1 Hg) as (s2 & E2 & Hi2 & _ & Hp2 & _).
      { rewrite Hp1. intros [Hin|Hin]%elem_of_app.
        - apply NoDup_app in Hnd as (_ & Hd & _). apply (Hd t Hin). right. apply elem_of_vals. eauto.
        - apply elem_of_vals in Hin as (j & Hj). rewrite within_lookup in Hj. case_decide; [|done].
          pose proof (pt_nodup _ _ _ _ _ H) as [_ Hd]%NoDup_cons. pose proof (vals_inj T i j t Hd Ht Hj). lia. }
      eapply wp_run; [exact E2|]. exists (t :: f1). split_and!; [done | |].
      * rewrite Hp1, vals_within_step by (done || lia). solve_Permutation.
      * eapply same_but_trans; [exact Hs1|]. intros a Ha. apply Hp2. intros ->. apply Ha, elem_of_vals. eauto.
    + apply wp_ret. exists f1. by rewrite within_none_step.
  - intros _ s' (f' & ? & Hp & ?). exists f'. split_and!; [done | | done]. rewrite Hp.
    replace (within 0 (0 + Z.of_nat 1024) T) with T; [done|]. map_ext.
    destruct (T !! i) eqn:Ti; [|done]. apply (pt_idx _ _ _ _ _ H) in Ti. lia.
Qed.

(** [freevm] returns every page of the space. *)
Lemma freevm_law s free pd T E :
  aspace s free pd T E ->
  exists s' free', freevm kend pd s = Ret tt s' /\ inv s' free' /\ free' ≡ₚ free ++ owns pd T E /\
    same_but (owns pd T E) s s'.
Proof.
  intros H. pose proof (pt_good _ _ _ _ _ (as_tab _ _ _ _ _ H)) as [Hpd _]%Forall_cons.
  unfold freevm. destruct (Z.eqb_spec pd 0) as [->|_]; [by destruct (good_page_nonzero kend kend_range 0 Hpd)|].
  destruct (deallocuvm_law s free pd T E KERNBASE 0 H) as (s1 & f1 & E1 & H1 & Hp1 & Hs1); [done | done|].
  change (pages 0) with 0 in *. change (pages KERNBASE) with USER in *. fold (uframes E) in Hp1, Hs1.
  pose proof (aspace_nodup_tables _ _ _ _ _ H1) as Hnd1.
  pose proof (free_tables s1 f1 pd T _ (as_inv _ _ _ _ _ H1) (as_tab _ _ _ _ _ H1) Hnd1) as (u & s2 & E2 & f2 & Hi2 & Hp2 & Hs2)%wp_Ret.
  destruct (kfree_spec kend kend_range pd s2 f2 Hi2 Hpd) as (s3 & E3 & Hi3 & _ & Hp3 & _).
  { rewrite Hp2. rewrite <- Permutation_middle in Hnd1. by apply NoDup_cons in Hnd1 as [? _]. }
  exists s3, (pd :: f2). split_and!; [| done | |].
  - etrans; [apply (bind_ret _ _ _ _ _ E1)|]. etrans; [apply (bind_ret _ _ _ _ _ E2)|]. exact E3.
  - rewrite Hp2, Hp1. unfold owns. solve_Permutation.
  - unfold owns. intros a [Ha [Hv Hu]%not_elem_of_app]%not_elem_of_cons. rewrite Hp3 by done. rewrite Hs2 by done.
    apply Hs1. rewrite not_elem_of_cons, not_elem_of_app. done.
Qed.

(** ** Growing *)

Lemma owns_split pd T E : owns pd T E = (pd :: vals T) ++ uframes E.
Proof. reflexivity. Qed.

Lemma uframes_insert E n e : 0 <= n < USER -> E !! n = None -> uframes (<[n := e]> E) ≡ₚ frame e :: uframes E.
Proof.
  intros Hn He. unfold uframes. rewrite within_insert by done. apply frames_insert.
  rewrite within_lookup. by case_decide.
Qed.

(** A space and the allocator after [mappages] has added tables. *)
Lemma grows_aspace s free pd T E s' free' T' E' :
  aspace s free pd T E -> grows kend pd s free T s' free' T' -> ptab s' pd T' E' -> uframes E' = uframes E ->
  aspace s' free' pd T' E'.
Proof.
  intros [_ _ Hn Hg] G H' Hu. split; [apply G | done | | by rewrite Hu]. unfold owns in *. rewrite Hu.
  assert (free' ++ pd :: vals T' ++ uframes E ≡ₚ free ++ pd :: vals T ++ uframes E) as ->; [|done].
  rewrite <- !Permutation_middle, !app_assoc. by rewrite (g_perm _ _ _ _ _ _ _ _ G).
Qed.

Lemma good_frame v perm : good_page v -> 0 <= perm < PGSIZE -> frame (pte (v - KERNBASE) perm) = v.
Proof.
  intros [Ha Hr] Hp. pose proof kend_range. apply frame_pte; [done | | done]. unfold KERNBASE, PHYSTOP in *. lia.
Qed.

(** A page of the allocator is filled and mapped. *)
Lemma map_page_law s free v p pd T E n perm :
  aspace s (v :: free) pd T E -> length p = 4096%nat -> 0 <= n < USER -> E !! n = None -> 0 <= perm < PGSIZE ->
  exists s1, kalloc s = Ret v s1 /\ pmem s1 = pmem s /\ good_page v /\ v ∉ owns pd T E /\
  exists r s' T' free', mappages pd (PGSIZE * n) PGSIZE (v - KERNBASE) perm (set_page v p s1) = Ret r s' /\
    T ⊆ T' /\ free' ++ vals T' ≡ₚ free ++ vals T /\ v ∉ free' /\ v ∉ owns pd T' E /\
    same_but (v :: free ++ pd :: vals T) s s' /\ page (pmem s') v = p /\ aspace s' free' pd T' (if decide (r = 0) then <[n := pte (v - KERNBASE) perm]> E else E) /\
    (r = 0 /\ (length free <= S (length free'))%nat \/ r = -1 /\ free' = [] /\ free = []).
Proof.
  intros H Hl Hn He Hperm. pose proof (as_inv _ _ _ _ _ H) as Hi. pose proof (as_nodup _ _ _ _ _ H) as [Hv Hnd]%NoDup_cons.
  apply not_elem_of_app in Hv as [Hvf Hvo]. pose proof Hvo as Hvo'. rewrite owns_split in Hvo'. apply not_elem_of_app in Hvo' as [Hvt Hvu].
  assert (good_page v) as Hg by (destruct Hi as (_ & _ & _ & Hf & _); by apply Forall_cons in Hf as [? _]).
  destruct (kalloc_spec kend kend_range s _ Hi) as (s1 & E1 & Hi1 & Hm1 & _). change (kalloc s = Ret v s1) in E1. cbn [tail] in Hi1.
  exists s1. split; [done|]. split; [done|]. split; [done|]. split; [done|].
  assert (same_but [v] s (set_page v p s1)) as Hs1.
  { intros a Ha%not_elem_of_cons. cbn. rewrite page_insert_ne by (intros ->; naive_solver). by rewrite Hm1. }
  assert (ptab (set_page v p s1) pd T E) as H1.
  { apply (ptab_same kend s); [|apply H]. intros a Ha. apply Hs1. by intros ->%list_elem_of_singleton. }
  assert (inv (set_page v p s1) free) as Hi2 by by apply (inv_write kend kend_range).
  assert (NoDup (free ++ pd :: vals T)) as Hnd' by (pose proof (aspace_nodup_tables _ _ _ _ _ H) as Hx; by apply NoDup_cons in Hx as [_ ?]).
  destruct (table_entry kend kend_range v Hg) as (Hr & Ha & _ & _).
  destruct (mappages_loop_law kend kend_range perm 0 Hperm (set_page v p s1) free T E n pd (v - KERNBASE))
    as (r & s' & T' & free' & j & E2 & G & H2 & Hnew & Hj); try done; try lia.
  { unfold USER in *; lia. } { intros m Hm. by replace m with n by lia. }
  { destruct Hg as [_ Hg]. unfold KERNBASE, PHYSTOP, PGSIZE in *. lia. }
  assert (aspace (set_page v p s1) free pd T E) as Ha1 by (split; [done | done | done | apply H]).
  destruct (grows_free _ _ _ _ _ _ _ _ v G Hvf Hvt) as [Hvf' Hvt'].
  assert (v ∉ owns pd T' E) as Hvo2 by (rewrite owns_split; apply not_elem_of_app; done).
  exists r, s', T', free'. split_and!; [| apply G | apply G | done | done | | | |].
  - rewrite <- E2. pose proof (mappages_eq pd n 0 (v - KERNBASE) perm (set_page v p s1)) as E3. rewrite Z.add_0_l, Z.mul_1_r in E3.
    apply E3; unfold USER in *; lia.
  - intros a [Hav Haf]%not_elem_of_cons. apply not_elem_of_app in Haf as [? ?].
    rewrite (g_frame _ _ _ _ _ _ _ _ G) by done. apply Hs1. by intros ->%list_elem_of_singleton.
  - rewrite (g_frame _ _ _ _ _ _ _ _ G) by done. cbn. by rewrite page_insert_eq.
  - destruct Hj as [[-> ->]|(-> & Hj & -> & _)].
    + rewrite decide_True by done. split; [apply G | exact H2 | |].
      * unfold owns. rewrite uframes_insert, good_frame by done.
        assert (free' ++ pd :: vals T' ++ v :: uframes E ≡ₚ v :: free ++ owns pd T E) as ->.
        { rewrite <- !Permutation_middle, !app_assoc. rewrite (g_perm _ _ _ _ _ _ _ _ G). unfold owns. solve_Permutation. }
        apply NoDup_cons. by rewrite not_elem_of_app.
      * rewrite uframes_insert by done. constructor; [by rewrite good_frame | apply H].
    + rewrite decide_False by done. replace j with O in H2 by lia. by apply (grows_aspace (set_page v p s1) free pd T E).
  - destruct Hj as [[-> _]|(-> & Hj & -> & Hj0)]; [left; split; [done|] | right].
    { pose proof (Permutation_length (g_perm _ _ _ _ _ _ _ _ G)) as Hlen. rewrite !length_app, !length_vals in Hlen.
      change (Z.of_nat 0) with 0 in Hnew. rewrite Z.add_0_r in Hnew. assert (size T' <= S (size T))%nat by by eapply new_dirs_one. lia. }
    split; [done|]. split; [done|]. apply Hj0. lia.
Qed.

Lemma aspace_same s s' free pd T E :
  inv s' free -> same_but [] s s' -> aspace s free pd T E -> aspace s' free pd T E.
Proof.
  intros Hi Hs [_ H ? ?]. split; try done. apply (ptab_same kend s); [|done]. intros a _. apply Hs, not_elem_of_nil.
Qed.

Lemma kalloc_empty s pd T E :
  aspace s [] pd T E -> exists s', kalloc s = Ret 0 s' /\ aspace s' [] pd T E /\ same_but [] s s'.
Proof.
  intros H. destruct (kalloc_spec kend kend_range s _ (as_inv _ _ _ _ _ H)) as (s1 & E1 & Hi1 & Hm1 & _).
  assert (same_but [] s s1) as Hs by (intros a _; by rewrite Hm1).
  exists s1. split; [done|]. split; [by apply (aspace_same s)|]. done.
Qed.

(** A page outside the space becomes free. *)
Lemma kfree_aspace s free pd T E v :
  aspace s free pd T E -> good_page v -> v ∉ free -> v ∉ owns pd T E ->
  exists s', kfree kend v s = Ret tt s' /\ aspace s' (v :: free) pd T E /\ same_but [v] s s'.
Proof.
  intros [Hi H Hn Hg] Hv Hf Ho. destruct (kfree_spec kend kend_range v s free Hi Hv Hf) as (s1 & E1 & Hi1 & _ & Hp & _).
  exists s1. split; [done|]. split; [split|].
  - done.
  - apply (ptab_same kend s); [|done]. intros a Ha. apply Hp. intros ->. apply Ho. rewrite owns_split. set_solver.
  - apply NoDup_cons. by rewrite not_elem_of_app.
  - done.
  - intros a Ha. apply Hp. by intros ->; apply Ha; left.
Qed.

(** Pages [lo] to [hi] are mapped, user accessible and zero, in frames that were free. *)
Definition zeroed s' free (lo hi : Z) E E' : Prop :=
  (forall m, ~ (lo <= m < hi) -> E' !! m = E !! m) /\
  (forall m, lo <= m < hi -> exists v, v ∈ free /\ E' !! m = Some (pte (v - KERNBASE) (Z.lor PTE_W PTE_U)) /\ page (pmem s') v = zero_page).


Lemma owns_cut pd T E lo hi :
  0 <= lo -> hi <= USER -> owns pd T E ≡ₚ owns pd T (cut lo hi E) ++ frames (within lo hi E).
Proof.
  intros Hlo Hhi. unfold owns, uframes. rewrite (frames_split lo hi (within 0 USER E)).
  replace (cut lo hi (within 0 USER E)) with (within 0 USER (cut lo hi E)) by map_ext.
  replace (within lo hi (within 0 USER E)) with (within lo hi E) by map_ext. solve_Permutation.
Qed.

(** Giving up in the middle of [allocuvm]: the pages mapped so far, and [v], become free. *)
Lemma allocuvm_undo s free pd T E oldsz newsz :
  aspace s free pd T E -> 0 <= oldsz <= newsz -> newsz < KERNBASE ->
  exists s' free', deallocuvm kend pd newsz oldsz s = Ret oldsz s' /\
    aspace s' free' pd T (cut (pages oldsz) (pages newsz) E) /\
    free' ++ owns pd T (cut (pages oldsz) (pages newsz) E) ≡ₚ free ++ owns pd T E /\
    same_but (pd :: vals T ++ frames (within (pages oldsz) (pages newsz) E)) s s'.
Proof.
  intros H Hsz Hk. destruct (deallocuvm_law s free pd T E newsz oldsz H) as (s' & f' & E1 & H1 & Hp & Hs); [lia | lia|].
  exists s', f'. split_and!; try done. rewrite Hp, (owns_cut pd T E (pages oldsz) (pages newsz)); [solve_Permutation | |].
  - apply pages_range. lia.
  - apply pages_range. lia.
Qed.

(** One round of the loop: the page is mapped, or everything is undone. *)
Lemma allocuvm_step s free pd T E n oldsz newsz :
  aspace s free pd T E -> 0 <= oldsz <= newsz -> newsz < KERNBASE -> pages oldsz <= n < pages newsz -> E !! n = None ->
  exists s' T' free', T ⊆ T' /\
   ((exists v, v ∈ free /\ good_page v /\ v ∉ free' /\ v ∉ pd :: vals T' /\ page (pmem s') v = zero_page /\
      let E' := <[n := pte (v - KERNBASE) (Z.lor PTE_W PTE_U)]> E in
      aspace s' free' pd T' E' /\ v :: free' ++ vals T' ≡ₚ free ++ vals T /\ same_but (free ++ pd :: vals T) s s' /\
      (length free <= length free' + 2)%nat /\
      forall fuel, allocuvm_loop kend (S fuel) pd (PGSIZE * n) oldsz newsz s =
        allocuvm_loop kend fuel pd (PGSIZE * (n + 1)) oldsz newsz s') \/
    ((length free <= 1)%nat /\ let E' := cut (pages oldsz) (pages newsz) E in
      aspace s' free' pd T' E' /\ free' ++ owns pd T' E' ≡ₚ free ++ owns pd T E /\
      same_but (free ++ pd :: vals T ++ frames (within (pages oldsz) (pages newsz) E)) s s' /\
      forall fuel, allocuvm_loop kend (S fuel) pd (PGSIZE * n) oldsz newsz s = Ret 0 s')).
Proof.
  intros H Hsz Hk Hn He. assert (PGSIZE * n < newsz) as Hlt by (apply pages_lt; lia).
  assert (0 <= n < USER) as Hnu by (pose proof (pages_range oldsz); pose proof (pages_range newsz); lia).
  destruct free as [|v free].
  { destruct (kalloc_empty s pd T E H) as (s1 & E1 & H1 & Hs1).
    destruct (allocuvm_undo s1 [] pd T E oldsz newsz H1 Hsz Hk) as (s2 & f2 & E2 & H2 & Hp2 & Hs2).
    exists s2, T, f2. split; [done|]. right. cbn zeta. split_and!; [cbn; lia | done | done | |].
    - eapply same_but_trans; [eapply same_but_mono; [|exact Hs1]; apply list_subseteq_nil | exact Hs2].
    - intros fuel. cbn [allocuvm_loop]. rewrite (proj2 (Z.ltb_lt _ _) Hlt).
      etrans; [apply (bind_ret _ _ _ _ _ E1)|]. etrans; [apply (bind_ret _ _ _ _ _ E2)|]. done. }
  destruct (map_page_law s free v zero_page pd T E n (Z.lor PTE_W PTE_U) H) as
    (s1 & E1 & Hm1 & Hg & Hvo & r & s2 & T2 & f2 & E2 & HT & Hp & Hvf2 & Hvo2 & Hs2 & Hz & H2 & Hr);
    [apply length_replicate | done | done | done|].
  pose proof (V2P_good kend kend_range v (set_page v zero_page s1) Hg) as E3.
  assert (forall fuel, allocuvm_loop kend (S fuel) pd (PGSIZE * n) oldsz newsz s =
    (if r <? 0 then deallocuvm kend pd newsz oldsz ;; kfree kend v ;; ret 0
     else allocuvm_loop kend fuel pd (u32 (PGSIZE * n + PGSIZE)) oldsz newsz) s2) as E4.
  { intros fuel. cbn [allocuvm_loop]. rewrite (proj2 (Z.ltb_lt _ _) Hlt). etrans; [apply (bind_ret _ _ _ _ _ E1)|].
    destruct (Z.eqb_spec v 0) as [->|_]; [by destruct (good_page_nonzero kend kend_range 0 Hg)|].
    etrans; [apply (bind_ret _ _ _ tt (set_page v zero_page s1)); reflexivity|].
    etrans; [apply (bind_ret _ _ _ _ _ E3)|]. etrans; [apply (bind_ret _ _ _ _ _ E2)|]. reflexivity. }
  destruct Hr as [[-> Hle]|(-> & -> & ->)].
  - exists s2, T2, f2. split; [done|]. left. exists v. cbn zeta. rewrite owns_split in Hvo2. apply not_elem_of_app in Hvo2 as [Hvt2 _].
    rewrite decide_True in H2 by done. split_and!; [by left | done | done | done | done | done | by rewrite Hp | done | cbn [length]; lia|].
    intros fuel. rewrite E4, u32_small by (unfold PGSIZE, USER in *; lia). cbn [Z.ltb Z.compare].
    by replace (PGSIZE * n + PGSIZE) with (PGSIZE * (n + 1)) by lia.
  - rewrite decide_False in H2 by done. destruct (allocuvm_undo s2 [] pd T2 E oldsz newsz H2 Hsz Hk) as (s3 & f3 & E5 & H3 & Hp3 & Hs3).
    assert (v ∉ f3 ++ owns pd T2 (cut (pages oldsz) (pages newsz) E)) as [Hv3 Hv4]%not_elem_of_app by (rewrite Hp3; done).
    destruct (kfree_aspace s3 f3 pd T2 _ v H3 Hg Hv3 Hv4) as (s4 & E6 & H4 & Hs4).
    exists s4, T2, (v :: f3). split; [done|]. right. cbn zeta. split_and!; [done | done | | |].
    + cbn [app]. rewrite Hp3. cbn [app] in *. unfold owns. rewrite Hp. solve_Permutation.
    + assert (forall a, a ∉ [v] ++ pd :: vals T -> a ∉ pd :: vals T2) as Ht.
      { intros a. rewrite !not_elem_of_app, !not_elem_of_cons. intros [[? ?] [? ?]]. split; [done|].
        assert (a ∉ [] ++ vals T2) as Hx; [|done]. rewrite Hp. by rewrite not_elem_of_app. }
      change (pd :: vals T ++ ?l) with ((pd :: vals T) ++ l). rewrite app_assoc. intros a [Ha Hf]%not_elem_of_app.
      rewrite Hs4, Hs3, Hs2; [done | | |].
      * done.
      * change (pd :: vals T2 ++ ?l) with ((pd :: vals T2) ++ l). apply not_elem_of_app. auto.
      * intros ->%list_elem_of_singleton. apply Ha. by left.
    + intros fuel. rewrite E4. cbn [Z.ltb Z.compare]. etrans; [apply (bind_ret _ _ _ _ _ E5)|].
      etrans; [apply (bind_ret _ _ _ _ _ E6)|]. done.
Qed.

Lemma allocuvm_loop_law pd oldsz newsz fuel : 0 <= oldsz <= newsz -> newsz < KERNBASE -> forall s free T E n,
  aspace s free pd T E -> pages oldsz <= n -> (forall m, n <= m < pages newsz -> E !! m = None) ->
  (Z.to_nat (pages newsz - n) < fuel)%nat ->
  exists r s' T' free' E', allocuvm_loop kend fuel pd (PGSIZE * n) oldsz newsz s = Ret r s' /\
    aspace s' free' pd T' E' /\ T ⊆ T' /\ free' ++ owns pd T' E' ≡ₚ free ++ owns pd T E /\
    (r = newsz /\ (length free <= length free' + 2 * Z.to_nat (pages newsz - n))%nat /\
       zeroed s' free n (pages newsz) E E' /\ same_but (free ++ pd :: vals T) s s' \/
     r = 0 /\ (length free < 2 * Z.to_nat (pages newsz - n))%nat /\ E' = cut (pages oldsz) (pages newsz) E /\
       same_but (free ++ pd :: vals T ++ frames (within (pages oldsz) (pages newsz) E)) s s').
Proof.
  intros Hsz Hk. pose proof (pages_range newsz ltac:(lia)) as [_ Hhi]. pose proof (pages_range oldsz ltac:(lia)) as [Hlo _].
  induction fuel as [|fuel IH]; intros s free T E n H Hn He Hfuel; [lia|].
  destruct (Z.ltb_spec (PGSIZE * n) newsz) as [Hlt|Hge].
  2: { assert (pages newsz <= n) by (apply Z.le_ngt; rewrite <- pages_lt; lia). exists newsz, s, T, free, E.
       cbn [allocuvm_loop]. rewrite (proj2 (Z.ltb_ge _ _) Hge).
       split_and!; try done. left. split; [done|]. split; [lia|]. split; [|apply same_but_refl]. split; [done | lia]. }
  pose proof (proj1 (pages_lt _ _) Hlt) as Hnp.
  destruct (allocuvm_step s free pd T E n oldsz newsz H Hsz Hk) as (s1 & T1 & f1 & HT1 & Hstep); [lia | apply He; lia|].
  destruct Hstep as [(v & Hv & Hg & Hvf & Hvt & Hz & H1 & Hp1 & Hs1 & Hle & E1)|(Hle & H1 & Hp1 & Hs1 & E1)].
  2: { exists 0, s1, T1, f1, (cut (pages oldsz) (pages newsz) E). split_and!; [apply E1 | done | done | done |]. right. split_and!; [done | lia | done | done]. }
  set (E1' := <[n := pte (v - KERNBASE) (Z.lor PTE_W PTE_U)]> E) in *.
  assert (forall a, a ∉ free ++ pd :: vals T -> a <> v /\ a ∉ f1 ++ pd :: vals T1) as Hout.
  { intros a. rewrite !not_elem_of_app, !not_elem_of_cons. intros (? & ? & ?).
    assert (a ∉ v :: f1 ++ vals T1) as Hx by (rewrite Hp1; by apply not_elem_of_app).
    rewrite not_elem_of_cons, not_elem_of_app in Hx. naive_solver. }
  destruct (IH s1 f1 T1 E1' (n + 1) H1) as (r & s' & T' & f' & E' & E2 & H2 & HT2 & Hp2 & Hr); [lia | | lia|].
  { intros m Hm. unfold E1'. rewrite lookup_insert_ne by lia. apply He. lia. }
  exists r, s', T', f', E'. rewrite E1. split_and!; [done | done | by etrans | |].
  - rewrite Hp2. unfold owns, E1'. rewrite uframes_insert, good_frame by (done || lia || apply He; lia).
    transitivity (pd :: (v :: f1 ++ vals T1) ++ uframes E); [solve_Permutation|]. rewrite Hp1. solve_Permutation.
  - destruct Hr as [(-> & Hle2 & [Hz1 Hz2] & Hs2)|(-> & Hle2 & -> & Hs2)]; [left | right].
    + split; [done|]. split; [lia|]. split; [split|].
      * intros m Hm. rewrite Hz1 by lia. apply lookup_insert_ne. lia.
      * intros m Hm. destruct (decide (m = n)) as [->|Hne].
        -- exists v. split; [done|]. rewrite Hz1 by lia. split; [apply lookup_insert_eq|].
           rewrite Hs2; [done|]. by apply not_elem_of_app.
        -- destruct (Hz2 m) as (w & Hw & Hw2 & Hw3); [lia|]. exists w. split; [|done].
           assert (w ∈ free ++ vals T) as [?|[i Hwt]%elem_of_vals]%elem_of_app; [|done|].
           { rewrite <- Hp1. right. apply elem_of_app. by left. }
           pose proof (as_nodup _ _ _ _ _ H1) as (_ & Hd & _)%NoDup_app. destruct (Hd w Hw).
           right. apply elem_of_app. left. apply elem_of_vals. exists i. by eapply lookup_weaken.
      * intros a Ha. destruct (Hout a Ha) as [_ Ha1]. rewrite Hs2 by done. by apply Hs1.
    + split; [done|]. split; [lia|]. split; [unfold E1'; map_ext; lia|]. change (pd :: vals T ++ ?l) with ((pd :: vals T) ++ l).
      rewrite app_assoc. intros a [Ha Hf]%not_elem_of_app. destruct (Hout a Ha) as [Hav Ha1].
      rewrite Hs2; [by apply Hs1|]. change (pd :: vals T1 ++ ?l) with ((pd :: vals T1) ++ l). rewrite app_assoc.
      apply not_elem_of_app. split; [done|]. unfold E1'. rewrite within_insert by lia.
      rewrite frames_insert by (rewrite within_lookup; case_decide; [apply He; lia | done]).
      rewrite good_frame by done. by apply not_elem_of_cons.
Qed.

(** [allocuvm] maps zero pages from [oldsz] to [newsz], or returns 0 with
    the space as it was, but for tables it has added.  Two free pages for each
    new page are enough. *)
Lemma allocuvm_law s free pd T E oldsz newsz :
  aspace s free pd T E -> 0 <= oldsz <= newsz -> newsz < KERNBASE ->
  (forall m, pages oldsz <= m < pages newsz -> E !! m = None) ->
  exists r s' T' free' E', allocuvm kend pd oldsz newsz s = Ret r s' /\
    aspace s' free' pd T' E' /\ T ⊆ T' /\ free' ++ owns pd T' E' ≡ₚ free ++ owns pd T E /\
    same_but (free ++ pd :: vals T) s s' /\
    (r = newsz /\ zeroed s' free (pages oldsz) (pages newsz) E E' /\
       (length free <= length free' + 2 * Z.to_nat (pages newsz - pages oldsz))%nat \/
     r = 0 /\ E' = E /\ (length free < 2 * Z.to_nat (pages newsz - pages oldsz))%nat).
Proof.
  intros H Hsz Hk He. unfold allocuvm. rewrite (proj2 (Z.leb_gt _ _) Hk), (proj2 (Z.ltb_ge newsz oldsz)) by lia.
  rewrite PGROUNDUP_pages by (unfold KERNBASE, PGSIZE in *; lia).
  destruct (allocuvm_loop_law pd oldsz newsz (S (Z.to_nat ((newsz - PGSIZE * pages oldsz) / PGSIZE + 1))) Hsz Hk s free T E (pages oldsz) H)
    as (r & s' & T' & f' & E' & E1 & H1 & HT & Hp & Hres); [done | done | |].
  { unfold pages, PGSIZE. Z.div_mod_to_equations. lia. }
  exists r, s', T', f', E'. split_and!; try done.
  - destruct Hres as [(_ & _ & _ & Hs)|(_ & _ & _ & Hs)]; [done|].
    eapply same_but_mono; [|exact Hs]. intros a. replace (within (pages oldsz) (pages newsz) E) with (∅ : gmap Z Z); [by rewrite app_nil_r|].
    symmetry. apply map_eq. intros m. rewrite within_lookup, lookup_empty. case_decide; auto.
  - destruct Hres as [(? & ? & ? & _)|(? & ? & -> & _)]; [by left | right]. split; [done|]. split; [|done]. map_ext. symmetry. auto.
Qed.
End spaces.
