(* ===== verification/VmKern.v ===== *)
(** * Building and copying address spaces

    [setupkvm] builds a space with exactly the mappings of [kmap], and
    [copyuvm] one with the same user pages as its source.  Both take their
    pages from the free list, and return all of them when there are not
    enough. *)

From S2P Require Import Prelude Kalloc Vm VmTab VmInv.

Section kern.
Variables kend data : Z.
Hypothesis kend_range : KERNBASE < kend <= KERNBASE + PHYSTOP.
(** kernel.ld puts [data] on a page boundary between the text and [end]. *)
Hypothesis data_range : KERNLINK < data < kend.
Hypothesis data_aligned : data mod PGSIZE = 0.
Implicit Types (s : kmem_t) (T E : gmap Z Z) (free W : list Z).
Abbreviation good_page := (good_page kend).
Abbreviation inv := (inv kend).
Abbreviation ptab := (ptab kend).
Abbreviation aspace := (aspace kend).

(** ** The kernel part *)

(** The entries of one row of [kmap]. *)
Definition seg_pages (k : kmap_t) : nat := Z.to_nat (u32 (phys_end k - phys_start k) / PGSIZE).
Definition seg E (k : kmap_t) : gmap Z Z := add_range (seg_pages k) (virt k / PGSIZE) (phys_start k) (perm k) E.
Definition kents : gmap Z Z := foldl seg ∅ (kmap data).

Lemma kents_eq : foldl seg ∅ (kmap data) = kents.
Proof. unfold kents. reflexivity. Qed.

Record seg_ok (k : kmap_t) (n : Z) (c : nat) : Prop := {
  so_virt : virt k = PGSIZE * n;
  so_size : u32 (phys_end k - phys_start k) = PGSIZE * (Z.of_nat c + 1);
  so_range : USER <= n /\ n + Z.of_nat c < 2 ^ 20;
  so_phys : 0 <= phys_start k /\ phys_start k + PGSIZE * (Z.of_nat c + 1) <= 2 ^ 32 /\ phys_start k mod PGSIZE = 0;
  so_perm : 0 <= perm k < PGSIZE;
}.

(** The directory entries of the kernel part: 56 for memory, 8 for devices. *)
Definition kdirs : gset Z := list_to_set (seqZ 512 56 ++ seqZ 1016 8).

Lemma elem_of_kdirs i : i ∈ kdirs <-> 512 <= i < 568 \/ 1016 <= i < 1024.
Proof. unfold kdirs. rewrite elem_of_list_to_set, elem_of_app, !elem_of_seqZ. lia. Qed.

Lemma kdirs_size T : dom T ⊆ kdirs -> (size T <= 64)%nat.
Proof. intros H. rewrite <- size_dom. etrans; [by apply subseteq_size|]. vm_compute. lia. Qed.

Fixpoint segs_fit E (ks : list kmap_t) : Prop :=
  match ks with
  | [] => True
  | k :: ks =>
      (exists n c, seg_ok k n c /\ (forall m, n <= m <= n + Z.of_nat c -> E !! m = None) /\
         forall i, n / 1024 <= i <= (n + Z.of_nat c) / 1024 -> i ∈ kdirs) /\
      segs_fit (seg E k) ks
  end.

Lemma seg_eq k n c E : seg_ok k n c -> seg E k = add_range (S c) n (phys_start k) (perm k) E.
Proof.
  intros [Hv Hs _ _ _]. unfold seg, seg_pages. rewrite Hs, Hv. rewrite (Z.mul_comm PGSIZE n), Z.div_mul by done.
  rewrite (Z.mul_comm PGSIZE), Z.div_mul by done. f_equal. lia.
Qed.

(** Entries added above the user part. *)
Lemma uframes_add_range j n pa pm E :
  USER <= n -> 0 <= pa -> pa + PGSIZE * Z.of_nat j <= 2 ^ 32 -> uframes (add_range j n pa pm E) = uframes E.
Proof.
  intros Hn Hp Hr. unfold uframes. f_equal. apply map_eq. intros m. rewrite !within_lookup. case_decide; [|done].
  rewrite add_range_lookup by done. rewrite decide_False; [done | lia].
Qed.

Lemma setupkvm_loop_law pd ks : forall s free T E,
  aspace s free pd T E -> uframes E = [] -> segs_fit E ks -> dom T ⊆ kdirs ->
  exists r s', setupkvm_loop kend pd ks s = Ret r s' /\ same_but (free ++ pd :: vals T) s s' /\
    ((r = pd /\ exists T' free', aspace s' free' pd T' (foldl seg E ks) /\ (uframes (foldl seg E ks) = [] /\ dom T' ⊆ kdirs) /\
        free' ++ vals T' ≡ₚ free ++ vals T) \/
     (r = 0 /\ (length free + size T <= 64)%nat /\ exists free', inv s' free' /\ free' ≡ₚ free ++ pd :: vals T)).
Proof.
  induction ks as [|k ks IH]; intros s free T E H Hu Hfit HT; cbn [setupkvm_loop].
  { exists pd, s. split; [done|]. split; [apply same_but_refl|]. left. split; [done|]. by exists T, free. }
  destruct Hfit as [(n & c & Hk & He & Hkd) Hfit]. pose proof Hk as [Hv Hs Hrg (Hq1 & Hq2 & Hq3) Hpm].
  destruct (mappages_loop_law kend kend_range (perm k) c Hpm s free T E n pd (phys_start k))
    as (r & s1 & T1 & f1 & j & E1 & G & H1 & Hnd & Hj); try done.
  { apply H. } { apply H. } { by eapply aspace_nodup_tables. } { unfold USER in *. lia. } { lia. }
  pose proof (mappages_eq pd n c (phys_start k) (perm k) s ltac:(unfold USER in *; lia) ltac:(lia)) as Em. rewrite E1 in Em.
  rewrite Hv, Hs. assert (uframes (add_range j n (phys_start k) (perm k) E) = []) as Hu1.
  { rewrite uframes_add_range; [done | lia | done|]. unfold PGSIZE in *. destruct Hj as [[_ ->]|(_ & ? & _)]; lia. }
  pose proof (grows_aspace kend s free pd T E s1 f1 T1 _ H G H1 ltac:(by rewrite Hu1, Hu)) as H2.
  assert (forall a, a ∉ free ++ pd :: vals T -> a ∉ f1 ++ pd :: vals T1) as Hout.
  { intros a [Hf Ht]%not_elem_of_app. apply not_elem_of_app. by eapply grows_free. }
  assert (same_but (free ++ pd :: vals T) s s1) as Hs1 by (intros a [? ?]%not_elem_of_app; by apply G).
  assert (f1 ++ pd :: vals T1 ≡ₚ free ++ pd :: vals T) as Hpp.
  { rewrite <- !Permutation_middle. by rewrite (g_perm _ _ _ _ _ _ _ _ G). }
  assert (dom T1 ⊆ kdirs) as HT1.
  { intros i Hi%elem_of_dom. destruct (Hnd i Hi); [by apply HT, elem_of_dom | auto]. }
  assert (length f1 + size T1 = length free + size T)%nat as Hlen.
  { pose proof (Permutation_length (g_perm _ _ _ _ _ _ _ _ G)) as Hl. by rewrite !length_app, !length_vals in Hl. }
  destruct Hj as [[-> ->]|(-> & Hj & -> & _)].
  - rewrite <- (seg_eq k n c E Hk) in H2, Hu1. destruct (IH s1 f1 T1 (seg E k) H2 Hu1 Hfit HT1) as (r & s2 & E2 & Hs2 & Hr).
    exists r, s2. split; [etrans; [apply (bind_ret _ _ _ _ _ Em)|]; exact E2|]. split.
    + intros a Ha. rewrite Hs2 by by apply Hout. by apply Hs1.
    + destruct Hr as [(-> & T2 & f2 & ? & [? ?] & Hp)|(-> & Hl2 & f2 & ? & Hp)]; [left | right]; (split; [done|]).
      * exists T2, f2. split_and!; [done | done | done|]. rewrite Hp. apply G.
      * split; [lia|]. exists f2. split; [done|]. by rewrite Hp.
  - destruct (freevm_law kend kend_range s1 [] pd T1 _ H2) as (s2 & f2 & E2 & Hi2 & Hp2 & Hs2).
    unfold owns in Hp2, Hs2. rewrite Hu1, app_nil_r in Hp2, Hs2.
    exists 0, s2. split; [|split].
    + etrans; [apply (bind_ret _ _ _ _ _ Em)|]. cbn [Z.ltb Z.compare]. etrans; [apply (bind_ret _ _ _ _ _ E2)|]. done.
    + intros a Ha. rewrite Hs2 by by apply Hout. by apply Hs1.
    + right. split; [done|]. split; [pose proof (kdirs_size T1 HT1); cbn [length] in Hlen; lia|]. exists f2. split; [done|]. by rewrite Hp2.
Qed.

(** A cleared directory. *)
Lemma new_dir s free pd :
  inv s (pd :: free) -> exists s1, kalloc s = Ret pd s1 /\ aspace (set_page pd zero_page s1) free pd ∅ ∅ /\
    same_but [pd] s (set_page pd zero_page s1) /\ good_page pd.
Proof.
  intros Hi. pose proof Hi as (_ & _ & Hnd & Hg & _). apply NoDup_cons in Hnd as [Hn Hnd]. apply Forall_cons in Hg as [Hg Hgf].
  destruct (kalloc_spec kend kend_range s _ Hi) as (s1 & E1 & Hi1 & Hm1 & _). change (kalloc s = Ret pd s1) in E1. cbn [tail] in Hi1.
  exists s1. split; [done|]. split; [|split; [|done]].
  - split.
    + by apply (inv_write kend kend_range); [| | apply length_replicate].
    + split; try done; rewrite ?vals_empty; [by apply Forall_singleton | apply NoDup_singleton|].
      intros i Hir. rewrite lookup_empty. by apply ent_clear.
    + apply NoDup_app. split; [done|]. assert (owns pd ∅ ∅ = [pd]) as -> by (unfold owns, uframes, frames, within; by rewrite map_filter_empty, vals_empty). split; [|apply NoDup_singleton].
      intros a Ha ->%list_elem_of_singleton. done.
    + unfold uframes, frames, within. rewrite map_filter_empty, vals_empty. constructor.
  - intros a Ha. cbn. rewrite page_insert_ne by (intros ->; apply Ha; by left). by rewrite Hm1.
Qed.

(** The page number of [data], and the rows of [kmap] in pages. *)
Let nd := data / PGSIZE.

Lemma data_page : data = PGSIZE * nd /\ 524544 < nd < 581632.
Proof.
  assert (data = PGSIZE * nd) as E by (unfold nd; pose proof (Z.div_mod data PGSIZE); unfold PGSIZE in *; lia).
  split; [done|]. pose proof data_range. pose proof kend_range. unfold KERNLINK, KERNBASE, EXTMEM, PHYSTOP, PGSIZE in *. lia.
Qed.

Ltac kconsts := unfold KERNLINK, KERNBASE, EXTMEM, PHYSTOP, DEVSPACE, PGSIZE, USER, PTE_W in *.

Lemma row_ok v ps pe pm n c :
  v = PGSIZE * n -> u32 (pe - ps) = PGSIZE * (c + 1) -> 0 <= c -> USER <= n -> n + c < 2 ^ 20 ->
  0 <= ps -> ps + PGSIZE * (c + 1) <= 2 ^ 32 -> ps mod PGSIZE = 0 -> 0 <= pm < PGSIZE ->
  seg_ok (mk_kmap v ps pe pm) n (Z.to_nat c).
Proof. intros. split; cbn; rewrite ?Z2Nat.id by done; done. Qed.

Lemma kmap_rows :
  Forall2 (fun k nc => seg_ok k nc.1 (Z.to_nat nc.2)) (kmap data)
    [(524288, 255); (524544, nd - 524545); (nd, 581631 - nd); (1040384, 8191)].
Proof.
  destruct data_page as [Ed Hn]. unfold kmap. rewrite Ed.
  assert ((PGSIZE * nd - KERNBASE) mod PGSIZE = 0) as Hm.
  { replace (PGSIZE * nd - KERNBASE) with ((nd - 524288) * PGSIZE) by (kconsts; lia). by apply Z.mod_mul. }
  repeat apply Forall2_cons_2; try apply Forall2_nil_2; apply row_ok; cbn [fst snd].
  all: try done; try (kconsts; lia).
  all: rewrite u32_small; kconsts; lia.
Qed.

(** The kernel mappings: physical memory from [KERNBASE] on, read-only from
    the start of the text to [data], and the devices at their own addresses. *)
Definition kent (n : Z) : option Z :=
  if decide (524288 <= n < 581632) then
    Some (pte (PGSIZE * n - KERNBASE) (if decide (524544 <= n < nd) then 0 else PTE_W))
  else if decide (1040384 <= n < 2 ^ 20) then Some (pte (PGSIZE * n) PTE_W)
  else None.

Lemma seg_lookup E k n c m :
  seg_ok k n (Z.to_nat c) -> 0 <= c ->
  seg E k !! m = if decide (n <= m <= n + c) then Some (pte (phys_start k + PGSIZE * (m - n)) (perm k)) else E !! m.
Proof.
  intros Hk Hc. rewrite (seg_eq k n _ E Hk). pose proof (so_phys _ _ _ Hk) as (? & ? & ?).
  rewrite add_range_lookup by (done || lia). destruct (decide (n <= m <= n + c)).
  - rewrite decide_True by lia. done.
  - rewrite decide_False by lia. done.
Qed.

Lemma kmap_fits : segs_fit ∅ (kmap data) /\ forall n, kents !! n = kent n.
Proof.
  destruct data_page as [Ed Hn]. pose proof kmap_rows as Hr. unfold kents. unfold kmap in *.
  apply Forall2_cons in Hr as [R1 Hr]. apply Forall2_cons in Hr as [R2 Hr]. apply Forall2_cons in Hr as [R3 Hr].
  apply Forall2_cons in Hr as [R4 _]. cbn [fst snd] in *.
  split.
  - cbn [segs_fit]. split_and!; [exists 524288, (Z.to_nat 255) | exists 524544, (Z.to_nat (nd - 524545)) | exists nd, (Z.to_nat (581631 - nd)) | exists 1040384, (Z.to_nat 8191) | done].
    all: split; [done|]; (split; [|intros i Hi; apply elem_of_kdirs; rewrite ?Z2Nat.id in Hi by lia; Z.div_mod_to_equations; lia]); intros m Hm.
    + apply lookup_empty.
    + rewrite (seg_lookup _ _ _ _ m R1) by lia. rewrite decide_False by lia. apply lookup_empty.
    + rewrite (seg_lookup _ _ _ _ m R2), (seg_lookup _ _ _ _ m R1) by lia. rewrite !decide_False by lia. apply lookup_empty.
    + rewrite (seg_lookup _ _ _ _ m R3), (seg_lookup _ _ _ _ m R2), (seg_lookup _ _ _ _ m R1) by lia. rewrite !decide_False by lia. apply lookup_empty.
  - intros m. cbn [foldl]. rewrite (seg_lookup _ _ _ _ m R4), (seg_lookup _ _ _ _ m R3), (seg_lookup _ _ _ _ m R2), (seg_lookup _ _ _ _ m R1) by lia.
    rewrite lookup_empty. unfold kent. cbn [phys_start perm]. kconsts.
    repeat case_decide; try lia; try done; do 2 f_equal; lia.
Qed.

Lemma kents_high n e : kents !! n = Some e -> USER <= n < 2 ^ 20.
Proof.
  destruct kmap_fits as [_ ->]. unfold kent, USER. repeat case_decide; intros; try lia; done.
Qed.

#[local] Opaque kents.

Lemma setupkvm_law s free :
  inv s free ->
  exists r s', setupkvm kend data s = Ret r s' /\ same_but free s s' /\
    ((exists T free', good_page r /\ aspace s' free' r T kents /\ (uframes kents = [] /\ dom T ⊆ kdirs) /\ free' ++ owns r T kents ≡ₚ free) \/
     (r = 0 /\ (length free <= 65)%nat /\ exists free', inv s' free' /\ free' ≡ₚ free)).
Proof.
  intros Hi. unfold setupkvm. destruct free as [|pd free].
  { destruct (kalloc_spec kend kend_range s _ Hi) as (s1 & E1 & Hi1 & Hm1 & _). exists 0, s1. split; [|split].
    - etrans; [apply (bind_ret _ _ _ _ _ E1)|]. done.
    - intros a _. by rewrite Hm1.
    - right. split; [done|]. split; [cbn; lia|]. by exists []. }
  destruct (new_dir s free pd Hi) as (s1 & E1 & H1 & Hs1 & Hg).
  destruct (setupkvm_loop_law pd (kmap data) _ free ∅ ∅ H1) as (r & s2 & E2 & Hs2 & Hr).
  { unfold uframes, frames, within. by rewrite map_filter_empty, vals_empty. } { apply kmap_fits. } { by rewrite dom_empty_L. }
  rewrite kents_eq in Hr.
  exists r, s2. split; [|split].
  - etrans; [apply (bind_ret _ _ _ _ _ E1)|]. destruct (Z.eqb_spec pd 0) as [->|_]; [by destruct (good_page_nonzero kend kend_range 0 Hg)|].
    etrans; [apply (bind_ret _ _ _ tt (set_page pd zero_page s1)); reflexivity|]. exact E2.
  - intros a [Ha Hf]%not_elem_of_cons. rewrite Hs2; [apply Hs1; by intros ->%list_elem_of_singleton|].
    rewrite vals_empty, not_elem_of_app, not_elem_of_cons. split; [done|]. split; [done | apply not_elem_of_nil].
  - destruct Hr as [(-> & T & f & H & [Hu HT] & Hp)|(-> & Hl & f & Hi2 & Hp)]; rewrite vals_empty in Hp.
    + left. exists T, f. split_and!; [done | done | done | done|]. unfold owns. rewrite Hu, app_nil_r.
      rewrite <- Permutation_middle, Hp, app_nil_r. done.
    + right. split; [done|]. split; [cbn [length]; rewrite map_size_empty in Hl; lia|]. exists f. split; [done|]. rewrite Hp. solve_Permutation.
Qed.

(** ** Copying a space *)

Section copy.
Context (s0 : kmem_t) (free0 : list Z) (pd : Z) (Ts Es : gmap Z Z) (sz d : Z).
Hypothesis Hsrc : aspace s0 free0 pd Ts Es.
Hypothesis Hsz : 0 <= sz <= KERNBASE.

(** Page [n] of the copy has the flags and the bytes of page [n] of the source. *)
Definition copied s E (n : Z) : Prop :=
  exists e v, Es !! n = Some e /\ good_page v /\ E !! n = Some (pte (v - KERNBASE) (PTE_FLAGS e)) /\
    page (pmem s) v = page (pmem s0) (frame e).

Record copying s free T E (n : Z) : Prop := {
  co_space : aspace s free d T E;
  co_perm : free ++ owns d T E ≡ₚ free0;
  co_same : same_but free0 s0 s;
  co_done : forall m, 0 <= m < n -> copied s E m;
  co_rest : forall m, n <= m < USER -> E !! m = None;
  co_kern : forall m, USER <= m -> E !! m = kents !! m;
}.

Lemma source_tables s : same_but free0 s0 s -> ptab s pd Ts Es.
Proof.
  intros Hs. apply (ptab_same kend s0); [|apply Hsrc]. intros a Ha. apply Hs. intros Hf.
  pose proof (aspace_nodup_tables _ _ _ _ _ _ Hsrc) as (_ & Hd & _)%NoDup_app. by apply (Hd a).
Qed.

Lemma flags_eq e : PTE_FLAGS e = e mod PGSIZE /\ 0 <= PTE_FLAGS e < PGSIZE.
Proof. rewrite PTE_FLAGS_eq. split; [done|]. by apply Z.mod_pos_bound. Qed.

(** Pages already copied stay, as long as their frames are not written. *)
Lemma copied_stable s s' E E' m W :
  0 <= m < USER -> (forall a, a ∈ uframes E -> a ∉ W) -> same_but W s s' -> E' !! m = E !! m -> copied s E m -> copied s' E' m.
Proof.
  intros Hm HW Hs Em (e & w & He & Hg & Hw & Hp). exists e, w. split_and!; [done | done | by rewrite Em|].
  destruct (flags_eq e) as [_ Hf]. rewrite Hs; [done|]. apply HW, elem_of_uframes. exists m, (pte (w - KERNBASE) (PTE_FLAGS e)).
  by rewrite (good_frame kend kend_range).
Qed.

(** One round of the loop. *)
Lemma copyuvm_step s free T E n :
  copying s free T E n -> 0 <= n < pages sz -> is_Some (Es !! n) ->
  exists s' free' T' E',
    (copying s' free' T' E' (n + 1) /\
     forall fuel, copyuvm_loop kend (S fuel) pd d (PGSIZE * n) sz s = copyuvm_loop kend fuel pd d (PGSIZE * (n + 1)) sz s') \/
    (copying s' free' T' E' n /\ forall fuel, copyuvm_loop kend (S fuel) pd d (PGSIZE * n) sz s = Ret false s').
Proof.
  intros [H Hp Hs Hd Hr Hk] Hn [e He]. assert (PGSIZE * n < sz) as Hlt by (apply pages_lt; lia).
  assert (0 <= n < USER) as Hnu by (pose proof (pages_range sz Hsz); lia).
  pose proof (source_tables s Hs) as Hpt.
  destruct (pt_dom kend _ _ _ _ Hpt n e He) as ([t Ht] & Hpr & _).
  pose proof (walk_found kend kend_range s pd Ts Es n 0 t false Hpt ltac:(unfold USER in *; lia) ltac:(done) Ht) as E1. rewrite Z.add_0_r in E1.
  assert (forall fuel, copyuvm_loop kend (S fuel) pd d (PGSIZE * n) sz s =
    (let! mem := kalloc in
     if mem =? 0 then ret false
     else
       let! src := P2V (PTE_ADDR e) in
       copy_page mem src ;;
       let! pa := V2P mem in
       let! r := mappages d (PGSIZE * n) PGSIZE pa (PTE_FLAGS e) in
       if r <? 0 then kfree kend mem ;; ret false
       else copyuvm_loop kend fuel pd d (u32 (PGSIZE * n + PGSIZE)) sz) s) as E2.
  { intros fuel. cbn [copyuvm_loop]. rewrite (proj2 (Z.ltb_lt _ _) Hlt). etrans; [apply (bind_ret _ _ _ _ _ E1)|].
    rewrite (slot_nonzero kend kend_range s pd Ts Es _ _ _ Hpt Ht).
    etrans; [apply (bind_ret _ _ _ _ _ (load_slot kend s pd Ts Es n t Hpt Ht))|]. rewrite He. cbn [default].
    unfold id. rewrite Hpr. reflexivity. }
  destruct free as [|v free].
  { destruct (kalloc_empty kend kend_range s d T E H) as (s1 & E3 & H1 & Hs1). exists s1, [], T, E. right. split.
    - split; try done.
      + intros a Ha. rewrite Hs1 by apply not_elem_of_nil. by apply Hs.
      + intros m Hm. apply (copied_stable s s1 E E m []); auto; [lia | intros; apply not_elem_of_nil].
    - intros fuel. rewrite E2. etrans; [apply (bind_ret _ _ _ _ _ E3)|]. done. }
  destruct (flags_eq e) as [_ Hfl].
  destruct (map_page_law kend kend_range s free v (page (pmem s) (frame e)) d T E n (PTE_FLAGS e) H) as
    (s1 & E3 & Hm1 & Hgv & Hvo & r & s2 & T2 & f2 & E4 & HT & Hp2 & Hvf2 & Hvo2 & Hs2 & Hz & H2 & Hrr);
    [apply (length_page kend s (v :: free)), H | done | apply Hr; lia | done|].
  assert (forall fuel, copyuvm_loop kend (S fuel) pd d (PGSIZE * n) sz s =
    (if r <? 0 then kfree kend v ;; ret false
     else copyuvm_loop kend fuel pd d (PGSIZE * (n + 1)) sz) s2) as E5.
  { intros fuel. rewrite E2. etrans; [apply (bind_ret _ _ _ _ _ E3)|].
    destruct (Z.eqb_spec v 0) as [->|_]; [by destruct (good_page_nonzero kend kend_range 0 Hgv)|].
    destruct (P2V_frame kend kend_range _ _ _ _ _ _ _ s1 Hsrc Hnu He) as [_ Hpv].
    etrans; [apply (bind_ret _ _ _ _ _ Hpv)|]. unfold copy_page.
    etrans; [apply (bind_ret _ _ _ tt (set_page v (page (pmem s1) (frame e)) s1)); reflexivity|].
    etrans; [apply bind_ret, (V2P_good kend kend_range v _ Hgv)|]. rewrite <- Hm1 in E4. etrans; [apply (bind_ret _ _ _ _ _ E4)|].
    rewrite u32_small by (unfold PGSIZE, USER in *; lia). by replace (PGSIZE * n + PGSIZE) with (PGSIZE * (n + 1)) by lia. }
  assert (same_but free0 s s2) as Hs02.
  { eapply same_but_mono; [|exact Hs2]. rewrite <- Hp. unfold owns. clear. set_solver. }
  assert (forall E' m, 0 <= m < n -> E' !! m = E !! m -> copied s2 E' m) as Hst.
  { intros E' m Hm Em. eapply copied_stable; [lia | | exact Hs2 | exact Em | auto].
    intros a Ha. destruct (uframes_apart kend kend_range s (v :: free) d T E a H Ha) as [[??]%not_elem_of_cons ?].
    by rewrite not_elem_of_cons, not_elem_of_app. }
  destruct Hrr as [[-> _]|(-> & -> & _)].
  - rewrite decide_True in H2 by done. exists s2, f2, T2, (<[n := pte (v - KERNBASE) (PTE_FLAGS e)]> E). left. split; [split|].
    + done.
    + rewrite <- Hp. unfold owns. rewrite uframes_insert, (good_frame kend kend_range) by (done || apply Hr; lia).
      transitivity (d :: v :: (f2 ++ vals T2) ++ uframes E); [solve_Permutation|]. rewrite Hp2. solve_Permutation.
    + by eapply same_but_trans.
    + intros m Hm. destruct (decide (m = n)) as [->|Hne].
      * exists e, v. rewrite lookup_insert_eq, Hz. split_and!; try done. apply Hs.
        by apply (frame_apart kend kend_range s0 free0 pd Ts Es n).
      * apply Hst; [lia|]. apply lookup_insert_ne. lia.
    + intros m Hm. rewrite lookup_insert_ne by lia. apply Hr. lia.
    + intros m Hm. rewrite lookup_insert_ne by lia. by apply Hk.
    + intros fuel. by rewrite E5.
  - rewrite decide_False in H2 by done. destruct (kfree_aspace kend kend_range s2 [] d T2 E v H2 Hgv Hvf2 Hvo2) as (s3 & E6 & H3 & Hs3).
    exists s3, [v], T2, E. right. split; [split|]; try done.
    + rewrite <- Hp. cbn [app] in *. unfold owns. rewrite Hp2. solve_Permutation.
    + eapply same_but_trans; [by eapply same_but_trans|]. eapply same_but_mono; [|exact Hs3].
      intros a ->%list_elem_of_singleton. rewrite <- Hp. by left.
    + intros m Hm. apply (copied_stable s2 s3 E E m [v]); auto; [lia|].
      intros a Ha ->%list_elem_of_singleton. apply Hvo. rewrite owns_split. apply elem_of_app. by right.
    + intros fuel. rewrite E5. cbn [Z.ltb Z.compare]. etrans; [apply (bind_ret _ _ _ _ _ E6)|]. done.
Qed.

(** A page that is missing in the source is a panic. *)
Lemma copyuvm_hole s free T E n fuel :
  copying s free T E n -> 0 <= n < pages sz -> Es !! n = None ->
  exists msg, copyuvm_loop kend (S fuel) pd d (PGSIZE * n) sz s = Panic msg.
Proof.
  intros [_ _ Hs _ _ _] Hn He. assert (PGSIZE * n < sz) as Hlt by (apply pages_lt; lia).
  assert (0 <= n < 2 ^ 20) as Hnu by (pose proof (pages_range sz Hsz); unfold USER in *; lia).
  pose proof (source_tables s Hs) as Hpt. cbn [copyuvm_loop]. rewrite (proj2 (Z.ltb_lt _ _) Hlt), <- (Z.add_0_r (PGSIZE * n)).
  destruct (Ts !! (n / 1024)) as [t|] eqn:Ht.
  - rewrite (bind_ret _ _ _ _ _ (walk_found kend kend_range s pd Ts Es n 0 t false Hpt Hnu ltac:(done) Ht)).
    rewrite (slot_nonzero kend kend_range s pd Ts Es _ _ _ Hpt Ht).
    rewrite (bind_ret _ _ _ _ _ (load_slot kend s pd Ts Es n t Hpt Ht)), He. by eexists.
  - rewrite (bind_ret _ _ _ _ _ (walk_none kend s pd Ts Es n 0 Hpt Hnu ltac:(done) Ht)). by eexists.
Qed.

Lemma copyuvm_loop_law fuel : forall s free T E n,
  copying s free T E n -> 0 <= n <= pages sz -> (Z.to_nat (pages sz - n) < fuel)%nat ->
  (exists msg m, copyuvm_loop kend fuel pd d (PGSIZE * n) sz s = Panic msg /\ 0 <= m < pages sz /\ Es !! m = None) \/
  (exists b s' free' T' E' n', copyuvm_loop kend fuel pd d (PGSIZE * n) sz s = Ret b s' /\ copying s' free' T' E' n' /\
     (b = true -> n' = pages sz)).
Proof.
  induction fuel as [|fuel IH]; intros s free T E n H Hn Hf; [lia|].
  destruct (Z.ltb_spec (PGSIZE * n) sz) as [Hlt%pages_lt|Hge].
  2: { right. exists true, s, free, T, E, n. cbn [copyuvm_loop]. rewrite (proj2 (Z.ltb_ge _ _) Hge). split; [done|]. split; [done|].
       intros _. assert (~ n < pages sz) by (rewrite <- pages_lt; lia). lia. }
  destruct (Es !! n) as [e|] eqn:He.
  2: { left. destruct (copyuvm_hole s free T E n fuel H ltac:(lia) He) as [msg Em]. exists msg, n. split_and!; [done | lia | lia | done]. }
  destruct (copyuvm_step s free T E n H) as (s1 & f1 & T1 & E1 & [[H1 Ec]|[H1 Ec]]); [lia | by eexists | |].
  - rewrite Ec. apply (IH s1 f1 T1 E1 (n + 1) H1); lia.
  - right. exists false, s1, f1, T1, E1, n. by rewrite Ec.
Qed.
End copy.

(** The user pages of [E'] are those of [E] below [sz]: the same flags and
    bytes, in frames taken from [free]. *)
Definition same_user s E s' E' (sz : Z) : Prop :=
  forall n, 0 <= n < USER ->
    if decide (n < pages sz) then
      exists e e', E !! n = Some e /\ E' !! n = Some e' /\ PTE_FLAGS e' = PTE_FLAGS e /\
        page (pmem s') (frame e') = page (pmem s) (frame e)
    else E' !! n = None.

Lemma flags_pte v e : good_page v -> has e PTE_P = true -> PTE_FLAGS (pte (v - KERNBASE) (PTE_FLAGS e)) = PTE_FLAGS e.
Proof.
  intros Hg Hp. destruct (flags_eq e) as [_ Hf]. destruct (table_entry kend kend_range v Hg) as (_ & Ha & _).
  unfold pte. rewrite PTE_FLAGS_entry by (done || by apply flags_range).
  rewrite has_flags in Hp by done. unfold has in Hp. apply negb_true_iff, Z.eqb_neq in Hp.
  apply Z.bits_inj'. intros i Hi. rewrite Z.lor_spec. destruct (decide (i = 0)) as [->|Hne].
  - rewrite orb_true_r. change PTE_P with (Z.ones 1) in Hp. rewrite Z.land_ones in Hp by lia.
    pose proof (Z.bit0_mod (PTE_FLAGS e)) as Hb. change (2 ^ 1) with 2 in Hp. destruct (Z.testbit _ 0); [done|]. by rewrite <- Hb in Hp.
  - replace (Z.testbit PTE_P i) with false by (unfold PTE_P; change 1 with (2 ^ 0); rewrite Z.pow2_bits_eqb by lia; symmetry; apply Z.eqb_neq; lia).
    apply orb_false_r.
Qed.

(** A copy of any space: it panics at a page that is missing. *)
Lemma copyuvm_any s free pd T E sz :
  aspace s free pd T E -> 0 <= sz <= KERNBASE ->
  (exists msg m, copyuvm kend data pd sz s = Panic msg /\ 0 <= m < pages sz /\ E !! m = None) \/
  exists r s', copyuvm kend data pd sz s = Ret r s' /\ same_but free s s' /\
    ((exists T' E' free', good_page r /\ aspace s' free' r T' E' /\ free' ++ owns r T' E' ≡ₚ free /\
        same_user s E s' E' sz /\ forall n, USER <= n -> E' !! n = kents !! n) \/
     (r = 0 /\ exists free', inv s' free' /\ free' ≡ₚ free)).
Proof.
  intros H Hsz. unfold copyuvm.
  destruct (setupkvm_law s free (as_inv _ _ _ _ _ _ H)) as (d & s1 & E1 & Hs1 & [(T1 & f1 & Hg & H1 & _ & Hp1)|(-> & _ & f1 & Hi1 & Hp1)]).
  2: { right. exists 0, s1. split; [etrans; [apply (bind_ret _ _ _ _ _ E1)|]; done|]. split; [done|]. right. eauto. }
  assert (copying s free E d s1 f1 T1 kents 0) as Hc.
  { split; [exact H1 | exact Hp1 | exact Hs1 | intros; lia | | intros; reflexivity]. intros m Hmr. destruct (kents !! m) eqn:Ek; [|done]. apply kents_high in Ek. lia. }
  assert ((let! d := setupkvm kend data in if d =? 0 then ret 0 else
      let! ok := copyuvm_loop kend (S (Z.to_nat (sz / PGSIZE + 1))) pd d 0 sz in if ok : bool then ret d else freevm kend d ;; ret 0) s =
    (let! ok := copyuvm_loop kend (S (Z.to_nat (sz / PGSIZE + 1))) pd d 0 sz in if ok : bool then ret d else freevm kend d ;; ret 0) s1) as Eq0.
  { etrans; [apply (bind_ret _ _ _ _ _ E1)|].
    destruct (Z.eqb_spec d 0) as [->|_]; [by destruct (good_page_nonzero kend kend_range 0 Hg) | done]. }
  rewrite Eq0.
  destruct (copyuvm_loop_law s free pd T E sz d H Hsz (S (Z.to_nat (sz / PGSIZE + 1))) s1 f1 T1 kents 0 Hc)
    as [(msg & m & Ec & Hm)|(b & s2 & f2 & T2 & E2 & n2 & Ec & [H2 Hp2 Hs2 Hd2 Hr2 Hk2] & Hb)].
  { pose proof (pages_range sz Hsz). lia. } { unfold pages, PGSIZE. Z.div_mod_to_equations. lia. }
  { left. exists msg, m. split; [|done]. unfold bind at 1. change 0 with (PGSIZE * 0). by rewrite Ec. }
  right. change 0 with (PGSIZE * 0) at 1. rewrite (bind_ret _ _ _ _ _ Ec). destruct b.
  - exists d, s2. split; [done|]. split; [done|]. left. exists T2, E2, f2. rewrite (Hb eq_refl) in *. split_and!; [exact Hg | exact H2 | exact Hp2 | | exact Hk2].
    intros n Hn. case_decide as Hlt.
    + destruct (Hd2 n ltac:(lia)) as (e & v & He & Hgv & Hv & Hpg). exists e, (pte (v - KERNBASE) (PTE_FLAGS e)).
      destruct (flags_eq e) as [_ Hf]. destruct (pt_dom kend _ _ _ _ (as_tab _ _ _ _ _ _ H) n e He) as (_ & Hpr & _).
      split_and!; [done | done | by apply flags_pte | by rewrite (good_frame kend kend_range)].
    + apply Hr2. lia.
  - destruct (freevm_law kend kend_range s2 f2 d T2 E2 H2) as (s3 & f3 & E3 & Hi3 & Hp3 & Hs3).
    exists 0, s3. split; [etrans; [apply (bind_ret _ _ _ _ _ E3)|]; done|]. split.
    + eapply same_but_trans; [exact Hs2|]. eapply same_but_mono; [|exact Hs3]. intros a Ha. rewrite <- Hp2. apply elem_of_app. by right.
    + right. split; [done|]. exists f3. split; [done|]. by rewrite Hp3, Hp2.
Qed.

(** With a missing page it never succeeds. *)
Lemma copyuvm_missing s free pd T E sz n :
  aspace s free pd T E -> 0 <= sz <= KERNBASE -> 0 <= n < pages sz -> E !! n = None ->
  forall r s', copyuvm kend data pd sz s = Ret r s' -> r = 0.
Proof.
  intros H Hsz Hn He r s' Er. destruct (copyuvm_any s free pd T E sz H Hsz) as [(msg & m & Ep & _)|(r' & s1 & Er' & _ & [(T' & E' & f' & _ & _ & _ & Hu & _)|[-> _]])];
    rewrite Er in *; [done | | by simplify_eq].
  pose proof (pages_range sz Hsz) as Hp. specialize (Hu n ltac:(lia)). rewrite decide_True in Hu by lia. destruct Hu as (e & _ & He' & _). congruence.
Qed.
End kern.
