(* ===== verification/VmUser.v ===== *)
(** * User memory through the page table

    What a process sees: the bytes at its virtual addresses.  [copyout]
    writes them as a [memmove] through the page table would, [clearpteu]
    takes a page away from user code, and [inituvm] makes the first page of
    the first process. *)

From S2P Require Import Prelude Kalloc Vm VmTab VmInv.

(** The byte at virtual address [va], for entries [E]. *)
Definition ubyte (s : kmem_t) (E : gmap Z Z) (va : Z) : option Z :=
  e ← E !! (va / PGSIZE); page (pmem s) (frame e) !! pgoff va.

(** The whole range is mapped for user code. *)
Definition user_range (E : gmap Z Z) (va len : Z) : Prop :=
  0 <= va /\ va + len <= KERNBASE /\
  forall a, va <= a < va + len -> exists e, E !! (a / PGSIZE) = Some e /\ has e PTE_U = true.

Section user.
Variable kend : Z.
Hypothesis kend_range : KERNBASE < kend <= KERNBASE + PHYSTOP.
Implicit Types (s : kmem_t) (T E : gmap Z Z) (free W : list Z).
Abbreviation good_page := (good_page kend).
Abbreviation inv := (inv kend).
Abbreviation ptab := (ptab kend).
Abbreviation aspace := (aspace kend).

Lemma split_va va : va = PGSIZE * (va / PGSIZE) + va mod PGSIZE /\ 0 <= va mod PGSIZE < PGSIZE.
Proof. pose proof (Z.div_mod va PGSIZE). pose proof (Z.mod_pos_bound va PGSIZE). unfold PGSIZE in *. lia. Qed.

(** [walkpgdir] without allocation, on any address. *)
Lemma walk_get s pd T E va :
  ptab s pd T E -> 0 <= va < 2 ^ 32 ->
  walkpgdir pd va false s = Ret (match T !! (va / PGSIZE / 1024) with Some t => slot t (va / PGSIZE) | None => 0 end) s.
Proof.
  intros H Hva. destruct (split_va va) as [Ev Hk].
  assert (0 <= va / PGSIZE < 2 ^ 20) as Hn by (unfold PGSIZE in *; Z.div_mod_to_equations; lia).
  rewrite Ev at 1. destruct (T !! _) as [t|] eqn:Ht.
  - by apply (walk_found kend kend_range s pd T E).
  - by apply (walk_none kend s pd T E).
Qed.

(** [uva2ka] is the frame of a page user code may access. *)
Lemma uva2ka_law s free pd T E va e :
  aspace s free pd T E -> 0 <= va < KERNBASE -> E !! (va / PGSIZE) = Some e ->
  uva2ka pd va s = Ret (if has e PTE_U then frame e else 0) s.
Proof.
  intros H Hva He. pose proof (as_tab _ _ _ _ _ _ H) as Hpt. destruct (pt_dom kend _ _ _ _ Hpt _ e He) as ([t Ht] & Hpr & _).
  unfold uva2ka. etrans; [apply bind_ret, (walk_get s pd T E va Hpt); unfold KERNBASE in *; lia|]. rewrite Ht.
  rewrite (slot_nonzero kend kend_range s pd T E _ _ _ Hpt Ht).
  etrans; [apply (bind_ret _ _ _ _ _ (load_slot kend s pd T E _ t Hpt Ht))|]. rewrite He. cbn [default]. unfold id. rewrite Hpr. cbn [negb].
  destruct (has e PTE_U); [|done]. cbn [negb].
  apply (P2V_frame kend kend_range s free pd T E (va / PGSIZE) e s H); [|done].
  unfold USER, KERNBASE, PGSIZE in *. Z.div_mod_to_equations. lia.
Qed.

(** A page with no table makes [uva2ka] read through the null pointer. *)
Lemma uva2ka_null s pd T E va :
  ptab s pd T E -> 0 <= va < 2 ^ 32 -> T !! (va / PGSIZE / 1024) = None -> uva2ka pd va s = undefined s.
Proof. intros H Hva Ht. unfold uva2ka. etrans; [apply bind_ret, (walk_get s pd T E va H Hva)|]. by rewrite Ht. Qed.

(** Writing within one user frame keeps the space. *)
Lemma frame_write s free pd T E n e p :
  aspace s free pd T E -> 0 <= n < USER -> E !! n = Some e -> length p = 4096%nat ->
  aspace (set_page (frame e) p s) free pd T E.
Proof.
  intros H Hn He Hl. destruct (frame_apart kend kend_range _ _ _ _ _ _ _ H Hn He) as (_ & Hf & Ht). split; [| | apply H | apply H].
  - apply (inv_write kend kend_range); [apply H | done | done].
  - apply (ptab_same kend s); [|apply H]. intros a Ha. cbn. apply page_insert_ne. by intros <-.
Qed.

(** Two user pages have the same frame only if they are the same page. *)
Lemma frame_inj s free pd T E n m e e' :
  aspace s free pd T E -> 0 <= n < USER -> 0 <= m < USER -> E !! n = Some e -> E !! m = Some e' -> frame e = frame e' -> n = m.
Proof.
  intros H Hn Hm He He' Hf. destruct (decide (n = m)) as [|Hne]; [done|]. exfalso.
  pose proof (as_nodup _ _ _ _ _ _ H) as (_ & _ & Hnd)%NoDup_app. rewrite owns_split in Hnd. apply NoDup_app in Hnd as (_ & _ & Hnd).
  unfold uframes in Hnd. rewrite (frames_delete _ n e) in Hnd by by rewrite within_lookup, decide_True.
  apply NoDup_cons in Hnd as [Hx _]. apply Hx, elem_of_frames. exists m, e'. split; [|done].
  by rewrite lookup_delete_ne, within_lookup, decide_True.
Qed.

Lemma user_page va : 0 <= va < KERNBASE -> 0 <= va / PGSIZE < USER.
Proof. unfold USER, KERNBASE, PGSIZE. intros. Z.div_mod_to_equations. lia. Qed.

(** [memmove] of bytes to a part of one user page. *)
Lemma copy_chunk s free pd T E va e buf :
  aspace s free pd T E -> 0 <= va < KERNBASE -> E !! (va / PGSIZE) = Some e ->
  Z.of_nat (length buf) <= PGSIZE - va mod PGSIZE ->
  exists s', copy_bytes (frame e + va mod PGSIZE) buf s = Ret tt s' /\ aspace s' free pd T E /\ same_but [frame e] s s' /\
    page (pmem s') (frame e) = splice (Z.to_nat (va mod PGSIZE)) buf (page (pmem s) (frame e)) /\
    forall a, 0 <= a < KERNBASE -> ubyte s' E a =
      if decide (va <= a < va + Z.of_nat (length buf)) then buf !! Z.to_nat (a - va) else ubyte s E a.
Proof.
  intros H Hva He Hl. pose proof (user_page va Hva) as Hn. destruct (split_va va) as [Ev Hk].
  destruct (frame_apart kend kend_range _ _ _ _ _ _ _ H Hn He) as ([Hal _] & _ & _).
  assert (pg (frame e + va mod PGSIZE) = frame e /\ pgoff (frame e + va mod PGSIZE) = Z.to_nat (va mod PGSIZE)) as [E1 E2].
  { unfold pg, pgoff. rewrite <- Zplus_mod_idemp_l, Hal, Z.add_0_l, Z.mod_mod by done. split; [lia | done]. }
  set (p := page (pmem s) (frame e)). assert (length p = 4096%nat) as Hp by apply (length_page kend s free), H.
  assert (Z.to_nat (va mod PGSIZE) + length buf <= length p)%nat as Hfit by (unfold PGSIZE in *; lia).
  exists (set_page (frame e) (splice (Z.to_nat (va mod PGSIZE)) buf p) s). split_and!.
  - unfold copy_bytes, modify. by rewrite E1, E2.
  - apply (frame_write s free pd T E (va / PGSIZE)); try done. by rewrite length_splice.
  - intros a Ha. cbn. apply page_insert_ne. intros <-. by apply Ha, list_elem_of_singleton.
  - cbn. by rewrite page_insert_eq.
  - intros a Ha. unfold ubyte. destruct (split_va a) as [Ea Hka]. cbn [set_page pmem].
    destruct (decide (a / PGSIZE = va / PGSIZE)) as [Eq|Hne].
    + rewrite Eq, He. cbn [mbind option_bind]. rewrite page_insert_eq, lookup_splice by done. unfold pgoff. fold p. unfold PGSIZE in *.
      repeat case_decide; try lia; try done. f_equal. lia.
    + rewrite decide_False by (unfold PGSIZE in *; lia). destruct (E !! (a / PGSIZE)) as [e'|] eqn:He'; [|done]. cbn [mbind option_bind].
      rewrite page_insert_ne; [done|]. intros Hf. apply Hne. symmetry.
      by apply (frame_inj s free pd T E _ _ e e' H Hn (user_page a Ha)).
Qed.

Lemma copyout_loop_law fuel : forall s free pd T E va buf,
  aspace s free pd T E -> user_range E va (Z.of_nat (length buf)) -> (length buf < fuel)%nat ->
  exists s', copyout_loop fuel pd va buf s = Ret 0 s' /\ aspace s' free pd T E /\ same_but (uframes E) s s' /\
    forall a, 0 <= a < KERNBASE -> ubyte s' E a =
      if decide (va <= a < va + Z.of_nat (length buf)) then buf !! Z.to_nat (a - va) else ubyte s E a.
Proof.
  induction fuel as [|fuel IH]; intros s free pd T E va buf H (Hva & Hend & Hu) Hf; [lia|]. cbn [copyout_loop].
  destruct buf as [|b buf'].
  { exists s. split_and!; [done | done | apply same_but_refl|]. intros a Ha. cbn [length]. rewrite decide_False by lia. done. }
  set (buf := b :: buf') in *. assert (1 <= Z.of_nat (length buf)) as Hl1 by (unfold buf; cbn [length]; lia).
  destruct (split_va va) as [Ev Hk]. destruct (Hu va) as (e & He & Heu); [lia|].
  assert (0 <= va < KERNBASE) as Hvr by lia.
  assert (PGROUNDDOWN va = PGSIZE * (va / PGSIZE)) as Er by (apply PGROUNDDOWN_eq; unfold KERNBASE in *; lia).
  rewrite Er. replace (va - PGSIZE * (va / PGSIZE)) with (va mod PGSIZE) by lia.
  assert (PGSIZE * (va / PGSIZE) / PGSIZE = va / PGSIZE) as Ed by (rewrite Z.mul_comm; by apply Z.div_mul).
  pose proof (user_page va Hvr) as Hnu.
  assert (uva2ka pd (PGSIZE * (va / PGSIZE)) s = Ret (frame e) s) as E1.
  { rewrite (uva2ka_law s free pd T E _ e H); [by rewrite Heu | unfold PGSIZE, USER, KERNBASE in *; lia | by rewrite Ed]. }
  set (n := Z.min (PGSIZE - va mod PGSIZE) (Z.of_nat (length buf))).
  assert (0 < n <= Z.of_nat (length buf)) as Hn by (unfold n; lia).
  destruct (copy_chunk s free pd T E va e (take (Z.to_nat n) buf) H Hvr He) as (s1 & E2 & H1 & Hs1 & _ & Hb1); [rewrite length_take; lia|].
  assert (same_but (uframes E) s s1) as Hs1'.
  { eapply same_but_mono; [|exact Hs1]. intros a ->%list_elem_of_singleton. apply elem_of_uframes. eauto. }
  rewrite length_take in Hb1. replace (Z.of_nat (Z.to_nat n `min` length buf)) with n in Hb1 by lia.
  assert (exists s2, copyout_loop fuel pd (u32 (PGSIZE * (va / PGSIZE) + PGSIZE)) (drop (Z.to_nat n) buf) s1 = Ret 0 s2 /\ aspace s2 free pd T E /\
    same_but (uframes E) s1 s2 /\ forall a, 0 <= a < KERNBASE -> ubyte s2 E a =
      if decide (va + n <= a < va + Z.of_nat (length buf)) then drop (Z.to_nat n) buf !! Z.to_nat (a - (va + n)) else ubyte s1 E a)
    as (s2 & E3 & H2 & Hs2 & Hb2).
  { assert (Z.of_nat (length (drop (Z.to_nat n) buf)) = Z.of_nat (length buf) - n) as Hld by (rewrite length_drop; lia).
    rewrite u32_small by (unfold PGSIZE, USER in *; lia).
    destruct (decide (n = Z.of_nat (length buf))) as [Eq|Hne].
    - rewrite drop_ge by lia. exists s1. split; [destruct fuel; [lia | done]|]. split_and!; [done | apply same_but_refl|].
      intros a _. rewrite decide_False by lia. done.
    - assert (PGSIZE * (va / PGSIZE) + PGSIZE = va + n) as -> by lia.
      destruct (IH s1 free pd T E (va + n) (drop (Z.to_nat n) buf) H1) as (s2 & E3 & H2 & Hs2 & Hb2).
      + split; [lia|]. split; [lia|]. intros a Ha. apply Hu. lia.
      + lia.
      + exists s2. split_and!; try done. intros a Ha. rewrite Hb2, Hld by done. by replace (va + n + (Z.of_nat (length buf) - n)) with (va + Z.of_nat (length buf)) by lia. }
  exists s2. split_and!; [| done | by eapply same_but_trans|].
  - etrans; [apply (bind_ret _ _ _ _ _ E1)|].
    destruct (frame_apart kend kend_range _ _ _ _ _ _ _ H Hnu He) as (Hg & _ & _).
    destruct (Z.eqb_spec (frame e) 0) as [Hz|_]; [rewrite Hz in Hg; by destruct (good_page_nonzero kend kend_range 0 Hg)|].
    etrans; [apply (bind_ret _ _ _ _ _ E2)|]. exact E3.
  - intros a Ha. rewrite Hb2, Hb1 by done. repeat case_decide; try lia; try done.
    + rewrite lookup_drop. f_equal. lia.
    + by rewrite lookup_take_lt by lia.
Qed.

(** [copyout] to mapped user memory writes the bytes at their virtual addresses. *)
Lemma copyout_law s free pd T E va buf :
  aspace s free pd T E -> user_range E va (Z.of_nat (length buf)) ->
  exists s', copyout pd va buf s = Ret 0 s' /\ aspace s' free pd T E /\ same_but (uframes E) s s' /\
    forall a, 0 <= a < KERNBASE -> ubyte s' E a =
      if decide (va <= a < va + Z.of_nat (length buf)) then buf !! Z.to_nat (a - va) else ubyte s E a.
Proof. intros H Hu. apply copyout_loop_law; [done | done | lia]. Qed.

(** To any mapped memory it writes a part of the bytes, up to the first page
    that user code may not access; it returns 0 only when there is none. *)
Lemma copyout_loop_any fuel : forall s free pd T E va buf,
  aspace s free pd T E -> 0 <= va -> va + Z.of_nat (length buf) <= KERNBASE -> (length buf < fuel)%nat ->
  (forall a, va <= a < va + Z.of_nat (length buf) -> is_Some (E !! (a / PGSIZE))) ->
  exists r s', copyout_loop fuel pd va buf s = Ret r s' /\ aspace s' free pd T E /\ same_but (uframes E) s s' /\ (r = 0 \/ r = -1) /\
    (r = 0 -> forall a, va <= a < va + Z.of_nat (length buf) -> exists e, E !! (a / PGSIZE) = Some e /\ has e PTE_U = true).
Proof.
  induction fuel as [|fuel IH]; intros s free pd T E va buf H Hva Hend Hf Hm; [lia|]. cbn [copyout_loop].
  destruct buf as [|b buf']; [exists 0, s; split_and!; [done | done | apply same_but_refl | by left | cbn [length]; lia]|].
  set (buf := b :: buf') in *. assert (1 <= Z.of_nat (length buf)) as Hl1 by (unfold buf; cbn [length]; lia).
  destruct (split_va va) as [Ev Hk]. destruct (Hm va) as (e & He); [lia|]. assert (0 <= va < KERNBASE) as Hvr by lia.
  rewrite PGROUNDDOWN_eq by (unfold KERNBASE in *; lia). replace (va - PGSIZE * (va / PGSIZE)) with (va mod PGSIZE) by lia.
  assert (PGSIZE * (va / PGSIZE) / PGSIZE = va / PGSIZE) as Ed by (rewrite Z.mul_comm; by apply Z.div_mul).
  pose proof (user_page va Hvr) as Hnu.
  assert (uva2ka pd (PGSIZE * (va / PGSIZE)) s = Ret (if has e PTE_U then frame e else 0) s) as E1.
  { apply (uva2ka_law s free pd T E _ e H); [unfold PGSIZE, USER, KERNBASE in *; lia | by rewrite Ed]. }
  destruct (has e PTE_U) eqn:Heu.
  2: { exists (-1), s. split_and!; [etrans; [apply (bind_ret _ _ _ _ _ E1)|]; done | done | apply same_but_refl | by right | done]. }
  set (n := Z.min (PGSIZE - va mod PGSIZE) (Z.of_nat (length buf))).
  assert (0 < n <= Z.of_nat (length buf) /\ n <= PGSIZE - va mod PGSIZE) as [Hn1 Hn2] by (unfold n; lia).
  destruct (copy_chunk s free pd T E va e (take (Z.to_nat n) buf) H Hvr He) as (s1 & E2 & H1 & Hs1 & _); [rewrite length_take; lia|].
  destruct (IH s1 free pd T E (if decide (n = Z.of_nat (length buf)) then 0 else va + n) (drop (Z.to_nat n) buf) H1) as (r & s2 & E3 & H2 & Hs2 & Hr & Hall).
  1-4: rewrite ?length_drop; try case_decide; try lia.
  { intros a Ha. apply Hm. lia. }
  exists r, s2. split_and!; [| done | | done|].
  - etrans; [apply (bind_ret _ _ _ _ _ E1)|].
    destruct (frame_apart kend kend_range _ _ _ _ _ _ _ H Hnu He) as (Hg & _ & _).
    destruct (Z.eqb_spec (frame e) 0) as [Hz|_]; [rewrite Hz in Hg; by destruct (good_page_nonzero kend kend_range 0 Hg)|].
    etrans; [apply (bind_ret _ _ _ _ _ E2)|]. rewrite <- E3. case_decide as Hd.
    + rewrite drop_ge by lia. by destruct fuel.
    + rewrite u32_small by (unfold PGSIZE, USER in *; lia). f_equal. lia.
  - eapply same_but_trans; [|exact Hs2]. eapply same_but_mono; [|exact Hs1].
    intros a ->%list_elem_of_singleton. apply elem_of_uframes. eauto.
  - intros Hr0 a Ha. destruct (Z.lt_ge_cases a (va + n)) as [Hlt|Hge].
    + exists e. split; [|done]. replace (a / PGSIZE) with (va / PGSIZE); [done|]. unfold PGSIZE in *. Z.div_mod_to_equations. lia.
    + apply (Hall Hr0). rewrite length_drop. case_decide; lia.
Qed.

(** [uva2ka] of any address: a page the kernel may not write for the process
    gives 0, or a null pointer is followed. *)
Lemma uva2ka_any s free pd T E n :
  aspace s free pd T E -> (forall m e, USER <= m -> E !! m = Some e -> has e PTE_U = false) -> 0 <= n < 2 ^ 20 ->
  (exists msg, uva2ka pd (PGSIZE * n) s = Panic msg) \/ uva2ka pd (PGSIZE * n) s = Ret 0 s \/
  (exists e, n < USER /\ E !! n = Some e /\ uva2ka pd (PGSIZE * n) s = Ret (frame e) s).
Proof.
  intros H Hk Hn. pose proof (as_tab _ _ _ _ _ _ H) as Hpt.
  assert (PGSIZE * n / PGSIZE = n) as Ed by (rewrite Z.mul_comm; by apply Z.div_mul).
  assert (0 <= PGSIZE * n < 2 ^ 32) as Hv by (unfold PGSIZE; lia). pose proof (walk_get s pd T E _ Hpt Hv) as Ew. rewrite Ed in Ew.
  destruct (T !! (n / 1024)) as [t|] eqn:Ht; [|left; exists "undefined behaviour"%string; unfold uva2ka; by rewrite (bind_ret _ _ _ _ _ Ew)].
  right. unfold uva2ka. rewrite (bind_ret _ _ _ _ _ Ew), (slot_nonzero kend kend_range s pd T E _ _ _ Hpt Ht),
    (bind_ret _ _ _ _ _ (load_slot kend s pd T E _ t Hpt Ht)). destruct (E !! n) as [e|] eqn:He; [|by left]. cbn [default]. unfold id.
  destruct (has e PTE_P); [|by left]. destruct (has e PTE_U) eqn:Hu; [|by left]. right. exists e.
  assert (n < USER) as Hnu by (destruct (Z.lt_ge_cases n USER); [done | rewrite (Hk n e) in Hu; done]).
  split; [done|]. split; [done|]. apply (P2V_frame kend kend_range s free pd T E n e s H); [lia | done].
Qed.

(** To any address it writes pages of the process only, or panics. *)
Lemma copyout_loop_panics fuel : forall s free pd T E va buf,
  aspace s free pd T E -> (forall m e, USER <= m -> E !! m = Some e -> has e PTE_U = false) -> 0 <= va < 2 ^ 32 -> (length buf < fuel)%nat ->
  (exists msg, copyout_loop fuel pd va buf s = Panic msg) \/
  exists r s', copyout_loop fuel pd va buf s = Ret r s' /\ aspace s' free pd T E /\ same_but (uframes E) s s'.
Proof.
  induction fuel as [|fuel IH]; intros s free pd T E va buf H Hk Hva Hf; [lia|]. cbn [copyout_loop].
  destruct buf as [|b buf']; [right; exists 0, s; split_and!; [done | done | apply same_but_refl]|].
  set (buf := b :: buf') in *. assert (1 <= Z.of_nat (length buf)) as Hl1 by (unfold buf; cbn [length]; lia).
  destruct (split_va va) as [Ev Hm]. rewrite PGROUNDDOWN_eq by done. replace (va - PGSIZE * (va / PGSIZE)) with (va mod PGSIZE) by lia.
  assert (0 <= va / PGSIZE < 2 ^ 20) as Hn by (unfold PGSIZE in *; Z.div_mod_to_equations; lia).
  destruct (uva2ka_any s free pd T E (va / PGSIZE) H Hk Hn) as [[msg E1]|[E1|(e & Hnu & He & E1)]].
  - left. exists msg. unfold bind. by rewrite E1.
  - right. exists (-1), s. split_and!; [by rewrite (bind_ret _ _ _ _ _ E1) | done | apply same_but_refl].
  - set (n := Z.min (PGSIZE - va mod PGSIZE) (Z.of_nat (length buf))).
    assert (0 < n <= Z.of_nat (length buf) /\ n <= PGSIZE - va mod PGSIZE) as [Hn1 Hn2] by (unfold n; lia).
    assert (0 <= va < KERNBASE) as Hvr by (unfold USER, KERNBASE, PGSIZE in *; lia).
    destruct (copy_chunk s free pd T E va e (take (Z.to_nat n) buf) H Hvr He) as (s1 & E2 & H1 & Hs1 & _); [rewrite length_take; lia|].
    destruct (frame_apart kend kend_range _ _ _ _ _ _ _ H (user_page va Hvr) He) as (Hg & _ & _).
    rewrite (bind_ret _ _ _ _ _ E1). destruct (Z.eqb_spec (frame e) 0) as [Hz|_]; [rewrite Hz in Hg; by destruct (good_page_nonzero kend kend_range 0 Hg)|].
    rewrite (bind_ret _ _ _ _ _ E2).
    destruct (IH s1 free pd T E (u32 (PGSIZE * (va / PGSIZE) + PGSIZE)) (drop (Z.to_nat n) buf) H1 Hk (u32_range _)) as [Hp|(r & s2 & E3 & H2 & Hs2)];
      [rewrite length_drop; lia | by left | right]. exists r, s2. split; [done|]. split; [done|].
    eapply same_but_trans; [|exact Hs2]. eapply same_but_mono; [|exact Hs1].
    intros a ->%list_elem_of_singleton. apply elem_of_uframes. exists (va / PGSIZE), e. split; [by apply user_page | done].
Qed.

(** *** [clearpteu] *)

Definition clear_u (e : Z) : Z := Z.land e (u32 (Z.lnot PTE_U)).

Lemma clear_u_bits e i : 0 <= e < 2 ^ 32 -> Z.testbit (clear_u e) i = Z.testbit e i && negb (i =? 2).
Proof.
  intros He. unfold clear_u. rewrite Z.land_spec. change (u32 (Z.lnot PTE_U)) with 4294967291.
  destruct (Z.lt_ge_cases i 0); [by rewrite !Z.testbit_neg_r by lia|].
  destruct (Z.lt_ge_cases i 32).
  - f_equal. assert (i ∈ seqZ 0 32) as Hi by (apply elem_of_seqZ; lia). revert i H H0 Hi.
    assert (Forall (fun i => Z.testbit 4294967291 i = negb (i =? 2)) (seqZ 0 32)) as Hall by (vm_compute; repeat constructor).
    intros i _ _ Hi. by apply (proj1 (Forall_forall _ _) Hall).
  - rewrite <- (Z.mod_small e (2 ^ 32)), Z.mod_pow2_bits_high by lia. done.
Qed.

Lemma land_clear_u e f : 0 <= e < 2 ^ 32 -> 0 <= f -> Z.testbit f 2 = false -> Z.land (clear_u e) f = Z.land e f.
Proof.
  intros He Hf H2. apply Z.bits_inj'. intros i Hi. rewrite !Z.land_spec, clear_u_bits by done.
  destruct (Z.eqb_spec i 2) as [->|]; [by rewrite H2, !andb_false_r | by rewrite andb_true_r].
Qed.

Lemma clear_u_spec e :
  0 <= e < 2 ^ 32 -> 0 <= clear_u e < 2 ^ 32 /\ frame (clear_u e) = frame e /\ has (clear_u e) PTE_P = has e PTE_P /\
    has (clear_u e) PTE_W = has e PTE_W /\ has (clear_u e) PTE_U = false.
Proof.
  intros He. split_and!.
  - apply Z.land_nonneg. lia.
  - unfold clear_u.
    destruct (Z.eq_dec (Z.land e (u32 (Z.lnot PTE_U))) 0) as [->|Hz]; [lia|].
    assert (0 <= Z.land e (u32 (Z.lnot PTE_U))) by (apply Z.land_nonneg; lia).
    apply Z.log2_lt_pow2; [lia|]. eapply Z.le_lt_trans; [apply Z.log2_land; [lia | done]|].
    change (Z.log2 (u32 (Z.lnot PTE_U))) with 31. lia.
  - unfold frame, PTE_ADDR. by rewrite land_clear_u.
  - unfold has. by rewrite land_clear_u.
  - unfold has. by rewrite land_clear_u.
  - unfold has. replace (Z.land (clear_u e) PTE_U) with 0; [done|]. symmetry. apply Z.bits_inj'. intros i Hi.
    rewrite Z.land_spec, clear_u_bits, Z.bits_0 by done. change PTE_U with (2 ^ 2). rewrite Z.pow2_bits_eqb by lia.
    destruct (Z.eqb_spec i 2) as [->|]; [by rewrite andb_false_r | destruct (Z.eqb_spec 2 i); [lia | by rewrite andb_false_r]].
Qed.

(** [clearpteu] takes the page away from user code and changes nothing else. *)
Lemma clearpteu_law s free pd T E va e :
  aspace s free pd T E -> 0 <= va < KERNBASE -> E !! (va / PGSIZE) = Some e ->
  exists s', clearpteu pd va s = Ret tt s' /\ aspace s' free pd T (<[va / PGSIZE := clear_u e]> E) /\
    same_but (vals T) s s' /\ uframes (<[va / PGSIZE := clear_u e]> E) ≡ₚ uframes E.
Proof.
  intros H Hva He. pose proof (as_tab _ _ _ _ _ _ H) as Hpt. destruct (pt_dom kend _ _ _ _ Hpt _ e He) as ([t Ht] & Hpr & Her).
  destruct (clear_u_spec e Her) as (Hr & Hf & Hp & _ & _). pose proof (user_page va Hva) as Hn.
  pose proof (length_page kend s free t (as_inv _ _ _ _ _ _ H)) as Hl. set (n := va / PGSIZE) in *.
  assert (uframes (<[n := clear_u e]> E) ≡ₚ uframes E) as Hu.
  { unfold uframes. rewrite within_insert by done. assert (within 0 USER E !! n = Some e) as Hw by by rewrite within_lookup, decide_True.
    rewrite (frames_delete _ n e Hw), <- Hf. rewrite <- (insert_delete_eq (within 0 USER E)). by rewrite frames_insert by apply lookup_delete_eq. }
  assert (t ∈ vals T) as Htv by (apply elem_of_vals; eauto).
  exists (put_ent t (n mod 1024) (clear_u e) s). split_and!; [| split | | done].
  - unfold clearpteu. etrans; [apply bind_ret, (walk_get s pd T E va Hpt); unfold KERNBASE in *; lia|]. fold n. rewrite Ht.
    rewrite (slot_nonzero kend kend_range s pd T E _ _ _ Hpt Ht).
    etrans; [apply (bind_ret _ _ _ _ _ (load_slot kend s pd T E _ t Hpt Ht))|]. rewrite He. cbn [default]. unfold id.
    by apply (store_slot kend s pd T E).
  - apply (inv_write kend kend_range); [apply H | | rewrite length_set32; rewrite Hl; pose proof (index_range n); lia].
    intros Hin. pose proof (aspace_nodup_tables _ _ _ _ _ _ H) as (_ & Hd & _)%NoDup_app. apply (Hd t Hin). by right.
  - apply ptab_insert; try done. by rewrite Hp.
  - unfold owns. rewrite Hu. apply H.
  - rewrite Hu. apply H.
  - intros a Ha. apply page_put_ne. by intros ->.
Qed.

(** *** [inituvm] *)

(** The first page of the first process: the initial code, then zeros. *)
Lemma inituvm_law s free v pd T E init :
  aspace s (v :: free) pd T E -> Z.of_nat (length init) < PGSIZE -> E !! 0 = None -> free <> [] ->
  exists s' T' free', inituvm pd init s = Ret tt s' /\
    let E' := <[0 := pte (v - KERNBASE) (Z.lor PTE_W PTE_U)]> E in
    aspace s' free' pd T' E' /\ T ⊆ T' /\ v :: free' ++ vals T' ≡ₚ (v :: free) ++ vals T /\
    same_but (v :: free ++ pd :: vals T) s s' /\ page (pmem s') v = init ++ replicate (4096 - length init) 0.
Proof.
  intros H Hl He Hne. unfold inituvm. rewrite (proj2 (Z.leb_gt _ _) Hl).
  destruct (map_page_law kend kend_range s free v zero_page pd T E 0 (Z.lor PTE_W PTE_U) H) as
    (s1 & E1 & Hm1 & Hg & Hvo & r & s2 & T2 & f2 & E2 & HT & Hp & Hvf2 & Hvo2 & Hs2 & Hz & H2 & Hr);
    [apply length_replicate | done | done | done|].
  destruct Hr as [[-> _]|(_ & _ & Hf)]; [|done]. rewrite decide_True in H2 by done. cbn zeta.
  assert (E !! 0 = None) as He0 by done. set (e := pte (v - KERNBASE) (Z.lor PTE_W PTE_U)) in *.
  assert (frame e = v) as Hfe by by apply (good_frame kend kend_range).
  destruct (copy_chunk s2 f2 pd T2 (<[0 := e]> E) 0 e init H2) as (s3 & E3 & H3 & Hs3 & Hpg & _); [done | apply lookup_insert_eq | change (0 mod PGSIZE) with 0; lia|].
  rewrite Hfe in *. change (0 mod PGSIZE) with 0 in *. rewrite Z.add_0_r in E3.
  exists s3, T2, f2. split_and!; try done.
  - etrans; [apply (bind_ret _ _ _ _ _ E1)|]. destruct (Z.eqb_spec v 0) as [->|_]; [by destruct (good_page_nonzero kend kend_range 0 Hg)|].
    etrans; [apply (bind_ret _ _ _ tt (set_page v zero_page s1)); reflexivity|].
    etrans; [apply bind_ret, (V2P_good kend kend_range v _ Hg)|]. etrans; [apply (bind_ret _ _ _ _ _ E2)|]. exact E3.
  - by rewrite Hp.
  - eapply same_but_trans; [exact Hs2|]. eapply same_but_mono; [|exact Hs3]. intros a ->%list_elem_of_singleton. by left.
  - rewrite Hpg, Hz. unfold splice, zero_page. by rewrite drop_replicate.
Qed.
End user.
