(* ===== verification/VmSafe.v ===== *)
(** * Isolation of processes

    Any number of address spaces, built, copied, grown, shrunk, written and
    freed by the operations of vm.c as proc.c and exec.c call them, with any
    arguments.  No page is lost or shared, every space has user pages only
    below its size and the kernel mappings of [kmap], and an operation on one
    process changes nothing another one can see.  No operation panics, and
    every space has all the pages below its size, as long as no process gives
    back its whole memory by [sbrk] and the kernel writes only below the size
    of a process. *)

From S2P Require Import Prelude Kalloc Vm VmTab VmInv VmKern VmUser.

(** ** The paging hardware

    The two-level walk of the processor: the page an address refers to and
    its flags (see the picture in mmu.h). *)

Definition translate (s : kmem_t) (pd va : Z) : option (Z * Z) :=
  let pde := ent s pd (PDX va) in
  if has pde PTE_P then
    let pte := ent s (PTE_ADDR pde + KERNBASE) (PTX va) in
    if has pte PTE_P then Some (PTE_ADDR pte, PTE_FLAGS pte) else None
  else None.

(** The flags and the byte a process finds at [va]. *)
Definition access (s : kmem_t) (pd va : Z) : option (Z * Z) :=
  '(pa, f) ← translate s pd va; b ← page (pmem s) (pa + KERNBASE) !! pgoff va; Some (f, b).

Lemma concat_inj {A B} (g : A -> list B) (l : list A) i j (a b : A) x :
  NoDup (concat (g <$> l)) -> l !! i = Some a -> l !! j = Some b -> x ∈ g a -> x ∈ g b -> i = j.
Proof.
  assert (forall l k c, l !! k = Some c -> x ∈ g c -> x ∈ concat (g <$> l)) as Hin.
  { clear. induction l as [|c l IH]; intros [|k] d Hk Hx; try done; rewrite fmap_cons; cbn [concat]; apply elem_of_app.
    - injection Hk as ->. by left.
    - right. by eapply IH. }
  revert i j. induction l as [|c l IH]; intros i j Hn Hi Hj Ha Hb; [done|]. rewrite fmap_cons in Hn. cbn [concat] in Hn.
  apply NoDup_app in Hn as (_ & Hd & Hn). destruct i as [|i], j as [|j]; [done | | | by rewrite (IH i j)].
  - injection Hi as ->. destruct (Hd x Ha). by eapply Hin.
  - injection Hj as ->. destruct (Hd x Hb). by eapply Hin.
Qed.

(** ** Processes and their address spaces *)

Record vworld := mk_vworld { vmem : kmem_t; spaces : list (Z * Z) }.

Definition on_mem {A} (m : M kmem_t A) : M vworld A :=
  zoom vmem (fun s w => mk_vworld s (spaces w)) m.
Definition set_spaces l (w : vworld) : vworld := mk_vworld (vmem w) l.

(** [Sbrk] is [growproc]; [Grow] and [Stack] are the calls of [exec] for a
    segment and for the stack; [Store] is [copyout]. *)
Inductive vop :=
| New
| Fork (i : nat)
| Sbrk (i : nat) (n : Z)
| Grow (i : nat) (newsz : Z)
| Stack (i : nat)
| Store (i : nat) (va : Z) (buf : list Z)
| Free (i : nat).

Definition subject (o : vop) : option nat :=
  match o with
  | New | Fork _ => None
  | Sbrk i _ | Grow i _ | Stack i | Store i _ _ | Free i => Some i
  end.

Lemma pages_mono x y : x <= y -> pages x <= pages y.
Proof. intros H. unfold pages. apply Z.div_le_mono; unfold PGSIZE; lia. Qed.

Section safe.
Variables kend data : Z.

(** The size is stored unless the call failed with 0. *)
Definition resize (i : nat) (pd r : Z) : M vworld unit :=
  when (negb (r =? 0)) (modify (fun w => set_spaces (<[i := (pd, r)]> (spaces w)) w)).

(** [growproc(n)]: a result 0 of [deallocuvm] is taken for a failure, so that
    a process that gives back all of its memory keeps its old size. *)
Definition sbrk_space (i : nat) (pd sz n : Z) : M vworld unit :=
  if 0 <? n then let! r := on_mem (allocuvm kend pd sz (u32 (sz + n))) in resize i pd r
  else if n <? 0 then let! r := on_mem (deallocuvm kend pd sz (u32 (sz + n))) in resize i pd r
  else ret tt.

(** [sz = PGROUNDUP(sz)]; two pages, the first of them not for user code. *)
Definition stack_space (i : nat) (pd sz : Z) : M vworld unit :=
  let sz := PGROUNDUP sz in
  let! r := on_mem (allocuvm kend pd sz (u32 (sz + 2 * PGSIZE))) in
  when (negb (r =? 0)) (on_mem (clearpteu pd (u32 (r - 2 * PGSIZE)))) ;;
  resize i pd r.

Definition on_space (i : nat) (f : Z -> Z -> M vworld unit) : M vworld unit :=
  let! w := get in match spaces w !! i with Some (pd, sz) => f pd sz | None => ret tt end.

Definition vrun (o : vop) : M vworld unit :=
  match o with
  | New =>
      let! r := on_mem (setupkvm kend data) in
      when (negb (r =? 0)) (modify (fun w => set_spaces (spaces w ++ [(r, 0)]) w))
  | Fork i => on_space i (fun pd sz =>
      let! r := on_mem (copyuvm kend data pd sz) in
      when (negb (r =? 0)) (modify (fun w => set_spaces (spaces w ++ [(r, sz)]) w)))
  | Sbrk i n => on_space i (fun pd sz => sbrk_space i pd sz (i32 n))
  | Grow i newsz => on_space i (fun pd sz => let! r := on_mem (allocuvm kend pd sz (u32 newsz)) in resize i pd r)
  | Stack i => on_space i (stack_space i)
  | Store i va buf => on_space i (fun pd sz => on_mem (copyout pd (u32 va) buf) ;; ret tt)
  | Free i => on_space i (fun pd sz => on_mem (freevm kend pd) ;; modify (fun w => set_spaces (delete i (spaces w)) w))
  end.

Fixpoint vruns (os : list vop) : M vworld unit :=
  match os with
  | [] => ret tt
  | o :: os => vrun o ;; vruns os
  end.

(** Requests that keep the sizes true: no process gives back its whole
    memory, and the kernel writes below the size. *)
Definition tame (o : vop) (w : vworld) : bool :=
  match o with
  | Sbrk i n => match spaces w !! i with Some (_, sz) => (sz =? 0) || negb (sz + i32 n =? 0) | None => true end
  | Store i va buf =>
      match spaces w !! i with Some (_, sz) => (0 <=? va) && (va + Z.of_nat (length buf) <=? sz) | None => true end
  | _ => true
  end.

Fixpoint tames (os : list vop) (w : vworld) : bool :=
  match os with
  | [] => true
  | o :: os => tame o w && match vrun o w with Ret _ w' => tames os w' | _ => true end
  end.

(** ** The invariant *)

Hypothesis kend_range : KERNBASE < kend <= KERNBASE + PHYSTOP.
Hypothesis data_range : KERNLINK < data < kend.
Hypothesis data_aligned : data mod PGSIZE = 0.
Implicit Types (s : kmem_t) (T E : gmap Z Z) (free : list Z).
Abbreviation kents := (kents data).

Record space := mk_space { sp_pd : Z; sp_sz : Z; sp_tabs : gmap Z Z; sp_ents : gmap Z Z }.
Implicit Types (a : space) (L : list space).

Definition sp_owns a : list Z := owns (sp_pd a) (sp_tabs a) (sp_ents a).
Definition visible a : Z * Z := (sp_pd a, sp_sz a).

(** The tables of a space, and what they map: pages below its size and the
    kernel. *)
Record sp_ok s a : Prop := {
  ok_tab : ptab kend s (sp_pd a) (sp_tabs a) (sp_ents a);
  ok_good : Forall (good_page kend) (uframes (sp_ents a));
  ok_size : 0 <= sp_sz a < KERNBASE;
  ok_user : forall n, 0 <= n < USER -> is_Some (sp_ents a !! n) -> n < pages (sp_sz a);
  ok_kern : forall n, USER <= n -> sp_ents a !! n = kents !! n;
}.

(** No page below the size is missing. *)
Definition whole a : Prop := forall n, 0 <= n < pages (sp_sz a) -> is_Some (sp_ents a !! n).

Record wf s free L : Prop := {
  wf_inv : inv kend s free;
  wf_spaces : Forall (sp_ok s) L;
  wf_nodup : NoDup (free ++ concat (sp_owns <$> L));
}.

Lemma sp_ok_same s s' a : same_but [] s s' \/ (exists W, same_but W s s' /\ forall x, x ∈ sp_owns a -> x ∉ W) -> sp_ok s a -> sp_ok s' a.
Proof.
  intros Hs [H1 H2 H3 H4 H5]. split; try done. apply (ptab_same kend s); [|done]. intros x Hx.
  destruct Hs as [Hs|(W & Hs & HW)]; apply Hs; [apply not_elem_of_nil|]. apply HW.
  unfold sp_owns. rewrite owns_split. apply elem_of_app. by left.
Qed.

(** One space of the world, with the free pages. *)
Lemma wf_focus s free L1 a L2 : wf s free (L1 ++ a :: L2) -> aspace kend s free (sp_pd a) (sp_tabs a) (sp_ents a).
Proof.
  intros [Hi Hs Hn]. apply Forall_app in Hs as [_ Hs]. apply Forall_cons in Hs as [[H1 H2 _ _ _] _]. split; try done.
  rewrite fmap_app, concat_app, fmap_cons in Hn. cbn [concat] in Hn.
  apply NoDup_app in Hn as (Hf & Hd & Hn). apply NoDup_app in Hn as (_ & _ & Hn). apply NoDup_app in Hn as (Hn & _ & _).
  apply NoDup_app. split; [done|]. split; [|done]. intros x Hx Ho. apply (Hd x Hx). rewrite !elem_of_app. tauto.
Qed.

Lemma owned_concat a L x : a ∈ L -> x ∈ sp_owns a -> x ∈ concat (sp_owns <$> L).
Proof.
  induction 1; intros Hx; rewrite fmap_cons; cbn [concat]; apply elem_of_app; [by left | right; auto].
Qed.

(** An operation that replaces the spaces [old] by [new] and changes only
    their pages and free pages. *)
Lemma wf_replace s free s' free' L1 old new L2 :
  wf s free (L1 ++ old ++ L2) -> inv kend s' free' -> Forall (sp_ok s') new ->
  free' ++ concat (sp_owns <$> new) ≡ₚ free ++ concat (sp_owns <$> old) ->
  same_but (free ++ concat (sp_owns <$> old)) s s' ->
  wf s' free' (L1 ++ new ++ L2) /\
  free' ++ concat (sp_owns <$> (L1 ++ new ++ L2)) ≡ₚ free ++ concat (sp_owns <$> (L1 ++ old ++ L2)).
Proof.
  intros [Hi Hs Hn] Hi' Hnew Hp Hsame.
  assert (forall l : list space, concat (sp_owns <$> (L1 ++ l ++ L2)) ≡ₚ concat (sp_owns <$> l) ++ concat (sp_owns <$> L1) ++ concat (sp_owns <$> L2)) as Hc.
  { intros l. rewrite !fmap_app, !concat_app. solve_Permutation. }
  assert (free' ++ concat (sp_owns <$> (L1 ++ new ++ L2)) ≡ₚ free ++ concat (sp_owns <$> (L1 ++ old ++ L2))) as Hperm.
  { rewrite !Hc, !(app_assoc free), !(app_assoc free'). by rewrite Hp. }
  split; [split|]; try done.
  - rewrite !Forall_app in Hs. destruct Hs as (Hs1 & _ & Hs2). rewrite !Forall_app.
    rewrite Hc, app_assoc in Hn. apply NoDup_app in Hn as (_ & Hd & _).
    assert (forall l a, l ⊆ L1 ++ L2 -> Forall (sp_ok s) l -> a ∈ l -> sp_ok s' a) as Hrest.
    { intros l a Hl Hf Ha. apply (sp_ok_same s); [|by eapply Forall_forall in Hf].
      right. eexists. split; [exact Hsame|]. intros x Hx Hin. apply (Hd x Hin). rewrite <- concat_app, <- fmap_app.
      apply (owned_concat a); [by apply Hl | done]. }
    split_and!; [|done|]; apply Forall_forall; intros a Ha.
    + apply (Hrest L1); [|done|done]. intros y Hy. apply elem_of_app. by left.
    + apply (Hrest L2); [|done|done]. intros y Hy. apply elem_of_app. by right.
  - by rewrite Hperm.
Qed.

(** ** The operations *)

(** The spaces [old] become [new]. *)
Record effect s free (old : list space) s' free' (new : list space) : Prop := {
  ef_inv : inv kend s' free';
  ef_ok : Forall (sp_ok s') new;
  ef_perm : free' ++ concat (sp_owns <$> new) ≡ₚ free ++ concat (sp_owns <$> old);
  ef_same : same_but (free ++ concat (sp_owns <$> old)) s s';
}.

Lemma effect_one s free a s' free' a' :
  aspace kend s' free' (sp_pd a') (sp_tabs a') (sp_ents a') -> 0 <= sp_sz a' < KERNBASE ->
  (forall n, 0 <= n < USER -> is_Some (sp_ents a' !! n) -> n < pages (sp_sz a')) ->
  (forall n, USER <= n -> sp_ents a' !! n = kents !! n) ->
  free' ++ sp_owns a' ≡ₚ free ++ sp_owns a -> same_but (free ++ sp_owns a) s s' ->
  effect s free [a] s' free' [a'].
Proof.
  intros [H1 H2 H3 H4] Hsz Hu Hk Hp Hs. split; cbn [fmap list_fmap concat]; rewrite ?app_nil_r; try done.
  apply Forall_singleton. by split.
Qed.

Lemma effect_new s free s' free' a' :
  aspace kend s' free' (sp_pd a') (sp_tabs a') (sp_ents a') -> 0 <= sp_sz a' < KERNBASE ->
  (forall n, 0 <= n < USER -> is_Some (sp_ents a' !! n) -> n < pages (sp_sz a')) ->
  (forall n, USER <= n -> sp_ents a' !! n = kents !! n) ->
  free' ++ sp_owns a' ≡ₚ free -> same_but free s s' ->
  effect s free [] s' free' [a'].
Proof.
  intros [H1 H2 H3 H4] Hsz Hu Hk Hp Hs. split; cbn [fmap list_fmap concat]; rewrite ?app_nil_r; try done.
  apply Forall_singleton. by split.
Qed.

Lemma effect_none s free s' free' :
  inv kend s' free' -> free' ≡ₚ free -> same_but free s s' -> effect s free [] s' free' [].
Proof. intros Hi Hp Hs. split; cbn [fmap list_fmap concat]; rewrite ?app_nil_r; done. Qed.

#[local] Opaque VmKern.kents.

Lemma kents_user n : 0 <= n < USER -> kents !! n = None.
Proof.
  intros Hn. destruct (kents !! n) eqn:E; [|done].
  apply (kents_high kend data kend_range data_range data_aligned) in E. lia.
Qed.

Lemma new_effect s free :
  inv kend s free -> exists r s' free' new, setupkvm kend data s = Ret r s' /\ effect s free [] s' free' new /\
    (if r =? 0 then new = [] else visible <$> new = [(r, 0)]) /\ ((66 <= length free)%nat -> r <> 0) /\ Forall whole new.
Proof.
  intros Hi. destruct (setupkvm_law kend data kend_range data_range data_aligned s free Hi)
    as (r & s' & E1 & Hs & [(T & f & Hg & H & _ & Hp)|(-> & Hl & f & Hi' & Hp)]).
  - assert (r <> 0) by (intros ->; by destruct (good_page_nonzero kend kend_range 0 Hg)).
    exists r, s', f, [mk_space r 0 T kents]. split; [done|]. split; [|split; [|split; [done|]]].
    + apply effect_new; try done. intros n Hn [e He]. cbn [sp_ents] in He. by rewrite kents_user in He.
    + by destruct (Z.eqb_spec r 0).
    + apply Forall_singleton. intros n Hn. cbn [sp_sz] in Hn. change (pages 0) with 0 in Hn. lia.
  - exists 0, s', f, []. split; [done|]. split; [by apply effect_none|]. split; [done|]. split; [lia | constructor].
Qed.

Lemma fork_effect s free a :
  aspace kend s free (sp_pd a) (sp_tabs a) (sp_ents a) -> sp_ok s a ->
  (exists msg, copyuvm kend data (sp_pd a) (sp_sz a) s = Panic msg /\ ~ whole a) \/
  exists r s' free' new, copyuvm kend data (sp_pd a) (sp_sz a) s = Ret r s' /\ effect s free [] s' free' new /\
    (if r =? 0 then new = [] else visible <$> new = [(r, sp_sz a)]) /\ Forall whole new.
Proof.
  intros H [_ _ Hsz Hu _].
  destruct (copyuvm_any kend data kend_range data_range data_aligned s free _ _ _ (sp_sz a) H)
    as [(msg & m & E1 & Hm & Hn)|(r & s' & E1 & Hs & [(T & E & f & Hg & H' & Hp & Hc & Hk)|(-> & f & Hi' & Hp)])]; [lia|..]; [left | right..].
  - exists msg. split; [done|]. intros Hw. destruct (Hw m Hm) as [e He]. congruence.
  - exists r, s', f, [mk_space r (sp_sz a) T E]. split; [done|]. split; [|split].
    + apply effect_new; try done. intros n Hn [e He]. cbn [sp_ents sp_sz] in *. specialize (Hc n Hn). case_decide; [done | congruence].
    + destruct (Z.eqb_spec r 0) as [->|]; [by destruct (good_page_nonzero kend kend_range 0 Hg) | done].
    + apply Forall_singleton. intros n Hn. cbn [sp_ents sp_sz] in *. pose proof (pages_range (sp_sz a) ltac:(lia)). specialize (Hc n ltac:(lia)).
      rewrite decide_True in Hc by lia. destruct Hc as (e & e' & _ & -> & _). by eexists.
  - exists 0, s', f, []. split; [done|]. split; [by apply effect_none|]. split; [done | constructor].
Qed.

Lemma effect_refl s free a :
  aspace kend s free (sp_pd a) (sp_tabs a) (sp_ents a) -> sp_ok s a -> effect s free [a] s free [a].
Proof. intros H Hok. split; [apply H | by apply Forall_singleton | done | apply same_but_refl]. Qed.

Lemma effect_trans s f a s1 f1 a1 s2 f2 a2 :
  effect s f [a] s1 f1 [a1] -> effect s1 f1 [a1] s2 f2 [a2] -> effect s f [a] s2 f2 [a2].
Proof.
  intros [_ _ Hp1 Hs1] [Hi2 Ho2 Hp2 Hs2]. split; [done | done | by rewrite Hp2|]. eapply same_but_trans; [exact Hs1|].
  eapply same_but_mono; [|exact Hs2]. intros x Hx. by rewrite <- Hp1.
Qed.

(** The size of the old space does not matter. *)
Lemma effect_size s f a sz s' f' new :
  effect s f [mk_space (sp_pd a) sz (sp_tabs a) (sp_ents a)] s' f' new -> effect s f [a] s' f' new.
Proof. by intros [H1 H2 H3 H4]. Qed.

Lemma effect_aspace s f a s' f' a' :
  aspace kend s f (sp_pd a) (sp_tabs a) (sp_ents a) -> effect s f [a] s' f' [a'] ->
  aspace kend s' f' (sp_pd a') (sp_tabs a') (sp_ents a').
Proof.
  intros Ha [Hi Ho Hp _]. apply Forall_cons in Ho as [Ho _]. split; [done | apply Ho | | apply Ho].
  cbn [fmap list_fmap concat] in Hp. rewrite !app_nil_r in Hp. unfold sp_owns in Hp. rewrite Hp. apply Ha.
Qed.

Lemma grow_effect s free a newsz :
  aspace kend s free (sp_pd a) (sp_tabs a) (sp_ents a) -> sp_ok s a -> 0 <= newsz ->
  exists r s' free' a', allocuvm kend (sp_pd a) (sp_sz a) newsz s = Ret r s' /\ effect s free [a] s' free' [a'] /\
    visible a' = (sp_pd a, if r =? 0 then sp_sz a else r) /\ (whole a -> whole a') /\
    aspace kend s' free' (sp_pd a') (sp_tabs a') (sp_ents a') /\
    (r <> 0 -> sp_sz a <= newsz -> r = newsz /\ forall n, pages (sp_sz a) <= n < pages newsz -> is_Some (sp_ents a' !! n)).
Proof.
  intros H Hok H0. pose proof Hok as [_ _ Hsz Hu Hk]. destruct (Z.le_gt_cases KERNBASE newsz) as [Hbig|Hlt].
  { exists 0, s, free, a. unfold allocuvm. rewrite (proj2 (Z.leb_le _ _) Hbig). split; [done|]. split; [by apply effect_refl|]. done. }
  destruct (Z.lt_ge_cases newsz (sp_sz a)) as [Hlow|Hle].
  { exists (sp_sz a), s, free, a. unfold allocuvm. rewrite (proj2 (Z.leb_gt _ _) Hlt), (proj2 (Z.ltb_lt _ _) Hlow).
    split; [done|]. split; [by apply effect_refl|]. split; [by destruct (_ =? 0)|]. split; [done|]. split; [done | lia]. }
  pose proof (pages_range newsz ltac:(lia)) as Hpn. pose proof (pages_range (sp_sz a) ltac:(lia)) as Hpo. pose proof (pages_mono _ _ Hle) as Hmono.
  destruct (allocuvm_law kend kend_range s free _ _ _ (sp_sz a) newsz H) as (r & s' & T' & f' & E' & E1 & H' & HT & Hp & Hs & Hr); [lia | lia | |].
  { intros m Hm. destruct (sp_ents a !! m) eqn:Em; [|done]. assert (m < pages (sp_sz a)); [|lia]. apply Hu; [lia | by eexists]. }
  assert (same_but (free ++ sp_owns a) s s') as Hs'.
  { eapply same_but_mono; [|exact Hs]. unfold sp_owns, owns. clear. set_solver. }
  destruct Hr as [(-> & [Hz1 Hz2] & _)|(-> & -> & _)].
  - assert (forall n, pages (sp_sz a) <= n < pages newsz -> is_Some (E' !! n)) as Hin by (intros n Hn; destruct (Hz2 n Hn) as (v & _ & -> & _); by eexists).
    exists newsz, s', f', (mk_space (sp_pd a) newsz T' E'). split; [done|]. split; [apply effect_one; try done; cbn [sp_ents sp_sz]|].
    + intros n Hn He. destruct (decide (pages (sp_sz a) <= n < pages newsz)) as [|Hout]; [lia|]. rewrite Hz1 in He by done.
      pose proof (Hu n Hn He). lia.
    + intros n Hn. rewrite Hz1 by lia. by apply Hk.
    + split; [unfold visible; cbn; f_equal; destruct (Z.eqb_spec newsz 0); lia|]. split; [|done]. intros Hw n Hn. cbn [sp_ents sp_sz] in *.
      destruct (decide (pages (sp_sz a) <= n < pages newsz)) as [|Hout]; [by apply Hin|]. rewrite Hz1 by done. apply Hw. lia.
  - exists 0, s', f', (mk_space (sp_pd a) (sp_sz a) T' (sp_ents a)). split; [done|]. split; [apply effect_one; done | done].
Qed.

Lemma shrink_effect s free a newsz :
  aspace kend s free (sp_pd a) (sp_tabs a) (sp_ents a) -> sp_ok s a -> 0 <= newsz <= sp_sz a ->
  exists s' free' a', deallocuvm kend (sp_pd a) (sp_sz a) newsz s = Ret newsz s' /\ effect s free [a] s' free' [a'] /\
    visible a' = (sp_pd a, newsz) /\ (whole a -> whole a').
Proof.
  intros H Hok Hle. pose proof Hok as [_ _ Hsz Hu Hk].
  pose proof (pages_range newsz ltac:(lia)) as Hpn. pose proof (pages_range (sp_sz a) ltac:(lia)) as Hpo.
  destruct (deallocuvm_law kend kend_range s free _ _ _ (sp_sz a) newsz H) as (s' & f' & E1 & H' & Hp & Hs); [lia | lia|].
  set (E' := cut (pages newsz) (pages (sp_sz a)) (sp_ents a)) in *. pose proof (pages_mono newsz (sp_sz a) ltac:(lia)) as Hmono.
  exists s', f', (mk_space (sp_pd a) newsz (sp_tabs a) E'). split; [done|]. split; [apply effect_one; try done; cbn [sp_ents sp_sz]|].
  - lia.
  - intros n Hn. unfold E'. rewrite cut_lookup. case_decide; [by intros [? ?]|]. intros He. pose proof (Hu n Hn He). lia.
  - intros n Hn. unfold E'. rewrite cut_lookup, decide_False by lia. by apply Hk.
  - rewrite Hp. unfold sp_owns. cbn [sp_pd sp_tabs sp_ents]. rewrite (owns_cut _ _ (sp_ents a) (pages newsz) (pages (sp_sz a))) by lia.
    unfold E'. solve_Permutation.
  - eapply same_but_mono; [|exact Hs]. unfold sp_owns. rewrite (owns_cut _ _ (sp_ents a) (pages newsz) (pages (sp_sz a))) by lia.
    unfold owns. clear. set_solver.
  - split; [done|]. intros Hw n Hn. cbn [sp_ents sp_sz] in *. unfold E'. rewrite cut_lookup, decide_False by lia. apply Hw. lia.
Qed.

(** The pages are gone, and the size is as before. *)
Lemma empty_effect s free a :
  aspace kend s free (sp_pd a) (sp_tabs a) (sp_ents a) -> sp_ok s a ->
  exists s' free' a', deallocuvm kend (sp_pd a) (sp_sz a) 0 s = Ret 0 s' /\ effect s free [a] s' free' [a'] /\
    visible a' = visible a /\ (forall n, 0 <= n < USER -> sp_ents a' !! n = None).
Proof.
  intros H Hok. pose proof Hok as [_ _ Hsz Hu Hk]. destruct (shrink_effect s free a 0 H Hok ltac:(lia)) as (s' & f' & a' & E1 & [Hi Ho Hp Hs] & Hv & _).
  injection Hv as Hpd Hz. apply Forall_singleton in Ho as [Ht Hg _ Hu' Hk'].
  assert (forall n, 0 <= n < USER -> sp_ents a' !! n = None) as Hno.
  { intros n Hn. destruct (sp_ents a' !! n) eqn:E; [|done]. pose proof (Hu' n Hn ltac:(by eexists)) as Hlt. rewrite Hz in Hlt. change (pages 0) with 0 in Hlt. lia. }
  exists s', f', (mk_space (sp_pd a) (sp_sz a) (sp_tabs a') (sp_ents a')). split; [done|]. split; [|done].
  assert (sp_owns (mk_space (sp_pd a) (sp_sz a) (sp_tabs a') (sp_ents a')) = sp_owns a') as Hown by (unfold sp_owns; cbn; by rewrite Hpd).
  split; [done | | |done].
  - apply Forall_singleton. split; cbn [sp_pd sp_sz sp_tabs sp_ents]; try done; [by rewrite <- Hpd|]. intros n Hn [e He]. by rewrite Hno in He.
  - rewrite <- Hp. cbn [fmap list_fmap concat]. by rewrite Hown.
Qed.

Lemma kents_not_user n e : kents !! n = Some e -> has e PTE_U = false.
Proof.
  intros He. destruct (kmap_fits kend data kend_range data_range data_aligned) as [_ Hk]. rewrite Hk in He. unfold kent in He.
  assert (forall pa f, 0 <= pa < 2 ^ 32 -> pa mod PGSIZE = 0 -> f = 0 \/ f = PTE_W -> has (pte pa f) PTE_U = false) as Hp.
  { intros pa f Hr Hm Hf. rewrite has_flags by done. unfold pte. rewrite PTE_FLAGS_entry by (done || (destruct Hf as [->| ->]; done)). by destruct Hf as [->| ->]. }
  assert ((PGSIZE * n) mod PGSIZE = 0) as Hm by (rewrite Z.mul_comm; by apply Z.mod_mul).
  repeat case_decide; simplify_eq; apply Hp; auto; try (unfold KERNBASE, PGSIZE in *; lia).
  all: rewrite <- Zminus_mod_idemp_l, Hm; reflexivity.
Qed.

Lemma kernel_not_user s a n e : sp_ok s a -> USER <= n -> sp_ents a !! n = Some e -> has e PTE_U = false.
Proof. intros Hok Hn He. rewrite (ok_kern _ _ Hok) in He by done. by eapply kents_not_user. Qed.

Lemma store_effect s free a va buf :
  aspace kend s free (sp_pd a) (sp_tabs a) (sp_ents a) -> sp_ok s a -> 0 <= va < 2 ^ 32 ->
  (exists msg, copyout (sp_pd a) va buf s = Panic msg /\ ~ (va + Z.of_nat (length buf) <= sp_sz a /\ whole a)) \/
  exists r s', copyout (sp_pd a) va buf s = Ret r s' /\ effect s free [a] s' free [a].
Proof.
  intros H Hok Hva. pose proof Hok as [_ _ Hsz Hu Hk].
  destruct (copyout_loop_panics kend kend_range (S (length buf)) s free _ _ _ va buf H) as [[msg E1]|(r & s' & E1 & H' & Hs)];
    [intros m e Hm He; by eapply kernel_not_user | done | lia | left | right].
  - exists msg. split; [done|]. intros [Hend Hw].
    destruct (copyout_loop_any kend kend_range (S (length buf)) s free _ _ _ va buf H) as (r & s' & E2 & _); [lia | lia | lia | |congruence].
    intros x Hx. apply Hw. split; [apply Z.div_pos; unfold PGSIZE; lia|]. apply pages_lt. unfold PGSIZE. Z.div_mod_to_equations. lia.
  - exists r, s'. split; [done|]. apply effect_one; try done.
    eapply same_but_mono; [|exact Hs]. unfold sp_owns, owns. clear. set_solver.
Qed.

Lemma guard_effect s free a va :
  aspace kend s free (sp_pd a) (sp_tabs a) (sp_ents a) -> sp_ok s a -> 0 <= va < KERNBASE -> is_Some (sp_ents a !! (va / PGSIZE)) ->
  exists s' a', clearpteu (sp_pd a) va s = Ret tt s' /\ effect s free [a] s' free [a'] /\ visible a' = visible a /\ (whole a -> whole a').
Proof.
  intros H Hok Hvk [e He]. pose proof Hok as [_ _ Hsz Hu Hk].
  destruct (clearpteu_law kend kend_range s free _ _ _ va e H Hvk He) as (s' & E1 & H' & Hs & Hf). pose proof (user_page va Hvk) as Hn.
  assert (forall n, is_Some (<[va / PGSIZE := clear_u e]> (sp_ents a) !! n) <-> is_Some (sp_ents a !! n)) as Hsame.
  { intros n. destruct (decide (n = va / PGSIZE)) as [->|Hne]; [by rewrite lookup_insert_eq, He | by rewrite lookup_insert_ne]. }
  exists s', (mk_space (sp_pd a) (sp_sz a) (sp_tabs a) (<[va / PGSIZE := clear_u e]> (sp_ents a))). split; [done|].
  split; [apply effect_one; try done; cbn [sp_ents sp_sz]|split; [done|]].
  - intros n Hnr Hs'%Hsame. by apply Hu.
  - intros n Hnr. rewrite lookup_insert_ne by lia. by apply Hk.
  - unfold sp_owns, owns. cbn [sp_pd sp_tabs sp_ents]. by rewrite Hf.
  - eapply same_but_mono; [|exact Hs]. unfold sp_owns, owns. clear. set_solver.
  - intros Hw n Hn'. by apply Hsame, Hw.
Qed.

Lemma free_effect s free a :
  aspace kend s free (sp_pd a) (sp_tabs a) (sp_ents a) ->
  exists s' free', freevm kend (sp_pd a) s = Ret tt s' /\ effect s free [a] s' free' [].
Proof.
  intros H. destruct (freevm_law kend kend_range s free _ _ _ H) as (s' & f' & E1 & Hi & Hp & Hs).
  exists s', f'. split; [done|]. split; cbn [fmap list_fmap concat]; rewrite ?app_nil_r; try done.
  eapply same_but_mono; [|exact Hs]. unfold sp_owns. clear. set_solver.
Qed.

(** ** Running the operations *)

Implicit Types (w : vworld).

Lemma on_mem_ret {A} (m : M kmem_t A) w x s' : m (vmem w) = Ret x s' -> on_mem m w = Ret x (mk_vworld s' (spaces w)).
Proof. unfold on_mem, zoom. by intros ->. Qed.

Lemma sint_range z : - 2 ^ 31 <= i32 z < 2 ^ 31.
Proof. pose proof (u32_range z). unfold i32. destruct (Z.ltb_spec (u32 z) (2 ^ 31)); lia. Qed.

(** What an operation does to the spaces [L] of a world: it panics, which it
    does not do for a request in range when no page is missing, or it
    replaces the spaces [old] by [new]. *)
Definition outcome_of o w free L : Prop :=
  (exists msg, vrun o w = Panic msg /\ ~ (tame o w = true /\ Forall whole L)) \/
  exists w' free' L1 old new L2, vrun o w = Ret tt w' /\ L = L1 ++ old ++ L2 /\ spaces w' = visible <$> (L1 ++ new ++ L2) /\
    effect (vmem w) free old (vmem w') free' new /\
    (forall j a, L !! j = Some a -> subject o <> Some j -> a ∈ L1 ++ L2) /\
    (tame o w = true -> Forall whole old -> Forall whole new).

Lemma outcome_skip o w free L :
  wf (vmem w) free L -> spaces w = visible <$> L -> vrun o w = Ret tt w -> outcome_of o w free L.
Proof.
  intros H Hsp E1. right. exists w, free, L, [], [], []. cbn [app]. rewrite !app_nil_r. split_and!; try done.
  - by apply effect_none; [apply H | | apply same_but_refl].
  - intros j a Ha _. by eapply list_elem_of_lookup_2.
Qed.

Lemma outcome_add o w free L r sz s' free' new :
  wf (vmem w) free L -> spaces w = visible <$> L -> subject o = None ->
  vrun o w = when (negb (r =? 0)) (modify (fun w => set_spaces (spaces w ++ [(r, sz)]) w)) (mk_vworld s' (spaces w)) ->
  effect (vmem w) free [] s' free' new -> (if r =? 0 then new = [] else visible <$> new = [(r, sz)]) -> Forall whole new ->
  outcome_of o w free L.
Proof.
  intros H Hsp Ho E1 He Hn Hw. assert (forall j a, L !! j = Some a -> subject o <> Some j -> a ∈ L ++ []) as Hin.
  { intros j a Ha _. rewrite app_nil_r. by eapply list_elem_of_lookup_2. }
  right. exists (mk_vworld s' (visible <$> (L ++ new))), free', L, [], new, []. rewrite E1, !app_nil_r. split_and!; try done; [|by rewrite app_nil_r in Hin].
  destruct (r =? 0).
  - subst new. rewrite app_nil_r, <- Hsp. done.
  - cbn [negb when]. unfold modify, set_spaces. cbn [vmem spaces]. by rewrite fmap_app, Hn, Hsp.
Qed.

Lemma other_elem L1 (a : space) L2 j b : (L1 ++ a :: L2) !! j = Some b -> Some (length L1) <> Some j -> b ∈ L1 ++ L2.
Proof.
  intros Hb Hj. apply elem_of_app. destruct (decide (j < length L1)%nat) as [Hlt|Hge].
  - left. rewrite lookup_app_l in Hb by done. by eapply list_elem_of_lookup_2.
  - right. rewrite lookup_app_r in Hb by lia. destruct (j - length L1)%nat as [|k] eqn:Ek; [|by eapply list_elem_of_lookup_2].
    destruct Hj. f_equal. lia.
Qed.

Lemma outcome_set o w free L1 a L2 x s' free' a' i :
  spaces w = visible <$> (L1 ++ a :: L2) -> i = length L1 -> subject o = Some i ->
  vrun o w = Ret tt (mk_vworld s' (<[i := x]> (spaces w))) ->
  effect (vmem w) free [a] s' free' [a'] -> visible a' = x -> (tame o w = true -> whole a -> whole a') ->
  outcome_of o w free (L1 ++ a :: L2).
Proof.
  intros Hsp -> Ho E1 He Hx Hw. right. eexists _, free', L1, [a], [a'], L2. split; [exact E1|]. split_and!; try done.
  - cbn. rewrite Hsp, !fmap_app, fmap_cons, <- Hx. by rewrite insert_app_r_alt, length_fmap, Nat.sub_diag by (rewrite length_fmap; lia).
  - intros j b Hb Hj. rewrite Ho in Hj. by eapply other_elem.
  - rewrite !Forall_singleton. exact Hw.
Qed.

Lemma outcome_same o w free L1 a L2 s' free' a' i :
  spaces w = visible <$> (L1 ++ a :: L2) -> i = length L1 -> subject o = Some i ->
  vrun o w = Ret tt (mk_vworld s' (spaces w)) ->
  effect (vmem w) free [a] s' free' [a'] -> visible a' = visible a -> (tame o w = true -> whole a -> whole a') ->
  outcome_of o w free (L1 ++ a :: L2).
Proof.
  intros Hsp Hi Ho E1 He Hx Hw. apply (outcome_set o w free L1 a L2 (visible a) s' free' a' i); try done. rewrite E1. do 2 f_equal.
  rewrite Hsp, Hi, fmap_app, fmap_cons. by rewrite insert_app_r_alt, length_fmap, Nat.sub_diag by (rewrite length_fmap; lia).
Qed.

Lemma outcome_del o w free L1 a L2 s' free' i :
  spaces w = visible <$> (L1 ++ a :: L2) -> i = length L1 -> subject o = Some i ->
  vrun o w = Ret tt (mk_vworld s' (delete i (spaces w))) ->
  effect (vmem w) free [a] s' free' [] -> outcome_of o w free (L1 ++ a :: L2).
Proof.
  intros Hsp -> Ho E1 He. right. eexists _, free', L1, [a], [], L2. split; [exact E1|]. split_and!; try done.
  - cbn. rewrite Hsp, !fmap_app, fmap_cons. pose proof (delete_middle (visible <$> L1) (visible <$> L2) (visible a)) as Hd.
    by rewrite length_fmap in Hd.
  - intros j b Hb Hj. rewrite Ho in Hj. by eapply other_elem.
Qed.

(** An operation on the space [a] in the middle. *)
Section one.
Context (w : vworld) (free : list Z) (L1 : list space) (a : space) (L2 : list space).
Hypothesis H : wf (vmem w) free (L1 ++ a :: L2).
Hypothesis Hsp : spaces w = visible <$> (L1 ++ a :: L2).
Let i := length L1.

Let Ha : aspace kend (vmem w) free (sp_pd a) (sp_tabs a) (sp_ents a).
Proof. exact (wf_focus _ _ _ _ _ H). Qed.

Let Hok : sp_ok (vmem w) a.
Proof. pose proof (wf_spaces _ _ _ H) as [_ Hs]%Forall_app. by apply Forall_cons in Hs as [? _]. Qed.

Let Hsi : spaces w !! i = Some (visible a).
Proof. rewrite Hsp, fmap_app, fmap_cons, lookup_app_r, length_fmap, Nat.sub_diag by (rewrite length_fmap; done). done. Qed.

Lemma on_space_run f : on_space i f w = f (sp_pd a) (sp_sz a) w.
Proof. unfold on_space, bind, get. by rewrite Hsi. Qed.

Lemma whole_here : Forall whole (L1 ++ a :: L2) -> whole a.
Proof. intros [_ [Hw _]%Forall_cons]%Forall_app. done. Qed.

Ltac mem_run E1 := rewrite (bind_ret _ _ _ _ _ (on_mem_ret _ w _ _ E1)).

(** A new size, or none. *)
Lemma resize_out o s' free' a' r :
  subject o = Some i -> vrun o w = resize i (sp_pd a) r (mk_vworld s' (spaces w)) ->
  effect (vmem w) free [a] s' free' [a'] -> visible a' = (sp_pd a, if r =? 0 then sp_sz a else r) ->
  (tame o w = true -> whole a -> whole a') -> outcome_of o w free (L1 ++ a :: L2).
Proof.
  intros Ho E1 He Hv Hw. unfold resize in E1. destruct (r =? 0).
  - by apply (outcome_same _ w free L1 a L2 s' free' a' i).
  - by apply (outcome_set _ w free L1 a L2 (sp_pd a, r) s' free' a' i).
Qed.

Lemma fork_out : outcome_of (Fork i) w free (L1 ++ a :: L2).
Proof.
  destruct (fork_effect (vmem w) free a Ha Hok) as [(msg & E1 & Hn)|(r & s' & f' & new & E1 & He & Hn & Hw)].
  - left. exists msg. split; [|intros [_ Hw%whole_here]; done]. cbn [vrun]. rewrite on_space_run. unfold bind, on_mem, zoom. by rewrite E1.
  - apply (outcome_add _ w free _ r (sp_sz a) s' f' new); try done. cbn [vrun]. rewrite on_space_run. by mem_run E1.
Qed.

Lemma grow_out n : outcome_of (Grow i n) w free (L1 ++ a :: L2).
Proof.
  destruct (grow_effect (vmem w) free a (u32 n) Ha Hok) as (r & s' & f' & a' & E1 & He & Hv & Hw & _); [apply u32_range|].
  apply (resize_out _ s' f' a' r); try done. cbn [vrun]. rewrite on_space_run. by mem_run E1.
Qed.

(** [growproc] with a negative argument. *)
Lemma release_effect n : n < 0 -> -2 ^ 31 <= n ->
  exists r s' f' a', deallocuvm kend (sp_pd a) (sp_sz a) (u32 (sp_sz a + n)) (vmem w) = Ret r s' /\ effect (vmem w) free [a] s' f' [a'] /\
    visible a' = (sp_pd a, if r =? 0 then sp_sz a else r) /\ ((sp_sz a =? 0) || negb (sp_sz a + n =? 0) = true -> whole a -> whole a').
Proof.
  intros Hn Hn2. pose proof (ok_size _ _ Hok) as Hsz. destruct (Z.lt_ge_cases (sp_sz a + n) 0) as [Hneg|Hpos].
  - assert (u32 (sp_sz a + n) = sp_sz a + n + 2 ^ 32) as -> by (unfold u32; symmetry; apply (Z.mod_unique_pos _ _ (-1)); unfold KERNBASE in *; lia).
    exists (sp_sz a), (vmem w), free, a. unfold deallocuvm. rewrite (proj2 (Z.leb_le _ _)) by lia.
    split; [done|]. split; [by apply effect_refl|]. split; [by destruct (_ =? 0) | done].
  - rewrite u32_small by (unfold KERNBASE in *; lia). destruct (Z.eq_dec (sp_sz a + n) 0) as [Hz|Hnz].
    + rewrite Hz. destruct (empty_effect (vmem w) free a Ha Hok) as (s' & f' & a' & E1 & He & Hv & _). exists 0, s', f', a'.
      split_and!; try done. rewrite (proj2 (Z.eqb_neq (sp_sz a) 0)) by lia. done.
    + destruct (shrink_effect (vmem w) free a (sp_sz a + n) Ha Hok ltac:(lia)) as (s' & f' & a' & E1 & He & Hv & Hw).
      exists (sp_sz a + n), s', f', a'. rewrite (proj2 (Z.eqb_neq _ _) Hnz). done.
Qed.

Lemma sbrk_out n : outcome_of (Sbrk i n) w free (L1 ++ a :: L2).
Proof.
  pose proof (sint_range n) as Hr. assert (vrun (Sbrk i n) w = sbrk_space i (sp_pd a) (sp_sz a) (i32 n) w) as E0 by apply on_space_run.
  unfold sbrk_space in E0. destruct (Z.ltb_spec 0 (i32 n)) as [Hp|Hp]; [|destruct (Z.ltb_spec (i32 n) 0) as [Hn|Hn]].
  - destruct (grow_effect (vmem w) free a (u32 (sp_sz a + i32 n)) Ha Hok) as (r & s' & f' & a' & E1 & He & Hv & Hw & _); [apply u32_range|].
    apply (resize_out _ s' f' a' r); try done. rewrite E0. by mem_run E1.
  - destruct (release_effect (i32 n) Hn) as (r & s' & f' & a' & E1 & He & Hv & Hw); [lia|].
    apply (resize_out _ s' f' a' r); try done; [rewrite E0; by mem_run E1|]. cbn [tame]. by rewrite Hsi.
  - by apply outcome_skip.
Qed.

Lemma stack_out : outcome_of (Stack i) w free (L1 ++ a :: L2).
Proof.
  pose proof (ok_size _ _ Hok) as Hsz. pose proof (pages_range (sp_sz a) ltac:(lia)) as Hpr.
  assert (vrun (Stack i) w = stack_space i (sp_pd a) (sp_sz a) w) as E0 by apply on_space_run. unfold stack_space in E0.
  rewrite PGROUNDUP_pages in E0 by (unfold KERNBASE, PGSIZE in *; lia). set (top := PGSIZE * pages (sp_sz a)) in *.
  rewrite u32_small in E0 by (unfold top, KERNBASE, PGSIZE, USER in *; lia).
  destruct (Z.le_gt_cases KERNBASE (top + 2 * PGSIZE)) as [Hbig|Hlt].
  { apply outcome_skip; [done | done|]. rewrite E0. unfold bind at 1, on_mem, zoom, allocuvm. rewrite (proj2 (Z.leb_le _ _) Hbig). by destruct w. }
  set (a0 := mk_space (sp_pd a) top (sp_tabs a) (sp_ents a)).
  assert (pages top = pages (sp_sz a)) as Htop by (unfold top, pages, PGSIZE; Z.div_mod_to_equations; lia).
  assert (sp_ok (vmem w) a0) as Hok0.
  { destruct Hok as [O1 O2 O3 O4 O5]. split; cbn [a0 sp_pd sp_tabs sp_ents sp_sz]; try done; [unfold top, PGSIZE in *; lia | by rewrite Htop]. }
  destruct (grow_effect (vmem w) free a0 (top + 2 * PGSIZE) Ha Hok0) as (r & s' & f' & a' & E1 & He & Hv & Hw & Ha' & Hnew); [unfold PGSIZE in *; lia|].
  rewrite (bind_ret _ _ _ _ _ (on_mem_ret _ w _ _ E1)) in E0. destruct (Z.eqb_spec r 0) as [->|Hr]; cbn [negb when] in E0.
  - apply (resize_out _ s' f' (mk_space (sp_pd a) (sp_sz a) (sp_tabs a') (sp_ents a')) 0); try done.
    + injection Hv as Hpd Hz. apply effect_size in He as [Hi' Ho' Hp' Hs']. apply Forall_singleton in Ho' as [O1 O2 O3 O4 O5]. rewrite Hpd, Hz in *.
      split; [done | | | done]; [|rewrite <- Hp'; cbn [fmap list_fmap concat]; unfold sp_owns; cbn; by rewrite Hpd].
      apply Forall_singleton. split; cbn [sp_pd sp_tabs sp_ents sp_sz]; try done. intros n Hn Hs. rewrite <- Htop. by apply O4.
    + intros _ Hwa n Hn. cbn [sp_ents sp_sz] in *. injection Hv as _ Hz. apply Hw; [|by rewrite Hz, Htop]. intros m Hm. apply Hwa. by rewrite <- Htop.
  - destruct (Hnew Hr) as [-> Hin]; [cbn; unfold PGSIZE; lia|]. injection Hv as Hpd Hz. cbn [a0 sp_pd sp_sz] in *.
    assert (sp_ok s' a') as Ho' by (apply Forall_singleton; apply He).
    assert (top / PGSIZE = pages (sp_sz a)) as Hd by (unfold top; rewrite Z.mul_comm; by apply Z.div_mul).
    destruct (guard_effect s' f' a' top Ha' Ho') as (s2 & a2 & E2 & He2 & Hv2 & Hw2); [unfold top, KERNBASE, PGSIZE in *; lia | |].
    { rewrite Hd. apply Hin. rewrite Htop. unfold pages, PGSIZE in *. Z.div_mod_to_equations. lia. }
    rewrite Hpd in E2. replace (top + 2 * PGSIZE - 2 * PGSIZE) with top in E0 by lia. rewrite u32_small in E0 by (unfold top, KERNBASE, PGSIZE, USER in *; lia).
    rewrite (bind_ret _ _ _ _ _ (on_mem_ret _ (mk_vworld s' (spaces w)) _ _ E2)) in E0.
    apply (resize_out _ s2 f' a2 (top + 2 * PGSIZE)); try done.
    + apply effect_size in He. by eapply effect_trans.
    + rewrite Hv2. unfold visible. rewrite Hpd, Hz. by rewrite (proj2 (Z.eqb_neq _ _) Hr).
    + intros _ Hwa. apply Hw2, Hw. intros n Hn. apply Hwa. cbn [a0 sp_sz] in Hn. by rewrite <- Htop.
Qed.

Lemma store_out va buf : outcome_of (Store i va buf) w free (L1 ++ a :: L2).
Proof.
  assert (vrun (Store i va buf) w = (on_mem (copyout (sp_pd a) (u32 va) buf) ;; ret tt) w) as E0 by apply on_space_run.
  destruct (store_effect (vmem w) free a (u32 va) buf Ha Hok (u32_range va)) as [(msg & E1 & Hn)|(r & s' & E1 & He)].
  - left. exists msg. split; [rewrite E0; unfold bind, on_mem, zoom; by rewrite E1|]. cbn [tame]. rewrite Hsi. intros [Ht Hw]. apply Hn.
    cbn [visible] in Ht. apply andb_true_iff in Ht as [Ht1%Z.leb_le Ht2%Z.leb_le]. pose proof (ok_size _ _ Hok) as Hsz.
    split; [|by apply whole_here]. rewrite u32_small by (unfold KERNBASE in *; lia). done.
  - apply (outcome_same _ w free L1 a L2 s' free a i); try done. rewrite E0. by mem_run E1.
Qed.

Lemma free_out : outcome_of (Free i) w free (L1 ++ a :: L2).
Proof.
  destruct (free_effect (vmem w) free a Ha) as (s' & f' & E1 & He).
  apply (outcome_del _ w free L1 a L2 s' f' i); try done. cbn [vrun]. rewrite on_space_run. by mem_run E1.
Qed.
End one.

Lemma vrun_law o w free L : wf (vmem w) free L -> spaces w = visible <$> L -> outcome_of o w free L.
Proof.
  intros H Hsp.
  assert (forall i, spaces w !! i = None \/ exists L1 a L2, L = L1 ++ a :: L2 /\ i = length L1) as Hget.
  { intros i. rewrite Hsp, list_lookup_fmap. destruct (L !! i) as [a|] eqn:Ha; [right | by left].
    exists (take i L), a, (drop (S i) L). split; [by rewrite take_drop_middle|].
    rewrite length_take. apply lookup_lt_Some in Ha. lia. }
  destruct o as [|i|i n|i n|i|i va buf|i].
  { destruct (new_effect (vmem w) free (wf_inv _ _ _ H)) as (r & s' & f' & new & E1 & He & Hn & _ & Hw).
    apply (outcome_add New w free L r 0 s' f' new); try done. cbn [vrun].
    by rewrite (bind_ret _ _ _ _ _ (on_mem_ret _ w r s' E1)). }
  all: destruct (Hget i) as [Hno|(L1 & a & L2 & -> & ->)];
    [by apply outcome_skip; [| | unfold vrun, on_space, bind, get; rewrite Hno]|].
  - by apply fork_out.
  - by apply sbrk_out.
  - by apply grow_out.
  - by apply stack_out.
  - by apply store_out.
  - by apply free_out.
Qed.

(** ** What the hardware sees *)

Lemma translate_eq s pd T E va :
  ptab kend s pd T E -> 0 <= va < 2 ^ 32 -> translate s pd va = (fun e => (PTE_ADDR e, PTE_FLAGS e)) <$> E !! (va / PGSIZE).
Proof.
  intros H Hva. unfold translate. rewrite PDX_eq, PTX_eq by done. set (n := va / PGSIZE).
  assert (0 <= n < 2 ^ 20) as Hn by (unfold n, PGSIZE; Z.div_mod_to_equations; lia).
  rewrite (pt_dir _ _ _ _ _ H) by by apply dir_range. destruct (T !! (n / 1024)) as [t|] eqn:Ht.
  - destruct (pt_tab _ _ _ _ _ _ _ H Ht) as [Hg _]. destruct (table_entry kend kend_range t Hg) as (_ & _ & E3 & E4). rewrite E3, E4.
    replace (t - KERNBASE + KERNBASE) with t by lia. rewrite (pt_ent _ _ _ _ _ H n t Ht). destruct (E !! n) as [e|] eqn:He; [|done].
    cbn [default fmap option_fmap option_map]. unfold id. destruct (pt_dom _ _ _ _ _ H n e He) as (_ & -> & _). done.
  - cbn. destruct (E !! n) eqn:He; [|done]. apply (pt_dom _ _ _ _ _ H) in He as [[? Hx] _]. by rewrite Ht in Hx.
Qed.

Lemma access_eq s pd T E va :
  ptab kend s pd T E -> 0 <= va < 2 ^ 32 ->
  access s pd va = e ← E !! (va / PGSIZE); b ← page (pmem s) (frame e) !! pgoff va; Some (PTE_FLAGS e, b).
Proof. intros H Hva. unfold access. rewrite (translate_eq s pd T E) by done. by destruct (E !! (va / PGSIZE)). Qed.

(** Where the kernel part of every address space leads. *)
Definition kernel_map (va : Z) : option (Z * Z) :=
  if va <? KERNBASE + PHYSTOP then
    Some (PGROUNDDOWN va - KERNBASE, if (KERNLINK <=? va) && (va <? data) then PTE_P else Z.lor PTE_W PTE_P)
  else if DEVSPACE <=? va then Some (PGROUNDDOWN va, Z.lor PTE_W PTE_P)
  else None.

(** A space of size [sz] maps user pages only below [sz], and exactly the
    kernel above them. *)
Definition maps_only s (p : Z * Z) : Prop :=
  (forall va, 0 <= va < KERNBASE -> is_Some (translate s p.1 va) -> va < PGSIZE * pages p.2) /\
  (forall va, KERNBASE <= va < 2 ^ 32 -> translate s p.1 va = kernel_map va).

(** It maps all the user pages below [sz]. *)
Definition maps_exactly s (p : Z * Z) : Prop :=
  (forall va, 0 <= va < KERNBASE -> is_Some (translate s p.1 va) <-> va < PGSIZE * pages p.2) /\
  (forall va, KERNBASE <= va < 2 ^ 32 -> translate s p.1 va = kernel_map va).

Lemma kents_map va :
  KERNBASE <= va < 2 ^ 32 -> (fun e => (PTE_ADDR e, PTE_FLAGS e)) <$> kents !! (va / PGSIZE) = kernel_map va.
Proof.
  intros Hva. destruct (kmap_fits kend data kend_range data_range data_aligned) as [_ ->].
  unfold kernel_map. rewrite PGROUNDDOWN_eq by (unfold KERNBASE in *; lia). unfold kent.
  assert (data = PGSIZE * (data / PGSIZE)) as Hd by (pose proof (Z.div_mod data PGSIZE); unfold PGSIZE in *; lia).
  destruct (split_va va) as [Ev Hk]. set (n := va / PGSIZE) in *. set (nd := data / PGSIZE) in *.
  assert (forall pa f, 0 <= pa < 2 ^ 32 -> pa mod PGSIZE = 0 -> 0 <= f < PGSIZE ->
    (PTE_ADDR (pte pa f), PTE_FLAGS (pte pa f)) = (pa, Z.lor f PTE_P)) as Hpte.
  { intros pa f Hp Hm Hf. unfold pte. by rewrite PTE_ADDR_entry, PTE_FLAGS_entry by (done || by apply flags_range). }
  assert ((PGSIZE * n) mod PGSIZE = 0) as Hm by (rewrite Z.mul_comm; by apply Z.mod_mul).
  assert ((PGSIZE * n - KERNBASE) mod PGSIZE = 0) as Hm2 by (rewrite <- Zminus_mod_idemp_l, Hm; reflexivity).
  destruct (Z.ltb_spec va (KERNBASE + PHYSTOP)).
  - rewrite decide_True by (unfold KERNBASE, PHYSTOP, PGSIZE in *; lia). cbn [fmap option_fmap option_map].
    rewrite Hpte by (first [done | unfold KERNBASE, PGSIZE in *; lia | by case_decide]). do 2 f_equal. rewrite Hd. clearbody n nd.
    destruct (Z.leb_spec KERNLINK va), (Z.ltb_spec va (PGSIZE * nd)); cbn [andb]; case_decide; try done;
      unfold KERNLINK, KERNBASE, EXTMEM, PGSIZE in *; lia.
  - rewrite decide_False by (unfold KERNBASE, PHYSTOP, PGSIZE in *; lia). destruct (Z.leb_spec DEVSPACE va).
    + rewrite decide_True by (unfold DEVSPACE, PGSIZE in *; lia). cbn [fmap option_fmap option_map]. by rewrite Hpte by (done || (unfold KERNBASE, PGSIZE in *; lia)).
    + rewrite decide_False by (unfold DEVSPACE, PGSIZE in *; lia). done.
Qed.

Lemma sp_maps s a : sp_ok s a -> maps_only s (visible a).
Proof.
  intros [H1 _ Hsz Hu Hk]. split; cbn [visible fst snd]; intros va Hva.
  - rewrite (translate_eq _ _ _ _ va H1) by (unfold KERNBASE in *; lia). rewrite fmap_is_Some. intros Hs%Hu; [|by apply user_page].
    destruct (split_va va). unfold PGSIZE in *. lia.
  - rewrite (translate_eq _ _ _ _ va H1) by (unfold KERNBASE in *; lia).
    rewrite Hk by (unfold USER, KERNBASE, PGSIZE in *; Z.div_mod_to_equations; lia). by apply kents_map.
Qed.

Lemma sp_maps_whole s a : sp_ok s a -> whole a -> maps_exactly s (visible a).
Proof.
  intros Hok Hw. pose proof (sp_maps s a Hok) as [H1 H2]. split; [|done]. intros va Hva. split; [by apply H1|]. cbn [visible fst snd]. intros Hlt.
  rewrite (translate_eq _ _ _ _ va (ok_tab _ _ Hok)) by (unfold KERNBASE in *; lia). rewrite fmap_is_Some. apply Hw.
  destruct (split_va va). pose proof (user_page va Hva). unfold PGSIZE in *. lia.
Qed.

Lemma wf_maps s free L : wf s free L -> Forall (maps_only s) (visible <$> L).
Proof. intros [_ H _]. apply Forall_fmap. eapply Forall_impl; [exact H|]. intros a Ha. by apply sp_maps. Qed.

Lemma wf_maps_whole s free L : wf s free L -> Forall whole L -> Forall (maps_exactly s) (visible <$> L).
Proof.
  intros [_ H _] Hw. apply Forall_fmap. rewrite Forall_forall in *. intros a Ha. apply sp_maps_whole; [by apply H | by apply Hw].
Qed.

(** ** Any sequence of operations *)

(** The end of a run from the spaces [L]. *)
Definition run_ok os w free L (o : outcome vworld unit) : Prop :=
  match o with
  | Ret _ w' => exists free' L', wf (vmem w') free' L' /\ spaces w' = visible <$> L' /\
      free' ++ concat (sp_owns <$> L') ≡ₚ free ++ concat (sp_owns <$> L) /\
      (tames os w = true -> Forall whole L -> Forall whole L')
  | Panic _ => ~ (tames os w = true /\ Forall whole L)
  | Sleep _ _ | Hang => False
  end.

Lemma vrun_wf o w free L :
  wf (vmem w) free L -> spaces w = visible <$> L ->
  (exists msg, vrun o w = Panic msg /\ ~ (tame o w = true /\ Forall whole L)) \/
  exists w' free' L', vrun o w = Ret tt w' /\ wf (vmem w') free' L' /\ spaces w' = visible <$> L' /\
    free' ++ concat (sp_owns <$> L') ≡ₚ free ++ concat (sp_owns <$> L) /\
    (tame o w = true -> Forall whole L -> Forall whole L').
Proof.
  intros H Hsp. destruct (vrun_law o w free L H Hsp) as [Hp|(w' & f' & L1 & old & new & L2 & E1 & -> & Hsp' & He & _ & Hw)]; [by left | right].
  destruct (wf_replace (vmem w) free (vmem w') f' L1 old new L2 H) as [H' Hp]; try apply He.
  exists w', f', (L1 ++ new ++ L2). split_and!; try done. intros Ht. rewrite !Forall_app. intros (H1 & H2 & H3). auto.
Qed.

Lemma vruns_wf os w free L : wf (vmem w) free L -> spaces w = visible <$> L -> run_ok os w free L (vruns os w).
Proof.
  revert w free L. induction os as [|o os IH]; intros w free L H Hsp; cbn [vruns].
  - by exists free, L.
  - destruct (vrun_wf o w free L H Hsp) as [(msg & E1 & Hn)|(w1 & f1 & L1 & E1 & H1 & Hsp1 & Hp1 & Hw1)].
    { unfold bind. rewrite E1. cbn [run_ok tames]. intros [[Ht _]%andb_true_iff Hw]. auto. }
    rewrite (bind_ret _ _ _ _ _ E1). specialize (IH w1 f1 L1 H1 Hsp1). unfold run_ok in *. cbn [tames]. rewrite E1.
    destruct (vruns os w1) as [[] w2| | |]; [|intros [[Ht1 Ht2]%andb_true_iff Hw]; auto | done..].
    destruct IH as (f2 & L2 & H2 & Hsp2 & Hp2 & Hw2). exists f2, L2. split_and!; [done | done | by rewrite Hp2|].
    intros [Ht1 Ht2]%andb_true_iff Hw. auto.
Qed.

Lemma wf_empty s all : inv kend s all -> wf s all [].
Proof. intros H. split; [done | constructor|]. rewrite app_nil_r. apply H. Qed.

Lemma reachable_wf os s all w :
  inv kend s all -> vruns os (mk_vworld s []) = Ret tt w ->
  exists free L, wf (vmem w) free L /\ spaces w = visible <$> L /\ (tames os (mk_vworld s []) = true -> Forall whole L).
Proof.
  intros Hi E1. pose proof (vruns_wf os (mk_vworld s []) all [] (wf_empty s all Hi) eq_refl) as H. rewrite E1 in H.
  destruct H as (f & L & H & Hsp & _ & Hw). exists f, L. auto.
Qed.

(** Two virtual pages, of one process or of two, never share a frame, and no
    frame is free. *)
Definition no_sharing s free (sps : list (Z * Z)) : Prop :=
  forall i j pd pd' sz sz' va va' pa f f', sps !! i = Some (pd, sz) -> sps !! j = Some (pd', sz') ->
    0 <= va < KERNBASE -> 0 <= va' < KERNBASE -> translate s pd va = Some (pa, f) -> translate s pd' va' = Some (pa, f') ->
    i = j /\ va / PGSIZE = va' / PGSIZE /\ (pa + KERNBASE) ∉ free.

Lemma wf_no_sharing s free L : wf s free L -> no_sharing s free (visible <$> L).
Proof.
  intros H i j pd pd' sz sz' va va' pa f f' Hi Hj Hva Hva' Ht Ht'.
  rewrite list_lookup_fmap in Hi, Hj. destruct (L !! i) as [a|] eqn:Ha; [|done]. destruct (L !! j) as [b|] eqn:Hb; [|done].
  injection Hi as <- <-. injection Hj as <- <-.
  assert (forall k c v pa f, L !! k = Some c -> 0 <= v < KERNBASE -> translate s (sp_pd c) v = Some (pa, f) ->
    exists e, sp_ents c !! (v / PGSIZE) = Some e /\ pa + KERNBASE = frame e /\ frame e ∈ sp_owns c) as Hfr.
  { intros k c v q g Hc Hv Htr. pose proof (wf_spaces _ _ _ H) as Hs. eapply Forall_lookup_1 in Hs; [|exact Hc].
    rewrite (translate_eq _ _ _ _ v (ok_tab _ _ Hs)) in Htr by (unfold KERNBASE in *; lia).
    destruct (sp_ents c !! (v / PGSIZE)) as [e|] eqn:He; [|done]. injection Htr as <- <-. exists e. split; [done|]. split; [done|].
    unfold sp_owns. rewrite owns_split. apply elem_of_app. right. apply elem_of_uframes. exists (v / PGSIZE), e. split; [by apply user_page | done]. }
  destruct (Hfr i a va pa f Ha Hva Ht) as (e & He & Epa & Hin). destruct (Hfr j b va' pa f' Hb Hva' Ht') as (e' & He' & Epa' & Hin').
  pose proof (wf_nodup _ _ _ H) as (_ & Hd & Hn)%NoDup_app. rewrite <- Epa in Hin. rewrite <- Epa' in Hin'.
  assert (i = j) as -> by by eapply concat_inj. split; [done|]. rewrite Ha in Hb. injection Hb as ->. split.
  - apply (frame_inj kend s free (sp_pd b) (sp_tabs b) (sp_ents b) _ _ e e'); try done; [|by apply user_page..|congruence].
    apply (wf_focus s free (take j L) b (drop (S j) L)). by rewrite take_drop_middle.
  - intros Hf. apply (Hd _ Hf). apply (owned_concat b); [by eapply list_elem_of_lookup_2 | done].
Qed.

(** C3: whatever sequence of address-space operations the processes ask for,
    with whatever arguments: when it returns, every page is either free or
    owned by exactly one address space, each address space maps user pages
    only below its size and exactly the kernel part of [kmap], and no two
    virtual pages share a frame.  It always returns, and each address space
    has all the pages below its size, when no process gives back its whole
    memory by [sbrk] and the kernel writes only below the size of a process;
    otherwise the one alternative is a panic. *)
Theorem vm_safe os s all :
  inv kend s all ->
  match vruns os (mk_vworld s []) with
  | Ret _ w => exists free owned, inv kend (vmem w) free /\ free ++ owned ≡ₚ all /\
      Forall (maps_only (vmem w)) (spaces w) /\ no_sharing (vmem w) free (spaces w) /\ (spaces w = [] -> owned = []) /\
      (tames os (mk_vworld s []) = true -> Forall (maps_exactly (vmem w)) (spaces w))
  | Panic _ => tames os (mk_vworld s []) = false
  | Sleep _ _ | Hang => False
  end.
Proof.
  intros Hi. pose proof (vruns_wf os (mk_vworld s []) all [] (wf_empty s all Hi) eq_refl) as Hr. unfold run_ok in Hr.
  destruct (vruns os (mk_vworld s [])) as [[] w|msg|c w|]; [|destruct (tames os _); [by destruct Hr | done] | done..].
  destruct Hr as (f & L & H & Hsp & Hp & Hw). exists f, (concat (sp_owns <$> L)). rewrite Hsp.
  split_and!; [apply H | by rewrite Hp, app_nil_r | by eapply wf_maps | by apply wf_no_sharing | by intros ->%fmap_nil_inv|].
  intros Ht. eapply wf_maps_whole; [exact H | by apply Hw].
Qed.

(** C15: isolation: an operation on one process, a fork or a new process
    changes no byte and no permission another process has. *)
Theorem vm_isolation os s all w o w' j pd sz va :
  inv kend s all -> vruns os (mk_vworld s []) = Ret tt w -> vrun o w = Ret tt w' ->
  spaces w !! j = Some (pd, sz) -> subject o <> Some j -> 0 <= va < KERNBASE ->
  (pd, sz) ∈ spaces w' /\ access (vmem w') pd va = access (vmem w) pd va.
Proof.
  intros Hi E1 E2 Hj Hne Hva. destruct (reachable_wf os s all w Hi E1) as (f & L & H & Hsp & _).
  destruct (vrun_law o w f L H Hsp) as [(msg & E3 & _)|(w2 & f' & L1 & old & new & L2 & E3 & HL & Hsp' & He & Hoth & _)]; rewrite E2 in E3; [done|].
  injection E3 as <-. rewrite Hsp, list_lookup_fmap in Hj. destruct (L !! j) as [a|] eqn:Ha; [|done].
  injection Hj as <- <-. assert (a ∈ L1 ++ L2) as Hin by by eapply Hoth. split.
  - rewrite Hsp'. change (visible a ∈ visible <$> (L1 ++ new ++ L2)). apply list_elem_of_fmap. exists a. split; [done|].
    apply elem_of_app in Hin. rewrite !elem_of_app. tauto.
  - rewrite HL in H. destruct (wf_replace (vmem w) f (vmem w') f' L1 old new L2 H) as [H' _]; try apply He.
    pose proof (wf_spaces _ _ _ H) as Hs. pose proof (wf_spaces _ _ _ H') as Hs'.
    assert (sp_ok (vmem w) a /\ sp_ok (vmem w') a) as [[Hok _ _ _ _] [Hok' _ _ _ _]].
    { rewrite Forall_forall in Hs, Hs'. split; [apply Hs | apply Hs']; apply elem_of_app in Hin; rewrite !elem_of_app; tauto. }
    rewrite (access_eq _ _ _ _ va Hok), (access_eq _ _ _ _ va Hok') by (unfold KERNBASE in *; lia).
    destruct (sp_ents a !! (va / PGSIZE)) as [e|] eqn:He'; [|done]. cbn [mbind option_bind].
    rewrite (ef_same _ _ _ _ _ _ He); [done|].
    assert (frame e ∈ sp_owns a) as Hfo.
    { unfold sp_owns. rewrite owns_split. apply elem_of_app. right. apply elem_of_uframes. exists (va / PGSIZE), e. split; [by apply user_page | done]. }
    pose proof (wf_nodup _ _ _ H) as Hn. rewrite !fmap_app, !concat_app in Hn.
    assert (NoDup ((f ++ concat (sp_owns <$> old)) ++ concat (sp_owns <$> (L1 ++ L2)))) as (_ & Hd & _)%NoDup_app.
    { eapply NoDup_Permutation_proper; [|exact Hn]. rewrite fmap_app, concat_app. solve_Permutation. }
    intros Hx. apply (Hd _ Hx). by apply (owned_concat a).
Qed.

(** A process of a reachable world. *)
Lemma reachable_space os s all w i pd sz :
  inv kend s all -> vruns os (mk_vworld s []) = Ret tt w -> spaces w !! i = Some (pd, sz) ->
  exists free a, visible a = (pd, sz) /\ aspace kend (vmem w) free pd (sp_tabs a) (sp_ents a) /\ sp_ok (vmem w) a /\
    (tames os (mk_vworld s []) = true -> whole a).
Proof.
  intros Hi E1 Hj. destruct (reachable_wf os s all w Hi E1) as (f & L & H & Hsp & Hw).
  rewrite Hsp, list_lookup_fmap in Hj. destruct (L !! i) as [a|] eqn:Ha; [|done]. injection Hj as <- <-.
  exists f, a. split; [done|]. split_and!.
  - apply (wf_focus (vmem w) f (take i L) a (drop (S i) L)). by rewrite take_drop_middle.
  - eapply Forall_lookup_1; [apply H | done].
  - intros Ht. eapply Forall_lookup_1; [by apply Hw | done].
Qed.

(** The pages of a space are as before when none of them is written. *)
Lemma access_same s s' free pd T E W va :
  aspace kend s free pd T E -> (forall x, x ∈ owns pd T E -> x ∉ W) -> same_but W s s' -> 0 <= va < KERNBASE ->
  access s' pd va = access s pd va.
Proof.
  intros H HW Hs Hva. assert (ptab kend s' pd T E) as H'.
  { apply (ptab_same kend s); [|apply H]. intros x Hx. apply Hs, HW. rewrite owns_split. apply elem_of_app. by left. }
  rewrite (access_eq s pd T E), (access_eq s' pd T E) by (try apply H; try done; unfold KERNBASE in *; lia).
  destruct (E !! (va / PGSIZE)) as [e|] eqn:He; [|done]. cbn [mbind option_bind]. rewrite Hs; [done|].
  apply HW. rewrite owns_split. apply elem_of_app. right. apply elem_of_uframes. exists (va / PGSIZE), e. split; [by apply user_page | done].
Qed.

Lemma owns_not_free s free pd T E x : aspace kend s free pd T E -> x ∈ owns pd T E -> x ∉ free.
Proof. intros [_ _ Hn _] Hx Hf. apply NoDup_app in Hn as (_ & Hd & _). by apply (Hd x). Qed.

(** C17: [copyuvm], the copy of an address space for [fork].  The parent sees
    the same memory as before, and either there was not enough memory and
    every page taken is free again, or the child finds at every user address
    the byte and the permissions its parent has there.  It panics only for a
    process that lacks a page below its size, which needs an earlier [sbrk]
    that gave back the whole memory or a write beyond the size. *)
Theorem fork_copies_memory os s all w i pd sz :
  inv kend s all -> vruns os (mk_vworld s []) = Ret tt w -> spaces w !! i = Some (pd, sz) ->
  match copyuvm kend data pd sz (vmem w) with
  | Ret r s' =>
      (forall va, 0 <= va < KERNBASE -> access s' pd va = access (vmem w) pd va) /\
      (r = 0 /\ (exists free free', inv kend (vmem w) free /\ inv kend s' free' /\ free' ≡ₚ free) \/
       r <> 0 /\ forall va, 0 <= va < KERNBASE -> access s' r va = access (vmem w) pd va)
  | Panic _ => tames os (mk_vworld s []) = false /\ exists va, 0 <= va < PGSIZE * pages sz /\ translate (vmem w) pd va = None
  | Sleep _ _ | Hang => False
  end.
Proof.
  intros Hi E1 Hj. destruct (reachable_space os s all w i pd sz Hi E1 Hj) as (f & a & [= Hpd Hsz'] & H & [Htab _ Hsz Hu _] & Hw).
  rewrite Hsz' in *. pose proof (pages_range sz ltac:(lia)) as Hpr.
  destruct (copyuvm_any kend data kend_range data_range data_aligned (vmem w) f pd _ _ sz H) as [(msg & m & -> & Hm & He)|(r & s' & -> & Hs & Hr)]; [lia|..].
  { split; [destruct (tames os _); [|done]; destruct (Hw eq_refl m) as [e Hse]; [by rewrite Hsz' | congruence]|].
    exists (PGSIZE * m). split; [unfold PGSIZE; lia|]. rewrite (translate_eq _ _ _ _ _ (as_tab _ _ _ _ _ _ H)) by (unfold PGSIZE, USER in *; lia).
    by rewrite Z.mul_comm, Z.div_mul, He. }
  split.
  { intros va Hva. eapply access_same; [exact H | | exact Hs | done]. intros x. by eapply owns_not_free. }
  destruct Hr as [(T & E & f' & Hg & H' & Hp & Hc & _)|(-> & f' & Hi' & Hp)]; [right | left].
  - split; [intros ->; by destruct (good_page_nonzero kend kend_range 0 Hg)|]. intros va Hva. specialize (Hc (va / PGSIZE) (user_page va Hva)).
    rewrite (access_eq s' r T E), (access_eq (vmem w) pd (sp_tabs a) (sp_ents a)) by (try apply H; try apply H'; try done; unfold KERNBASE in *; lia).
    case_decide as Hd.
    + destruct Hc as (e & e' & -> & -> & Hf & Hpg). cbn [mbind option_bind]. by rewrite Hpg, Hf.
    + rewrite Hc. destruct (sp_ents a !! (va / PGSIZE)) eqn:He; [|done]. destruct Hd. apply Hu; [by apply user_page | by eexists].
  - split; [done|]. exists f, f'. split; [apply H | done].
Qed.

(** A process that gives back its whole memory by [sbrk] keeps its old size,
    has no user page left, and can never again be forked. *)
Theorem sbrk_all_breaks_fork os s all w i pd sz :
  inv kend s all -> vruns os (mk_vworld s []) = Ret tt w -> spaces w !! i = Some (pd, sz) -> 0 < sz < 2 ^ 31 ->
  exists w', vrun (Sbrk i (- sz)) w = Ret tt w' /\ spaces w' !! i = Some (pd, sz) /\
    (forall va, 0 <= va < KERNBASE -> translate (vmem w') pd va = None) /\
    forall r s', copyuvm kend data pd sz (vmem w') = Ret r s' -> r = 0.
Proof.
  intros Hi E1 Hj Hpos. destruct (reachable_space os s all w i pd sz Hi E1 Hj) as (f & a & [= <- <-] & H & Hok & _).
  destruct (empty_effect (vmem w) f a H Hok) as (s' & f' & a' & E2 & He & Hv & Hno). injection Hv as Hpd' Hsz'.
  exists (mk_vworld s' (spaces w)). cbn [spaces vmem]. split; [|split; [done|]].
  { cbn [vrun]. unfold on_space, bind at 1, get. rewrite Hj. unfold sbrk_space. rewrite i32_small by lia.
    rewrite (proj2 (Z.ltb_ge _ _)), (proj2 (Z.ltb_lt _ _)) by lia. replace (u32 (sp_sz a + - sp_sz a)) with 0 by (rewrite Z.add_opp_diag_r; done).
    by rewrite (bind_ret _ _ _ _ _ (on_mem_ret _ w _ _ E2)). }
  pose proof (ef_ok _ _ _ _ _ _ He) as Hok'. apply Forall_cons in Hok' as [Hok' _]. split.
  - intros va Hva. rewrite <- Hpd', (translate_eq _ _ _ _ va (ok_tab _ _ Hok')) by (unfold KERNBASE in *; lia). rewrite Hno; [done | by apply user_page].
  - pose proof (ok_size _ _ Hok) as Hsz. rewrite <- Hpd'. eapply (copyuvm_missing kend data kend_range data_range data_aligned s' f' _ _ _ _ 0).
    + by eapply effect_aspace.
    + lia.
    + unfold pages, PGSIZE. Z.div_mod_to_equations. lia.
    + by apply Hno.
Qed.

(** C31: a process grows to [newsz] by zero bytes it may read and write, and
    keeps what it had; when memory runs out (or [newsz] reaches the kernel)
    [allocuvm] returns 0 and the memory of the process is as before. *)
Theorem grow_adds_zeros os s all w i pd sz newsz :
  inv kend s all -> vruns os (mk_vworld s []) = Ret tt w -> spaces w !! i = Some (pd, sz) -> 0 < newsz -> sz <= newsz ->
  exists r s', allocuvm kend pd sz newsz (vmem w) = Ret r s' /\
    (r = newsz /\ newsz < KERNBASE /\ (forall va, 0 <= va < KERNBASE -> access s' pd va =
        if decide (PGSIZE * pages sz <= va < PGSIZE * pages newsz) then Some (Z.lor (Z.lor PTE_W PTE_U) PTE_P, 0)
        else access (vmem w) pd va) \/
     r = 0 /\ forall va, 0 <= va < KERNBASE -> access s' pd va = access (vmem w) pd va).
Proof.
  intros Hi E1 Hj Hpos Hle. destruct (reachable_space os s all w i pd sz Hi E1 Hj) as (f & a & [= Hpd Hsz'] & H & [_ _ Hsz Hu _] & _).
  rewrite Hsz' in *. destruct (Z.le_gt_cases KERNBASE newsz) as [Hbig|Hlt].
  { exists 0, (vmem w). unfold allocuvm. rewrite (proj2 (Z.leb_le _ _) Hbig). split; [done | by right]. }
  pose proof (pages_range newsz ltac:(lia)) as Hpn. pose proof (pages_range sz ltac:(lia)) as Hpo.
  destruct (allocuvm_law kend kend_range (vmem w) f pd _ _ sz newsz H) as (r & s' & T' & f' & E' & E2 & H' & HT & Hp & Hs & Hr); [lia | lia | |].
  { intros m Hm. destruct (sp_ents a !! m) eqn:Em; [|done]. assert (m < pages sz); [|lia]. apply Hu; [lia | by eexists]. }
  assert (forall va e, 0 <= va < KERNBASE -> sp_ents a !! (va / PGSIZE) = Some e -> page (pmem s') (frame e) = page (pmem (vmem w)) (frame e)) as Hkeep.
  { intros va e Hva He. apply Hs. destruct (frame_apart kend kend_range _ _ _ _ _ _ _ H (user_page va Hva) He) as (_ & H1 & H2). by apply not_elem_of_app. }
  exists r, s'. split; [done|].
  assert (forall va, 0 <= va < KERNBASE -> E' !! (va / PGSIZE) = sp_ents a !! (va / PGSIZE) -> access s' pd va = access (vmem w) pd va) as Hold.
  { intros va Hva Ee. rewrite (access_eq s' pd T' E'), (access_eq (vmem w) pd (sp_tabs a) (sp_ents a)) by (try apply H; try apply H'; try done; unfold KERNBASE in *; lia).
    rewrite Ee. destruct (sp_ents a !! (va / PGSIZE)) as [e|] eqn:He; [|done]. cbn [mbind option_bind]. by rewrite (Hkeep va e Hva He). }
  destruct Hr as [(-> & [Hz1 Hz2] & _)|(-> & -> & _)]; [left | right].
  - split; [done|]. split; [done|]. intros va Hva. destruct (split_va va) as [Ev Hk]. case_decide as Hd.
    + destruct (Hz2 (va / PGSIZE)) as (v & Hv & He & Hpg); [unfold PGSIZE in *; lia|].
      rewrite (access_eq s' pd T' E') by (try apply H'; unfold KERNBASE in *; lia). rewrite He. cbn [mbind option_bind].
      pose proof (as_inv _ _ _ _ _ _ H) as (_ & _ & _ & Hgf & _). rewrite Forall_forall in Hgf. pose proof (Hgf v Hv) as Hg.
      rewrite (good_frame kend kend_range) by done. rewrite Hpg. unfold zero_page.
      rewrite lookup_replicate_2 by (unfold pgoff, PGSIZE in *; lia). cbn [mbind option_bind].
      destruct (table_entry kend kend_range v Hg) as (_ & Ha & _). unfold pte. by rewrite PTE_FLAGS_entry.
    + apply Hold; [done|]. apply Hz1. unfold PGSIZE in *. lia.
  - split; [done|]. intros va Hva. by apply Hold.
Qed.

(** A new process in a machine with enough free pages. *)
Lemma new_process s free :
  inv kend s free -> (66 <= length free)%nat ->
  exists r w, vruns [New] (mk_vworld s []) = Ret tt w /\ spaces w = [(r, 0)].
Proof.
  intros Hi Hl. destruct (new_effect s free Hi) as (r & s' & f' & new & E1 & _ & _ & Hr & _). specialize (Hr Hl).
  exists r, (mk_vworld s' [(r, 0)]). split; [|done]. cbn [vruns vrun].
  rewrite (bind_ret _ _ _ tt (mk_vworld s' [(r, 0)])); [done|]. rewrite (bind_ret _ _ _ _ _ (on_mem_ret _ (mk_vworld s []) r s' E1)).
  by rewrite (proj2 (Z.eqb_neq _ _) Hr).
Qed.

(** A new process that asks for two pages, in a machine with enough free
    pages. *)
Lemma small_process s free :
  inv kend s free -> (70 <= length free)%nat ->
  exists r w, vruns [New; Sbrk 0 8192] (mk_vworld s []) = Ret tt w /\ spaces w = [(r, 8192)].
Proof.
  intros Hi Hl. destruct (setupkvm_law kend data kend_range data_range data_aligned s free Hi)
    as (r & s1 & E1 & _ & [(T & f & Hg & H & [Hu Hd] & Hp)|(_ & Hl' & _)]); [|lia].
  assert (r <> 0) as Hr by (intros ->; by destruct (good_page_nonzero kend kend_range 0 Hg)).
  assert (4 <= length f)%nat as Hf.
  { apply Permutation_length in Hp. unfold owns in Hp. rewrite Hu, app_nil_r, length_app in Hp. cbn [length] in Hp.
    pose proof (kdirs_size T Hd). assert (length (vals T) = size T) by (unfold vals; by rewrite length_fmap, length_map_to_list). lia. }
  destruct (allocuvm_law kend kend_range s1 f r T kents 0 8192 H) as (r2 & s2 & T' & f' & E' & E2 & _ & _ & _ & _ & Hr2); [lia | reflexivity | |].
  { intros m Hm. apply kents_user. change (pages 8192) with 2 in Hm. change (pages 0) with 0 in Hm. unfold USER. lia. }
  change (pages 8192) with 2 in Hr2. change (pages 0) with 0 in Hr2. destruct Hr2 as [(-> & _)|(_ & _ & Hlt)]; [|cbn in Hlt; lia].
  exists r, (mk_vworld s2 [(r, 8192)]). split; [|done]. cbn [vruns vrun]. rewrite (bind_ret _ _ _ tt (mk_vworld s1 [(r, 0)])).
  - rewrite (bind_ret _ _ _ tt (mk_vworld s2 [(r, 8192)])); [done|]. unfold on_space, bind at 1, get. cbn [spaces lookup list_lookup].
    change (i32 8192) with 8192. unfold sbrk_space. cbn [Z.ltb Z.compare]. change (u32 (0 + 8192)) with 8192.
    by rewrite (bind_ret _ _ _ _ _ (on_mem_ret _ (mk_vworld s1 [(r, 0)]) _ _ E2)).
  - rewrite (bind_ret _ _ _ _ _ (on_mem_ret _ (mk_vworld s []) r s1 E1)). by rewrite (proj2 (Z.eqb_neq _ _) Hr).
Qed.

Lemma tames_app os os' w :
  tames (os ++ os') w = tames os w && match vruns os w with Ret _ w' => tames os' w' | _ => true end.
Proof.
  revert w. induction os as [|o os IH]; intros w; [done|]. cbn [app tames vruns]. unfold bind. destruct (tame o w); [|done].
  destruct (vrun o w) as [[] w1|msg|c w1|] eqn:E; cbn [andb]; done.
Qed.

(** [setupkvm] always returns: a directory with exactly the kernel
    mappings, which needs at most 66 free pages, or 0 with every page it took
    free again. *)
Theorem setupkvm_correct s free :
  inv kend s free ->
  exists r s', setupkvm kend data s = Ret r s' /\ ((66 <= length free)%nat -> r <> 0) /\
    (r <> 0 -> maps_exactly s' (r, 0)) /\ (r = 0 -> exists free', inv kend s' free' /\ free' ≡ₚ free).
Proof.
  intros Hi. destruct (new_effect s free Hi) as (r & s' & f' & new & E1 & [Hi' Hok Hp _] & Hv & Hr & Hw).
  exists r, s'. split; [done|]. split; [done|]. split.
  - intros Hne. rewrite (proj2 (Z.eqb_neq _ _) Hne) in Hv. destruct new as [|a [|]]; try done. injection Hv as <- <-.
    apply Forall_cons in Hok as [? _]. apply Forall_cons in Hw as [? _]. by apply (sp_maps_whole s' a).
  - intros ->. cbn in Hv. subst new. exists f'. split; [done|]. by rewrite !app_nil_r in Hp.
Qed.
End safe.
