(* ===== verification/VmDemo.v ===== *)
(** * A machine with 256 free pages

    A kernel that ends 256 pages below the top of memory, to run the
    operations of vm.c in. *)

From S2P Require Import Prelude Kalloc Vm VmTab VmInv VmKern VmUser VmSafe.

Definition demo_end : Z := KERNBASE + PHYSTOP - 256 * PGSIZE.
Definition demo_data : Z := KERNLINK + 16 * PGSIZE.

Lemma demo_range : KERNBASE < demo_end <= KERNBASE + PHYSTOP.
Proof. unfold demo_end, KERNBASE, PHYSTOP, PGSIZE. lia. Qed.
Lemma demo_data_range : KERNLINK < demo_data < demo_end.
Proof. unfold demo_data, demo_end, KERNLINK, KERNBASE, EXTMEM, PHYSTOP, PGSIZE. lia. Qed.
Lemma demo_data_aligned : demo_data mod PGSIZE = 0.
Proof. reflexivity. Qed.

Lemma length_pages_from p n : length (pages_from p n) = n.
Proof. revert p. induction n; cbn; auto. Qed.

Lemma demo_mem :
  exists s l, freerange demo_end demo_end (KERNBASE + PHYSTOP) small_kmem = Ret tt s /\ inv demo_end s l /\ length l = 256%nat.
Proof.
  assert (PGROUNDUP demo_end = demo_end) as Er by reflexivity.
  destruct (freerange_spec demo_end demo_range demo_end (KERNBASE + PHYSTOP) small_kmem []) as (s & E & Hi & _).
  - split_and!; try done; constructor.
  - unfold demo_end, KERNBASE, PHYSTOP, PGSIZE. lia.
  - unfold demo_end, KERNBASE, PHYSTOP, PGSIZE. lia.
  - rewrite Er. lia.
  - rewrite Er. reflexivity.
  - intros v Hv. by apply elem_of_nil in Hv.
  - eexists s, _. split; [exact E|]. split; [exact Hi|]. rewrite app_nil_r, length_rev, length_pages_from, Er. reflexivity.
Qed.

(** A process of two pages, which the kernel writes to and which forks. *)
Lemma demo_two_pages :
  exists s l r w, freerange demo_end demo_end (KERNBASE + PHYSTOP) small_kmem = Ret tt s /\ inv demo_end s l /\ length l = 256%nat /\
    vruns demo_end demo_data [New; Sbrk 0 8192] (mk_vworld s []) = Ret tt w /\ spaces w = [(r, 8192)].
Proof.
  destruct demo_mem as (s & l & E & Hi & Hl).
  destruct (small_process demo_end demo_data demo_range demo_data_range demo_data_aligned s l Hi) as (r & w & E1 & Hw); [rewrite Hl; lia|].
  exists s, l, r, w. exact (conj E (conj Hi (conj Hl (conj E1 Hw)))).
Qed.

Lemma start_tame s : tames demo_end demo_data [New; Sbrk 0 8192] (mk_vworld s []) = true.
Proof.
  cbn [tames tame andb]. destruct (vrun demo_end demo_data New (mk_vworld s [])) as [[] w|msg|c w|] eqn:E; [|reflexivity..].
  rewrite andb_true_iff. split; [|destruct (vrun _ _ _ w); reflexivity]. cbn [vrun] in E. unfold bind, on_mem, zoom in E. cbn [vmem] in E.
  destruct (setupkvm demo_end demo_data s) as [r s1|msg|c s1|]; [|discriminate E..].
  destruct (r =? 0); injection E as <-; reflexivity.
Qed.

Definition demo_ops : list vop := [New; Sbrk 0 8192; Store 0 4094 [1; 2; 3]; Fork 0].

Lemma demo_tame s w r :
  vruns demo_end demo_data [New; Sbrk 0 8192] (mk_vworld s []) = Ret tt w -> spaces w = [(r, 8192)] ->
  tames demo_end demo_data demo_ops (mk_vworld s []) = true.
Proof.
  intros E Hw. change demo_ops with ([New; Sbrk 0 8192] ++ [Store 0 4094 [1; 2; 3]; Fork 0]).
  rewrite tames_app, start_tame, E. cbn [tames tame]. rewrite Hw. cbn [lookup list_lookup length].
  destruct (vrun _ _ (Store _ _ _) w) as [[] w1|msg|c w1|]; [|reflexivity..]. destruct (vrun _ _ (Fork 0) w1); reflexivity.
Qed.

Lemma vm_safe_witness :
  exists s (l : list Z) w free owned, freerange demo_end demo_end (KERNBASE + PHYSTOP) small_kmem = Ret tt s /\
    vruns demo_end demo_data demo_ops (mk_vworld s []) = Ret tt w /\ free ++ owned ≡ₚ l /\ length l = 256%nat /\
    Forall (maps_exactly demo_data (vmem w)) (spaces w).
Proof.
  destruct demo_two_pages as (s & l & r & w0 & E & Hi & Hl & E0 & Hw0).
  pose proof (vm_safe demo_end demo_data demo_range demo_data_range demo_data_aligned demo_ops s l Hi) as H.
  pose proof (demo_tame s w0 r E0 Hw0) as Ht.
  destruct (vruns demo_end demo_data demo_ops (mk_vworld s [])) as [u w|msg|c w|] eqn:E1.
  - destruct H as (f & o & _ & Hp & _ & _ & _ & Hm). destruct u. exists s, l, w, f, o. exact (conj E (conj E1 (conj Hp (conj Hl (Hm Ht))))).
  - rewrite Ht in H. discriminate H.
  - destruct H.
  - destruct H.
Defined.

Lemma setupkvm_correct_witness :
  exists s r s', freerange demo_end demo_end (KERNBASE + PHYSTOP) small_kmem = Ret tt s /\
    setupkvm demo_end demo_data s = Ret r s' /\ maps_exactly demo_data s' (r, 0).
Proof.
  destruct demo_mem as (s & l & E & Hi & Hl).
  destruct (setupkvm_correct demo_end demo_data demo_range demo_data_range demo_data_aligned s l Hi) as (r & s' & E1 & Hr & Hm & _).
  exists s, r, s'. split; [exact E|]. split; [exact E1|]. apply Hm, Hr. rewrite Hl. lia.
Defined.

Lemma vm_isolation_witness :
  exists s w r, vruns demo_end demo_data [New; Sbrk 0 8192] (mk_vworld s []) = Ret tt w /\ spaces w = [(r, 8192)] /\
    forall w', vrun demo_end demo_data (Fork 0) w = Ret tt w' ->
      (r, 8192) ∈ spaces w' /\ access (vmem w') r 5000 = access (vmem w) r 5000.
Proof.
  destruct demo_two_pages as (s & l & r & w & E & Hi & Hl & E1 & Hw).
  exists s, w, r. split; [exact E1|]. split; [exact Hw|]. intros w' E2.
  apply (vm_isolation demo_end demo_data demo_range demo_data_range demo_data_aligned [New; Sbrk 0 8192] s l w (Fork 0) w' 0 r 8192 5000 Hi E1 E2).
  - rewrite Hw. reflexivity.
  - discriminate.
  - split; [lia | reflexivity].
Defined.

Lemma fork_copies_memory_witness :
  exists s w r, vruns demo_end demo_data [New; Sbrk 0 8192] (mk_vworld s []) = Ret tt w /\ spaces w = [(r, 8192)] /\
    exists c s', copyuvm demo_end demo_data r 8192 (vmem w) = Ret c s' /\
      forall va, 0 <= va < KERNBASE -> access s' r va = access (vmem w) r va.
Proof.
  destruct demo_two_pages as (s & l & r & w & E & Hi & Hl & E1 & Hw).
  exists s, w, r. split; [exact E1|]. split; [exact Hw|].
  pose proof (fork_copies_memory demo_end demo_data demo_range demo_data_range demo_data_aligned [New; Sbrk 0 8192] s l w 0 r 8192 Hi E1) as H.
  rewrite Hw in H. specialize (H eq_refl). pose proof (start_tame s) as Ht.
  destruct (copyuvm demo_end demo_data r 8192 (vmem w)) as [c s'|msg|c s'|] eqn:E2.
  - exists c, s'. exact (conj eq_refl (proj1 H)).
  - destruct H as [H _]. rewrite Ht in H. discriminate H.
  - destruct H.
  - destruct H.
Defined.

Lemma grow_adds_zeros_witness :
  exists s w r, vruns demo_end demo_data [New; Sbrk 0 8192] (mk_vworld s []) = Ret tt w /\ spaces w = [(r, 8192)] /\
    exists c s', allocuvm demo_end r 8192 20000 (vmem w) = Ret c s' /\ (c = 20000 \/ c = 0).
Proof.
  destruct demo_two_pages as (s & l & r & w & E & Hi & Hl & E1 & Hw).
  exists s, w, r. split; [exact E1|]. split; [exact Hw|].
  destruct (grow_adds_zeros demo_end demo_data demo_range demo_data_range demo_data_aligned [New; Sbrk 0 8192] s l w 0 r 8192 20000 Hi E1) as (c & s' & E2 & Hr).
  - rewrite Hw. reflexivity.
  - lia.
  - lia.
  - exists c, s'. split; [exact E2|]. destruct Hr as [[-> _]|[-> _]]; [left | right]; reflexivity.
Defined.
