(* ===== verification/Seg.v ===== *)
(** * Segments, gates and the task state (mmu.h, [seginit] and [switchuvm]
    of vm.c, [tvinit] and [idtinit] of trap.c)

    Bit fields are [Z] reduced to their width, as the compiler stores them;
    the loads of the descriptor-table, task and page-directory registers are
    fields of the state of a CPU. *)

From S2P Require Import Prelude Spinlock Kalloc.
From S2P Require Proc.

Definition SEG_KCODE : Z := 1.
Definition SEG_KDATA : Z := 2.
Definition SEG_UCODE : Z := 3.
Definition SEG_UDATA : Z := 4.
Definition SEG_TSS : Z := 5.
Definition NSEGS : nat := 6.
Definition DPL_USER : Z := 3.
Definition STA_X : Z := 0x8.
Definition STA_W : Z := 0x2.
Definition STA_R : Z := 0x2.
Definition STS_T32A : Z := 0x9.
Definition STS_IG32 : Z := 0xE.
Definition STS_TG32 : Z := 0xF.

Record segdesc := mk_segdesc {
  lim_15_0 : Z; base_15_0 : Z; base_23_16 : Z; d_type : Z; d_s : Z; d_dpl : Z; d_p : Z;
  lim_19_16 : Z; d_avl : Z; d_rsv1 : Z; d_db : Z; d_g : Z; base_31_24 : Z;
}.

(** Storing to a bit field of [n] bits. *)
Definition bits (n x : Z) : Z := x mod 2 ^ n.

Definition SEG (ty base lim dpl : Z) : segdesc :=
  mk_segdesc (bits 16 (Z.land (Z.shiftr lim 12) 0xffff)) (bits 16 (Z.land (u32 base) 0xffff))
    (bits 8 (Z.land (Z.shiftr (u32 base) 16) 0xff)) (bits 4 ty) 1 (bits 2 dpl) 1
    (bits 4 (Z.shiftr (u32 lim) 28)) 0 0 1 1 (bits 8 (Z.shiftr (u32 base) 24)).

Definition SEG16 (ty base lim dpl : Z) : segdesc :=
  mk_segdesc (bits 16 (Z.land lim 0xffff)) (bits 16 (Z.land (u32 base) 0xffff))
    (bits 8 (Z.land (Z.shiftr (u32 base) 16) 0xff)) (bits 4 ty) 1 (bits 2 dpl) 1
    (bits 4 (Z.shiftr (u32 lim) 16)) 0 0 1 0 (bits 8 (Z.shiftr (u32 base) 24)).

Definition null_seg : segdesc := mk_segdesc 0 0 0 0 0 0 0 0 0 0 0 0 0.
#[global] Instance segdesc_inhabited : Inhabited segdesc := populate null_seg.

Record gatedesc := mk_gatedesc {
  off_15_0 : Z; g_cs : Z; g_args : Z; g_rsv1 : Z; g_type : Z; g_s : Z; g_dpl : Z; g_p : Z; off_31_16 : Z;
}.

Definition SETGATE (istrap : bool) (sel off d : Z) : gatedesc :=
  mk_gatedesc (bits 16 (Z.land (u32 off) 0xffff)) (bits 16 sel) 0 0 (bits 4 (if istrap then STS_TG32 else STS_IG32))
    0 (bits 2 d) 1 (bits 16 (Z.shiftr (u32 off) 16)).

(** ** The registers of a CPU *)

Record hw := mk_hw {
  cli : Cli.cpu;
  gdt : list segdesc;
  gdtr : Z * Z;
  idtr : Z * Z;
  ss0 : Z;
  esp0 : Z;
  iomb : Z;
  tr : Z;
  cr3 : Z;
}.

Definition set_cli c (h : hw) := mk_hw c (gdt h) (gdtr h) (idtr h) (ss0 h) (esp0 h) (iomb h) (tr h) (cr3 h).
Definition set_gdt i d (h : hw) :=
  mk_hw (cli h) (<[Z.to_nat i := d]> (gdt h)) (gdtr h) (idtr h) (ss0 h) (esp0 h) (iomb h) (tr h) (cr3 h).
(** The six bytes [pd] that [lgdt] and [lidt] load: a limit and an address. *)
Definition pd (a size : Z) : Z * Z := (u16 (u32 a) + u16 (Z.shiftr (u32 a) 16) * 2 ^ 16, u16 (size - 1)).
Definition lgdt a size (h : hw) :=
  mk_hw (cli h) (gdt h) (pd a size) (idtr h) (ss0 h) (esp0 h) (iomb h) (tr h) (cr3 h).
Definition lidt a size (h : hw) :=
  mk_hw (cli h) (gdt h) (gdtr h) (pd a size) (ss0 h) (esp0 h) (iomb h) (tr h) (cr3 h).
Definition set_ts ss esp io (h : hw) := mk_hw (cli h) (gdt h) (gdtr h) (idtr h) ss esp io (tr h) (cr3 h).
Definition ltr sel (h : hw) := mk_hw (cli h) (gdt h) (gdtr h) (idtr h) (ss0 h) (esp0 h) (iomb h) (u16 sel) (cr3 h).
Definition lcr3 a (h : hw) := mk_hw (cli h) (gdt h) (gdtr h) (idtr h) (ss0 h) (esp0 h) (iomb h) (tr h) a.

(** [sizeof(c->gdt)] and [sizeof(ts)] *)
Definition gdt_size : Z := 48.
Definition ts_size : Z := 104.

Definition seginit (gdt_addr : Z) : M hw unit :=
  modify (set_gdt SEG_KCODE (SEG (Z.lor STA_X STA_R) 0 0xffffffff 0)) ;;
  modify (set_gdt SEG_KDATA (SEG STA_W 0 0xffffffff 0)) ;;
  modify (set_gdt SEG_UCODE (SEG (Z.lor STA_X STA_R) 0 0xffffffff DPL_USER)) ;;
  modify (set_gdt SEG_UDATA (SEG STA_W 0 0xffffffff DPL_USER)) ;;
  modify (lgdt gdt_addr gdt_size).

Definition switchkvm (kpgdir : Z) : M hw unit :=
  let! pa := V2P kpgdir in modify (lcr3 pa).

(** [setupkvm] is a function of the memory [K]; the kernel's page directory is the result. *)
Definition kvmalloc {K} (setupkvm : M K Z) : M (K * hw) Z :=
  let! kpgdir := zoom fst (fun k s => (k, snd s)) setupkvm in
  zoom snd (fun h s => (fst s, h)) (switchkvm kpgdir) ;;
  ret kpgdir.

Definition clear_s (d : segdesc) : segdesc :=
  mk_segdesc (lim_15_0 d) (base_15_0 d) (base_23_16 d) (d_type d) 0 (d_dpl d) (d_p d) (lim_19_16 d)
    (d_avl d) (d_rsv1 d) (d_db d) (d_g d) (base_31_24 d).

(** The process is given by its kernel stack and its page directory; [None]
    is the null pointer. *)
Definition switchuvm (ts_addr : Z) (p : option (Z * Z)) : M hw unit :=
  match p with
  | None => panic "switchuvm: no process"
  | Some (kstack, pgdir) =>
      if kstack =? 0 then panic "switchuvm: no kstack"
      else if pgdir =? 0 then panic "switchuvm: no pgdir"
      else
        zoom cli set_cli Cli.pushcli ;;
        modify (set_gdt SEG_TSS (SEG16 STS_T32A ts_addr (ts_size - 1) 0)) ;;
        modify (fun h => set_gdt SEG_TSS (clear_s (gdt h !!! Z.to_nat SEG_TSS)) h) ;;
        modify (set_ts (Z.shiftl SEG_KDATA 3) (u32 (kstack + Proc.KSTACKSIZE)) (u16 0xFFFF)) ;;
        modify (ltr (Z.shiftl SEG_TSS 3)) ;;
        let! pa := V2P pgdir in
        modify (lcr3 pa) ;;
        zoom cli set_cli Cli.popcli
  end.

(** ** The interrupt descriptor table *)

Definition T_SYSCALL : Z := 64.

(** [vectors] of vectors.S: the entry points of the 256 interrupts. *)
Definition tvinit (vectors : list Z) : list gatedesc :=
  let idt := (fun v => SETGATE false (Z.shiftl SEG_KCODE 3) v 0) <$> vectors in
  <[Z.to_nat T_SYSCALL := SETGATE true (Z.shiftl SEG_KCODE 3) (vectors !!! Z.to_nat T_SYSCALL) DPL_USER]> idt.

Definition idtinit (idt_addr : Z) : M hw unit := modify (lidt idt_addr (256 * 8)).

(** ** What the processor reads in a descriptor *)

Definition seg_base (d : segdesc) : Z := base_15_0 d + base_23_16 d * 2 ^ 16 + base_31_24 d * 2 ^ 24.
Definition seg_limit (d : segdesc) : Z :=
  let l := lim_15_0 d + lim_19_16 d * 2 ^ 16 in
  if d_g d =? 1 then l * 4096 + 4095 else l.
Definition gate_offset (g : gatedesc) : Z := off_15_0 g + off_31_16 g * 2 ^ 16.

Lemma bits_small n x : 0 <= x < 2 ^ n -> bits n x = x.
Proof. apply Z.mod_small. Qed.

Lemma split_address a :
  0 <= a < 2 ^ 32 ->
  bits 16 (Z.land (u32 a) 0xffff) + bits 8 (Z.land (Z.shiftr (u32 a) 16) 0xff) * 2 ^ 16 +
    bits 8 (Z.shiftr (u32 a) 24) * 2 ^ 24 = a.
Proof.
  intros Ha. rewrite u32_small by done. change 0xffff with (Z.ones 16). change 0xff with (Z.ones 8).
  rewrite !Z.land_ones, !Z.shiftr_div_pow2 by lia. unfold bits. rewrite !Z.mod_mod by lia.
  rewrite (Z.mod_small (a / 2 ^ 24)) by (split; [apply Z.div_pos; lia | apply Z.div_lt_upper_bound; lia]).
  Z.div_mod_to_equations. lia.
Qed.

(** A descriptor built by [SEG] or [SEG16] decodes to its arguments. *)
Lemma SEG_decode ty base lim dpl :
  0 <= base < 2 ^ 32 -> 0 <= lim < 2 ^ 32 -> 0 <= ty < 16 -> 0 <= dpl < 4 ->
  let d := SEG ty base lim dpl in
  seg_base d = base /\ seg_limit d = lim / 4096 * 4096 + 4095 /\ d_type d = ty /\ d_dpl d = dpl.
Proof.
  intros Hb Hl Ht Hd. unfold SEG, seg_base, seg_limit. cbn [lim_15_0 base_15_0 base_23_16 d_type d_dpl lim_19_16 d_g base_31_24 Z.eqb Pos.eqb].
  split; [by apply split_address|]. split; [|split; by apply bits_small].
  rewrite (u32_small lim) by done. change 0xffff with (Z.ones 16). rewrite Z.land_ones, !Z.shiftr_div_pow2 by lia.
  unfold bits. rewrite Z.mod_mod by lia.
  rewrite (Z.mod_small (lim / 2 ^ 28)) by (split; [apply Z.div_pos; lia | apply Z.div_lt_upper_bound; lia]).
  change 4096 with (2 ^ 12). Z.div_mod_to_equations. lia.
Qed.

Lemma SEG16_decode ty base lim dpl :
  0 <= base < 2 ^ 32 -> 0 <= lim < 2 ^ 20 -> 0 <= ty < 16 -> 0 <= dpl < 4 ->
  let d := SEG16 ty base lim dpl in
  seg_base d = base /\ seg_limit d = lim /\ d_type d = ty /\ d_dpl d = dpl.
Proof.
  intros Hb Hl Ht Hd. unfold SEG16, seg_base, seg_limit. cbn [lim_15_0 base_15_0 base_23_16 d_type d_dpl lim_19_16 d_g base_31_24 Z.eqb].
  split; [by apply split_address|]. split; [|split; by apply bits_small].
  rewrite (u32_small lim) by lia. change 0xffff with (Z.ones 16). rewrite Z.land_ones, !Z.shiftr_div_pow2 by lia.
  unfold bits. rewrite Z.mod_mod by lia.
  rewrite (Z.mod_small (lim / 2 ^ 16)) by (split; [apply Z.div_pos; lia | apply Z.div_lt_upper_bound; lia]).
  Z.div_mod_to_equations. lia.
Qed.

Lemma SETGATE_decode b sel off d :
  0 <= off < 2 ^ 32 -> 0 <= sel < 2 ^ 16 -> 0 <= d < 4 ->
  let g := SETGATE b sel off d in gate_offset g = off /\ g_cs g = sel /\ g_dpl g = d /\ g_type g = if b then STS_TG32 else STS_IG32.
Proof.
  intros Ho Hs Hd. unfold SETGATE, gate_offset. cbn [off_15_0 off_31_16 g_cs g_dpl g_type]. split; [|split; [by apply bits_small|]; split; [by apply bits_small | by destruct b]].
  rewrite u32_small by done. change 0xffff with (Z.ones 16). rewrite Z.land_ones, Z.shiftr_div_pow2 by lia.
  unfold bits. rewrite Z.mod_mod by lia.
  rewrite (Z.mod_small (off / 2 ^ 16)) by (split; [apply Z.div_pos; lia | apply Z.div_lt_upper_bound; lia]).
  Z.div_mod_to_equations. lia.
Qed.

(** The interrupt table [tvinit] builds sends interrupt [i] to entry point
    [vectors[i]] in the kernel code segment, and user code can raise no
    interrupt but the system call: that gate alone has privilege level 3, and it
    alone leaves interrupts enabled. *)
Theorem tvinit_gates vectors i v :
  length vectors = 256%nat -> Forall (fun v => 0 <= v < 2 ^ 32) vectors -> vectors !! i = Some v ->
  exists g, tvinit vectors !! i = Some g /\ gate_offset g = v /\ g_cs g = 8 /\ g_p g = 1 /\
    g_dpl g = (if decide (i = 64%nat) then DPL_USER else 0) /\
    g_type g = (if decide (i = 64%nat) then STS_TG32 else STS_IG32).
Proof.
  intros Hl Hv Hi. assert (0 <= v < 2 ^ 32) as Hvr by (by eapply Forall_lookup_1 in Hv).
  unfold tvinit. change (Z.to_nat T_SYSCALL) with 64%nat. destruct (decide (i = 64%nat)) as [->|Hne].
  - rewrite list_lookup_insert_eq by (rewrite length_fmap, Hl; lia). rewrite (list_lookup_total_correct _ _ _ Hi).
    eexists. split; [reflexivity|]. by destruct (SETGATE_decode true 8 v DPL_USER Hvr) as (H1 & H2 & H3 & H4).
  - rewrite list_lookup_insert_ne by done. rewrite list_lookup_fmap, Hi.
    eexists. split; [reflexivity|]. by destruct (SETGATE_decode false 8 v 0 Hvr) as (H1 & H2 & H3 & H4).
Qed.

Lemma tvinit_gates_witness :
  exists g, tvinit (replicate 256 0x80106000) !! 14%nat = Some g /\ gate_offset g = 0x80106000 /\ g_dpl g = 0.
Proof.
  destruct (tvinit_gates (replicate 256 0x80106000) 14 0x80106000) as (g & H1 & H2 & _ & _ & H3 & _).
  - reflexivity.
  - apply Forall_replicate. lia.
  - reflexivity.
  - exists g. split; [exact H1|]. split; [exact H2 | exact H3].
Defined.

(** After [switchuvm] the processor enters the kernel on the stack of the
    process and translates addresses with its page directory; its task segment
    is a 32-bit TSS at the task state of the CPU, and the interrupt nesting and
    the interrupt flag are as before. *)
Theorem switchuvm_correct ts_addr kstack pgdir h :
  Cli.wf (cli h) -> length (gdt h) = NSEGS -> 0 <= ts_addr < 2 ^ 32 ->
  0 < kstack < 2 ^ 32 - Proc.KSTACKSIZE -> KERNBASE <= pgdir < 2 ^ 32 ->
  exists h', switchuvm ts_addr (Some (kstack, pgdir)) h = Ret tt h' /\
    esp0 h' = kstack + Proc.KSTACKSIZE /\ ss0 h' = 16 /\ iomb h' = 0xFFFF /\ tr h' = 40 /\ cr3 h' = pgdir - KERNBASE /\
    Cli.ncli (cli h') = Cli.ncli (cli h) /\ Cli.IF (cli h') = Cli.IF (cli h) /\
    let d := gdt h' !!! 5%nat in
    seg_base d = ts_addr /\ seg_limit d = ts_size - 1 /\ d_type d = STS_T32A /\ d_s d = 0 /\ d_dpl d = 0.
Proof.
  intros Hwf Hg Hts Hks Hpd.
  destruct (Cli.run_spec (Cli.Pair Cli.Done Cli.Done) (cli h) Hwf) as (c' & Hr & _ & Hn & Hi & _).
  cbn [Cli.run] in Hr. apply bind_Ret in Hr as (u & c1 & E1 & Hr). apply bind_Ret in Hr as (u1 & c2 & [= <- <-] & Hr).
  apply bind_Ret in Hr as (u2 & c3 & E3 & [= <-]).
  unfold switchuvm. rewrite (proj2 (Z.eqb_neq kstack 0)), (proj2 (Z.eqb_neq pgdir 0)) by (unfold KERNBASE in *; lia).
  unfold bind, zoom, modify, V2P. rewrite E1. cbn [cli set_cli set_gdt set_ts ltr gdt]. rewrite (proj2 (Z.ltb_ge pgdir KERNBASE)) by lia.
  cbn [ret cli lcr3 ltr set_ts set_gdt set_cli gdt]. rewrite E3. destruct u2. eexists. split; [reflexivity|]. cbn [esp0 ss0 iomb tr cr3 cli gdt set_cli lcr3 ltr set_ts set_gdt].
  rewrite !u32_small by (unfold KERNBASE, Proc.KSTACKSIZE in *; lia). split_and!; try done.
  all: change (Z.to_nat SEG_TSS) with 5%nat; rewrite !list_lookup_total_insert_eq by (rewrite ?length_insert, Hg; unfold NSEGS; lia).
  all: destruct (SEG16_decode STS_T32A ts_addr (ts_size - 1) 0 Hts) as (H1 & H2 & H3 & H4); try done.
Qed.

Lemma switchuvm_correct_witness :
  let h := mk_hw (Cli.mk_cpu 0 false true) (replicate 6 null_seg) (0, 0) (0, 0) 0 0 0 0 0 in
  exists h', switchuvm 0x80112000 (Some (0x8dfff000, 0x8dffe000)) h = Ret tt h' /\ esp0 h' = 0x8e000000 /\ cr3 h' = 0xdffe000.
Proof.
  intros h.
  destruct (switchuvm_correct 0x80112000 0x8dfff000 0x8dffe000 h) as (h' & H1 & H2 & _ & _ & _ & H3 & _).
  - split; cbn; lia.
  - reflexivity.
  - lia.
  - unfold Proc.KSTACKSIZE. lia.
  - unfold KERNBASE. lia.
  - exists h'. split; [exact H1|]. split; [exact H2 | exact H3].
Defined.
