(* ===== verification/Trap.v ===== *)
(** * Traps and system calls (trap.c, syscall.c, sysproc.c, kshutdown.c, [cps] of proc.c)

    The state adds to the process table and the state [K] of the rest of the
    kernel the clock with its lock, the trap frames on the kernel stacks, the
    text written to the console, the interrupt acknowledgements and the writes
    to ports.  A process that gives up the CPU in [sleep] or [yield] continues
    when it is switched to again; what the other processes and CPUs do in
    between is an arbitrary function [others] of the state, after which the
    scheduler switches to the process only if it is runnable.  A process that
    calls [exit] ends with the outcome [Sleep]. *)

From S2P Require Import Prelude Spinlock Cstring Proc Format Seg.

Record trapframe := mk_tf {
  edi : Z; esi : Z; ebp : Z; oesp : Z; ebx : Z; edx : Z; ecx : Z; eax : Z;
  gs : Z; fs : Z; es : Z; ds : Z; trapno : Z; err : Z; eip : Z; cs : Z; eflags : Z; esp : Z; ss : Z;
}.

Definition set_eax v (f : trapframe) : trapframe :=
  mk_tf (edi f) (esi f) (ebp f) (oesp f) (ebx f) (edx f) (ecx f) v (gs f) (fs f) (es f) (ds f) (trapno f)
    (err f) (eip f) (cs f) (eflags f) (esp f) (ss f).

#[global] Instance trapframe_inhabited : Inhabited trapframe :=
  populate (mk_tf 0 0 0 0 0 0 0 0 0 0 0 0 0 0 0 0 0 0 0).

Definition T_IRQ0 : Z := 32.
Definition IRQ_TIMER : Z := 0.
Definition IRQ_KBD : Z := 1.
Definition IRQ_COM1 : Z := 4.
Definition IRQ_IDE : Z := 14.
Definition IRQ_SPURIOUS : Z := 31.

(** The handlers of the devices, the fault address and the words of user
    memory. *)
Class Devices (K : Type) := {
  ideintr : M K unit;
  kbdintr : M K unit;
  uartintr : M K unit;
  rcr2 : K -> Z;
  user_word : K -> Z -> Z -> Z;
}.

Record tst (K : Type) := mk_tst {
  kern : kst K;
  cur : option nat;
  cpunum : Z;
  ticks : Z;
  tlock : bool;
  frames : gmap Z trapframe;
  printed : list Z;
  eois : nat;
  ports : list (Z * Z);
}.
Arguments mk_tst {K}.
Arguments kern {K}.
Arguments cur {K}.
Arguments cpunum {K}.
Arguments ticks {K}.
Arguments tlock {K}.
Arguments frames {K}.
Arguments printed {K}.
Arguments eois {K}.
Arguments ports {K}.

Record file_calls (K : Type) := mk_file_calls {
  sys_pipe : M (tst K) Z; sys_read : M (tst K) Z; sys_exec : M (tst K) Z; sys_fstat : M (tst K) Z; sys_chdir : M (tst K) Z;
  sys_dup : M (tst K) Z; sys_open : M (tst K) Z; sys_write : M (tst K) Z; sys_mknod : M (tst K) Z; sys_unlink : M (tst K) Z;
  sys_link : M (tst K) Z; sys_mkdir : M (tst K) Z; sys_close : M (tst K) Z;
}.
Arguments sys_pipe {K}.
Arguments sys_read {K}.
Arguments sys_exec {K}.
Arguments sys_fstat {K}.
Arguments sys_chdir {K}.
Arguments sys_dup {K}.
Arguments sys_open {K}.
Arguments sys_write {K}.
Arguments sys_mknod {K}.
Arguments sys_unlink {K}.
Arguments sys_link {K}.
Arguments sys_mkdir {K}.
Arguments sys_close {K}.

(** ** The calls by name: syscall.h and the stubs of usys.S *)

Inductive sysname :=
| Fork | Exit | Wait | Pipe | Read | Kill | Exec | Fstat | Chdir | Dup | Getpid | Sbrk | Sleep_ | Uptime | Open | Write
| Mknod | Unlink | Link | Mkdir | Close | Yield | Shutdown | Nice | Cps.

(** [SYS_fork] and so on *)
Definition SYS (x : sysname) : Z :=
  match x with
  | Fork => 1 | Exit => 2 | Wait => 3 | Pipe => 4 | Read => 5 | Kill => 6 | Exec => 7 | Fstat => 8 | Chdir => 9 | Dup => 10
  | Getpid => 11 | Sbrk => 12 | Sleep_ => 13 | Uptime => 14 | Open => 15 | Write => 16 | Mknod => 17 | Unlink => 18 | Link => 19
  | Mkdir => 20 | Close => 21 | Yield => 22 | Shutdown => 23 | Nice => 24 | Cps => 25
  end.

(** [SYSCALL(name)]: the frame of the trap that the stub raises from the
    registers [f] of its caller. *)
Definition stub (x : sysname) (f : trapframe) : trapframe :=
  mk_tf (edi f) (esi f) (ebp f) (oesp f) (ebx f) (edx f) (ecx f) (SYS x) (gs f) (fs f) (es f) (ds f) T_SYSCALL 0
    (eip f) (cs f) (eflags f) (esp f) (ss f).

Section state.
Context {K : Type}.

Definition set_kern x (s : tst K) : tst K := mk_tst x (cur s) (cpunum s) (ticks s) (tlock s) (frames s) (printed s) (eois s) (ports s).
Definition set_ticks x (s : tst K) := mk_tst (kern s) (cur s) (cpunum s) x (tlock s) (frames s) (printed s) (eois s) (ports s).
Definition set_tlock x (s : tst K) := mk_tst (kern s) (cur s) (cpunum s) (ticks s) x (frames s) (printed s) (eois s) (ports s).
Definition set_tfs x (s : tst K) := mk_tst (kern s) (cur s) (cpunum s) (ticks s) (tlock s) x (printed s) (eois s) (ports s).
Definition add_text x (s : tst K) := mk_tst (kern s) (cur s) (cpunum s) (ticks s) (tlock s) (frames s) (printed s ++ x) (eois s) (ports s).
Definition add_eoi (s : tst K) := mk_tst (kern s) (cur s) (cpunum s) (ticks s) (tlock s) (frames s) (printed s) (S (eois s)) (ports s).
Definition add_out x (s : tst K) := mk_tst (kern s) (cur s) (cpunum s) (ticks s) (tlock s) (frames s) (printed s) (eois s) (ports s ++ [x]).

Definition frame (a : Z) (s : tst K) : trapframe := frames s !!! a.
Definition proc_tab (s : tst K) : list proc := procs (pt (kern s)).
Definition this_cpu (s : tst K) : Cli.cpu := me (pt (kern s)).
End state.

Section traps.
Context (ptable_addr trapret_addr forkret_addr ticks_addr : Z) {K : Type} `{Services K} `{Devices K}.
Context (others : tst K -> tst K).
(** The number of times a call may sleep before it is cut. *)
Context (fuel : nat).

Definition on_kern {A} (m : M (kst K) A) : M (tst K) A := zoom kern set_kern m.
Definition on_tab {A} (m : M ptab A) : M (tst K) A := on_kern (tab m).
Definition on_sys {A} (m : M K A) : M (tst K) A := on_kern (sys m).

Definition lapiceoi : M (tst K) unit := modify add_eoi.
Definition outb (port v : Z) : M (tst K) unit := modify (add_out (port, v)).

(** [cprintf(fmt "\n", ...)] *)
Definition print (fmt : list Z) (args : list arg) : M (tst K) unit :=
  match cprintf (fmt ++ [0]) args with
  | Some t => modify (add_text t)
  | None => undefined
  end.

(** [myproc()] where it is dereferenced: a null pointer faults. *)
Definition curproc : M (tst K) nat :=
  let! c := reads cur in match c with Some p => ret p | None => null_fault end.
Definition curp : M (tst K) proc := let! c := curproc in on_tab (getp c).

Definition cpuid : M (tst K) Z :=
  let! c := reads this_cpu in
  if Cli.IF c then panic "mycpu called with interrupts enabled" else reads cpunum.

(** [acquire(&tickslock)], [release(&tickslock)] *)
Definition acquire_ticks : M (tst K) unit :=
  on_tab (zoom me set_me Cli.pushcli) ;;
  let! l := reads tlock in
  if l then panic "acquire" else modify (set_tlock true).
Definition release_ticks : M (tst K) unit :=
  let! l := reads tlock in
  if l then modify (set_tlock false) ;; on_tab (zoom me set_me Cli.popcli) else panic "release".

(** The scheduler switches to the process when it is runnable, and never
    otherwise; [sched] keeps the [intena] of its CPU across the switch. *)
Definition resumed {A} (intena : bool) (back : M (tst K) A) : M (tst K) A :=
  let! c := curproc in
  let! p := curp in
  if is_state RUNNABLE p then on_tab (upd c (set_state RUNNING)) ;; on_tab (sched_return intena) ;; back
  else hang.

(** Giving up the CPU with [m] and going on, when the process is chosen again,
    with [back]. *)
Definition switched {A} (m : M (tst K) unit) (back : M (tst K) A) : M (tst K) A := fun s =>
  match m s with
  | Sleep _ s1 => resumed (Cli.intena (this_cpu s1)) back (others s1)
  | Ret _ s1 => back s1
  | Panic msg => Panic msg
  | Hang => Hang
  end.

Definition yield_ : M (tst K) unit :=
  let! c := curproc in switched (on_tab (yield c)) (on_tab yield_return).

(** [sleep(&ticks, &tickslock)] *)
Definition sleep_ticks : M (tst K) unit :=
  let! c := curproc in
  switched (modify (set_tlock false) ;; on_tab (sleep c ticks_addr false))
    (let! c := curproc in
     on_tab (upd c (set_chan 0)) ;; on_tab release_pt ;; acquire_ticks).

Definition exit_ : M (tst K) unit := let! c := curproc in on_kern (exit ptable_addr c).

(** ** System call arguments *)

Definition argint (n : Z) : M (tst K) (option Z) :=
  let! p := curp in
  let! f := reads (frame (tf p)) in
  let addr := u32 (esp f + 4 + 4 * n) in
  if (sz p <=? addr) || (sz p <? u32 (addr + 4)) then ret None
  else let! k := reads (fun s => ks (kern s)) in ret (Some (i32 (user_word k (pgdir p) addr))).

(** ** sysproc.c *)

Definition sys_fork : M (tst K) Z := let! c := curproc in on_kern (fork trapret_addr forkret_addr c).

Definition sys_exit : M (tst K) Z := exit_ ;; ret 0.

Fixpoint wait_more (n : nat) (c : nat) (m : M (kst K) Z) : M (tst K) Z :=
  match n with
  | O => hang
  | S n => fun s =>
      match on_kern m s with
      | Sleep _ s1 =>
          resumed (Cli.intena (this_cpu s1)) (wait_more n c (wait_return ptable_addr c)) (others s1)
      | o => o
      end
  end.
Definition sys_wait : M (tst K) Z := let! c := curproc in wait_more fuel c (wait ptable_addr c).

Definition sys_kill : M (tst K) Z :=
  let! a := argint 0 in
  match a with None => ret (-1) | Some pid => on_tab (kill pid) end.

Definition sys_getpid : M (tst K) Z := let! p := curp in ret (pid p).

Definition sys_sbrk : M (tst K) Z :=
  let! a := argint 0 in
  match a with
  | None => ret (-1)
  | Some n =>
      let! p := curp in
      let addr := i32 (sz p) in
      let! c := curproc in
      let! r := on_kern (growproc c n) in
      if r <? 0 then ret (-1) else ret addr
  end.

(** [while(ticks - ticks0 < n)]: the difference is unsigned, and so is the
    comparison. *)
Fixpoint sleep_loop (k : nat) (ticks0 n : Z) : M (tst K) Z :=
  match k with
  | O => hang
  | S k =>
      let! t := reads ticks in
      if u32 (t - ticks0) <? u32 n then
        let! p := curp in
        if negb (killed p =? 0) then release_ticks ;; ret (-1)
        else sleep_ticks ;; sleep_loop k ticks0 n
      else release_ticks ;; ret 0
  end.

Definition sys_sleep : M (tst K) Z :=
  let! a := argint 0 in
  match a with
  | None => ret (-1)
  | Some n =>
      acquire_ticks ;;
      let! ticks0 := reads ticks in
      sleep_loop fuel ticks0 n
  end.

Definition sys_uptime : M (tst K) Z :=
  acquire_ticks ;;
  let! xticks := reads ticks in
  release_ticks ;;
  ret (i32 xticks).

Definition sys_yield : M (tst K) Z := yield_ ;; ret 0.

(** kshutdown.c *)
Definition shutdown : M (tst K) unit := outb 0x501 0x0.
Definition sys_shutdown : M (tst K) Z := shutdown ;; ret 0.

Definition sys_nice : M (tst K) Z :=
  let! a := argint 0 in
  match a with
  | None => ret (-1)
  | Some pid =>
      let! b := argint 1 in
      match b with
      | None => ret (-1)
      | Some prio => on_tab (nice pid prio)
      end
  end.

(** The line of [cps] for a process. *)
Definition cps_line (p : proc) : M (tst K) unit :=
  match state p with
  | SLEEPING => print (str "%s " ++ [9] ++ str " %d " ++ [9] ++ str " SLEEPING " ++ [9] ++ str " %d " ++ [10; 32])
      [AStr (pname p); AInt (pid p); AInt (priority p)]
  | RUNNING => print (str "%s " ++ [9] ++ str " %d " ++ [9] ++ str " RUNNING " ++ [9] ++ str " %d " ++ [10; 32])
      [AStr (pname p); AInt (pid p); AInt (priority p)]
  | RUNNABLE => print (str "%s " ++ [9] ++ str " %d " ++ [9] ++ str " RUNNABLE " ++ [9] ++ str " %d " ++ [10; 32])
      [AStr (pname p); AInt (pid p); AInt (priority p)]
  | _ => ret tt
  end.

Fixpoint cps_lines (l : list proc) : M (tst K) unit :=
  match l with
  | [] => ret tt
  | p :: l => cps_line p ;; cps_lines l
  end.

Definition sti : M (tst K) unit :=
  on_tab (modify (fun t => set_me (Cli.mk_cpu (Cli.ncli (me t)) (Cli.intena (me t)) true) t)).

Definition cps : M (tst K) Z :=
  sti ;;
  on_tab acquire_pt ;;
  print (str "name " ++ [9] ++ str " pid " ++ [9] ++ str " state " ++ [9] ++ str " priority " ++ [10]) [] ;;
  let! l := reads proc_tab in
  cps_lines l ;;
  on_tab release_pt ;;
  ret 2.
Definition sys_cps : M (tst K) Z := cps.

(** ** The table of system calls *)

(** The calls of sysfile.c are given. *)
Context (file_call : file_calls K).

Definition syscalls (num : Z) : option (M (tst K) Z) :=
  match num with
  | 1 => Some sys_fork
  | 2 => Some sys_exit
  | 3 => Some sys_wait
  | 4 => Some (sys_pipe file_call)
  | 5 => Some (sys_read file_call)
  | 6 => Some sys_kill
  | 7 => Some (sys_exec file_call)
  | 8 => Some (sys_fstat file_call)
  | 9 => Some (sys_chdir file_call)
  | 10 => Some (sys_dup file_call)
  | 11 => Some sys_getpid
  | 12 => Some sys_sbrk
  | 13 => Some sys_sleep
  | 14 => Some sys_uptime
  | 15 => Some (sys_open file_call)
  | 16 => Some (sys_write file_call)
  | 17 => Some (sys_mknod file_call)
  | 18 => Some (sys_unlink file_call)
  | 19 => Some (sys_link file_call)
  | 20 => Some (sys_mkdir file_call)
  | 21 => Some (sys_close file_call)
  | 22 => Some sys_yield
  | 23 => Some sys_shutdown
  | 24 => Some sys_nice
  | 25 => Some sys_cps
  | _ => None
  end.

Definition put_eax (r : Z) : M (tst K) unit :=
  let! p := curp in modify (fun s => set_tfs (<[tf p := set_eax (u32 r) (frame (tf p) s)]> (frames s)) s).

Definition syscall : M (tst K) unit :=
  let! p := curp in
  let! f := reads (frame (tf p)) in
  let num := i32 (eax f) in
  match syscalls num with
  | Some call => let! r := call in put_eax r
  | None =>
      print (str "%d %s: unknown sys call %d" ++ [10]) [AInt (pid p); AStr (pname p); AInt num] ;;
      put_eax (-1)
  end.

(** ** trap.c *)

(** [if(myproc()->killed) exit();] *)
Definition exit_if_killed : M (tst K) unit :=
  let! p := curp in when (negb (killed p =? 0)) exit_.

(** [if(myproc() && myproc()->killed && (tf->cs&3) == DPL_USER) exit();] *)
Definition exit_if_killed_user (a : Z) : M (tst K) unit :=
  let! c := reads cur in
  match c with
  | None => ret tt
  | Some _ =>
      let! p := curp in
      let! f := reads (frame a) in
      when (negb (killed p =? 0) && (Z.land (cs f) 3 =? DPL_USER)) exit_
  end.

Definition trap_default (a : Z) : M (tst K) unit :=
  let! c := reads cur in
  let! f := reads (frame a) in
  let! k := reads (fun s => ks (kern s)) in
  if bool_decide (c = None) || (Z.land (cs f) 3 =? 0) then
    let! n := cpuid in
    print (str "unexpected trap %d from cpu %d eip %x (cr2=0x%x)" ++ [10])
      [AInt (trapno f); AInt n; AInt (eip f); AInt (rcr2 k)] ;;
    panic "trap"
  else
    let! p := curp in
    let! n := cpuid in
    print (str "pid %d %s: trap %d err %d on cpu %d eip 0x%x addr 0x%x--kill proc" ++ [10])
      [AInt (pid p); AStr (pname p); AInt (trapno f); AInt (err f); AInt n; AInt (eip f); AInt (rcr2 k)] ;;
    let! c := curproc in
    on_tab (upd c (set_killed 1)).

Definition trap_switch (a : Z) : M (tst K) unit :=
  let! f := reads (frame a) in
  let no := trapno f in
  if no =? T_IRQ0 + IRQ_TIMER then
    let! n := cpuid in
    when (n =? 0)
      (acquire_ticks ;;
       modify (fun s => set_ticks (u32 (ticks s + 1)) s) ;;
       on_tab (wakeup ticks_addr) ;;
       release_ticks) ;;
    lapiceoi
  else if no =? T_IRQ0 + IRQ_IDE then on_sys ideintr ;; lapiceoi
  else if no =? T_IRQ0 + IRQ_IDE + 1 then ret tt
  else if no =? T_IRQ0 + IRQ_KBD then on_sys kbdintr ;; lapiceoi
  else if no =? T_IRQ0 + IRQ_COM1 then on_sys uartintr ;; lapiceoi
  else if (no =? T_IRQ0 + 7) || (no =? T_IRQ0 + IRQ_SPURIOUS) then
    let! n := cpuid in
    print (str "cpu%d: spurious interrupt at %x:%x" ++ [10]) [AInt n; AInt (cs f); AInt (eip f)] ;;
    lapiceoi
  else trap_default a.

(** [if(myproc() && myproc()->state == RUNNING && tf->trapno == T_IRQ0+IRQ_TIMER) yield();] *)
Definition yield_on_tick (a : Z) : M (tst K) unit :=
  let! c := reads cur in
  match c with
  | None => ret tt
  | Some _ =>
      let! p := curp in
      let! f := reads (frame a) in
      when (is_state RUNNING p && (trapno f =? T_IRQ0 + IRQ_TIMER)) yield_
  end.

Definition trap (a : Z) : M (tst K) unit :=
  let! f := reads (frame a) in
  if trapno f =? T_SYSCALL then
    exit_if_killed ;;
    let! c := curproc in
    on_tab (upd c (fun p => set_frames a (context p) p)) ;;
    syscall ;;
    exit_if_killed
  else
    trap_switch a ;;
    exit_if_killed_user a ;;
    yield_on_tick a ;;
    exit_if_killed_user a.
End traps.
