(* ===== verification/TrapSafe.v ===== *)
(** * Correctness of traps and system calls (trap.c, syscall.c, sysproc.c) *)

From S2P Require Import Prelude Spinlock Cstring Proc ProcSafe Format Seg Trap.

Section correct.
Context (ptable_addr trapret_addr forkret_addr ticks_addr : Z) {K : Type} `{Services K} `{Devices K}.
Context (others : tst K -> tst K) (fuel : nat) (file_call : file_calls K).

Abbreviation exit_ := (exit_ ptable_addr).
Abbreviation exit_if_killed := (exit_if_killed ptable_addr).
Abbreviation exit_if_killed_user := (exit_if_killed_user ptable_addr).
Abbreviation syscall := (syscall ptable_addr trapret_addr forkret_addr ticks_addr others fuel file_call).
Abbreviation syscalls := (syscalls ptable_addr trapret_addr forkret_addr ticks_addr others fuel file_call).
Abbreviation trap_switch := (trap_switch ticks_addr).
Abbreviation trap := (trap ptable_addr trapret_addr forkret_addr ticks_addr others fuel file_call).

(** The current process. *)
Definition me_ (s : tst K) (p : nat) : proc := proc_tab s !!! p.

Lemma curproc_run p (s : tst K) : cur s = Some p -> curproc s = Ret p s.
Proof. intros E. unfold curproc, bind, reads. by rewrite E. Qed.

Lemma curp_run p (s : tst K) : cur s = Some p -> curp s = Ret (me_ s p) s.
Proof. intros E. unfold curp, curproc, bind, reads. rewrite E. by destruct s as [[[] ?]]. Qed.

(** [sched] does not return, and neither does [exit]. *)
Lemma sched_away c ch t r t' : sched c ch t <> Ret r t'.
Proof. unfold sched. repeat case_match; done. Qed.

Lemma exit_away s r s' : exit_ s <> Ret r s'.
Proof.
  intros (c & s1 & _ & E)%bind_Ret. unfold on_kern, zoom, exit in E.
  destruct (bind _ _ _) as [u s2| | |] eqn:E1; try done. apply bind_Ret in E1 as (u1 & s3 & _ & E1).
  unfold tab, zoom, exit_tail in E1. destruct (bind _ _ _) as [u2 t2| | |] eqn:E2; try done.
  repeat apply bind_Ret in E2 as (? & ? & _ & E2). by apply sched_away in E2.
Qed.

Lemma exit_if_killed_ret s s' : exit_if_killed s = Ret tt s' ->
  s' = s /\ exists p, cur s = Some p /\ killed (me_ s p) = 0.
Proof.
  unfold exit_if_killed. destruct (cur s) as [p|] eqn:E.
  - rewrite (bind_ret _ _ _ _ _ (curp_run p s E)). unfold when. destruct (Z.eqb_spec (killed (me_ s p)) 0); cbn.
    + intros [= <-]. eauto.
    + intros []%exit_away.
  - unfold curp, curproc, bind, reads. by rewrite E.
Qed.

Lemma exit_if_killed_user_ret a s s' : exit_if_killed_user a s = Ret tt s' ->
  s' = s /\ forall p, cur s = Some p -> Z.land (cs (frame a s)) 3 = DPL_USER -> killed (me_ s p) = 0.
Proof.
  unfold Trap.exit_if_killed_user, bind at 1, reads. destruct (cur s) as [p|] eqn:E; [|by intros [= <-]].
  rewrite (bind_ret _ _ _ _ _ (curp_run p s E)). unfold bind, when, reads.
  destruct (Z.eqb_spec (killed (me_ s p)) 0) as [Hk|Hk], (Z.eqb_spec (Z.land (cs (frame a s)) 3) DPL_USER) as [Hc|Hc]; cbn [negb andb].
  all: try (intros [= <-]; split; [done|]; intros q [= <-] ?; done).
  intros []%exit_away.
Qed.

(** C16: a process that was killed does not run user code again: when [trap]
    returns from a system call, or to user mode from an interrupt or a fault,
    the process that returns has not been killed at the last check. *)
Theorem killed_never_resumes a s s' p :
  trap a s = Ret tt s' ->
  trapno (frame a s) = T_SYSCALL \/ Z.land (cs (frame a s')) 3 = DPL_USER ->
  cur s' = Some p -> killed (proc_tab s' !!! p) = 0.
Proof.
  unfold Trap.trap. unfold bind at 1, reads. intros E Hw Hp. destruct (Z.eqb_spec (trapno (frame a s)) T_SYSCALL) as [Ht|Ht].
  - do 4 apply bind_Ret in E as (? & ? & _ & E). apply exit_if_killed_ret in E as (-> & q & Hq & Hk). by simplify_eq.
  - destruct Hw as [|Hw]; [done|]. do 3 apply bind_Ret in E as (? & ? & _ & E).
    apply exit_if_killed_user_ret in E as [-> Hk]. by apply Hk.
Qed.

(** ** Messages *)

Definition is_str (x : arg) : bool := match x with AStr _ => true | AInt _ => false end.

(** The arguments are of the kinds the format asks for. *)
Fixpoint fits (fmt : list Z) (kinds : list bool) : bool :=
  match fmt with
  | [] => false
  | c0 :: fmt =>
      let c := u8 c0 in
      if c =? 0 then true
      else if negb (c =? 37) then fits fmt kinds
      else
        match fmt with
        | [] => false
        | d0 :: fmt =>
            let d := u8 d0 in
            if d =? 0 then true
            else if (d =? 100) || (d =? 120) || (d =? 112) then
              match kinds with false :: kinds => fits fmt kinds | _ => false end
            else if d =? 115 then
              match kinds with true :: kinds => fits fmt kinds | _ => false end
            else fits fmt kinds
        end
  end.

Lemma fits_cprintf fmt args : fits fmt (is_str <$> args) = true -> is_Some (cprintf fmt args).
Proof.
  remember (length fmt) as n eqn:Hn. assert (length fmt <= n)%nat as Hle by lia. clear Hn.
  revert fmt args Hle. induction n as [|n IH]; intros [|c fmt] args Hle Hf; cbn [length] in Hle; try lia; cbn [fits cprintf] in *; try done.
  destruct (u8 c =? 0); [by eexists|]. destruct (negb (u8 c =? 37)); [by apply fmap_is_Some, IH; [lia|]|].
  destruct fmt as [|d fmt]; [done|]. cbn [length] in Hle. destruct (u8 d =? 0); [by eexists|].
  destruct (u8 d =? 100), (u8 d =? 120), (u8 d =? 112), (u8 d =? 115), (u8 d =? 37), args as [|[] args]; cbn in Hf |- *; try done.
  all: apply fmap_is_Some, IH; [lia | exact Hf].
Qed.

Lemma print_run fmt args (s : tst K) :
  fits (fmt ++ [0]) (is_str <$> args) = true -> exists t, cprintf (fmt ++ [0]) args = Some t /\ print fmt args s = Ret tt (add_text t s).
Proof. intros (t & Ht)%fits_cprintf. exists t. split; [done|]. unfold print. by rewrite Ht. Qed.

(** ** Faults *)

Definition irq (no : Z) : Prop :=
  no = 32 \/ no = 46 \/ no = 47 \/ no = 33 \/ no = 36 \/ no = 39 \/ no = 63.

Lemma trap_switch_default a s : ~ irq (trapno (frame a s)) -> trap_switch a s = trap_default a s.
Proof.
  intros Hn. unfold Trap.trap_switch, bind at 1, reads, T_IRQ0, IRQ_TIMER, IRQ_IDE, IRQ_KBD, IRQ_COM1, IRQ_SPURIOUS.
  unfold irq in Hn. cbv zeta. by rewrite !(proj2 (Z.eqb_neq (trapno (frame a s)) _)) by lia.
Qed.

Definition after_fault (p : nat) (text : list Z) (s : tst K) : tst K :=
  set_kern (mk_kst (set_procs (alter (set_killed 1) p (proc_tab s)) (pt (kern s))) (ks (kern s))) (add_text text s).

Lemma cpuid_run (s : tst K) : Cli.IF (this_cpu s) = false -> cpuid s = Ret (cpunum s) s.
Proof. intros E. unfold cpuid, bind, reads. by rewrite E. Qed.

Lemma trap_default_user a s p :
  cur s = Some p -> Z.land (cs (frame a s)) 3 = DPL_USER -> Cli.IF (this_cpu s) = false ->
  exists text, trap_default a s = Ret tt (after_fault p text s).
Proof.
  intros Hp Hc Hi. unfold trap_default. unfold bind at 1, reads at 1. unfold bind at 1, reads at 1. unfold bind at 1, reads at 1.
  rewrite Hp, Hc, bool_decide_eq_false_2 by done. cbn [orb]. change (DPL_USER =? 0) with false. cbn iota.
  rewrite (bind_ret _ _ _ _ _ (curp_run p s Hp)), (bind_ret _ _ _ _ _ (cpuid_run s Hi)).
  match goal with |- context [print ?fmt ?args] => destruct (print_run fmt args s eq_refl) as (t & _ & E) end.
  rewrite (bind_ret _ _ _ _ _ E). exists t. rewrite (bind_ret _ _ _ _ _ (curproc_run p (add_text t s) Hp)).
  by destruct s as [[[] ?]].
Qed.

Lemma trap_default_kernel a s p :
  cur s = Some p -> Z.land (cs (frame a s)) 3 = 0 -> Cli.IF (this_cpu s) = false -> trap_default a s = Panic "trap".
Proof.
  intros Hp Hc Hi. unfold trap_default, bind at 1, reads. unfold bind at 1. unfold bind at 1. rewrite Hp, Hc.
  change (bool_decide (Some p = None) || (0 =? 0)) with true. cbn iota. rewrite (bind_ret _ _ _ _ _ (cpuid_run s Hi)).
  match goal with |- context [print ?fmt ?args] => destruct (print_run fmt args s eq_refl) as (t & _ & E) end.
  by rewrite (bind_ret _ _ _ _ _ E).
Qed.

(** A fault, or an interrupt nobody handles, in user mode kills the process:
    a message is printed, the process is marked and [trap] ends in [exit], which does not
    return.  In the kernel such a trap is a panic. *)
Theorem user_fault_exits a s p :
  cur s = Some p -> (p < length (proc_tab s))%nat -> Cli.IF (this_cpu s) = false ->
  trapno (frame a s) <> T_SYSCALL -> ~ irq (trapno (frame a s)) ->
  (Z.land (cs (frame a s)) 3 = DPL_USER ->
     (exists text, trap a s = exit_ (after_fault p text s)) /\ forall s', trap a s <> Ret tt s') /\
  (Z.land (cs (frame a s)) 3 = 0 -> trap a s = Panic "trap").
Proof.
  intros Hp Hl Hi Ht Hn.
  remember (trap a s) as o eqn:Ho. unfold Trap.trap, bind at 1, reads in Ho. rewrite (proj2 (Z.eqb_neq _ _) Ht) in Ho.
  unfold bind at 1 in Ho. rewrite (trap_switch_default a s Hn) in Ho. split; intros Hc.
  - destruct (trap_default_user a s p Hp Hc Hi) as (text & E). rewrite E in Ho. set (s1 := after_fault p text s) in *.
    assert (exit_if_killed_user a s1 = exit_ s1) as E1.
    { unfold Trap.exit_if_killed_user, bind at 1, reads. change (cur s1) with (cur s). rewrite Hp.
      rewrite (bind_ret _ _ _ _ _ (curp_run p s1 Hp)). unfold bind, reads, when. change (frame a s1) with (frame a s). rewrite Hc.
      assert (killed (me_ s1 p) = 1) as ->; [|done]. unfold me_, proc_tab, s1, after_fault. cbn.
      destruct (lookup_lt_is_Some_2 _ _ Hl) as (q & Hq). rewrite (list_lookup_total_correct _ _ (set_killed 1 q)); [done|].
      rewrite list_lookup_alter_eq. by rewrite Hq. }
    assert (o = exit_ s1) as ->.
    { rewrite Ho. unfold bind at 1. rewrite E1. destruct (exit_ s1) eqn:Ex; [by apply exit_away in Ex | done ..]. }
    split; [by exists text|]. intros s'. apply exit_away.
  - by rewrite (trap_default_kernel a s p) in Ho.
Qed.

(** ** System calls *)








(** ** The clock *)

(** No lock is held, and interrupts are off, as on entry through an interrupt
    gate. *)
Definition entry (s : tst K) : Prop := free (pt (kern s)) /\ Cli.IF (this_cpu s) = false /\ tlock s = false.

Lemma timer_switch a s :
  trapno (frame a s) = T_IRQ0 + IRQ_TIMER -> entry s ->
  exists s', trap_switch a s = Ret tt s' /\ entry s' /\ cur s' = cur s /\ frames s' = frames s /\ eois s' = S (eois s) /\
    ticks s' = (if cpunum s =? 0 then u32 (ticks s + 1) else ticks s) /\
    proc_tab s' = (if cpunum s =? 0 then wakeup1 ticks_addr (proc_tab s) else proc_tab s).
Proof.
  intros Ht ((Hl & Hn) & Hi & Htl). unfold Trap.trap_switch, bind at 1, reads. rewrite Ht, Z.eqb_refl.
  rewrite (bind_ret _ _ _ _ _ (cpuid_run s Hi)). destruct s as [[[l ps np ip [n i f]] k] c cpn t tl fr pr eo po].
  unfold this_cpu in *. cbn in Hl, Hn, Hi, Htl |- *. subst. destruct (cpn =? 0).
  - eexists. split; [reflexivity|]. repeat split.
  - eexists. split; [reflexivity|]. repeat split.
Qed.

(** Waking others does not change a process that runs. *)
Lemma wakeup1_running ch l p : is_state RUNNING (l !!! p) = true -> wakeup1 ch l !!! p = l !!! p.
Proof.
  intros Hr. unfold wakeup1. destruct (l !! p) as [q|] eqn:E.
  - rewrite (list_lookup_total_correct _ _ _ E) in *. apply list_lookup_total_correct.
    rewrite list_lookup_fmap, E. cbn. unfold wakeup_one, is_state in *. apply bool_decide_eq_true in Hr. by rewrite Hr.
  - by rewrite !list_lookup_total_alt, list_lookup_fmap, E.
Qed.

(** A clock interrupt advances [ticks] by one, modulo [2^32], on the boot CPU only, makes
    every process that sleeps on [&ticks] runnable there, is acknowledged once, and
    takes the CPU from the process that was running, unless that is to be
    killed. *)
Theorem clock_tick a s p :
  trapno (frame a s) = T_IRQ0 + IRQ_TIMER -> entry s -> cur s = Some p -> is_state RUNNING (me_ s p) = true ->
  exists s1, entry s1 /\ eois s1 = S (eois s) /\
    ticks s1 = (if cpunum s =? 0 then u32 (ticks s + 1) else ticks s) /\
    proc_tab s1 = (if cpunum s =? 0 then wakeup1 ticks_addr (proc_tab s) else proc_tab s) /\
    (killed (me_ s p) = 0 -> trap a s = (yield_ others ;; exit_if_killed_user a) s1) /\
    (killed (me_ s p) <> 0 -> Z.land (cs (frame a s)) 3 = DPL_USER -> trap a s = exit_ s1).
Proof.
  intros Ht He Hp Hr. destruct (timer_switch a s Ht He) as (s1 & E & He1 & Hc1 & Hf1 & Ho1 & Ht1 & Hp1).
  assert (me_ s1 p = me_ s p) as Hme.
  { unfold me_ in *. rewrite Hp1. destruct (cpunum s =? 0); [by apply wakeup1_running | done]. }
  assert (frame a s1 = frame a s) as Hfr by (unfold frame; by rewrite Hf1). rewrite <- Hc1 in Hp.
  remember (trap a s) as o eqn:Ho. unfold Trap.trap, bind at 1, reads in Ho. rewrite Ht in Ho.
  change (T_IRQ0 + IRQ_TIMER =? T_SYSCALL) with false in Ho. cbn iota in Ho. rewrite (bind_ret _ _ _ _ _ E) in Ho.
  unfold Trap.exit_if_killed_user at 1 in Ho. unfold bind at 1, bind at 1, reads at 1 in Ho. rewrite Hp in Ho.
  rewrite (bind_ret _ _ _ _ _ (curp_run p s1 Hp)) in Ho. unfold bind at 1, reads at 1 in Ho. rewrite Hme, Hfr in Ho.
  exists s1. split_and!; try done.
  - intros Hk. rewrite Hk in Ho. cbn [Z.eqb negb andb when ret] in Ho. rewrite Ho. unfold yield_on_tick.
    unfold bind at 1, bind at 1, reads at 1. rewrite Hp, (bind_ret _ _ _ _ _ (curp_run p s1 Hp)). unfold bind at 1, reads at 1.
    rewrite Hme, Hfr, Hr, Ht. done.
  - intros Hk Hc. rewrite (proj2 (Z.eqb_neq _ _) Hk), Hc in Ho. cbn [negb andb] in Ho. change (DPL_USER =? DPL_USER) with true in Ho.
    cbn [when] in Ho. rewrite Ho. destruct (exit_ s1) eqn:Ex; [by apply exit_away in Ex | done ..].
Qed.

(** *** [sleep(n)] *)

(** The clock lock alone is held. *)
Definition clock_held (c : nat) (s : tst K) : Prop :=
  plock (pt (kern s)) = false /\ Cli.ncli (this_cpu s) = 1 /\ Cli.IF (this_cpu s) = false /\ tlock s = true /\
  cur s = Some c /\ (c < length (proc_tab s))%nat.

(** The process is switched away from, or about to go on: the table lock is
    held, and no other. *)
Definition parked (c : nat) (s : tst K) : Prop :=
  held (pt (kern s)) /\ tlock s = false /\ cur s = Some c /\ (c < length (proc_tab s))%nat.

(** The process is waiting for the clock. *)
Definition waiting (c : nat) (s : tst K) : Prop := state (me_ s c) = SLEEPING /\ chan (me_ s c) = ticks_addr.

(** A slot of the table after updates of it. *)
Lemma lookup_alter_total (f : proc -> proc) (l : list proc) c : (c < length l)%nat -> alter f c l !!! c = f (l !!! c).
Proof.
  intros (q & Hq)%lookup_lt_is_Some_2. rewrite (list_lookup_total_correct _ _ _ Hq). apply list_lookup_total_correct.
  by rewrite list_lookup_alter_eq, Hq.
Qed.

Lemma go_to_sleep_law c s : clock_held c s ->
  exists s1, (modify (set_tlock false) ;; on_tab (sleep c ticks_addr false)) s = Sleep ticks_addr s1 /\
    parked c s1 /\ waiting c s1 /\ ticks s1 = ticks s.
Proof.
  intros (Hl & Hn & Hi & Ht & Hc & Hlen). unfold waiting, me_.
  destruct s as [[[l ps np ip [n i f]] k] cu cpn t tl fr pr eo po]. unfold this_cpu, proc_tab in *. cbn in Hl, Hn, Hi, Ht, Hc, Hlen |- *. subst.
  unfold on_tab, on_kern, tab, sleep, when, acquire_pt, upd, zoom, bind, modify, sched, reads, Cli.pushcli, Cli.popcli. cbn -[lookup_total].
  change (1 + 1 - 1) with 1. cbn -[lookup_total]. rewrite !lookup_alter_total by (rewrite ?length_alter; done).
  cbn -[lookup_total]. eexists. split; [reflexivity|]. unfold parked, held, proc_tab. cbn -[lookup_total].
  rewrite !length_alter, !lookup_alter_total by (rewrite ?length_alter; done). done.
Qed.

Lemma come_back_law c s b : parked c s -> is_state RUNNABLE (me_ s c) = true ->
  exists s', resumed b (let! c := curproc in on_tab (upd c (set_chan 0)) ;; on_tab release_pt ;; acquire_ticks) s = Ret tt s' /\
    clock_held c s' /\ ticks s' = ticks s /\ killed (me_ s' c) = killed (me_ s c).
Proof.
  intros ((Hl & Hn & Hi) & Ht & Hc & Hlen) Hr. unfold resumed.
  rewrite (bind_ret _ _ _ _ _ (curproc_run c s Hc)), (bind_ret _ _ _ _ _ (curp_run c s Hc)), Hr.
  destruct s as [[[l ps np ip [n i f]] k] cu cpn t tl fr pr eo po]. unfold me_, proc_tab, this_cpu in *. cbn -[lookup_total] in *. subst.
  destruct b; (eexists; split; [reflexivity|]; unfold clock_held, proc_tab, this_cpu; cbn -[lookup_total];
    rewrite !length_alter, !lookup_alter_total by (rewrite ?length_alter; done); done).
Qed.

(** [sleep(&ticks, &tickslock)] returns when the process has become runnable. *)
Lemma sleep_ticks_law c s :
  (forall s, parked c s -> parked c (others s)) -> clock_held c s ->
  exists s1, parked c s1 /\ waiting c s1 /\ ticks s1 = ticks s /\
    if is_state RUNNABLE (me_ (others s1) c) then
      exists s', sleep_ticks ticks_addr others s = Ret tt s' /\ clock_held c s' /\
        ticks s' = ticks (others s1) /\ killed (me_ s' c) = killed (me_ (others s1) c)
    else sleep_ticks ticks_addr others s = Hang.
Proof.
  intros Henv Hs. destruct (go_to_sleep_law c s Hs) as (s1 & E1 & Hp & Hw & Ht). exists s1. split_and!; [done..|].
  unfold sleep_ticks. rewrite (bind_ret _ _ _ _ _ (curproc_run c s ltac:(apply Hs))). unfold switched. rewrite E1.
  pose proof (Henv s1 Hp) as Hp2. destruct (is_state RUNNABLE (me_ (others s1) c)) eqn:Er; [by apply come_back_law|].
  unfold resumed. rewrite (bind_ret _ _ _ _ _ (curproc_run c _ ltac:(apply Hp2))), (bind_ret _ _ _ _ _ (curp_run c _ ltac:(apply Hp2))). by rewrite Er.
Qed.

Lemma release_ticks_run c s : clock_held c s ->
  exists s', release_ticks s = Ret tt s' /\ ticks s' = ticks s /\ proc_tab s' = proc_tab s.
Proof.
  intros (Hl & Hn & Hi & Ht & Hc & Hlen). destruct s as [[[l ps np ip [m i f]] kk] cu cpn t tl fr pr eo po].
  unfold this_cpu in *. cbn in *. subst. eexists. split; [reflexivity | done].
Qed.

(** The loop, however often the process is woken. *)
Lemma sleep_loop_safe c k t0 n s r s' :
  (forall s, parked c s -> parked c (others s)) -> clock_held c s -> sleep_loop ticks_addr others k t0 n s = Ret r s' ->
  (r = 0 /\ u32 n <= u32 (ticks s' - t0)) \/ (r = -1 /\ killed (me_ s' c) <> 0).
Proof.
  intros Henv. revert s. induction k as [|k IH]; intros s Hs; [done|]. cbn [sleep_loop]. unfold bind at 1, reads at 1.
  destruct (release_ticks_run c s Hs) as (s2 & Hrel & Ht2 & Hp2). destruct (Z.ltb_spec (u32 (ticks s - t0)) (u32 n)).
  - rewrite (bind_ret _ _ _ _ _ (curp_run c s ltac:(apply Hs))). destruct (Z.eqb_spec (killed (me_ s c)) 0); cbn [negb].
    + destruct (sleep_ticks_law c s Henv Hs) as (s1 & _ & _ & _ & E). destruct (is_state _ _).
      * destruct E as (s3 & E & Hs3 & _). rewrite (bind_ret _ _ _ _ _ E). by apply IH.
      * unfold bind at 1. by rewrite E.
    + rewrite (bind_ret _ _ _ _ _ Hrel). intros [= <- <-]. right. split; [done|]. unfold me_ in *. by rewrite Hp2.
  - rewrite (bind_ret _ _ _ _ _ Hrel). intros [= <- <-]. left. rewrite Ht2. lia.
Qed.

(** *** The clock runs

    While process [c] is away, the boot CPU handles [k] clock interrupts by
    [trap_switch]; otherwise nothing happens to the clock and to the process. *)
Definition quiet (c : nat) (s s' : tst K) : Prop :=
  ticks s' = ticks s /\ state (me_ s' c) = state (me_ s c) /\ chan (me_ s' c) = chan (me_ s c).

Inductive passes (c : nat) : nat -> tst K -> tst K -> Prop :=
| passes_none s s' : quiet c s s' -> passes c 0 s s'
| passes_tick k s s1 a s2 s' :
    passes c k s s1 -> cpunum s1 = 0 -> entry s1 -> (c < length (proc_tab s1))%nat -> trapno (frame a s1) = T_IRQ0 + IRQ_TIMER ->
    trap_switch a s1 = Ret tt s2 -> quiet c s2 s' -> passes c (S k) s s'.

Lemma tick_wakes c a s s' :
  trapno (frame a s) = T_IRQ0 + IRQ_TIMER -> entry s -> cpunum s = 0 -> (c < length (proc_tab s))%nat -> trap_switch a s = Ret tt s' ->
  ticks s' = u32 (ticks s + 1) /\ me_ s' c = wakeup_one ticks_addr (me_ s c).
Proof.
  intros Ht He Hn Hc E. destruct (timer_switch a s Ht He) as (s1 & E1 & _ & _ & _ & _ & Htk & Hp). rewrite E in E1. injection E1 as <-.
  rewrite Hn in Htk, Hp. split; [done|]. unfold me_. rewrite Hp. cbn [Z.eqb]. unfold wakeup1.
  apply lookup_lt_is_Some_2 in Hc as (q & Hq). rewrite (list_lookup_total_correct _ _ _ Hq). apply list_lookup_total_correct.
  by rewrite list_lookup_fmap, Hq.
Qed.

(** The first of them wakes the process. *)
Lemma passes_wakes c k s s' : passes c k s s' -> waiting c s ->
  u32 (ticks s') = u32 (ticks s + Z.of_nat k) /\
  match k with O => waiting c s' | _ => is_state RUNNABLE (me_ s' c) = true end.
Proof.
  induction 1 as [s s' (Ht & Hs & Hc)|k s s1 a s2 s' Hp IH Hn He Hl Ha E (Ht & Hs & Hc)]; intros Hw.
  - split; [by rewrite Ht, Z.add_0_r|]. destruct Hw. split; congruence.
  - destruct (IH Hw) as [Ht1 Hk]. destruct (tick_wakes c a s1 s2 Ha He Hn Hl E) as [Ht2 Hm]. split.
    + rewrite Ht, Ht2. unfold u32 in *. rewrite Zmod_mod, <- Zplus_mod_idemp_l, Ht1, Zplus_mod_idemp_l. f_equal. lia.
    + unfold is_state. rewrite Hs, Hm. unfold wakeup_one. destruct k as [|k].
      * destruct Hk as [Hst Hch]. unfold is_state. rewrite Hst, Hch, Z.eqb_refl. by rewrite bool_decide_eq_true_2.
      * unfold is_state in Hk |- *. apply bool_decide_eq_true in Hk. rewrite Hk. by rewrite bool_decide_eq_true_2.
Qed.

(** With at least one tick, and at most [most], between two turns of the
    process, or a [kill], the loop ends. *)
Lemma sleep_loop_live c most k t0 n s :
  (forall s, parked c s -> parked c (others s)) ->
  (forall s, parked c s -> waiting c s ->
     (exists j, (1 <= j <= most)%nat /\ passes c j s (others s)) \/
     (is_state RUNNABLE (me_ (others s) c) = true /\ killed (me_ (others s) c) <> 0)) ->
  clock_held c s -> u32 n + Z.of_nat most < 2 ^ 32 ->
  (u32 n - u32 (ticks s - t0) < Z.of_nat k /\ (0 < k)%nat) \/ (killed (me_ s c) <> 0 /\ (0 < k)%nat) ->
  exists r s', sleep_loop ticks_addr others k t0 n s = Ret r s'.
Proof.
  intros Hpk Henv Hs Hm. revert s Hs. induction k as [|k IH]; intros s Hs Hk; [lia|]. cbn [sleep_loop]. unfold bind at 1, reads at 1.
  destruct (release_ticks_run c s Hs) as (s2 & Hrel & _).
  destruct (Z.ltb_spec (u32 (ticks s - t0)) (u32 n)) as [Hlt|]; [|rewrite (bind_ret _ _ _ _ _ Hrel); by eexists _, _].
  rewrite (bind_ret _ _ _ _ _ (curp_run c s ltac:(apply Hs))).
  destruct (Z.eqb_spec (killed (me_ s c)) 0); cbn [negb]; [|rewrite (bind_ret _ _ _ _ _ Hrel); by eexists _, _].
  destruct Hk as [[Hk _]|[]]; [|done]. destruct (sleep_ticks_law c s Hpk Hs) as (s1 & Hp1 & Hw1 & Ht1 & E).
  assert (0 < k)%nat as Hk0 by lia. destruct (Henv s1 Hp1 Hw1) as [(j & Hj & Hps)|[Hr Hkl]].
  - destruct (passes_wakes c j _ _ Hps Hw1) as [Htk Hr]. destruct j as [|j]; [lia|]. rewrite Hr in E. destruct E as (s3 & E & Hs3 & Ht3 & _).
    rewrite (bind_ret _ _ _ _ _ E). apply IH; [done|]. left. split; [|done]. rewrite Ht3.
    assert (u32 (ticks (others s1) - t0) = u32 (ticks s - t0) + Z.of_nat (S j)) as ->; [|lia].
    rewrite Ht1 in Htk. unfold u32 in *. rewrite <- Zminus_mod_idemp_l, Htk, Zminus_mod_idemp_l.
    replace (ticks s + Z.of_nat (S j) - t0) with (ticks s - t0 + Z.of_nat (S j)) by lia. rewrite <- Zplus_mod_idemp_l. apply Z.mod_small.
    pose proof (Z.mod_pos_bound (ticks s - t0) (2 ^ 32)). lia.
  - rewrite Hr in E. destruct E as (s3 & E & Hs3 & Ht3 & Hk3). rewrite (bind_ret _ _ _ _ _ E). apply IH; [done|]. right. by rewrite Hk3.
Qed.

(** C30: [sleep(n)] returns 0 only when at least [n] ticks of the clock, modulo
    [2^32], have passed since the call, and -1 (its argument being readable) only
    when the process was killed; however often it is woken early, it goes back to
    sleep.  It does return when the clock runs: a sleeping process runs again
    only after it has been made runnable, and if between any two turns of it
    the boot CPU handles at least one and at most [most] clock interrupts, whose [wakeup] must
    then be on the channel the process sleeps on, or the process is killed, the call ends after no
    more than [n + 1] tests of the clock, for [n + most < 2^32].  [n] counts as unsigned. *)
Theorem sys_sleep_correct c most n s :
  entry s -> cur s = Some c -> (c < length (proc_tab s))%nat -> argint 0 s = Ret (Some n) s ->
  (forall s, parked c s -> parked c (others s)) ->
  (forall r s', sys_sleep ticks_addr others fuel s = Ret r s' ->
     (r = 0 /\ u32 n <= u32 (ticks s' - ticks s)) \/ (r = -1 /\ killed (proc_tab s' !!! c) <> 0)) /\
  ((forall s, parked c s -> state (proc_tab s !!! c) = SLEEPING ->
      (exists j, (1 <= j <= most)%nat /\ passes c j s (others s)) \/
      (state (proc_tab (others s) !!! c) = RUNNABLE /\ killed (proc_tab (others s) !!! c) <> 0)) ->
   u32 n + Z.of_nat most < 2 ^ 32 -> u32 n < Z.of_nat fuel -> exists r s', sys_sleep ticks_addr others fuel s = Ret r s').
Proof.
  intros ((Hl & Hn) & Hi & Ht) Hc Hlen Ha Henv.
  assert (exists s1, acquire_ticks s = Ret tt s1 /\ clock_held c s1 /\ ticks s1 = ticks s) as (s1 & E1 & Hs1 & Ht1).
  { destruct s as [[[l ps np ip [m i f]] kk] cu cpn t tl fr pr eo po]. unfold this_cpu, proc_tab in *. cbn in *. subst.
    eexists. split; [reflexivity|]. done. }
  assert (sys_sleep ticks_addr others fuel s = sleep_loop ticks_addr others fuel (ticks s) n s1) as E.
  { unfold sys_sleep. rewrite (bind_ret _ _ _ _ _ Ha), (bind_ret _ _ _ _ _ E1). unfold bind, reads. by rewrite Ht1. }
  rewrite E. split; [intros r s'; by apply (sleep_loop_safe c)|]. intros Hw Hm Hf. apply (sleep_loop_live c most); [done | | done | done |].
  - intros s' Hp [Hst Hch]. destruct (Hw s' Hp Hst) as [(j & Hj)|[Hr Hk]]; [left; by exists j | right]. split; [|done].
    unfold is_state. by rewrite bool_decide_eq_true_2.
  - left. rewrite Ht1, Z.sub_diag. change (u32 0) with 0. pose proof (u32_range n). lia.
Qed.
End correct.

(** ** A small machine: one process that runs, woken by every tick *)

#[local] Existing Instance idle_services.
#[local] Instance idle_devices : Devices unit := {
  ideintr := ret tt; kbdintr := ret tt; uartintr := ret tt; rcr2 := fun _ => 0; user_word := fun _ _ _ => 3;
}.

Definition demo_frame (no ax sel : Z) : trapframe := mk_tf 0 0 0 0 0 0 0 ax 0 0 0 0 no 0 0 sel 0 0x1000 0.
Definition demo_tst (no ax sel : Z) : tst unit :=
  mk_tst (mk_kst (mk_ptab false [zero_proc; mk_proc 0x4000 0x80100000 0x8dfff000 RUNNING 7 (Some O) 64 0 0 0 (replicate 16 0) 0 (str "sh" ++ [0]) 0]
                    8 (Some O) (Cli.mk_cpu 0 false false)) tt)
    (Some 1%nat) 0 41 false {[ 64 := demo_frame no ax sel ]} [] 0 [].
Definition no_files : file_calls unit :=
  mk_file_calls _ (ret 0) (ret 0) (ret 0) (ret 0) (ret 0) (ret 0) (ret 0) (ret 0) (ret 0) (ret 0) (ret 0) (ret 0) (ret 0).

(** One clock interrupt on the boot CPU while the process is away. *)
Definition boot_view (s : tst unit) : tst unit :=
  mk_tst (mk_kst (set_plock false (set_me (Cli.mk_cpu 0 false false) (pt (kern s)))) tt) (cur s) 0 (ticks s) false
    {[ 64 := demo_frame 32 0 27 ]} [] 0 [].
Definition tick (s : tst unit) : tst unit :=
  match trap_switch 0x80114000 64 (boot_view s) with
  | Ret _ s2 => set_ticks (ticks s2) (set_kern (mk_kst (set_procs (proc_tab s2) (pt (kern s))) tt) s)
  | _ => s
  end.

Lemma tick_run s :
  exists s2, trap_switch 0x80114000 64 (boot_view s) = Ret tt s2 /\
    tick s = set_ticks (ticks s2) (set_kern (mk_kst (set_procs (proc_tab s2) (pt (kern s))) tt) s) /\
    proc_tab s2 = wakeup1 0x80114000 (proc_tab s).
Proof.
  destruct (timer_switch 0x80114000 64 (boot_view s)) as (s2 & E & _ & _ & _ & _ & _ & Hp); [done | done|].
  exists s2. split; [done|]. split; [unfold tick; by rewrite E|]. rewrite Hp. by destruct s as [[[] ?]].
Qed.

Lemma tick_parked c s : parked c s -> parked c (tick s).
Proof.
  intros ((Hl & Hn & Hi) & Ht & Hc & Hlen). destruct (tick_run s) as (s2 & _ & -> & Hp).
  destruct s as [[[] ?]]. unfold parked, held, proc_tab, wakeup1 in *. cbn in *. rewrite Hp, length_fmap. done.
Qed.

Lemma tick_passes c s : (c < length (proc_tab s))%nat -> passes 0x80114000 c 1 s (tick s).
Proof.
  intros Hc. destruct (tick_run s) as (s2 & E & Ht & _). rewrite Ht.
  assert (proc_tab (boot_view s) = proc_tab s) as Hv by (by destruct s as [[[] ?]]).
  eapply (passes_tick _ _ 0 s (boot_view s) 64 s2); [|done | done | by rewrite Hv | done | done |].
  - apply passes_none. unfold quiet, me_. by rewrite Hv.
  - destruct s as [[[] ?]]. done.
Qed.

Abbreviation demo_trap := (trap 0x80112000 0x80105000 0x80103000 0x80114000 tick 5 no_files).

Lemma killed_never_resumes_witness :
  exists s', demo_trap 64 (demo_tst 64 11 27) = Ret tt s' /\ killed (proc_tab s' !!! 1%nat) = 0 /\ eax (frame 64 s') = 7.
Proof.
  eexists. split; [vm_compute; reflexivity|]. split; [|reflexivity].
  refine (killed_never_resumes 0x80112000 0x80105000 0x80103000 0x80114000 tick 5 no_files 64 (demo_tst 64 11 27) _ 1%nat _ _ _).
  - vm_compute. reflexivity.
  - left. reflexivity.
  - reflexivity.
Defined.

Definition returned {S A} (o : outcome S A) : bool := match o with Ret _ _ => true | _ => false end.

Lemma user_fault_exits_witness : returned (demo_trap 64 (demo_tst 14 0 27)) = false.
Proof.
  destruct (user_fault_exits 0x80112000 0x80105000 0x80103000 0x80114000 tick 5 no_files 64 (demo_tst 14 0 27) 1%nat) as [Hu _].
  - reflexivity.
  - apply Nat.ltb_lt. reflexivity.
  - reflexivity.
  - discriminate.
  - unfold irq. vm_compute. intuition discriminate.
  - destruct (Hu eq_refl) as [_ Hr]. destruct (demo_trap 64 (demo_tst 14 0 27)) as [[] s'| | |]; [|reflexivity..].
    destruct (Hr s' eq_refl).
Defined.


Lemma clock_tick_witness :
  exists s1, ticks s1 = 42 /\ demo_trap 64 (demo_tst 32 0 27) = (yield_ tick ;; exit_if_killed_user 0x80112000 64) s1.
Proof.
  destruct (clock_tick 0x80112000 0x80105000 0x80103000 0x80114000 tick 5 no_files 64 (demo_tst 32 0 27) 1%nat)
    as (s1 & _ & _ & Ht & _ & E & _).
  - reflexivity.
  - repeat split.
  - reflexivity.
  - reflexivity.
  - exists s1. split; [exact Ht | exact (E eq_refl)].
Defined.

Lemma sys_sleep_correct_witness :
  exists r s', sys_sleep 0x80114000 tick 5 (demo_tst 64 13 27) = Ret r s' /\
    ((r = 0 /\ 3 <= u32 (ticks s' - 41)) \/ (r = -1 /\ killed (proc_tab s' !!! 1%nat) <> 0)).
Proof.
  destruct (sys_sleep_correct 0x80114000 tick 5 1 1 3 (demo_tst 64 13 27)) as [Hs Hl].
  - repeat split.
  - reflexivity.
  - apply Nat.ltb_lt. reflexivity.
  - reflexivity.
  - apply tick_parked.
  - destruct Hl as (r & s' & E).
    + intros s Hp _. left. exists 1%nat. split; [split; apply Nat.leb_le; reflexivity|]. apply tick_passes, Hp.
    + apply Z.ltb_lt. reflexivity.
    + apply Z.ltb_lt. reflexivity.
    + exists r, s'. split; [exact E|]. exact (Hs r s' E).
Defined.
