(* ===== verification/Ide.v ===== *)
(** * The IDE disk driver (ide.c)

    The buffers that are with the driver, their queue threaded through
    [qnext], and the disk controller behind its ports.  The controller is a
    class: the operations on its ports, the sectors of its two drives, and what the ATA
    protocol says of a command that is issued when the controller is ready.
    [iderw] is given in two parts, up to its first [sleep] and one turn of its
    loop after it; the result of [ideintr] is the channel it calls [wakeup] on. *)

From S2P Require Import Prelude Bio.

Definition SECTOR_SIZE : Z := 512.
Definition IDE_BSY : Z := 0x80.
Definition IDE_DRDY : Z := 0x40.
Definition IDE_DF : Z := 0x20.
Definition IDE_ERR : Z := 0x01.
Definition IDE_CMD_READ : Z := 0x20.
Definition IDE_CMD_WRITE : Z := 0x30.
Definition IDE_CMD_RDMUL : Z := 0xc4.
Definition IDE_CMD_WRMUL : Z := 0xc5.

(** The test of [idewait]. *)
Definition is_ready (r : Z) : bool := Z.land r (Z.lor IDE_BSY IDE_DRDY) =? IDE_DRDY.

(** The ports: [inb(0x1f7)], [outb], [outsl(0x1f0, ...)] and [insl(0x1f0, ...)]
    of 128 words. *)
Class Ports (D : Type) := {
  inb : D -> Z * D;
  outb : Z -> Z -> D -> D;
  outsl : list Z -> D -> D;
  insl : D -> list Z * D;
}.

Record ibuf := mk_ibuf {
  iflags : Z;
  idev : Z;
  iblockno : Z;
  idata : list Z;
  qnext : option nat;
}.
Definition set_qnext q (b : ibuf) := mk_ibuf (iflags b) (idev b) (iblockno b) (idata b) q.
Definition set_iflags f (b : ibuf) := mk_ibuf f (idev b) (iblockno b) (idata b) (qnext b).
Definition set_idata d (b : ibuf) := mk_ibuf (iflags b) (idev b) (iblockno b) d (qnext b).
#[global] Instance ibuf_inhabited : Inhabited ibuf := populate (mk_ibuf 0 0 0 [] None).

Record ist (D : Type) := mk_ist {
  idelock : bool;
  idequeue : option nat;
  havedisk1 : bool;
  ibufs : list ibuf;
  dsk : D;
}.
Arguments mk_ist {D}.
Arguments idelock {D}.
Arguments idequeue {D}.
Arguments havedisk1 {D}.
Arguments ibufs {D}.
Arguments dsk {D}.

Section driver.
Context {D : Type} `{Ports D}.

Definition set_idelock v (s : ist D) := mk_ist v (idequeue s) (havedisk1 s) (ibufs s) (dsk s).
Definition set_idequeue v (s : ist D) := mk_ist (idelock s) v (havedisk1 s) (ibufs s) (dsk s).
Definition set_havedisk1 v (s : ist D) := mk_ist (idelock s) (idequeue s) v (ibufs s) (dsk s).
Definition set_ibufs v (s : ist D) := mk_ist (idelock s) (idequeue s) (havedisk1 s) v (dsk s).
Definition set_dsk (v : D) (s : ist D) := mk_ist (idelock s) (idequeue s) (havedisk1 s) (ibufs s) v.

Definition acquire_i : M (ist D) unit := fun s =>
  if idelock s then Panic "acquire" else Ret tt (set_idelock true s).
Definition release_i : M (ist D) unit := fun s =>
  if idelock s then Ret tt (set_idelock false s) else Panic "release".

(** The address of buffer [b], the channel its waiters sleep on. *)
Definition chan (b : nat) : Z := Z.of_nat b.

Definition geti (b : nat) : M (ist D) ibuf := fun s =>
  match ibufs s !! b with Some x => Ret x s | None => undefined s end.
Definition updi (b : nat) (f : ibuf -> ibuf) : M (ist D) unit :=
  modify (fun s => set_ibufs (alter f b (ibufs s)) s).

Definition out (port v : Z) : M (ist D) unit := modify (fun s => set_dsk (outb port (u8 v) (dsk s)) s).
Definition inb_1f7 : M (ist D) Z := fun s => let '(r, d) := inb (dsk s) in Ret r (set_dsk d s).

(** How often the status is read before the model gives up. *)
Context (polls : nat).

Fixpoint idewait_loop (fuel : nat) : M (ist D) Z :=
  match fuel with
  | O => hang
  | S fuel => let! r := inb_1f7 in if is_ready r then ret r else idewait_loop fuel
  end.

Definition idewait (checkerr : bool) : M (ist D) Z :=
  let! r := idewait_loop polls in
  if checkerr && negb (Z.land r (Z.lor IDE_DF IDE_ERR) =? 0) then ret (-1) else ret 0.

(** [for(i=0; i<1000; i++) if(inb(0x1f7) != 0)]: is disk 1 there? *)
Fixpoint probe (n : nat) : M (ist D) unit :=
  match n with
  | O => ret tt
  | S n => let! r := inb_1f7 in if negb (r =? 0) then modify (set_havedisk1 true) else probe n
  end.

(** [ioapicenable] is a call to the interrupt controller. *)
Definition ideinit : M (ist D) unit :=
  modify (set_idelock false) ;;
  idewait false ;;
  out 0x1f6 (Z.lor 0xe0 (Z.shiftl 1 4)) ;;
  probe 1000 ;;
  out 0x1f6 (Z.lor 0xe0 (Z.shiftl 0 4)).

Definition idestart (ob : option nat) : M (ist D) unit :=
  match ob with
  | None => panic "idestart"
  | Some b =>
      let! x := geti b in
      if FSSIZE <=? iblockno x then panic "incorrect blockno"
      else
        let sector_per_block := Z.of_nat BSIZE / SECTOR_SIZE in
        let sector := i32 (iblockno x * sector_per_block) in
        let read_cmd := if sector_per_block =? 1 then IDE_CMD_READ else IDE_CMD_RDMUL in
        let write_cmd := if sector_per_block =? 1 then IDE_CMD_WRITE else IDE_CMD_WRMUL in
        if 7 <? sector_per_block then panic "idestart"
        else
          idewait false ;;
          out 0x3f6 0 ;;
          out 0x1f2 sector_per_block ;;
          out 0x1f3 (Z.land sector 0xff) ;;
          out 0x1f4 (Z.land (Z.shiftr sector 8) 0xff) ;;
          out 0x1f5 (Z.land (Z.shiftr sector 16) 0xff) ;;
          out 0x1f6 (Z.lor (Z.lor 0xe0 (Z.shiftl (Z.land (idev x) 1) 4)) (Z.land (Z.shiftr sector 24) 0x0f)) ;;
          if is_dirty (iflags x) then
            out 0x1f7 write_cmd ;;
            modify (fun s => set_dsk (outsl (idata x) (dsk s)) s)
          else out 0x1f7 read_cmd
  end.

Definition ideintr : M (ist D) (option Z) :=
  acquire_i ;;
  let! q := reads idequeue in
  match q with
  | None => release_i ;; ret None
  | Some b =>
      let! x := geti b in
      modify (set_idequeue (qnext x)) ;;
      (if negb (is_dirty (iflags x)) then
         let! r := idewait true in
         when (0 <=? r)
           (fun s => let '(d, ds) := insl (dsk s) in updi b (set_idata d) (set_dsk ds s))
       else ret tt) ;;
      updi b (fun x => set_iflags (Z.lor (iflags x) B_VALID) x) ;;
      updi b (fun x => set_iflags (clear_dirty (iflags x)) x) ;;
      let! q := reads idequeue in
      when (bool_decide (q <> None)) (idestart q) ;;
      release_i ;;
      ret (Some (chan b))
  end.

(** [pp]: the address of [idequeue], or of the [qnext] of a buffer. *)
Inductive link := Head | Next (b : nat).
Definition deref (pp : link) : M (ist D) (option nat) :=
  match pp with Head => reads idequeue | Next b => let! x := geti b in ret (qnext x) end.
Definition assign (pp : link) (v : option nat) : M (ist D) unit :=
  match pp with Head => modify (set_idequeue v) | Next b => updi b (set_qnext v) end.

(** The search for the link at the end of the queue. *)
Fixpoint last_link (fuel : nat) (pp : link) : M (ist D) link :=
  match fuel with
  | O => hang
  | S fuel =>
      let! q := deref pp in
      match q with None => ret pp | Some b => last_link fuel (Next b) end
  end.

(** One turn of [while((b->flags & (B_VALID|B_DIRTY)) != B_VALID) sleep(b,
    &idelock)], with the lock held; [sleep] releases it. *)
Definition iderw_loop (b : nat) : M (ist D) unit :=
  let! x := geti b in
  if negb (clean_valid (iflags x)) then fun s => Sleep (chan b) (set_idelock false s)
  else release_i.

(** [held] is the value of [holdingsleep(&b->lock)]. *)
Definition iderw (held : bool) (b : nat) : M (ist D) unit :=
  if negb held then panic "iderw: buf not locked"
  else
    let! x := geti b in
    if clean_valid (iflags x) then panic "iderw: nothing to do"
    else
      let! h := reads havedisk1 in
      if negb (idev x =? 0) && negb h then panic "iderw: ide disk 1 not present"
      else
        acquire_i ;;
        updi b (set_qnext None) ;;
        let! n := reads (fun s => length (ibufs s)) in
        let! pp := last_link (S n) Head in
        assign pp (Some b) ;;
        let! q := reads idequeue in
        when (bool_decide (q = Some b)) (idestart (Some b)) ;;
        iderw_loop b.

(** After [sleep] has taken the lock again. *)
Definition iderw_resume (b : nat) : M (ist D) unit := acquire_i ;; iderw_loop b.
End driver.

(** ** What the controller does

    [content] is what the sectors of the two drives hold, [reading] the sector a read
    command has been issued for.  Commands are issued just after a status that
    says ready.  A read may fail, and the status then has [IDE_DF] or
    [IDE_ERR]; nothing is assumed of the data in that case.  A write is
    assumed to be carried out: the driver never looks at its status. *)

Definition is_error (r : Z) : bool := negb (Z.land r (Z.lor IDE_DF IDE_ERR) =? 0).

(** The writes that select [sector] of [drive]. *)
Definition select {D} `{Ports D} (drive sector : Z) (d : D) : D :=
  outb 0x1f6 (Z.lor (Z.lor 0xe0 (Z.shiftl drive 4)) (Z.land (Z.shiftr sector 24) 0x0f))
    (outb 0x1f5 (Z.land (Z.shiftr sector 16) 0xff)
      (outb 0x1f4 (Z.land (Z.shiftr sector 8) 0xff)
        (outb 0x1f3 (Z.land sector 0xff) (outb 0x1f2 1 (outb 0x3f6 0 d))))).

Fixpoint poll {D} `{Ports D} (n : nat) (d : D) : D :=
  match n with O => d | S n => poll n (snd (inb d)) end.

Class Controller (D : Type) `{Ports D} := {
  content : D -> Z -> Z -> list Z;
  reading : D -> option (Z * Z);
  max_polls : nat;
  content_len d dr se : length (content d dr se) = BSIZE;
  inb_content d : content (snd (inb d)) = content d;
  inb_reading d : reading (snd (inb d)) = reading d;
  inb_ready d : exists n, (n < max_polls)%nat /\ is_ready (fst (inb (poll n d))) = true;
  write_command d drive sector data dr se :
    is_ready (fst (inb d)) = true -> 0 <= drive < 2 -> 0 <= sector < 2 ^ 28 -> length data = BSIZE ->
    content (outsl data (outb 0x1f7 IDE_CMD_WRITE (select drive sector (snd (inb d))))) dr se =
      if decide (dr = drive /\ se = sector) then data else content d dr se;
  read_command d drive sector :
    is_ready (fst (inb d)) = true -> 0 <= drive < 2 -> 0 <= sector < 2 ^ 28 ->
    let d' := outb 0x1f7 IDE_CMD_READ (select drive sector (snd (inb d))) in
    content d' = content d /\ reading d' = Some (drive, sector);
  read_data d dr se :
    is_ready (fst (inb d)) = true -> is_error (fst (inb d)) = false -> reading d = Some (dr, se) ->
    let '(l, d') := insl (snd (inb d)) in l = content d dr se /\ content d' = content d;
}.
