(* ===== verification/IdeSafe.v ===== *)
(** * Correctness of the IDE driver

    Processes that call [iderw] on buffers they have locked, interrupts at any
    time and the controller, in every interleaving.  Every history of calls,
    completions and changes of buffers is one of a specification in which
    requests are served in the order of the calls and a request is one atomic
    transfer; a read for which the drive reports an error leaves the buffer as
    it was, and valid.  No request and no wakeup is lost. *)

From S2P Require Import Prelude Bio Ide.

Section ide.
Context {D : Type} `{Ports D} `{!Controller D}.

Abbreviation idewait := (idewait max_polls).
Abbreviation idestart := (idestart max_polls).
Abbreviation ideintr := (ideintr max_polls).
Abbreviation iderw := (iderw max_polls).

(** ** The controller's steps *)

Lemma idewait_loop_law fuel n s :
  (n < fuel)%nat -> is_ready (fst (inb (poll n (dsk s)))) = true ->
  exists d, is_ready (fst (inb d)) = true /\ content d = content (dsk s) /\ reading d = reading (dsk s) /\
    idewait_loop fuel s = Ret (fst (inb d)) (set_dsk (snd (inb d)) s).
Proof.
  revert n s. induction fuel as [|fuel IH]; intros n s Hn Hr; [lia|]. cbn [idewait_loop]. unfold bind, inb_1f7.
  destruct (is_ready (fst (inb (dsk s)))) eqn:E; destruct (inb (dsk s)) as [r d1] eqn:Ei; cbn [fst snd] in E; rewrite E.
  - exists (dsk s). by rewrite Ei.
  - destruct n as [|n]; [cbn in Hr; rewrite Ei in Hr; cbn in Hr; congruence|]. cbn [poll] in Hr. rewrite Ei in Hr. cbn [snd] in Hr.
    destruct (IH n (set_dsk d1 s) ltac:(lia) Hr) as (d & H1 & H2 & H3 & H4). exists d. split; [done|].
    cbn [dsk set_dsk] in H2, H3. pose proof (inb_content (dsk s)) as Hc. pose proof (inb_reading (dsk s)) as Hg.
    rewrite Ei in Hc, Hg. cbn in Hc, Hg. split_and!; [congruence | congruence|]. exact H4.
Qed.

Lemma idewait_law ce s :
  exists d, is_ready (fst (inb d)) = true /\ content d = content (dsk s) /\ reading d = reading (dsk s) /\
    idewait ce s = Ret (if ce && is_error (fst (inb d)) then -1 else 0) (set_dsk (snd (inb d)) s).
Proof.
  destruct (inb_ready (dsk s)) as (n & Hn & Hr). destruct (idewait_loop_law max_polls n s Hn Hr) as (d & H1 & H2 & H3 & H4).
  exists d. split_and!; try done. unfold Ide.idewait. rewrite (bind_ret _ _ _ _ _ H4). fold (is_error (fst (inb d))).
  by destruct (ce && is_error _).
Qed.

Definition ok_buf (x : ibuf) : Prop := 0 <= iblockno x < FSSIZE /\ 0 <= idev x < 2 /\ length (idata x) = BSIZE.
Definition drive (x : ibuf) : Z := Z.land (idev x) 1.

(** The controller has been given the request of [x]. *)
Definition issued (d : D) (x : ibuf) : Prop :=
  if is_dirty (iflags x) then content d (drive x) (iblockno x) = idata x else reading d = Some (drive x, iblockno x).

(** The sectors after the write of [x], or as they were. *)
Definition written (x : ibuf) (c : Z -> Z -> list Z) (dr se : Z) : list Z :=
  if is_dirty (iflags x) then if decide (dr = drive x /\ se = iblockno x) then idata x else c dr se else c dr se.

Lemma u8_land x : u8 (Z.land x 0xff) = Z.land x 0xff.
Proof. unfold u8. change 0xff with (Z.ones 8). rewrite Z.land_ones by lia. rewrite Z.mod_mod; lia. Qed.

Lemma drive_range x : 0 <= drive x < 2.
Proof. unfold drive. change 1 with (Z.ones 1). rewrite Z.land_ones by lia. apply Z.mod_pos_bound. lia. Qed.

(** The six writes before a command. *)
Lemma select_law {A} x sector s (k : M (ist D) A) :
  (out 0x3f6 0 ;; out 0x1f2 1 ;; out 0x1f3 (Z.land sector 0xff) ;; out 0x1f4 (Z.land (Z.shiftr sector 8) 0xff) ;;
   out 0x1f5 (Z.land (Z.shiftr sector 16) 0xff) ;;
   out 0x1f6 (Z.lor (Z.lor 0xe0 (Z.shiftl (drive x) 4)) (Z.land (Z.shiftr sector 24) 0x0f)) ;; k) s =
  k (set_dsk (select (drive x) sector (dsk s)) s).
Proof.
  unfold bind, out, modify, select. cbn [dsk set_dsk]. rewrite !u8_land. change (u8 0) with 0. change (u8 1) with 1.
  assert (u8 (Z.lor (Z.lor 0xe0 (Z.shiftl (drive x) 4)) (Z.land (Z.shiftr sector 24) 0x0f)) =
    Z.lor (Z.lor 0xe0 (Z.shiftl (drive x) 4)) (Z.land (Z.shiftr sector 24) 0x0f)) as ->; [|done].
  unfold u8. rewrite <- Z.land_ones by lia. rewrite Z.land_lor_distr_l. f_equal.
  - pose proof (drive_range x). assert (drive x = 0 \/ drive x = 1) as [->| ->] by lia; done.
  - rewrite <- Z.land_assoc. done.
Qed.

Lemma idestart_law b x s :
  ibufs s !! b = Some x -> ok_buf x ->
  exists d', idestart (Some b) s = Ret tt (set_dsk d' s) /\ issued d' x /\
    forall dr se, content d' dr se = written x (content (dsk s)) dr se.
Proof.
  intros Hb (Hn & Hd & Hl). unfold Ide.idestart. unfold bind at 1, geti. rewrite Hb.
  rewrite (proj2 (Z.leb_gt _ _)) by lia. change (Z.of_nat BSIZE / SECTOR_SIZE) with 1. cbv zeta.
  change (1 =? 1) with true. change (7 <? 1) with false. cbn iota.
  assert (i32 (iblockno x * 1) = iblockno x) as -> by (rewrite Z.mul_1_r; apply i32_small; unfold FSSIZE in *; lia).
  destruct (idewait_law false s) as (d & Hr & Hc & _ & E). cbn [andb] in E. rewrite (bind_ret _ _ _ _ _ E). fold (drive x). rewrite select_law.
  pose proof (drive_range x) as Hdr. assert (0 <= iblockno x < 2 ^ 28) as Hs by (unfold FSSIZE in *; lia).
  unfold issued, written. destruct (is_dirty (iflags x)).
  - eexists. split; [reflexivity|]. change (u8 IDE_CMD_WRITE) with IDE_CMD_WRITE. cbn [dsk set_dsk].
    split; [|intros dr se]; rewrite (write_command d (drive x) (iblockno x) (idata x)) by done; [by rewrite decide_True|].
    by rewrite Hc.
  - destruct (read_command d (drive x) (iblockno x) Hr Hdr Hs) as [Hc' Hr'].
    eexists. split; [reflexivity|]. change (u8 IDE_CMD_READ) with IDE_CMD_READ. cbn [dsk set_dsk].
    split; [exact Hr'|]. intros dr se. by rewrite Hc', Hc.
Qed.

(** ** The queue *)

Fixpoint chain (bs : list ibuf) (q : option nat) (l : list nat) : Prop :=
  match l with
  | [] => q = None
  | b :: l => q = Some b /\ exists x, bs !! b = Some x /\ chain bs (qnext x) l
  end.

Lemma chain_lt bs q l : chain bs q l -> forall b, b ∈ l -> (b < length bs)%nat.
Proof.
  revert q. induction l as [|c l IH]; intros q; [by intros _ b ?%elem_of_nil|].
  intros (_ & x & Hx & Hc) b [->|Hb]%elem_of_cons; [by apply lookup_lt_Some in Hx | by apply (IH _ Hc)].
Qed.

(** Links outside the queue do not matter, nor does anything but links. *)
Lemma chain_ext bs bs' q l :
  (forall b x, b ∈ l -> bs !! b = Some x -> exists x', bs' !! b = Some x' /\ qnext x' = qnext x) -> chain bs q l -> chain bs' q l.
Proof.
  revert q. induction l as [|c l IH]; intros q Hb; [done|]. intros (-> & x & Hx & Hc). split; [done|].
  destruct (Hb c x ltac:(by left) Hx) as (x' & Hx' & Hq). exists x'. split; [done|]. rewrite Hq.
  apply IH; [|done]. intros b y Hy. apply Hb. by right.
Qed.

Definition end_of (pp : link) (l : list nat) : link := match last l with None => pp | Some b => Next b end.

Lemma last_link_law fuel pp q l (s : ist D) :
  deref pp s = Ret q s -> chain (ibufs s) q l -> (length l < fuel)%nat -> last_link fuel pp s = Ret (end_of pp l) s.
Proof.
  revert pp q l. induction fuel as [|fuel IH]; intros pp q l Hd Hc Hf; [lia|]. cbn [last_link]. rewrite (bind_ret _ _ _ _ _ Hd).
  destruct l as [|b l]; [by rewrite Hc|]. destruct Hc as (-> & x & Hx & Hc).
  rewrite (IH (Next b) (qnext x) l); [ | | done | cbn in Hf; lia].
  - unfold end_of. destruct l as [|c l]; [done|]. change (last (b :: c :: l)) with (last (c :: l)).
    destruct (last (c :: l)) eqn:El; [done|]. by apply last_None in El.
  - cbn [deref]. unfold bind, geti. by rewrite Hx.
Qed.

Lemma chain_snoc bs q l b x pp :
  chain bs q l -> NoDup (l ++ [b]) -> bs !! b = Some x -> qnext x = None -> pp = last l ->
  chain (match pp with None => bs | Some c => alter (set_qnext (Some b)) c bs end)
    (match pp with None => Some b | Some _ => q end) (l ++ [b]).
Proof.
  intros Hc Hnd Hb Hq ->. revert q Hc. induction l as [|c l IH]; intros q Hc.
  - cbn. split; [done|]. by exists x.
  - destruct Hc as (-> & y & Hy & Hc). destruct l as [|d l].
    + cbn. split; [done|]. exists (set_qnext (Some b) y). rewrite list_lookup_alter_eq, Hy. split; [done|].
      cbn. split; [done|]. exists x. split; [|done]. rewrite list_lookup_alter_ne; [done|].
      intros ->. apply NoDup_cons in Hnd as [Hnd _]. apply Hnd. by left.
    + apply NoDup_cons in Hnd as [Hni Hnd]. specialize (IH Hnd (qnext y) Hc).
      assert (exists e, last (d :: l) = Some e /\ e ∈ d :: l) as (e & He & Hel).
      { destruct (last (d :: l)) as [e|] eqn:E; [|by apply last_None in E]. exists e. split; [done|]. by apply last_Some_elem_of. }
      change (last (c :: d :: l)) with (last (d :: l)). rewrite He in *. cbn [app chain] in *. split; [done|].
      exists y. split; [|done]. rewrite list_lookup_alter_ne; [done|]. intros ->. apply Hni. by apply (elem_of_app (d :: l) [b]); left.
Qed.
(** ** Processes and interrupts *)

(** A process outside the driver; asleep on a channel in a call for [b]; or
    woken and not yet run. *)
Inductive pstat := PFree | PAsleep (b : nat) (ch : Z) | PWoken (b : nat).

Record iworld := mk_iworld { drv : ist D; pst : list pstat }.

Definition waits (b : nat) (p : pstat) : Prop := (exists ch, p = PAsleep b ch) \/ p = PWoken b.
Definition unused (b : nat) (w : iworld) : Prop := forall i p, pst w !! i = Some p -> ~ waits b p.

(** [wakeup] on a channel *)
Definition wake (r : option Z) (l : list pstat) : list pstat :=
  (fun p => match p with PAsleep b ch => if decide (r = Some ch) then PWoken b else p | p => p end) <$> l.

(** What can be seen of a run: the calls, the completions with what the drive
    reported, and the changes of buffers outside the driver. *)
Inductive ev := Call (b : nat) | Done (b : nat) (ok : bool) | Edit (b : nat) (x : ibuf).

(** What [idewait(1)] says of a read; a write is not checked. *)
Definition reported (b : nat) (s : ist D) : bool :=
  match ibufs s !! b with
  | Some x => is_dirty (iflags x) || match idewait true s with Ret r _ => 0 <=? r | _ => false end
  | None => false
  end.
Definition completes (r : option Z) (s : ist D) : list ev :=
  match r with Some ch => [Done (Z.to_nat ch) (reported (Z.to_nat ch) s)] | None => [] end.

(** [i_call] and [i_edit] are the business of the process that has locked the
    buffer; a sleeping process may also be woken by [kill]. *)
Inductive istep : iworld -> list ev -> iworld -> Prop :=
| i_call w i b ch s' :
    pst w !! i = Some PFree -> unused b w -> iderw true b (drv w) = Sleep ch s' ->
    istep w [Call b] (mk_iworld s' (<[i := PAsleep b ch]> (pst w)))
| i_again w i b ch s' :
    pst w !! i = Some (PWoken b) -> iderw_resume b (drv w) = Sleep ch s' ->
    istep w [] (mk_iworld s' (<[i := PAsleep b ch]> (pst w)))
| i_return w i b s' :
    pst w !! i = Some (PWoken b) -> iderw_resume b (drv w) = Ret tt s' ->
    istep w [] (mk_iworld s' (<[i := PFree]> (pst w)))
| i_intr w r s' :
    ideintr (drv w) = Ret r s' -> istep w (completes r (drv w)) (mk_iworld s' (wake r (pst w)))
| i_signal w i b ch :
    pst w !! i = Some (PAsleep b ch) -> istep w [] (mk_iworld (drv w) (<[i := PWoken b]> (pst w)))
| i_edit w b x :
    unused b w -> (b < length (ibufs (drv w)))%nat -> ok_buf x ->
    istep w [Edit b x] (mk_iworld (set_ibufs (alter (fun y => set_qnext (qnext y) x) b (ibufs (drv w))) (drv w)) (pst w)).

Definition initial (w : iworld) : Prop :=
  idelock (drv w) = false /\ idequeue (drv w) = None /\ havedisk1 (drv w) = true /\
  Forall ok_buf (ibufs (drv w)) /\ Forall (eq PFree) (pst w).

(** ** The specification

    Calls queue up; the first one is served in one internal step, and its
    completion follows, again in the order of the calls. *)

Record sworld := mk_sworld { sdisk : Z -> Z -> list Z; sbuf : list ibuf; todo : list nat; served : list (nat * bool) }.

Definition done_ (x : ibuf) : ibuf := set_iflags (clear_dirty (Z.lor (iflags x) B_VALID)) x.
(** A read that fails leaves the data. *)
Definition transfer (ok : bool) (c : Z -> Z -> list Z) (x : ibuf) : ibuf :=
  if is_dirty (iflags x) || negb ok then done_ x else done_ (set_idata (c (drive x) (iblockno x)) x).

Inductive sstep : sworld -> list ev -> sworld -> Prop :=
| s_call a b x :
    b ∉ todo a -> sbuf a !! b = Some x -> clean_valid (iflags x) = false ->
    sstep a [Call b] (mk_sworld (sdisk a) (sbuf a) (todo a ++ [b]) (served a))
| s_serve a b x l ok :
    todo a = b :: l -> sbuf a !! b = Some x -> (is_dirty (iflags x) = true -> ok = true) ->
    sstep a [] (mk_sworld (written x (sdisk a)) (<[b := transfer ok (sdisk a) x]> (sbuf a)) l (served a ++ [(b, ok)]))
| s_done a b ok l :
    served a = (b, ok) :: l -> sstep a [Done b ok] (mk_sworld (sdisk a) (sbuf a) (todo a) l)
| s_edit a b x :
    b ∉ todo a -> b ∉ (served a).*1 -> ok_buf x ->
    sstep a [Edit b x] (mk_sworld (sdisk a) (<[b := set_qnext None x]> (sbuf a)) (todo a) (served a)).

(** ** The invariant *)

Record inv (w : iworld) (l : list nat) : Prop := {
  v_lock : idelock (drv w) = false;
  v_disk1 : havedisk1 (drv w) = true;
  v_chain : chain (ibufs (drv w)) (idequeue (drv w)) l;
  v_nodup : NoDup l;
  v_ok : Forall ok_buf (ibufs (drv w));
  v_busy b x : b ∈ l -> ibufs (drv w) !! b = Some x -> clean_valid (iflags x) = false;
  v_owner b : b ∈ l -> exists i p, pst w !! i = Some p /\ waits b p;
  v_asleep i b ch : pst w !! i = Some (PAsleep b ch) -> b ∈ l /\ ch = chan b;
  v_woken i b : pst w !! i = Some (PWoken b) ->
    b ∈ l \/ exists x, ibufs (drv w) !! b = Some x /\ clean_valid (iflags x) = true;
  v_head b x : head l = Some b -> ibufs (drv w) !! b = Some x -> issued (dsk (drv w)) x;
}.

Lemma clean_done f : clean_valid (clear_dirty (Z.lor f B_VALID)) = true.
Proof.
  unfold clean_valid, clear_dirty. apply Z.eqb_eq. rewrite <- Z.land_assoc. change (Z.land (Z.lnot B_DIRTY) (Z.lor B_VALID B_DIRTY)) with B_VALID.
  rewrite Z.land_lor_distr_l. change (Z.land B_VALID B_VALID) with 2. unfold B_VALID. apply Z.bits_inj'. intros n Hn.
  rewrite Z.lor_spec, Z.land_spec. destruct (Z.testbit 2 n), (Z.testbit f n); done.
Qed.

(** *** Taking a request *)

Lemma unused_not_queued w l b : inv w l -> unused b w -> b ∉ l.
Proof. intros I Hu Hb. destruct (v_owner _ _ I b Hb) as (i & p & Hi & Hp). exact (Hu i p Hi Hp). Qed.

Lemma iderw_law w l b x :
  inv w l -> unused b w -> ibufs (drv w) !! b = Some x -> clean_valid (iflags x) = false ->
  exists d' bs q, iderw true b (drv w) = Sleep (chan b) (mk_ist false q true bs d') /\
    chain bs q (l ++ [b]) /\ NoDup (l ++ [b]) /\ length bs = length (ibufs (drv w)) /\
    (forall c y, ibufs (drv w) !! c = Some y -> exists n, bs !! c = Some (set_qnext n y)) /\
    match l with
    | [] => issued d' x /\ forall dr se, content d' dr se = written x (content (dsk (drv w))) dr se
    | _ => d' = dsk (drv w)
    end.
Proof.
  intros I Hu Hb Hcv. assert (b ∉ l) as Hni by (by apply (unused_not_queued w)).
  destruct I as [Hlk Hd1 Hch Hnd Hok _ _ _ _ _]. destruct w as [s ps]. cbn [drv] in *.
  unfold Ide.iderw. cbn [negb]. unfold bind at 1, geti. rewrite Hb, Hcv. unfold bind at 1, reads. rewrite Hd1, andb_false_r.
  unfold bind at 1, acquire_i. rewrite Hlk. unfold bind at 1, updi, modify. unfold bind at 1.
  set (s1 := set_ibufs _ _). assert (ibufs s1 = alter (set_qnext None) b (ibufs s)) as Hs1 by done.
  assert (chain (ibufs s1) (idequeue s) l) as Hch1.
  { eapply chain_ext; [|exact Hch]. intros c y Hc Hy. exists y. rewrite Hs1, list_lookup_alter_ne by (by intros ->). done. }
  assert (NoDup (l ++ [b])) as Hnd1.
  { apply NoDup_app. split_and!; [done | | apply NoDup_singleton]. by intros c Hc ->%list_elem_of_singleton. }
  assert (ibufs s1 !! b = Some (set_qnext None x)) as Hb1 by (rewrite Hs1, list_lookup_alter_eq; by rewrite Hb).
  assert (length l <= length (ibufs s1))%nat as Hll.
  { rewrite <- (length_seq (length (ibufs s1)) 0). apply submseteq_length, NoDup_submseteq; [done|].
    intros c Hc. apply elem_of_seq. pose proof (chain_lt _ _ _ Hch1 c Hc). lia. }
  rewrite (bind_ret _ _ _ _ _ (last_link_law (S (length (ibufs s1))) Head (idequeue s) l s1 ltac:(done) Hch1 ltac:(lia))).
  pose proof (chain_snoc _ _ l b _ _ Hch1 Hnd1 Hb1 eq_refl eq_refl) as Hch2. unfold end_of.
  destruct l as [|h l].
  - cbn [last assign] in *. unfold bind at 1, modify. unfold bind at 1. cbn [idequeue set_idequeue]. rewrite bool_decide_eq_true_2 by done. cbn [when].
    destruct (idestart_law b (set_qnext None x) (set_idequeue (Some b) s1)) as (d' & E & Hi & Hc); [done | exact (Forall_lookup_1 _ _ _ _ Hok Hb)|].
    rewrite (bind_ret _ _ _ _ _ E). unfold iderw_loop, bind, geti. cbn [ibufs set_dsk set_idequeue]. rewrite Hb1. cbn [iflags set_qnext]. rewrite Hcv.
    eexists d', (ibufs s1), (Some b). cbn [negb]. split.
    { transitivity (Sleep (A := unit) (chan b) (mk_ist false (Some b) (havedisk1 s) (ibufs s1) d')); [reflexivity | by rewrite Hd1]. }
    split_and!; try done; [by rewrite Hs1, length_alter|]. intros c y Hy. rewrite Hs1. destruct (decide (b = c)) as [->|].
    + rewrite list_lookup_alter_eq, Hy. by eexists.
    + rewrite list_lookup_alter_ne, Hy by done. exists (qnext y). by destruct y.
  - destruct (last (h :: l)) as [e|] eqn:El; [|by apply last_None in El]. cbn [assign]. unfold bind at 1, updi, modify. unfold bind at 1.
    assert (idequeue s = Some h) as Hq by apply Hch. cbn [idequeue set_ibufs set_idelock s1]. rewrite Hq.
    rewrite bool_decide_eq_false_2 by (intros [= ->]; apply Hni; by left). cbn [when].
    assert (e <> b) as Hne by (intros ->; apply Hni; by apply last_Some_elem_of).
    unfold bind at 1, ret. unfold iderw_loop, bind, geti. cbn [ibufs set_ibufs].
    rewrite list_lookup_alter_ne, Hb1 by done. cbn [iflags set_qnext]. rewrite Hcv. cbn [negb].
    eexists (dsk s), (alter (set_qnext (Some b)) e (ibufs s1)), (Some h). split.
    { transitivity (Sleep (A := unit) (chan b) (mk_ist false (idequeue s) (havedisk1 s) (alter (set_qnext (Some b)) e (ibufs s1)) (dsk s)));
        [reflexivity | by rewrite Hd1, Hq]. }
    rewrite Hq in Hch2. split_and!; try done; [by rewrite Hs1, !length_alter|]. intros c y Hy. rewrite Hs1.
    destruct (decide (e = c)) as [->|]; [rewrite list_lookup_alter_eq | rewrite list_lookup_alter_ne by done].
    all: destruct (decide (b = c)) as [->|]; [rewrite list_lookup_alter_eq | rewrite list_lookup_alter_ne by done]; rewrite Hy.
    all: first [by eexists | by exists (qnext y); destruct y].
Qed.
(** The same, from the outcome. *)
Lemma call_law w l b ch s' :
  inv w l -> unused b w -> iderw true b (drv w) = Sleep ch s' ->
  ch = chan b /\ exists x, ibufs (drv w) !! b = Some x /\ clean_valid (iflags x) = false /\
    idelock s' = false /\ havedisk1 s' = true /\ chain (ibufs s') (idequeue s') (l ++ [b]) /\ NoDup (l ++ [b]) /\
    (forall c y, ibufs (drv w) !! c = Some y -> exists n, ibufs s' !! c = Some (set_qnext n y)) /\
    (forall c y, ibufs s' !! c = Some y -> exists z n, ibufs (drv w) !! c = Some z /\ y = set_qnext n z) /\
    match l with
    | [] => issued (dsk s') x /\ forall dr se, content (dsk s') dr se = written x (content (dsk (drv w))) dr se
    | _ => dsk s' = dsk (drv w)
    end.
Proof.
  intros I Hu Hs. assert (exists x, ibufs (drv w) !! b = Some x /\ clean_valid (iflags x) = false) as (x & Hx & Hcv).
  { unfold Ide.iderw, bind, geti in Hs. cbn [negb] in Hs. destruct (ibufs (drv w) !! b) as [x|]; [|done]. exists x. split; [done|]. by destruct (clean_valid _). }
  destruct (iderw_law w l b x I Hu Hx Hcv) as (d' & bs & q & E & Hch & Hnd & Hlen & Hbs & Hd). rewrite E in Hs. injection Hs as <- <-.
  split; [done|]. exists x. split_and!; try done. cbn. intros c y Hy.
  destruct (lookup_lt_is_Some_2 (ibufs (drv w)) c) as (z & Hz); [rewrite <- Hlen; by apply lookup_lt_Some in Hy|].
  destruct (Hbs c z Hz) as (n & Hn). rewrite Hn in Hy. injection Hy as <-. by exists z, n.
Qed.

(** *** Serving a request *)

Lemma alter_insert_at {A} (f : A -> A) (l : list A) i x : l !! i = Some x -> alter f i l = <[i := f x]> l.
Proof.
  intros Hx. apply list_eq. intros j. destruct (decide (i = j)) as [->|].
  - rewrite list_lookup_alter_eq, Hx, list_lookup_insert_eq; [done | by apply lookup_lt_Some in Hx].
  - by rewrite list_lookup_alter_ne, list_lookup_insert_ne.
Qed.

Lemma ideintr_none w : inv w [] -> ideintr (drv w) = Ret None (drv w).
Proof.
  intros [Hlk _ Hch _ _ _ _ _ _ _]. destruct w as [[lk q h bs d] ps]. cbn in *. subst. done.
Qed.

(** What is reported depends on the controller only. *)
Lemma idewait_loop_same fuel : forall s s' : ist D, dsk s = dsk s' ->
  match idewait_loop fuel s with
  | Ret r t => exists t', idewait_loop fuel s' = Ret r t'
  | Hang => idewait_loop fuel s' = Hang
  | _ => True
  end.
Proof.
  induction fuel as [|fuel IH]; intros s s' Hd; [done|]. cbn [idewait_loop]. unfold bind, inb_1f7. rewrite <- Hd.
  destruct (inb (dsk s)) as [r d]. destruct (is_ready r); [by eexists|]. by apply IH.
Qed.

Lemma reported_same b s s' : dsk s = dsk s' -> ibufs s = ibufs s' -> reported b s = reported b s'.
Proof.
  intros Hd Hb. unfold reported. rewrite Hb. destruct (ibufs s' !! b) as [x|]; [|done]. f_equal. unfold Ide.idewait, bind.
  pose proof (idewait_loop_same max_polls s s' Hd) as Hl. pose proof (idewait_loop_same max_polls s' s (eq_sym Hd)) as Hr.
  destruct (idewait_loop max_polls s) as [r t| | |]; [destruct Hl as [t' ->]; by destruct (true && _)| | |by rewrite Hl];
    destruct (idewait_loop max_polls s') as [r' t'| | |]; try done; by destruct Hr as [t'' [=]].
Qed.

(** The transfer of the first request, before the next one is started. *)
Lemma ideintr_head s b x {A} (k : M (ist D) A) :
  ibufs s !! b = Some x -> issued (dsk s) x ->
  exists d, content d = content (dsk s) /\
    ((if negb (is_dirty (iflags x)) then
        let! r := idewait true in
        when (0 <=? r) (fun s => let '(d, ds) := insl (dsk s) in updi b (set_idata d) (set_dsk ds s))
      else ret tt) ;;
     updi b (fun x => set_iflags (Z.lor (iflags x) B_VALID) x) ;;
     updi b (fun x => set_iflags (clear_dirty (iflags x)) x) ;; k) s =
    k (mk_ist (idelock s) (idequeue s) (havedisk1 s) (<[b := transfer (reported b s) (content (dsk s)) x]> (ibufs s)) d).
Proof.
  intros Hb Hi. pose proof (lookup_lt_Some _ _ _ Hb) as Hlt. unfold issued in Hi. unfold transfer, reported. rewrite Hb.
  destruct (is_dirty (iflags x)) eqn:Ed; cbn [negb orb].
  - exists (dsk s). split; [done|]. unfold bind, updi, modify, ret. cbn [ibufs set_ibufs].
    rewrite (alter_insert_at _ _ b x Hb), (alter_insert_at _ _ b _ (list_lookup_insert_eq _ _ _ Hlt)), list_insert_insert_eq. by destruct s.
  - destruct (idewait_law true s) as (d & Hr & Hc & Hg & E). rewrite E. cbn [andb] in E |- *. destruct (is_error (fst (inb d))) eqn:Ee.
    + exists (snd (inb d)). split; [by rewrite inb_content|]. unfold bind at 1. rewrite (bind_ret _ _ _ _ _ E). change (0 <=? -1) with false. cbn [when negb].
      unfold bind, updi, modify, ret. cbn [ibufs set_ibufs set_dsk].
      rewrite (alter_insert_at _ _ b x Hb), (alter_insert_at _ _ b _ (list_lookup_insert_eq _ _ _ Hlt)), list_insert_insert_eq. by destruct s.
    + pose proof (read_data d (drive x) (iblockno x) Hr Ee (eq_trans Hg Hi)) as Hrd.
      destruct (insl (snd (inb d))) as [l d'] eqn:Ein. destruct Hrd as [-> Hc']. exists d'. split; [congruence|].
      unfold bind at 1. rewrite (bind_ret _ _ _ _ _ E). change (0 <=? 0) with true. cbn [when negb]. cbn [dsk set_dsk]. rewrite Ein.
      unfold bind, updi, modify. cbn [ibufs set_ibufs set_dsk].
      rewrite (alter_insert_at _ _ b x Hb), !(alter_insert_at _ _ b _ (list_lookup_insert_eq _ _ _ Hlt)), !list_insert_insert_eq.
      rewrite (alter_insert_at _ _ b _ (list_lookup_insert_eq _ _ _ Hlt)), !list_insert_insert_eq.
      rewrite Hc. by destruct s.
Qed.

Lemma qnext_transfer ok c x : qnext (transfer ok c x) = qnext x.
Proof. unfold transfer. by destruct (_ || _). Qed.

Lemma clean_transfer ok c x : clean_valid (iflags (transfer ok c x)) = true.
Proof. unfold transfer. destruct (_ || _); apply clean_done. Qed.

Lemma ideintr_some w b l x :
  inv w (b :: l) -> ibufs (drv w) !! b = Some x ->
  exists d, ideintr (drv w) = Ret (Some (chan b)) (mk_ist false (qnext x) true (<[b := transfer (reported b (drv w)) (content (dsk (drv w))) x]> (ibufs (drv w))) d) /\
    match l with
    | [] => forall dr se, content d dr se = content (dsk (drv w)) dr se
    | c :: _ => exists y, ibufs (drv w) !! c = Some y /\ issued d y /\
        forall dr se, content d dr se = written y (content (dsk (drv w))) dr se
    end.
Proof.
  intros I Hb. pose proof (v_head _ _ I b x eq_refl Hb) as Hi. destruct I as [Hlk Hd1 Hch Hnd Hok _ _ _ _ _].
  destruct w as [s ps]. cbn [drv] in *. destruct Hch as (Hq & x' & Hx' & Hch). rewrite Hb in Hx'. injection Hx' as <-.
  unfold Ide.ideintr. unfold bind at 1, acquire_i. rewrite Hlk. unfold bind at 1, reads. cbn [idequeue set_idelock]. rewrite Hq.
  unfold bind at 1, geti. cbn [ibufs set_idelock]. rewrite Hb. unfold bind at 1, modify.
  set (s1 := set_idequeue _ _).
  destruct (ideintr_head s1 b x (let! q := reads idequeue in when (bool_decide (q <> None)) (idestart q) ;; release_i ;; ret (Some (chan b))) Hb Hi)
    as (d1 & Hc1 & E).
  match goal with |- exists d, ?lhs = _ /\ _ => change lhs with
    ltac:(match type of E with ?l = _ => exact l end) end.
  rewrite E, (reported_same b s1 s) by done. clear E. unfold bind at 1, reads at 1. unfold s1. cbn [idequeue idelock havedisk1 ibufs dsk set_idequeue set_idelock] in *.
  rewrite Hd1. destruct l as [|c l].
  - cbn in Hch. rewrite Hch. exists d1. split; [done|]. intros dr se. by rewrite Hc1.
  - destruct Hch as (Hqn & y & Hy & _). rewrite Hqn. rewrite bool_decide_eq_true_2 by done. cbn [when].
    assert (b <> c) as Hbc by (intros ->; apply NoDup_cons in Hnd as [Hnd _]; apply Hnd; by left).
    destruct (idestart_law c y (mk_ist true (Some c) true (<[b := transfer (reported b s) (content (dsk s)) x]> (ibufs s)) d1)) as (d' & E & Hi' & Hc');
      [cbn; by rewrite list_lookup_insert_ne | exact (Forall_lookup_1 _ _ _ _ Hok Hy)|].
    rewrite (bind_ret _ _ _ _ _ E). exists d'. split; [done|]. exists y. split_and!; [done..|]. intros dr se. rewrite Hc'. cbn [dsk]. unfold written. by rewrite Hc1.
Qed.
(** ** Simulation *)

Definition head_dirty (bs : list ibuf) (l : list nat) : bool :=
  match head l ≫= (bs !!.) with Some x => is_dirty (iflags x) | None => false end.

(** A write reaches the disk when it is issued, so that the specification has
    already served a write at the head of the queue. *)
Definition shown (l : list nat) (b : nat) (x : ibuf) : ibuf :=
  set_qnext None (if bool_decide (head l = Some b) && is_dirty (iflags x) then done_ x else x).

Record sim (bs : list ibuf) (d : D) (l : list nat) (a : sworld) : Prop := {
  m_disk dr se : sdisk a dr se = content d dr se;
  m_todo : todo a = if head_dirty bs l then tail l else l;
  m_served : served a = match l with b :: _ => if head_dirty bs l then [(b, true)] else [] | [] => [] end;
  m_buf b x : bs !! b = Some x -> sbuf a !! b = Some (shown l b x);
}.

(** The head of a queue is issued. *)
Lemma sim_start bs d l a c :
  (forall dr se, sdisk a dr se = c dr se) -> todo a = l -> served a = [] ->
  (forall b x, bs !! b = Some x -> sbuf a !! b = Some (set_qnext None x)) ->
  match l with
  | [] => forall dr se, content d dr se = c dr se
  | b :: _ => exists y, bs !! b = Some y /\ forall dr se, content d dr se = written y c dr se
  end ->
  exists a', lstar sstep a [] a' /\ sim bs d l a'.
Proof.
  intros Hd Ht Hsv Hb Hl. destruct l as [|b l].
  { exists a. split; [apply lstar_refl|]. split; [intros; by rewrite Hd, Hl | by rewrite Ht | done | done]. }
  destruct Hl as (y & Hy & Hc). unfold written in Hc. destruct (is_dirty (iflags y)) eqn:Ey.
  - pose proof (s_serve a b _ l true Ht (Hb b y Hy) (fun _ => eq_refl)) as Hs. eexists. split; [apply lstar_one, Hs|]. split.
    + intros dr se. cbn [sdisk]. unfold written. cbn [iflags set_qnext idata iblockno]. rewrite Ey, Hc.
      change (drive (set_qnext None y)) with (drive y). by destruct (decide (dr = drive y /\ se = iblockno y)).
    + cbn [todo]. unfold head_dirty. cbn. by rewrite Hy, Ey.
    + cbn [served]. unfold head_dirty. cbn. by rewrite Hy, Ey, Hsv.
    + intros c' x Hx. cbn [sbuf]. unfold shown. cbn [head]. destruct (decide (b = c')) as [->|Hne].
      * rewrite Hy in Hx. injection Hx as <-. rewrite bool_decide_eq_true_2, Ey by done. cbn [andb].
        rewrite list_lookup_insert_eq by (eapply lookup_lt_Some; by apply Hb). f_equal. unfold transfer. cbn [iflags set_qnext]. rewrite Ey. reflexivity.
      * rewrite list_lookup_insert_ne, bool_decide_eq_false_2 by congruence. cbn [andb]. by apply Hb.
  - exists a. split; [apply lstar_refl|]. split.
    + intros. by rewrite Hd, Hc.
    + rewrite Ht. unfold head_dirty. cbn. by rewrite Hy, Ey.
    + unfold head_dirty. cbn. by rewrite Hy, Ey.
    + intros c' x Hx. unfold shown. cbn [head]. destruct (decide (b = c')) as [->|Hne].
      * rewrite Hy in Hx. injection Hx as <-. rewrite Ey, andb_false_r. by apply Hb.
      * rewrite bool_decide_eq_false_2 by congruence. cbn [andb]. by apply Hb.
Qed.

Lemma sim_not_todo bs d l a b : sim bs d l a -> b ∉ l -> b ∉ todo a /\ b ∉ (served a).*1.
Proof.
  intros [_ Mt Ms _] Hni. rewrite Mt, Ms. destruct l as [|h l]; [by destruct (head_dirty _ _); split; apply not_elem_of_nil|].
  apply not_elem_of_cons in Hni as [Hne Hni]. destruct (head_dirty _ _); cbn; split; set_solver.
Qed.

Lemma sim_call w l a b ch s' :
  inv w l -> unused b w -> iderw true b (drv w) = Sleep ch s' -> sim (ibufs (drv w)) (dsk (drv w)) l a ->
  exists a', lstar sstep a [Call b] a' /\ sim (ibufs s') (dsk s') (l ++ [b]) a'.
Proof.
  intros I Hu Hs M. destruct (call_law w l b ch s' I Hu Hs) as (_ & x & Hx & Hcv & _ & _ & Hch & Hnd & Hbs & Hinv & Hd).
  pose proof (unused_not_queued w l b I Hu) as Hni. destruct (sim_not_todo _ _ _ _ _ M Hni) as [Hnt _]. destruct M as [Md Mt Ms Mb].
  assert (sbuf a !! b = Some (set_qnext None x)) as Hsb.
  { rewrite (Mb b x Hx). unfold shown. rewrite bool_decide_eq_false_2; [done|]. intros Hh. apply Hni. destruct l; [done|]. injection Hh as ->. by left. }
  pose proof (s_call a b _ Hnt Hsb Hcv) as Hstep. set (a1 := mk_sworld _ _ _ _) in Hstep.
  destruct l as [|h l].
  - destruct (sim_start (ibufs s') (dsk s') [b] a1 (content (dsk (drv w)))) as (a' & Hst & M'); [exact Md | cbn; by rewrite Mt | done | | |].
    + intros c y Hy. destruct (Hinv c y Hy) as (z & n & Hz & ->). cbn [sbuf a1]. rewrite (Mb c z Hz). done.
    + destruct (Hbs b x Hx) as (n & Hn). exists (set_qnext n x). split; [done|]. apply Hd.
    + exists a'. split; [|done]. exact (lstar_trans _ _ _ _ _ _ (lstar_one _ _ _ _ Hstep) Hst).
  - exists a1. split; [apply lstar_one, Hstep|].
    assert (head_dirty (ibufs s') ((h :: l) ++ [b]) = head_dirty (ibufs (drv w)) (h :: l)) as Hhd.
    { unfold head_dirty. cbn.
      destruct (lookup_lt_is_Some_2 (ibufs (drv w)) h) as (z & Hz); [exact (chain_lt _ _ _ (v_chain _ _ I) h (list_elem_of_here _ _))|].
      destruct (Hbs h z Hz) as (n & Hn). by rewrite Hz, Hn. }
    split.
    + intros dr se. rewrite Hd. apply Md.
    + cbn [todo a1]. rewrite Mt, Hhd. by destruct (head_dirty _ _).
    + cbn [served a1]. rewrite Ms. cbn [app]. rewrite app_comm_cons, Hhd. done.
    + intros c y Hy. destruct (Hinv c y Hy) as (z & n & Hz & ->). cbn [sbuf a1]. rewrite (Mb c z Hz).
      unfold shown. cbn [head app iflags set_qnext]. by destruct (_ && _).
Qed.
Lemma reported_dirty b x s : ibufs s !! b = Some x -> is_dirty (iflags x) = true -> reported b s = true.
Proof. intros Hb Hd. unfold reported. by rewrite Hb, Hd. Qed.

(** Completion of the first request. *)
Lemma sim_complete w b l x a :
  ibufs (drv w) !! b = Some x -> sim (ibufs (drv w)) (dsk (drv w)) (b :: l) a ->
  exists a1, lstar sstep a [Done b (reported b (drv w))] a1 /\ (forall dr se, sdisk a1 dr se = content (dsk (drv w)) dr se) /\
    todo a1 = l /\ served a1 = [] /\
    sbuf a1 !! b = Some (set_qnext None (transfer (reported b (drv w)) (content (dsk (drv w))) x)) /\
    forall c, c <> b -> sbuf a1 !! c = sbuf a !! c.
Proof.
  intros Hb [Md Mt Ms Mb]. pose proof (Mb b x Hb) as Hsb. unfold shown in Hsb. cbn [head] in Hsb. rewrite bool_decide_eq_true_2 in Hsb by done.
  assert (head_dirty (ibufs (drv w)) (b :: l) = is_dirty (iflags x)) as Hhd by (unfold head_dirty; cbn; by rewrite Hb).
  rewrite Hhd in Mt, Ms. unfold transfer. set (ok := reported b (drv w)). cbn [andb] in Hsb. destruct (is_dirty (iflags x)) eqn:Ed; cbn [orb].
  - assert (ok = true) as -> by (by apply (reported_dirty b x)). pose proof (s_done a b true [] Ms) as Hs. eexists. split; [apply lstar_one, Hs|]. done.
  - assert (is_dirty (iflags (set_qnext None x)) = true -> ok = true) as Hok by (cbn; by rewrite Ed).
    pose proof (s_serve a b _ l ok Mt Hsb Hok) as Hs1. rewrite Ms in Hs1. match type of Hs1 with sstep _ _ ?t => pose proof (s_done t b ok [] eq_refl) as Hs2 end.
    eexists. split; [exact (lstar_trans _ _ _ _ _ _ (lstar_one _ _ _ _ Hs1) (lstar_one _ _ _ _ Hs2))|]. cbn [sdisk sbuf todo served].
    unfold written, transfer. cbn [iflags set_qnext]. rewrite Ed. cbn [orb]. split_and!; try done.
    + rewrite list_lookup_insert_eq by (by eapply lookup_lt_Some). destruct ok; cbn [negb]; [|done]. rewrite Md. done.
    + intros c Hc. by rewrite list_lookup_insert_ne.
Qed.

Lemma sim_intr w b l x d a s' :
  inv w (b :: l) -> ibufs (drv w) !! b = Some x -> sim (ibufs (drv w)) (dsk (drv w)) (b :: l) a ->
  ibufs s' = <[b := transfer (reported b (drv w)) (content (dsk (drv w))) x]> (ibufs (drv w)) -> dsk s' = d ->
  match l with
  | [] => forall dr se, content d dr se = content (dsk (drv w)) dr se
  | c :: _ => exists y, ibufs (drv w) !! c = Some y /\ issued d y /\
      forall dr se, content d dr se = written y (content (dsk (drv w))) dr se
  end ->
  exists a', lstar sstep a [Done b (reported b (drv w))] a' /\ sim (ibufs s') (dsk s') l a'.
Proof.
  intros I Hb M -> -> Hl. pose proof (v_nodup _ _ I) as Hnd. apply NoDup_cons in Hnd as [Hni Hnd].
  destruct (sim_complete w b l x a Hb M) as (a1 & Hst & Hd1 & Ht1 & Hs1 & Hb1 & Ho1). set (bs := ibufs (drv w)) in *.
  destruct (sim_start (<[b := transfer (reported b (drv w)) (content (dsk (drv w))) x]> bs) d l a1 (content (dsk (drv w))) Hd1 Ht1 Hs1) as (a' & Hst' & M').
  - intros c y Hy. destruct (decide (b = c)) as [->|Hne].
    + rewrite list_lookup_insert_eq in Hy by (by eapply lookup_lt_Some). by injection Hy as <-.
    + rewrite list_lookup_insert_ne in Hy by done. rewrite Ho1 by done. rewrite (m_buf _ _ _ _ M c y Hy). unfold shown. cbn [head].
      by rewrite bool_decide_eq_false_2 by congruence.
  - destruct l as [|c l]; [done|]. destruct Hl as (y & Hy & _ & Hc). exists y. split; [|done].
    rewrite list_lookup_insert_ne; [done|]. intros ->. apply Hni. by left.
  - exists a'. split; [|done]. exact (lstar_trans _ _ _ _ _ _ Hst Hst').
Qed.

(** ** The invariant is kept *)

Lemma inv_call w l i b ch s' :
  inv w l -> pst w !! i = Some PFree -> unused b w -> iderw true b (drv w) = Sleep ch s' ->
  inv (mk_iworld s' (<[i := PAsleep b ch]> (pst w))) (l ++ [b]).
Proof.
  intros I Hi Hu Hs. destruct (call_law w l b ch s' I Hu Hs) as (-> & x & Hx & Hcv & Hlk & Hd1 & Hch & Hnd & Hbs & Hinv & Hd).
  pose proof (lookup_lt_Some _ _ _ Hi) as Hlt.
  split; cbn [drv pst ibufs idequeue havedisk1 idelock dsk]; try done.
  - apply Forall_lookup. intros c y Hy. destruct (Hinv c y Hy) as (z & n & Hz & ->). exact (Forall_lookup_1 _ _ _ _ (v_ok _ _ I) Hz).
  - intros c y [Hc| ->%list_elem_of_singleton]%elem_of_app Hy; destruct (Hinv _ y Hy) as (z & n & Hz & ->); cbn.
    + by apply (v_busy _ _ I c).
    + rewrite Hx in Hz. by injection Hz as <-.
  - intros c [Hc| ->%list_elem_of_singleton]%elem_of_app.
    + destruct (v_owner _ _ I c Hc) as (j & p & Hj & Hp). exists j, p. split; [|done]. rewrite list_lookup_insert_ne; [done|].
      intros ->. rewrite Hi in Hj. injection Hj as <-. by destruct Hp as [[? ?]|].
    + exists i, (PAsleep b (chan b)). rewrite list_lookup_insert_eq by done. split; [done | left; by eexists].
  - intros j c ch Hj. rewrite elem_of_app. destruct (decide (i = j)) as [->|].
    + rewrite list_lookup_insert_eq in Hj by done. injection Hj as <- <-. split; [right; by left | done].
    + rewrite list_lookup_insert_ne in Hj by done. destruct (v_asleep _ _ I j c ch Hj). auto.
  - intros j c Hj. destruct (decide (i = j)) as [->|]; [by rewrite list_lookup_insert_eq in Hj|].
    rewrite list_lookup_insert_ne in Hj by done. destruct (v_woken _ _ I j c Hj) as [Hc|(z & Hz & Hv)]; [left; apply elem_of_app; by left|].
    right. destruct (Hbs c z Hz) as (nx & Hn). by exists (set_qnext nx z).
  - intros c y Hh Hy. destruct (Hinv c y Hy) as (z & n & Hz & ->). destruct l as [|h l].
    + injection Hh as <-. rewrite Hx in Hz. injection Hz as <-. apply Hd.
    + injection Hh as <-. rewrite Hd. exact (v_head _ _ I h z eq_refl Hz).
Qed.
Lemma resume_law w l b :
  inv w l -> (b < length (ibufs (drv w)))%nat ->
  exists x, ibufs (drv w) !! b = Some x /\
    iderw_resume b (drv w) = if clean_valid (iflags x) then Ret tt (drv w) else Sleep (chan b) (drv w).
Proof.
  intros I (x & Hx)%lookup_lt_is_Some_2. exists x. split; [done|]. pose proof (v_lock _ _ I) as Hl.
  destruct (drv w) as [lk q h bs d]. cbn [ibufs idelock] in *. subst.
  unfold iderw_resume, bind at 1, acquire_i. cbn [idelock]. unfold iderw_loop, bind at 1, geti. cbn [ibufs set_idelock]. rewrite Hx. by destruct (clean_valid _).
Qed.

Lemma waits_lt w l i b : inv w l -> pst w !! i = Some (PWoken b) -> (b < length (ibufs (drv w)))%nat.
Proof.
  intros I Hi. destruct (v_woken _ _ I i b Hi) as [Hb|(x & Hx & _)]; [exact (chain_lt _ _ _ (v_chain _ _ I) b Hb) | by apply lookup_lt_Some in Hx].
Qed.

(** A change of one process. *)
Lemma inv_process w l i p p' :
  inv w l -> pst w !! i = Some p ->
  (forall b ch, p' = PAsleep b ch -> b ∈ l /\ ch = chan b) ->
  (forall b, p' = PWoken b -> b ∈ l \/ exists x, ibufs (drv w) !! b = Some x /\ clean_valid (iflags x) = true) ->
  (forall b, b ∈ l -> waits b p -> waits b p') ->
  inv (mk_iworld (drv w) (<[i := p']> (pst w))) l.
Proof.
  intros I Hi Ha Hw Ho. pose proof (lookup_lt_Some _ _ _ Hi) as Hlt. split; try apply I; cbn [drv pst].
  - intros b Hb. destruct (v_owner _ _ I b Hb) as (j & q & Hj & Hq). destruct (decide (i = j)) as [->|].
    + rewrite Hi in Hj. injection Hj as <-. exists j, p'. rewrite list_lookup_insert_eq by done. auto.
    + exists j, q. by rewrite list_lookup_insert_ne.
  - intros j b ch Hj. destruct (decide (i = j)) as [->|].
    + rewrite list_lookup_insert_eq in Hj by done. injection Hj as ->. by apply Ha.
    + rewrite list_lookup_insert_ne in Hj by done. by apply (v_asleep _ _ I j).
  - intros j b Hj. destruct (decide (i = j)) as [->|].
    + rewrite list_lookup_insert_eq in Hj by done. injection Hj as ->. by apply Hw.
    + rewrite list_lookup_insert_ne in Hj by done. by apply (v_woken _ _ I j).
Qed.

Lemma wake_lookup r l i p : wake r l !! i = Some p ->
  exists q, l !! i = Some q /\ ((q = p /\ forall b ch, p = PAsleep b ch -> r <> Some ch) \/ exists b ch, r = Some ch /\ q = PAsleep b ch /\ p = PWoken b).
Proof.
  unfold wake. rewrite list_lookup_fmap. destruct (l !! i) as [q|]; [|done]. cbn. intros [= <-]. exists q. split; [done|].
  destruct q as [|b ch|b]; [by left | | by left]. destruct (decide (r = Some ch)); [right; by exists b, ch | left]. split; [done|]. by intros c ch' [= <- <-].
Qed.

Lemma inv_intr w b l x d ok :
  inv w (b :: l) -> ibufs (drv w) !! b = Some x ->
  match l with [] => True | c :: _ => exists y, ibufs (drv w) !! c = Some y /\ issued d y end ->
  inv (mk_iworld (mk_ist false (qnext x) true (<[b := transfer ok (content (dsk (drv w))) x]> (ibufs (drv w))) d) (wake (Some (chan b)) (pst w))) l.
Proof.
  intros I Hb Hl. pose proof (v_nodup _ _ I) as Hnd. apply NoDup_cons in Hnd as [Hni Hnd]. set (x' := transfer _ _ x).
  pose proof (lookup_lt_Some _ _ _ Hb) as Hlt. assert (clean_valid (iflags x') = true) as Hx' by apply clean_transfer.
  assert (forall c, c ∈ l -> <[b := x']> (ibufs (drv w)) !! c = ibufs (drv w) !! c) as Hsame.
  { intros c Hc. rewrite list_lookup_insert_ne; [done|]. by intros ->. }
  split; cbn [drv pst idelock idequeue havedisk1 ibufs dsk]; try done.
  - destruct (v_chain _ _ I) as (_ & y & Hy & Hch). rewrite Hb in Hy. injection Hy as <-. eapply chain_ext; [|exact Hch].
    intros c y Hc Hy. exists y. by rewrite Hsame.
  - apply Forall_insert; [apply (v_ok _ _ I)|]. pose proof (Forall_lookup_1 _ _ _ _ (v_ok _ _ I) Hb) as (H1 & H2 & H3).
    unfold x', transfer. destruct (_ || _) eqn:Ed; [done|]. split_and!; cbn; try done; try lia. apply content_len.
  - intros c y Hc. rewrite Hsame by done. apply (v_busy _ _ I c). by right.
  - intros c Hc. destruct (v_owner _ _ I c ltac:(by right)) as (j & p & Hj & Hp).
    exists j, (match p with PAsleep b' ch => if decide (Some (chan b) = Some ch) then PWoken b' else p | p => p end).
    unfold wake. rewrite list_lookup_fmap, Hj. split; [done|]. destruct Hp as [[ch ->]| ->]; [|by right].
    destruct (decide _); [by right | left; by eexists].
  - intros j c ch (q & Hq & [[-> Hne]|(e & ? & _ & _ & [=])])%wake_lookup. destruct (v_asleep _ _ I j c ch Hq) as [Hc ->].
    split; [|done]. apply elem_of_cons in Hc as [->|Hc]; [by destruct (Hne b _ eq_refl) | done].
  - intros j c (q & Hq & [[-> _]|(e & ch & [= <-] & -> & [= ->])])%wake_lookup.
    + destruct (decide (b = c)) as [->|Hbc]; [right; exists x'; by rewrite list_lookup_insert_eq|].
      rewrite list_lookup_insert_ne by done. destruct (v_woken _ _ I j c Hq) as [Hc|Hc]; [|by right].
      apply elem_of_cons in Hc as [->|Hc]; [done | by left].
    + destruct (v_asleep _ _ I j e _ Hq) as [_ Hch]. unfold chan in Hch. assert (e = b) as -> by lia.
      right. exists x'. by rewrite list_lookup_insert_eq.
  - intros c y Hh Hy. destruct l as [|c' l]; [done|]. injection Hh as <-. rewrite Hsame in Hy by (by left).
    destruct Hl as (y' & Hy' & Hi). rewrite Hy in Hy'. by injection Hy' as <-.
Qed.
Lemma edit_other w l b x :
  inv w l -> unused b w -> ok_buf x ->
  let s' := set_ibufs (alter (fun y => set_qnext (qnext y) x) b (ibufs (drv w))) (drv w) in
  inv (mk_iworld s' (pst w)) l /\ forall c, c <> b -> ibufs s' !! c = ibufs (drv w) !! c.
Proof.
  intros I Hu Hx s'. pose proof (unused_not_queued w l b I Hu) as Hni.
  assert (forall c, c <> b -> ibufs s' !! c = ibufs (drv w) !! c) as Hsame by (intros c Hc; by apply list_lookup_alter_ne).
  split; [|done]. assert (forall c, c ∈ l -> c <> b) as Hl by (by intros c Hc ->). split; cbn [drv pst]; try apply I.
  - eapply chain_ext; [|apply (v_chain _ _ I)]. intros c y Hc Hy. exists y. by rewrite Hsame by auto.
  - apply Forall_lookup. intros c y Hy. destruct (decide (c = b)) as [->|Hc].
    + change (ibufs s') with (alter (fun y => set_qnext (qnext y) x) b (ibufs (drv w))) in Hy. rewrite list_lookup_alter_eq in Hy.
      destruct (ibufs (drv w) !! b); [|done]. by injection Hy as <-.
    + rewrite Hsame in Hy by done. exact (Forall_lookup_1 _ _ _ _ (v_ok _ _ I) Hy).
  - intros c y Hc Hy. rewrite Hsame in Hy by auto. by apply (v_busy _ _ I c).
  - intros i c Hi. destruct (v_woken _ _ I i c Hi) as [Hc|Hc]; [by left | right]. rewrite Hsame; [done|].
    intros ->. apply (Hu i _ Hi). by right.
  - intros c y Hh Hy. rewrite Hsame in Hy; [exact (v_head _ _ I c y Hh Hy)|]. apply Hl. destruct l; [done|]. injection Hh as ->. by left.
Qed.

Lemma sim_edit w l a b x :
  inv w l -> unused b w -> (b < length (ibufs (drv w)))%nat -> ok_buf x -> sim (ibufs (drv w)) (dsk (drv w)) l a ->
  exists a', lstar sstep a [Edit b x] a' /\ sim (alter (fun y => set_qnext (qnext y) x) b (ibufs (drv w))) (dsk (drv w)) l a'.
Proof.
  intros I Hu Hlt Hx M. pose proof (unused_not_queued w l b I Hu) as Hni. destruct (sim_not_todo _ _ _ _ _ M Hni) as [Hnt Hns]. destruct M as [Md Mt Ms Mb].
  assert (head l <> Some b) as Hh by (intros Hh; apply Hni; destruct l; [done|]; injection Hh as ->; by left).
  assert (head_dirty (alter (fun y => set_qnext (qnext y) x) b (ibufs (drv w))) l = head_dirty (ibufs (drv w)) l) as Hhd.
  { unfold head_dirty. destruct l as [|h l]; [done|]. cbn. rewrite list_lookup_alter_ne; [done|]. cbn in Hh. congruence. }
  eexists. split; [apply lstar_one, (s_edit a b x Hnt Hns Hx)|]. split; [exact Md | | |].
  - cbn [todo]. by rewrite Mt, Hhd.
  - cbn [served]. by rewrite Ms, Hhd.
  - intros c y Hy. cbn [sbuf]. apply lookup_lt_is_Some_2 in Hlt as (z & Hz). destruct (decide (b = c)) as [->|Hc].
    + rewrite list_lookup_alter_eq, Hz in Hy. injection Hy as <-. rewrite list_lookup_insert_eq by (eapply lookup_lt_Some; by apply Mb).
      unfold shown. by rewrite bool_decide_eq_false_2.
    + rewrite list_lookup_insert_ne by done. rewrite list_lookup_alter_ne in Hy by done. by apply Mb.
Qed.

Lemma step_sim w es w' l a :
  inv w l -> sim (ibufs (drv w)) (dsk (drv w)) l a -> istep w es w' ->
  exists l' a', inv w' l' /\ lstar sstep a es a' /\ sim (ibufs (drv w')) (dsk (drv w')) l' a'.
Proof.
  intros I M Hs. destruct Hs as [w i b ch s' Hi Hu E|w i b ch s' Hi E|w i b s' Hi E|w r s' E|w i b ch Hi|w b x Hu Hlt Hx].
  - destruct (sim_call w l a b ch s' I Hu E M) as (a' & Hst & M'). exists (l ++ [b]), a'. split; [by eapply inv_call | done].
  - destruct (resume_law w l b I (waits_lt w l i b I Hi)) as (x & Hx & Er). rewrite Er in E. destruct (clean_valid (iflags x)) eqn:Ev; [done|].
    injection E as <- <-. exists l, a. split; [|split; [apply lstar_refl | done]]. eapply inv_process; [done..| | |].
    + intros c ch [= <- <-]. split; [|done]. destruct (v_woken _ _ I i b Hi) as [Hb|(y & Hy & Hv)]; [done | congruence].
    + done.
    + intros c _ [[? [=]]|[= ->]]. left. by eexists.
  - destruct (resume_law w l b I (waits_lt w l i b I Hi)) as (x & Hx & Er). rewrite Er in E. destruct (clean_valid (iflags x)) eqn:Ev; [|done].
    injection E as <-. exists l, a. split; [|split; [apply lstar_refl | done]]. eapply inv_process; [done..|].
    intros c Hc [[? [=]]|[= ->]]. pose proof (v_busy _ _ I c x Hc Hx). congruence.
  - destruct l as [|b l].
    + rewrite (ideintr_none w I) in E. injection E as <- <-. exists [], a. split; [|split; [apply lstar_refl | done]].
      assert (wake None (pst w) = pst w) as ->; [|by destruct w]. unfold wake. rewrite <- (list_fmap_id (pst w)) at 2. apply list_fmap_ext.
      intros _ [] _; done.
    + destruct (v_chain _ _ I) as (_ & x & Hx & _). destruct (ideintr_some w b l x I Hx) as (d & E' & Hl). rewrite E' in E. injection E as <- <-.
      match goal with |- context [mk_iworld ?t _] => destruct (sim_intr w b l x d a t I Hx M eq_refl eq_refl Hl) as (a' & Hst & M') end.
      exists l, a'. unfold completes, chan at 2 3. rewrite Nat2Z.id. split; [|done]. apply inv_intr; [done..|]. destruct l as [|c l]; [done|].
      destruct Hl as (y & Hy & Hi & _). by exists y.
  - exists l, a. split; [|split; [apply lstar_refl | done]]. eapply inv_process; [done..| | |]; [done | |].
    + intros c [= <-]. left. by eapply (v_asleep _ _ I i).
    + intros c _ [[? [= -> _]]|[=]]. by right.
  - destruct (sim_edit w l a b x I Hu Hlt Hx M) as (a' & Hst & M'). exists l, a'. split; [by apply edit_other | done].
Qed.

Definition abs (w : iworld) : sworld := mk_sworld (content (dsk (drv w))) (set_qnext None <$> ibufs (drv w)) [] [].

Lemma initial_inv w : initial w -> inv w [] /\ sim (ibufs (drv w)) (dsk (drv w)) [] (abs w).
Proof.
  intros (H1 & H2 & H3 & H4 & H5). assert (forall i p, pst w !! i = Some p -> p = PFree) as Hp.
  { intros i p Hi. symmetry. exact (Forall_lookup_1 _ _ _ _ H5 Hi). }
  split; split; try done.
  - apply NoDup_nil_2.
  - by intros b x ?%elem_of_nil.
  - by intros b ?%elem_of_nil.
  - by intros i b ch ?%Hp.
  - by intros i b ?%Hp.
  - intros b x Hx. cbn. rewrite list_lookup_fmap, Hx. done.
Qed.

Lemma reach_sim w0 es w : initial w0 -> lstar istep w0 es w ->
  exists l a, inv w l /\ lstar sstep (abs w0) es a /\ sim (ibufs (drv w)) (dsk (drv w)) l a.
Proof.
  intros H0 Hst. destruct (initial_inv w0 H0) as [I0 M0]. induction Hst as [w0|w0 es w1 e w2 Hst IH Hs].
  - exists [], (abs w0). split; [done|]. split; [apply lstar_refl | done].
  - destruct (IH H0 I0 M0) as (l & a & I & Ha & M). destruct (step_sim w1 e w2 l a I M Hs) as (l' & a' & I' & Ha' & M').
    exists l', a'. split; [done|]. split; [by eapply lstar_trans | done].
Qed.

(** ** Every request is served *)

Fixpoint interrupts (n : nat) (w : iworld) : option iworld :=
  match n with
  | O => Some w
  | S n => match ideintr (drv w) with Ret r s' => interrupts n (mk_iworld s' (wake r (pst w))) | _ => None end
  end.

Lemma queue_served w l i b k ch :
  inv w l -> l !! k = Some b -> pst w !! i = Some (PAsleep b ch) ->
  exists w' s', interrupts (S k) w = Some w' /\ pst w' !! i = Some (PWoken b) /\ iderw_resume b (drv w') = Ret tt s'.
Proof.
  revert w k. induction l as [|h l IH]; intros w k I Hb Hi; [done|].
  destruct (v_chain _ _ I) as (_ & x & Hx & _). destruct (ideintr_some w h l x I Hx) as (d & E & Hl).
  set (s1 := mk_ist false (qnext x) true _ d) in *. assert (inv (mk_iworld s1 (wake (Some (chan h)) (pst w))) l) as I1.
  { apply inv_intr; [done..|]. destruct l as [|c l]; [done|]. destruct Hl as (y & Hy & Hi' & _). by exists y. }
  pose proof (v_nodup _ _ I) as Hnd. destruct (v_asleep _ _ I i b ch Hi) as [_ ->]. destruct k as [|k]; cbn in Hb.
  - injection Hb as ->. destruct (resume_law _ l b I1) as (y & Hy & Er); [cbn; rewrite length_insert; by apply lookup_lt_Some in Hx|].
    cbn [drv s1 ibufs] in Hy. rewrite list_lookup_insert_eq in Hy by (by apply lookup_lt_Some in Hx). injection Hy as <-.
    rewrite clean_transfer in Er. exists (mk_iworld s1 (wake (Some (chan b)) (pst w))), s1. cbn [interrupts]. rewrite E. split_and!; [done | | exact Er].
    cbn [pst]. unfold wake. rewrite list_lookup_fmap, Hi. cbn. by rewrite decide_True.
  - assert (h <> b) as Hne by (intros ->; apply NoDup_cons in Hnd as [Hni _]; by apply Hni, (list_elem_of_lookup_2 _ k)).
    destruct (IH (mk_iworld s1 (wake (Some (chan h)) (pst w))) k I1 Hb) as (w' & s' & Ew & Hw & Er).
    + cbn [pst]. unfold wake. rewrite list_lookup_fmap, Hi. cbn. rewrite decide_False; [done|]. unfold chan. intros [= ?]. lia.
    + exists w', s'. split; [|done]. rewrite <- Ew. cbn [interrupts]. rewrite E. done.
Qed.

(** C27: no request and no wakeup is lost: a process that sleeps in [iderw] has
    its request in the queue, whose first request is with the controller, and
    as many interrupts as there are requests up to its own wake the process,
    which finds its request finished and returns. *)
Theorem ide_serves_all w0 es w i b ch :
  initial w0 -> lstar istep w0 es w -> pst w !! i = Some (PAsleep b ch) ->
  exists l k, chain (ibufs (drv w)) (idequeue (drv w)) l /\ l !! k = Some b /\
    (exists h x, idequeue (drv w) = Some h /\ ibufs (drv w) !! h = Some x /\ issued (dsk (drv w)) x) /\
    exists w' s', interrupts (S k) w = Some w' /\ pst w' !! i = Some (PWoken b) /\ iderw_resume b (drv w') = Ret tt s'.
Proof.
  intros H0 Hst Hi. destruct (reach_sim w0 es w H0 Hst) as (l & a & I & _ & _). destruct (v_asleep _ _ I i b ch Hi) as [Hb _].
  apply list_elem_of_lookup_1 in Hb as [k Hk]. exists l, k. split; [apply (v_chain _ _ I)|]. split; [done|]. split.
  - destruct l as [|h l]; [done|]. destruct (v_chain _ _ I) as (Hq & x & Hx & _).
    exists h, x. split_and!; [done..|]. by apply (v_head _ _ I h).
  - by apply (queue_served w l i b k ch).
Qed.
End ide.

(** The transfer is what [iderw] of the buffer cache does at once. *)
Lemma transfer_is_iderw `{Driver} i s b :
  bufs s !! i = Some b -> lock b = Sleeplock.mk_sleeplock false true (cur s) -> clean_valid (flags b) = false -> refuses b = None ->
  let x := transfer true (fun _ n => disk s !!! Z.to_nat n) (mk_ibuf (flags b) (dev b) (blockno b) (data b) None) in
  exists s', Bio.iderw i s = Ret tt s' /\ bufs s' !! i = Some (set_flags (iflags x) (set_data (idata x) b)) /\
    disk s' = if is_dirty (flags b) then <[Z.to_nat (blockno b) := data b]> (disk s) else disk s.
Proof.
  intros Hb Hl Hc Hr x. pose proof (list_lookup_total_correct _ _ _ Hb) as Hbt. pose proof (lookup_lt_Some _ _ _ Hb) as Hlt.
  assert (holding_buf i s = Ret true s) as Eh.
  { unfold holding_buf, bind, get, on_lock, zoom. rewrite Hbt, Hl. cbn. rewrite Z.eqb_refl, <- Hl. f_equal.
    assert (alter (set_lock (lock b)) i (bufs s) = bufs s) as ->; [|by destruct s].
    rewrite (alter_insert_at _ _ _ _ Hb). apply list_insert_id. rewrite Hb. by destruct b. }
  unfold Bio.iderw. rewrite (bind_ret _ _ _ _ _ Eh). cbn [negb]. unfold bind at 1, getb, reads. rewrite Hbt, Hc, Hr. unfold x, transfer. cbn [iflags].
  assert (forall f, is_dirty f = false -> clear_dirty (Z.lor f B_VALID) = Z.lor f B_VALID) as Hclean.
  { intros f Hf. unfold is_dirty, clear_dirty in *. apply negb_false_iff, Z.eqb_eq in Hf.
    rewrite <- Z.ldiff_land. apply Z.bits_inj'. intros n Hn. rewrite Z.ldiff_spec, Z.lor_spec.
    assert (Z.testbit (Z.land f B_DIRTY) n = false) as Hb4 by (by rewrite Hf, Z.bits_0). rewrite Z.land_spec in Hb4.
    destruct (decide (n = 2)) as [->|Hn2]; [cbn in Hb4 |- *|].
    - rewrite andb_true_r in Hb4. by rewrite Hb4.
    - assert (Z.testbit B_DIRTY n = false) as ->; [|by rewrite andb_true_r]. unfold B_DIRTY. change 4 with (2 ^ 2). apply Z.pow2_bits_false. lia. }
  destruct (is_dirty (flags b)) eqn:Ed.
  - eexists. split; [unfold bind, updb, modify; reflexivity|]. cbn [bufs disk write_block set_bufs iflags idata done_ set_iflags].
    split; [|done]. rewrite !list_lookup_alter_eq, Hb. cbn. f_equal. unfold set_flags, set_data. cbn. f_equal.
    unfold clear_dirty. rewrite Z.land_lor_distr_l. by change (Z.land B_VALID (Z.lnot B_DIRTY)) with B_VALID.
  - eexists. split; [unfold bind, get, updb, modify; reflexivity|]. cbn [bufs disk set_bufs iflags idata done_ set_iflags set_idata iblockno].
    split; [|done]. rewrite !list_lookup_alter_eq, Hb. cbn. f_equal. unfold set_flags, set_data. cbn. by rewrite Hclean.
Qed.
