(* ===== verification/IdeDemo.v ===== *)
(** * A run of the IDE driver on a small controller *)

From S2P Require Import Prelude Bio Ide IdeSafe.

Record demo_disk := mk_demo {
  platter : gmap (Z * Z) (list Z);
  r1f3 : Z; r1f4 : Z; r1f5 : Z; r1f6 : Z;
  mode : option (Z * Z);
  busy : bool;
}.

(** The drive and the sector in the registers. *)
Definition demo_at (d : demo_disk) : Z * Z :=
  (Z.land (Z.shiftr (r1f6 d) 4) 1, r1f3 d + r1f4 d * 2 ^ 8 + r1f5 d * 2 ^ 16 + Z.land (r1f6 d) 0x0f * 2 ^ 24).

Definition demo_content (d : demo_disk) (at_ : Z * Z) : list Z :=
  match platter d !! at_ with
  | Some l => if decide (length l = BSIZE) then l else replicate BSIZE 0
  | None => replicate BSIZE 0
  end.

#[local] Instance demo_ports : Ports demo_disk := {
  inb d := if busy d then (IDE_BSY, mk_demo (platter d) (r1f3 d) (r1f4 d) (r1f5 d) (r1f6 d) (mode d) false) else (IDE_DRDY, d);
  outb p v d :=
    if p =? 0x1f3 then mk_demo (platter d) v (r1f4 d) (r1f5 d) (r1f6 d) (mode d) (busy d)
    else if p =? 0x1f4 then mk_demo (platter d) (r1f3 d) v (r1f5 d) (r1f6 d) (mode d) (busy d)
    else if p =? 0x1f5 then mk_demo (platter d) (r1f3 d) (r1f4 d) v (r1f6 d) (mode d) (busy d)
    else if p =? 0x1f6 then mk_demo (platter d) (r1f3 d) (r1f4 d) (r1f5 d) v (mode d) (busy d)
    else if p =? 0x1f7 then mk_demo (platter d) (r1f3 d) (r1f4 d) (r1f5 d) (r1f6 d) (Some (demo_at d)) (v =? IDE_CMD_READ)
    else d;
  outsl l d := mk_demo (<[default (0, 0) (mode d) := l]> (platter d)) (r1f3 d) (r1f4 d) (r1f5 d) (r1f6 d) None true;
  insl d := (demo_content d (default (0, 0) (mode d)),
             mk_demo (platter d) (r1f3 d) (r1f4 d) (r1f5 d) (r1f6 d) None (busy d));
}.

Lemma demo_select drive sector d : 0 <= drive < 2 -> 0 <= sector < 2 ^ 28 ->
  demo_at (select drive sector d) = (drive, sector) /\ platter (select drive sector d) = platter d.
Proof.
  intros Hd Hs. split; [|done]. unfold demo_at, select. cbn [r1f3 r1f4 r1f5 r1f6 outb demo_ports Z.eqb Pos.eqb]. f_equal.
  - rewrite !Z.shiftr_lor, Z.shiftr_shiftl_l by lia. rewrite Z.shiftl_0_r, Z.shiftr_land.
    change (Z.shiftr 224 4) with 14. change (Z.shiftr 0x0f 4) with 0. rewrite Z.land_0_r, Z.lor_0_r, Z.land_lor_distr_l.
    assert (drive = 0 \/ drive = 1) as [->| ->] by lia; done.
  - rewrite !Z.land_lor_distr_l, <- Z.land_assoc. change (Z.land 0x0f 0x0f) with 0x0f. change (Z.land 224 0x0f) with 0.
    assert (Z.land (Z.shiftl drive 4) 0x0f = 0) as -> by (assert (drive = 0 \/ drive = 1) as [->| ->] by lia; done).
    rewrite !Z.lor_0_l. change 0xff with (Z.ones 8). change 0x0f with (Z.ones 4). rewrite !Z.land_ones, !Z.shiftr_div_pow2 by lia.
    Z.div_mod_to_equations. lia.
Qed.

#[refine, local] Instance demo_controller : Controller demo_disk := {
  content d dr se := demo_content d (dr, se);
  reading d := mode d;
  max_polls := 2;
}.
Proof.
  - intros d dr se. unfold demo_content. destruct (platter d !! _) as [l|]; [destruct (decide _)|]; [done | apply length_replicate..].
  - intros d. cbn. by destruct (busy d).
  - intros d. cbn. by destruct (busy d).
  - intros d. destruct (busy d) eqn:E; [exists 1%nat | exists 0%nat]; cbn; rewrite ?E; (split; [lia | done]).
  - intros d drive sector data dr se Hr Hd Hs Hl. destruct (demo_select drive sector (snd (inb d)) Hd Hs) as [Ha Hp].
    assert (platter (snd (inb d)) = platter d) as Hpd by (cbn; by destruct (busy d)).
    set (d1 := snd (inb d)) in *. clearbody d1. cbn -[select]. rewrite Ha. unfold demo_content. cbn [platter default]. rewrite Hp, Hpd.
    destruct (decide (dr = drive /\ se = sector)) as [[-> ->]|Hne]; [rewrite lookup_insert_eq; by rewrite decide_True|].
    rewrite lookup_insert_ne; [done|]. intros [= -> ->]. by apply Hne.
  - intros d drive sector Hr Hd Hs. destruct (demo_select drive sector (snd (inb d)) Hd Hs) as [Ha Hp]. 
    assert (platter (snd (inb d)) = platter d) as Hpd by (cbn; by destruct (busy d)).
    set (d1 := snd (inb d)) in *. clearbody d1. cbn -[select]. split.
    + unfold demo_content. cbn [platter]. by rewrite Hp, Hpd.
    + by rewrite Ha.
  - intros d dr se Hr _ Hm. cbn in *. destruct (busy d); [done|]. cbn. by rewrite Hm.
Defined.

(** Process 0 writes block 5 and process 1 reads it. *)
Definition demo_w0 : iworld (D := demo_disk) :=
  mk_iworld (mk_ist false None true
      [mk_ibuf B_DIRTY 1 5 (replicate BSIZE 7) None; mk_ibuf 0 1 5 (replicate BSIZE 0) None]
      (mk_demo ∅ 0 0 0 0 None false)) [PFree; PFree].

Definition demo_call (i b : nat) (w : iworld (D := demo_disk)) : iworld :=
  match Ide.iderw max_polls true b (drv w) with Sleep ch s' => mk_iworld s' (<[i := PAsleep b ch]> (pst w)) | _ => w end.
Definition is_sleep {S A} (o : outcome S A) : bool := match o with Sleep _ _ => true | _ => false end.

Lemma demo_call_step i b w :
  pst w !! i = Some PFree -> unused b w -> is_sleep (Ide.iderw max_polls true b (drv w)) = true -> istep w [Call b] (demo_call i b w).
Proof. intros Hi Hu Hs. unfold demo_call. destruct (Ide.iderw _ _ _ _) eqn:E; try done. by eapply i_call. Qed.



Definition demo_w1 : iworld := demo_call 0 0 demo_w0.
Definition demo_w2 : iworld := demo_call 1 1 demo_w1.

Lemma demo_initial : initial demo_w0.
Proof. repeat split; repeat constructor; cbn; try done; unfold FSSIZE; lia. Qed.

Lemma demo_reach : lstar istep demo_w0 [Call 0; Call 1] demo_w2.
Proof.
  eapply (lstar_snoc _ _ [Call 0] _ [Call 1]); [apply lstar_one|]; apply demo_call_step; try reflexivity.
  - intros [|[|i]] p; cbn; intros [=] [[? ?]|]; congruence.
  - intros [|[|i]] p; vm_compute; intros [= <-] [[? ?]|]; congruence.
Qed.



(** The second request needs two interrupts. *)
Lemma ide_serves_all_witness :
  exists (l : list nat) k w' s', l !! k = Some 1%nat /\ interrupts (S k) demo_w2 = Some w' /\ pst w' !! 1%nat = Some (PWoken 1) /\ iderw_resume 1 (drv w') = Ret tt s'.
Proof.
  destruct (ide_serves_all demo_w0 _ demo_w2 1 1 1 demo_initial demo_reach) as (l & k & _ & Hk & _ & w' & s' & H).
  - vm_compute. reflexivity.
  - exists l, k, w', s'. split; [exact Hk | exact H].
Defined.
