(* ===== verification/Exec.v ===== *)
(** * Program loading (exec.c, elf.h, [loaduvm] of vm.c)

    [exec] runs on the memory of Kalloc.v, the registers of Seg.v, the fields
    of the calling process it reads and writes, and the file system, whose
    calls are the operations of the class [Files]: they return, possibly after
    the process has slept in them.  [goto bad] is the function [bad]. *)

From S2P Require Import Prelude Spinlock Cstring Kalloc Seg Vm.
From S2P Require Proc Sysfile.

Definition ELF_MAGIC : Z := 0x464C457F.
Definition ELF_PROG_LOAD : Z := 1.

(** The fields of [struct elfhdr] and [struct proghdr] that are used, at
    their offsets in the bytes of the file. *)
Record elfhdr := mk_elfhdr { magic : Z; entry : Z; phoff : Z; phnum : Z }.
Definition elfhdr_size : Z := 52.
Definition elfhdr_of (l : list Z) : elfhdr := mk_elfhdr (get32 l 0) (get32 l 24) (get32 l 28) (get16 l 44).

Record proghdr := mk_proghdr { ptype : Z; poff : Z; vaddr : Z; filesz : Z; memsz : Z }.
Definition proghdr_size : Z := 32.
Definition proghdr_of (l : list Z) : proghdr :=
  mk_proghdr (get32 l 0) (get32 l 4) (get32 l 8) (get32 l 16) (get32 l 20).

(** The calls of fs.c and log.c, which are assumed to return: the panics of
    [iget] (no free inode), [ilock] (no type) and the log are not modelled
    here.  [readi] returns the bytes it has copied, or [None] for -1; [file] is
    what reading the inode returns.  An inode that is not a device has a
    [content], and what is read is a part of it; a device may return other
    bytes each time. *)
Class Files (F : Type) := {
  begin_op : F -> F;
  end_op : F -> F;
  namei : list Z -> F -> option Z * F;
  ilock : Z -> F -> F;
  iunlockput : Z -> F -> F;
  readi : Z -> Z -> Z -> F -> option (list Z) * F;
  file : F -> Z -> Z -> Z -> option (list Z);
  content : F -> Z -> option (list Z);
  readi_file ip off n f : fst (readi ip off n f) = file f ip off n;
  readi_content ip off n f : content (snd (readi ip off n f)) ip = content f ip;
  readi_length ip off n f l : 0 <= n -> file f ip off n = Some l -> Z.of_nat (length l) <= n /\ Forall byte l;
  file_content ip off n f c l : content f ip = Some c -> 0 <= off -> 0 <= n -> file f ip off n = Some l ->
    l = slice (Z.to_nat off) (Z.to_nat n) c /\ off + n < 2 ^ 32;
  content_file ip off n f c : content f ip = Some c -> 0 <= off -> 0 <= n -> off + n <= Z.of_nat (length c) -> is_Some (file f ip off n);
  content_length ip f c : content f ip = Some c -> Z.of_nat (length c) < 2 ^ 32;
}.

(** The process, as far as [exec] is concerned. *)
Record xproc := mk_xproc {
  xpgdir : Z;
  xsz : Z;
  xkstack : Z;
  xeip : Z;
  xesp : Z;
  xname : list Z;
  xpriority : Z;
}.

Record xst (F : Type) := mk_xst { xm : kmem_t; xh : hw; xp : xproc; xf : F }.
Arguments mk_xst {F}.
Arguments xm {F}.
Arguments xh {F}.
Arguments xp {F}.
Arguments xf {F}.

Section exec.
Context (kend data ts_addr : Z) {F : Type} `{Files F}.

Definition on_xm {A} (m : M kmem_t A) : M (xst F) A := zoom xm (fun k s => mk_xst k (xh s) (xp s) (xf s)) m.
Definition on_xh {A} (m : M hw A) : M (xst F) A := zoom xh (fun k s => mk_xst (xm s) k (xp s) (xf s)) m.
Definition set_xp (f : xproc -> xproc) : M (xst F) unit := modify (fun s => mk_xst (xm s) (xh s) (f (xp s)) (xf s)).
Definition call (g : F -> F) : M (xst F) unit := modify (fun s => mk_xst (xm s) (xh s) (xp s) (g (xf s))).
Definition calls {A} (g : F -> A * F) : M (xst F) A := fun s =>
  let '(a, f) := g (xf s) in Ret a (mk_xst (xm s) (xh s) (xp s) f).

(** [for(i = 0; i < sz; i += PGSIZE)]; the data go to the page before the
    result is compared with [n]. *)
Fixpoint loaduvm_loop (fuel : nat) (pgdir addr ip offset sz i : Z) : M (xst F) Z :=
  match fuel with
  | O => hang
  | S fuel =>
      if i <? sz then
        let! pte := on_xm (walkpgdir pgdir (u32 (addr + i)) false) in
        if pte =? 0 then panic "loaduvm: address should exist"
        else
          let! e := on_xm (load32 pte) in
          let pa := PTE_ADDR e in
          let n := if sz - i <? PGSIZE then sz - i else PGSIZE in
          let! dst := P2V pa in
          let! r := calls (readi ip (u32 (offset + i)) n) in
          match r with
          | None => ret (-1)
          | Some l =>
              on_xm (copy_bytes dst l) ;;
              if negb (Z.of_nat (length l) =? n) then ret (-1)
              else loaduvm_loop fuel pgdir addr ip offset sz (u32 (i + PGSIZE))
          end
      else ret 0
  end.

Definition loaduvm (pgdir addr ip offset sz : Z) : M (xst F) Z :=
  if negb (addr mod PGSIZE =? 0) then panic "loaduvm: addr must be page aligned"
  else loaduvm_loop (S (Z.to_nat (sz / PGSIZE + 1))) pgdir addr ip offset sz 0.

(** The loop over the program headers; [None] is [goto bad]. *)
Fixpoint load_segments (n : nat) (pgdir ip off sz : Z) : M (xst F) (option Z) :=
  match n with
  | O => ret (Some sz)
  | S n =>
      let! r := calls (readi ip off proghdr_size) in
      match r with
      | None => ret None
      | Some l =>
          if negb (Z.of_nat (length l) =? proghdr_size) then ret None
          else
            let ph := proghdr_of l in
            let next := u32 (off + proghdr_size) in
            if negb (ptype ph =? ELF_PROG_LOAD) then load_segments n pgdir ip next sz
            else if memsz ph <? filesz ph then ret None
            else if u32 (vaddr ph + memsz ph) <? vaddr ph then ret None
            else
              let! sz := on_xm (allocuvm kend pgdir sz (u32 (vaddr ph + memsz ph))) in
              if sz =? 0 then ret None
              else if negb (vaddr ph mod PGSIZE =? 0) then ret None
              else
                let! r := loaduvm pgdir (vaddr ph) ip (poff ph) (filesz ph) in
                if r <? 0 then ret None else load_segments n pgdir ip next sz
      end
  end.

(** The argument strings, from the top of the stack down; [ustack] has the
    addresses so far. *)
Fixpoint push_args (pgdir : Z) (args : list (list Z)) (sp : Z) (ustack : list Z) : M (xst F) (option (Z * list Z)) :=
  match args with
  | [] => ret (Some (sp, ustack))
  | a :: args =>
      if (Sysfile.MAXARG <=? length ustack)%nat then ret None
      else
        let sp := Z.land (u32 (sp - (Z.of_nat (length a) + 1))) (u32 (Z.lnot 3)) in
        let! r := on_xm (copyout pgdir sp (a ++ [0])) in
        if r <? 0 then ret None else push_args pgdir args sp (ustack ++ [sp])
  end.

Definition words (l : list Z) : list Z := concat (le_enc 4 <$> l).

(** [for(last=s=path; *s; s++) if( *s == '/') last = s+1;] *)
Fixpoint last_part (last s : list Z) : list Z :=
  match s with
  | [] => last
  | c :: s => last_part (if c =? 47 then s else last) s
  end.

Definition bad (pgdir : Z) (ip : option Z) : M (xst F) Z :=
  when (negb (pgdir =? 0)) (on_xm (freevm kend pgdir)) ;;
  (match ip with Some ip => call (iunlockput ip) ;; call end_op | None => ret tt end) ;;
  ret (-1).

(** The process takes the new image. *)
Definition exec_commit (path : list Z) (elf : elfhdr) (pgdir sz sp : Z) : M (xst F) Z :=
  let last := last_part path path in
  let! p := reads xp in
  let oldpgdir := xpgdir p in
  set_xp (fun p => mk_xproc pgdir sz (xkstack p) (entry elf) sp (Proc.copy_name (xname p) (last ++ [0])) 0) ;;
  on_xh (switchuvm ts_addr (Some (xkstack p, pgdir))) ;;
  on_xm (freevm kend oldpgdir) ;;
  ret 0.

(** The segments are loaded: the stack, then the switch to the image. *)
Definition exec_stack (path : list Z) (argv : list (list Z)) (elf : elfhdr) (pgdir sz : Z) : M (xst F) Z :=
  let sz := PGROUNDUP sz in
  let! sz := on_xm (allocuvm kend pgdir sz (u32 (sz + 2 * PGSIZE))) in
  if sz =? 0 then bad pgdir None
  else
    on_xm (clearpteu pgdir (u32 (sz - 2 * PGSIZE))) ;;
    let! r := push_args pgdir argv sz [] in
    match r with
    | None => bad pgdir None
    | Some (sp, ptrs) =>
        let argc := Z.of_nat (length ptrs) in
        let ustack := [0xffffffff; argc; u32 (sp - (argc + 1) * 4)] ++ ptrs ++ [0] in
        let sp := u32 (sp - (3 + argc + 1) * 4) in
        let! r := on_xm (copyout pgdir sp (words ustack)) in
        if r <? 0 then bad pgdir None
        else exec_commit path elf pgdir sz sp
    end.

(** With the inode of the program locked. *)
Definition exec_load (path : list Z) (argv : list (list Z)) (ip : Z) : M (xst F) Z :=
  let! r := calls (readi ip 0 elfhdr_size) in
  match r with
  | None => bad 0 (Some ip)
  | Some l =>
      if negb (Z.of_nat (length l) =? elfhdr_size) then bad 0 (Some ip)
      else
        let elf := elfhdr_of l in
        if negb (magic elf =? ELF_MAGIC) then bad 0 (Some ip)
        else
          let! pgdir := on_xm (setupkvm kend data) in
          if pgdir =? 0 then bad 0 (Some ip)
          else
            let! r := load_segments (Z.to_nat (phnum elf)) pgdir ip (phoff elf) 0 in
            match r with
            | None => bad pgdir (Some ip)
            | Some sz =>
                call (iunlockput ip) ;;
                call end_op ;;
                exec_stack path argv elf pgdir sz
            end
  end.

Definition exec (path : list Z) (argv : list (list Z)) : M (xst F) Z :=
  call begin_op ;;
  let! ip := calls (namei path) in
  match ip with
  | None => call end_op ;; ret (-1)
  | Some ip => call (ilock ip) ;; exec_load path argv ip
  end.
End exec.
