(* ===== verification/ExecImg.v ===== *)
(** * The memory image that [exec] builds

    An address space whose user bytes are given by a function [img]: growing
    it adds zeros, [loaduvm] overwrites a segment with bytes of the file, and the
    loop over the program headers computes the image [spec_load]. *)

From S2P Require Import Prelude Spinlock Kalloc Seg Vm VmTab VmInv VmKern VmUser VmSafe Exec.

(** The image after a segment. *)
Definition seg_img (c : list Z) (ph : proghdr) (img : Z -> Z) (va : Z) : Z :=
  if decide (vaddr ph <= va < vaddr ph + filesz ph) then c !!! Z.to_nat (poff ph + (va - vaddr ph)) else img va.

(** What the program headers of a file with content [c] ask for: a size and an
    image; [None] where [exec] must fail. *)
Fixpoint spec_load (c : list Z) (n : nat) (off sz : Z) (img : Z -> Z) : option (Z * (Z -> Z)) :=
  match n with
  | O => Some (sz, img)
  | S n =>
      let l := slice (Z.to_nat off) 32 c in
      if negb (Nat.eqb (length l) 32) then None
      else
        let ph := proghdr_of l in
        let next := u32 (off + proghdr_size) in
        if negb (ptype ph =? ELF_PROG_LOAD) then spec_load c n next sz img
        else if (memsz ph <? filesz ph) || (KERNBASE <=? vaddr ph + memsz ph) || (Z.max sz (vaddr ph + memsz ph) =? 0) ||
          negb (vaddr ph mod PGSIZE =? 0) || (0 <? filesz ph) && (Z.of_nat (length c) <? poff ph + filesz ph) then None
        else spec_load c n next (Z.max sz (vaddr ph + memsz ph)) (seg_img c ph img)
  end.

Section img.
Context (kend data ts_addr : Z) {F : Type} `{Files F}.
Hypothesis kend_range : KERNBASE < kend <= KERNBASE + PHYSTOP.
Hypothesis data_range : KERNLINK < data < kend.
Hypothesis data_aligned : data mod PGSIZE = 0.
Implicit Types (s : kmem_t) (T E : gmap Z Z) (free : list Z) (h : hw) (p : xproc) (f : F) (img : Z -> Z).
Abbreviation kents := (kents data).
Abbreviation aspace := (aspace kend).

(** A space of [sz] bytes that hold [img]; page [g] is closed to user code. *)
Record image s free (pd sz : Z) T E (g : option Z) img : Prop := {
  im_as : aspace s free pd T E;
  im_sz : 0 <= sz < KERNBASE;
  im_user n : 0 <= n < USER -> is_Some (E !! n) <-> n < pages sz;
  im_kern n : USER <= n -> E !! n = kents !! n;
  im_u n e : 0 <= n < pages sz -> E !! n = Some e -> has e PTE_U = negb (bool_decide (g = Some n));
  im_byte va : 0 <= va < PGSIZE * pages sz -> ubyte s E va = Some (img va);
  im_zero va : PGSIZE * pages sz <= va -> img va = 0;
}.

(** The pages an operation may take, give back and change. *)
Definition moves s (O : list Z) s' (O' : list Z) : Prop := O' ≡ₚ O /\ same_but O s s'.

Lemma moves_refl s O : moves s O s O.
Proof. split; [done | apply same_but_refl]. Qed.

Lemma moves_trans s1 O1 s2 O2 s3 O3 : moves s1 O1 s2 O2 -> moves s2 O2 s3 O3 -> moves s1 O1 s3 O3.
Proof.
  intros [P1 S1] [P2 S2]. split; [by rewrite P2|]. eapply same_but_trans; [exact S1|]. eapply same_but_mono; [|exact S2].
  intros x. by rewrite P1.
Qed.

Lemma moves_inner s s' free pd T E W : same_but W s s' -> W ⊆ free ++ owns pd T E -> moves s (free ++ owns pd T E) s' (free ++ owns pd T E).
Proof. intros Hs Hw. split; [done|]. by eapply same_but_mono. Qed.

Lemma tables_owned free pd T E : free ++ pd :: vals T ⊆ free ++ owns pd T E.
Proof. clear. intros x. unfold owns. rewrite !elem_of_app, !elem_of_cons, elem_of_app. tauto. Qed.

Lemma frames_owned free pd T E : uframes E ⊆ free ++ owns pd T E.
Proof. clear. intros x. unfold owns. rewrite !elem_of_app, !elem_of_cons, elem_of_app. tauto. Qed.

(** ** Growing *)

Lemma ubyte_same s s' free pd T E va e :
  aspace s free pd T E -> 0 <= va < KERNBASE -> E !! (va / PGSIZE) = Some e -> same_but (free ++ pd :: vals T) s s' -> forall E',
  E' !! (va / PGSIZE) = Some e -> ubyte s' E' va = ubyte s E va.
Proof.
  intros Ha Hva He Hs E' He'. unfold ubyte. rewrite He, He'. cbn [mbind option_bind].
  destruct (frame_apart kend kend_range _ _ _ _ _ _ _ Ha (user_page va Hva) He) as (_ & Hf & Ht).
  rewrite Hs; [done|]. rewrite elem_of_app. tauto.
Qed.

Lemma user_flag e : has e PTE_U = has (PTE_FLAGS e) PTE_U.
Proof. unfold has, PTE_FLAGS. by rewrite <- Z.land_assoc. Qed.

Lemma has_new pa perm : pa mod PGSIZE = 0 -> 0 <= Z.lor perm PTE_P < PGSIZE -> has (pte pa perm) PTE_U = has (Z.lor perm PTE_P) PTE_U.
Proof. intros Hp Hr. rewrite user_flag. unfold pte. by rewrite PTE_FLAGS_entry. Qed.

(** The frames handed out are pages of the allocator. *)
Lemma free_good s free v : inv kend s free -> v ∈ free -> good_page kend v.
Proof. intros (_ & _ & _ & Hg & _) Hv. by eapply Forall_forall in Hg. Qed.

Lemma image_grow s free pd sz T E img newsz :
  image s free pd sz T E None img -> 0 <= newsz ->
  exists r s' free' T' E', allocuvm kend pd sz newsz s = Ret r s' /\
    moves s (free ++ owns pd T E) s' (free' ++ owns pd T' E') /\
    ((r = 0 /\ image s' free' pd sz T' E' None img /\
       (newsz < KERNBASE -> sz <= newsz /\ (length free < 2 * Z.to_nat (pages newsz - pages sz))%nat)) \/
     (r = Z.max sz newsz /\ newsz < KERNBASE /\ image s' free' pd r T' E' None img /\
       (length free <= length free' + 2 * Z.to_nat (pages r - pages sz))%nat)).
Proof.
  intros I Hnew. pose proof (im_sz _ _ _ _ _ _ _ _ I) as Hsz. unfold allocuvm. destruct (Z.leb_spec KERNBASE newsz) as [Hbig|Hlt].
  { exists 0, s, free, T, E. split; [done|]. split; [apply moves_refl|]. left. split_and!; [done | done | lia]. }
  destruct (Z.ltb_spec newsz sz) as [Hless|Hge].
  { exists sz, s, free, T, E. split; [done|]. split; [apply moves_refl|]. right. split; [lia|]. split; [done|]. split; [done | lia]. }
  pose proof (pages_range newsz ltac:(lia)) as Hpn. pose proof (pages_mono sz newsz Hge) as Hpm.
  pose proof (pages_range sz ltac:(lia)) as Hpo.
  destruct (allocuvm_law kend kend_range s free pd T E sz newsz (im_as _ _ _ _ _ _ _ _ I)) as (r & s' & T' & f' & E' & E1 & H' & HT & Hp & Hs & Hr); [lia | lia | |].
  { intros m Hm. destruct (E !! m) eqn:Em; [|done]. assert (m < pages sz); [|lia]. apply (im_user _ _ _ _ _ _ _ _ I); [lia | by eexists]. }
  unfold allocuvm in E1. rewrite (proj2 (Z.leb_gt _ _) Hlt), (proj2 (Z.ltb_ge _ _) Hge) in E1.
  assert (moves s (free ++ owns pd T E) s' (f' ++ owns pd T' E')) as Hmv.
  { split; [done|]. eapply same_but_mono; [|exact Hs]. apply tables_owned. }
  assert (forall va, 0 <= va < PGSIZE * pages sz -> exists e, E !! (va / PGSIZE) = Some e) as Hold.
  { intros va Hva. apply (im_user _ _ _ _ _ _ _ _ I); [|apply Z.div_lt_upper_bound; [done | lia]].
    apply user_page. split; [lia|]. pose proof (pages_range sz ltac:(lia)). unfold KERNBASE, USER, PGSIZE in *. lia. }
  assert (PGSIZE * pages sz <= KERNBASE) as Hk by (pose proof (pages_range sz ltac:(lia)); unfold KERNBASE, USER, PGSIZE in *; lia).
  exists r, s', f', T', E'. split; [done|]. split; [done|]. destruct Hr as [(-> & [Hz1 Hz2] & Hle)|(-> & -> & Hle)]; [right | left].
  - assert (forall m, pages sz <= m < pages newsz -> exists v, good_page kend v /\
      E' !! m = Some (pte (v - KERNBASE) (Z.lor PTE_W PTE_U)) /\ page (pmem s') v = zero_page) as Hz3.
    { intros m Hm. destruct (Hz2 m Hm) as (v & Hv & Hv1 & Hv2). exists v. split; [|done]. eapply free_good; [apply (im_as _ _ _ _ _ _ _ _ I) | done]. }
    split; [lia|]. split; [done|]. split; [|done]. split; [done | lia | | | | |].
    + intros n Hn. destruct (decide (pages sz <= n < pages newsz)) as [Hin|Hout].
      * destruct (Hz3 n Hin) as (v & _ & -> & _). split; [lia | by eexists].
      * rewrite Hz1 by done. rewrite (im_user _ _ _ _ _ _ _ _ I) by done. lia.
    + intros n Hn. rewrite Hz1 by lia. by apply (im_kern _ _ _ _ _ _ _ _ I).
    + intros n e Hn He. destruct (decide (pages sz <= n < pages newsz)) as [Hin|Hout].
      * destruct (Hz3 n Hin) as (v & [Hva Hvr] & Hv & _). rewrite Hv in He. injection He as <-. rewrite has_new; [done | | done].
        rewrite <- Zminus_mod_idemp_l, Hva. done.
      * rewrite Hz1 in He by done. apply (im_u _ _ _ _ _ _ _ _ I n); [lia | done].
    + intros va Hva. destruct (Z.lt_ge_cases va (PGSIZE * pages sz)) as [Hl|Hg].
      * destruct (Hold va ltac:(lia)) as (e & He). rewrite <- (im_byte _ _ _ _ _ _ _ _ I va) by lia.
        apply (ubyte_same s s' free pd T E va e (im_as _ _ _ _ _ _ _ _ I)); [lia | done | done|].
        rewrite Hz1; [done|]. assert (va / PGSIZE < pages sz); [apply Z.div_lt_upper_bound; [done | lia] | lia].
      * destruct (Hz3 (va / PGSIZE)) as (v & Hv & Hv1 & Hv2).
        { split; [apply Z.div_le_lower_bound; [done | lia] | apply Z.div_lt_upper_bound; [done | lia]]. }
        unfold ubyte. rewrite Hv1. cbn [mbind option_bind]. rewrite (good_frame kend kend_range) by done. rewrite Hv2.
        rewrite (im_zero _ _ _ _ _ _ _ _ I) by lia. unfold pgoff, zero_page. apply lookup_replicate. split; [done|].
        pose proof (Z.mod_pos_bound va PGSIZE). unfold PGSIZE in *. lia.
    + intros va Hva. apply (im_zero _ _ _ _ _ _ _ _ I). unfold PGSIZE in *. lia.
  - split; [done|]. split; [|done]. destruct I as [Ia Is Iu Ik IU Ib Iz]. split; try done. intros va Hva. destruct (Hold va Hva) as (e & He).
    rewrite <- (Ib va Hva). apply (ubyte_same s s' free pd T E va e Ia); [lia | done..].
Qed.

(** ** Writing to a page *)

Lemma image_write s free pd sz T E g img va e buf :
  image s free pd sz T E g img -> 0 <= va -> E !! (va / PGSIZE) = Some e -> va < PGSIZE * pages sz ->
  Z.of_nat (length buf) <= PGSIZE - va mod PGSIZE ->
  exists s', copy_bytes (frame e + va mod PGSIZE) buf s = Ret tt s' /\ same_but (uframes E) s s' /\
    image s' free pd sz T E g (fun a => if decide (va <= a < va + Z.of_nat (length buf)) then buf !!! Z.to_nat (a - va) else img a).
Proof.
  intros [Ia Is Iu Ik IU Ib Iz] Hva He Hlt Hl. assert (PGSIZE * pages sz <= KERNBASE) as Hk by (pose proof (pages_range sz ltac:(lia)); unfold KERNBASE, USER, PGSIZE in *; lia).
  destruct (copy_chunk kend kend_range s free pd T E va e buf Ia ltac:(lia) He Hl) as (s' & E1 & Ha' & Hs & _ & Hb).
  exists s'. split; [done|]. split.
  { eapply same_but_mono; [|exact Hs]. intros a ->%list_elem_of_singleton. apply elem_of_uframes. exists (va / PGSIZE), e. split; [apply user_page; lia | done]. }
  split; try done.
  - intros a Hr. rewrite Hb by lia. case_decide; [|by apply Ib]. apply list_lookup_lookup_total_lt. lia.
  - intros a Hr. rewrite decide_False; [by apply Iz|]. destruct (split_va va) as [Ev Hm].
    assert (va / PGSIZE < pages sz) by (apply Z.div_lt_upper_bound; [done | lia]). unfold PGSIZE in *. nia.
Qed.
(** ** Loading a segment *)

Abbreviation st := (mk_xst (F := F)).

Lemma on_xm_ret {A} (m : M kmem_t A) s h p f x s' : m s = Ret x s' -> on_xm m (st s h p f) = Ret x (st s' h p f).
Proof. unfold on_xm, zoom. cbn [xm]. by intros ->. Qed.

Lemma readi_run ip off n s h p f :
  exists f', calls (readi ip off n) (st s h p f) = Ret (file f ip off n) (st s h p f') /\ content f' ip = content f ip.
Proof.
  unfold calls. cbn [xf xm xh xp]. pose proof (readi_file ip off n f) as E.
  pose proof (readi_content ip off n f) as Hc. destruct (readi ip off n f) as [o f']. cbn [fst snd] in *. subst o. by exists f'.
Qed.

(** The page a user address is on. *)
Lemma image_page s free pd sz T E g img va :
  image s free pd sz T E g img -> 0 <= va < PGSIZE * pages sz -> exists e, E !! (va / PGSIZE) = Some e /\ 0 <= va < KERNBASE.
Proof.
  intros I Hva. pose proof (im_sz _ _ _ _ _ _ _ _ I) as Hsz. assert (0 <= va < KERNBASE) as Hk.
  { pose proof (pages_range sz ltac:(lia)). unfold KERNBASE, USER, PGSIZE in *. lia. }
  destruct (proj2 (im_user _ _ _ _ _ _ _ _ I (va / PGSIZE) (user_page va Hk))) as (e & He); [apply Z.div_lt_upper_bound; [done | lia] | eauto].
Qed.

Lemma walk_page s free pd sz T E g img va e h p f :
  image s free pd sz T E g img -> 0 <= va < KERNBASE -> E !! (va / PGSIZE) = Some e ->
  exists a, on_xm (walkpgdir pd va false) (st s h p f) = Ret a (st s h p f) /\ (a =? 0) = false /\
    on_xm (load32 a) (st s h p f) = Ret e (st s h p f) /\ P2V (PTE_ADDR e) (st s h p f) = Ret (frame e) (st s h p f).
Proof.
  intros I Hva He. pose proof (im_as _ _ _ _ _ _ _ _ I) as Ha. pose proof (as_tab _ _ _ _ _ _ Ha) as Hpt.
  destruct (pt_dom kend _ _ _ _ Hpt _ e He) as ([t Ht] & _). exists (slot t (va / PGSIZE)). split_and!.
  - apply on_xm_ret. rewrite (walk_get kend kend_range s pd T E va Hpt) by (unfold KERNBASE in *; lia). by rewrite Ht.
  - by apply (slot_nonzero kend kend_range s pd T E (va / PGSIZE / 1024)).
  - apply on_xm_ret. rewrite (load_slot kend s pd T E _ t Hpt Ht). by rewrite He.
  - by apply (P2V_frame kend kend_range s free pd T E (va / PGSIZE) e (st s h p f) Ha (user_page va Hva)).
Qed.

(** A part of the file is read in full exactly when the file is that long. *)
Lemma chunk_bytes ip off n f c l : content f ip = Some c -> 0 <= off -> 0 < n -> file f ip off n = Some l ->
  (Z.of_nat (length l) = n <-> off + n <= Z.of_nat (length c)) /\ off + n < 2 ^ 32 /\
  forall i, 0 <= i < Z.of_nat (length l) -> l !!! Z.to_nat i = c !!! Z.to_nat (off + i).
Proof.
  intros Hc Ho Hn Hf. destruct (file_content ip off n f c l Hc Ho ltac:(lia) Hf) as [Es Hw]. split; [|split; [done|]].
  { rewrite Es. unfold slice. rewrite length_take, length_drop. lia. }
  intros i Hi. assert (Z.to_nat i < length l)%nat as Hlt by lia. apply list_lookup_lookup_total_lt in Hlt.
  rewrite Es in Hlt at 1. unfold slice in Hlt. rewrite lookup_take_Some in Hlt. destruct Hlt as [Hlt _]. rewrite lookup_drop in Hlt.
  symmetry. apply list_lookup_total_correct. rewrite <- Hlt. f_equal. lia.
Qed.

(** The bytes from [i] to [fsz] of a segment are in the file [c], and where
    they are in memory afterwards. *)
Definition loads c (off va fsz i r : Z) (img img' : Z -> Z) : Prop :=
  (r = 0 <-> fsz <= i \/ off + fsz <= Z.of_nat (length c)) /\
  (r = 0 -> forall a, img' a = if decide (va + i <= a < va + fsz) then c !!! Z.to_nat (off + (a - va)) else img a).

Lemma loaduvm_loop_law pd sz T E ip off va fsz h p free fuel :
  va mod PGSIZE = 0 -> 0 <= va -> va + fsz <= sz -> 0 <= off -> forall s f i img,
  image s free pd sz T E None img -> 0 <= i -> i mod PGSIZE = 0 -> fsz - i <= PGSIZE * Z.of_nat fuel ->
  (is_Some (content f ip) -> i < fsz -> off + i < 2 ^ 32) ->
  exists r s' f' img', loaduvm_loop (S fuel) pd va ip off fsz i (st s h p f) = Ret r (st s' h p f') /\ (r = 0 \/ r = -1) /\
    same_but (uframes E) s s' /\ image s' free pd sz T E None img' /\ content f' ip = content f ip /\
    forall c, content f ip = Some c -> loads c off va fsz i r img img'.
Proof.
  intros Hal Hva Hend Hoff. induction fuel as [|fuel IH]; intros s f i img I Hi Him Hf Hlim; cbn [loaduvm_loop]; (destruct (Z.ltb_spec i fsz) as [Hlt|Hge];
    [|exists 0, s, f, img; split_and!; [done | by left | apply same_but_refl | done.. | intros c _; split; [split; [by left | done] | intros _ a; by rewrite decide_False by lia]]]); [lia|].
  assert ((va + i) mod PGSIZE = 0) as Hvi by (rewrite Zplus_mod, Hal, Him; done).
  assert (0 <= va + i < PGSIZE * pages sz) as Hr by (pose proof (pages_lt ((va + i) / PGSIZE) sz); destruct (split_va (va + i)); unfold PGSIZE in *; lia).
  destruct (image_page _ _ _ _ _ _ _ _ _ I Hr) as (e & He & Hk).
  destruct (walk_page s free pd sz T E None img (va + i) e h p f I Hk He) as (a & E1 & E2 & E3 & E4).
  rewrite (u32_small (va + i)) by (unfold KERNBASE in *; lia).
  set (n := if fsz - i <? PGSIZE then fsz - i else PGSIZE).
  assert (n = Z.min (fsz - i) PGSIZE) as Hn by (unfold n; destruct (Z.ltb_spec (fsz - i) PGSIZE); lia). clearbody n.
  assert (0 < n) as Hn0 by (unfold PGSIZE in *; lia). set (o := u32 (off + i)).
  assert (forall c, content f ip = Some c -> o = off + i) as Ho by (intros c Hc; apply u32_small; specialize (Hlim (ex_intro _ c Hc) Hlt); lia).
  destruct (readi_run ip o n s h p f) as (f1 & E5 & Hc1). assert (0 <= o) as Ho0 by (unfold o; pose proof (u32_range (off + i)); lia).
  rewrite (bind_ret _ _ _ _ _ E1), E2, (bind_ret _ _ _ _ _ E3), (bind_ret _ _ _ _ _ E4), (bind_ret _ _ _ _ _ E5).
  clear E1 E2 E3 E4 E5 a. destruct (file f ip o n) as [l|] eqn:El.
  2: { exists (-1), s, f1, img. split_and!; [done | by right | apply same_but_refl | done.. |]. intros c Hc. split; [|done]. split; [done|].
    intros [|Hl]; [lia|]. destruct (content_file ip o n f c Hc Ho0) as [x Hx]; [lia | rewrite (Ho c Hc); lia | congruence]. }
  destruct (readi_length ip o n f l ltac:(lia) El) as [Hll _].
  destruct (image_write s free pd sz T E None img (va + i) e l I ltac:(lia) He ltac:(lia) ltac:(lia)) as (s1 & E1 & Hs1 & I1).
  rewrite Hvi, Z.add_0_r in E1. rewrite (bind_ret _ _ _ _ _ (on_xm_ret _ s h p f1 _ _ E1)).
  destruct (Z.eqb_spec (Z.of_nat (length l)) n) as [Hlen|Hlen]; cbn [negb].
  2: { eexists (-1), s1, f1, _. split_and!; [done | by right | done.. |]. intros c Hc. split; [|done]. split; [done|].
    intros [|Hl]; [lia|]. destruct Hlen. apply (chunk_bytes ip o n f c l Hc Ho0 Hn0 El). rewrite (Ho c Hc). lia. }
  pose proof (im_sz _ _ _ _ _ _ _ _ I) as Hsz. rewrite (u32_small (i + PGSIZE)) by (unfold KERNBASE, PGSIZE in *; lia).
  destruct (IH s1 f1 (i + PGSIZE) _ I1) as (r & s2 & f2 & img2 & E2 & Hr2 & Hs2 & I2 & Hc2 & Hld);
    [unfold PGSIZE; lia | rewrite Zplus_mod, Him; done | unfold PGSIZE in *; lia | |].
  { intros [c Hc] Hlt2. destruct (chunk_bytes ip o n f c l ltac:(congruence) Ho0 Hn0 El) as (_ & Hw & _). rewrite (Ho c) in Hw by congruence. lia. }
  exists r, s2, f2, img2. split_and!; try done; [by eapply same_but_trans | congruence|].
  intros c Hc. destruct (Hld c) as [Hr3 Himg]; [congruence|].
  destruct (chunk_bytes ip o n f c l Hc Ho0 Hn0 El) as (Hfull & _ & Hb). rewrite (Ho c Hc) in *. split.
  - rewrite Hr3. apply Hfull in Hlen as Hle. split; [intros [|]; [right; lia | by right] | intros [|]; [lia | by right]].
  - intros Hr0 b. rewrite Himg by done. repeat case_decide; try lia; try done.
    rewrite Hb by lia. do 2 f_equal. lia.
Qed.

Lemma loaduvm_law pd sz T E ip off va fsz h p free s f img :
  va mod PGSIZE = 0 -> 0 <= va -> 0 <= fsz -> va + fsz <= sz -> 0 <= off < 2 ^ 32 -> image s free pd sz T E None img ->
  exists r s' f' img', loaduvm pd va ip off fsz (st s h p f) = Ret r (st s' h p f') /\ (r = 0 \/ r = -1) /\
    same_but (uframes E) s s' /\ image s' free pd sz T E None img' /\ content f' ip = content f ip /\
    forall c, content f ip = Some c -> loads c off va fsz 0 r img img'.
Proof.
  intros Hal Hva Hfsz Hend Hoff I. unfold loaduvm. rewrite Hal. cbn [Z.eqb negb].
  apply (loaduvm_loop_law pd sz T E ip off va fsz h p free (Z.to_nat (fsz / PGSIZE + 1)) Hal Hva Hend); try done; [lia | unfold PGSIZE; Z.div_mod_to_equations; lia | lia].
Qed.

(** ** All segments *)

Lemma proghdr_fields l : length l = 32%nat -> Forall byte l ->
  0 <= vaddr (proghdr_of l) < 2 ^ 32 /\ 0 <= filesz (proghdr_of l) /\ 0 <= memsz (proghdr_of l) < 2 ^ 32 /\
    0 <= poff (proghdr_of l) < 2 ^ 32.
Proof.
  intros Hl Hb. cbn [vaddr filesz memsz poff proghdr_of]. pose proof (get32_range l 4 ltac:(lia) Hb).
  pose proof (get32_range l 8 ltac:(lia) Hb). pose proof (get32_range l 16 ltac:(lia) Hb). pose proof (get32_range l 20 ltac:(lia) Hb). lia.
Qed.

(** The specification does not tell equal images apart. *)
Lemma spec_load_ext c n : forall off sz im im',
  (forall a, im a = im' a) ->
  match spec_load c n off sz im, spec_load c n off sz im' with
  | Some (z, i), Some (z', i') => z = z' /\ forall a, i a = i' a
  | None, None => True
  | _, _ => False
  end.
Proof.
  induction n as [|n IH]; intros off sz im im' He; cbn [spec_load]; [done|]. destruct (negb (Nat.eqb _ _)); [done|].
  destruct (negb (ptype _ =? _)); [by apply IH|]. destruct (_ || _); [done|]. apply IH. intros a. unfold seg_img. by case_decide.
Qed.

Lemma spec_load_size c n : forall off sz img z im, spec_load c n off sz img = Some (z, im) -> sz <= z.
Proof.
  induction n as [|n IH]; intros off sz img z im; cbn [spec_load]; [intros [= <- _]; lia|].
  destruct (negb (Nat.eqb _ _)); [done|]. destruct (negb (ptype _ =? _)); [apply IH|]. destruct (_ || _); [done|].
  intros Hs%IH. lia.
Qed.

(** What the loop returns: the size and the image asked for, or [None] where
    there is no such image or not memory enough; either way the space can be
    freed. *)
Definition load_out pd h p (res : outcome (xst F) (option Z)) s (O : list Z) (c : option (list Z)) (spec : list Z -> option (Z * (Z -> Z)))
    (N : nat) (sz : Z) : Prop :=
  exists o s' f' free' T' E' sz' img', res = Ret o (st s' h p f') /\ moves s O s' (free' ++ owns pd T' E') /\
    image s' free' pd sz' T' E' None img' /\
    (o = None /\ (forall l z im, c = Some l -> spec l = Some (z, im) -> (N < 2 * Z.to_nat (pages z - pages sz))%nat) \/
     o = Some sz' /\ (N <= length free' + 2 * Z.to_nat (pages sz' - pages sz))%nat /\
       sz <= sz' /\ forall l, c = Some l -> exists im, spec l = Some (sz', im) /\ forall a, im a = img' a).

Lemma load_bad pd h p s O c spec N sz s' f' free' T' E' sz' img' :
  moves s O s' (free' ++ owns pd T' E') -> image s' free' pd sz' T' E' None img' ->
  (forall l z im, c = Some l -> spec l = Some (z, im) -> (N < 2 * Z.to_nat (pages z - pages sz))%nat) ->
  load_out pd h p (Ret None (st s' h p f')) s O c spec N sz.
Proof. intros Hm I Hb. exists None, s', f', free', T', E', sz', img'. split_and!; try done. by left. Qed.

Lemma load_then pd h p res s O s1 O1 c c1 spec spec1 N N1 sz sz1 :
  moves s O s1 O1 -> c1 = c -> sz <= sz1 -> (N <= N1 + 2 * Z.to_nat (pages sz1 - pages sz))%nat ->
  (forall l, c = Some l -> match spec l, spec1 l with
    | Some (z, i), Some (z', i') => z = z' /\ sz1 <= z /\ forall a, i a = i' a
    | None, None => True
    | _, _ => False
    end) ->
  load_out pd h p res s1 O1 c1 spec1 N1 sz1 -> load_out pd h p res s O c spec N sz.
Proof.
  intros Hm -> Hsz HN Hs (o & s' & f' & free' & T' & E' & sz' & img' & E1 & Hm' & I & Ho). pose proof (pages_mono sz sz1 Hsz) as Hpm.
  exists o, s', f', free', T', E', sz', img'. split_and!; [done | by eapply moves_trans | done|]. destruct Ho as [[Ho Hb]|(Ho & HN' & Hsz' & Hl)]; [left | right].
  - split; [done|]. intros l z im Hc Hsp. specialize (Hs l Hc). rewrite Hsp in Hs. destruct (spec1 l) as [[z' im']|] eqn:E2; [|done].
    destruct Hs as (<- & Hz & _). pose proof (Hb l z im' Hc E2). pose proof (pages_mono sz1 z Hz). lia.
  - split; [done|]. pose proof (pages_mono sz1 sz' Hsz'). split; [lia|]. split; [lia|]. intros l Hc. destruct (Hl l Hc) as (im & Hsp & Hi).
    specialize (Hs l Hc). rewrite Hsp in Hs. destruct (spec l) as [[z' im']|]; [|done]. destruct Hs as (-> & _ & Hi'). exists im'. split; [done|].
    intros a. by rewrite Hi'.
Qed.

Lemma load_out_ext pd h p res s O c spec spec' N sz :
  (forall l, c = Some l -> spec l = spec' l) -> load_out pd h p res s O c spec' N sz -> load_out pd h p res s O c spec N sz.
Proof.
  intros He (o & s' & f' & free' & T' & E' & sz' & img' & E1 & Hm & I & Ho). exists o, s', f', free', T', E', sz', img'. split_and!; try done.
  destruct Ho as [[Ho Hb]|(Ho & HN & Hsz & Hl)]; [left | right].
  - split; [done|]. intros l z im Hc. rewrite He by done. by apply Hb.
  - split_and!; try done. intros l Hc. rewrite He by done. by apply Hl.
Qed.

(** The header that is read is the one of the specification. *)
Lemma header_read ip off f : 0 <= off ->
  match file f ip off proghdr_size with
  | Some l => Forall byte l /\ forall c, content f ip = Some c -> slice (Z.to_nat off) 32 c = l
  | None => forall c, content f ip = Some c -> Nat.eqb (length (slice (Z.to_nat off) 32 c)) 32 = false
  end.
Proof.
  intros Hoff. destruct (file f ip off proghdr_size) as [l|] eqn:El.
  - destruct (readi_length ip off proghdr_size f l ltac:(done) El) as [_ Hby]. split; [done|]. intros c Hc.
    by destruct (file_content ip off proghdr_size f c l Hc Hoff ltac:(done) El) as [-> _].
  - intros c Hc. apply Nat.eqb_neq. unfold slice. rewrite length_take, length_drop. intros Hl.
    destruct (content_file ip off proghdr_size f c Hc Hoff) as [x Hx]; [done | unfold proghdr_size; lia | congruence].
Qed.

Lemma load_segments_law pd ip h p n : forall off sz s f free T E img,
  image s free pd sz T E None img -> 0 <= off ->
  load_out pd h p (load_segments kend n pd ip off sz (st s h p f)) s (free ++ owns pd T E) (content f ip) (fun c => spec_load c n off sz img)
    (length free) sz.
Proof.
  induction n as [|n IH]; intros off sz s f free T E img I Hoff; cbn [load_segments spec_load].
  { exists (Some sz), s, f, free, T, E, sz, img. split; [done|]. split; [apply moves_refl|]. split; [done|]. right. split; [done|].
    split; [lia|]. split; [done|]. intros c _. by exists img. }
  destruct (readi_run ip off proghdr_size s h p f) as (f1 & E1 & Hc1). rewrite (bind_ret _ _ _ _ _ E1). clear E1.
  pose proof (moves_refl s (free ++ owns pd T E)) as Hm0. pose proof (header_read ip off f Hoff) as Hhd.
  destruct (file f ip off proghdr_size) as [l|] eqn:El; [|eapply load_bad; [done..|]; intros c z im Hc; by rewrite (Hhd c Hc)].
  destruct Hhd as [Hby Hsl].
  destruct (Z.eqb_spec (Z.of_nat (length l)) proghdr_size) as [Hlen|Hlen]; cbn [negb].
  2: { eapply load_bad; [done..|]. intros c z im Hc. rewrite (Hsl c Hc), (proj2 (Nat.eqb_neq _ 32)); [done | unfold proghdr_size in *; lia]. }
  assert (length l = 32%nat) as Hl32 by (unfold proghdr_size in Hlen; lia).
  destruct (proghdr_fields l Hl32 Hby) as (Hv & Hfz & Hmz & Hpo). pose proof (u32_range (off + proghdr_size)) as Hnext.
  eapply load_out_ext; [intros c Hc; rewrite (Hsl c Hc), Hl32; reflexivity|]. set (ph := proghdr_of l) in *. cbn [Nat.eqb negb]. clearbody ph. clear Hsl Hby Hlen Hl32 El l.
  destruct (Z.eqb_spec (ptype ph) ELF_PROG_LOAD) as [_|_]; cbn [negb].
  2: { eapply (load_then _ _ _ _ _ _ _ _ _ _ _ _ _ _ _ _ Hm0 Hc1); [| | |apply (IH _ _ s f1 free T E img I); lia]; [lia | lia|].
    intros c Hc. cbn beta. destruct (spec_load c n _ sz img) as [[z im]|] eqn:Es; [|done]. apply spec_load_size in Es. done. }
  destruct (Z.ltb_spec (memsz ph) (filesz ph)) as [|Hmf]; cbn [orb]; [by eapply load_bad|].
  assert (u32 (vaddr ph + memsz ph) < vaddr ph -> KERNBASE <= vaddr ph + memsz ph) as Hw1.
  { intros Hw. apply Z.nlt_ge. intros Hlt. rewrite u32_small in Hw; unfold KERNBASE in *; lia. }
  destruct (Z.ltb_spec (u32 (vaddr ph + memsz ph)) (vaddr ph)) as [Hw|Hwrap].
  { rewrite (proj2 (Z.leb_le _ _) (Hw1 Hw)). cbn [orb]. by eapply load_bad. }
  assert (u32 (vaddr ph + memsz ph) = vaddr ph + memsz ph) as Hu.
  { destruct (Z.lt_ge_cases (vaddr ph + memsz ph) (2 ^ 32)); [apply u32_small; lia|]. exfalso. revert Hwrap.
    unfold u32. rewrite <- (Z_mod_plus_full _ (-1)), Z.mod_small; lia. }
  rewrite Hu. set (new := vaddr ph + memsz ph) in *.
  destruct (image_grow s free pd sz T E img new I ltac:(lia)) as (r & s1 & fr1 & T1 & E1 & Ea & Hm1 & Hr).
  rewrite (bind_ret _ _ _ _ _ (on_xm_ret _ s h p f1 _ _ Ea)).
  destruct (Z.leb_spec KERNBASE new) as [Hbig|Hk]; cbn [orb].
  { destruct Hr as [(-> & I1 & _)|(_ & ? & _)]; [by eapply load_bad | lia]. }
  destruct Hr as [(-> & I1 & Hno)|(-> & _ & I1 & HN)]; cbn [Z.eqb].
  { eapply load_bad; [done | done|]. intros c z im Hc. destruct (_ || _); [done|]. intros Hz%spec_load_size.
    destruct (Hno Hk) as [Hsz Hlt]. pose proof (pages_mono new z ltac:(lia)). lia. }
  set (top := Z.max sz new) in *. destruct (Z.eqb_spec top 0) as [Ht0|Ht0]; cbn [orb]; [by eapply load_bad|].
  destruct (Z.eqb_spec (vaddr ph mod PGSIZE) 0) as [Hal|]; cbn [negb orb]; [|by eapply load_bad].
  destruct (loaduvm_law pd top T1 E1 ip (poff ph) (vaddr ph) (filesz ph) h p fr1 s1 f1 img Hal ltac:(lia) Hfz ltac:(lia) Hpo I1)
    as (r2 & s2 & f2 & img2 & E2 & Hr2 & Hs2 & I2 & Hc2 & Hld).
  rewrite (bind_ret _ _ _ _ _ E2).
  assert (moves s (free ++ owns pd T E) s2 (fr1 ++ owns pd T1 E1)) as Hm2.
  { eapply moves_trans; [exact Hm1|]. eapply moves_inner; [exact Hs2 | apply frames_owned]. }
  assert (forall c, content f ip = Some c -> (0 <? filesz ph) && (Z.of_nat (length c) <? poff ph + filesz ph) = negb (bool_decide (r2 = 0))) as Hok.
  { intros c Hc. destruct (Hld c) as [Hiff _]; [congruence|].
    destruct (Z.ltb_spec 0 (filesz ph)), (Z.ltb_spec (Z.of_nat (length c)) (poff ph + filesz ph)); case_bool_decide; cbn; try done; exfalso; lia. }
  destruct Hr2 as [->| ->]; [|eapply load_bad; [done..|]; intros c z im Hc; by rewrite (Hok c Hc)]. change (0 <? 0) with false. cbn iota.
  eapply (load_then _ _ _ _ _ _ _ _ _ _ _ _ _ _ _ _ Hm2); [exact (eq_trans Hc2 Hc1) | | | | apply (IH _ _ s2 f2 fr1 T1 E1 img2 I2); lia]; [lia | exact HN|].
  intros c Hc. rewrite (Hok c Hc). cbn [bool_decide negb].
  pose proof (spec_load_ext c n (u32 (off + proghdr_size)) top (seg_img c ph img) img2) as Hext. destruct (Hld c) as [_ Him]; [congruence|].
  specialize (Him eq_refl). change (negb (bool_decide (0 = 0))) with false. cbn iota.
  assert (forall a, seg_img c ph img a = img2 a) as Hse by (intros a; rewrite Him, Z.add_0_r; done). specialize (Hext Hse).
  destruct (spec_load c n _ top (seg_img c ph img)) as [[z im]|] eqn:Es, (spec_load c n _ top img2) as [[z' im']|]; try done.
  destruct Hext as [-> Hi]. apply spec_load_size in Es. done.
Qed.
End img.
