(* ===== verification/ExecSafe.v ===== *)
(** * Correctness of [exec]

    [exec] returns -1 with the calling process as it was and every page given
    back, or 0 with the process on a new address space that holds the program
    and its arguments; it never panics. *)

From Stdlib Require Import Btauto.
From S2P Require Import Prelude Spinlock Cstring Kalloc Seg Vm VmTab VmInv VmKern VmUser VmSafe Exec ExecImg.
From S2P Require Proc Sysfile.

(** The bytes [l] stand at address [a] of an image. *)
Definition bytes_at (img : Z -> Z) (a : Z) (l : list Z) : Prop :=
  forall i c, l !! i = Some c -> img (a + Z.of_nat i) = c.

Lemma bytes_at_ext img img' a l :
  (forall x, a <= x < a + Z.of_nat (length l) -> img' x = img x) -> bytes_at img a l -> bytes_at img' a l.
Proof. intros He Hb i c Hi. rewrite He; [by apply Hb|]. apply lookup_lt_Some in Hi. lia. Qed.

Definition fit_args (argv : list (list Z)) : Prop := Forall (fun a => Z.of_nat (length a) + 4 <= 2 ^ 25) argv.

(** The space the arguments take. *)
Fixpoint args_bytes (args : list (list Z)) : Z :=
  match args with [] => 0 | a :: args => 4 * ((Z.of_nat (length a) + 4) / 4) + args_bytes args end.

Lemma args_bytes_nonneg args : 0 <= args_bytes args.
Proof. induction args; cbn [args_bytes]; [done|]. Z.div_mod_to_equations. lia. Qed.

Lemma args_fit argv : args_bytes argv + 4 * (4 + Z.of_nat (length argv)) <= PGSIZE -> fit_args argv.
Proof.
  intros Hb. assert (args_bytes argv <= PGSIZE) as Hle by lia. clear Hb. unfold fit_args, PGSIZE in *. induction argv as [|x argv IH]; [constructor|].
  cbn [args_bytes] in Hle. pose proof (args_bytes_nonneg argv). constructor; [|apply IH]; Z.div_mod_to_equations; lia.
Qed.

Lemma align_down x : Z.land (u32 x) (u32 (Z.lnot 3)) = u32 (4 * (x / 4)).
Proof.
  replace (4 * (x / 4)) with (Z.ldiff x (Z.ones 2)).
  2: { rewrite Z.ldiff_ones_r, Z.shiftl_mul_pow2, Z.shiftr_div_pow2 by lia. change (2 ^ 2) with 4. lia. }
  change (u32 (Z.lnot 3)) with (Z.ldiff (Z.ones 32) (Z.ones 2)). unfold u32. rewrite <- !Z.land_ones by lia.
  apply Z.bits_inj'. intros i Hi. rewrite !Z.land_spec, !Z.ldiff_spec. btauto.
Qed.

Lemma words_length l : length (words l) = (4 * length l)%nat.
Proof. unfold words. induction l as [|x l IH]; [done|]. rewrite fmap_cons. cbn [concat length]. rewrite length_app, length_le_enc, IH. lia. Qed.

Section stack.
Context (kend data ts_addr : Z) {F : Type} `{Files F}.
Hypothesis kend_range : KERNBASE < kend <= KERNBASE + PHYSTOP.
Hypothesis data_range : KERNLINK < data < kend.
Hypothesis data_aligned : data mod PGSIZE = 0.
Implicit Types (s : kmem_t) (T E : gmap Z Z) (free : list Z) (h : hw) (p : xproc) (f : F) (img : Z -> Z).
Abbreviation image := (image kend data).
Abbreviation st := (mk_xst (F := F)).

Lemma pages_round sz : pages (PGSIZE * pages sz) = pages sz.
Proof. unfold pages, PGSIZE. Z.div_mod_to_equations. lia. Qed.

Lemma image_round s free pd sz T E g img :
  image s free pd sz T E g img -> PGSIZE * pages sz < KERNBASE -> image s free pd (PGSIZE * pages sz) T E g img.
Proof.
  intros [Ia Is Iu Ik IU Ib Iz] Hk. pose proof (pages_range sz ltac:(lia)). split; rewrite ?pages_round; try done. unfold PGSIZE in *. lia.
Qed.

(** ** The guard page *)

Lemma image_guard s free pd sz T E img n :
  image s free pd sz T E None img -> 0 <= n < pages sz ->
  exists s' E', clearpteu pd (PGSIZE * n) s = Ret tt s' /\ image s' free pd sz T E' (Some n) img /\
    moves s (free ++ owns pd T E) s' (free ++ owns pd T E').
Proof.
  intros I Hn. assert (PGSIZE * n / PGSIZE = n) as Hd by (rewrite Z.mul_comm; by apply Z.div_mul).
  destruct (image_page kend data _ _ _ _ _ _ _ _ (PGSIZE * n) I) as (e & He & Hk); [unfold PGSIZE in *; lia|]. rewrite Hd in He.
  pose proof (user_page _ Hk) as Hnu. rewrite Hd in Hnu. destruct I as [Ia Is Iu Ik IU Ib Iz].
  destruct (pt_dom kend _ _ _ _ (as_tab _ _ _ _ _ _ Ia) _ e He) as (_ & _ & Her). destruct (clear_u_spec e Her) as (_ & Hf & _ & _ & Hcu).
  destruct (clearpteu_law kend kend_range s free pd T E (PGSIZE * n) e Ia Hk) as (s' & E1 & H' & Hs & Hp); [by rewrite Hd|]. rewrite Hd in *.
  exists s', (<[n := clear_u e]> E). split; [done|]. split; [split; [exact H' | exact Is | | | | | exact Iz]|].
  - intros m Hm. rewrite <- Iu by done. destruct (decide (m = n)) as [->|]; [rewrite lookup_insert_eq, He; split; by eexists | by rewrite lookup_insert_ne].
  - intros m Hm. rewrite lookup_insert_ne by lia. by apply Ik.
  - intros m e' Hm. destruct (decide (m = n)) as [->|Hne].
    + rewrite lookup_insert_eq. intros [= <-]. by rewrite bool_decide_eq_true_2.
    + rewrite lookup_insert_ne by done. intros He'. rewrite (IU m e') by done. rewrite !bool_decide_eq_false_2; congruence.
  - intros va Hva. rewrite <- (Ib va Hva). unfold ubyte.
    assert (0 <= va < KERNBASE) as Hvk by (pose proof (pages_range sz ltac:(lia)); unfold KERNBASE, USER, PGSIZE in *; lia).
    assert (forall e', E !! (va / PGSIZE) = Some e' -> page (pmem s') (frame e') = page (pmem s) (frame e')) as Hpg.
    { intros e' He'. destruct (frame_apart kend kend_range _ _ _ _ _ _ _ Ia (user_page va Hvk) He') as (_ & _ & Ht). apply Hs. intros Hx. apply Ht. by right. }
    destruct (decide (va / PGSIZE = n)) as [Eq|Hne].
    + rewrite Eq, lookup_insert_eq, He. cbn [mbind option_bind]. rewrite Hf, Hpg; [done | by rewrite Eq].
    + rewrite lookup_insert_ne by done. destruct (E !! (va / PGSIZE)) as [e'|]; [|done]. cbn [mbind option_bind]. by rewrite Hpg.
  - split; [unfold owns; by rewrite Hp|]. eapply same_but_mono; [|exact Hs]. unfold owns. intros x Hx. rewrite !elem_of_app, elem_of_cons, elem_of_app. tauto.
Qed.

(** ** Writes through the page table *)

Lemma image_any s free pd sz T E g img s' :
  image s free pd sz T E g img -> aspace kend s' free pd T E -> exists img', image s' free pd sz T E g img'.
Proof.
  intros I Ha. pose proof (im_sz _ _ _ _ _ _ _ _ _ _ I) as Hsz.
  exists (fun a => if decide (0 <= a < PGSIZE * pages sz) then default 0 (ubyte s' E a) else 0).
  assert (forall va, 0 <= va < PGSIZE * pages sz -> is_Some (ubyte s' E va)) as Hb.
  { intros va Hva. destruct (image_page kend data _ _ _ _ _ _ _ _ va I Hva) as (e & He & _). unfold ubyte. rewrite He. cbn [mbind option_bind].
    apply lookup_lt_is_Some_2. rewrite (length_page kend s' free) by apply Ha. unfold pgoff. pose proof (Z.mod_pos_bound va PGSIZE). unfold PGSIZE in *. lia. }
  destruct I as [Ia Is Iu Ik IU Ib Iz]. split; try done.
  - intros va Hva. rewrite decide_True by done. destruct (Hb va Hva) as (x & ->). done.
  - intros va Hva. rewrite decide_False by lia. done.
Qed.

Lemma image_copyout s free pd sz T E g img va buf :
  image s free pd sz T E g img -> 0 <= va -> va + Z.of_nat (length buf) <= PGSIZE * pages sz ->
  exists r s' img', copyout pd va buf s = Ret r s' /\ same_but (uframes E) s s' /\ image s' free pd sz T E g img' /\
    (r = 0 \/ r = -1) /\ (r = 0 <-> forall a, va <= a < va + Z.of_nat (length buf) -> g <> Some (a / PGSIZE)) /\
    (r = 0 -> bytes_at img' va buf /\ forall a, ~ (va <= a < va + Z.of_nat (length buf)) -> img' a = img a).
Proof.
  intros I Hva Hend. pose proof (im_sz _ _ _ _ _ _ _ _ _ _ I) as Hsz. pose proof (im_as _ _ _ _ _ _ _ _ _ _ I) as Ia.
  assert (PGSIZE * pages sz <= KERNBASE) as Hk by (pose proof (pages_range sz ltac:(lia)); unfold KERNBASE, USER, PGSIZE in *; lia).
  assert (forall a, va <= a < va + Z.of_nat (length buf) -> exists e, E !! (a / PGSIZE) = Some e /\ has e PTE_U = negb (bool_decide (g = Some (a / PGSIZE)))) as Hpg.
  { intros a Ha. destruct (image_page kend data _ _ _ _ _ _ _ _ a I) as (e & He & _); [lia|]. exists e. split; [done|].
    apply (im_u _ _ _ _ _ _ _ _ _ _ I); [split; [apply Z.div_pos; [lia | done] | apply Z.div_lt_upper_bound; [done | lia]] | done]. }
  destruct (copyout_loop_any kend kend_range (S (length buf)) s free pd T E va buf Ia Hva) as (r & s' & E1 & H' & Hs & Hr & Hall); [lia | lia | |].
  { intros a Ha. destruct (Hpg a Ha) as (e & He & _). by eexists. }
  destruct Hr as [->| ->].
  2: { destruct (image_any _ _ _ _ _ _ _ _ s' I H') as (img' & I'). exists (-1), s', img'. split_and!; try done; [by right|]. split; [done|]. intros Hg.
    destruct (copyout_law kend kend_range s free pd T E va buf Ia) as (s2 & E2 & _).
    { split_and!; [lia | lia|]. intros a Ha. destruct (Hpg a Ha) as (e & He & Heu). exists e. split; [done|]. rewrite Heu, bool_decide_eq_false_2; [done | by apply Hg]. }
    unfold copyout in E2. by rewrite E1 in E2. }
  specialize (Hall eq_refl). destruct (copyout_law kend kend_range s free pd T E va buf Ia) as (s2 & E2 & _ & _ & Hb); [by split_and!; [lia|lia|]|].
  unfold copyout in E2. rewrite E1 in E2. injection E2 as <-.
  assert (forall a, va <= a < va + Z.of_nat (length buf) -> g <> Some (a / PGSIZE)) as Hg.
  { intros a Ha Hg. destruct (Hall a Ha) as (e & He & Heu). destruct (Hpg a Ha) as (e' & He' & Heu'). rewrite He in He'. injection He' as <-.
    rewrite Heu in Heu'. by rewrite bool_decide_eq_true_2 in Heu'. }
  exists 0, s', (fun a => if decide (va <= a < va + Z.of_nat (length buf)) then buf !!! Z.to_nat (a - va) else img a).
  split; [done|]. split; [done|]. split; [|split; [by left | split; [done|]]].
  - destruct I as [_ Is Iu Ik IU Ib Iz]. split; try done.
    + intros a Ha. rewrite Hb by lia. case_decide; [|by apply Ib]. apply list_lookup_lookup_total_lt. lia.
    + intros a Ha. rewrite decide_False by lia. by apply Iz.
  - intros _. split; [|intros a Ha; by rewrite decide_False].
    intros i c Hi. pose proof (lookup_lt_Some _ _ _ Hi). rewrite decide_True by lia. apply list_lookup_total_correct. rewrite <- Hi. f_equal. lia.
Qed.

Lemma kernel_closed va :
  DEVSPACE <= va < 2 ^ 32 -> exists e, VmKern.kents data !! (va / PGSIZE) = Some e /\ has e PTE_U = false.
Proof.
  intros Hva. assert (kernel_map data va = Some (PGROUNDDOWN va, Z.lor PTE_W PTE_P)) as Hm.
  { unfold kernel_map. destruct (Z.ltb_spec va (KERNBASE + PHYSTOP)) as [Hl|_]; [unfold KERNBASE, PHYSTOP, DEVSPACE in *; lia|].
    destruct (Z.leb_spec DEVSPACE va) as [_|Hl]; [reflexivity | lia]. }
  rewrite <- (kents_map kend data kend_range data_range data_aligned va) in Hm by (unfold KERNBASE, DEVSPACE in *; lia).
  apply fmap_Some in Hm as (e & He & [= _ Hf]). exists e. split; [exact He|]. by rewrite user_flag, <- Hf.
Qed.

(** Addresses of the devices are mapped, but not for user code. *)
Lemma copyout_devices s free pd sz T E g img va buf :
  image s free pd sz T E g img -> DEVSPACE <= va < 2 ^ 32 -> buf <> [] -> copyout pd va buf s = Ret (-1) s.
Proof.
  intros I Hva Hb. pose proof (im_as _ _ _ _ _ _ _ _ _ _ I) as Ia. pose proof (as_tab _ _ _ _ _ _ Ia) as Hpt.
  unfold copyout. cbn [copyout_loop]. destruct buf as [|b buf]; [done|].
  rewrite PGROUNDDOWN_eq by (unfold DEVSPACE in *; lia). destruct (split_va va) as [Ev Hm]. set (n := va / PGSIZE) in *.
  assert (PGSIZE * n / PGSIZE = n) as Hd by (rewrite Z.mul_comm; by apply Z.div_mul).
  assert (DEVSPACE <= PGSIZE * n < 2 ^ 32) as Hr by (unfold DEVSPACE, PGSIZE in *; lia).
  destruct (kernel_closed (PGSIZE * n) Hr) as (e & Hke & Hfl). rewrite Hd in Hke.
  assert (E !! n = Some e) as Ee by (rewrite <- Hke; apply (im_kern _ _ _ _ _ _ _ _ _ _ I); unfold USER, DEVSPACE, PGSIZE in *; lia). clear Hke.
  destruct (pt_dom kend _ _ _ _ Hpt _ e Ee) as ([t Ht] & Hpr & _).
  assert (uva2ka pd (PGSIZE * n) s = Ret 0 s) as E1.
  { unfold uva2ka. etrans; [apply bind_ret, (walk_get kend kend_range s pd T E _ Hpt); unfold DEVSPACE in *; lia|]. rewrite Hd, Ht.
    rewrite (slot_nonzero kend kend_range s pd T E _ _ _ Hpt Ht).
    etrans; [apply (bind_ret _ _ _ _ _ (load_slot kend s pd T E _ t Hpt Ht))|]. rewrite Ee. cbn [default]. unfold id. rewrite Hpr. cbn [negb].
    by rewrite Hfl. }
  etrans; [apply (bind_ret _ _ _ _ _ E1)|]. done.
Qed.

(** ** The stack *)

(** A copy that ends within four bytes below [sp] succeeds only if it stays in
    the stack page: below it lies the guard page. *)
Lemma stack_copyout s free pd n T E img sp va buf :
  let sz := PGSIZE * (n + 2) in
  image s free pd sz T E (Some n) img -> 0 <= n -> sz - PGSIZE <= sp <= sz -> sp mod 4 = 0 -> va mod 4 = 0 ->
  0 < Z.of_nat (length buf) -> va + Z.of_nat (length buf) <= sp < va + Z.of_nat (length buf) + 4 -> - 2 ^ 25 <= va ->
  exists r s' img', copyout pd (u32 va) buf s = Ret r s' /\ same_but (uframes E) s s' /\ image s' free pd sz T E (Some n) img' /\
    (r = -1 /\ va < sz - PGSIZE \/ r = 0 /\ sz - PGSIZE <= va /\ u32 va = va /\ bytes_at img' va buf /\
      forall a, ~ (va <= a < va + Z.of_nat (length buf)) -> img' a = img a).
Proof.
  intros sz I Hn Hsp Hs4 Hv4 Hlen Hend Hlow. pose proof (im_sz _ _ _ _ _ _ _ _ _ _ I) as Hsz.
  destruct (Z.lt_ge_cases va 0) as [Hneg|Hpos].
  { exists (-1), s, img. split_and!; [|apply same_but_refl | done | left; split; [done | unfold sz, PGSIZE in *; lia]].
    apply (copyout_devices s free pd sz T E (Some n) img); [done | | by intros ->].
    unfold u32, DEVSPACE. rewrite <- (Z_mod_plus_full va 1), Z.mod_small; lia. }
  rewrite u32_small by (unfold KERNBASE in *; lia).
  assert (PGSIZE * pages sz = sz) as Hp by (unfold sz, pages, PGSIZE; Z.div_mod_to_equations; lia).
  destruct (image_copyout s free pd sz T E (Some n) img va buf I Hpos) as (r & s' & img' & E1 & Hs & I' & Hr & Hg & Hb); [lia|].
  exists r, s', img'. split_and!; try done. destruct Hr as [->| ->]; [right | left].
  - destruct (Hb eq_refl). split; [done|]. split; [|done].
    apply Z.le_ngt. intros Hlt. apply (proj1 Hg eq_refl (Z.min (va + Z.of_nat (length buf) - 1) (sz - PGSIZE - 1))); [lia|].
    f_equal. apply (Z.div_unique_pos _ _ _ (Z.min (va + Z.of_nat (length buf) - 1) (sz - PGSIZE - 1) - PGSIZE * n)); [|lia].
    unfold sz, PGSIZE in *. Z.div_mod_to_equations. lia.
  - split; [done|]. apply Z.nle_gt. intros Hge. assert (-1 = 0); [|done]. apply Hg. intros a Ha [= Hn']. subst n.
    destruct (split_va a). unfold sz, PGSIZE in *. lia.
Qed.

(** Where the argument [a] is, for the pointer [x]. *)
Definition arg_at (img : Z -> Z) (lo hi : Z) (a : list Z) (x : Z) : Prop :=
  lo <= x /\ x + Z.of_nat (length a) + 1 <= hi /\ bytes_at img x (a ++ [0]).

Lemma push_args_law pd n T E h p f free args : forall s img sp ustack,
  let sz := PGSIZE * (n + 2) in
  image s free pd sz T E (Some n) img -> 0 <= n -> sz - PGSIZE <= sp <= sz -> sp mod 4 = 0 ->
  fit_args args -> (length ustack <= Sysfile.MAXARG)%nat ->
  exists r s' img', push_args pd args sp ustack (st s h p f) = Ret r (st s' h p f) /\ same_but (uframes E) s s' /\
    image s' free pd sz T E (Some n) img' /\
    (r = None /\ ((Sysfile.MAXARG < length ustack + length args)%nat \/ sp - args_bytes args < sz - PGSIZE) \/
     exists sp' new, r = Some (sp', ustack ++ new) /\ (length (ustack ++ new) <= Sysfile.MAXARG)%nat /\ sz - PGSIZE <= sp' <= sp /\
      sp' = sp - args_bytes args /\ sp' mod 4 = 0 /\ Forall2 (arg_at img' sp' sp) args new /\ forall a, ~ (sp' <= a < sp) -> img' a = img a).
Proof.
  induction args as [|a args IH]; intros s img sp ustack sz I Hn Hsp Hs4 Hfit Hu; cbn [push_args].
  { exists (Some (sp, ustack)), s, img. split; [done|]. split; [apply same_but_refl|]. split; [done|]. right. exists sp, [].
    rewrite app_nil_r. cbn [args_bytes]. split_and!; done || lia || constructor. }
  apply Forall_cons in Hfit as [Hfa Hfit].
  destruct (Nat.leb_spec Sysfile.MAXARG (length ustack)) as [|Hlt].
  { exists None, s, img. split_and!; [done | apply same_but_refl | done|]. left. split; [done|]. left. cbn [length]. lia. }
  rewrite align_down. set (va := 4 * ((sp - (Z.of_nat (length a) + 1)) / 4)).
  assert (length (a ++ [0]) = S (length a)) as Hla by (rewrite length_app; cbn; lia).
  destruct (stack_copyout s free pd n T E img sp va (a ++ [0]) I Hn Hsp Hs4) as (r & s1 & img1 & E1 & Hs1 & I1 & Hr);
    [unfold va; Z.div_mod_to_equations; lia | lia | unfold va; Z.div_mod_to_equations; lia | unfold va, sz, PGSIZE in *; Z.div_mod_to_equations; lia|].
  rewrite (bind_ret _ _ _ _ _ (on_xm_ret _ s h p f _ _ E1)).
  assert (va = sp - 4 * ((Z.of_nat (length a) + 4) / 4)) as Hva4 by (unfold va; Z.div_mod_to_equations; lia). pose proof (args_bytes_nonneg args) as Hab.
  destruct Hr as [[-> Hlow]|(-> & Hlo & Hu32 & Hb1 & Hk1)].
  { exists None, s1, img1. split_and!; [done.. |]. left. split; [done|]. right. cbn [args_bytes]. lia. }
  change (0 <? 0) with false. cbn iota. rewrite Hu32.
  assert (va + Z.of_nat (length a) + 1 <= sp) as Hva by (unfold va; Z.div_mod_to_equations; lia).
  destruct (IH s1 img1 va (ustack ++ [va]) I1 Hn) as (r & s2 & img2 & E2 & Hs2 & I2 & Hr2);
    [fold sz; lia | unfold va; Z.div_mod_to_equations; lia | done | rewrite length_app; cbn; lia|]. fold sz in I2, Hr2.
  exists r, s2, img2. split_and!; [done | by eapply same_but_trans | done|].
  cbn [args_bytes length]. destruct Hr2 as [[-> Hno]|(sp' & new & -> & Hmax & Hsp' & Heq & Hs4' & Hall & Hk2)]; [left | right].
  { split; [done|]. rewrite length_app in Hno. cbn [length] in Hno. destruct Hno; [left | right]; lia. }
  exists sp', (va :: new). rewrite <- app_assoc in Hmax |- *. split_and!; try (done || lia).
  - constructor.
    + split_and!; [lia | lia|]. eapply bytes_at_ext; [|exact Hb1]. intros x Hx. apply Hk2. lia.
    + eapply Forall2_impl; [exact Hall|]. intros b x (H1 & H2 & H3). split_and!; [done | lia | done].
  - intros x Hx. rewrite Hk2, Hk1 by lia. done.
Qed.
(** What the new program finds at its stack pointer: a return address, [argc],
    [argv], and the array of the arguments, whose strings lie above it. *)
Definition stack_ok (img : Z -> Z) (sz : Z) (argv : list (list Z)) (sp : Z) : Prop :=
  let argc := Z.of_nat (length argv) in
  sz - PGSIZE <= sp /\ exists ptrs, Forall2 (arg_at img (sp + 4 * (4 + argc)) sz) argv ptrs /\
    bytes_at img sp (words ([0xffffffff; argc; sp + 12] ++ ptrs ++ [0])).

Lemma bad_law s free pd sz T E g img h p f ip :
  image s free pd sz T E g img ->
  exists s' f' free', bad kend pd ip (st s h p f) = Ret (-1) (st s' h p f') /\ inv kend s' free' /\ moves s (free ++ owns pd T E) s' free'.
Proof.
  intros I. pose proof (im_as _ _ _ _ _ _ _ _ _ _ I) as Ia. pose proof (pt_good _ _ _ _ _ (as_tab _ _ _ _ _ _ Ia)) as [Hpd _]%Forall_cons.
  destruct (freevm_law kend kend_range s free pd T E Ia) as (s' & free' & E1 & Hi & Hp & Hs).
  assert (moves s (free ++ owns pd T E) s' free') as Hm.
  { split; [done|]. eapply same_but_mono; [|exact Hs]. intros x Hx. apply elem_of_app. by right. }
  unfold bad. destruct (Z.eqb_spec pd 0) as [->|_]; [by destruct (good_page_nonzero kend kend_range 0 Hpd)|]. cbn [negb when].
  rewrite (bind_ret _ _ _ _ _ (on_xm_ret _ s h p f _ _ E1)). destruct ip; by eexists s', _, free'.
Qed.

(** What the stack needs: an address space, memory and room for the arguments. *)
Definition stack_fits (N : nat) (sz0 : Z) (argv : list (list Z)) : Prop :=
  PGSIZE * (pages sz0 + 2) < KERNBASE /\ (4 <= N)%nat /\ (length argv <= Sysfile.MAXARG)%nat /\
  args_bytes argv + 4 * (4 + Z.of_nat (length argv)) <= PGSIZE.

Definition stack_out (res : outcome (xst F) Z) s (O : list Z) h p f path elf argv pd sz0 img (N : nat) : Prop :=
  let n := pages sz0 in
  let sz := PGSIZE * (n + 2) in
  (exists s' f' free', res = Ret (-1) (st s' h p f') /\ inv kend s' free' /\ moves s O s' free' /\ ~ stack_fits N sz0 argv) \/
  (exists s' free' T' E' sp img', res = exec_commit kend ts_addr path elf pd sz sp (st s' h p f) /\
    moves s O s' (free' ++ owns pd T' E') /\ image s' free' pd sz T' E' (Some n) img' /\ stack_ok img' sz argv sp /\
    forall a, a < PGSIZE * (n + 1) -> img' a = img a).

Lemma stack_bad s O s' free' sz T' E' g img' h p f path elf argv pd sz0 img N :
  image s' free' pd sz T' E' g img' -> moves s O s' (free' ++ owns pd T' E') -> ~ stack_fits N sz0 argv ->
  stack_out (bad kend pd None (st s' h p f)) s O h p f path elf argv pd sz0 img N.
Proof.
  intros I Hm Hno. destruct (bad_law s' free' pd sz T' E' g img' h p f None I) as (s2 & f2 & fr2 & -> & Hi & Hm2).
  left. exists s2, f2, fr2. split_and!; [done | done | by eapply moves_trans | done].
Qed.

Lemma exec_stack_law s free pd sz T E img path argv elf h p f :
  image s free pd sz T E None img -> fit_args argv ->
  stack_out (exec_stack kend ts_addr path argv elf pd sz (st s h p f)) s (free ++ owns pd T E) h p f path elf argv pd sz img (length free).
Proof.
  intros I Hfit. pose proof (im_sz _ _ _ _ _ _ _ _ _ _ I) as Hsz. pose proof (pages_range sz ltac:(lia)) as Hpr.
  unfold exec_stack. rewrite PGROUNDUP_pages by (unfold KERNBASE, PGSIZE in *; lia). set (n := pages sz) in *.
  rewrite u32_small by (unfold USER, PGSIZE in *; lia).
  destruct (Z.lt_ge_cases (PGSIZE * n) KERNBASE) as [Hk|Hk].
  2: { assert (allocuvm kend pd (PGSIZE * n) (PGSIZE * n + 2 * PGSIZE) s = Ret 0 s) as E1.
       { unfold allocuvm. by rewrite (proj2 (Z.leb_le _ _)) by (unfold PGSIZE in *; lia). }
       rewrite (bind_ret _ _ _ _ _ (on_xm_ret _ s h p f _ _ E1)). eapply stack_bad; [exact I | apply moves_refl|]. intros (Hf & _). fold n in Hf. unfold PGSIZE in *. lia. }
  destruct (image_grow kend data kend_range data_range s free pd (PGSIZE * n) T E img (PGSIZE * n + 2 * PGSIZE) (image_round _ _ _ _ _ _ _ _ I Hk)) as (r & s1 & fr1 & T1 & E1 & Ea & Hm1 & Hr);
    [unfold PGSIZE; lia|].
  rewrite (bind_ret _ _ _ _ _ (on_xm_ret _ s h p f _ _ Ea)).
  destruct Hr as [(-> & I1 & Hno)|(-> & Hk2 & I1 & _)]; cbn [Z.eqb].
  { eapply stack_bad; [done..|]. intros (Hf & HN & _). fold n in Hf. destruct Hno as [_ Hno]; [unfold PGSIZE in *; lia|].
    replace (PGSIZE * n + 2 * PGSIZE) with (PGSIZE * (n + 2)) in Hno by (unfold PGSIZE; lia).
    assert (pages (PGSIZE * (n + 2)) - pages (PGSIZE * n) = 2) as Hp2 by (unfold pages, PGSIZE; Z.div_mod_to_equations; lia). rewrite Hp2 in Hno. lia. }
  replace (Z.max (PGSIZE * n) (PGSIZE * n + 2 * PGSIZE)) with (PGSIZE * (n + 2)) in * by (unfold PGSIZE; lia).
  rewrite (proj2 (Z.eqb_neq (PGSIZE * (n + 2)) 0)) by (unfold PGSIZE; lia).
  replace (u32 (PGSIZE * (n + 2) - 2 * PGSIZE)) with (PGSIZE * n) by (rewrite u32_small; unfold KERNBASE, PGSIZE in *; lia).
  assert (pages (PGSIZE * (n + 2)) = n + 2) as Hp2 by (unfold pages, PGSIZE; Z.div_mod_to_equations; lia).
  destruct (image_guard s1 fr1 pd _ T1 E1 img n I1) as (s2 & E2 & Eg & I2 & Hm2); [rewrite Hp2; lia|].
  rewrite (bind_ret _ _ _ _ _ (on_xm_ret _ s1 h p f _ _ Eg)).
  destruct (push_args_law pd n T1 E2 h p f fr1 argv s2 img (PGSIZE * (n + 2)) [] I2) as (r & s3 & img3 & E3 & Hs3 & I3 & Hr3);
    [lia | unfold PGSIZE; lia | unfold PGSIZE; Z.div_mod_to_equations; lia | done | cbn; lia|].
  rewrite (bind_ret _ _ _ _ _ E3).
  assert (moves s (free ++ owns pd T E) s3 (fr1 ++ owns pd T1 E2)) as Hm3.
  { eapply moves_trans; [exact Hm1|]. eapply moves_trans; [exact Hm2|]. eapply moves_inner; [exact Hs3 | apply frames_owned]. }
  destruct Hr3 as [[-> Hno]|(sp & ptrs & -> & Hmax & Hsp & Heq & Hs4 & Hall & Hk3)].
  { eapply stack_bad; [done..|]. intros (_ & _ & Hf1 & Hf2). cbn [length] in Hno. lia. } cbn [app] in Hmax |- *.
  pose proof (Forall2_length _ _ _ Hall) as Hlen. set (ar := Z.of_nat (length ptrs)).
  assert (0 <= ar <= 32) as Har by (unfold ar, Sysfile.MAXARG in *; lia).
  rewrite (u32_small (sp - (ar + 1) * 4)) by (unfold KERNBASE, PGSIZE in *; lia).
  set (ws := words _). assert (Z.of_nat (length ws) = (3 + ar + 1) * 4) as Hws.
  { unfold ws. rewrite words_length. cbn [length]. rewrite length_app. cbn [length]. unfold ar. lia. }
  destruct (stack_copyout s3 fr1 pd n T1 E2 img3 sp (sp - (3 + ar + 1) * 4) ws I3) as (r & s4 & img4 & E4 & Hs4' & I4 & Hr4);
    [lia | lia | done | Z.div_mod_to_equations; lia | lia | lia | unfold PGSIZE in *; lia|].
  rewrite (bind_ret _ _ _ _ _ (on_xm_ret _ s3 h p f _ _ E4)).
  assert (moves s (free ++ owns pd T E) s4 (fr1 ++ owns pd T1 E2)) as Hm4.
  { eapply moves_trans; [exact Hm3|]. eapply moves_inner; [exact Hs4' | apply frames_owned]. }
  destruct Hr4 as [[-> Hlow]|(-> & Hlo & -> & Hb & Hk4)]; [eapply stack_bad; [done..|]; intros (_ & _ & _ & Hf); lia|]. change (0 <? 0) with false. cbn iota.
  right. exists s4, fr1, T1, E2, (sp - (3 + ar + 1) * 4), img4. split_and!; try done.
  - split; [done|]. exists ptrs. rewrite Hlen. fold ar. split.
    + eapply Forall2_impl; [exact Hall|]. intros a x (H1 & H2 & H3). split_and!; [lia | done|].
      eapply bytes_at_ext; [|exact H3]. intros y Hy. apply Hk4. lia.
    + unfold ws in Hb. replace (sp - (3 + ar + 1) * 4 + 12) with (sp - (ar + 1) * 4) by lia. exact Hb.
  - intros a Ha. fold n in Ha. rewrite Hk4, Hk3; [done | unfold PGSIZE in *; lia..].
Qed.
End stack.
