(* ===== verification/ExecProg.v ===== *)
(** * Correctness of [exec]: the whole call

    [exec] returns -1 with the calling process as it was and every page given
    back, or 0 with the process on a new address space that holds the program
    and its arguments; it never panics. *)

From S2P Require Import Prelude Spinlock Cstring Kalloc Seg Vm VmTab VmInv VmKern VmUser VmSafe Exec ExecImg ExecSafe.
From S2P Require Proc Sysfile.

Section exec_run.
Context (kend data ts_addr : Z) {F : Type} `{Files F}.
Hypothesis kend_range : KERNBASE < kend <= KERNBASE + PHYSTOP.
Hypothesis data_range : KERNLINK < data < kend.
Hypothesis data_aligned : data mod PGSIZE = 0.
Implicit Types (s : kmem_t) (T E : gmap Z Z) (free : list Z) (h : hw) (p : xproc) (f : F) (img : Z -> Z) (a b : space).
Abbreviation image := (image kend data).
Abbreviation wf := (wf kend data).
Abbreviation st := (mk_xst (F := F)).

#[local] Opaque VmKern.kents.

Lemma setup_image s free :
  inv kend s free ->
  exists r s', setupkvm kend data s = Ret r s' /\
    ((r = 0 /\ (length free <= 65)%nat /\ exists free', inv kend s' free' /\ moves s free s' free') \/
     (r <> 0 /\ exists free' T E, image s' free' r 0 T E None (fun _ => 0) /\ moves s free s' (free' ++ owns r T E) /\ (length free <= length free' + 65)%nat)).
Proof.
  intros Hi. destruct (setupkvm_law kend data kend_range data_range data_aligned s free Hi)
    as (r & s' & E1 & Hs & [(T & f & Hg & Ha & [Hu HT] & Hp)|(-> & Hl & f & Hi' & Hp)]); exists r, s' || exists 0, s'; (split; [done|]).
  - right. split; [intros ->; by destruct (good_page_nonzero kend kend_range 0 Hg)|]. 
    assert (length free <= length f + 65)%nat.
    { pose proof (Permutation_length Hp) as Hl. unfold owns in Hl. rewrite Hu, app_nil_r, length_app in Hl.
      cbn [length] in Hl. rewrite length_vals in Hl. pose proof (kdirs_size T HT). lia. }
    exists f, T, (VmKern.kents data). split; [split; [exact Ha | unfold KERNBASE; lia | | reflexivity | | | reflexivity] | split; [by split | done]].
    + intros n Hn. rewrite (kents_user kend data kend_range data_range data_aligned n Hn). change (pages 0) with 0. split; [by intros [? ?] | lia].
    + intros n e Hn. change (pages 0) with 0 in Hn. lia.
    + intros va Hva. change (PGSIZE * pages 0) with 0 in Hva. lia.
  - left. split; [done|]. split; [done|]. by exists f.
Qed.

(** The program in a file with content [c]. *)
Definition program c (elf : elfhdr) (sz0 : Z) (im : Z -> Z) : Prop :=
  (52 <= length c)%nat /\ elf = elfhdr_of (slice 0 52 c) /\ magic elf = ELF_MAGIC /\
  exists im', spec_load c (Z.to_nat (phnum elf)) (phoff elf) 0 (fun _ => 0) = Some (sz0, im') /\ forall x, im' x = im x.

(** What the call needs to succeed: a program, and memory for it and its
    arguments. *)
Definition loadable (o : option (list Z)) (argv : list (list Z)) (N : nat) : Prop :=
  exists c elf sz0 im, o = Some c /\ program c elf sz0 im /\ stack_fits (N - 65 - 2 * Z.to_nat (pages sz0)) sz0 argv.

Definition fails s h p free (o : option (list Z)) argv (res : outcome (xst F) Z) : Prop :=
  ~ loadable o argv (length free) /\
  exists s' f' free', res = Ret (-1) (st s' h p f') /\ inv kend s' free' /\ moves s free s' free'.

Definition succeeds s h p free (o : option (list Z)) path argv (res : outcome (xst F) Z) : Prop :=
  exists elf pd sz0 im sp s' f' free' T E img, let sz := PGSIZE * (pages sz0 + 2) in
    res = exec_commit kend ts_addr path elf pd sz sp (st s' h p f') /\ moves s free s' (free' ++ owns pd T E) /\
    image s' free' pd sz T E (Some (pages sz0)) img /\ stack_ok img sz argv sp /\
    (forall c, o = Some c -> program c elf sz0 im) /\ forall x, x < PGSIZE * (pages sz0 + 1) -> img x = im x.

(** The failures after the address space has been made. *)
Lemma fails_bad s free s' free' pd sz T E g img h p f o argv ip :
  ~ loadable o argv (length free) -> image s' free' pd sz T E g img -> moves s free s' (free' ++ owns pd T E) ->
  fails s h p free o argv (bad kend pd ip (st s' h p f)).
Proof.
  intros Hno I Hm. destruct (bad_law kend data kend_range s' free' pd sz T E g img h p f ip I) as (s2 & f2 & fr2 & -> & Hi & Hm2).
  split; [done|]. exists s2, f2, fr2. split_and!; [done | done | by eapply moves_trans].
Qed.

(** And before. *)
Lemma fails_early s free h p f o argv ip :
  inv kend s free -> ~ loadable o argv (length free) -> fails s h p free o argv (bad kend 0 (Some ip) (st s h p f)).
Proof. intros Hi Hno. split; [done|]. eexists s, _, free. split_and!; [reflexivity | done | apply moves_refl]. Qed.

(** The header of the program file. *)
Lemma elf_read ip f :
  match file f ip 0 elfhdr_size with
  | Some l => Forall byte l /\ forall c, content f ip = Some c -> slice 0 52 c = l
  | None => forall c, content f ip = Some c -> (length c < 52)%nat
  end.
Proof.
  destruct (file f ip 0 elfhdr_size) as [l|] eqn:El.
  - destruct (readi_length ip 0 elfhdr_size f l ltac:(done) El) as [_ Hby]. split; [done|]. intros c Hc.
    by destruct (file_content ip 0 elfhdr_size f c l Hc ltac:(done) ltac:(done) El) as [-> _].
  - intros c Hc. apply Nat.nle_gt. intros Hl.
    destruct (content_file ip 0 elfhdr_size f c Hc ltac:(done) ltac:(done)) as [x Hx]; [unfold elfhdr_size; lia | congruence].
Qed.

Lemma exec_load_law s free path argv ip h p f :
  inv kend s free -> fit_args argv ->
  let res := exec_load kend data ts_addr path argv ip (st s h p f) in
  fails s h p free (content f ip) argv res \/ succeeds s h p free (content f ip) path argv res.
Proof.
  intros Hi Hfit res. assert (res = exec_load kend data ts_addr path argv ip (st s h p f)) as Er by done. clearbody res. unfold exec_load in Er.
  destruct (readi_run ip 0 elfhdr_size s h p f) as (f1 & E1 & Hc1). rewrite (bind_ret _ _ _ _ _ E1) in Er. clear E1.
  pose proof (elf_read ip f) as Hhd. destruct (file f ip 0 elfhdr_size) as [l|] eqn:El.
  2: { left. subst res. apply fails_early; [done|]. intros (c & ? & ? & ? & Hc & (Hl & _) & _). specialize (Hhd c Hc). lia. }
  destruct Hhd as [Hby Hsl].
  destruct (Z.eqb_spec (Z.of_nat (length l)) elfhdr_size) as [Hlen|Hlen]; cbn [negb] in Er.
  2: { left. subst res. apply fails_early; [done|]. intros (c & ? & ? & ? & Hc & (Hl & _) & _). destruct Hlen. rewrite <- (Hsl c Hc).
    unfold slice, elfhdr_size. rewrite length_take, length_drop. lia. }
  destruct (Z.eqb_spec (magic (elfhdr_of l)) ELF_MAGIC) as [Hmg|Hmg]; cbn [negb] in Er.
  2: { left. subst res. apply fails_early; [done|]. intros (c & ? & ? & ? & Hc & (_ & -> & Hm & _) & _). by rewrite (Hsl c Hc) in Hm. }
  destruct (setup_image s free Hi) as (pd & s1 & E1 & Hr). rewrite (bind_ret _ _ _ _ _ (on_xm_ret _ s h p f1 _ _ E1)) in Er.
  destruct Hr as [(-> & Hl & fr1 & Hi1 & Hm1)|(Hpd & fr1 & T1 & En1 & I1 & Hm1 & HN1)].
  { left. subst res. split; [|by eexists s1, _, fr1]. intros (c & elf & sz0 & im & _ & _ & (_ & H4 & _)). lia. }
  rewrite (proj2 (Z.eqb_neq _ _) Hpd) in Er. set (elf := elfhdr_of l) in *.
  assert (0 <= phoff elf) as Hph by (apply get32_range; [cbn; unfold elfhdr_size in *; lia | done]).
  destruct (load_segments_law kend data kend_range data_range data_aligned pd ip h p (Z.to_nat (phnum elf)) (phoff elf) 0 s1 f1 fr1 T1 En1 _ I1 Hph)
    as (o & s2 & f2 & fr2 & T2 & En2 & sz0 & im & E2 & Hm2 & I2 & Ho). rewrite (bind_ret _ _ _ _ _ E2) in Er. rewrite Hc1 in Ho. change (pages 0) with 0 in Ho.
  pose proof (moves_trans _ _ _ _ _ _ Hm1 Hm2) as Hm. destruct Ho as [[-> Hno]|(-> & HN2 & _ & Hspec)].
  { left. subst res. eapply fails_bad; [|done..]. intros (c & ? & z & im' & Hc & (_ & -> & _ & im2 & Hsp & _) & (_ & H4 & _)).
    rewrite (Hsl c Hc) in Hsp. specialize (Hno c z im2 Hc Hsp). lia. }
  unfold bind at 1, call at 1, modify in Er. cbn [xm xh xp xf] in Er. unfold bind at 1, call at 1, modify in Er. cbn [xm xh xp xf] in Er.
  destruct (exec_stack_law kend data ts_addr kend_range data_range data_aligned s2 fr2 pd sz0 T2 En2 im path argv elf h p (end_op (iunlockput ip f2)) I2 Hfit)
    as [(s3 & f3 & fr3 & E3 & Hi3 & Hm3 & Hno)|(s3 & fr3 & T3 & En3 & sp & img & E3 & Hm3 & I3 & Hst & Himg)].
  - left. split; [|exists s3, f3, fr3; split_and!; [congruence | done | by eapply moves_trans]].
    intros (c & ? & z & im' & Hc & (_ & -> & _ & im2 & Hsp & _) & (H3 & H4 & H5)). destruct (Hspec c Hc) as (im3 & Hsp' & _).
    rewrite (Hsl c Hc) in Hsp. fold elf in Hsp. rewrite Hsp' in Hsp. injection Hsp as <- _. apply Hno. destruct H5. split_and!; try done. lia.
  - right. exists elf, pd, sz0, im, sp, s3, (end_op (iunlockput ip f2)), fr3, T3, En3, img. split_and!; [congruence | by eapply moves_trans | done | done | | done].
    intros c Hc. destruct (Hspec c Hc) as (im' & Hs' & Him). pose proof (Hsl c Hc) as Hl. split_and!; [| by rewrite Hl | done | by exists im'].
    assert (length (slice 0 52 c) = 52%nat) as Hl2 by (rewrite Hl; unfold elfhdr_size in *; lia). unfold slice in Hl2. rewrite length_take, length_drop in Hl2. lia.
Qed.

(** The content of the file that [path] names. *)
Definition text f path : option (list Z) :=
  ip ← fst (namei path (begin_op f)); content (ilock ip (snd (namei path (begin_op f)))) ip.

Lemma exec_law s free path argv h p f :
  inv kend s free -> fit_args argv ->
  let res := exec kend data ts_addr path argv (st s h p f) in
  fails s h p free (text f path) argv res \/ succeeds s h p free (text f path) path argv res.
Proof.
  intros Hi Hfit res. assert (res = exec kend data ts_addr path argv (st s h p f)) as Er by done. clearbody res. unfold exec in Er. unfold text.
  unfold bind at 1, call at 1, modify in Er. cbn [xm xh xp xf] in Er. unfold bind at 1, calls at 1 in Er. cbn [xm xh xp xf] in Er.
  destruct (namei path (begin_op f)) as [[ip|] f0]; cbn [fst snd mbind option_bind] in *.
  - unfold bind at 1, call at 1, modify in Er. cbn [xm xh xp xf] in Er. subst res. by apply exec_load_law.
  - left. subst res. split; [by intros (? & ? & ? & ? & ? & _)|]. eexists s, _, free. split_and!; [reflexivity | done | apply moves_refl].
Qed.

(** ** The switch to the new image *)

Lemma wf_elem s free L b : wf s free L -> b ∈ L -> aspace kend s free (sp_pd b) (sp_tabs b) (sp_ents b).
Proof. intros Hw (L1 & L2 & ->)%list_elem_of_split. by eapply wf_focus. Qed.

(** What a change to the spaces [old] leaves alone. *)
Lemma wf_access s free L1 old L2 s' b va :
  wf s free (L1 ++ old ++ L2) -> same_but (free ++ concat (sp_owns <$> old)) s s' -> b ∈ L1 ++ L2 -> 0 <= va < KERNBASE ->
  access s' (sp_pd b) va = access s (sp_pd b) va.
Proof.
  intros Hw Hs Hb Hva. eapply (access_same kend data kend_range data_aligned); [eapply wf_elem; [exact Hw|] | | exact Hs | done].
  { rewrite !elem_of_app in *. tauto. }
  intros x Hx Hin. pose proof (wf_nodup _ _ _ _ _ Hw) as Hn. rewrite !fmap_app, !concat_app in Hn.
  assert (x ∈ concat (sp_owns <$> (L1 ++ L2))) as Hx' by by eapply owned_concat. rewrite fmap_app, concat_app in Hx'.
  assert (NoDup ((free ++ concat (sp_owns <$> old)) ++ (concat (sp_owns <$> L1) ++ concat (sp_owns <$> L2)))) as (_ & Hd & _)%NoDup_app.
  { eapply NoDup_Permutation_proper; [|exact Hn]. solve_Permutation. }
  by apply (Hd x Hin).
Qed.

Lemma image_ok s free pd sz T E g img : image s free pd sz T E g img -> sp_ok kend data s (mk_space pd sz T E).
Proof. intros [[H1 H2 H3 H4] Is Iu Ik _ _ _]. split; try done. intros n Hn Hs. by apply Iu. Qed.

Lemma image_whole s free pd sz T E g img : image s free pd sz T E g img -> whole (mk_space pd sz T E).
Proof. intros [_ Is Iu _ _ _ _] n Hn. cbn [sp_sz sp_ents] in *. pose proof (pages_range sz ltac:(lia)). apply Iu; [lia | apply Hn]. Qed.

(** The registers [switchuvm] needs, and the kernel stack it gets. *)
Record cpu_ok h p : Prop := {
  ck_cli : Cli.wf (cli h);
  ck_gdt : length (gdt h) = NSEGS;
  ck_ts : 0 <= ts_addr < 2 ^ 32;
  ck_stack : 0 < xkstack p < 2 ^ 32 - Proc.KSTACKSIZE;
}.

Definition new_proc path elf pd sz sp p : xproc :=
  mk_xproc pd sz (xkstack p) (entry elf) sp (Proc.copy_name (xname p) (last_part path path ++ [0])) 0.

Lemma commit_law s0 free0 L1 a L2 s free pd sz T E g img path elf sp h p f :
  let new := mk_space pd sz T E in
  wf s0 free0 (L1 ++ a :: L2) -> sp_pd a = xpgdir p -> cpu_ok h p -> moves s0 free0 s (free ++ owns pd T E) -> image s free pd sz T E g img ->
  exists s' h' free', exec_commit kend ts_addr path elf pd sz sp (st s h p f) = Ret 0 (st s' h' (new_proc path elf pd sz sp p) f) /\
    wf s' free' (L1 ++ new :: L2) /\ free' ++ concat (sp_owns <$> (L1 ++ new :: L2)) ≡ₚ free0 ++ concat (sp_owns <$> (L1 ++ a :: L2)) /\
    (forall b va, b ∈ L1 ++ L2 -> 0 <= va < KERNBASE -> access s' (sp_pd b) va = access s0 (sp_pd b) va) /\
    (forall va, 0 <= va < KERNBASE -> access s' pd va = access s pd va) /\
    esp0 h' = xkstack p + Proc.KSTACKSIZE /\ cr3 h' = pd - KERNBASE.
Proof.
  intros new Hw Ha [Hc1 Hc2 Hc3 Hc4] [Hp Hs] I. pose proof (im_as _ _ _ _ _ _ _ _ _ _ I) as Ia.
  destruct (wf_replace kend data s0 free0 s free L1 [] [new] (a :: L2) Hw) as [Hw1 Hp1];
    [apply Ia | apply Forall_singleton; by eapply image_ok | cbn; by rewrite !app_nil_r | cbn; by rewrite app_nil_r|].
  assert (L1 ++ [new] ++ a :: L2 = (L1 ++ [new]) ++ [a] ++ L2) as El by by rewrite <- app_assoc. rewrite El in Hw1, Hp1.
  destruct (free_effect kend data kend_range s free a (wf_focus _ _ kend_range data_range _ _ _ _ _ Hw1)) as (s' & free' & Ef & [Hi' _ Hp' Hs']).
  destruct (wf_replace kend data s free s' free' (L1 ++ [new]) [a] [] L2 Hw1 Hi' (Forall_nil_2 _) Hp' Hs') as [Hw2 Hp2].
  assert ((L1 ++ [new]) ++ [] ++ L2 = L1 ++ new :: L2) as El2 by by rewrite <- app_assoc. rewrite El2 in Hw2, Hp2.
  pose proof (pt_good _ _ _ _ _ (as_tab _ _ _ _ _ _ Ia)) as [Hpd _]%Forall_cons.
  destruct (switchuvm_correct ts_addr (xkstack p) pd h Hc1 Hc2 Hc3 Hc4) as (h' & Eh & He0 & _ & _ & _ & Hcr & _).
  { destruct Hpd as (_ & Hlo & Hhi). unfold KERNBASE, PHYSTOP in *. lia. }
  exists s', h', free'. split_and!; [| done | by rewrite Hp2, Hp1 | | | done | done].
  - unfold exec_commit. unfold bind at 1, reads at 1. cbn [xp]. unfold bind at 1, set_xp at 1, modify. cbn [xm xh xp xf].
    unfold bind at 1, on_xh, zoom. cbn [xm xh xp xf]. rewrite Eh. rewrite Ha in Ef.
    rewrite (bind_ret _ _ _ _ _ (on_xm_ret _ s h' _ f _ _ Ef)). done.
  - intros b va Hb Hva. rewrite (wf_access s free (L1 ++ [new]) [a] L2 s' b va Hw1 Hs'); [|rewrite !elem_of_app in *; tauto | done].
    apply (wf_access s0 free0 L1 [] (a :: L2)); [done | cbn; by rewrite app_nil_r | apply elem_of_app in Hb; rewrite elem_of_app, elem_of_cons; tauto | done].
  - intros va Hva. apply (wf_access s free (L1 ++ [new]) [a] L2 s' new va Hw1 Hs'); [|done]. rewrite !elem_of_app, list_elem_of_singleton. tauto.
Qed.

(** What user code finds at an address of an image. *)
Lemma image_access s free pd sz T E g img va :
  image s free pd sz T E g img -> 0 <= va < PGSIZE * pages sz ->
  exists fl, access s pd va = Some (fl, img va) /\ has fl PTE_U = negb (bool_decide (g = Some (va / PGSIZE))).
Proof.
  intros I Hva. destruct (image_page kend data _ _ _ _ _ _ _ _ va I Hva) as (e & He & Hk).
  destruct I as [Ia Is Iu Ik IU Ib Iz]. specialize (Ib va Hva). unfold ubyte in Ib. rewrite He in Ib. cbn [mbind option_bind] in Ib.
  exists (PTE_FLAGS e). rewrite <- user_flag. split; [|apply IU; [split; [apply Z.div_pos; [lia | done] | apply Z.div_lt_upper_bound; [done | lia]] | done]].
  rewrite (access_eq kend data kend_range data_aligned s pd T E) by (try apply Ia; unfold KERNBASE in *; lia). rewrite He. cbn [mbind option_bind]. by rewrite Ib.
Qed.

Lemma image_end s free pd sz T E g img va :
  image s free pd sz T E g img -> PGSIZE * pages sz <= va < KERNBASE -> access s pd va = None.
Proof.
  intros I Hva. pose proof (im_as _ _ _ _ _ _ _ _ _ _ I) as Ia. pose proof (im_sz _ _ _ _ _ _ _ _ _ _ I) as Hs. pose proof (pages_range sz ltac:(lia)) as Hr.
  assert (0 <= va < KERNBASE) as Hk by (unfold PGSIZE in *; lia).
  rewrite (access_eq kend data kend_range data_aligned s pd T E) by (try apply Ia; unfold KERNBASE in *; lia).
  destruct (E !! (va / PGSIZE)) eqn:He; [|done]. destruct (split_va va) as [Ev Hm].
  assert (va / PGSIZE < pages sz); [apply (im_user _ _ _ _ _ _ _ _ _ _ I); [by apply user_page | by eexists] | unfold PGSIZE in *; lia].
Qed.

(** C14: [exec] always returns, and never panics: 0, or -1 with the process,
    the registers and the memory it sees unchanged.  In both cases every page
    is still free or owned by exactly one address space, none is lost, the
    process runs on an address space of the size it records (with no page
    missing after a success), and the memory of every other process is as
    before.  (An argument of 32 MB or more is not
    covered.) *)
Theorem exec_safe s free L1 a L2 path argv h p f :
  wf s free (L1 ++ a :: L2) -> visible a = (xpgdir p, xsz p) -> cpu_ok h p -> fit_args argv ->
  exists r s' h' p' f' free' a', exec kend data ts_addr path argv (st s h p f) = Ret r (st s' h' p' f') /\
    wf s' free' (L1 ++ a' :: L2) /\ visible a' = (xpgdir p', xsz p') /\
    free' ++ concat (sp_owns <$> (L1 ++ a' :: L2)) ≡ₚ free ++ concat (sp_owns <$> (L1 ++ a :: L2)) /\
    (forall b va, b ∈ L1 ++ L2 -> 0 <= va < KERNBASE -> access s' (sp_pd b) va = access s (sp_pd b) va) /\
    (r = 0 /\ whole a' /\ esp0 h' = xkstack p' + Proc.KSTACKSIZE /\ cr3 h' = xpgdir p' - KERNBASE \/
     r = -1 /\ h' = h /\ p' = p /\ a' = a /\ forall va, 0 <= va < KERNBASE -> access s' (xpgdir p) va = access s (xpgdir p) va).
Proof.
  intros Hw [= Hpd Hsz] Hc Hfit.
  destruct (exec_law s free path argv h p f (wf_inv _ _ _ _ _ Hw) Hfit)
    as [(_ & s' & f' & free' & E1 & Hi & Hp & Hs)|(elf & pd & sz0 & im & sp & s1 & f1 & fr1 & T & E & img & E1 & Hm & I & _)].
  - exists (-1), s', h, p, f', free', a.
    destruct (wf_replace kend data s free s' free' L1 [] [] (a :: L2) Hw Hi (Forall_nil_2 _)) as [Hw' Hp']; [cbn; by rewrite !app_nil_r | cbn; by rewrite app_nil_r|].
    assert (forall b va, b ∈ L1 ++ a :: L2 -> 0 <= va < KERNBASE -> access s' (sp_pd b) va = access s (sp_pd b) va) as Hacc.
    { intros b va Hb Hva. apply (wf_access s free L1 [] (a :: L2)); [done | cbn; by rewrite app_nil_r | done | done]. }
    split_and!; [done | done | by rewrite <- Hpd, <- Hsz | done | |right].
    + intros b va Hb Hva. apply Hacc; [|done]. apply elem_of_app in Hb. rewrite elem_of_app, elem_of_cons. tauto.
    + split_and!; try done. rewrite <- Hpd. intros va Hva. apply Hacc; [|done]. rewrite elem_of_app, elem_of_cons. tauto.
  - destruct (commit_law s free L1 a L2 s1 fr1 pd _ T E _ img path elf sp h p f1 Hw Hpd Hc Hm I) as (s' & h' & free' & E2 & Hw' & Hp' & Hb & _ & He & Hcr).
    eexists 0, s', h', _, f1, free', _. split_and!; [by rewrite E1 | done | done | done | done|]. left. split; [done|]. split; [by eapply image_whole | done].
Qed.

(** C4: when [exec] returns 0, the program has been loaded.  Where the path
    names a file with content [c], [c] starts with an ELF header and the
    memory below the stack is what its program headers ask for ([program]);
    the next page is closed to user code, and the last one is the stack, where
    the program finds its argument count and its NUL-terminated arguments.
    No other user address is mapped.  The process starts at the entry
    point of the header. *)
Theorem exec_image s free L1 a L2 path argv h p f s' h' p' f' c :
  wf s free (L1 ++ a :: L2) -> visible a = (xpgdir p, xsz p) -> cpu_ok h p -> fit_args argv ->
  exec kend data ts_addr path argv (st s h p f) = Ret 0 (st s' h' p' f') ->
  text f path = Some c ->
  exists elf sz0 im img, program c elf sz0 im /\
    xsz p' = PGSIZE * (pages sz0 + 2) /\ xeip p' = entry elf /\ xpriority p' = 0 /\ xkstack p' = xkstack p /\
    (forall va, 0 <= va < xsz p' -> exists fl, access s' (xpgdir p') va = Some (fl, img va) /\
      has fl PTE_U = negb (bool_decide (va / PGSIZE = pages sz0))) /\
    (forall va, xsz p' <= va < KERNBASE -> access s' (xpgdir p') va = None) /\
    (forall va, va < PGSIZE * pages sz0 -> img va = im va) /\ stack_ok img (xsz p') argv (xesp p').
Proof.
  intros Hw [= Hpd Hsz] Hc Hfit Hex Hcon.
  destruct (exec_law s free path argv h p f (wf_inv _ _ _ _ _ Hw) Hfit)
    as [(_ & s1 & f1 & free' & E1 & _)|(elf & pd & sz0 & im & sp & s1 & f1 & fr1 & T & E & img & E1 & Hm & I & Hst & Hpr & Himg)].
  { rewrite Hex in E1. discriminate. }
  destruct (commit_law s free L1 a L2 s1 fr1 pd _ T E _ img path elf sp h p f1 Hw Hpd Hc Hm I) as (s2 & h2 & fr2 & E2 & _ & _ & _ & Hacc & _).
  rewrite Hex, E2 in E1. injection E1 as -> -> -> ->. specialize (Hpr c Hcon).
  pose proof (im_sz _ _ _ _ _ _ _ _ _ _ I) as Hs.
  assert (PGSIZE * pages (PGSIZE * (pages sz0 + 2)) = PGSIZE * (pages sz0 + 2)) as Hpp by (unfold pages at 1, PGSIZE; Z.div_mod_to_equations; lia).
  exists elf, sz0, im, img. cbn [new_proc xsz xeip xpriority xkstack xpgdir xesp]. split_and!; try done.
  - intros va Hva. rewrite Hacc by lia. destruct (image_access s1 fr1 pd _ T E _ img va I) as (fl & Ea & Hfl); [by rewrite Hpp|].
    exists fl. split; [done|]. rewrite Hfl. f_equal. apply bool_decide_ext. split; congruence.
  - intros va Hva. rewrite Hacc by (unfold PGSIZE in *; lia). eapply image_end; [exact I | by rewrite Hpp].
  - intros va Hva. apply Himg. unfold PGSIZE in *. lia.
Qed.

(** C28: [exec] returns 0 whenever the path names a valid program ([program]),
    the arguments fit in the stack page ([stack_fits]), and there are 65 free
    pages for the kernel part, two for each page of the program, and four for
    the stack. *)
Theorem exec_succeeds s free L1 a L2 path argv h p f :
  wf s free (L1 ++ a :: L2) -> visible a = (xpgdir p, xsz p) -> cpu_ok h p -> loadable (text f path) argv (length free) ->
  exists s' h' p' f', exec kend data ts_addr path argv (st s h p f) = Ret 0 (st s' h' p' f').
Proof.
  intros Hw [= Hpd Hsz] Hc Hload. assert (fit_args argv) as Hfit.
  { destruct Hload as (_ & _ & _ & _ & _ & _ & (_ & _ & _ & Hb)). by apply args_fit. }
  destruct (exec_law s free path argv h p f (wf_inv _ _ _ _ _ Hw) Hfit)
    as [(Hno & _)|(elf & pd & sz0 & im & sp & s1 & f1 & fr1 & T & E & img & E1 & Hm & I & _)]; [done|].
  destruct (commit_law s free L1 a L2 s1 fr1 pd _ T E _ img path elf sp h p f1 Hw Hpd Hc Hm I) as (s' & h' & free' & E2 & _).
  rewrite E1, E2. by repeat eexists.
Qed.
End exec_run.
