(* ===== verification/ExecDemo.v ===== *)
(** * A program to run

    A file system that is a list of named files, an ELF file with one
    segment, and a machine with 256 free pages to load it in. *)

From S2P Require Import Prelude Spinlock Kalloc Seg Vm VmTab VmInv VmUser VmSafe VmDemo Exec ExecImg ExecSafe ExecProg.
From S2P Require Proc.

(** Files by name; the inode number is the position. *)
Definition files := list (list Z * list Z).

Definition valid (c : list Z) : bool := forallb (fun b => (0 <=? b) && (b <? 256)) c && (Z.of_nat (length c) <? 2 ^ 32).

Definition get (f : files) (ip : Z) : option (list Z) :=
  '(_, c) ← f !! Z.to_nat ip; if valid c then Some c else None.

Fixpoint find (path : list Z) (f : files) (i : Z) : option Z :=
  match f with
  | [] => None
  | (name, _) :: f => if bool_decide (name = path) then Some i else find path f (i + 1)
  end.

Definition pread (f : files) (ip off n : Z) : option (list Z) :=
  c ← get f ip; if (Z.of_nat (length c) <? off) || (2 ^ 32 <=? off + n) then None else Some (slice (Z.to_nat off) (Z.to_nat n) c).

Lemma get_valid f ip c : get f ip = Some c -> Forall byte c /\ Z.of_nat (length c) < 2 ^ 32.
Proof.
  unfold get. destruct (f !! Z.to_nat ip) as [[x c']|]; cbn; [|done]. destruct (valid c') eqn:Hv; [|done]. intros [= <-].
  unfold valid in Hv. apply andb_prop in Hv as [Hb Hl]. rewrite forallb_forall in Hb. split; [|lia].
  apply Forall_forall. intros b Hin%list_elem_of_In%Hb. unfold byte. lia.
Qed.

Lemma pread_length f ip off n l : 0 <= n -> pread f ip off n = Some l -> Z.of_nat (length l) <= n /\ Forall byte l.
Proof.
  intros Hn. unfold pread. destruct (get f ip) as [c|] eqn:Hg; cbn [mbind option_bind]; [|done]. destruct (_ || _); [done|]. intros [= <-].
  unfold slice. rewrite length_take. split; [lia|]. apply Forall_take, Forall_drop. by eapply get_valid.
Qed.

Lemma pread_content f ip off n c l : get f ip = Some c -> 0 <= off -> 0 <= n -> pread f ip off n = Some l ->
  l = slice (Z.to_nat off) (Z.to_nat n) c /\ off + n < 2 ^ 32.
Proof.
  intros Hg Ho Hn. unfold pread. rewrite Hg. cbn [mbind option_bind]. destruct (Z.ltb_spec (Z.of_nat (length c)) off), (Z.leb_spec (2 ^ 32) (off + n)); cbn [orb]; try done.
  by intros [= <-].
Qed.

Lemma content_pread f ip off n c : get f ip = Some c -> 0 <= off -> 0 <= n -> off + n <= Z.of_nat (length c) -> is_Some (pread f ip off n).
Proof.
  intros Hg Ho Hn Hl. unfold pread. rewrite Hg. cbn [mbind option_bind]. destruct (get_valid _ _ _ Hg).
  destruct (Z.ltb_spec (Z.of_nat (length c)) off), (Z.leb_spec (2 ^ 32) (off + n)); cbn [orb]; try lia; by eexists.
Qed.

#[export] Instance list_files : Files files := {
  begin_op f := f;
  end_op f := f;
  namei path f := (find path f 0, f);
  ilock _ f := f;
  iunlockput _ f := f;
  readi ip off n f := (pread f ip off n, f);
  file := pread;
  content := get;
  readi_file _ _ _ _ := eq_refl;
  readi_content _ _ _ _ := eq_refl;
  readi_length ip off n f l := pread_length f ip off n l;
  file_content ip off n f c l := pread_content f ip off n c l;
  content_file ip off n f c := content_pread f ip off n c;
  content_length ip f c Hg := proj2 (get_valid f ip c Hg);
}.

(** An ELF header, one program header and eight bytes of code at address 0. *)
Definition demo_code : list Z := [184; 7; 0; 0; 0; 205; 64; 144].
Definition demo_elf : list Z :=
  le_enc 4 ELF_MAGIC ++ replicate 20 0 ++ le_enc 4 4 ++ le_enc 4 52 ++ replicate 12 0 ++ le_enc 2 1 ++ replicate 6 0 ++
  le_enc 4 ELF_PROG_LOAD ++ le_enc 4 84 ++ le_enc 4 0 ++ le_enc 4 0 ++ le_enc 4 8 ++ le_enc 4 16 ++ replicate 8 0 ++ demo_code.

Definition demo_files : files := [([47; 97], demo_elf)].
Definition demo_argv : list (list Z) := [[47; 97]; [104; 105]].
Definition demo_hw : hw := mk_hw (Cli.mk_cpu 0 false true) (replicate 6 null_seg) (0, 0) (0, 0) 0 0 0 0 0.
Definition demo_proc (pd : Z) : xproc := mk_xproc pd 0 (KERNBASE + PGSIZE) 0 0 (replicate 16 0) 3.
Definition demo_ts : Z := KERNLINK + 64.

Lemma demo_cpu pd : cpu_ok demo_ts demo_hw (demo_proc pd).
Proof. split; [done | done | done | done]. Qed.

Lemma demo_text : text demo_files [47; 97] = Some demo_elf.
Proof. vm_compute. reflexivity. Qed.

Lemma demo_loadable : loadable (text demo_files [47; 97]) demo_argv 191.
Proof.
  rewrite demo_text. exists demo_elf, (elfhdr_of (slice 0 52 demo_elf)), 16, (seg_img demo_elf (proghdr_of (slice 52 32 demo_elf)) (fun _ => 0)).
  split; [reflexivity|]. split; [split_and!; [vm_compute; lia | reflexivity | reflexivity | eexists; split; [|reflexivity]]|].
  - vm_compute. reflexivity.
  - split_and!; vm_compute; lia || done.
Qed.

(** A process with an empty address space. *)
Lemma demo_process : exists s free a pd, wf demo_end demo_data s free [a] /\ visible a = (pd, 0) /\ (191 <= length free)%nat.
Proof.
  destruct demo_mem as (s & l & _ & Hi & Hl).
  destruct (setup_image demo_end demo_data demo_range demo_data_range demo_data_aligned s l Hi) as (r & s' & _ & [(_ & Hno & _)|(_ & fr & T & E & I & _ & Hn)]); [lia|].
  exists s', fr, (mk_space r 0 T E), r. split; [|split; [done | lia]]. pose proof (im_as _ _ _ _ _ _ _ _ _ _ I) as Ia.
  split; [apply Ia | apply Forall_singleton; by eapply image_ok | cbn; rewrite app_nil_r; apply Ia].
Qed.

Lemma loadable_mono o argv N N' : (N <= N')%nat -> loadable o argv N -> loadable o argv N'.
Proof.
  intros Hle (c & elf & sz0 & im & Ho & Hp & (H1 & H2 & H3 & H4)). exists c, elf, sz0, im. split_and!; try done. split_and!; try done. lia.
Qed.

Lemma exec_safe_witness :
  exists s pd r s' h' p' f', exec demo_end demo_data demo_ts [47; 97] demo_argv (mk_xst s demo_hw (demo_proc pd) demo_files) = Ret r (mk_xst s' h' p' f') /\
    (r = 0 \/ r = -1).
Proof.
  destruct demo_process as (s & free & a & pd & Hw & Hv & _).
  destruct (exec_safe demo_end demo_data demo_ts demo_range demo_data_range demo_data_aligned s free [] a [] [47; 97] demo_argv demo_hw (demo_proc pd) demo_files Hw Hv (demo_cpu pd))
    as (r & s' & h' & p' & f' & fr' & a' & E & _ & _ & _ & _ & Hr).
  - repeat constructor; vm_compute; discriminate.
  - exists s, pd, r, s', h', p', f'. split; [exact E|]. destruct Hr as [[-> _]|[-> _]]; [left | right]; reflexivity.
Defined.

Lemma exec_succeeds_witness :
  exists s pd s' h' p' f', exec demo_end demo_data demo_ts [47; 97] demo_argv (mk_xst s demo_hw (demo_proc pd) demo_files) = Ret 0 (mk_xst s' h' p' f').
Proof.
  destruct demo_process as (s & free & a & pd & Hw & Hv & Hl). exists s, pd.
  apply (exec_succeeds demo_end demo_data demo_ts demo_range demo_data_range demo_data_aligned s free [] a [] [47; 97] demo_argv demo_hw (demo_proc pd) demo_files Hw Hv (demo_cpu pd)).
  exact (loadable_mono _ _ _ _ Hl demo_loadable).
Defined.

(** The program is loaded. *)
Lemma demo_run :
  exists s free a pd s' h' p' f', wf demo_end demo_data s free ([] ++ a :: []) /\ visible a = (pd, 0) /\
    exec demo_end demo_data demo_ts [47; 97] demo_argv (mk_xst s demo_hw (demo_proc pd) demo_files) = Ret 0 (mk_xst s' h' p' f').
Proof.
  destruct demo_process as (s & free & a & pd & Hw & Hv & Hl). exists s, free, a, pd. injection Hv as Hpd Hsz.
  destruct (exec_law demo_end demo_data demo_ts demo_range demo_data_range demo_data_aligned s free [47; 97] demo_argv demo_hw (demo_proc pd) demo_files)
    as [(Hno & _)|(elf & pd' & sz0 & im & sp & s1 & f1 & fr1 & T & E & img & E1 & Hm & I & _)]; [apply Hw | repeat constructor; vm_compute; discriminate | |].
  { destruct Hno. exact (loadable_mono _ _ _ _ Hl demo_loadable). }
  destruct (commit_law demo_end demo_data demo_ts demo_range demo_data_range demo_data_aligned s free [] a [] s1 fr1 pd' _ T E _ img [47; 97] elf sp demo_hw (demo_proc pd) f1 Hw Hpd (demo_cpu pd) Hm I)
    as (s' & h' & free' & E2 & _).
  eexists s', h', _, f1. split; [exact Hw|]. split; [unfold visible; congruence|]. rewrite E1. exact E2.
Qed.

Lemma exec_image_witness :
  exists s pd s' h' p' f', exec demo_end demo_data demo_ts [47; 97] demo_argv (mk_xst s demo_hw (demo_proc pd) demo_files) = Ret 0 (mk_xst s' h' p' f') /\
    xeip p' = 4 /\ xsz p' = 3 * PGSIZE /\ exists fl, access s' (xpgdir p') 5 = Some (fl, 205).
Proof.
  destruct demo_run as (s & free & a & pd & s' & h' & p' & f' & Hw & Hv & E).
  destruct (exec_image demo_end demo_data demo_ts demo_range demo_data_range demo_data_aligned s free [] a [] [47; 97] demo_argv demo_hw (demo_proc pd) demo_files
    s' h' p' f' demo_elf Hw Hv (demo_cpu pd)) as (elf & sz0 & im & img & (_ & -> & _ & im' & Hsp & Him) & Hsz & He & _ & _ & Hacc & _ & Himg & _).
  - repeat constructor; vm_compute; discriminate.
  - exact E.
  - vm_compute. reflexivity.
  - assert (sz0 = 16) as -> by (vm_compute in Hsp; injection Hsp as <- _; reflexivity).
    exists s, pd, s', h', p', f'. split; [exact E|]. split; [rewrite He; vm_compute; reflexivity|]. split; [rewrite Hsz; reflexivity|].
    destruct (Hacc 5) as (fl & Ha & _); [rewrite Hsz; vm_compute; split; [discriminate | reflexivity]|]. exists fl. rewrite Ha.
    rewrite Himg by reflexivity. rewrite <- Him. vm_compute in Hsp. injection Hsp as <-. vm_compute. reflexivity.
Defined.
