(* ===== verification/Mkfs.v ===== *)
(** * mkfs.c: building the disk image

    mkfs runs on the host: it writes an empty file system into a file and
    copies the programs into it.  The state is the image, as the contents of
    its blocks and the number of blocks the file has, and the global
    variables.  A read behind the end of the file is short and ends the
    program; so do a failed [assert] and a file that cannot be opened. *)

From S2P Require Import Prelude Cstring Bio Log Blocks Fs FsDir.

Definition NINODES : Z := 200.
Definition nbitmap : Z := FSSIZE / (BSZ * 8) + 1.
Definition ninodeblocks : Z := NINODES / IPB + 1.
Definition nlog : Z := LOGSIZE.
Definition nmeta : Z := 2 + nlog + ninodeblocks + nbitmap.

Record mst := mk_mst {
  img : contents_map;
  isz : Z;
  msb : superblock;
  freeinode : Z;
  freeblock : Z;
}.

Definition set_img C n s := mk_mst C n (msb s) (freeinode s) (freeblock s).
Definition set_msb v s := mk_mst (img s) (isz s) v (freeinode s) (freeblock s).
Definition set_freeinode i s := mk_mst (img s) (isz s) (msb s) i (freeblock s).
Definition set_freeblock b s := mk_mst (img s) (isz s) (msb s) (freeinode s) b.

Definition exit1 {A} : M mst A := panic "exit(1)".
Definition assert_ (b : bool) : M mst unit := if b then ret tt else panic "assert".

(** The bytes that are stored, read as a word of the little-endian host. *)
Definition xshort (x : Z) : Z := le_dec [u8 x; u8 (Z.shiftr x 8)].
Definition xint (x : Z) : Z := le_dec [u8 x; u8 (Z.shiftr x 8); u8 (Z.shiftr x 16); u8 (Z.shiftr x 24)].

Definition wsect (sec : Z) (buf : list Z) : M mst unit :=
  if FSSIZE <? sec then exit1
  else modify (fun s => set_img (upd sec buf (img s)) (Z.max (isz s) (sec + 1)) s).

Definition rsect (sec : Z) : M mst (list Z) :=
  if FSSIZE <? sec then exit1
  else
    let! n := reads isz in
    if n <=? sec then exit1 else reads (fun s => img s sec).

Definition winode (inum : Z) (ip : dinode) : M mst unit :=
  let! v := reads msb in
  let bn := IBLOCK inum v in
  let! buf := rsect bn in
  wsect bn (put_dinode ip (dinode_at inum) buf).

Definition rinode (inum : Z) : M mst dinode :=
  let! v := reads msb in
  let! buf := rsect (IBLOCK inum v) in
  ret (get_dinode buf (dinode_at inum)).

Definition ialloc (type : Z) : M mst Z :=
  let! inum := reads freeinode in
  modify (fun s => set_freeinode (u32 (inum + 1)) s) ;;
  winode inum (mk_dinode (i16 (xshort type)) 0 0 (i16 (xshort 1)) (xint 0) (replicate 13 0)) ;;
  ret inum.

(** The bitmap with the first [used] bits set. *)
Definition set_bit (buf : list Z) (i : Z) : list Z := aset buf (i / 8) (u8 (Z.lor (aref buf (i / 8)) (bit_mask i))).
Definition bitmap (used : Z) : list Z := fold_left set_bit (seqZ 0 used) (replicate BSIZE 0).

Definition balloc (used : Z) : M mst unit :=
  assert_ (used <? BSZ * 8) ;;
  let! v := reads msb in
  wsect (sb_bmapstart v) (bitmap used).

(** [freeblock++] *)
Definition next_block : M mst Z :=
  let! f := reads freeblock in
  modify (fun s => set_freeblock (u32 (f + 1)) s) ;;
  ret f.

(** [if(xint(din.addrs[k]) == 0) din.addrs[k] = xint(freeblock++)] *)
Definition need_addr (din : dinode) (k : Z) : M mst dinode :=
  if xint (aref (i_addrs din) k) =? 0 then
    let! f := next_block in
    ret (set_addr k (xint f) din)
  else ret din.

(** The inode, and the address in word [k] of the indirect block [a]. *)
Definition need_word (a k : Z) (din : dinode) : M mst (dinode * Z) :=
  let! indirect := rsect a in
  let k := Z.to_nat (4 * k) in
  if get32 indirect k =? 0 then
    let! f := next_block in
    let indirect := set32 indirect k (xint f) in
    wsect a indirect ;;
    ret (din, xint (get32 indirect k))
  else ret (din, xint (get32 indirect k)).

(** The inode and the address of block [fbn] of the file, which is given a
    block when it has none. *)
Definition block_addr (din : dinode) (fbn : Z) : M mst (dinode * Z) :=
  if fbn <? NDIRECT then
    let! din := need_addr din fbn in
    ret (din, xint (aref (i_addrs din) fbn))
  else
    let! din := need_addr din NDIRECT in
    need_word (xint (aref (i_addrs din) NDIRECT)) (fbn - NDIRECT) din.

Fixpoint iappend_loop (fuel : nat) (din : dinode) (off : Z) (p : list Z) : M mst (dinode * Z) :=
  match p, fuel with
  | [], _ => ret (din, off)
  | _, O => fun _ => Hang
  | _, S fuel =>
    let fbn := off / BSZ in
    assert_ (fbn <? MAXFILE) ;;
    let! r := block_addr din fbn in
    let '(din, x) := r in
    let n1 := Z.to_nat (Z.min (Z.of_nat (length p)) ((fbn + 1) * BSZ - off)) in
    let! buf := rsect x in
    wsect x (splice (Z.to_nat (off - fbn * BSZ)) (take n1 p) buf) ;;
    iappend_loop fuel din (u32 (off + Z.of_nat n1)) (drop n1 p)
  end.

(** Every turn takes at least one byte. *)
Definition iappend (inum : Z) (p : list Z) : M mst unit :=
  let! din := rinode inum in
  let! r := iappend_loop (length p) din (xint (i_size din)) p in
  let '(din, off) := r in
  winode inum (set_size (xint off) din).

(** ** [main] *)

Definition sb_bytes (v : superblock) : list Z :=
  le_enc 4 (sb_size v) ++ le_enc 4 (sb_nblocks v) ++ le_enc 4 (sb_ninodes v) ++ le_enc 4 (sb_nlog v) ++
  le_enc 4 (sb_logstart v) ++ le_enc 4 (sb_inodestart v) ++ le_enc 4 (sb_bmapstart v).

Definition new_sb : superblock :=
  mk_superblock (xint FSSIZE) (xint (FSSIZE - nmeta)) (xint NINODES) (xint nlog) (xint 2) (xint (2 + nlog)) (xint (2 + nlog + ninodeblocks)).

(** The empty image: zeroed blocks and the superblock. *)
Definition format : M mst unit :=
  modify (set_msb new_sb) ;;
  modify (set_freeblock nmeta) ;;
  for_ (Z.to_nat FSSIZE) 0 (fun i => wsect i (replicate BSIZE 0)) ;;
  let! v := reads msb in
  wsect 1 (splice 0 (sb_bytes v) (replicate BSIZE 0)).

(** [bzero(&de); de.inum = xshort(inum); strncpy(de.name, name, DIRSIZ)] *)
Definition new_de (inum : Z) (name : list Z) : list Z := dent (xshort inum) name.

Definition make_root : M mst Z :=
  let! rootino := ialloc T_DIR in
  assert_ (rootino =? ROOTINO) ;;
  iappend rootino (new_de rootino (str ".")) ;;
  iappend rootino (new_de rootino (str "..")) ;;
  ret rootino.

(** Skip the leading _ of the name. *)
Definition skip_ (name : list Z) : list Z := match name with c :: r => if c =? 95 then r else name | [] => [] end.

Fixpoint copy (inum : Z) (chunks : list (list Z)) : M mst unit :=
  match chunks with
  | [] => ret tt
  | c :: chunks => iappend inum c ;; copy inum chunks
  end.

(** The host's files: what successive calls of [read] give of each file that
    can be opened. *)
Definition host := list Z -> option (list (list Z)).

Definition add_file (h : host) (rootino : Z) (name : list Z) : M mst unit :=
  assert_ (negb (existsb (Z.eqb 47) name)) ;;
  match h name with
  | None => exit1
  | Some chunks =>
    let! inum := ialloc T_FILE in
    iappend rootino (new_de inum (skip_ name)) ;;
    copy inum chunks
  end.

Fixpoint add_files (h : host) (rootino : Z) (names : list (list Z)) : M mst unit :=
  match names with
  | [] => ret tt
  | n :: names => add_file h rootino n ;; add_files h rootino names
  end.

Definition fix_root (rootino : Z) : M mst unit :=
  let! din := rinode rootino in
  let off := xint (i_size din) in
  let off := u32 ((off / BSZ + 1) * BSZ) in
  winode rootino (set_size (xint off) din).

(** [argv] without the name of the program; [opens] says whether the image
    can be opened. *)
Definition main (h : host) (opens : bool) (argv : list (list Z)) : M mst unit :=
  match argv with
  | [] => exit1
  | _ :: names =>
    if negb opens then exit1
    else
      format ;;
      let! rootino := make_root in
      add_files h rootino names ;;
      fix_root rootino ;;
      let! f := reads freeblock in
      balloc f
  end.

(** The file just truncated, and the variables as they are initialised. *)
Definition start : mst := mk_mst (fun _ => replicate BSIZE 0) 0 (mk_superblock 0 0 0 0 0 0 0) 1 0.
