(* ===== verification/MkfsInv.v ===== *)
(** * The image while mkfs fills it

    mkfs hands out blocks in order and writes the bitmap at the end.  Reading
    the image as if the bitmap already said which blocks are handed out makes
    [iappend] an instance of the allocation steps of [writei]: the lemmas on
    files and inodes of the kernel apply to the image. *)

From S2P Require Import Prelude Cstring Sleeplock Bio Log Blocks Fs FsAlloc FsFile FsInode FsRw FsDir Mkfs.

(** ** Words *)

Lemma xint_small x : 0 <= x < 2 ^ 32 -> xint x = x.
Proof.
  intros H. change (xint x) with (le_dec [u8 x; u8 (Z.shiftr x 8); u8 (Z.shiftr x 16); u8 (Z.shiftr x 24)]).
  assert ([u8 x; u8 (Z.shiftr x 8); u8 (Z.shiftr x 16); u8 (Z.shiftr x 24)] = le_enc 4 x) as ->.
  { cbn [le_enc]. unfold u8. rewrite !Z.shiftr_div_pow2 by lia. rewrite !Z.div_div by lia. done. }
  rewrite le_dec_enc. apply Z.mod_small. done.
Qed.

Lemma xshort_small x : 0 <= x < 2 ^ 16 -> xshort x = x.
Proof.
  intros H. unfold xshort.
  assert ([u8 x; u8 (Z.shiftr x 8)] = le_enc 2 x) as ->.
  { cbn [le_enc]. unfold u8. rewrite !Z.shiftr_div_pow2 by lia. done. }
  rewrite le_dec_enc. apply Z.mod_small. done.
Qed.

(** ** The layout *)

Definition BM : Z := 58.

Lemma new_sb_eq : new_sb = mk_superblock 2000 1941 200 30 2 32 58.
Proof. vm_compute. done. Qed.

(** The blocks of the image, for the lemmas that ask which ones there are;
    nothing is said of a state of the block layer. *)
#[local] Instance image_io : BlockIO unit :=
  {| bread _ _ := ret O; bdata _ _ := []; bput _ _ := ret tt; log_write _ := ret tt; brelse _ := ret tt |}.
#[local] Instance image_blocks : BlockLaws unit.
Proof. refine {| ok _ _ _ _ := False; logged b := 32 <= b < FSSIZE; capacity := 0 |}; done. Defined.

Lemma iblock_eq i : 0 <= i < 200 -> IBLOCK i new_sb = i / 8 + 32.
Proof.
  intros H. rewrite new_sb_eq. unfold IBLOCK, IPB. cbn [sb_inodestart]. apply u32_small.
  pose proof (Z.div_pos i 8). pose proof (Z.div_lt_upper_bound i 8 200). lia.
Qed.
Lemma iblock_range i : 0 <= i < 200 -> 32 <= IBLOCK i new_sb < 57.
Proof. intros H. rewrite iblock_eq by done. pose proof (Z.div_pos i 8). pose proof (Z.div_lt_upper_bound i 8 25). lia. Qed.
Lemma bblock_eq_bm b : 0 <= b < 2000 -> BBLOCK b new_sb = BM.
Proof. intros H. rewrite new_sb_eq. unfold BBLOCK, BPB. cbn [sb_bmapstart]. by rewrite Z.div_small by lia. Qed.

(** The layout holds for every block layer that may write these blocks. *)
Lemma image_layout {T} {IO : BlockIO T} {BL : BlockLaws T} : (forall b, 32 <= b < FSSIZE -> logged b) -> layout new_sb nmeta.
Proof.
  intros Hl. unfold FSSIZE in Hl. change nmeta with 59. constructor.
  1-3: rewrite new_sb_eq; cbn; lia.
  - intros b Hb. rewrite bblock_eq_bm by (rewrite new_sb_eq in Hb; exact Hb). split; [apply Hl |]; unfold BM; lia.
  - intros i Hi. assert (0 <= i < 200) as Hi' by (rewrite new_sb_eq in Hi; exact Hi).
    pose proof (iblock_range i Hi'). split; [apply Hl|]; lia.
  - intros b i Hb Hi. assert (0 <= i < 200) as Hi' by (rewrite new_sb_eq in Hi; exact Hi).
    pose proof (iblock_range i Hi'). rewrite bblock_eq_bm by (rewrite new_sb_eq in Hb; exact Hb). unfold BM. lia.
  - intros b Hb. rewrite new_sb_eq in Hb. cbn in Hb. apply Hl. lia.
Qed.

Lemma Lay : layout new_sb nmeta.
Proof. apply image_layout. intros b Hb. exact Hb. Qed.

Lemma sb_size_eq : sb_size new_sb = 2000. Proof. by rewrite new_sb_eq. Qed.
Lemma sb_ninodes_eq : sb_ninodes new_sb = 200. Proof. by rewrite new_sb_eq. Qed.
Lemma sb_bmap_eq : sb_bmapstart new_sb = BM. Proof. by rewrite new_sb_eq. Qed.
Lemma nmeta_eq : nmeta = 59. Proof. done. Qed.

#[local] Opaque new_sb nmeta.
Ltac consts := rewrite ?sb_size_eq, ?sb_ninodes_eq, ?sb_bmap_eq, ?nmeta_eq in *; unfold NINODES, FSSIZE, BM, BSZ, MAXFILE, NDIRECT, NINDIRECT, NSLOT in *.
Ltac clia := consts; lia.

(** ** The bitmap *)

Lemma length_fold_bits l d : length (fold_left set_bit l d) = length d.
Proof. revert d. induction l as [|x l IH]; intros d; [done|]. cbn. rewrite IH. apply length_aset. Qed.

Lemma length_bitmap n : length (bitmap n) = BSIZE.
Proof. unfold bitmap. rewrite length_fold_bits. apply length_replicate. Qed.

Lemma bitmap_succ n : 0 <= n -> bitmap (n + 1) = set_bit (bitmap n) n.
Proof.
  intros H. unfold bitmap. replace (n + 1) with (Z.of_nat (Z.to_nat n) + Z.of_nat 1) by lia.
  rewrite seqZ_app by lia. rewrite fold_left_app. replace (Z.of_nat (Z.to_nat n)) with n by lia. done.
Qed.

Lemma bitmap_bit (n : nat) x : Z.of_nat n <= BPB -> 0 <= x < BPB -> bit_clear (bitmap (Z.of_nat n)) x = negb (x <? Z.of_nat n).
Proof.
  intros Hn Hx. induction n as [|n IH].
  - rewrite bit_clear_spec by lia. change (bitmap (Z.of_nat 0)) with (replicate BSIZE 0).
    rewrite (proj2 (Z.ltb_ge x (Z.of_nat 0))) by lia. unfold aref.
    assert (default 0 (replicate BSIZE 0 !! Z.to_nat (x / 8)) = 0) as ->.
    { destruct (replicate BSIZE 0 !! Z.to_nat (x / 8)) as [z|] eqn:E; [|done]. by apply lookup_replicate in E as [-> _]. }
    by rewrite Z.testbit_0_l.
  - replace (Z.of_nat (S n)) with (Z.of_nat n + 1) in * by lia. rewrite bitmap_succ by lia. unfold set_bit.
    rewrite mark_bit by (rewrite ?length_bitmap; done || lia). case_decide as E.
    + subst x. by rewrite (proj2 (Z.ltb_lt _ _)) by lia.
    + rewrite IH by lia. f_equal. destruct (Z.ltb_spec x (Z.of_nat n)), (Z.ltb_spec x (Z.of_nat n + 1)); lia || done.
Qed.

(** ** The image read with its bitmap *)

Record synced (s : mst) (C : contents_map) : Prop := {
  sy_sb : msb s = new_sb;
  sy_isz : isz s = FSSIZE;
  sy_free : nmeta <= freeblock s <= FSSIZE;
  sy_img b : b <> BM -> img s b = C b;
  sy_bm : C BM = bitmap (freeblock s);
  sy_zero b : freeblock s <= b -> C b = replicate BSIZE 0;
  sy_len b : length (C b) = BSIZE;
  sy_super : superblock_of (C 1) = new_sb;
}.

Lemma synced_used s C x : synced s C -> 0 <= x < FSSIZE -> used new_sb C x = (x <? freeblock s).
Proof.
  intros S Hx. destruct S. unfold used. rewrite bblock_eq_bm by clia. rewrite sy_bm0.
  rewrite Z.mod_small by (unfold BPB; clia). replace (freeblock s) with (Z.of_nat (Z.to_nat (freeblock s))) by clia.
  rewrite bitmap_bit by (unfold BPB; clia). apply negb_involutive.
Qed.

Lemma synced_sized s C : synced s C -> sized C.
Proof. intros S b _. apply (sy_len _ _ S). Qed.

Lemma synced_marked s C : synced s C -> marked new_sb nmeta C.
Proof. intros S b Hb. rewrite (synced_used s) by (done || clia). pose proof (sy_free _ _ S). apply Z.ltb_lt. clia. Qed.

(** Writing a block that has been handed out, or an inode block. *)
Lemma wsect_law s C b d :
  synced s C -> 2 <= b < freeblock s -> b <> BM -> length d = BSIZE ->
  wsect b d s = Ret tt (set_img (upd b d (img s)) FSSIZE s) /\ synced (set_img (upd b d (img s)) FSSIZE s) (upd b d C).
Proof.
  intros S Hb Hne Hd. destruct S. unfold wsect. rewrite (proj2 (Z.ltb_ge FSSIZE b)) by lia. unfold modify. split.
  - do 2 f_equal. lia.
  - constructor; cbn; try done.
    + intros x Hx. unfold upd. case_decide; auto.
    + by rewrite upd_ne by done.
    + intros x Hx. rewrite upd_ne by lia. auto.
    + intros x. unfold upd. case_decide; auto.
    + by rewrite upd_ne by lia.
Qed.

Lemma rsect_law s C b : synced s C -> 0 <= b < FSSIZE -> b <> BM -> rsect b s = Ret (C b) s.
Proof.
  intros S Hb Hne. destruct S. unfold rsect. rewrite (proj2 (Z.ltb_ge FSSIZE b)) by lia. unfold bind, reads.
  rewrite sy_isz0, (proj2 (Z.leb_gt FSSIZE b)) by lia. by rewrite sy_img0.
Qed.

Lemma rinode_law s C i : synced s C -> 0 <= i < NINODES -> rinode i s = Ret (disk_inode new_sb C i) s.
Proof.
  intros S Hi. unfold rinode. unfold bind at 1, reads at 1. rewrite (sy_sb _ _ S).
  pose proof (iblock_range i Hi). rewrite (bind_ret _ _ _ _ _ (rsect_law s C (IBLOCK i new_sb) S ltac:(clia) ltac:(clia))). done.
Qed.

Lemma winode_law s C i nd :
  synced s C -> 0 <= i < NINODES -> length (i_addrs nd) = 13%nat ->
  exists s', winode i nd s = Ret tt s' /\ synced s' (put_inode new_sb i nd C) /\ freeblock s' = freeblock s /\ freeinode s' = freeinode s.
Proof.
  intros S Hi Hl. unfold winode. unfold bind at 1, reads at 1. rewrite (sy_sb _ _ S).
  pose proof (iblock_range i Hi). pose proof (sy_free _ _ S).
  rewrite (bind_ret _ _ _ _ _ (rsect_law s C (IBLOCK i new_sb) S ltac:(clia) ltac:(clia))).
  destruct (wsect_law s C (IBLOCK i new_sb) (put_dinode nd (dinode_at i) (C (IBLOCK i new_sb))) S) as [E S'].
  - clia. - clia.
  - pose proof (dinode_at_le i). rewrite length_put_dinode; rewrite ?(sy_len _ _ S); done.
  - eexists. split; [exact E|]. done.
Qed.

(** ** Giving a slot a block *)

Lemma next_block_law s C :
  synced s C -> freeblock s < FSSIZE ->
  let f := freeblock s in
  next_block s = Ret f (set_freeblock (f + 1) s) /\
  synced (set_freeblock (f + 1) s) (upd f (replicate BSIZE 0) (mark new_sb f C)) /\
  nmeta <= f < sb_size new_sb /\ used new_sb C f = false.
Proof.
  intros S Hf f. pose proof (sy_free _ _ S) as Hr. pose proof (synced_used s C f S ltac:(clia)) as Hu.
  rewrite Z.ltb_irrefl in Hu. assert (BBLOCK f new_sb = BM) as Eb by (apply bblock_eq_bm; clia).
  split_and!; [| | clia | clia | done].
  - unfold next_block, bind, reads, modify, ret. rewrite u32_small by clia. done.
  - destruct S. constructor; cbn [msb isz freeblock img set_freeblock]; try done; [clia | | | | |].
    + intros b Hb. unfold mark. rewrite Eb. unfold upd. case_decide as E; [subst b; rewrite <- (sy_zero0 f) by (unfold f; lia); auto|].
      rewrite decide_False by done. auto.
    + rewrite upd_ne by (unfold f; clia). unfold mark. rewrite Eb, upd_eq, sy_bm0. rewrite Z.mod_small by (unfold BPB, f; clia).
      symmetry. apply bitmap_succ. clia.
    + intros b Hb. unfold mark. rewrite Eb, !upd_ne by (unfold f in *; clia). apply sy_zero0. lia.
    + intros b. unfold mark. rewrite Eb. unfold upd. repeat case_decide; rewrite ?length_replicate, ?length_aset; done.
    + unfold mark. rewrite Eb, !upd_ne by (unfold f in *; clia). done.
Qed.

(** After the step, slot [k] has a block: the one it had, or the next one,
    which is zero. *)
Record ensured (k : Z) (s : mst) (C : contents_map) (nd : dinode) (s' : mst) (C' : contents_map) (nd' : dinode) : Prop := {
  en_sync : synced s' C';
  en_grown : exists n, grown new_sb nmeta C nd C' nd' n;
  en_ne : slot C' nd' k <> 0;
  en_other i : 0 <= i < NSLOT -> i <> k -> slot C' nd' i = slot C nd i;
  en_count : freeblock s' = freeblock s + (if slot C nd k =? 0 then 1 else 0);
  en_inodes : freeinode s' = freeinode s;
  en_same : slot C nd k <> 0 -> C' = C /\ nd' = nd;
  en_fresh : slot C nd k = 0 -> C' (slot C' nd' k) = replicate BSIZE 0;
}.

Lemma ensured_refl k s C nd : synced s C -> slot C nd k <> 0 -> ensured k s C nd s C nd.
Proof.
  intros S Hne. constructor; try done.
  - exists O. constructor.
  - rewrite (proj2 (Z.eqb_neq _ _) Hne). lia.
Qed.

Lemma slot_range C nd k : file_ok new_sb nmeta C nd -> 0 <= k < NSLOT -> slot C nd k <> 0 -> 59 <= slot C nd k < 2000.
Proof. intros F Hk Hne. destruct (f_range _ _ _ _ F k Hk Hne) as [H _]. clia. Qed.

(** An address of a consistent file is a word. *)
Lemma slot_word C nd k : file_ok new_sb nmeta C nd -> 0 <= k < NSLOT -> xint (slot C nd k) = slot C nd k.
Proof.
  intros F Hk. apply xint_small. destruct (Z.eq_dec (slot C nd k) 0) as [->|Hne]; [lia|].
  pose proof (slot_range _ _ _ F Hk Hne). lia.
Qed.

Lemma slot_direct C nd k : k <= NDIRECT -> slot C nd k = aref (i_addrs nd) k.
Proof. intros H. unfold slot. by rewrite (proj2 (Z.leb_le _ _) H). Qed.

Lemma need_addr_law s C nd k :
  synced s C -> file_ok new_sb nmeta C nd -> 0 <= k <= NDIRECT -> (slot C nd k = 0 -> freeblock s < FSSIZE) ->
  exists s' C' nd', need_addr nd k s = Ret nd' s' /\ ensured k s C nd s' C' nd'.
Proof.
  intros S F Hk Hroom. assert (0 <= k < NSLOT) as Hks by clia. unfold need_addr.
  rewrite <- (slot_direct C nd k) by lia. rewrite (slot_word C) by done. bcase (slot C nd k =? 0).
  - destruct (next_block_law s C S (Hroom E)) as (E1 & S1 & Hf & Hu). rewrite (bind_ret _ _ _ _ _ E1).
    pose proof (add_direct _ _ Lay C (synced_sized _ _ S) (freeblock s) Hf Hu nd k F Hk E) as A.
    eexists _, _, _. split; [unfold ret; rewrite xint_small by clia; reflexivity|].
    pose proof (ad_slots _ _ _ _ _ _ _ _ A) as Hslots. constructor.
    + exact S1.
    + eexists. econstructor; [constructor | exact A].
    + rewrite Hslots, decide_True by done. clia.
    + intros i Hi Hne. by rewrite Hslots, decide_False by done.
    + rewrite E. done.
    + done.
    + done.
    + intros _. rewrite Hslots, decide_True by done. apply upd_eq.
  - exists s, C, nd. split; [done|]. by apply ensured_refl.
Qed.

Lemma slot_indirect C nd k : 0 <= k -> slot C nd NDIRECT <> 0 ->
  slot C nd (NDIRECT + 1 + k) = get32 (C (slot C nd NDIRECT)) (Z.to_nat (4 * k)).
Proof.
  intros Hk Hne. rewrite (slot_direct _ _ NDIRECT) in * by lia. unfold slot.
  rewrite (proj2 (Z.leb_gt (NDIRECT + 1 + k) NDIRECT)) by lia. unfold indirect.
  rewrite (proj2 (Z.eqb_neq _ _) Hne). do 2 f_equal. lia.
Qed.

Lemma need_word_law s C nd k :
  synced s C -> file_ok new_sb nmeta C nd -> 0 <= k < NINDIRECT -> slot C nd NDIRECT <> 0 ->
  let i := NDIRECT + 1 + k in
  (slot C nd i = 0 -> freeblock s < FSSIZE) ->
  exists s' C', need_word (slot C nd NDIRECT) k nd s = Ret (nd, slot C' nd i) s' /\ ensured i s C nd s' C' nd.
Proof.
  intros S F Hk Hne i Hroom. assert (0 <= i < NSLOT) as Hi by (unfold i; clia).
  destruct (f_range _ _ _ _ F NDIRECT ltac:(clia) Hne) as [Ha Hau]. set (a := slot C nd NDIRECT) in *.
  unfold need_word. rewrite (bind_ret _ _ _ _ _ (rsect_law s C a S ltac:(clia) ltac:(clia))). cbn zeta.
  pose proof (slot_indirect C nd k ltac:(lia) Hne) as Ei. fold a i in Ei. rewrite <- Ei. bcase (slot C nd i =? 0).
  - destruct (next_block_law s C S (Hroom E)) as (E1 & S1 & Hf & Hu). rewrite (bind_ret _ _ _ _ _ E1).
    pose proof (add_indirect _ _ Lay C (synced_sized _ _ S) (freeblock s) Hf Hu nd k F Hk Hne E) as A. cbn zeta in A. fold a i in A.
    rewrite (synced_used s) in Hau by (done || clia). apply Z.ltb_lt in Hau.
    assert (Z.to_nat (4 * k) + 4 <= length (C a))%nat as Hlen by (rewrite (sy_len _ _ S); unfold BSIZE; clia).
    destruct (wsect_law _ _ a (set32 (C a) (Z.to_nat (4 * k)) (freeblock s)) S1) as [E2 S2]; cbn [freeblock set_freeblock]; [clia | clia | |].
    { unfold set32. rewrite length_splice by (rewrite length_le_enc; done). apply (sy_len _ _ S). }
    rewrite xint_small by clia. rewrite (bind_ret _ _ _ _ _ E2).
    pose proof (ad_slots _ _ _ _ _ _ _ _ A) as Hslots.
    eexists _, _. split.
    { unfold ret. rewrite get32_set32_eq by (done || clia). rewrite Hslots, decide_True by done.
      by rewrite xint_small by clia. }
    constructor.
    + exact S2.
    + eexists. econstructor; [constructor | exact A].
    + rewrite Hslots, decide_True by done. clia.
    + intros j Hj Hjne. by rewrite Hslots, decide_False by done.
    + rewrite E. done.
    + done.
    + done.
    + intros _. rewrite Hslots, decide_True by done. rewrite upd_ne by lia. apply upd_eq.
  - exists s, C. rewrite (slot_word C) by done. split; [done|]. by apply ensured_refl.
Qed.

(** ** Finding the block of an offset *)

Definition cost (C : contents_map) (nd : dinode) (bn : Z) : Z :=
  (if (NDIRECT <=? bn) && (slot C nd NDIRECT =? 0) then 1 else 0) + (if fblock C nd bn =? 0 then 1 else 0).

Record reached (bn : Z) (s : mst) (C : contents_map) (nd : dinode) (s' : mst) (C' : contents_map) (nd' : dinode) : Prop := {
  re_sync : synced s' C';
  re_grown : exists n, grown new_sb nmeta C nd C' nd' n;
  re_ne : fblock C' nd' bn <> 0;
  re_other i : 0 <= i < NSLOT -> i <> slot_of bn -> i <> NDIRECT -> slot C' nd' i = slot C nd i;
  re_ind : slot C' nd' NDIRECT <> 0 <-> slot C nd NDIRECT <> 0 \/ NDIRECT <= bn;
  re_count : freeblock s' = freeblock s + cost C nd bn;
  re_inodes : freeinode s' = freeinode s;
  re_same : fblock C nd bn <> 0 -> C' = C /\ nd' = nd;
  re_fresh : fblock C nd bn = 0 -> C' (fblock C' nd' bn) = replicate BSIZE 0;
}.

Lemma reached_direct bn s C nd s' C' nd' :
  0 <= bn < NDIRECT -> ensured bn s C nd s' C' nd' -> reached bn s C nd s' C' nd'.
Proof.
  intros Hbn []. assert (slot_of bn = bn) as E by (unfold slot_of; by rewrite (proj2 (Z.ltb_lt _ _)) by lia).
  constructor; unfold fblock, cost; rewrite ?E; try done.
  - auto.
  - rewrite en_other0 by clia. split; [auto | intros [?|?]; [done | lia]].
  - unfold fblock. rewrite E, (proj2 (Z.leb_gt NDIRECT bn)) by lia. done.
Qed.

Lemma indirect_none C nd k : 0 <= k -> slot C nd NDIRECT = 0 -> slot C nd (NDIRECT + 1 + k) = 0.
Proof.
  intros Hk H. rewrite slot_direct in H by lia. unfold slot. rewrite (proj2 (Z.leb_gt _ _)) by lia.
  unfold indirect. by rewrite H.
Qed.

Lemma reached_indirect k s C nd s1 C1 nd1 s2 C2 :
  0 <= k < NINDIRECT -> file_ok new_sb nmeta C nd ->
  ensured NDIRECT s C nd s1 C1 nd1 -> ensured (NDIRECT + 1 + k) s1 C1 nd1 s2 C2 nd1 ->
  reached (NDIRECT + k) s C nd s2 C2 nd1.
Proof.
  intros Hk F [] []. assert (slot_of (NDIRECT + k) = NDIRECT + 1 + k) as E.
  { unfold slot_of. rewrite (proj2 (Z.ltb_ge _ _)) by lia. lia. }
  assert (slot C1 nd1 (NDIRECT + 1 + k) = slot C nd (NDIRECT + 1 + k)) as Ek by (apply en_other0; clia).
  assert (slot C2 nd1 NDIRECT <> 0) as Hind by (rewrite en_other1 by clia; done).
  constructor; unfold fblock, cost; rewrite ?E; try done.
  - destruct en_grown0 as [n G1], en_grown1 as [m G2]. exists (n + m)%nat. by eapply grown_trans.
  - intros i Hi Hne Hni. rewrite en_other1, en_other0 by done. done.
  - split; [right; lia | done].
  - rewrite en_count1, en_count0, Ek. unfold fblock. rewrite E, (proj2 (Z.leb_le NDIRECT _)) by lia. cbn [andb]. lia.
  - by rewrite en_inodes1.
  - intros Hne. assert (slot C nd NDIRECT <> 0) as Hd by (intros H0; by apply Hne, indirect_none; [lia|]).
    destruct (en_same0 Hd) as [-> ->]. by destruct (en_same1 Hne) as [-> _].
  - intros H0. apply en_fresh1. by rewrite Ek.
Qed.

Lemma block_addr_law s C nd bn :
  synced s C -> file_ok new_sb nmeta C nd -> 0 <= bn < MAXFILE -> freeblock s + cost C nd bn <= FSSIZE ->
  exists s' C' nd', block_addr nd bn s = Ret (nd', fblock C' nd' bn) s' /\ reached bn s C nd s' C' nd'.
Proof.
  intros S F Hbn Hroom. unfold block_addr, cost in *. bcase (bn <? NDIRECT).
  - assert (slot_of bn = bn) as Es by (unfold slot_of; by rewrite (proj2 (Z.ltb_lt _ _)) by lia). unfold fblock in *. rewrite Es in *.
    destruct (need_addr_law s C nd bn S F ltac:(lia)) as (s' & C' & nd' & E1 & N).
    { intros H0. rewrite H0 in Hroom. destruct (_ && _); cbn in Hroom; clia. }
    exists s', C', nd'. rewrite (bind_ret _ _ _ _ _ E1). split; [|apply reached_direct; [clia | done]].
    unfold ret. rewrite <- (slot_direct C' nd' bn) by lia. destruct (en_grown _ _ _ _ _ _ _ N) as [n G].
    destruct (grown_keeps _ _ Lay _ _ _ _ _ G F) as (F' & _). by rewrite (slot_word C') by (done || clia).
  - rewrite (proj2 (Z.leb_le NDIRECT bn)) in Hroom by lia. cbn [andb] in Hroom.
    replace bn with (NDIRECT + (bn - NDIRECT)) in Hroom |- * by lia. set (k := bn - NDIRECT) in *.
    assert (0 <= k < NINDIRECT) as Hk by (unfold k; clia).
    assert (slot_of (NDIRECT + k) = NDIRECT + 1 + k) as Es by (unfold slot_of; rewrite (proj2 (Z.ltb_ge _ _)) by lia; lia).
    unfold fblock in *. rewrite Es in *.
    destruct (need_addr_law s C nd NDIRECT S F ltac:(clia)) as (s1 & C1 & nd1 & E1 & N1).
    { intros H0. rewrite H0 in Hroom. destruct (slot C nd (NDIRECT + 1 + k) =? 0); cbn in Hroom; clia. }
    destruct (en_grown _ _ _ _ _ _ _ N1) as [n G]. destruct (grown_keeps _ _ Lay _ _ _ _ _ G F) as (F1 & _).
    rewrite (bind_ret _ _ _ _ _ E1), <- (slot_direct C1 nd1 NDIRECT) by lia. rewrite (slot_word C1) by (done || clia).
    destruct (need_word_law s1 C1 nd1 k (en_sync _ _ _ _ _ _ _ N1) F1 Hk (en_ne _ _ _ _ _ _ _ N1)) as (s2 & C2 & E2 & N2).
    { intros H0. rewrite (en_other _ _ _ _ _ _ _ N1) in H0 by clia. rewrite H0, Z.eqb_refl in Hroom.
      rewrite (en_count _ _ _ _ _ _ _ N1). clia. }
    exists s2, C2, nd1. replace (NDIRECT + k - NDIRECT) with k by lia. split; [exact E2|]. by eapply reached_indirect.
Qed.

(** ** Files without spare blocks *)

(** The file has the blocks of its first [off] bytes and no others, and the
    rest of the last one is zero. *)
Record tight (C : contents_map) (nd : dinode) (off : Z) : Prop := {
  ti_block bn : 0 <= bn < MAXFILE -> fblock C nd bn <> 0 <-> bn * BSZ < off;
  ti_ind : slot C nd NDIRECT <> 0 <-> NDIRECT * BSZ < off;
  ti_zero o : off <= o < MAXFILE * BSZ -> fblock C nd (o / BSZ) <> 0 -> fbyte C nd o = 0;
}.

(** The blocks of a file of [n] bytes. *)
Definition need (n : Z) : Z := (n + 511) / 512 + (if 6144 <? n then 1 else 0).

Lemma need_zero : need 0 = 0. Proof. done. Qed.

Lemma need_mono a b : 0 <= a <= b -> need a <= need b.
Proof.
  intros H. unfold need. pose proof (Z.div_le_mono (a + 511) (b + 511) 512 ltac:(lia) ltac:(lia)).
  destruct (Z.ltb_spec 6144 a), (Z.ltb_spec 6144 b); lia.
Qed.

Lemma need_turn q r m : 0 <= q -> 0 <= r < 512 -> 0 < m -> r + m <= 512 ->
  need (512 * q + r + m) - need (512 * q + r) = (if (12 <=? q) && (512 * q + r <=? 6144) then 1 else 0) + (if r =? 0 then 1 else 0).
Proof.
  intros Hq Hr Hm Hrm. unfold need.
  assert ((512 * q + r + m + 511) / 512 = q + 1) as -> by (symmetry; apply (Z.div_unique_pos _ _ _ (r + m - 1)); lia).
  assert ((512 * q + r + 511) / 512 = q + (if r =? 0 then 0 else 1)) as ->.
  { destruct (Z.eqb_spec r 0); symmetry; [apply (Z.div_unique_pos _ _ _ 511) | apply (Z.div_unique_pos _ _ _ (r - 1))]; lia. }
  destruct (Z.ltb_spec 6144 (512 * q + r + m)), (Z.ltb_spec 6144 (512 * q + r)), (Z.eqb_spec r 0), (Z.leb_spec 12 q), (Z.leb_spec (512 * q + r) 6144); cbn [andb]; lia.
Qed.

Lemma cost_tight C nd off m :
  tight C nd off -> 0 <= off < MAXFILE * BSZ -> 0 < m -> off mod BSZ + m <= BSZ ->
  cost C nd (off / BSZ) = need (off + m) - need off.
Proof.
  intros T Hoff Hm Hfit. pose proof (div_file off Hoff) as Hq. destruct T. pose proof (ti_block0 _ Hq) as Hb.
  assert (BSZ = 512) as EB by done. rewrite EB in *.
  pose proof (Z.mod_pos_bound off 512 ltac:(lia)) as Hr. pose proof (Z.div_mod off 512 ltac:(lia)) as Ed.
  set (q := off / 512) in *. set (r := off mod 512) in *. rewrite Ed. rewrite need_turn by (done || lia).
  unfold cost. f_equal.
  - unfold NDIRECT at 1. destruct (Z.leb_spec 12 q); [|done]. cbn [andb].
    destruct (Z.eqb_spec (slot C nd NDIRECT) 0), (Z.leb_spec (512 * q + r) 6144); try done; unfold NDIRECT in *; lia.
  - destruct (Z.eqb_spec (fblock C nd q) 0), (Z.eqb_spec r 0); try done; lia.
Qed.

Section turn.
Context (s s' : mst) (C C' : contents_map) (nd nd' : dinode) (off : Z) (w : list Z).
Context (Hoff : 0 <= off < MAXFILE * BSZ) (Hw : w <> []) (Hfit : off mod BSZ + Z.of_nat (length w) <= BSZ).
Let bn := off / BSZ.
Context (R : reached bn s C nd s' C' nd') (T : tight C nd off) (F : file_ok new_sb nmeta C' nd').
Let a := fblock C' nd' bn.
Let C2 := upd a (splice (Z.to_nat (off mod BSZ)) w (C' a)) C'.

Lemma turn_pos : 0 <= bn < MAXFILE /\ off = 512 * bn + off mod BSZ /\ 0 <= off mod BSZ < 512 /\ 0 < Z.of_nat (length w).
Proof.
  pose proof (div_file off Hoff). pose proof (Z.div_mod off BSZ ltac:(done)). pose proof (Z.mod_pos_bound off BSZ ltac:(done)).
  assert (length w <> 0%nat) by (by destruct w). unfold bn. clia.
Qed.

Lemma turn_fblock x : 0 <= x < MAXFILE -> fblock C2 nd' x = if decide (x = bn) then a else fblock C nd x.
Proof.
  intros Hx. destruct turn_pos as (Hb & _). unfold C2, a. rewrite (put_fblock _ _ C' nd' F bn Hb) by (done || apply R).
  case_decide as E; [by subst|]. apply (re_other _ _ _ _ _ _ _ R); [by apply slot_of_range | | by apply slot_of_range].
  intros H. by apply E, slot_of_inj.
Qed.

Lemma turn_blocks x : 0 <= x < MAXFILE -> fblock C2 nd' x <> 0 <-> x * BSZ < off + Z.of_nat (length w).
Proof.
  intros Hx. destruct turn_pos as (Hb & Ho & Hr & Hl). rewrite turn_fblock by done. case_decide as E.
  - subst x. split; [intros _; clia | intros _; apply R].
  - rewrite (ti_block _ _ _ T) by done. clia.
Qed.

Lemma turn_zero o : off + Z.of_nat (length w) <= o < MAXFILE * BSZ -> fblock C2 nd' (o / BSZ) <> 0 -> fbyte C2 nd' o = 0.
Proof.
  intros Ho Hne. destruct turn_pos as (Hb & Hoe & Hr & Hl). assert (0 <= o < MAXFILE * BSZ) as Ho' by lia.
  pose proof (div_file o Ho') as Hob. pose proof (proj1 (turn_blocks _ Hob) Hne) as Hlt.
  pose proof (Z.div_mod o BSZ ltac:(done)) as Hod. pose proof (Z.mod_pos_bound o BSZ ltac:(done)) as Hor.
  assert (o / BSZ = bn) as Eo by clia. assert (fblock C' nd' (o / BSZ) <> 0) as Hne' by (rewrite Eo; apply R).
  pose proof (sy_len _ _ (re_sync _ _ _ _ _ _ _ R) a) as Hlen. unfold C2, a.
  rewrite (put_fbyte _ _ C' nd' F bn Hb) by (done || apply R). rewrite decide_True by done. fold a.
  rewrite aref_splice by (rewrite ?Hlen; unfold BSIZE; clia). rewrite decide_False by clia.
  destruct (Z.eq_dec (fblock C nd bn) 0) as [E0|E0].
  - pose proof (re_fresh _ _ _ _ _ _ _ R E0) as Hz. fold a in Hz. rewrite Hz. unfold aref.
    destruct (replicate BSIZE 0 !! Z.to_nat (o mod BSZ)) eqn:E; [|done]. by apply lookup_replicate in E as [-> _].
  - destruct (re_same _ _ _ _ _ _ _ R E0) as [EC En]. unfold a. rewrite EC, En, <- Eo.
    apply (ti_zero _ _ _ T); [lia | by rewrite Eo].
Qed.

Lemma turn_tight : tight C2 nd' (off + Z.of_nat (length w)).
Proof.
  destruct turn_pos as (Hb & Ho & Hr & Hl). constructor; [exact turn_blocks | | exact turn_zero].
  unfold C2, a. rewrite (put_slot _ _ C' nd' F bn Hb) by (clia || apply R).
  rewrite (re_ind _ _ _ _ _ _ _ R), (ti_ind _ _ _ T). clia.
Qed.
End turn.

(** One turn of the loop. *)
Lemma turn_run fuel s C nd off p w :
  synced s C -> file_ok new_sb nmeta C nd -> tight C nd off -> 0 <= off < MAXFILE * BSZ -> p <> [] ->
  w = take (Z.to_nat (Z.min (Z.of_nat (length p)) ((off / BSZ + 1) * BSZ - off))) p ->
  freeblock s + (need (off + Z.of_nat (length w)) - need off) <= FSSIZE ->
  exists s' C' nd', iappend_loop (S fuel) nd off p s = iappend_loop fuel nd' (off + Z.of_nat (length w)) (drop (length w) p) s' /\
    synced s' C' /\ wrote new_sb nmeta C nd C' nd' off w /\ tight C' nd' (off + Z.of_nat (length w)) /\
    freeblock s' = freeblock s + (need (off + Z.of_nat (length w)) - need off) /\ freeinode s' = freeinode s.
Proof.
  intros S F T Hoff Hp Ew Hroom. pose proof (div_file off Hoff) as Hb.
  pose proof (Z.div_mod off BSZ ltac:(done)) as Hd. pose proof (Z.mod_pos_bound off BSZ ltac:(done)) as Hr.
  assert (length p <> 0%nat) as Hlp by (by destruct p).
  set (n1 := Z.to_nat (Z.min (Z.of_nat (length p)) ((off / BSZ + 1) * BSZ - off))) in *.
  assert (length w = n1) as Hlw by (rewrite Ew, length_take; unfold n1; clia).
  assert (w <> []) as Hw by (intros ->; cbn in Hlw; unfold n1 in Hlw; clia).
  assert (off mod BSZ + Z.of_nat (length w) <= BSZ) as Hfit by (rewrite Hlw; unfold n1; clia).
  assert (0 < Z.of_nat (length w)) as Hpos by (destruct w; [done | cbn; lia]).
  pose proof (cost_tight C nd off _ T Hoff Hpos Hfit) as Ec.
  destruct (block_addr_law s C nd (off / BSZ) S F Hb ltac:(lia)) as (s1 & C1 & nd1 & E1 & R).
  destruct (re_grown _ _ _ _ _ _ _ R) as [n G]. destruct (grown_keeps _ _ Lay _ _ _ _ _ G F) as (F1 & _).
  pose proof (re_sync _ _ _ _ _ _ _ R) as S1. pose proof (re_ne _ _ _ _ _ _ _ R) as Hne.
  destruct (put_block _ _ C1 nd1 F1 (off / BSZ) Hb Hne) as [Ha Hau]. set (a := fblock C1 nd1 (off / BSZ)) in *.
  rewrite (synced_used s1) in Hau by (done || clia). apply Z.ltb_lt in Hau.
  destruct (wsect_law s1 C1 a (splice (Z.to_nat (off mod BSZ)) w (C1 a)) S1) as [E2 S2]; [clia | clia | |].
  { rewrite length_splice; rewrite (sy_len _ _ S1); [done | unfold BSIZE; clia]. }
  eexists _, _, nd1. split_and!.
  - destruct p as [|x p]; [done|]. cbn [iappend_loop]. unfold assert_. rewrite (proj2 (Z.ltb_lt _ _)) by lia.
    rewrite (bind_ret _ _ _ _ _ (eq_refl : ret tt s = Ret tt s)). rewrite (bind_ret _ _ _ _ _ E1).
    rewrite (bind_ret _ _ _ _ _ (rsect_law s1 C1 a S1 ltac:(clia) ltac:(clia))). fold n1. rewrite <- Ew.
    replace (off - off / BSZ * BSZ) with (off mod BSZ) by lia. rewrite (bind_ret _ _ _ _ _ E2).
    rewrite u32_small by clia. by rewrite Hlw.
  - exact S2.
  - refine (turn_wrote _ _ Lay C nd C1 nd1 n off w F G _ Hfit (synced_sized _ _ S1) Hb Hne Hw _); [lia|].
    intros Hx. by apply (re_same _ _ _ _ _ _ _ R).
  - exact (turn_tight s s1 C C1 nd nd1 off w Hoff Hw Hfit R T F1).
  - cbn [freeblock set_img]. rewrite (re_count _ _ _ _ _ _ _ R). lia.
  - apply R.
Qed.

Lemma iappend_loop_law fuel : forall s C nd off p,
  synced s C -> file_ok new_sb nmeta C nd -> tight C nd off -> 0 <= off -> off + Z.of_nat (length p) <= MAXFILE * BSZ ->
  freeblock s + (need (off + Z.of_nat (length p)) - need off) <= FSSIZE -> (length p <= fuel)%nat ->
  exists s' C' nd', iappend_loop fuel nd off p s = Ret (nd', off + Z.of_nat (length p)) s' /\
    synced s' C' /\ wrote new_sb nmeta C nd C' nd' off p /\ tight C' nd' (off + Z.of_nat (length p)) /\
    freeblock s' = freeblock s + (need (off + Z.of_nat (length p)) - need off) /\ freeinode s' = freeinode s.
Proof.
  induction fuel as [|fuel IH]; intros s C nd off p S F T Hoff Hmax Hroom Hfuel.
  all: destruct (decide (p = [])) as [->|Hp].
  1,3: exists s, C, nd; cbn [length Z.of_nat]; rewrite Z.add_0_r; split_and!; (done || lia || by apply wrote_nil).
  { destruct p; [done | cbn in Hfuel; lia]. }
  assert (length p <> 0%nat) as Hlp by (by destruct p).
  remember (take (Z.to_nat (Z.min (Z.of_nat (length p)) ((off / BSZ + 1) * BSZ - off))) p) as w eqn:Ew.
  pose proof (Z.div_mod off BSZ ltac:(done)) as Hd. pose proof (Z.mod_pos_bound off BSZ ltac:(done)) as Hr.
  assert (0 < length w <= length p)%nat as Hlw by (rewrite Ew, length_take; clia).
  assert (w ++ drop (length w) p = p) as Hsplit.
  { rewrite <- (take_drop (length w) p) at 2. f_equal. rewrite Ew at 2. rewrite length_take, Nat.min_l by clia. done. }
  pose proof (need_mono (off + Z.of_nat (length w)) (off + Z.of_nat (length p)) ltac:(lia)) as Hm.
  destruct (turn_run fuel s C nd off p w S F T ltac:(lia) Hp Ew ltac:(lia)) as (s1 & C1 & nd1 & E1 & S1 & W1 & T1 & B1 & I1).
  assert (off + Z.of_nat (length w) + Z.of_nat (length (drop (length w) p)) = off + Z.of_nat (length p)) as El by (rewrite length_drop; lia).
  destruct (IH s1 C1 nd1 (off + Z.of_nat (length w)) (drop (length w) p) S1) as (s2 & C2 & nd2 & E2 & S2 & W2 & T2 & B2 & I2).
  { apply W1. } { done. } { lia. } { lia. } { rewrite El. lia. } { rewrite length_drop. lia. }
  rewrite El in *. exists s2, C2, nd2. split_and!; [by rewrite E1 | done | | done | lia | congruence].
  rewrite <- Hsplit. apply (wrote_app _ _ _ _ C1 nd1); [lia | rewrite Hsplit; lia | done | done].
Qed.
