(* ===== verification/MkfsImage.v ===== *)
(** * The image that mkfs builds

    [iappend] appends to a file, [ialloc] makes an empty one, and both keep
    the image consistent; so [main] leaves a file system in which every file
    it was given is there under its name with its contents. *)

From S2P Require Import Prelude Cstring Sleeplock Bio Log Blocks Fs FsAlloc FsFile FsInode FsRw FsDir Mkfs MkfsInv.

#[local] Existing Instance image_io.
#[local] Existing Instance image_blocks.
#[local] Opaque new_sb nmeta.

Notation inode_of := (disk_inode new_sb).
Notation contents := (file_of new_sb).

(** The inodes below [freeinode] are in use, without spare blocks. *)
Record built (s : mst) (C : contents_map) : Prop := {
  bu_sync : synced s C;
  bu_fs : fs_ok new_sb nmeta C;
  bu_next : 1 <= freeinode s <= NINODES;
  bu_live i : live new_sb C i <-> 1 <= i < freeinode s;
  bu_tight i : live new_sb C i -> tight C (inode_of C i) (i_size (inode_of C i));
}.

Lemma tight_keeps C C' nd off : 0 <= off -> keeps new_sb C C' nd -> tight C nd off -> tight C' nd off.
Proof.
  intros Hoff K []. assert (forall bn, 0 <= bn < MAXFILE -> fblock C' nd bn = fblock C nd bn) as Hb.
  { intros bn Hbn. apply (move_slot new_sb); [done | by apply slot_of_range]. }
  constructor.
  - intros bn Hbn. rewrite Hb by done. auto.
  - rewrite (move_slot new_sb C C') by (done || clia). done.
  - intros o Ho Hne. pose proof (div_file o ltac:(lia)) as Hq. rewrite Hb in Hne by done.
    rewrite <- (ti_zero o Ho Hne). unfold fbyte. rewrite Hb by done. f_equal.
    by apply K; [apply slot_of_range|].
Qed.

Lemma meta_keeps C i d nd : 0 <= i < NINODES -> file_ok new_sb nmeta C nd -> keeps new_sb C (upd (IBLOCK i new_sb) d C) nd.
Proof.
  intros Hi F k Hk Hne. destruct (f_range _ _ _ _ F k Hk Hne) as [Hr Hu].
  split; [rewrite (meta_used _ _ Lay) by clia; done|]. apply (meta_data _ _ Lay); clia.
Qed.

Lemma tight_meta C i d nd off :
  0 <= i < NINODES -> file_ok new_sb nmeta C nd -> 0 <= off -> tight C nd off -> tight (upd (IBLOCK i new_sb) d C) nd off.
Proof. intros Hi F Hoff. apply tight_keeps; [done|]. by apply meta_keeps. Qed.

(** A file of [iappend] is the file of a [writei] at its end. *)
Lemma overwrite_end f p : overwrite (Z.of_nat (length f)) p f = f ++ p.
Proof. unfold overwrite, splice. rewrite Nat2Z.id, take_ge, drop_ge by lia. by rewrite app_nil_r. Qed.

Lemma file_size C nd : 0 <= i_size nd -> Z.of_nat (length (file C nd)) = i_size nd.
Proof. intros H. rewrite length_file. lia. Qed.

Lemma touched s C s' C' i :
  built s C -> synced s' C' -> freeinode s' = freeinode s -> touches new_sb nmeta C C' i ->
  tight C' (inode_of C' i) (i_size (inode_of C' i)) -> built s' C'.
Proof.
  intros [] S' Ei Tc Ht. pose proof (touches_ok _ _ _ _ _ bu_fs0 Tc) as O'. rewrite <- Ei in *.
  assert (forall j, live new_sb C' j <-> live new_sb C j) as Hl.
  { intros j. destruct (decide (j = i)) as [->|Hne]; [split; intros; apply Tc | by apply (other_live _ _ _ _ _ Tc)]. }
  constructor; [done | done | done | |].
  - intros j. rewrite Hl. apply bu_live0.
  - intros j Hj. destruct (decide (j = i)) as [->|Hne]; [done|]. apply Hl in Hj as Hj'.
    rewrite (t_inode _ _ _ _ _ Tc) by (done || apply Hj'). apply tight_keeps with C; [| |auto].
    + pose proof (f_size _ _ _ _ (o_file _ _ _ bu_fs0 j Hj')). lia.
    + by apply (other_kept _ _ _ _ _ bu_fs0 Tc).
Qed.

(** What an operation leaves of the inodes other than [i]. *)
Definition others_kept (s : mst) (C C' : contents_map) (i : Z) : Prop :=
  forall j, 1 <= j < freeinode s -> j <> i -> inode_of C' j = inode_of C j /\ contents C' j = contents C j.

Lemma iappend_law s C i p :
  built s C -> 1 <= i < freeinode s ->
  let n := Z.of_nat (length (contents C i)) in
  let m := Z.of_nat (length p) in
  n + m <= MAXFILE * BSZ -> freeblock s + (need (n + m) - need n) <= FSSIZE ->
  exists s' C', iappend i p s = Ret tt s' /\ built s' C' /\
    freeinode s' = freeinode s /\ freeblock s' = freeblock s + (need (n + m) - need n) /\
    contents C' i = contents C i ++ p /\ meta (inode_of C' i) = meta (inode_of C i) /\ others_kept s C C' i.
Proof.
  intros B Hi n m Hmax Hroom. pose proof B as []. pose proof (proj2 (bu_live0 i) Hi) as Hl. pose proof (proj1 Hl) as Hin.
  pose proof (o_file _ _ _ bu_fs0 i Hl) as F. pose proof (f_size _ _ _ _ F) as Hsz.
  assert (n = i_size (inode_of C i)) as En by (unfold n; apply file_size; lia).
  set (nd := inode_of C i) in *. unfold iappend.
  rewrite (bind_ret _ _ _ _ _ (rinode_law s C i bu_sync0 ltac:(clia))). fold nd. rewrite xint_small by clia. rewrite <- En.
  destruct (iappend_loop_law (length p) s C nd n p) as (s1 & C1 & nd1 & E1 & S1 & W & T1 & B1 & I1); try done; [|lia|].
  { rewrite En. by apply bu_tight0. }
  rewrite (bind_ret _ _ _ _ _ E1). fold m. rewrite xint_small by clia.
  assert (set_size (n + m) nd1 = grow n m nd1) as Eg.
  { unfold grow. f_equal. destruct (w_meta _ _ _ _ _ _ _ _ W) as (_ & _ & _ & _ & Es). lia. }
  pose proof (grow_ok _ _ _ _ _ _ _ _ F W ltac:(lia) Hmax) as F1. fold m in F1.
  destruct (write_grows _ _ Lay C C1 i n p nd1 Hl (synced_marked _ _ S1) (synced_sized _ _ S1) W F1) as (Tc & Ed & Ef). fold m in Tc, Ed, Ef.
  destruct (winode_law s1 C1 i (set_size (n + m) nd1) S1 ltac:(clia)) as (s2 & E2 & S2 & B2 & I2); [apply (f_addrs _ _ _ _ F1)|].
  rewrite Eg in *. exists s2, (put_inode new_sb i (grow n m nd1) C1). split_and!.
  - exact E2.
  - apply (touched s C _ _ i); [done | done | congruence | done |]. rewrite Ed. rewrite <- Eg. cbn [i_size set_size].
    apply tight_meta; [clia | rewrite Eg; done | lia |]. destruct T1. by constructor.
  - congruence.
  - fold m in B1; lia.
  - unfold file_of at 1. rewrite Ed, Ef. unfold m. rewrite (grow_file _ _ _ _ _ _ _ _ F W) by lia. apply overwrite_end.
  - rewrite Ed. unfold meta, grow. cbn. destruct (w_meta _ _ _ _ _ _ _ _ W) as (-> & -> & -> & -> & _). done.
  - intros j Hj Hne. apply bu_live0 in Hj as Hj'. split; [by apply (t_inode _ _ _ _ _ Tc); [apply Hj'|]|].
    by apply (touches_file _ _ _ _ _ bu_fs0 Tc).
Qed.

(** ** A new inode *)

Definition empty_inode (t : Z) : dinode := mk_dinode t 0 0 1 0 (replicate 13 0).

Lemma empty_slot C t k : slot C (empty_inode t) k = 0.
Proof.
  assert (forall j, aref (replicate 13 0) j = 0) as Hz.
  { intros j. unfold aref. destruct (replicate 13 0 !! Z.to_nat j) eqn:E; [|done]. by apply lookup_replicate in E as [-> _]. }
  unfold slot, indirect, empty_inode. cbn [i_addrs]. rewrite !Hz. by destruct (_ <=? _).
Qed.

Lemma empty_ok C t : file_ok new_sb nmeta C (empty_inode t).
Proof.
  constructor; try (intros *; rewrite empty_slot; done).
  - done.
  - cbn. clia.
  - intros bn Hb. cbn. clia.
Qed.

Lemma empty_tight C t : tight C (empty_inode t) 0.
Proof.
  constructor.
  - intros bn Hb. unfold fblock. rewrite empty_slot. clia.
  - rewrite empty_slot. clia.
  - intros o Ho. unfold fblock. by rewrite empty_slot.
Qed.

Section new_inode.
Context (s : mst) (C : contents_map) (t : Z) (B : built s C) (Hi : freeinode s < NINODES) (Ht : 0 < t < 2 ^ 15).
Let i := freeinode s.
Let C' := put_inode new_sb i (empty_inode t) C.

Lemma new_range : 0 <= i < sb_ninodes new_sb.
Proof. pose proof (bu_next _ _ B). unfold i. clia. Qed.

Lemma new_self : inode_of C' i = empty_inode t.
Proof.
  apply disk_put_inode; [|apply (bu_sync _ _ B)]. unfold dinode_ok, empty_inode. cbn.
  split_and!; try lia; try done. apply Forall_replicate. lia.
Qed.

Lemma new_other j : 0 <= j < sb_ninodes new_sb -> j <> i -> inode_of C' j = inode_of C j.
Proof. intros Hj Hne. apply (disk_put_inode_ne _ _ Lay); try done; [apply new_range | apply (bu_sync _ _ B)]. Qed.

Lemma new_live j : live new_sb C' j <-> live new_sb C j \/ j = i.
Proof.
  unfold live. pose proof new_range. destruct (decide (j = i)) as [->|Hne].
  - rewrite new_self. cbn. split; [by right | intros _; split; [done | lia]].
  - split.
    + intros [Hj H1]. rewrite new_other in H1 by done. by left.
    + intros [[Hj H1]|?]; [|done]. by rewrite new_other by done.
Qed.

Lemma new_file j : live new_sb C j -> j <> i ->
  file_ok new_sb nmeta C' (inode_of C j) /\ (forall k, 0 <= k < NSLOT -> slot C' (inode_of C j) k = slot C (inode_of C j) k).
Proof.
  intros Hj Hne. pose proof (o_file _ _ _ (bu_fs _ _ B) j Hj) as F. pose proof new_range.
  split; [by apply (meta_ok _ _ Lay)|]. intros k Hk. by apply (meta_slot _ _ Lay).
Qed.

Lemma new_fs_ok : fs_ok new_sb nmeta C'.
Proof.
  pose proof new_range as Hr. constructor.
  - apply (meta_marked _ _ Lay); [done | apply (bu_fs _ _ B)].
  - intros j Hj. destruct (decide (j = i)) as [->|Hne]; [rewrite new_self; apply empty_ok|].
    apply new_live in Hj as [Hj|?]; [|done]. rewrite new_other by (done || apply Hj). by apply new_file.
  - intros j k Hj Hk Hne a b Ha Hb.
    destruct (decide (j = i)) as [->|Hji]; [rewrite new_self, empty_slot; done|]. apply new_live in Hj as [Hj|?]; [|done].
    rewrite (new_other j) by (done || apply Hj). rewrite (proj2 (new_file j Hj Hji)) by done. intros Hs.
    destruct (decide (k = i)) as [->|Hki]; [rewrite new_self, empty_slot; done|]. apply new_live in Hk as [Hk|?]; [|done].
    rewrite (new_other k) by (done || apply Hk). rewrite (proj2 (new_file k Hk Hki)) by done.
    by apply (o_apart _ _ _ (bu_fs _ _ B) j k).
Qed.

Lemma ialloc_law :
  exists s', ialloc t s = Ret i s' /\ built s' C' /\ freeinode s' = i + 1 /\ freeblock s' = freeblock s /\
    contents C' i = [] /\ meta (inode_of C' i) = (t, 0, 0, 1) /\ others_kept s C C' i.
Proof.
  pose proof new_range as Hr. pose proof B as []. unfold ialloc.
  unfold bind at 1, reads at 1. fold i. unfold bind at 1, modify at 1.
  assert (mk_dinode (i16 (xshort t)) 0 0 (i16 (xshort 1)) (xint 0) (replicate 13 0) = empty_inode t) as ->.
  { unfold empty_inode. rewrite xshort_small by lia. change (i16 (xshort 1)) with 1. change (xint 0) with 0. f_equal.
    unfold i16, u16. rewrite Z.mod_small by lia. by rewrite (proj2 (Z.ltb_lt _ _)) by lia. }
  set (s1 := set_freeinode (u32 (i + 1)) s).
  assert (synced s1 C) as S1 by (destruct bu_sync0; by constructor).
  destruct (winode_law s1 C i (empty_inode t) S1) as (s2 & E2 & S2 & B2 & I2); [clia | done |].
  rewrite (bind_ret _ _ _ _ _ E2). assert (freeinode s2 = i + 1) as En by (rewrite I2; cbn; apply u32_small; clia).
  exists s2. split_and!; try done.
  - constructor; [done | apply new_fs_ok | rewrite En; clia | |].
    + intros j. rewrite new_live, bu_live0, En. unfold i in *. clia.
    + intros j Hj. destruct (decide (j = i)) as [->|Hne]; [rewrite new_self; apply empty_tight|].
      apply new_live in Hj as [Hj|?]; [|done]. rewrite new_other by (done || apply Hj).
      pose proof (o_file _ _ _ bu_fs0 j Hj) as F. apply tight_meta; [clia | done | apply F | auto].
  - unfold file_of. rewrite new_self. done.
  - by rewrite new_self.
  - intros j Hj Hne. apply bu_live0 in Hj. rewrite new_other by (done || apply Hj). split; [done|].
    unfold file_of. rewrite new_other by (done || apply Hj). pose proof (o_file _ _ _ bu_fs0 j Hj) as F.
    apply (move_file new_sb nmeta); [|done]. apply meta_keeps; [clia | done].
Qed.
End new_inode.

(** ** The empty file system *)

Lemma le_dec_zeros n : le_dec (replicate n 0) = 0.
Proof. induction n as [|n IH]; [done|]. change (replicate (S n) 0) with (0 :: replicate n 0). cbn [le_dec]. by rewrite IH. Qed.

Lemma zero_inode_type i C : C (IBLOCK i new_sb) = replicate BSIZE 0 -> i_type (inode_of C i) = 0.
Proof.
  intros E. unfold disk_inode. rewrite E. cbn [i_type get_dinode]. unfold get16, slice. rewrite drop_replicate, take_replicate.
  by rewrite le_dec_zeros.
Qed.

Definition zeroed (j : Z) (s : mst) : Prop :=
  msb s = new_sb /\ isz s = j /\ freeblock s = nmeta /\ freeinode s = 1 /\ forall b, img s b = replicate BSIZE 0.

Lemma zero_blocks k s0 : Z.of_nat k <= FSSIZE -> zeroed 0 s0 ->
  exists s, for_ k 0 (fun i => wsect i (replicate BSIZE 0)) s0 = Ret tt s /\ zeroed (Z.of_nat k) s.
Proof.
  intros Hk H0. pose proof (wp_for zeroed k 0 (fun i => wsect i (replicate BSIZE 0)) s0 H0) as H.
  assert (wp (for_ k 0 (fun i => wsect i (replicate BSIZE 0))) (fun _ s => zeroed (0 + Z.of_nat k) s) s0) as Hw; [apply H|].
  - intros j s Hj (H1 & H2 & H3 & H4 & H5). unfold wsect. rewrite (proj2 (Z.ltb_ge FSSIZE j)) by clia.
    apply wp_modify. unfold zeroed. cbn. split_and!; try done; [lia|]. intros b. unfold upd. by case_decide.
  - apply wp_Ret in Hw as ([] & s & E & Hs). by exists s.
Qed.

Lemma format_run :
  exists s, format start = Ret tt s /\ msb s = new_sb /\ isz s = FSSIZE /\ freeblock s = nmeta /\ freeinode s = 1 /\
    img s 1 = splice 0 (sb_bytes new_sb) (replicate BSIZE 0) /\ forall b, b <> 1 -> img s b = replicate BSIZE 0.
Proof.
  set (s0 := set_freeblock nmeta (set_msb new_sb start)).
  destruct (zero_blocks (Z.to_nat FSSIZE) s0) as (s & E & H1 & H2 & H3 & H4 & H5); [clia | done |].
  rewrite Z2Nat.id in H2 by clia.
  eexists. split.
  { unfold format. unfold bind at 1, modify at 1. unfold bind at 1, modify at 1. fold s0. rewrite (bind_ret _ _ _ _ _ E).
    unfold bind, reads. rewrite H1. unfold wsect. change (FSSIZE <? 1) with false. cbn iota. unfold modify. reflexivity. }
  cbn [msb isz freeblock freeinode img set_img]. split_and!; [exact H1 | rewrite H2; clia | exact H3 | exact H4 | apply upd_eq |].
  intros b Hb. rewrite upd_ne by exact Hb. apply H5.
Qed.

Lemma format_law : exists s C, format start = Ret tt s /\ built s C /\ freeinode s = 1 /\ freeblock s = nmeta.
Proof.
  destruct format_run as (s & E & H1 & H2 & H3 & H4 & H5 & H6). exists s, (upd BM (bitmap nmeta) (img s)).
  assert (synced s (upd BM (bitmap nmeta) (img s))) as S.
  { constructor; [exact H1 | exact H2 | rewrite H3; clia | | | | |].
    - intros b Hb. by rewrite upd_ne.
    - rewrite upd_eq. by rewrite H3.
    - intros b Hb. rewrite upd_ne by clia. apply H6. clia.
    - intros b. unfold upd. case_decide; [apply length_bitmap|].
      destruct (decide (b = 1)) as [->|Hb]; [by rewrite H5, new_sb_eq | by rewrite H6].
    - rewrite upd_ne by clia. rewrite H5, new_sb_eq. vm_compute. reflexivity. }
  assert (forall i, ~ live new_sb (upd BM (bitmap nmeta) (img s)) i) as Hn.
  { intros i [Hi Ht]. apply Ht. pose proof (iblock_range i ltac:(clia)). apply zero_inode_type.
    rewrite upd_ne by clia. apply H6. clia. }
  split_and!; [done | | done | done]. constructor.
  - done.
  - constructor; [exact (synced_marked s _ S) | intros i Hi; destruct (Hn i Hi) | intros i j Hi; destruct (Hn i Hi)].
  - rewrite H4. clia.
  - intros i. rewrite H4. split; [intros Hi; destruct (Hn i Hi) | lia].
  - intros i Hi. destruct (Hn i Hi).
Qed.
