(* ===== verification/MkfsMain.v ===== *)
(** * The whole of mkfs

    The files are copied one after the other; then the size of the root
    directory is rounded up to a whole block and the bitmap is written. *)

From S2P Require Import Prelude Cstring Sleeplock Bio Log Blocks Fs FsAlloc FsFile FsInode FsRw FsDir Mkfs MkfsInv MkfsImage.

#[local] Existing Instance image_io.
#[local] Existing Instance image_blocks.
#[local] Opaque new_sb nmeta.

(** ** Copying files *)

Lemma others_trans s s1 C C1 C2 i :
  freeinode s1 = freeinode s -> others_kept s C C1 i -> others_kept s1 C1 C2 i -> others_kept s C C2 i.
Proof.
  intros E K1 K2 j Hj Hne. destruct (K1 j Hj Hne) as [E1 E2], (K2 j ltac:(lia) Hne) as [E3 E4]. split; congruence.
Qed.

Lemma copy_law i chunks : forall s C,
  built s C -> 1 <= i < freeinode s ->
  let n := Z.of_nat (length (contents C i)) in
  let m := Z.of_nat (length (concat chunks)) in
  n + m <= MAXFILE * BSZ -> freeblock s + (need (n + m) - need n) <= FSSIZE ->
  exists s' C', copy i chunks s = Ret tt s' /\ built s' C' /\
    freeinode s' = freeinode s /\ freeblock s' = freeblock s + (need (n + m) - need n) /\
    contents C' i = contents C i ++ concat chunks /\ meta (inode_of C' i) = meta (inode_of C i) /\ others_kept s C C' i.
Proof.
  induction chunks as [|c chunks IH]; intros s C B Hi n m Hmax Hroom.
  - exists s, C. assert (m = 0) as Em by done. cbn [copy concat]. rewrite app_nil_r, Em, Z.add_0_r. split_and!; (done || lia).
  - assert (m = Z.of_nat (length c) + Z.of_nat (length (concat chunks))) as Em by (unfold m; cbn [concat]; rewrite length_app; lia).
    pose proof (need_mono (n + Z.of_nat (length c)) (n + m) ltac:(lia)) as Hm.
    destruct (iappend_law s C i c B Hi) as (s1 & C1 & E1 & B1 & I1 & F1 & D1 & M1 & K1); fold n; [lia | lia |]. fold n in F1.
    assert (Z.of_nat (length (contents C1 i)) = n + Z.of_nat (length c)) as En by (rewrite D1, length_app; unfold n; lia).
    destruct (IH s1 C1 B1 ltac:(lia)) as (s2 & C2 & E2 & B2 & I2 & F2 & D2 & M2 & K2).
    { lia. } { rewrite En. replace (n + Z.of_nat (length c) + Z.of_nat (length (concat chunks))) with (n + m) by lia. lia. }
    rewrite En in F2. replace (n + Z.of_nat (length c) + Z.of_nat (length (concat chunks))) with (n + m) in F2 by lia.
    exists s2, C2. cbn [copy]. rewrite (bind_ret _ _ _ _ _ E1). split_and!; try done; try congruence; [lia | |].
    + rewrite D2, D1. cbn [concat]. by rewrite <- app_assoc.
    + by eapply others_trans.
Qed.

(** ** The files on the image *)

(** A file: its name on the host and what the calls of [read] give of it. *)
Notation source := (list Z * list (list Z))%type.
Definition text (f : source) : list Z := concat f.2.
Definition sum (l : list Z) : Z := fold_right Z.add 0 l.
(** The blocks in use once the files are copied. *)
Definition blocks (fs : list source) : Z :=
  nmeta + need (16 * (2 + Z.of_nat (length fs))) + sum ((fun f => need (Z.of_nat (length (text f)))) <$> fs).
(** The table of contents, and the bytes of its entries. *)
Definition toc (fs : list source) : list (Z * list Z) :=
  [(1, str "."); (1, str "..")] ++ imap (fun k f => (2 + Z.of_nat k, skip_ f.1)) fs.
Definition listing (l : list (Z * list Z)) : list Z := l ≫= (fun e => dent e.1 e.2).

Record holds (s : mst) (C : contents_map) (fs : list source) : Prop := {
  ho_built : built s C;
  ho_next : freeinode s = 2 + Z.of_nat (length fs);
  ho_free : freeblock s = blocks fs;
  ho_root : contents C 1 = listing (toc fs) /\ meta (inode_of C 1) = (T_DIR, 0, 0, 1);
  ho_file k f : fs !! k = Some f -> contents C (2 + Z.of_nat k) = text f /\ meta (inode_of C (2 + Z.of_nat k)) = (T_FILE, 0, 0, 1);
}.

Lemma length_listing l : length (listing l) = (16 * length l)%nat.
Proof. induction l as [|e l IH]; [done|]. unfold listing in *. rewrite bind_cons, length_app, length_new_dent, IH. cbn. lia. Qed.

Lemma length_toc fs : length (toc fs) = (2 + length fs)%nat.
Proof. unfold toc. by rewrite length_app, length_imap. Qed.

Lemma listing_size fs : Z.of_nat (length (listing (toc fs))) = 16 * (2 + Z.of_nat (length fs)).
Proof. rewrite length_listing, length_toc. lia. Qed.

Lemma listing_app a b : listing (a ++ b) = listing a ++ listing b.
Proof. apply bind_app. Qed.

Lemma toc_snoc fs f : toc (fs ++ [f]) = toc fs ++ [(2 + Z.of_nat (length fs), skip_ f.1)].
Proof. unfold toc. rewrite imap_app, app_assoc. unfold imap at 2. cbn [compose]. unfold compose. by rewrite Nat.add_0_r. Qed.

Lemma sum_app a b : sum (a ++ b) = sum a + sum b.
Proof. unfold sum. induction a as [|x a IH]; cbn; lia. Qed.

Lemma blocks_snoc fs f :
  blocks (fs ++ [f]) = blocks fs + (need (16 * (3 + Z.of_nat (length fs))) - need (16 * (2 + Z.of_nat (length fs)))) + need (Z.of_nat (length (text f))).
Proof.
  unfold blocks. rewrite fmap_app, sum_app, length_app. cbn [fmap list_fmap sum fold_right length].
  replace (2 + Z.of_nat (length fs + 1)) with (3 + Z.of_nat (length fs)) by lia. lia.
Qed.

Lemma need_nonneg n : 0 <= n -> 0 <= need n.
Proof. intros H. rewrite <- need_zero at 1. apply need_mono. lia. Qed.

Lemma blocks_mono a b : blocks a <= blocks (a ++ b).
Proof.
  induction b as [|f b IH] using rev_ind; [by rewrite app_nil_r|]. rewrite app_assoc, blocks_snoc.
  pose proof (need_nonneg (Z.of_nat (length (text f))) ltac:(lia)).
  pose proof (need_mono (16 * (2 + Z.of_nat (length (a ++ b)))) (16 * (3 + Z.of_nat (length (a ++ b)))) ltac:(lia)). lia.
Qed.

Lemma make_root_law s C :
  built s C -> freeinode s = 1 -> freeblock s = nmeta ->
  exists s' C', make_root s = Ret 1 s' /\ holds s' C' [].
Proof.
  intros B Hi Hb. unfold make_root.
  destruct (ialloc_law s C T_DIR B) as (s1 & E1 & B1 & I1 & F1 & D1 & M1 & _); [clia | done |].
  rewrite (bind_ret _ _ _ _ _ E1). rewrite Hi in *. change (1 =? ROOTINO) with true. unfold assert_ at 1. rewrite (bind_ret _ _ _ _ _ (eq_refl : ret tt s1 = Ret tt s1)).
  change (new_de 1 (str ".")) with (dent 1 (str ".")). change (new_de 1 (str "..")) with (dent 1 (str "..")).
  destruct (iappend_law s1 _ 1 (dent 1 (str ".")) B1) as (s2 & C2 & E2 & B2 & I2 & F2 & D2 & M2 & _); rewrite ?D1; [clia | done | rewrite F1, Hb; done |].
  rewrite D1 in D2, F2. rewrite (bind_ret _ _ _ _ _ E2).
  destruct (iappend_law s2 C2 1 (dent 1 (str "..")) B2) as (s3 & C3 & E3 & B3 & I3 & F3 & D3 & M3 & _); rewrite ?D2; [clia | done | rewrite F2, F1, Hb; done |].
  rewrite D2 in D3, F3. rewrite (bind_ret _ _ _ _ _ E3). exists s3, C3. split; [done|]. constructor.
  - done.
  - rewrite I3, I2, I1. done.
  - rewrite F3, F2, F1, Hb. done.
  - split; [rewrite D3; done | congruence].
  - intros k f Hk. by rewrite lookup_nil in Hk.
Qed.

Definition addable (h : host) (f : source) : Prop :=
  h f.1 = Some f.2 /\ 47 ∉ f.1 /\ Z.of_nat (length (text f)) <= MAXFILE * BSZ.

Lemma no_slash name : 47 ∉ name -> existsb (Z.eqb 47) name = false.
Proof.
  intros H. destruct (existsb (Z.eqb 47) name) eqn:E; [|done]. apply existsb_exists in E as (x & Hx & Ex).
  apply Z.eqb_eq in Ex as <-. by apply list_elem_of_In in Hx.
Qed.

Lemma add_file_law h s C fs f :
  holds s C fs -> addable h f -> Z.of_nat (length fs) + 2 < NINODES -> blocks (fs ++ [f]) <= FSSIZE ->
  exists s' C', add_file h 1 f.1 s = Ret tt s' /\ holds s' C' (fs ++ [f]).
Proof.
  intros [B Hn Hb [Hr Hm] Hf] (Hh & Hsl & Hmax) Hin Hroom. unfold add_file. rewrite no_slash by done. cbn [negb].
  unfold assert_. rewrite (bind_ret _ _ _ _ _ (eq_refl : ret tt s = Ret tt s)), Hh. set (i := freeinode s) in *.
  set (q := 16 * (2 + Z.of_nat (length fs))) in *.
  assert (blocks (fs ++ [f]) = blocks fs + (need (q + 16) - need q) + need (Z.of_nat (length (text f)))) as Eb.
  { rewrite blocks_snoc. unfold q. do 4 f_equal. lia. }
  pose proof (need_nonneg (Z.of_nat (length (text f))) ltac:(lia)) as Hnn.
  destruct (ialloc_law s C T_FILE B) as (s1 & E1 & B1 & I1 & F1 & D1 & M1 & K1); [fold i; lia | done |]. fold i in E1, B1, I1, D1, M1, K1.
  rewrite (bind_ret _ _ _ _ _ E1). set (C1 := put_inode new_sb i (empty_inode T_FILE) C) in *.
  destruct (K1 1 ltac:(lia) ltac:(lia)) as [Kr1 Kr2]. unfold new_de. rewrite xshort_small by clia.
  assert (Z.of_nat (length (contents C1 1)) = q) as Eq by (rewrite Kr2, Hr, listing_size; done).
  destruct (iappend_law s1 C1 1 (dent i (skip_ f.1)) B1) as (s2 & C2 & E2 & B2 & I2 & F2 & D2 & M2 & K2);
    rewrite ?Eq, ?length_new_dent; [lia | unfold q; clia | change (Z.of_nat 16) with 16; lia |].
  rewrite Eq, length_new_dent in F2. change (Z.of_nat 16) with 16 in F2. rewrite (bind_ret _ _ _ _ _ E2).
  destruct (K2 i ltac:(lia) ltac:(lia)) as [Ki1 Ki2]. rewrite D1 in Ki2.
  destruct (copy_law i f.2 s2 C2 B2) as (s3 & C3 & E3 & B3 & I3 & F3 & D3 & M3 & K3);
    rewrite ?Ki2; change (Z.of_nat (length (@nil Z))) with 0; rewrite ?Z.add_0_l, ?need_zero; fold (text f); [lia | lia | lia |].
  rewrite Ki2 in F3, D3. change (Z.of_nat (length (@nil Z))) with 0 in F3. rewrite Z.add_0_l, need_zero in F3. fold (text f) in F3, D3.
  destruct (K3 1 ltac:(lia) ltac:(lia)) as [Kr3 Kr4]. exists s3, C3. split; [exact E3|]. constructor.
  - done.
  - rewrite length_app. cbn. lia.
  - lia.
  - rewrite Kr4, D2, Kr2, Hr, Kr3, M2, Kr1. split; [|done]. rewrite toc_snoc, listing_app. f_equal.
    unfold listing. rewrite bind_singleton. cbn. by rewrite <- Hn.
  - intros k g Hk. apply lookup_app_Some in Hk as [Hk|[Hk1 Hk2]].
    + pose proof (lookup_lt_Some _ _ _ Hk). destruct (Hf k g Hk) as [G1 G2].
      destruct (K1 (2 + Z.of_nat k) ltac:(lia) ltac:(lia)) as [P1 P2], (K2 (2 + Z.of_nat k) ltac:(lia) ltac:(lia)) as [P3 P4],
        (K3 (2 + Z.of_nat k) ltac:(lia) ltac:(lia)) as [P5 P6]. split; congruence.
    + apply list_lookup_singleton_Some in Hk2 as [Hk2 <-]. replace (2 + Z.of_nat k) with i by lia.
      rewrite M3, Ki1, M1. done.
Qed.

Lemma add_files_law h rest : forall s C fs,
  holds s C fs -> Forall (addable h) rest -> Z.of_nat (length (fs ++ rest)) + 2 <= NINODES -> blocks (fs ++ rest) <= FSSIZE ->
  exists s' C', add_files h 1 (rest.*1) s = Ret tt s' /\ holds s' C' (fs ++ rest).
Proof.
  induction rest as [|f rest IH]; intros s C fs H Ha Hn Hb.
  - exists s, C. by rewrite app_nil_r.
  - apply Forall_cons in Ha as [Hf Ha]. replace (fs ++ f :: rest) with ((fs ++ [f]) ++ rest) in * by (by rewrite <- app_assoc).
    destruct (add_file_law h s C fs f H Hf) as (s1 & C1 & E1 & H1).
    { rewrite !length_app in Hn. cbn in Hn. lia. } { pose proof (blocks_mono (fs ++ [f]) rest). lia. }
    destruct (IH s1 C1 (fs ++ [f]) H1 Ha Hn Hb) as (s2 & C2 & E2 & H2).
    exists s2, C2. split; [|done]. cbn. rewrite (bind_ret _ _ _ _ _ E1). exact E2.
Qed.

(** ** The size of the root directory *)

Definition rounded (n : Z) : Z := (n / BSZ + 1) * BSZ.
Definition with_size (n : Z) (C : contents_map) : contents_map := put_inode new_sb 1 (set_size n (inode_of C 1)) C.

Section root.
Context (s : mst) (C : contents_map) (B : built s C) (Hlive : 1 < freeinode s).
Let nd := inode_of C 1.
Let n := i_size nd.

Lemma root_live : live new_sb C 1.
Proof. apply (bu_live _ _ B). lia. Qed.

Lemma root_ok : file_ok new_sb nmeta C nd.
Proof. apply (bu_fs _ _ B), root_live. Qed.

Lemma rounded_range : n < MAXFILE * BSZ -> 0 <= n < rounded n /\ rounded n <= MAXFILE * BSZ /\ rounded n < 2 ^ 32.
Proof.
  intros Hn. destruct (f_size _ _ _ _ root_ok) as [H0 _]. fold n in H0. pose proof (div_file n ltac:(lia)).
  unfold rounded. pose proof (Z.div_mod n BSZ ltac:(done)). pose proof (Z.mod_pos_bound n BSZ ltac:(done)). clia.
Qed.

Lemma fix_root_law : n < MAXFILE * BSZ ->
  exists s', fix_root 1 s = Ret tt s' /\ synced s' (with_size (rounded n) C) /\ freeblock s' = freeblock s.
Proof.
  intros Hn. destruct (rounded_range Hn) as (Hr1 & Hr2 & Hr3). unfold fix_root.
  rewrite (bind_ret _ _ _ _ _ (rinode_law s C 1 (bu_sync _ _ B) ltac:(clia))). cbv beta zeta. fold nd n. rewrite (xint_small n) by lia.
  fold (rounded n). rewrite (u32_small (rounded n)), (xint_small (rounded n)) by lia.
  destruct (winode_law s C 1 (set_size (rounded n) nd) (bu_sync _ _ B)) as (s' & E & S & F & _); [clia | apply root_ok |].
  by exists s'.
Qed.

(** The blocks cover the rounded size, unless the last one is full. *)
Lemma size_ok : n < MAXFILE * BSZ -> n mod BSZ <> 0 -> file_ok new_sb nmeta C (set_size (rounded n) nd).
Proof.
  intros Hn Hm. destruct (rounded_range Hn) as (Hr1 & Hr2 & _). destruct root_ok as [F1 F2 F3 F4 F5].
  constructor; [done | cbn [i_size set_size]; lia | exact F3 | exact F4 |]. intros bn H0 Hb. cbn [i_size set_size] in Hb.
  apply (ti_block _ _ _ (bu_tight _ _ B 1 root_live)).
  all: fold nd n; unfold rounded in *; pose proof (Z.div_mod n BSZ ltac:(done)); pose proof (Z.mod_pos_bound n BSZ ltac:(done)); clia.
Qed.

Context (Hn : n < MAXFILE * BSZ) (Hm : n mod BSZ <> 0).
Let C' := with_size (rounded n) C.

Lemma root_inode : inode_of C' 1 = set_size (rounded n) nd.
Proof.
  apply disk_put_inode; [|apply (bu_sync _ _ B)]. by apply (disk_dinode_ok new_sb nmeta Lay C 1); [apply size_ok|].
Qed.

Lemma root_touches : touches new_sb nmeta C C' 1.
Proof.
  pose proof root_live as Hl. pose proof root_inode as Ei. assert (0 <= 1 < sb_ninodes new_sb) as Hi by clia. constructor.
  - split; [done|]. split; [done|]. rewrite Ei. apply Hl.
  - apply (meta_marked _ _ Lay); [done | apply (bu_fs _ _ B)].
  - rewrite Ei. apply (meta_ok _ _ Lay); [done|]. by apply size_ok.
  - intros j Hj Hne. apply (disk_put_inode_ne _ _ Lay); (done || apply root_ok || apply (bu_sync _ _ B)).
  - intros b Hb. rewrite Ei.
    exact (meta_foreign _ _ Lay C 1 Hi (put_dinode (set_size (rounded n) nd) (dinode_at 1) (C (IBLOCK 1 new_sb))) nd b root_ok Hb).
Qed.

Lemma root_contents : contents C' 1 = contents C 1 ++ replicate (Z.to_nat (rounded n - n)) 0.
Proof.
  destruct (rounded_range Hn) as (Hr1 & Hr2 & _). unfold file_of at 1. rewrite root_inode.
  assert (keeps new_sb C C' (set_size (rounded n) nd)) as K by (apply meta_keeps; [clia | by apply size_ok]).
  rewrite (move_file new_sb nmeta C C' _ K) by (by apply size_ok). unfold file. cbn [i_size set_size].
  replace (Z.to_nat (rounded n)) with (Z.to_nat n + Z.to_nat (rounded n - n))%nat by lia.
  rewrite fbytes_app. f_equal. apply list_eq. intros k. destruct (decide (k < Z.to_nat (rounded n - n))%nat) as [Hk|Hk].
  - rewrite lookup_fbytes by done. rewrite lookup_replicate_2 by done. f_equal.
    assert (0 + Z.of_nat (Z.to_nat n) + Z.of_nat k = n + Z.of_nat k) as -> by lia.
    apply (ti_zero _ _ _ (bu_tight _ _ B 1 root_live)); [fold nd n; lia|]. fold nd.
    pose proof (f_full _ _ _ _ (size_ok Hn Hm) ((n + Z.of_nat k) / BSZ)) as H. apply H; cbn [i_size set_size].
    + apply div_file. lia.
    + pose proof (Z.div_mod (n + Z.of_nat k) BSZ ltac:(done)). pose proof (Z.mod_pos_bound (n + Z.of_nat k) BSZ ltac:(done)). clia.
  - rewrite !lookup_ge_None_2; [done | rewrite length_replicate; lia | rewrite length_fbytes; lia].
Qed.
End root.

(** ** The names *)

Lemma dents_cons e bs : length e = 16%nat -> dents (e ++ bs) = e :: dents bs.
Proof.
  intros He. unfold dents. rewrite length_app, He.
  replace (16 + length bs)%nat with (length bs + 1 * 16)%nat by lia. rewrite Nat.div_add by lia. rewrite Nat.add_1_r.
  cbn [seq fmap list_fmap]. f_equal.
  - unfold slice. rewrite Nat.mul_0_r, drop_0, take_app_le, take_ge by lia. done.
  - rewrite <- seq_shift, <- list_fmap_compose. apply list_fmap_ext. intros _ k _. unfold compose, slice. f_equal.
    rewrite drop_app_ge by lia. f_equal. lia.
Qed.

Lemma get_in_cons nm d ds : get_in nm (d :: ds) = if named nm d then Some (de_inum d) else get_in nm ds.
Proof. unfold get_in. cbn. destruct (named nm d); [done|]. by destruct (find_index (named nm) ds). Qed.

Lemma named_dent nm i name : 0 < i < 2 ^ 16 -> named nm (dent i name) = bool_decide (fname name = nm).
Proof.
  intros Hi. pose proof (dent_named i name Hi) as H. unfold named in *. apply andb_true_iff in H as [-> H].
  apply bool_decide_eq_true in H. by rewrite H.
Qed.

Lemma no_names nm m : get_in nm (dents (replicate m 0)) = None.
Proof.
  unfold get_in. rewrite (proj2 (find_index_None _ _)); [done|]. apply Forall_fmap, Forall_true. intros k. unfold compose, named, empty_dent, de_inum.
  unfold slice. rewrite drop_replicate, take_replicate. unfold get16, slice. rewrite drop_replicate, take_replicate.
  by rewrite le_dec_zeros.
Qed.

Section names.
Context (l : list (Z * list Z)) (Hl : Forall (fun e => 0 < e.1 < 2 ^ 16) l).

Lemma listing_get nm m :
  dir_get nm (listing l ++ replicate m 0) = match filter (fun e => fname e.2 = nm) l with e :: _ => Some e.1 | [] => None end.
Proof.
  unfold dir_get. induction l as [|e l' IH]; [apply no_names|]. apply Forall_cons in Hl as [He Hl'].
  unfold listing. rewrite bind_cons, <- app_assoc, dents_cons by apply length_new_dent.
  rewrite get_in_cons, named_dent by done. rewrite filter_cons. destruct (decide (fname e.2 = nm)) as [E|E].
  - rewrite bool_decide_eq_true_2 by done. rewrite dent_inum by lia. done.
  - rewrite bool_decide_eq_false_2 by done. exact (IH Hl').
Qed.

Lemma listing_found i name m : NoDup ((fun e => fname e.2) <$> l) -> (i, name) ∈ l ->
  dir_get (fname name) (listing l ++ replicate m 0) = Some i.
Proof.
  intros Hnd Hin. rewrite listing_get. clear Hl. induction l as [|e l' IH]; [by apply not_elem_of_nil in Hin|].
  apply NoDup_cons in Hnd as [Hni Hnd]. rewrite filter_cons. apply elem_of_cons in Hin as [<-|Hin].
  - by rewrite decide_True.
  - rewrite decide_False; [by apply IH|]. intros E. apply Hni. rewrite E.
    change (fname name) with ((fun e : Z * list Z => fname e.2) (i, name)). by apply list_elem_of_fmap_2.
Qed.

Lemma listing_absent nm m : nm ∉ ((fun e => fname e.2) <$> l) -> dir_get nm (listing l ++ replicate m 0) = None.
Proof.
  intros Hni. rewrite listing_get. destruct (filter (fun e => fname e.2 = nm) l) as [|e l'] eqn:E; [done|].
  exfalso. apply Hni. assert (e ∈ filter (fun e => fname e.2 = nm) l) as He by (rewrite E; left).
  apply list_elem_of_filter in He as [<- He]. change (fname e.2) with ((fun e : Z * list Z => fname e.2) e). by apply list_elem_of_fmap_2.
Qed.
End names.

(** ** [main] *)

Definition root_size (fs : list source) : Z := 16 * (2 + Z.of_nat (length fs)).

Lemma holds_size s C fs : holds s C fs -> Z.of_nat (length fs) + 2 <= NINODES ->
  i_size (inode_of C 1) = root_size fs /\ root_size fs < MAXFILE * BSZ /\ 1 < freeinode s.
Proof.
  intros [B Hn _ [Hr _] _] Hl. assert (1 < freeinode s) as Hf by lia.
  pose proof (f_size _ _ _ _ (root_ok s C B Hf)) as Hs. pose proof (file_size C (inode_of C 1) ltac:(lia)) as E.
  change (file C (inode_of C 1)) with (contents C 1) in E. rewrite Hr, listing_size in E. unfold root_size. split_and!; clia.
Qed.

Lemma finish_bitmap s C : synced s C ->
  exists s', balloc (freeblock s) s = Ret tt s' /\ forall b, img s' b = C b.
Proof.
  intros [H1 H2 H3 H4 H5 H6 H7 H8]. unfold balloc, assert_. rewrite (proj2 (Z.ltb_lt _ _)) by clia.
  eexists. split.
  - rewrite (bind_ret _ _ _ _ _ (eq_refl : ret tt s = Ret tt s)). unfold bind, reads. rewrite H1, sb_bmap_eq.
    unfold wsect. change (FSSIZE <? BM) with false. unfold modify. reflexivity.
  - intros b. cbn [img set_img]. unfold upd. case_decide as E; [by subst | by apply H4].
Qed.

Lemma main_run h image fs :
  Forall (addable h) fs -> Z.of_nat (length fs) + 2 <= NINODES -> blocks fs <= FSSIZE ->
  exists s s0 s1 C, main h true (image :: fs.*1) start = Ret tt s /\ holds s0 C fs /\
    synced s1 (with_size (rounded (root_size fs)) C) /\ freeblock s1 = blocks fs /\
    forall b, img s b = with_size (rounded (root_size fs)) C b.
Proof.
  intros Ha Hl Hb. destruct format_law as (sa & Ca & Ea & Ba & Ia & Fa).
  destruct (make_root_law sa Ca Ba Ia Fa) as (sb & Cb & Eb & Hb0).
  destruct (add_files_law h fs sb Cb [] Hb0 Ha Hl Hb) as (s0 & C & E0 & H0). rewrite app_nil_l in H0.
  destruct (holds_size s0 C fs H0 Hl) as (En & Hmax & Hf).
  destruct (fix_root_law s0 C (ho_built _ _ _ H0) Hf) as (s1 & E1 & S1 & F1); [by rewrite En|]. rewrite En in S1.
  destruct (finish_bitmap s1 _ S1) as (s & E & Himg).
  exists s, s0, s1, C. split_and!; [| done | done | by rewrite F1, (ho_free _ _ _ H0) | done].
  unfold main. cbn [negb]. rewrite (bind_ret _ _ _ _ _ Ea), (bind_ret _ _ _ _ _ Eb), (bind_ret _ _ _ _ _ E0), (bind_ret _ _ _ _ _ E1).
  unfold bind, reads. exact E.
Qed.

Lemma toc_inums fs : Z.of_nat (length fs) + 2 <= NINODES -> Forall (fun e => 0 < e.1 < 2 ^ 16) (toc fs).
Proof.
  intros Hl. apply Forall_app. split; [repeat constructor; done|]. apply Forall_lookup. intros k e He.
  rewrite list_lookup_imap in He. apply fmap_Some in He as (f & E & ->).
  apply lookup_lt_Some in E. cbn [fst]. clia.
Qed.

Lemma toc_file fs k f : fs !! k = Some f -> (2 + Z.of_nat k, skip_ f.1) ∈ toc fs.
Proof. intros E. apply elem_of_app. right. apply list_elem_of_lookup. exists k. by rewrite list_lookup_imap, E. Qed.

Definition names (fs : list source) : list (list Z) := (fun e => fname e.2) <$> toc fs.

Lemma names_byte fs : Forall (fun f => Forall byte f.1) fs -> Forall byte (listing (toc fs)).
Proof.
  intros H. apply Forall_bind. apply Forall_app. split; [apply Forall_cons; split; [|apply Forall_cons; split; [|by constructor]]; apply dent_bytes; repeat constructor; done|].
  apply Forall_lookup. intros k e He. rewrite list_lookup_imap in He. apply fmap_Some in He as (f & E & ->).
  apply dent_bytes. cbn [snd]. rewrite Forall_lookup in H. specialize (H k f E). unfold skip_. destruct (f.1) as [|c r]; [done|].
  destruct (c =? 95); [by inversion H | done].
Qed.

Lemma root_whole fs :
  let l := listing (toc fs) ++ replicate (Z.to_nat (rounded (root_size fs) - root_size fs)) 0 in
  length l = (16 * (length l / 16))%nat.
Proof.
  cbv zeta. rewrite length_app, length_listing, length_replicate, length_toc. unfold rounded, root_size, BSZ in *.
  set (q := (16 * (2 + Z.of_nat (length fs))) / 512) in *.
  pose proof (Z.div_mod (16 * (2 + Z.of_nat (length fs))) 512 ltac:(lia)) as Hq. fold q in Hq.
  pose proof (Z.mod_pos_bound (16 * (2 + Z.of_nat (length fs))) 512 ltac:(lia)).
  replace (16 * (2 + length fs) + Z.to_nat ((q + 1) * 512 - 16 * (2 + Z.of_nat (length fs))))%nat with (Z.to_nat (32 * (q + 1)) * 16)%nat by lia.
  rewrite Nat.div_mul by lia. lia.
Qed.

(** The parts of the result that hold once the image is the finished one. *)
Section finished.
Context (s0 s1 s : mst) (C : contents_map) (fs : list source).
Context (H0 : holds s0 C fs) (Hl : Z.of_nat (length fs) + 2 <= NINODES) (Hm : root_size fs mod BSZ <> 0).
Let C' := with_size (rounded (root_size fs)) C.
Context (S1 : synced s1 C') (F1 : freeblock s1 = blocks fs) (Himg : forall b, img s b = C' b).

Lemma finished_agree : agree C' (img s).
Proof. intros b _. apply Himg. Qed.

Lemma finished_touches : touches new_sb nmeta C C' 1.
Proof.
  destruct (holds_size s0 C fs H0 Hl) as (En & Hmax & Hf). unfold C'. rewrite <- En in *.
  by apply (root_touches s0 C (ho_built _ _ _ H0) Hf).
Qed.

Lemma finished_ok : fs_ok new_sb nmeta C'.
Proof. apply (touches_ok _ _ C C' 1); [apply (ho_built _ _ _ H0) | apply finished_touches]. Qed.

Lemma finished_live i : live new_sb C i -> live new_sb C' i.
Proof.
  intros Hi. destruct (decide (i = 1)) as [->|Hne]; [apply finished_touches|]. by apply (other_live _ _ _ _ _ finished_touches).
Qed.

Lemma finished_used b : 0 <= b < FSSIZE -> used new_sb (img s) b = (b <? blocks fs).
Proof.
  intros Hb. rewrite (agree_used _ _ Lay C') by (apply finished_agree || clia). rewrite (synced_used s1) by done. by rewrite F1.
Qed.

Lemma finished_root :
  live new_sb (img s) 1 /\ i_type (inode_of (img s) 1) = T_DIR /\
  contents (img s) 1 = listing (toc fs) ++ replicate (Z.to_nat (rounded (root_size fs) - root_size fs)) 0.
Proof.
  destruct (holds_size s0 C fs H0 Hl) as (En & Hmax & Hf). destruct H0 as [B _ _ [Hr Hmeta] _].
  pose proof (root_live s0 C B Hf) as Hlv. pose proof (finished_live 1 Hlv) as Hlv'.
  split_and!.
  - apply (agree_live _ _ Lay C'); [apply finished_agree | done].
  - rewrite (agree_inode _ _ Lay C') by (apply finished_agree || clia). unfold C'. rewrite <- En in *.
    rewrite (root_inode s0 C B Hf Hmax Hm). cbn. by injection Hmeta.
  - rewrite (agree_file _ _ Lay C') by (apply finished_agree || apply finished_ok || done). unfold C'. rewrite <- En in *.
    by rewrite (root_contents s0 C B Hf Hmax Hm), Hr.
Qed.

Lemma finished_file k f : fs !! k = Some f ->
  live new_sb (img s) (2 + Z.of_nat k) /\ meta (inode_of (img s) (2 + Z.of_nat k)) = (T_FILE, 0, 0, 1) /\
  contents (img s) (2 + Z.of_nat k) = text f.
Proof.
  intros Hk. destruct H0 as [B Hn _ _ Hf]. destruct (Hf k f Hk) as [Hc Hmeta]. apply lookup_lt_Some in Hk as Hlt.
  assert (live new_sb C (2 + Z.of_nat k)) as Hi by (apply (bu_live _ _ B); lia).
  assert (2 + Z.of_nat k <> 1) as Hne by lia. pose proof (finished_live _ Hi) as Hi'.
  destruct (touches_file _ _ C C' 1 (bu_fs _ _ B) finished_touches _ Hi Hne) as [_ Ef]. split_and!.
  - apply (agree_live _ _ Lay C'); [apply finished_agree | done].
  - rewrite (agree_inode _ _ Lay C') by (apply finished_agree || apply Hi'). by rewrite (t_inode _ _ _ _ _ finished_touches) by (done || apply Hi).
  - rewrite (agree_file _ _ Lay C') by (apply finished_agree || apply finished_ok || done). by rewrite Ef.
Qed.
End finished.

(** C12: mkfs builds a consistent file system with the files it is given.  As
    long as the names differ, there are inodes and blocks enough, no file is
    too large and the entries of the root directory do not fill its last
    block, [main] succeeds; then the superblock describes the layout, the
    file system is consistent in the sense of the kernel's theorems, exactly
    the blocks below [blocks fs] are marked, the root directory has [.], [..]
    and the name of every file and no other, and the inode of every name has
    the contents of its file. *)
Theorem mkfs_correct h image fs :
  Forall (addable h) fs -> Forall (fun f => Forall byte f.1) fs -> NoDup (names fs) ->
  Z.of_nat (length fs) + 2 <= NINODES -> blocks fs <= FSSIZE -> root_size fs mod BSZ <> 0 ->
  exists s, main h true (image :: fs.*1) start = Ret tt s /\
    let C := img s in
    let root := file_of new_sb C ROOTINO in
    superblock_of (C 1) = new_sb /\ fs_ok new_sb nmeta C /\
    (forall b, 0 <= b < FSSIZE -> used new_sb C b = (b <? blocks fs)) /\
    live new_sb C ROOTINO /\ directory new_sb C ROOTINO /\
    dir_get (str ".") root = Some ROOTINO /\ dir_get (str "..") root = Some ROOTINO /\
    (forall nm, nm ∉ names fs -> dir_get nm root = None) /\
    (forall k f, fs !! k = Some f ->
       let i := 2 + Z.of_nat k in
       dir_get (fname (skip_ f.1)) root = Some i /\ live new_sb C i /\
       meta (disk_inode new_sb C i) = (T_FILE, 0, 0, 1) /\ file_of new_sb C i = text f).
Proof.
  intros Ha Hby Hnd Hl Hb Hm. destruct (main_run h image fs Ha Hl Hb) as (s & s0 & s1 & C & E & H0 & S1 & F1 & Himg).
  exists s. split; [done|]. cbv zeta. pose proof (toc_inums fs Hl) as Hin. change ROOTINO with 1.
  destruct (finished_root s0 s C fs H0 Hl Hm Himg) as (R1 & R2 & R3). split_and!.
  - rewrite Himg. apply S1.
  - apply (fs_ok_agree _ _ Lay (with_size (rounded (root_size fs)) C)); [by apply finished_agree|]. by apply (finished_ok s0).
  - intros b. by apply (finished_used s1 s C).
  - done.
  - constructor; [done | |].
    + rewrite R3. apply root_whole.
    + rewrite R3. apply Forall_app. split; [by apply names_byte | apply Forall_replicate; unfold byte; lia].
  - rewrite R3. apply (listing_found _ Hin 1 (str ".")); [done | left].
  - rewrite R3. apply (listing_found _ Hin 1 (str "..")); [done | right; left].
  - intros nm Hnm. rewrite R3. by apply listing_absent.
  - intros k f Hk. destruct (finished_file s0 s C fs H0 Hl Hm Himg k f Hk) as (P1 & P2 & P3).
    split; [|exact (conj P1 (conj P2 P3))]. rewrite R3. apply (listing_found _ Hin); [exact Hnd | by apply toc_file].
Qed.

(** When the entries fill their last block (30 files, for example), the
    rounded size covers one block more than the directory has: the image is
    not consistent. *)
Lemma root_hole h image fs :
  Forall (addable h) fs -> Z.of_nat (length fs) + 2 <= NINODES -> blocks fs <= FSSIZE -> root_size fs mod BSZ = 0 ->
  exists s, main h true (image :: fs.*1) start = Ret tt s /\ ~ fs_ok new_sb nmeta (img s).
Proof.
  intros Ha Hl Hb Hm. destruct (main_run h image fs Ha Hl Hb) as (s & s0 & s1 & C & E & H0 & S1 & F1 & Himg).
  exists s. split; [done|]. intros O. destruct (holds_size s0 C fs H0 Hl) as (En & Hmax & Hf). destruct H0 as [B _ _ _ _].
  pose proof (root_live s0 C B Hf) as Hlv. pose proof (root_ok s0 C B Hf) as F.
  destruct (rounded_range s0 C B Hf) as (Hr1 & Hr2 & Hr3); [by rewrite En|]. rewrite En in Hr1, Hr2, Hr3.
  assert (0 <= rounded (root_size fs)) as Hr0 by lia.
  set (nd := inode_of C 1) in *. set (nd' := set_size (rounded (root_size fs)) nd).
  assert (inode_of (img s) 1 = nd') as Ei.
  { unfold disk_inode. rewrite Himg. apply (disk_put_inode new_sb C 1 nd'); [|apply (bu_sync _ _ B)].
    destruct (disk_dinode_ok _ _ Lay C 1 nd F eq_refl) as (D1 & D2 & D3 & D4 & _ & D6 & D7). unfold dinode_ok, nd'. cbn [i_size set_size i_type i_major i_minor i_nlink i_addrs].
    exact (conj D1 (conj D2 (conj D3 (conj D4 (conj (conj Hr0 Hr3) (conj D6 D7)))))). }
  assert (live new_sb (img s) 1) as Hlv' by (split; [apply Hlv | rewrite Ei; apply Hlv]).
  pose proof (f_full _ _ _ _ (o_file _ _ _ O 1 Hlv') (root_size fs / BSZ)) as Hfull. rewrite Ei in Hfull.
  pose proof (Z.div_mod (root_size fs) BSZ ltac:(done)) as Hd. rewrite Hm, Z.add_0_r in Hd.
  pose proof (div_file (root_size fs) ltac:(lia)) as Hq. assert (root_size fs / BSZ < 12) as Hq' by (unfold root_size in *; clia).
  apply Hfull; [lia | cbn [i_size set_size nd']; unfold rounded; clia |].
  pose proof (ti_block _ _ _ (bu_tight _ _ B 1 Hlv) (root_size fs / BSZ) Hq) as Ht. fold nd in Ht. rewrite En in Ht.
  assert (fblock (img s) nd' (root_size fs / BSZ) = fblock C nd (root_size fs / BSZ)) as ->.
  { unfold fblock, slot_of. rewrite (proj2 (Z.ltb_lt _ NDIRECT)) by clia. by rewrite !slot_direct by clia. }
  destruct (Z.eq_dec (fblock C nd (root_size fs / BSZ)) 0) as [|Hne]; [done|]. apply Ht in Hne. clia.
Qed.

(** Two files, one of them under a name with a leading _. *)
Definition demo_sources : list source := [(str "README", [str "xv6"]); (str "_cat", [str "cat "; str "program"])].
Definition demo_host : host := fun n =>
  if decide (n = str "README") then Some [str "xv6"] else if decide (n = str "_cat") then Some [str "cat "; str "program"] else None.

Lemma mkfs_correct_witness :
  exists s, main demo_host true (str "fs.img" :: demo_sources.*1) start = Ret tt s /\
    dir_get (str "cat") (file_of new_sb (img s) ROOTINO) = Some 3 /\ file_of new_sb (img s) 3 = str "cat program".
Proof.
  destruct (mkfs_correct demo_host (str "fs.img") demo_sources) as (s & E & _ & _ & _ & _ & _ & _ & _ & _ & H).
  - unfold demo_sources, addable, text.
    apply Forall_cons; split; [|apply Forall_cons; split; [|by apply Forall_nil]].
    all: split_and!; [vm_compute; reflexivity | apply (bool_decide_unpack _); vm_compute; exact I | vm_compute; discriminate].
  - unfold demo_sources. repeat constructor; cbn; unfold byte; lia.
  - apply (bool_decide_unpack _). vm_compute. exact I.
  - vm_compute. discriminate.
  - apply Z.leb_le. vm_compute. reflexivity.
  - apply Z.eqb_neq. vm_compute. reflexivity.
  - exists s. split; [exact E|]. destruct (H 1%nat _ eq_refl) as (H1 & _ & _ & H2). split; [exact H1 | exact H2].
Defined.
