(* ===== verification/Umalloc.v ===== *)
(** * The user library's allocator (umalloc.c)

    [malloc] and [free] keep a circular list of free blocks in the order of
    their addresses, with the variable [base] as its first node.  A block is
    a header of 8 bytes and the units of 8 bytes behind it; [size] counts the
    header.  The state has the two words of every header in memory, the
    variable [freep] and the end of the memory that [sbrk] gave. *)

From S2P Require Import Prelude.

Record heap := mk_heap {
  ptr : Z -> Z;
  hsize : Z -> Z;
  freep : Z;
  brk : Z;
}.

Definition put (f : Z -> Z) (a v : Z) : Z -> Z := fun x => if decide (x = a) then v else f x.
Definition set_ptr (a v : Z) : M heap unit := modify (fun s => mk_heap (put (ptr s) a v) (hsize s) (freep s) (brk s)).
Definition set_hsize (a v : Z) : M heap unit := modify (fun s => mk_heap (ptr s) (put (hsize s) a v) (freep s) (brk s)).
Definition set_freep (p : Z) : M heap unit := modify (fun s => mk_heap (ptr s) (hsize s) p (brk s)).

(** [sizeof(Header)] *)
Definition HDR : Z := 8.

Section umalloc.
(** The address of [base], and whether the kernel grants more memory. *)
Context (base : Z) (grants : heap -> Z -> bool).

(** The system call: the old end, or -1. *)
Definition sbrk (n : Z) : M heap Z := fun s =>
  if grants s n then Ret (brk s) (mk_heap (ptr s) (hsize s) (freep s) (brk s + n)) else Ret (-1) s.

(** The node behind which [bp] belongs. *)
Fixpoint find_place (fuel : nat) (bp p : Z) : M heap Z := fun s =>
  if (p <? bp) && (bp <? ptr s p) then Ret p s
  else if (ptr s p <=? p) && ((p <? bp) || (bp <? ptr s p)) then Ret p s
  else match fuel with O => Hang | S fuel => find_place fuel bp (ptr s p) s end.

(** Every node of the list takes 8 bytes below [brk]. *)
Definition fuel_of (s : heap) : nat := Z.to_nat (brk s).

Definition free (ap : Z) : M heap unit :=
  let bp := ap - HDR in
  let! s := get in
  let! p := find_place (fuel_of s) bp (freep s) in
  let! s := get in
  let q := ptr s p in
  (if u32 (bp + HDR * hsize s bp) =? q then
     set_hsize bp (u32 (hsize s bp + hsize s q)) ;;
     set_ptr bp (ptr s q)
   else set_ptr bp q) ;;
  let! s := get in
  (if u32 (p + HDR * hsize s p) =? bp then
     set_hsize p (u32 (hsize s p + hsize s bp)) ;;
     set_ptr p (ptr s bp)
   else set_ptr p bp) ;;
  set_freep p.

Definition morecore (nu : Z) : M heap Z :=
  let nu := if nu <? 4096 then 4096 else nu in
  let! p := sbrk (i32 (nu * HDR)) in
  if p =? -1 then ret 0
  else
    set_hsize p nu ;;
    free (p + HDR) ;;
    reads freep.

(** The block [p] behind [prevp] is large enough. *)
Definition carve (nunits prevp p : Z) : M heap Z :=
  let! s := get in
  let! p :=
    if hsize s p =? nunits then
      set_ptr prevp (ptr s p) ;; ret p
    else
      let rest := hsize s p - nunits in
      set_hsize p rest ;;
      let p := u32 (p + HDR * rest) in
      set_hsize p nunits ;; ret p in
  set_freep prevp ;;
  ret (u32 (p + HDR)).

Fixpoint malloc_loop (fuel : nat) (nunits prevp p : Z) : M heap Z := fun s =>
  if nunits <=? hsize s p then carve nunits prevp p s
  else match fuel with
  | O => Hang
  | S fuel =>
    if p =? freep s then
      (let! p := morecore nunits in
       if p =? 0 then ret 0
       else let! q := reads (fun s => ptr s p) in malloc_loop fuel nunits p q) s
    else malloc_loop fuel nunits p (ptr s p) s
  end.

Definition units_of (nbytes : Z) : Z := u32 (u32 (nbytes + HDR - 1) / HDR + 1).

(** Once around the list, and once more behind [morecore]. *)
Definition malloc (nbytes : Z) : M heap Z :=
  let nunits := units_of nbytes in
  let! f := reads freep in
  (if f =? 0 then
     set_freep base ;; set_ptr base base ;; set_hsize base 0
   else ret tt) ;;
  let! s := get in
  let prevp := freep s in
  malloc_loop (2 * fuel_of s + 8) nunits prevp (ptr s prevp).
End umalloc.
