(* ===== verification/UmallocInv.v ===== *)
(** * The heap of umalloc.c

    Between calls the units of memory that [sbrk] gave are divided among the
    free blocks and the blocks in use, every unit in exactly one of them, and
    the free list is sorted and circular.  [malloc] and [free] keep this, and
    so does a program that writes to its own blocks only. *)

From stdpp Require Import sorting.
From S2P Require Import Prelude Umalloc.

(** A block: the address of its header and its size in units. *)
Notation block := (Z * Z)%type.

Definition units (b : block) : list Z := (fun k => b.1 + 8 * Z.of_nat k) <$> seq 0 (Z.to_nat b.2).
Definition all_units (l : list block) : list Z := l ≫= units.

Lemma units_app a n m : 0 <= n -> 0 <= m -> units (a, n + m) = units (a, n) ++ units (a + 8 * n, m).
Proof.
  intros Hn Hm. unfold units. cbn [fst snd]. rewrite Z2Nat.inj_add, seq_app, fmap_app by done. f_equal.
  replace (seq (0 + Z.to_nat n) (Z.to_nat m)) with (Nat.add (Z.to_nat n) <$> seq 0 (Z.to_nat m)) by (rewrite fmap_add_seq; f_equal; lia).
  rewrite <- list_fmap_compose. apply list_fmap_ext.
  intros _ k _. unfold compose. lia.
Qed.

Lemma elem_units x b : x ∈ units b <-> exists k, 0 <= k < b.2 /\ x = b.1 + 8 * k.
Proof.
  unfold units. rewrite list_elem_of_fmap. split.
  - intros (k & -> & Hk). apply elem_of_seq in Hk. exists (Z.of_nat k). lia.
  - intros (k & Hk & ->). exists (Z.to_nat k). rewrite elem_of_seq. lia.
Qed.

Lemma NoDup_units b : NoDup (units b).
Proof. unfold units. apply NoDup_fmap_2; [intros x y; lia | apply NoDup_seq]. Qed.

Lemma length_units b : length (units b) = Z.to_nat b.2.
Proof. unfold units. by rewrite length_fmap, length_seq. Qed.

Lemma all_units_cons b l : all_units (b :: l) = units b ++ all_units l.
Proof. apply bind_cons. Qed.
Lemma all_units_app l1 l2 : all_units (l1 ++ l2) = all_units l1 ++ all_units l2.
Proof. apply bind_app. Qed.

#[export] Instance all_units_proper : Proper ((≡ₚ) ==> (≡ₚ)) all_units.
Proof. intros l l' H. unfold all_units. by rewrite H. Qed.

(** ** Linked nodes *)

Definition next_of (f : list block) (e : Z) : Z := match f with [] => e | b :: _ => b.1 end.

(** The nodes [f] are linked in order, with their sizes; the last one points
    to [e]. *)
Fixpoint lseg (s : heap) (f : list block) (e : Z) : Prop :=
  match f with
  | [] => True
  | b :: f => ptr s b.1 = next_of f e /\ hsize s b.1 = b.2 /\ lseg s f e
  end.

Lemma next_of_app f g e : next_of (f ++ g) e = next_of f (next_of g e).
Proof. by destruct f. Qed.

Lemma lseg_app s f g e : lseg s (f ++ g) e <-> lseg s f (next_of g e) /\ lseg s g e.
Proof.
  induction f as [|b f IH]; cbn [app lseg]; [naive_solver|]. rewrite IH, next_of_app. naive_solver.
Qed.

Lemma lseg_frame s s' f e :
  (forall b, b ∈ f -> ptr s' b.1 = ptr s b.1 /\ hsize s' b.1 = hsize s b.1) -> lseg s f e -> lseg s' f e.
Proof.
  induction f as [|b f IH]; [done|]. cbn [lseg]. intros Hf (H1 & H2 & H3).
  destruct (Hf b ltac:(left)) as [-> ->]. split_and!; [done | done |]. apply IH; [|done]. intros c Hc. apply Hf. by right.
Qed.

Lemma lseg_at s f e b : lseg s f e -> b ∈ f -> hsize s b.1 = b.2.
Proof.
  induction f as [|c f IH]; [by intros _ ?%not_elem_of_nil|]. cbn [lseg]. intros (_ & H1 & H2) [->|Hb]%elem_of_cons; auto.
Qed.

(** The pointers of a ring are its nodes, turned by one. *)
Lemma ring_ptrs s f e : lseg s f e -> f <> [] -> ptr s <$> f.*1 = (tail f).*1 ++ [e].
Proof.
  induction f as [|b f IH]; [done|]. cbn [lseg]. intros (H1 & _ & H2) _. cbn [fmap list_fmap tail]. destruct f as [|c f].
  - cbn in *. by rewrite H1.
  - cbn [next_of] in H1. rewrite H1. rewrite IH by done. done.
Qed.

Lemma ring_inj s b f x y :
  lseg s (b :: f) b.1 -> NoDup ((b :: f).*1) -> x ∈ (b :: f).*1 -> y ∈ (b :: f).*1 -> ptr s x = ptr s y -> x = y.
Proof.
  intros H Hnd Hx Hy E. pose proof (ring_ptrs _ _ _ H ltac:(done)) as Hp. cbn [tail] in Hp.
  assert (NoDup (ptr s <$> (b :: f).*1)) as Hnd'.
  { rewrite Hp. change ((b :: f).*1) with (b.1 :: f.*1) in Hnd. by rewrite <- Permutation_cons_append. }
  apply list_elem_of_lookup in Hx as [i Hi], Hy as [j Hj].
  assert (i = j) as <-; [|congruence].
  apply (NoDup_lookup _ i j (ptr s x) Hnd'); rewrite list_lookup_fmap; [by rewrite Hi | rewrite Hj; cbn; by rewrite E].
Qed.

Section inv.
(** The variable [base] lies below the heap, which starts at [lo]. *)
Context (base lo : Z) (Hbase : 0 < base /\ base + 8 <= lo).

(** [fl] are the free blocks and [al] those in use. *)
Record heap_ok (s : heap) (fl al : list block) : Prop := {
  h_brk : brk s <= 2 ^ 31;
  h_whole : exists n, 0 <= n /\ brk s = lo + 8 * n;
  h_tile : all_units (fl ++ al) ≡ₚ units (lo, (brk s - lo) / 8);
  h_pos : Forall (fun b => 1 <= b.2) (fl ++ al);
  h_sorted : StronglySorted Z.lt (base :: fl.*1);
  h_ring : lseg s ((base, 0) :: fl) base;
  h_freep : freep s ∈ base :: fl.*1;
  h_used : Forall (fun b => hsize s b.1 = b.2) al;
}.

Lemma heap_perm s fl al al' : al ≡ₚ al' -> heap_ok s fl al -> heap_ok s fl al'.
Proof. intros P []. constructor; try done; [by rewrite <- P | by rewrite <- P | by rewrite <- P]. Qed.

Section facts.
Context (s : heap) (fl al : list block) (H : heap_ok s fl al).

Lemma tile_units x : x ∈ all_units (fl ++ al) <-> exists k, 0 <= k /\ lo + 8 * k < brk s /\ x = lo + 8 * k.
Proof.
  rewrite (h_tile _ _ _ H), elem_units. cbn [fst snd]. destruct (h_whole _ _ _ H) as (n & Hn & ->).
  replace (lo + 8 * n - lo) with (n * 8) by lia. rewrite Z.div_mul by lia.
  split; intros (k & Hk); exists k; lia.
Qed.

(** Where a block lies. *)
Lemma block_range b : b ∈ fl ++ al -> (exists k, 0 <= k /\ b.1 = lo + 8 * k) /\ 1 <= b.2 /\ b.1 + 8 * b.2 <= brk s.
Proof.
  intros Hb. pose proof (proj1 (Forall_forall _ _) (h_pos _ _ _ H) b Hb) as Hp. cbn beta in Hp.
  assert (forall x, x ∈ units b -> x ∈ all_units (fl ++ al)) as Hin by (intros x Hx; apply list_elem_of_bind; eauto).
  assert (b.1 ∈ all_units (fl ++ al)) as H1 by (apply Hin, elem_units; exists 0; lia).
  assert (b.1 + 8 * (b.2 - 1) ∈ all_units (fl ++ al)) as H2 by (apply Hin, elem_units; exists (b.2 - 1); lia).
  apply tile_units in H1 as (k & Hk & Hk1 & Hk2), H2 as (j & Hj & Hj1 & Hj2). destruct (h_whole _ _ _ H) as (n & Hn & En).
  split_and!; [by exists k | done | lia].
Qed.

Lemma tile_NoDup : NoDup (all_units (fl ++ al)).
Proof. rewrite (h_tile _ _ _ H). apply NoDup_units. Qed.

(** Two blocks have no unit in common. *)
Lemma blocks_apart a b l : fl ++ al ≡ₚ a :: b :: l -> a.1 + 8 * a.2 <= b.1 \/ b.1 + 8 * b.2 <= a.1.
Proof.
  intros P. pose proof tile_NoDup as Hnd. rewrite P, !all_units_cons in Hnd.
  apply NoDup_app in Hnd as (_ & Hd & _).
  destruct (block_range a) as ((i & Hi & Ei) & Ha & _); [rewrite P; left|].
  destruct (block_range b) as ((j & Hj & Ej) & Hb & _); [rewrite P; right; left|].
  destruct (Z.lt_ge_cases (a.1) (b.1)).
  - destruct (Z.le_gt_cases (a.1 + 8 * a.2) (b.1)); [by left|]. exfalso. apply (Hd (b.1)).
    + apply elem_units. exists (j - i). lia.
    + apply elem_of_app. left. apply elem_units. exists 0. lia.
  - destruct (Z.le_gt_cases (b.1 + 8 * b.2) (a.1)); [by right|]. exfalso. apply (Hd (a.1)).
    + apply elem_units. exists 0. lia.
    + apply elem_of_app. left. apply elem_units. exists (i - j). lia.
Qed.

Lemma free_length : (length fl < Z.to_nat (brk s))%nat.
Proof.
  destruct (h_whole _ _ _ H) as (n & Hn & En).
  pose proof (Permutation_length (h_tile _ _ _ H)) as Hl. rewrite length_units in Hl. cbn [snd] in Hl.
  assert (length fl <= length (all_units fl))%nat as Hf.
  { pose proof (h_pos _ _ _ H) as Hp. apply Forall_app in Hp as [Hp _]. clear -Hp.
    induction Hp as [|b l Hb _ IH]; [done|]. rewrite all_units_cons, length_app, length_units. cbn. lia. }
  rewrite all_units_app, length_app in Hl. pose proof (Z.div_le_upper_bound (brk s - lo) 8 (brk s - lo) ltac:(lia) ltac:(lia)). lia.
Qed.
End facts.

(** ** Finding the place of a block *)

Definition here (s : heap) (bp p : Z) : bool :=
  ((p <? bp) && (bp <? ptr s p)) || ((ptr s p <=? p) && ((p <? bp) || (bp <? ptr s p))).

Lemma find_place_here fuel bp p s : here s bp p = true -> find_place fuel bp p s = Ret p s.
Proof. unfold here. destruct ((p <? bp) && (bp <? ptr s p)) eqn:E1; intros E; destruct fuel; cbn; rewrite E1; [done.. | |]; cbn in E; by rewrite E. Qed.

Lemma find_place_on fuel bp p s : here s bp p = false -> find_place (S fuel) bp p s = find_place fuel bp (ptr s p) s.
Proof. unfold here. intros [E1 E2]%orb_false_iff. cbn. by rewrite E1, E2. Qed.

Lemma find_place_walk bp s g e fuel :
  lseg s g e -> Forall (fun b => here s bp b.1 = false) g ->
  find_place (length g + fuel) bp (next_of g e) s = find_place fuel bp e s.
Proof.
  revert e. induction g as [|b g IH]; intros e Hs Hf; [done|]. destruct Hs as (H1 & _ & H2). apply Forall_cons in Hf as [Hb Hf].
  cbn [length plus next_of]. rewrite find_place_on by done. rewrite H1. by apply IH.
Qed.

(** The nodes of the ring around the place of [bp]: [f1] before [p], then [f2]. *)
Section place.
Context (s : heap) (f1 f2 : list block) (p k bp : Z).
Let ring := f1 ++ (p, k) :: f2.
Context (Hring : lseg s ring base) (Hsort : StronglySorted Z.lt (ring.*1)) (Hhead : next_of ring 0 = base).
Context (Hlt : p < bp) (Hgt : Forall (fun b => bp < b.1) f2).

Lemma base_least b : b ∈ ring -> base <= b.1.
Proof.
  intros Hb. unfold ring in *. destruct (f1 ++ (p, k) :: f2) as [|c r]; [by apply not_elem_of_nil in Hb|]. cbn in Hhead, Hsort.
  apply StronglySorted_cons in Hsort as [Hs _]. apply elem_of_cons in Hb as [->|Hb]; [lia|].
  rewrite Forall_forall in Hs. specialize (Hs (b.1) ltac:(by apply list_elem_of_fmap_2)). lia.
Qed.

Lemma lseg_next g e b : lseg s g e -> b ∈ g -> ptr s b.1 = e \/ exists c, c ∈ g /\ ptr s b.1 = c.1.
Proof.
  induction g as [|d g IH]; [by intros _ ?%not_elem_of_nil|]. intros (H1 & _ & H2) [->|Hb]%elem_of_cons.
  - destruct g as [|c g]; [by left|]. right. exists c. split; [right; left | done].
  - destruct (IH H2 Hb) as [?|(c & Hc & ?)]; [by left|]. right. exists c. split; [by right | done].
Qed.

Lemma sorted_next g e b : lseg s g e -> StronglySorted Z.lt (g.*1) -> b ∈ g -> b.1 < ptr s b.1 \/ ptr s b.1 = e.
Proof.
  induction g as [|d g IH]; [by intros _ _ ?%not_elem_of_nil|]. intros (H1 & _ & H2) Hs Hb. cbn in Hs.
  apply StronglySorted_cons in Hs as [Hd Hs]. apply elem_of_cons in Hb as [->|Hb]; [|by apply IH].
  destruct g as [|c g]; [by right|]. left. rewrite H1. cbn in Hd |- *. by apply Forall_cons in Hd as [? _].
Qed.

Lemma place_before b : b ∈ f1 -> here s bp b.1 = false.
Proof.
  intros Hb. unfold ring in Hring, Hsort. apply lseg_app in Hring as [H1 _]. cbn [next_of fst] in H1.
  rewrite fmap_app in Hsort. apply StronglySorted_app in Hsort as (Hx & Hs1 & _).
  assert (forall c, c ∈ f1 -> c.1 < p) as Hp.
  { intros c Hc. apply (Hx (c.1) p); [by apply list_elem_of_fmap_2 | left]. }
  pose proof (Hp b Hb). assert (b.1 < ptr s b.1 <= p) as Hn.
  { destruct (sorted_next f1 p b H1 Hs1 Hb) as [Hlt'|E]; [|lia]. split; [done|].
    destruct (lseg_next f1 p b H1 Hb) as [->|(c & Hc & ->)]; [lia|]. specialize (Hp c Hc). lia. }
  unfold here. destruct (Z.ltb_spec (b.1) bp), (Z.ltb_spec bp (ptr s b.1)), (Z.leb_spec (ptr s b.1) (b.1)); cbn; done || lia.
Qed.

Lemma place_after b : b ∈ f2 -> base < bp -> here s bp b.1 = false.
Proof.
  intros Hb Hbase'. unfold ring in Hring, Hsort. apply lseg_app in Hring as [_ H2]. destruct H2 as (_ & _ & H2).
  rewrite fmap_app in Hsort. apply StronglySorted_app in Hsort as (_ & _ & Hs2). cbn in Hs2. apply StronglySorted_cons in Hs2 as [_ Hs2].
  rewrite Forall_forall in Hgt. pose proof (Hgt b Hb). unfold here.
  destruct (sorted_next f2 base b H2 Hs2 Hb) as [Hlt'|E];
    destruct (Z.ltb_spec (b.1) bp), (Z.ltb_spec bp (ptr s b.1)), (Z.leb_spec (ptr s b.1) (b.1)); cbn; done || lia.
Qed.

Lemma place_at : here s bp p = true.
Proof.
  pose proof (base_least (p, k) ltac:(unfold ring; apply elem_of_app; right; left)) as Hb. cbn in Hb.
  unfold ring in Hring. apply lseg_app in Hring as [_ H2]. destruct H2 as (H2 & _). cbn [fst] in H2. unfold here. rewrite H2.
  rewrite (proj2 (Z.ltb_lt p bp)) by done. destruct f2 as [|c f2']; cbn [next_of].
  - rewrite (proj2 (Z.leb_le base p)) by done. cbn. by rewrite orb_true_r.
  - apply Forall_cons in Hgt as [Hc _]. by rewrite (proj2 (Z.ltb_lt _ _)) by done.
Qed.

Lemma find_place_law fuel f :
  base < bp -> f ∈ ring.*1 -> (length ring <= fuel)%nat -> find_place fuel bp f s = Ret p s.
Proof.
  intros Hb Hf Hfuel. pose proof (find_place_here) as Hstop. specialize (fun n => Hstop n bp p s place_at).
  assert (Forall (fun b => here s bp b.1 = false) f1) as Hf1 by (apply Forall_forall; apply place_before).
  assert (Forall (fun b => here s bp b.1 = false) f2) as Hf2 by (apply Forall_forall; intros; by apply place_after).
  pose proof (proj1 (lseg_app _ _ _ _) Hring) as [Hs1 (_ & _ & Hs2)]. cbn [next_of fst] in Hs1.
  assert (base = next_of f1 p) as Eb by (unfold ring in Hhead; rewrite next_of_app in Hhead; by destruct f1).
  unfold ring in Hfuel, Hf. rewrite length_app in Hfuel. cbn [length] in Hfuel. clear Hring Hsort Hhead Hgt ring.
  apply list_elem_of_fmap in Hf as (b & -> & Hb'). apply elem_of_app in Hb' as [Hb'|[->|Hb']%elem_of_cons]; [|apply Hstop|].
  - apply list_elem_of_split in Hb' as (g1 & g2 & ->). apply lseg_app in Hs1 as [_ Hs1]. apply Forall_app in Hf1 as [_ Hf1].
    rewrite length_app in Hfuel. cbn [length] in Hfuel.
    replace fuel with (length (b :: g2) + (fuel - length (b :: g2)))%nat by (cbn; lia).
    change (b.1) with (next_of (b :: g2) p). by rewrite find_place_walk.
  - apply list_elem_of_split in Hb' as (g1 & g2 & ->). apply lseg_app in Hs2 as [_ Hs2]. apply Forall_app in Hf2 as [_ Hf2].
    rewrite length_app in Hfuel. cbn [length] in Hfuel.
    replace fuel with (length (b :: g2) + (length f1 + (fuel - length f1 - length (b :: g2))))%nat by (cbn; lia).
    change (b.1) with (next_of (b :: g2) base). rewrite find_place_walk by done. rewrite Eb at 1. by rewrite find_place_walk.
Qed.
End place.

(** ** Joining blocks *)

(** The state after the first conditional of [free], and after the second. *)
Definition join_right (a q : Z) (s : heap) : heap :=
  if u32 (a + HDR * hsize s a) =? q then
    mk_heap (put (ptr s) a (ptr s q)) (put (hsize s) a (u32 (hsize s a + hsize s q))) (freep s) (brk s)
  else mk_heap (put (ptr s) a q) (hsize s) (freep s) (brk s).
Definition join_left (p a : Z) (s : heap) : heap :=
  if u32 (p + HDR * hsize s p) =? a then
    mk_heap (put (ptr s) p (ptr s a)) (put (hsize s) p (u32 (hsize s p + hsize s a))) p (brk s)
  else mk_heap (put (ptr s) p a) (hsize s) p (brk s).

Lemma free_run a p s :
  find_place (fuel_of s) a (freep s) s = Ret p s ->
  free (a + HDR) s = Ret tt (join_left p a (join_right a (ptr s p) s)).
Proof.
  intros E. unfold free. replace (a + HDR - HDR) with a by lia. unfold bind at 1, get at 1. rewrite (bind_ret _ _ _ _ _ E).
  unfold bind at 1, get at 1. unfold join_right, join_left, set_hsize, set_ptr, set_freep, modify, bind, get.
  destruct (u32 (a + HDR * hsize s a) =? ptr s p); cbn [ptr hsize freep brk]; destruct (u32 _ =? a); done.
Qed.

Lemma put_eq f a v : put f a v a = v.
Proof. unfold put. by rewrite decide_True. Qed.
Lemma put_ne f a v x : x <> a -> put f a v x = f x.
Proof. intros. unfold put. by rewrite decide_False. Qed.

(** [f'] and [f] cover the same units, in order, with nodes of [f] only. *)
Record covers (f f' : list block) : Prop := {
  cv_units : all_units f' = all_units f;
  cv_pos : Forall (fun b => 1 <= b.2) f -> Forall (fun b => 1 <= b.2) f';
  cv_nodes : f'.*1 `sublist_of` f.*1;
}.

Lemma merge_covers a n m f : 0 <= n -> 0 <= m -> 1 <= n -> covers ((a, n) :: (a + 8 * n, m) :: f) ((a, n + m) :: f).
Proof.
  intros Hn Hm Hp. constructor.
  - rewrite !all_units_cons, units_app by done. by rewrite <- app_assoc.
  - intros H. apply Forall_cons in H as [H1 H]. apply Forall_cons in H as [H2 H]. constructor; [cbn in *; lia | done].
  - cbn. apply sublist_skip, sublist_cons. done.
Qed.

Lemma covers_refl f : covers f f.
Proof. by constructor. Qed.

Lemma covers_app g f f' : covers f f' -> covers (g ++ f) (g ++ f').
Proof.
  intros []. constructor.
  - by rewrite !all_units_app, cv_units0.
  - rewrite !Forall_app. naive_solver.
  - rewrite !fmap_app. by apply sublist_app.
Qed.

Lemma covers_trans f g h : covers f g -> covers g h -> covers f h.
Proof. intros [] []. constructor; [congruence | auto | by etrans]. Qed.

Lemma join_right_law s a n f :
  hsize s a = n -> 1 <= n -> a + 8 * n <= 2 ^ 31 -> base < a -> lseg s f base ->
  Forall (fun b => 1 <= b.2 /\ a < b.1 /\ b.1 + 8 * b.2 <= 2 ^ 31) f ->
  let s' := join_right a (next_of f base) s in
  exists n' f', lseg s' ((a, n') :: f') base /\ n <= n' /\ a + 8 * n' <= 2 ^ 31 /\ Forall (fun b => a < b.1) f' /\
    covers ((a, n) :: f) ((a, n') :: f') /\
    (forall x, x <> a -> ptr s' x = ptr s x /\ hsize s' x = hsize s x) /\ freep s' = freep s /\ brk s' = brk s.
Proof.
  intros Hn Hpos Hmax Hb Hl Hf s'. unfold s', join_right. rewrite Hn. unfold HDR. rewrite u32_small by lia.
  assert (forall x, x <> a -> forall v w, put (ptr s) a v x = ptr s x /\ put (hsize s) a w x = hsize s x) as Hput.
  { intros x Hx v w. by rewrite !put_ne. }
  destruct (Z.eqb_spec (a + 8 * n) (next_of f base)) as [E|E].
  - destruct f as [|[q m] f]; [cbn in E; lia|]. cbn [next_of fst] in *. apply Forall_cons in Hf as [Hq Hf]. cbn [fst snd] in Hq.
    destruct Hl as (L1 & L2 & L3). cbn [fst snd] in L1, L2. exists (n + m), f. rewrite L1, L2. rewrite u32_small by lia. split_and!.
    + split_and!; cbn [fst snd ptr hsize]; [apply put_eq | apply put_eq |]. apply lseg_frame with s; [|done].
      intros b Hb'. apply Hput. rewrite Forall_forall in Hf. specialize (Hf b Hb'). lia.
    + lia.
    + lia.
    + eapply Forall_impl; [exact Hf|]. cbn. lia.
    + subst q. apply merge_covers; lia.
    + intros x Hx. by apply Hput.
    + done.
    + done.
  - exists n, f. split_and!; [|lia | lia | eapply Forall_impl; [exact Hf|]; cbn; lia | apply covers_refl | | done | done].
    + split_and!; cbn [fst snd ptr hsize]; [apply put_eq | done |]. apply lseg_frame with s; [|done].
      intros b Hb'. cbn. split; [|done]. apply put_ne. rewrite Forall_forall in Hf. specialize (Hf b Hb'). lia.
    + intros x Hx. split; [by apply put_ne | done].
Qed.

Definition joined_left (p k a n : Z) (f : list block) : list block :=
  if decide (p + 8 * k = a) then (p, k + n) :: f else (p, k) :: (a, n) :: f.

Lemma join_left_law s p k a n g f :
  lseg s g p -> hsize s p = k -> 0 <= k -> 1 <= n -> lseg s ((a, n) :: f) base ->
  0 < p < a -> p + 8 * k <= a -> a + 8 * n <= 2 ^ 31 -> Forall (fun b => b.1 < p) g -> Forall (fun b => a < b.1) f ->
  let s' := join_left p a s in
  lseg s' (g ++ joined_left p k a n f) base /\ (forall x, x <> p -> hsize s' x = hsize s x) /\ freep s' = p /\ brk s' = brk s.
Proof.
  intros Hg Hk Hk0 Hn (L1 & L2 & L3) Hp Hpa Ha Fg Ff s'. cbn [fst snd] in L1, L2. unfold s', join_left. rewrite Hk. unfold HDR.
  rewrite u32_small by lia. rewrite Forall_forall in Fg, Ff. unfold joined_left.
  destruct (Z.eqb_spec (p + 8 * k) a) as [E|E].
  - rewrite decide_True by done. rewrite L1, L2, u32_small by lia. split_and!; [|by intros x Hx; apply put_ne | done | done].
    apply lseg_app. split; [|split_and!; cbn [fst snd ptr hsize]; [apply put_eq | apply put_eq |]].
    + apply lseg_frame with s; [|exact Hg]. intros b Hb. specialize (Fg b Hb). cbn. by rewrite !put_ne by lia.
    + apply lseg_frame with s; [|done]. intros b Hb. specialize (Ff b Hb). cbn. by rewrite !put_ne by lia.
  - rewrite decide_False by done. split_and!; [|done | done | done]. apply lseg_app.
    split; [|split_and!; cbn [fst snd ptr hsize]; [apply put_eq | done |split_and!; cbn [fst snd ptr hsize]; [by rewrite put_ne by lia | done |]]].
    + apply lseg_frame with s; [|exact Hg]. intros b Hb. specialize (Fg b Hb). cbn. by rewrite put_ne by lia.
    + apply lseg_frame with s; [|done]. intros b Hb. specialize (Ff b Hb). cbn. by rewrite put_ne by lia.
Qed.

Lemma joined_covers p k a n f : 0 <= n -> 1 <= k -> covers ((p, k) :: (a, n) :: f) (joined_left p k a n f).
Proof. intros Hn Hk. unfold joined_left. case_decide as E; [|apply covers_refl]. subst a. apply merge_covers; lia. Qed.

(** ** [free] *)

Lemma split_sorted (l : list block) a :
  StronglySorted Z.lt (l.*1) -> a ∉ l.*1 ->
  exists f1 f2, l = f1 ++ f2 /\ Forall (fun b => b.1 < a) f1 /\ Forall (fun b => a < b.1) f2.
Proof.
  induction l as [|b l IH]; intros Hs Ha; [by exists [], []|]. cbn in Hs, Ha. apply StronglySorted_cons in Hs as [Hb Hs].
  apply not_elem_of_cons in Ha as [Hne Ha]. destruct (Z.lt_ge_cases (b.1) a) as [H|H].
  - destruct (IH Hs Ha) as (f1 & f2 & -> & F1 & F2). exists (b :: f1), f2. split_and!; [done | by constructor | done].
  - exists [], (b :: l). split_and!; [done | constructor |]. constructor; [lia|]. apply Forall_forall. intros c Hc.
    rewrite Forall_forall in Hb. specialize (Hb (c.1) ltac:(by apply list_elem_of_fmap_2)). lia.
Qed.

Lemma last_block (f : list block) b : exists f0 c, b :: f = f0 ++ [c] /\ (f = [] /\ f0 = [] /\ c = b \/ exists f', f0 = b :: f' /\ f = f' ++ [c]).
Proof.
  destruct (decide (f = [])) as [->|Hne]; [exists [], b; by auto|].
  destruct (exists_last Hne) as (f' & c & ->). exists (b :: f'), c. split; [done|]. right. by exists f'.
Qed.

Lemma sorted_sublist (l l' : list Z) : l' `sublist_of` l -> StronglySorted Z.lt l -> StronglySorted Z.lt l'.
Proof.
  induction 1 as [|x l1 l2 Hs IH|x l1 l2 Hs IH]; [done | |].
  - rewrite !StronglySorted_cons. intros [Hx H]. split; [|auto]. apply Forall_forall. intros y Hy. rewrite Forall_forall in Hx.
    apply Hx. eapply elem_of_submseteq; [exact Hy | by apply sublist_submseteq].
  - rewrite StronglySorted_cons. intros [_ H]. auto.
Qed.

Section free.
Context (s : heap) (fl al : list block) (a n : Z) (H : heap_ok s fl ((a, n) :: al)).

Lemma free_range : base < a /\ 1 <= n /\ a + 8 * n <= 2 ^ 31.
Proof.
  destruct (block_range s fl _ H (a, n)) as ((k & Hk & Ek) & Hn & Hr); [apply elem_of_app; right; left|].
  pose proof (h_brk _ _ _ H). cbn in *. lia.
Qed.

Lemma free_apart b : b ∈ fl ++ al -> lo <= b.1 /\ 1 <= b.2 /\ b.1 + 8 * b.2 <= 2 ^ 31 /\ (a + 8 * n <= b.1 \/ b.1 + 8 * b.2 <= a).
Proof.
  intros Hb. destruct (block_range s fl _ H b) as ((k & Hk & Ek) & Hn & Hr); [apply elem_of_app in Hb as [?|?]; apply elem_of_app; [by left | right; by right]|].
  pose proof (h_brk _ _ _ H). split_and!; [lia | done | lia |].
  apply elem_of_Permutation in Hb as [l P]. apply (blocks_apart s fl _ H (a, n) b l).
  cbn [app]. rewrite <- P. symmetry. apply Permutation_middle.
Qed.

(** The list around the place of the block. *)
Lemma free_split : exists g p k f2 f1,
  fl = f1 ++ f2 /\ (base, 0) :: f1 = g ++ [(p, k)] /\
  (f1 = [] /\ g = [] /\ (p, k) = (base, 0) \/ exists g', g = (base, 0) :: g' /\ f1 = g' ++ [(p, k)]) /\
  0 < p < a /\ 0 <= k /\ p + 8 * k <= a /\ Forall (fun b => a < b.1) f2 /\ StronglySorted Z.lt ((g ++ (p, k) :: (a, n) :: f2).*1).
Proof.
  destruct free_range as (Ha & Hn & Hmax). pose proof free_apart as Hap. pose proof (h_sorted _ _ _ H) as Hs. apply StronglySorted_cons in Hs as [Hsb Hs].
  destruct (split_sorted fl a Hs) as (f1 & f2 & -> & F1 & F2).
  { intros (b & -> & Hb)%list_elem_of_fmap. destruct (Hap b) as (_ & ? & _ & ?); [by apply elem_of_app; left | lia]. }
  destruct (last_block f1 (base, 0)) as (g & [p k] & E & Hc).
  assert (0 < p < a /\ 0 <= k /\ p + 8 * k <= a) as (Hp & Hk & Hpk).
  { destruct Hc as [(_ & _ & [= -> ->])|(g' & -> & ->)]; [lia|].
    apply Forall_app in F1 as [_ F1]. apply Forall_cons in F1 as [Hpa _]. cbn in Hpa.
    destruct (Hap (p, k)) as (? & ? & ? & ?); [set_solver | cbn in *; lia]. }
  exists g, p, k, f2, f1. refine (conj eq_refl (conj E (conj Hc (conj Hp (conj Hk (conj Hpk (conj F2 _))))))).
  - replace (g ++ (p, k) :: (a, n) :: f2) with (((base, 0) :: f1) ++ (a, n) :: f2) by (by rewrite E, <- app_assoc).
    rewrite fmap_app in Hs.
    apply StronglySorted_app in Hs as (Hx & Hs1 & Hs2). cbn. rewrite fmap_app in *. apply Forall_app in Hsb as [Hb1 Hb2].
    apply StronglySorted_cons. split; [apply Forall_app; split; [done | constructor; [done|]]; exact Hb2|].
    apply StronglySorted_app. split_and!; [|done | apply StronglySorted_cons; split; [|done]].
    + intros x y Hx1 [->|Hy]%elem_of_cons; [|by apply Hx]. apply list_elem_of_fmap in Hx1 as (b & -> & Hb). rewrite Forall_forall in F1. by apply F1.
    + by apply Forall_fmap.
Qed.

(** The new list starts with [base], covers the old one with the block, and
    has a block that is at least as large. *)
Lemma free_list g p k f1 f2 n' f2' :
  (f1 = [] /\ g = [] /\ (p, k) = (base, 0) \/ exists g', g = (base, 0) :: g' /\ f1 = g' ++ [(p, k)]) ->
  (f1 <> [] -> 1 <= k) -> 0 < p < a -> 0 <= k -> n <= n' -> 1 <= n -> covers ((a, n) :: f2) ((a, n') :: f2') ->
  exists fl', g ++ joined_left p k a n' f2' = (base, 0) :: fl' /\ covers (f1 ++ (a, n) :: f2) fl' /\
    exists b, b ∈ fl' /\ n <= b.2.
Proof.
  intros [(-> & -> & [= -> ->])|(g' & -> & ->)] Hk Hp Hk0 Hn Hn1 Cv.
  - exists ((a, n') :: f2'). unfold joined_left. rewrite decide_False by lia. split_and!; [done | done |].
    exists (a, n'). split; [left | done].
  - specialize (Hk ltac:(by destruct g')). exists (g' ++ joined_left p k a n' f2'). split; [done|]. split.
    + rewrite <- app_assoc. apply covers_app. cbn [app]. eapply covers_trans; [apply (covers_app [(p, k)]), Cv|].
      apply joined_covers; lia.
    + unfold joined_left. case_decide; [exists (p, k + n') | exists (a, n')]; (split; [set_solver | cbn; lia]).
Qed.

Lemma free_finish p s' fl' f1 f2 :
  fl = f1 ++ f2 -> covers (f1 ++ (a, n) :: f2) fl' -> StronglySorted Z.lt (((base, 0) :: f1 ++ (a, n) :: f2).*1) ->
  p = base \/ p ∈ fl.*1 -> brk s' = brk s -> lseg s' ((base, 0) :: fl') base -> freep s' ∈ base :: fl'.*1 ->
  (forall x, x <> p -> x <> a -> hsize s' x = hsize s x) -> heap_ok s' fl' al.
Proof.
  intros Efl Cv Hsort Hp Hbrk Hring Hfree Hsame. pose proof H as [H1 H2 H3 H4 H5 H6 H7 H8].
  apply Forall_app in H4 as [H4 H4']. apply Forall_cons in H4' as [H4n H4a]. apply Forall_cons in H8 as [_ H8]. constructor.
  - by rewrite Hbrk.
  - by rewrite Hbrk.
  - rewrite Hbrk, <- H3, !all_units_app, (cv_units _ _ Cv), Efl, !all_units_app, !all_units_cons.
    rewrite <- !app_assoc. apply Permutation_app_head. rewrite !app_assoc. apply Permutation_app_tail. apply Permutation_app_comm.
  - apply Forall_app. split; [|done]. apply (cv_pos _ _ Cv). rewrite Efl in H4. apply Forall_app in H4 as [? ?].
    apply Forall_app. split; [done | by constructor].
  - eapply sorted_sublist; [|exact Hsort]. cbn. apply sublist_skip, Cv.
  - done.
  - done.
  - apply Forall_forall. intros b Hb. rewrite Forall_forall in H8. specialize (H8 b Hb). cbn beta in H8. rewrite <- H8.
    destruct (free_apart b) as (? & ? & ? & Hab); [set_solver|]. cbn [snd] in H4n. apply Hsame; [|lia].
    intros E. destruct Hp as [->|(c & -> & Hc)%list_elem_of_fmap]; [lia|].
    assert (c.1 + 8 * c.2 <= b.1 \/ b.1 + 8 * b.2 <= c.1) as Hcb.
    { apply elem_of_Permutation in Hb as [l1 P1], Hc as [l2 P2]. apply (blocks_apart s fl _ H c b (l2 ++ (a, n) :: l1)).
      rewrite P1, P2. cbn [app]. apply perm_skip. rewrite (perm_swap b (a, n)). symmetry. apply Permutation_middle. }
    destruct (free_apart c) as (? & ? & ? & _); [set_solver | lia].
Qed.

Lemma free_law : exists s' fl', free (a + HDR) s = Ret tt s' /\ heap_ok s' fl' al /\ brk s' = brk s /\
  (exists b, b ∈ fl' /\ n <= b.2) /\ (length fl' <= S (length fl))%nat.
Proof.
  destruct free_range as (Ha & Hn & Hmax). destruct free_split as (g & p & k & f2 & f1 & Efl & Eg & Hc & Hp & Hk & Hpk & F2 & Hsort).
  pose proof (h_ring _ _ _ H) as Hring. rewrite Efl in Hring. change ((base, 0) :: f1 ++ f2) with (((base, 0) :: f1) ++ f2) in Hring.
  assert (((base, 0) :: f1) ++ f2 = g ++ (p, k) :: f2) as Er by (by rewrite Eg, <- app_assoc). rewrite Er in Hring.
  pose proof (proj1 (lseg_app _ _ _ _) Hring) as [Lg (Lp & Lk & L2)]. cbn [next_of fst snd] in Lg, Lp, Lk.
  assert (find_place (fuel_of s) a (freep s) s = Ret p s) as Efind.
  { apply (find_place_law s g f2 p k a Hring); try done.
    - eapply sorted_sublist; [|exact Hsort]. rewrite !fmap_app. apply sublist_app; [done|]. cbn. apply sublist_skip, sublist_cons. done.
    - by rewrite <- Er.
    - lia.
    - rewrite <- Er, <- app_comm_cons, <- Efl. exact (h_freep _ _ _ H).
    - rewrite <- Er, <- app_comm_cons, <- Efl. cbn. pose proof (free_length s fl _ H). unfold fuel_of. lia. }
  rewrite (free_run a p s Efind). rewrite Lp.
  assert (hsize s a = n) as Hsz by (pose proof (h_used _ _ _ H) as Hu; by apply Forall_cons in Hu as [? _]).
  destruct (join_right_law s a n f2 Hsz Hn Hmax Ha L2) as (n' & f2' & R1 & R2 & R3 & R4 & R5 & R6 & R7 & R8).
  { apply Forall_forall. intros b Hb. rewrite Forall_forall in F2. specialize (F2 b Hb).
    destruct (free_apart b) as (? & ? & ? & _); [rewrite Efl; set_solver | lia]. }
  set (s1 := join_right a (next_of f2 base) s) in *.
  assert (Forall (fun b => b.1 < p) g) as Fg.
  { apply Forall_forall. intros b Hb. rewrite fmap_app in Hsort. apply StronglySorted_app in Hsort as (Hx & _ & _).
    apply Hx; [by apply list_elem_of_fmap_2 | left]. }
  destruct (join_left_law s1 p k a n' g f2') as (J1 & J2 & J3 & J4); try done; [| rewrite (proj2 (R6 p ltac:(lia))); done | lia |].
  { apply lseg_frame with s; [|done]. intros b Hb. apply R6. rewrite Forall_forall in Fg. specialize (Fg b Hb). lia. }
  destruct (free_list g p k f1 f2 n' f2' Hc) as (fl' & Ef & Cv & Hbig); try done.
  { intros Hne. destruct Hc as [(-> & _)|(g' & -> & E1)]; [done|].
    destruct (free_apart (p, k)) as (? & ? & ? & _); [rewrite Efl, E1; set_solver | done]. }
  exists (join_left p a s1), fl'. split; [done|]. split; [|split; [lia | split; [done|]]].
  - apply (free_finish p (join_left p a s1) fl' f1 f2); try done; [| | congruence | | |].
    + replace ((base, 0) :: f1 ++ (a, n) :: f2) with (g ++ (p, k) :: (a, n) :: f2); [done|].
      change ((base, 0) :: f1 ++ (a, n) :: f2) with (((base, 0) :: f1) ++ (a, n) :: f2). by rewrite Eg, <- app_assoc.
    + destruct Hc as [(_ & _ & [= -> _])|(g' & _ & E1)]; [by left|]. right. rewrite Efl, E1, !fmap_app. set_solver.
    + rewrite <- Ef. exact J1.
    + rewrite J3. change (base :: fl'.*1) with (((base, 0) :: fl').*1). rewrite <- Ef, fmap_app. apply elem_of_app. right.
      unfold joined_left. case_decide; left.
    + intros x Hx1 Hx2. rewrite J2 by done. by apply R6.
  - pose proof (sublist_length _ _ (cv_nodes _ _ Cv)) as Hlen. rewrite !length_fmap, length_app in Hlen. rewrite Efl, length_app. cbn in Hlen. lia.
Qed.
End free.
End inv.
