(* ===== verification/UmallocSafe.v ===== *)
(** * malloc and free are safe

    [malloc] returns when the kernel answers, with a block of its own that is
    large enough, or 0 when the kernel refuses; in every program that frees
    what it allocated and writes to its own blocks only, the blocks never
    overlap and no memory is lost. *)

From stdpp Require Import sorting.
From S2P Require Import Prelude Umalloc UmallocInv.

Section safe.
Context (base lo : Z) (grants : heap -> Z -> bool).
Context (Hbase : 0 < base /\ base + 8 <= lo).
(** The kernel keeps user memory below [KERNBASE]. *)
Context (Hgrants : forall s n, grants s n = true -> 0 < n -> brk s + n <= 2 ^ 31).

Notation heap_ok := (heap_ok base lo).

(** ** [morecore] *)

Definition more (nu : Z) : Z := if nu <? 4096 then 4096 else nu.
Definition grown_heap (nu : Z) (s : heap) : heap := mk_heap (ptr s) (put (hsize s) (brk s) nu) (freep s) (brk s + 8 * nu).

Lemma grown_heap_ok s fl al nu :
  heap_ok s fl al -> 1 <= nu -> brk s + 8 * nu <= 2 ^ 31 -> heap_ok (grown_heap nu s) fl ((brk s, nu) :: al).
Proof.
  intros H Hnu Hmax. pose proof H as [H1 (N & HN & EN) H3 H4 H5 H6 H7 H8].
  assert (forall b, b ∈ fl ++ al -> b.1 <> brk s) as Hne.
  { intros b Hb. destruct (block_range base lo s fl al H b Hb) as (_ & ? & ?). lia. }
  constructor; cbn [brk freep ptr hsize grown_heap]; [lia | exists (N + nu); lia | | | done | | done |].
  - replace ((brk s + 8 * nu - lo) / 8) with (N + nu) by (replace (brk s + 8 * nu - lo) with ((N + nu) * 8) by lia; by rewrite Z.div_mul).
    rewrite units_app by lia. rewrite <- Permutation_middle, all_units_cons, H3.
    replace ((brk s - lo) / 8) with N by (replace (brk s - lo) with (N * 8) by lia; by rewrite Z.div_mul).
    rewrite Permutation_app_comm. by rewrite EN.
  - rewrite <- Permutation_middle. by constructor.
  - apply lseg_frame with s; [|done]. intros b Hb. cbn. split; [done|]. apply put_ne.
    apply elem_of_cons in Hb as [->|Hb]; [cbn; lia | apply Hne; set_solver].
  - constructor; [apply put_eq|]. apply Forall_forall. intros b Hb. rewrite Forall_forall in H8. rewrite put_ne; [by apply H8|].
    apply Hne. set_solver.
Qed.

Lemma morecore_law s fl al nu :
  heap_ok s fl al -> 1 <= nu -> 8 * nu < 2 ^ 31 ->
  (grants s (8 * more nu) = false /\ morecore grants nu s = Ret 0 s) \/
  exists s' fl', morecore grants nu s = Ret (freep s') s' /\ heap_ok s' fl' al /\
    (exists b, b ∈ fl' /\ nu <= b.2) /\ (length fl' <= S (length fl))%nat.
Proof.
  intros H Hnu Hmax. unfold morecore. fold (more nu).
  assert (nu <= more nu /\ 1 <= more nu /\ 8 * more nu < 2 ^ 31) as (Hm1 & Hm2 & Hm3) by (unfold more; destruct (Z.ltb_spec nu 4096); lia).
  replace (i32 (more nu * HDR)) with (8 * more nu) by (unfold HDR; rewrite i32_small; lia).
  destruct (grants s (8 * more nu)) eqn:E; [right | left].
  - assert (0 < brk s) as Hb by (destruct (h_whole _ _ _ _ _ H) as (N & HN & EN); lia).
    pose proof (Hgrants s _ E ltac:(lia)) as Hroom. pose proof (grown_heap_ok s fl al (more nu) H Hm2 Hroom) as H'.
    destruct (free_law base lo Hbase _ _ _ _ _ H') as (s' & fl' & E' & Hok & Hbrk & (b & Hb1 & Hb2) & Hlen).
    exists s', fl'. split_and!; [|done | exists b; split; [done | lia] | done].
    assert (sbrk grants (8 * more nu) s = Ret (brk s) (mk_heap (ptr s) (hsize s) (freep s) (brk s + 8 * more nu))) as Es by (unfold sbrk; by rewrite E).
    rewrite (bind_ret _ _ _ _ _ Es), (proj2 (Z.eqb_neq (brk s) (-1))) by lia.
    unfold bind at 1, set_hsize, modify. cbn [ptr hsize freep brk]. rewrite (bind_ret _ _ _ _ _ E'). done.
  - split; [done|]. assert (sbrk grants (8 * more nu) s = Ret (-1) s) as Es by (unfold sbrk; by rewrite E).
    by rewrite (bind_ret _ _ _ _ _ Es).
Qed.

(** ** Taking a block from the list *)

Section carve.
Context (s : heap) (g1 g2 al : list block) (p m nu prev : Z).
Context (H : heap_ok s (g1 ++ (p, m) :: g2) al) (Hnu : 1 <= nu <= m).

Lemma carve_range : lo <= p /\ p + 8 * m <= 2 ^ 31.
Proof.
  destruct (block_range base lo s _ _ H (p, m)) as ((k & Hk & Ek) & Hn & Hr); [set_solver|]. pose proof (h_brk _ _ _ _ _ H). cbn in *. lia.
Qed.

(** The other blocks and [base] are not in the block. *)
Lemma carve_apart b : b ∈ (base, 0) :: g1 ++ g2 ++ al -> b.1 < p \/ p + 8 * m <= b.1.
Proof.
  pose proof carve_range. intros [->|Hb]%elem_of_cons; [cbn; lia|].
  assert (b ∈ (g1 ++ (p, m) :: g2) ++ al) as Hin by set_solver. destruct (block_range base lo s _ _ H b Hin) as (_ & Hn & _).
  apply elem_of_Permutation in Hb as [l P]. destruct (blocks_apart base lo s _ _ H (p, m) b l) as [?|?]; cbn in *; [|lia..].
  rewrite <- P, <- !app_assoc. cbn. by rewrite <- Permutation_middle.
Qed.

Context (Hprev : prev ∈ base :: (g1 ++ (p, m) :: g2).*1) (Hptr : ptr s prev = p).

Lemma prev_last : exists h k, (base, 0) :: g1 = h ++ [(prev, k)] /\ lseg s h prev /\ hsize s prev = k /\
  lseg s ((p, m) :: g2) base /\ (forall b, b ∈ h ++ g2 -> b.1 <> prev).
Proof.
  destruct (last_block g1 (base, 0)) as (h & [q k] & E & _). pose proof (h_ring _ _ _ _ _ H) as Hr. pose proof (h_sorted _ _ _ _ _ H) as Hs.
  change ((base, 0) :: g1 ++ (p, m) :: g2) with (((base, 0) :: g1) ++ (p, m) :: g2) in Hr.
  assert (NoDup ((((base, 0) :: g1) ++ (p, m) :: g2).*1)) as Hnd.
  { change (NoDup (base :: (g1 ++ (p, m) :: g2).*1)). clear -Hs. induction Hs as [|x l _ IH Hx]; [constructor|].
    constructor; [|done]. intros Hin. rewrite Forall_forall in Hx. specialize (Hx x Hin). lia. }
  assert (q = prev) as <-.
  { apply (ring_inj s (base, 0) (g1 ++ (p, m) :: g2)); [exact Hr | exact Hnd | | exact Hprev |].
    - change (q ∈ (((base, 0) :: g1) ++ (p, m) :: g2).*1). rewrite E. apply list_elem_of_fmap. exists (q, k). split; [done | set_solver].
    - rewrite Hptr. rewrite E in Hr. apply lseg_app in Hr as [Hr _]. apply lseg_app in Hr as [_ [Hr _]]. exact Hr. }
  exists h, k. rewrite E in Hr, Hnd. apply lseg_app in Hr as [Hr1 Hr2]. apply lseg_app in Hr1 as [Hr1 [_ [Hr3 _]]].
  split_and!; try done. intros b Hb Eb. rewrite <- app_assoc in Hnd. cbn in Hnd. rewrite fmap_app in Hnd. cbn in Hnd.
  apply NoDup_app in Hnd as (_ & Hd & Hnd). apply NoDup_cons in Hnd as [Hni _]. apply elem_of_app in Hb as [Hb|Hb].
  - apply (Hd (b.1)); [by apply list_elem_of_fmap_2 | rewrite Eb; left].
  - apply Hni. right. rewrite <- Eb. by apply list_elem_of_fmap_2.
Qed.

Lemma carve_whole : m = nu ->
  let s' := mk_heap (put (ptr s) prev (ptr s p)) (hsize s) prev (brk s) in
  carve nu prev p s = Ret (p + HDR) s' /\ heap_ok s' (g1 ++ g2) ((p, nu) :: al).
Proof.
  intros Em s'. pose proof carve_range. destruct prev_last as (h & k & E & L1 & Lk & (L2 & L3 & L4) & Hne). cbn [fst snd] in L2, L3. subst m. split.
  - unfold carve, bind, get. rewrite L3, Z.eqb_refl. unfold set_ptr, set_freep, modify, ret. cbn [ptr hsize freep brk]. rewrite u32_small by (unfold HDR; lia). done.
  - pose proof H as [H1 H2 H3 H4 H5 H6 H7 H8].
    assert ((g1 ++ g2) ++ (p, nu) :: al ≡ₚ (g1 ++ (p, nu) :: g2) ++ al) as P.
    { rewrite <- !app_assoc. apply Permutation_app_head. cbn. by rewrite <- Permutation_middle. }
    constructor; cbn [brk freep ptr hsize s'].
    + done.
    + done.
    + by rewrite P.
    + by rewrite P.
    + eapply sorted_sublist; [|exact H5]. apply sublist_skip. rewrite !fmap_app. apply sublist_app; [done|]. cbn. by apply sublist_cons.
    + change ((base, 0) :: g1 ++ g2) with (((base, 0) :: g1) ++ g2). rewrite E, <- app_assoc. apply lseg_app. split; [|cbn [app lseg]; split_and!].
      * apply lseg_frame with s; [|exact L1]. intros b Hb. cbn. rewrite put_ne; [done | apply Hne; set_solver].
      * change (put (ptr s) prev (ptr s p) prev = next_of g2 base). by rewrite put_eq.
      * done.
      * apply lseg_frame with s; [|exact L4]. intros b Hb. cbn. rewrite put_ne; [done | apply Hne; set_solver].
    + change (prev ∈ (((base, 0) :: g1) ++ g2).*1). rewrite E. apply list_elem_of_fmap. exists (prev, k). split; [done | set_solver].
    + by constructor.
Qed.

Lemma carve_part : nu < m ->
  let a := p + 8 * (m - nu) in
  let s' := mk_heap (ptr s) (put (put (hsize s) p (m - nu)) a nu) prev (brk s) in
  carve nu prev p s = Ret (a + HDR) s' /\ heap_ok s' (g1 ++ (p, m - nu) :: g2) ((a, nu) :: al).
Proof.
  intros Hm a s'. pose proof carve_range. destruct prev_last as (h & k & E & L1 & Lk & (L2 & L3 & L4) & Hne). cbn [fst snd] in L2, L3.
  assert (forall b, b ∈ (base, 0) :: g1 ++ g2 ++ al -> b.1 <> p /\ b.1 <> a) as Hap.
  { intros b Hb. pose proof (carve_apart b Hb). unfold a. lia. }
  split.
  - unfold carve, bind, get. rewrite L3, (proj2 (Z.eqb_neq m nu)) by lia. unfold set_hsize, set_freep, modify, ret. cbn [ptr hsize freep brk].
    unfold HDR. rewrite (u32_small (p + 8 * (m - nu))) by lia. rewrite (u32_small (p + 8 * (m - nu) + 8)) by lia. done.
  - pose proof H as [H1 H2 H3 H4 H5 H6 H7 H8].
    assert (forall b, b ∈ (base, 0) :: g1 ++ g2 ++ al -> ptr s' b.1 = ptr s b.1 /\ hsize s' b.1 = hsize s b.1) as Hf.
    { intros b Hb. destruct (Hap b Hb). cbn. by rewrite !put_ne. }
    constructor; cbn [brk freep ptr hsize s'].
    + done.
    + done.
    + rewrite <- H3. rewrite !all_units_app, !all_units_cons. replace m with ((m - nu) + nu) at 2 by lia. rewrite units_app by lia.
      rewrite <- !app_assoc. apply Permutation_app_head, Permutation_app_head. rewrite !app_assoc. apply Permutation_app_tail, Permutation_app_comm.
    + rewrite Forall_app, Forall_app, Forall_cons in H4. rewrite Forall_app, Forall_app, !Forall_cons. cbn in *. naive_solver lia.
    + rewrite fmap_app in *. done.
    + change ((base, 0) :: g1 ++ (p, m - nu) :: g2) with (((base, 0) :: g1) ++ (p, m - nu) :: g2).
      change ((base, 0) :: g1 ++ (p, m) :: g2) with (((base, 0) :: g1) ++ (p, m) :: g2) in H6. apply lseg_app in H6 as [H6 _].
      apply lseg_app. split; [|cbn [lseg]; split_and!].
      * apply lseg_frame with s; [|exact H6]. intros b Hb. apply Hf. set_solver.
      * exact L2.
      * cbn. rewrite put_ne by (unfold a; lia). apply put_eq.
      * apply lseg_frame with s; [|exact L4]. intros b Hb. apply Hf. set_solver.
    + rewrite fmap_app in *. done.
    + constructor; [cbn; apply put_eq|]. apply Forall_forall. intros b Hb. rewrite Forall_forall in H8. rewrite <- (H8 b Hb). apply Hf. set_solver.
Qed.
End carve.

Lemma carve_law s fl al p m nu prev :
  heap_ok s fl al -> (p, m) ∈ fl -> 1 <= nu <= m -> prev ∈ base :: fl.*1 -> ptr s prev = p ->
  exists a s' fl', carve nu prev p s = Ret (a + HDR) s' /\ heap_ok s' fl' ((a, nu) :: al).
Proof.
  intros H Hin Hnu Hprev Hptr. apply list_elem_of_split in Hin as (g1 & g2 & ->). destruct (Z.eq_dec m nu) as [E|E].
  - destruct (carve_whole s g1 g2 al p m nu prev H Hnu Hprev Hptr E) as [E1 H1]. eauto.
  - destruct (carve_part s g1 g2 al p m nu prev H Hnu Hprev Hptr ltac:(lia)) as [E1 H1]. eauto.
Qed.

(** ** The search *)

(** The last node passed. *)
Fixpoint last_addr (prev : Z) (g : list block) : Z := match g with [] => prev | b :: g => last_addr b.1 g end.

Lemma last_addr_app prev g b : last_addr prev (g ++ [b]) = b.1.
Proof. revert prev. induction g as [|c g IH]; intros prev; [done|]. apply IH. Qed.

Lemma malloc_walk nu s fuel g : forall e prev,
  lseg s g e -> Forall (fun b => b.2 < nu /\ b.1 <> freep s) g ->
  malloc_loop grants (length g + fuel) nu prev (next_of g e) s = malloc_loop grants fuel nu (last_addr prev g) e s.
Proof.
  induction g as [|b g IH]; intros e prev Hs Hf; [done|]. destruct Hs as (H1 & H2 & H3). apply Forall_cons in Hf as [[Hb1 Hb2] Hf].
  cbn [length plus next_of]. cbn [malloc_loop]. rewrite (proj2 (Z.leb_gt nu _)) by lia. rewrite (proj2 (Z.eqb_neq _ _) Hb2), H1.
  by apply IH.
Qed.

(** The ring, turned so that [freep] is last. *)
Lemma ring_turned s fl al : heap_ok s fl al -> exists W k,
  W ++ [(freep s, k)] ≡ₚ (base, 0) :: fl /\ lseg s (W ++ [(freep s, k)]) (next_of (W ++ [(freep s, k)]) 0) /\
  ptr s (freep s) = next_of (W ++ [(freep s, k)]) 0 /\ Forall (fun b => b.1 <> freep s) W.
Proof.
  intros [_ _ _ _ Hs Hr Hf _]. change (base :: fl.*1) with (((base, 0) :: fl).*1) in Hf, Hs.
  apply list_elem_of_fmap in Hf as ([f k] & Ef & Hin). cbn in Ef. subst f. apply list_elem_of_split in Hin as (A & B & E).
  assert (next_of (A ++ [(freep s, k)]) 0 = base) as Hb by (destruct A as [|c A]; [by injection E | by injection E as <- _]).
  rewrite E in Hr, Hs. apply lseg_app in Hr as [LA (Lf & Lk & LB)]. cbn [next_of fst snd] in LA, Lf, Lk.
  assert (next_of ((B ++ A) ++ [(freep s, k)]) 0 = next_of B base) as Hn by (rewrite <- app_assoc, next_of_app, Hb; done).
  exists (B ++ A), k. split_and!.
  - rewrite E. rewrite <- app_assoc, Permutation_app_comm, <- app_assoc. done.
  - rewrite Hn, <- app_assoc. apply lseg_app. split; [|apply lseg_app; done].
    by replace (next_of (A ++ [(freep s, k)]) (next_of B base)) with base by (by destruct A).
  - by rewrite Hn.
  - apply Forall_forall. intros b Hb' Eb. rewrite fmap_app in Hs. cbn in Hs. apply StronglySorted_app in Hs as (Hx & _ & Hs).
    apply StronglySorted_cons in Hs as [Hs _]. apply elem_of_app in Hb' as [Hb'|Hb'].
    + rewrite Forall_forall in Hs. specialize (Hs (b.1) ltac:(by apply list_elem_of_fmap_2)). lia.
    + specialize (Hx (b.1) (freep s) ltac:(by apply list_elem_of_fmap_2) ltac:(left)). lia.
Qed.

Lemma first_fit nu (W : list block) :
  Forall (fun b => b.2 < nu) W \/ exists W1 b W2, W = W1 ++ b :: W2 /\ Forall (fun b => b.2 < nu) W1 /\ nu <= b.2.
Proof.
  induction W as [|b W [IH|(W1 & c & W2 & -> & IH1 & IH2)]]; [by left| |]; destruct (Z.le_gt_cases nu (b.2)).
  - right. exists [], b, W. done.
  - left. constructor; [lia | done].
  - right. exists [], b, (W1 ++ c :: W2). done.
  - right. exists (b :: W1), c, W2. split_and!; [done | constructor; [lia | done] | done].
Qed.

(** [malloc_loop] at [freep], when no block is large enough. *)
Definition ask (fuel : nat) (nu : Z) : M heap Z :=
  let! p := morecore grants nu in
  if p =? 0 then ret 0
  else let! q := reads (fun s => ptr s p) in malloc_loop grants fuel nu p q.

Lemma search_law s fl al nu fuel :
  heap_ok s fl al -> 1 <= nu ->
  let run := malloc_loop grants (S (length fl) + fuel) nu (freep s) (ptr s (freep s)) s in
  (exists p m prev, (p, m) ∈ fl /\ nu <= m /\ prev ∈ base :: fl.*1 /\ ptr s prev = p /\ run = carve nu prev p s) \/
  (Forall (fun b => b.2 < nu) fl /\ run = ask fuel nu s).
Proof.
  intros H Hnu run. destruct (ring_turned s fl al H) as (W & k & P & HL & Hp & Hne).
  assert (length W = length fl) as Hlen by (apply Permutation_length in P; rewrite length_app in P; cbn in P; lia).
  unfold run. rewrite Hp. set (R := W ++ [(freep s, k)]) in *. destruct (first_fit nu R) as [Hall|(W1 & [p m] & W2 & E & Hall & Hm)].
  - right. split; [rewrite P in Hall; by apply Forall_cons in Hall as [_ ?]|].
    unfold R in Hall. apply Forall_app in Hall as [HW Hk]. apply Forall_cons in Hk as [Hk _]. cbn in Hk.
    unfold R in HL. apply lseg_app in HL as [LW (_ & Lk & _)]. cbn [next_of fst snd] in LW, Lk.
    unfold R. rewrite next_of_app. cbn [next_of fst]. replace (S (length fl) + fuel)%nat with (length W + S fuel)%nat by lia.
    rewrite malloc_walk by (try done; apply Forall_and; done). cbn [malloc_loop]. by rewrite (proj2 (Z.leb_gt nu _)), Z.eqb_refl by lia.
  - left. exists p, m, (last_addr (freep s) W1). cbn [snd] in Hm.
    assert (length W1 <= length W)%nat as Hl1 by (apply (f_equal length) in E; unfold R in E; rewrite !length_app in E; cbn in E; lia).
    assert (Forall (fun b => b.1 <> freep s) W1) as Hn1.
    { assert (W1 = take (length W1) W) as ->; [|by apply Forall_take].
      apply (f_equal (take (length W1))) in E. unfold R in E. rewrite take_app_le, take_app_length in E by done. done. }
    rewrite E in *. apply lseg_app in HL as [L1 (_ & Lm & _)]. cbn [next_of fst snd] in L1, Lm. rewrite next_of_app in *. cbn [next_of fst] in *. split_and!.
    + assert ((p, m) ∈ (base, 0) :: fl) as Hin by (rewrite <- P; set_solver). apply elem_of_cons in Hin as [[= -> ->]|?]; [lia | done].
    + done.
    + destruct W1 as [|b W1'] using rev_ind; [exact (h_freep _ _ _ _ _ H)|]. rewrite last_addr_app.
      change (b.1 ∈ ((base, 0) :: fl).*1). rewrite <- P. apply list_elem_of_fmap_2. set_solver.
    + destruct W1 as [|b W1'] using rev_ind; [exact Hp|]. rewrite last_addr_app. apply lseg_app in L1 as [_ [L1 _]]. exact L1.
    + replace (S (length fl) + fuel)%nat with (length W1 + (S (length fl) + fuel - length W1))%nat by lia.
      rewrite malloc_walk by (try done; apply Forall_and; done). destruct (S (length fl) + fuel - length W1)%nat; cbn [malloc_loop];
        by rewrite (proj2 (Z.leb_le nu _)) by lia.
Qed.

(** ** [malloc] *)

(** The heap with the blocks [al] in use; before the first call there is none. *)
Definition well_formed (s : heap) (al : list block) : Prop :=
  (freep s = 0 /\ al = [] /\ brk s = lo /\ lo <= 2 ^ 31) \/ exists fl, heap_ok s fl al.

Lemma units_of_spec n : 0 <= n < 2 ^ 31 - 16 -> 1 <= units_of n /\ 8 * units_of n < 2 ^ 31 /\ n <= 8 * (units_of n - 1) < n + 8.
Proof.
  intros H. unfold units_of, HDR. rewrite (u32_small (n + 8 - 1)) by lia.
  pose proof (Z.div_mod (n + 8 - 1) 8 ltac:(lia)). pose proof (Z.mod_pos_bound (n + 8 - 1) 8 ltac:(lia)).
  rewrite u32_small by lia. lia.
Qed.

Lemma freep_ne s fl al : heap_ok s fl al -> freep s <> 0.
Proof.
  intros H E. pose proof (h_freep _ _ _ _ _ H) as Hf. rewrite E in Hf. pose proof (h_sorted _ _ _ _ _ H) as Hs.
  apply StronglySorted_cons in Hs as [Hs _]. apply elem_of_cons in Hf as [?|Hf]; [lia|]. rewrite Forall_forall in Hs. specialize (Hs 0 Hf). lia.
Qed.

(** The state in which the search starts. *)
Lemma malloc_start s al n : well_formed s al -> exists s0 fl,
  heap_ok s0 fl al /\ brk s0 = brk s /\
  malloc base grants n s = malloc_loop grants (2 * fuel_of s0 + 8) (units_of n) (freep s0) (ptr s0 (freep s0)) s0.
Proof.
  intros [(Hf & -> & Hb & Hlo)|[fl H]].
  - exists (mk_heap (put (ptr s) base base) (put (hsize s) base 0) base (brk s)), []. split_and!; [|done|].
    + constructor; cbn [brk freep ptr hsize]; try done.
      * lia.
      * exists 0. lia.
      * by rewrite Hb, Z.sub_diag.
      * by repeat constructor.
      * cbn. by rewrite !put_eq.
      * left.
    + unfold malloc, bind, reads. rewrite Hf. done.
  - exists s, fl. split_and!; [done | done |]. unfold malloc, bind, reads. by rewrite (proj2 (Z.eqb_neq _ _) (freep_ne s fl al H)).
Qed.

Lemma fit_law s fl al nu fuel :
  heap_ok s fl al -> 1 <= nu -> (exists b, b ∈ fl /\ nu <= b.2) -> (S (length fl) <= fuel)%nat ->
  exists a s', malloc_loop grants fuel nu (freep s) (ptr s (freep s)) s = Ret (a + HDR) s' /\ well_formed s' ((a, nu) :: al).
Proof.
  intros H Hnu (b & Hb & Hfit) Hfuel. replace fuel with (S (length fl) + (fuel - S (length fl)))%nat by lia.
  destruct (search_law s fl al nu (fuel - S (length fl)) H Hnu) as [(p & m & prev & H1 & H2 & H3 & H4 & ->)|[Hall _]].
  - destruct (carve_law s fl al p m nu prev H H1 ltac:(lia) H3 H4) as (a & s' & fl' & E & H'). exists a, s'. split; [done|]. right. by exists fl'.
  - rewrite Forall_forall in Hall. specialize (Hall b Hb). cbn in Hall. lia.
Qed.

Lemma malloc_law s al n :
  well_formed s al -> 0 <= n < 2 ^ 31 - 16 ->
  (exists a s', malloc base grants n s = Ret (a + HDR) s' /\ well_formed s' ((a, units_of n) :: al)) \/
  (exists s', malloc base grants n s = Ret 0 s' /\ well_formed s' al /\ brk s' = brk s /\ grants s' (8 * more (units_of n)) = false).
Proof.
  intros Hwf Hn. destruct (units_of_spec n Hn) as (Hu1 & Hu2 & _). destruct (malloc_start s al n Hwf) as (s0 & fl & H & Hb & ->).
  pose proof (free_length base lo Hbase s0 fl al H) as Hlen. fold (fuel_of s0) in Hlen.
  destruct (decide (Exists (fun b => units_of n <= b.2) fl)) as [Hex|Hno].
  - left. apply (fit_law s0 fl al); try done; [|lia]. by apply Exists_exists.
  - replace (2 * fuel_of s0 + 8)%nat with (S (length fl) + (2 * fuel_of s0 + 8 - S (length fl)))%nat by lia.
    set (fuel := (2 * fuel_of s0 + 8 - S (length fl))%nat).
    destruct (search_law s0 fl al (units_of n) fuel H Hu1) as [(p & m & prev & H1 & H2 & _)|[_ ->]].
    { exfalso. apply Hno, Exists_exists. by exists (p, m). }
    unfold ask. destruct (morecore_law s0 fl al (units_of n) H Hu1 Hu2) as [[Hg E]|(s1 & fl1 & E & H' & Hfit & Hl1)].
    + right. exists s0. rewrite (bind_ret _ _ _ _ _ E). split_and!; [done | right; by exists fl | done | done].
    + left. rewrite (bind_ret _ _ _ _ _ E), (proj2 (Z.eqb_neq _ _) (freep_ne s1 fl1 al H')). unfold bind, reads.
      apply (fit_law s1 fl1 al); try done. unfold fuel. lia.
Qed.

Lemma free_wf s a n al : well_formed s ((a, n) :: al) -> exists s', free (a + HDR) s = Ret tt s' /\ well_formed s' al.
Proof.
  intros [(_ & [=] & _)|[fl H]]. destruct (free_law base lo Hbase s fl al a n H) as (s' & fl' & E & H' & _).
  exists s'. split; [done|]. right. by exists fl'.
Qed.

(** ** Programs that use the heap *)

(** The header at [x] is clear of the bytes of the blocks in use. *)
Definition clear_of (al : list block) (x : Z) : Prop := forall b, b ∈ al -> x <= b.1 \/ b.1 + 8 * b.2 <= x.

(** What a program may do: allocate, free what it has allocated, and write to
    the bytes behind the headers of its blocks. *)
Inductive step : heap * list block -> heap * list block -> Prop :=
| step_malloc s al n a s' : 0 <= n < 2 ^ 31 - 16 -> malloc base grants n s = Ret (a + HDR) s' -> a + HDR <> 0 ->
    step (s, al) (s', (a, units_of n) :: al)
| step_refused s al n s' : 0 <= n < 2 ^ 31 - 16 -> malloc base grants n s = Ret 0 s' -> step (s, al) (s', al)
| step_free s al1 a n al2 s' : free (a + HDR) s = Ret tt s' -> step (s, al1 ++ (a, n) :: al2) (s', al1 ++ al2)
| step_write s al s' : freep s' = freep s -> brk s' = brk s ->
    (forall x, clear_of al x -> ptr s' x = ptr s x /\ hsize s' x = hsize s x) -> step (s, al) (s', al).

Definition initial (s : heap) : Prop := freep s = 0 /\ brk s = lo.

Lemma wf_perm s al al' : al ≡ₚ al' -> well_formed s al -> well_formed s al'.
Proof.
  intros P [(H1 & -> & H2)|[fl H]]; [left; by apply Permutation_nil in P as ->|]. right. exists fl. by eapply heap_perm.
Qed.

(** The address of a block is not the null pointer minus a header. *)
Lemma wf_range s al b : well_formed s al -> b ∈ al -> lo <= b.1 /\ b.1 + 8 * b.2 <= brk s /\ brk s <= 2 ^ 31.
Proof.
  intros [(_ & -> & _)|[fl H]] Hb; [by apply not_elem_of_nil in Hb|].
  destruct (block_range base lo s fl al H b) as ((k & Hk & Ek) & _ & Hr); [set_solver|]. pose proof (h_brk _ _ _ _ _ H). lia.
Qed.

Lemma write_wf s al s' : freep s' = freep s -> brk s' = brk s ->
  (forall x, clear_of al x -> ptr s' x = ptr s x /\ hsize s' x = hsize s x) -> well_formed s al -> well_formed s' al.
Proof.
  intros Hf Hb Hsame [H|[fl H]]; [left; by rewrite Hf, Hb|]. right. exists fl. pose proof H as [H1 H2 H3 H4 H5 H6 H7 H8].
  assert (forall x y l, fl ++ al ≡ₚ x :: y :: l -> x.1 <= y.1 \/ y.1 + 8 * y.2 <= x.1) as Hap.
  { intros x y l P. destruct (block_range base lo s fl al H x) as (_ & ? & _); [rewrite P; left|].
    destruct (blocks_apart base lo s fl al H x y l P); lia. }
  assert (forall b, b ∈ fl -> clear_of al b.1) as Cf.
  { intros b [l1 P1]%elem_of_Permutation c [l2 P2]%elem_of_Permutation. apply (Hap b c (l1 ++ l2)). rewrite P1, P2. cbn. apply perm_skip. symmetry. apply Permutation_middle. }
  assert (forall b, b ∈ al -> clear_of al b.1) as Ca.
  { intros b Hb1 c Hc1. destruct (decide (b = c)) as [->|Hne]; [left; lia|]. apply elem_of_Permutation in Hb1 as [l1 P1].
    rewrite P1 in Hc1. apply elem_of_cons in Hc1 as [->|Hc1]; [done|]. apply elem_of_Permutation in Hc1 as [l2 P2].
    apply (Hap b c (fl ++ l2)). rewrite P1, P2. by rewrite <- !Permutation_middle. }
  constructor; rewrite ?Hb, ?Hf; try done.
  - apply lseg_frame with s; [|done]. intros b [->|Hb1]%elem_of_cons; apply Hsame; [|by apply Cf].
    intros c Hc. left. cbn. pose proof (wf_range s al c (or_intror (ex_intro _ fl H)) Hc). lia.
  - apply Forall_forall. intros b Hb1. rewrite Forall_forall in H8. rewrite <- (H8 b Hb1). by apply Hsame, Ca.
Qed.

Lemma step_wf s al s' al' : step (s, al) (s', al') -> well_formed s al -> well_formed s' al'.
Proof.
  inversion 1 as [? ? n a ? Hn E Hne|? ? n ? Hn E|? al1 a n al2 ? E|? ? ? Hf Hb Hsame]; subst; intros Hwf.
  - destruct (malloc_law s al n Hwf Hn) as [(a' & s1 & E1 & H1)|(s1 & E1 & _)]; rewrite E1 in E; injection E as E2 ->.
    + by replace a with a' by lia.
    + by rewrite <- E2 in Hne.
  - destruct (malloc_law s al' n Hwf Hn) as [(a' & s1 & E1 & H1)|(s1 & E1 & H1 & _)]; rewrite E1 in E; injection E as E2.
    + exfalso. pose proof (wf_range s1 _ (a', units_of n) H1 ltac:(left)). cbn in *. unfold HDR in E2. lia.
    + by subst.
  - apply (wf_perm _ _ ((a, n) :: al1 ++ al2)) in Hwf; [|symmetry; apply Permutation_middle].
    destruct (free_wf s a n _ Hwf) as (s1 & E1 & H1). rewrite E1 in E. by injection E as ->.
  - by eapply write_wf.
Qed.

Lemma steps_wf x y : rtc step x y -> well_formed x.1 x.2 -> well_formed y.1 y.2.
Proof. induction 1 as [|[s al] [s' al'] z Hs _ IH]; [done|]. intros H. apply IH. by eapply step_wf. Qed.

Lemma reach_wf s0 s al : lo <= 2 ^ 31 -> initial s0 -> rtc step (s0, []) (s, al) -> well_formed s al.
Proof. intros Hlo [H1 H2] Hr. apply (steps_wf _ _ Hr). left. done. Qed.

(** Every unit of memory is in one block. *)
Definition tiled (s : heap) (al : list block) : Prop :=
  exists fl, all_units (fl ++ al) ≡ₚ units (lo, (brk s - lo) / 8) /\ Forall (fun b => 1 <= b.2 /\ hsize s b.1 = b.2) (fl ++ al).

Lemma wf_tiled s al : well_formed s al -> tiled s al.
Proof.
  intros [(_ & -> & Hb & _)|[fl H]].
  - exists []. by rewrite Hb, Z.sub_diag.
  - exists fl. split; [apply H|]. pose proof H as [_ _ _ H4 _ H6 _ H8]. apply Forall_forall. intros b Hb. rewrite Forall_forall in H4, H8.
    split; [by apply H4|]. apply elem_of_app in Hb as [Hb|Hb]; [|by apply H8]. eapply lseg_at; [exact H6 | by right].
Qed.

Lemma tiled_NoDup s al : tiled s al -> NoDup (all_units al).
Proof.
  intros (fl & P & _). assert (NoDup (all_units (fl ++ al))) as H by (rewrite P; apply NoDup_units).
  rewrite all_units_app in H. by apply NoDup_app in H as (_ & _ & ?).
Qed.

(** C25: the heap stays well formed.  Whatever a program allocates, frees and
    writes to its own blocks, in any order, the memory that [sbrk] gave is
    divided into free blocks and blocks in use, every unit in exactly one of
    them and each with its size in its header; the blocks in use do not
    overlap, and [free] of each of them returns. *)
Theorem heap_well_formed s0 s al :
  lo <= 2 ^ 31 -> initial s0 -> rtc step (s0, []) (s, al) ->
  tiled s al /\ NoDup (all_units al) /\
  (forall b, b ∈ al -> lo <= b.1 /\ b.1 + 8 * b.2 <= brk s) /\
  (forall b, b ∈ al -> exists s', free (b.1 + HDR) s = Ret tt s').
Proof.
  intros Hlo Hi Hr. pose proof (reach_wf s0 s al Hlo Hi Hr) as H. pose proof (wf_tiled s al H) as Ht. split_and!.
  - done.
  - by apply (tiled_NoDup s).
  - intros b Hb. destruct (wf_range s al b H Hb) as (? & ? & _). done.
  - intros [a n] Hb. apply elem_of_Permutation in Hb as [l P]. destruct (free_wf s a n l (wf_perm _ _ _ P H)) as (s' & E & _). by exists s'.
Qed.

(** C38: [malloc] returns, with memory of its own.  In every state of a
    program that uses the heap properly, [malloc(n)] for [n] below
    [2 ^ 31 - 16] gives the address of [n] bytes, up to 7 more, that belong to
    no block in use; it returns 0 only when the kernel refuses the memory it
    asks for, and then nothing has changed for the program.  A larger request
    is not covered: it makes the argument of [sbrk] negative, or wraps around
    ([huge_request]). *)
Theorem malloc_correct s0 s al n :
  lo <= 2 ^ 31 -> initial s0 -> rtc step (s0, []) (s, al) -> 0 <= n < 2 ^ 31 - 16 ->
  exists r s', malloc base grants n s = Ret r s' /\
    (r = 0 /\ grants s' (8 * more (units_of n)) = false /\ brk s' = brk s /\ tiled s' al \/
     exists a m, r = a + HDR /\ n <= 8 * (m - 1) < n + 8 /\ lo <= a /\ a + 8 * m <= brk s' /\
       hsize s' a = m /\ NoDup (all_units ((a, m) :: al)) /\ tiled s' ((a, m) :: al)).
Proof.
  intros Hlo Hi Hr Hn. pose proof (reach_wf s0 s al Hlo Hi Hr) as H. destruct (units_of_spec n Hn) as (_ & _ & Hu).
  destruct (malloc_law s al n H Hn) as [(a & s' & E & H')|(s' & E & H' & Hb & Hg)].
  - exists (a + HDR), s'. split; [done|]. right. exists a, (units_of n). pose proof (wf_tiled _ _ H') as Ht.
    pose proof (wf_range _ _ (a, units_of n) H' ltac:(left)) as (H1 & H2 & _). split_and!; try done; try lia; [|by apply (tiled_NoDup s')].
    destruct Ht as (fl & _ & Hf). rewrite Forall_app, Forall_cons in Hf. apply Hf.
  - exists 0, s'. split; [done|]. left. by split_and!; [| | |apply wf_tiled].
Qed.
End safe.

(** A request close to [2 ^ 32] bytes wraps around: it is taken for a block
    with no room behind its header. *)
Lemma huge_request : units_of (2 ^ 32 - 1) = 1.
Proof. done. Qed.

(** ** A program with one block *)

Definition demo_grants (s : heap) (n : Z) : bool := brk s + n <=? 2 ^ 20.
Definition demo_heap : heap := mk_heap (fun _ => 0) (fun _ => 0) 0 4096.

Lemma demo_granted s n : demo_grants s n = true -> 0 < n -> brk s + n <= 2 ^ 31.
Proof. unfold demo_grants. intros ?%Z.leb_le _. lia. Qed.

Lemma heap_well_formed_witness : exists s al, al <> [] /\ NoDup (all_units al) /\ tiled 4096 s al.
Proof.
  destruct (malloc_law 2048 4096 demo_grants ltac:(lia) demo_granted demo_heap [] 10) as [(a & s & E & Hwf)|(s & _ & _ & Hb & Hg)].
  - left. done.
  - lia.
  - exists s, [(a, units_of 10)]. split; [discriminate|].
    destruct (heap_well_formed 2048 4096 demo_grants ltac:(lia) demo_granted demo_heap s [(a, units_of 10)]) as (H1 & H2 & _).
    + lia.
    + split; reflexivity.
    + apply rtc_once. apply step_malloc; [lia | exact E |].
      pose proof (wf_range 2048 4096 demo_grants ltac:(lia) demo_granted s _ (a, units_of 10) Hwf ltac:(left)) as (Ha & _). cbn in Ha. unfold HDR. lia.
    + split; [exact H2 | exact H1].
  - exfalso. unfold demo_grants in Hg. rewrite Hb in Hg. discriminate Hg.
Defined.

Lemma malloc_correct_witness : exists r s', malloc 2048 demo_grants 10 demo_heap = Ret r s'.
Proof.
  destruct (malloc_correct 2048 4096 demo_grants ltac:(lia) demo_granted demo_heap demo_heap [] 10) as (r & s' & E & _).
  - lia.
  - done.
  - apply rtc_refl.
  - lia.
  - by exists r, s'.
Defined.
