(* ===== verification/Mp.v ===== *)
(** * Finding the processors (mp.c)

    The BIOS leaves a floating pointer structure somewhere in low memory,
    which points to a table with an entry for every processor, bus and I/O
    APIC.  [mem] is physical memory, byte by byte, as the kernel sees it above
    [KERNBASE]; [inb] is what the port gives. *)

From S2P Require Import Prelude Cstring.

Definition NCPU : Z := 8.

Record mpst := mk_mpst {
  apicids : list Z;
  ncpu : Z;
  ioapicid : Z;
  lapic : Z;
  outs : list (Z * Z);
}.

Definition set_apicids v s := mk_mpst v (ncpu s) (ioapicid s) (lapic s) (outs s).
Definition set_ncpu v s := mk_mpst (apicids s) v (ioapicid s) (lapic s) (outs s).
Definition set_ioapicid v s := mk_mpst (apicids s) (ncpu s) v (lapic s) (outs s).
Definition set_lapic v s := mk_mpst (apicids s) (ncpu s) (ioapicid s) v (outs s).
Definition outb (port v : Z) : M mpst unit := modify (fun s => mk_mpst (apicids s) (ncpu s) (ioapicid s) (lapic s) (outs s ++ [(port, v)])).

Section mp.
Context (mem : Z -> Z) (inb : Z -> Z).

Definition bytes (a : Z) (n : nat) : list Z := (fun k => mem (a + Z.of_nat k)) <$> seq 0 n.
Definition read16 (a : Z) : Z := le_dec (bytes a 2).
Definition read32 (a : Z) : Z := le_dec (bytes a 4).

Definition sum (addr len : Z) : Z := u8 (fold_left (fun s i => i32 (s + mem (addr + i))) (seqZ 0 len) 0).

Definition sig_at (a : Z) (s : string) : bool := match memcmp (bytes a 4) (str s) 4 with Some r => r =? 0 | None => false end.

(** [sizeof(struct mp)] *)
Definition mp_size : Z := 16.
Definition mp_ok (p : Z) : bool := sig_at p "_MP_" && (sum p mp_size =? 0).

Fixpoint mpsearch1_loop (k : nat) (p : Z) : option Z :=
  match k with
  | O => None
  | S k => if mp_ok p then Some p else mpsearch1_loop k (p + mp_size)
  end.
Definition mpsearch1 (a len : Z) : option Z := mpsearch1_loop (Z.to_nat ((len + mp_size - 1) / mp_size)) a.

Definition mpsearch : option Z :=
  let bda := 1024 in
  let p := Z.shiftl (Z.lor (Z.shiftl (mem (bda + 15)) 8) (mem (bda + 14))) 4 in
  let last := mpsearch1 983040 65536 in
  if negb (p =? 0) then
    match mpsearch1 p 1024 with Some mp => Some mp | None => last end
  else
    let p := Z.lor (Z.shiftl (mem (bda + 20)) 8) (mem (bda + 19)) * 1024 in
    match mpsearch1 (u32 (p - 1024)) 1024 with Some mp => Some mp | None => last end.

(** The fields of [struct mp] and [struct mpconf]. *)
Definition mp_physaddr (mp : Z) : Z := read32 (mp + 4).
Definition mp_imcrp (mp : Z) : Z := mem (mp + 12).
Definition mpconf_size : Z := 44.
Definition conf_length (c : Z) : Z := read16 (c + 4).
Definition conf_version (c : Z) : Z := mem (c + 6).
Definition conf_lapicaddr (c : Z) : Z := read32 (c + 36).

(** The table, and the structure that points to it. *)
Definition mpconfig : option (Z * Z) :=
  match mpsearch with
  | None => None
  | Some mp =>
    if mp_physaddr mp =? 0 then None
    else
      let conf := mp_physaddr mp in
      if negb (sig_at conf "PCMP") then None
      else if negb (conf_version conf =? 1) && negb (conf_version conf =? 4) then None
      else if negb (sum conf (conf_length conf) =? 0) then None
      else Some (conf, mp)
  end.

Definition MPPROC : Z := 0.
Definition MPBUS : Z := 1.
Definition MPIOAPIC : Z := 2.
Definition MPIOINTR : Z := 3.
Definition MPLINTR : Z := 4.

(** The loop over the entries, which returns [ismp].  The [break] of an
    unknown entry leaves the [switch] only. *)
Fixpoint mpinit_loop (fuel : nat) (p e ismp : Z) : M mpst Z :=
  if negb (p <? e) then ret ismp
  else match fuel with
  | O => fun _ => Hang
  | S fuel =>
    if mem p =? MPPROC then
      let! n := reads ncpu in
      when (n <? NCPU)
        (modify (fun s => set_apicids (aset (apicids s) n (mem (p + 1))) s) ;;
         modify (fun s => set_ncpu (n + 1) s)) ;;
      mpinit_loop fuel (p + 20) e ismp
    else if mem p =? MPIOAPIC then
      modify (set_ioapicid (mem (p + 1))) ;;
      mpinit_loop fuel (p + 8) e ismp
    else if (mem p =? MPBUS) || (mem p =? MPIOINTR) || (mem p =? MPLINTR) then
      mpinit_loop fuel (p + 8) e ismp
    else mpinit_loop fuel p e 0
  end.

(** An entry takes at least 8 of at most 65535 bytes. *)
Definition mpinit_fuel (conf : Z) : nat := Z.to_nat (conf_length conf).

Definition mpinit : M mpst unit :=
  match mpconfig with
  | None => panic "Expect to run on an SMP"
  | Some (conf, mp) =>
    modify (set_lapic (conf_lapicaddr conf)) ;;
    let! ismp := mpinit_loop (mpinit_fuel conf) (conf + mpconf_size) (conf + conf_length conf) 1 in
    if ismp =? 0 then panic "Didn't find a suitable machine"
    else
      when (negb (mp_imcrp mp =? 0))
        (outb 34 112 ;; outb 35 (Z.lor (inb 35) 1))
  end.

(** ** Searching *)

Lemma search1_spec k p :
  match mpsearch1_loop k p with
  | Some q => exists j, 0 <= j < Z.of_nat k /\ q = p + 16 * j /\ mp_ok q = true /\ forall i, 0 <= i < j -> mp_ok (p + 16 * i) = false
  | None => forall i, 0 <= i < Z.of_nat k -> mp_ok (p + 16 * i) = false
  end.
Proof.
  revert p. induction k as [|k IH]; intros p; cbn [mpsearch1_loop]; [lia|]. destruct (mp_ok p) eqn:E.
  - exists 0. rewrite Z.mul_0_r, Z.add_0_r. split_and!; (done || lia).
  - specialize (IH (p + mp_size)). unfold mp_size in *. destruct (mpsearch1_loop k (p + 16)) as [q|].
    + destruct IH as (j & Hj & -> & Hok & Hmin). exists (j + 1). split_and!; [lia | lia | lia | | ].
      * by replace (p + 16 + 16 * j) with (p + 16 * (j + 1)) in * by lia.
      * intros i Hi. destruct (Z.eq_dec i 0) as [->|Hne]; [by rewrite Z.mul_0_r, Z.add_0_r|].
        replace (p + 16 * i) with (p + 16 + 16 * (i - 1)) by lia. apply Hmin. lia.
    + intros i Hi. destruct (Z.eq_dec i 0) as [->|Hne]; [by rewrite Z.mul_0_r, Z.add_0_r|].
      replace (p + 16 * i) with (p + 16 + 16 * (i - 1)) by lia. apply IH. lia.
Qed.

(** A structure is found when there is one in the area, and it is the first. *)
Lemma mpsearch1_spec a n :
  match mpsearch1 a (16 * n) with
  | Some q => exists j, 0 <= j < n /\ q = a + 16 * j /\ mp_ok q = true /\ forall i, 0 <= i < j -> mp_ok (a + 16 * i) = false
  | None => forall i, 0 <= i < n -> mp_ok (a + 16 * i) = false
  end.
Proof.
  unfold mpsearch1, mp_size. destruct (Z.lt_ge_cases n 0) as [Hn|Hn].
  - assert ((16 * n + 16 - 1) / 16 <= 0) as Hd by (apply Z.lt_succ_r, Z.div_lt_upper_bound; lia).
    replace (Z.to_nat ((16 * n + 16 - 1) / 16)) with O by lia. cbn. lia.
  - replace ((16 * n + 16 - 1) / 16) with n by (apply (Z.div_unique_pos _ _ _ 15); lia).
    pose proof (search1_spec (Z.to_nat n) a) as H. destruct (mpsearch1_loop (Z.to_nat n) a) as [q|].
    + destruct H as (j & Hj & H). exists j. split; [lia | exact H].
    + intros i Hi. apply H. lia.
Qed.

(** ** The entries of the table *)

Inductive entry :=
| Cpu (id : Z) (rest : list Z)
| Ioapic (id : Z) (rest : list Z)
| Other (t : Z) (rest : list Z).

Definition entry_bytes (x : entry) : list Z :=
  match x with Cpu id r => MPPROC :: id :: r | Ioapic id r => MPIOAPIC :: id :: r | Other t r => t :: r end.
Definition entry_ok (x : entry) : Prop :=
  match x with
  | Cpu _ r => length r = 18%nat
  | Ioapic _ r => length r = 6%nat
  | Other t r => length r = 7%nat /\ t ∈ [MPBUS; MPIOINTR; MPLINTR]
  end.

Definition cpu_ids (es : list entry) : list Z := omap (fun x => match x with Cpu id _ => Some id | _ => None end) es.
Definition ioapic_ids (es : list entry) : list Z := omap (fun x => match x with Ioapic id _ => Some id | _ => None end) es.

(** What an entry does. *)
Definition enter (s : mpst) (x : entry) : mpst :=
  match x with
  | Cpu id _ => if ncpu s <? NCPU then set_ncpu (ncpu s + 1) (set_apicids (aset (apicids s) (ncpu s) id) s) else s
  | Ioapic id _ => set_ioapicid id s
  | Other _ _ => s
  end.

Lemma bytes_cons a n : bytes a (S n) = mem a :: bytes (a + 1) n.
Proof.
  unfold bytes. cbn. rewrite Z.add_0_r. f_equal. rewrite <- seq_shift, <- list_fmap_compose. apply list_fmap_ext.
  intros _ k _. unfold compose. f_equal. lia.
Qed.

Lemma bytes_app a n m : bytes a (n + m) = bytes a n ++ bytes (a + Z.of_nat n) m.
Proof.
  revert a. induction n as [|n IH]; intros a; [by rewrite Z.add_0_r|]. cbn [plus]. rewrite !bytes_cons, IH. cbn. do 3 f_equal. lia.
Qed.

Lemma bytes_split a x l : bytes a (length (x ++ l)) = x ++ l -> bytes a (length x) = x /\ bytes (a + Z.of_nat (length x)) (length l) = l.
Proof.
  intros H. rewrite length_app, bytes_app in H. apply app_inj_1 in H as [? ?]; [done|]. unfold bytes. by rewrite length_fmap, length_seq.
Qed.

Lemma loop_entries es : forall p s fuel,
  Forall entry_ok es -> bytes p (length (es ≫= entry_bytes)) = es ≫= entry_bytes -> (length es <= fuel)%nat ->
  mpinit_loop fuel p (p + Z.of_nat (length (es ≫= entry_bytes))) 1 s = Ret 1 (fold_left enter es s).
Proof.
  induction es as [|x es IH]; intros p s fuel Hok Hb Hf.
  - cbn. rewrite Z.add_0_r. destruct fuel; cbn; by rewrite Z.ltb_irrefl.
  - apply Forall_cons in Hok as [Hx Hok]. destruct fuel as [|fuel]; [cbn in Hf; lia|]. cbn [length] in Hf.
    rewrite bind_cons in Hb |- *. apply bytes_split in Hb as [Hb1 Hb2]. rewrite length_app.
    assert (0 < Z.of_nat (length (entry_bytes x))) as Hpos by (destruct x; cbn; lia).
    cbn [mpinit_loop fold_left]. rewrite (proj2 (Z.ltb_lt _ _)) by lia. cbn [negb].
    pose proof (fun s => IH (p + Z.of_nat (length (entry_bytes x))) s fuel Hok Hb2 ltac:(lia)) as IH'. clear IH.
    replace (p + Z.of_nat (length (entry_bytes x) + length (es ≫= entry_bytes))) with
      (p + Z.of_nat (length (entry_bytes x)) + Z.of_nat (length (es ≫= entry_bytes))) by lia.
    destruct x as [id r|id r|t r]; cbn [entry_ok entry_bytes length] in *.
    + rewrite Hx in *. rewrite !bytes_cons in Hb1. injection Hb1 as E0 E1 _. rewrite E0. cbn [Z.eqb MPPROC].
      unfold bind at 1, reads at 1. rewrite E1. cbn [enter]. change (Z.of_nat (S (S 18))) with 20 in *.
      destruct (ncpu s <? NCPU) eqn:E; cbn [when]; unfold bind, modify, ret; apply IH'.
    + rewrite Hx in *. rewrite !bytes_cons in Hb1. injection Hb1 as E0 E1 _. rewrite E0. change (MPIOAPIC =? MPPROC) with false.
      rewrite Z.eqb_refl. unfold bind, modify. rewrite E1. change (Z.of_nat (S (S 6))) with 8 in *. apply IH'.
    + destruct Hx as [Hl Ht]. rewrite Hl in *. rewrite !bytes_cons in Hb1. injection Hb1 as E0 _. rewrite E0. change (Z.of_nat 8) with 8 in *.
      assert (t = MPBUS \/ t = MPIOINTR \/ t = MPLINTR) as Ht' by set_solver.
      destruct Ht' as [->|[->| ->]]; apply IH'.
Qed.

(** A table with an entry of any other type: [mpinit] never returns. *)
Lemma unknown_hangs fuel p e ismp s :
  p < e -> mem p <> MPPROC -> mem p <> MPIOAPIC -> mem p ∉ [MPBUS; MPIOINTR; MPLINTR] -> mpinit_loop fuel p e ismp s = Hang.
Proof.
  intros Hp H1 H2 H3. assert (mem p <> MPBUS /\ mem p <> MPIOINTR /\ mem p <> MPLINTR) as (H4 & H5 & H6) by set_solver.
  revert ismp. induction fuel as [|fuel IH]; intros ismp; cbn [mpinit_loop]; rewrite (proj2 (Z.ltb_lt _ _)) by done; [done|]. cbn [negb].
  rewrite !(proj2 (Z.eqb_neq _ _)) by done. apply IH.
Qed.

(** The processors are numbered in the order of the table, up to [NCPU]. *)
Lemma enter_all es : forall s, length (apicids s) = 8%nat -> 0 <= ncpu s <= NCPU ->
  let s' := fold_left enter es s in
  let ids := cpu_ids es in
  ncpu s' = Z.min NCPU (ncpu s + Z.of_nat (length ids)) /\
  (forall k, (k < 8)%nat -> apicids s' !! k = if decide (Z.to_nat (ncpu s) <= k < Z.to_nat (ncpu s) + length ids)%nat then ids !! (k - Z.to_nat (ncpu s))%nat else apicids s !! k) /\
  ioapicid s' = List.last (ioapic_ids es) (ioapicid s) /\ lapic s' = lapic s /\ outs s' = outs s.
Proof.
  induction es as [|x es IH]; intros s Hl Hn.
  - cbn [fold_left cpu_ids omap list_omap length]. split_and!; try done; [unfold NCPU in *; cbn; lia|]. intros k Hk. by rewrite decide_False by (cbn; lia).
  - cbn [fold_left]. destruct x as [id r|id r|t r]; [| |exact (IH s Hl Hn)].
    + destruct (Z.ltb_spec (ncpu s) NCPU) as [E|E].
      * assert (enter s (Cpu id r) = set_ncpu (ncpu s + 1) (set_apicids (aset (apicids s) (ncpu s) id) s)) as -> by (cbn; by rewrite (proj2 (Z.ltb_lt _ _)) by done).
        destruct (IH (set_ncpu (ncpu s + 1) (set_apicids (aset (apicids s) (ncpu s) id) s))) as (H1 & H2 & H3); [cbn; unfold aset; by rewrite length_insert | cbn; lia |].
        cbn [ncpu apicids ioapicid lapic outs set_ncpu set_apicids] in *. change (cpu_ids (Cpu id r :: es)) with (id :: cpu_ids es).
        cbn [length]. split_and!; [lia | | apply H3..]. intros k Hk. rewrite (H2 k Hk). unfold aset.
        replace (Z.to_nat (ncpu s + 1)) with (S (Z.to_nat (ncpu s))) by lia.
        destruct (decide (k = Z.to_nat (ncpu s))) as [->|Hne].
        -- rewrite decide_False by lia. rewrite decide_True by lia. rewrite Nat.sub_diag. cbn. apply list_lookup_insert_eq. lia.
        -- rewrite list_lookup_insert_ne by done. repeat case_decide; try lia; [|done].
           replace (k - Z.to_nat (ncpu s))%nat with (S (k - S (Z.to_nat (ncpu s)))) by lia. done.
      * assert (enter s (Cpu id r) = s) as -> by (cbn; by rewrite (proj2 (Z.ltb_ge _ _)) by done).
        destruct (IH s Hl Hn) as (H1 & H2 & H3). change (cpu_ids (Cpu id r :: es)) with (id :: cpu_ids es). cbn [length].
        split_and!; [lia | | apply H3..]. intros k Hk. rewrite (H2 k Hk). unfold NCPU in *. rewrite !decide_False by lia. done.
    + destruct (IH (enter s (Ioapic id r)) Hl Hn) as (H1 & H2 & H3 & H4). split_and!; [exact H1 | exact H2 | | apply H4..].
      rewrite H3. change (ioapic_ids (Ioapic id r :: es)) with (id :: ioapic_ids es). cbn [enter ioapicid set_ioapicid].
      clear. revert id. generalize (ioapicid s). induction (ioapic_ids es) as [|y l IHl]; intros d id; [done|]. cbn [List.last].
      destruct l; [done|]. apply IHl.
Qed.

(** The table at [c] holds the entries [es]. *)
Definition holds_table (c : Z) (es : list entry) : Prop :=
  Forall entry_ok es /\ conf_length c = mpconf_size + Z.of_nat (length (es ≫= entry_bytes)) /\
  bytes (c + mpconf_size) (length (es ≫= entry_bytes)) = es ≫= entry_bytes.

Lemma table_fuel c es : holds_table c es -> (length es <= mpinit_fuel c)%nat.
Proof.
  intros (Hok & Hl & _). unfold mpinit_fuel. rewrite Hl. unfold mpconf_size.
  assert (length es <= length (es ≫= entry_bytes))%nat; [|lia]. clear -Hok. induction Hok as [|x es Hx _ IH]; [done|].
  rewrite bind_cons, length_app. cbn [length]. destruct x; cbn [entry_bytes length]; lia.
Qed.

(** [mpinit] reads the table of the BIOS.  Without a valid table it
    panics.  With one that has entries of the known types it returns: the
    processors have the APIC ids of the table, in its order and at most
    [NCPU] of them, [ioapicid] is the id of the last I/O APIC and [lapic] is
    the address in the header. *)
Theorem mpinit_correct s :
  length (apicids s) = 8%nat -> ncpu s = 0 ->
  match mpconfig with
  | None => mpinit s = Panic "Expect to run on an SMP"
  | Some (c, mp) => forall es, holds_table c es ->
      exists s', mpinit s = Ret tt s' /\
        ncpu s' = Z.min NCPU (Z.of_nat (length (cpu_ids es))) /\
        (forall k id, (k < 8)%nat -> cpu_ids es !! k = Some id -> apicids s' !! k = Some id) /\
        ioapicid s' = List.last (ioapic_ids es) (ioapicid s) /\ lapic s' = conf_lapicaddr c
  end.
Proof.
  intros Hl Hn. unfold mpinit. destruct mpconfig as [[c mp]|]; [|done]. intros es Ht. pose proof (table_fuel c es Ht) as Hf.
  destruct Ht as (Hok & Hlen & Hb). set (s1 := set_lapic (conf_lapicaddr c) s).
  pose proof (loop_entries es (c + mpconf_size) s1 (mpinit_fuel c) Hok Hb Hf) as E.
  replace (c + mpconf_size + Z.of_nat (length (es ≫= entry_bytes))) with (c + conf_length c) in E by lia.
  destruct (enter_all es s1 Hl ltac:(cbn; unfold NCPU; lia)) as (H1 & H2 & H3 & H4 & _). cbn [ncpu apicids ioapicid lapic set_lapic s1] in H1, H2, H3, H4.
  rewrite Hn in *. unfold bind at 1, modify at 1. fold s1. rewrite (bind_ret _ _ _ _ _ E). change (1 =? 0) with false. cbn iota.
  assert (forall k id, (k < 8)%nat -> cpu_ids es !! k = Some id -> apicids (fold_left enter es s1) !! k = Some id) as H5.
  { intros k id Hk Hid. rewrite H2 by done. apply lookup_lt_Some in Hid as Hlt. rewrite decide_True by (cbn; lia). cbn. by rewrite Nat.sub_0_r. }
  destruct (negb (mp_imcrp mp =? 0)); cbn [when].
  - eexists. split; [unfold bind, outb, modify; reflexivity|]. done.
  - eexists. split; [reflexivity|]. done.
Qed.
End mp.

(** ** A machine with two processors *)

Definition demo_entries : list entry := [Cpu 0 (replicate 18 0); Cpu 1 (replicate 18 0); Ioapic 2 (replicate 6 0); Other 3 (replicate 7 0)].
Definition checked (k : nat) (l : list Z) : list Z := <[k := u8 (- foldr Z.add 0 l)]> l.
Definition demo_table : list Z :=
  checked 7 (str "PCMP" ++ le_enc 2 100 ++ [1; 0] ++ replicate 28 0 ++ le_enc 4 4276092928 ++ replicate 4 0 ++ (demo_entries ≫= entry_bytes)).
Definition demo_mp : list Z := checked 10 (str "_MP_" ++ le_enc 4 4096 ++ [1; 1; 0; 0] ++ replicate 4 0).
Definition demo_mem (a : Z) : Z :=
  if (983040 <=? a) && (a <? 983056) then aref demo_mp (a - 983040)
  else if (4096 <=? a) && (a <? 4196) then aref demo_table (a - 4096) else 0.

Lemma mpinit_correct_witness : exists s',
  mpinit demo_mem (fun _ => 0) (mk_mpst (replicate 8 0) 0 0 0 []) = Ret tt s' /\ ncpu s' = 2 /\ apicids s' !! 1%nat = Some 1 /\ ioapicid s' = 2.
Proof.
  pose proof (mpinit_correct demo_mem (fun _ => 0) (mk_mpst (replicate 8 0) 0 0 0 []) eq_refl eq_refl) as H.
  assert (mpconfig demo_mem = Some (4096, 983040)) as E by (vm_compute; reflexivity). rewrite E in H.
  destruct (H demo_entries) as (s' & H1 & H2 & H3 & H4 & _).
  - split_and!; [|vm_compute; reflexivity | vm_compute; reflexivity].
    apply Forall_cons; split; [reflexivity|]. apply Forall_cons; split; [reflexivity|]. apply Forall_cons; split; [reflexivity|].
    apply Forall_cons; split; [split; [reflexivity | right; left]|]. by apply Forall_nil.
  - exists s'. split; [exact H1|]. split; [exact H2|]. split; [apply H3; [lia | reflexivity] | exact H4].
Defined.
