(* ===== verification/Boot.v ===== *)
(** * The boot loader (bootmain.c)

    bootmain reads the kernel, an ELF file that starts at sector 1 of the
    disk, sector by sector through the ports of the controller, loads its
    segments and jumps to its entry.  The state is physical memory and the
    disk; the disk promises what the ATA protocol says of a read command. *)

From S2P Require Import Prelude Ide.

Definition SECTSIZE : Z := 512.

Record bst (D : Type) := mk_bst { pmem : Z -> Z; bdsk : D }.
Arguments mk_bst {D}.
Arguments pmem {D}.
Arguments bdsk {D}.

Section boot.
Context {D : Type} `{Ports D}.
(** How often the status is read before the model gives up. *)
Context (polls : nat).

Definition bout (port v : Z) : M (bst D) unit := modify (fun s => mk_bst (pmem s) (outb port (u8 v) (bdsk s))).
Definition bin_1f7 : M (bst D) Z := fun s => let '(r, d) := inb (bdsk s) in Ret r (mk_bst (pmem s) d).

(** [while((inb(0x1F7) & 0xC0) != 0x40)] *)
Definition disk_ready (r : Z) : bool := Z.land r 0xc0 =? 0x40.
Fixpoint waitdisk_loop (fuel : nat) : M (bst D) unit :=
  match fuel with
  | O => hang
  | S fuel => let! r := bin_1f7 in if disk_ready r then ret tt else waitdisk_loop fuel
  end.
Definition waitdisk : M (bst D) unit := waitdisk_loop polls.

(** The bytes [l] at [a]. *)
Definition store (a : Z) (l : list Z) (m : Z -> Z) : Z -> Z :=
  fun x => if (a <=? x) && (x <? a + Z.of_nat (length l)) then aref l (x - a) else m x.

Definition readsect (dst offset : Z) : M (bst D) unit :=
  waitdisk ;;
  bout 0x1f2 1 ;;
  bout 0x1f3 offset ;;
  bout 0x1f4 (Z.shiftr offset 8) ;;
  bout 0x1f5 (Z.shiftr offset 16) ;;
  bout 0x1f6 (Z.lor (Z.shiftr offset 24) 0xe0) ;;
  bout 0x1f7 0x20 ;;
  waitdisk ;;
  modify (fun s => let '(l, d) := insl (bdsk s) in mk_bst (store dst l (pmem s)) d).

(** The loop runs while [pa < epa]. *)
Fixpoint readseg_loop (fuel : nat) (pa epa offset : Z) : M (bst D) unit :=
  if negb (pa <? epa) then ret tt
  else match fuel with
  | O => hang
  | S fuel => readsect pa offset ;; readseg_loop fuel (u32 (pa + SECTSIZE)) epa (u32 (offset + 1))
  end.

Definition readseg (pa count offset : Z) : M (bst D) unit :=
  let epa := u32 (pa + count) in
  let pa := u32 (pa - offset mod SECTSIZE) in
  let offset := offset / SECTSIZE + 1 in
  readseg_loop (Z.to_nat (count / SECTSIZE + 2)) pa epa offset.

Definition word (a n : Z) (m : Z -> Z) : Z := le_dec ((fun k => m (a + Z.of_nat k)) <$> seq 0 (Z.to_nat n)).

Definition ELF_MAGIC : Z := 0x464c457f.
Definition scratch : Z := 0x10000.

(** [stosb(pa, 0, n)] *)
Definition stosb0 (a n : Z) : M (bst D) unit := modify (fun s => mk_bst (store a (replicate (Z.to_nat n) 0) (pmem s)) (bdsk s)).

(** The fields of [struct proghdr] at [ph]. *)
Definition ph_off (ph : Z) (m : Z -> Z) : Z := word (ph + 4) 4 m.
Definition ph_paddr (ph : Z) (m : Z -> Z) : Z := word (ph + 12) 4 m.
Definition ph_filesz (ph : Z) (m : Z -> Z) : Z := word (ph + 16) 4 m.
Definition ph_memsz (ph : Z) (m : Z -> Z) : Z := word (ph + 20) 4 m.

Fixpoint load_loop (n : nat) (ph : Z) : M (bst D) unit :=
  match n with
  | O => ret tt
  | S n =>
    let! m := reads pmem in
    let pa := ph_paddr ph m in
    readseg pa (ph_filesz ph m) (ph_off ph m) ;;
    let! m := reads pmem in
    when (ph_filesz ph m <? ph_memsz ph m) (stosb0 (u32 (pa + ph_filesz ph m)) (ph_memsz ph m - ph_filesz ph m)) ;;
    load_loop n (ph + 32)
  end.

(** The address that is called, or none when this is no ELF file. *)
Definition bootmain : M (bst D) (option Z) :=
  readseg scratch 4096 0 ;;
  let! m := reads pmem in
  if negb (word scratch 4 m =? ELF_MAGIC) then ret None
  else
    load_loop (Z.to_nat (word (scratch + 44) 2 m)) (scratch + word (scratch + 28) 4 m) ;;
    let! m := reads pmem in
    ret (Some (word (scratch + 24) 4 m)).

(** ** The disk *)

Inductive waits : nat -> D -> D -> Prop :=
| waits_ready n d r d' : inb d = (r, d') -> disk_ready r = true -> waits (S n) d d'
| waits_busy n d r d1 d' : inb d = (r, d1) -> disk_ready r = false -> waits n d1 d' -> waits (S n) d d'.

(** A read of sector [b]: the registers, then the command. *)
Definition command (b : Z) (d : D) : D :=
  outb 0x1f7 (u8 0x20) (outb 0x1f6 (u8 (Z.lor (Z.shiftr b 24) 0xe0)) (outb 0x1f5 (u8 (Z.shiftr b 16))
    (outb 0x1f4 (u8 (Z.shiftr b 8)) (outb 0x1f3 (u8 b) (outb 0x1f2 (u8 1) d))))).

(** When it is idle it becomes ready within [polls] reads of the status, and
    a read command gives the sector, again within [polls] reads. *)
Context (idle : D -> Prop) (sector : Z -> list Z).
Context (Hlen : forall b, length (sector b) = 512%nat).
Context (Hidle : forall d, idle d -> exists d', waits polls d d' /\ idle d').
Context (Hread : forall d b, idle d -> 0 <= b < 2 ^ 28 ->
  exists d1 d2, waits polls (command b d) d1 /\ insl d1 = (sector b, d2) /\ idle d2).

Lemma wait_run n s d' : waits n (bdsk s) d' -> waitdisk_loop n s = Ret tt (mk_bst (pmem s) d').
Proof.
  intros W. remember (bdsk s) as d eqn:Ed. revert s Ed. induction W as [n d r d' E R|n d r d1 d' E R W IH]; intros s ->;
    cbn [waitdisk_loop]; unfold bind, bin_1f7; rewrite E, R; [done|]. by rewrite IH.
Qed.

Lemma readsect_law s dst b :
  idle (bdsk s) -> 0 <= b < 2 ^ 28 ->
  exists d, readsect dst b s = Ret tt (mk_bst (store dst (sector b) (pmem s)) d) /\ idle d.
Proof.
  intros Hi Hb. destruct (Hidle _ Hi) as (d0 & W0 & Hi0). destruct (Hread d0 b Hi0 Hb) as (d1 & d2 & W1 & E1 & Hi2).
  exists d2. split; [|done]. unfold readsect, waitdisk. rewrite (bind_ret _ _ _ _ _ (wait_run _ _ _ W0)).
  unfold bout. do 6 (unfold bind at 1, modify at 1; cbn [pmem bdsk]).
  pose proof (wait_run polls (mk_bst (pmem s) (command b d0)) d1 W1) as Hw. rewrite (bind_ret _ _ _ _ _ Hw).
  unfold modify. cbn [pmem bdsk]. by rewrite E1.
Qed.

(** The bytes of the kernel file. *)
Definition image (o : Z) : Z := aref (sector (o / 512 + 1)) (o mod 512).

Lemma store_sector a b m x : store a (sector b) m x = if (a <=? x) && (x <? a + 512) then aref (sector b) (x - a) else m x.
Proof. unfold store. by rewrite Hlen. Qed.

Lemma readseg_loop_law k : forall fuel s pa epa b,
  idle (bdsk s) -> 0 <= b -> b + Z.of_nat k < 2 ^ 28 -> 0 <= pa -> pa + 512 * Z.of_nat k < 2 ^ 32 -> (k <= fuel)%nat ->
  (k = 0%nat /\ epa <= pa \/ pa + 512 * (Z.of_nat k - 1) < epa <= pa + 512 * Z.of_nat k) ->
  exists s', readseg_loop fuel pa epa b s = Ret tt s' /\ idle (bdsk s') /\
    forall x, pmem s' x = if (pa <=? x) && (x <? pa + 512 * Z.of_nat k) then image (512 * (b - 1) + (x - pa)) else pmem s x.
Proof.
  induction k as [|k IH]; intros fuel s pa epa b Hi Hb Hbk Hpa Hmax Hfuel Hepa.
  - exists s. assert (epa <= pa) as Hepa' by lia. split_and!; [|done|].
    + destruct fuel; cbn; by rewrite (proj2 (Z.ltb_ge pa epa)) by done.
    + intros x. destruct (Z.leb_spec pa x), (Z.ltb_spec x (pa + 512 * Z.of_nat 0)); cbn; done || lia.
  - destruct fuel as [|fuel]; [lia|]. cbn [readseg_loop]. rewrite (proj2 (Z.ltb_lt pa epa)) by lia. cbn [negb].
    destruct (readsect_law s pa b Hi ltac:(lia)) as (d & E & Hd). rewrite (bind_ret _ _ _ _ _ E). unfold SECTSIZE. rewrite !u32_small by lia.
    destruct (IH fuel (mk_bst (store pa (sector b) (pmem s)) d) (pa + 512) epa (b + 1)) as (s' & E' & Hi' & Hm); try done; try lia.
    exists s'. split_and!; [done | done |]. intros x. rewrite Hm. cbn [pmem]. rewrite store_sector.
    destruct (Z.leb_spec (pa + 512) x), (Z.ltb_spec x (pa + 512 + 512 * Z.of_nat k)), (Z.leb_spec pa x), (Z.ltb_spec x (pa + 512)),
      (Z.ltb_spec x (pa + 512 * Z.of_nat (S k))); cbn [andb]; try lia; try done.
    + f_equal. lia.
    + unfold image. assert ((512 * (b - 1) + (x - pa)) / 512 = b - 1) as -> by (symmetry; apply (Z.div_unique_pos _ _ _ (x - pa)); lia).
      assert ((512 * (b - 1) + (x - pa)) mod 512 = x - pa) as -> by (symmetry; apply (Z.mod_unique_pos _ _ (b - 1)); lia).
      do 2 f_equal. lia.
Qed.

(** [readseg] reads the bytes that were asked for, and writes nothing below
    the sector boundary before them. *)
Lemma readseg_law s pa count o :
  idle (bdsk s) -> 0 <= o -> 0 <= count -> o + count < 2 ^ 31 -> o mod 512 <= pa -> pa + count + 512 < 2 ^ 32 ->
  exists s', readseg pa count o s = Ret tt s' /\ idle (bdsk s') /\
    (forall x, x < pa - o mod 512 -> pmem s' x = pmem s x) /\ (forall x, 0 <= x < count -> pmem s' (pa + x) = image (o + x)).
Proof.
  intros Hi Ho Hc Hoc Hpa Hmax. unfold readseg, SECTSIZE. pose proof (Z.mod_pos_bound o 512 ltac:(lia)) as Hr. pose proof (Z.div_mod o 512 ltac:(lia)) as Hd.
  pose proof (Z.div_pos o 512 Ho ltac:(lia)). rewrite !u32_small by lia. set (r := o mod 512) in *. set (q := o / 512) in *.
  set (k := (count + r + 511) / 512). pose proof (Z.div_mod (count + r + 511) 512 ltac:(lia)) as Hk. fold k in Hk.
  pose proof (Z.mod_pos_bound (count + r + 511) 512 ltac:(lia)). pose proof (Z.div_mod count 512 ltac:(lia)). pose proof (Z.mod_pos_bound count 512 ltac:(lia)).
  destruct (readseg_loop_law (Z.to_nat k) (Z.to_nat (count / 512 + 2)) s (pa - r) (pa + count) (q + 1)) as (s' & E & Hi' & Hm); try done; try lia.
  exists s'. split_and!; [done | done | |].
  - intros x Hx. rewrite Hm. by rewrite (proj2 (Z.leb_gt (pa - r) x)) by lia.
  - intros x Hx. rewrite Hm. rewrite (proj2 (Z.leb_le (pa - r) _)), (proj2 (Z.ltb_lt _ _)) by lia. cbn [andb]. f_equal. lia.
Qed.

(** ** The kernel *)

Context (Hbytes : forall b, Forall byte (sector b)).

(** The first page of the file, where [bootmain] reads it. *)
Definition page (x : Z) : Z := image (x - scratch).
Definition phoff : Z := word (scratch + 28) 4 page.
Definition phnum : Z := word (scratch + 44) 2 page.
Definition ph (i : Z) : Z := scratch + phoff + 32 * i.
Definition paddr (i : Z) : Z := ph_paddr (ph i) page.
Definition off (i : Z) : Z := ph_off (ph i) page.
Definition filesz (i : Z) : Z := ph_filesz (ph i) page.
Definition memsz (i : Z) : Z := ph_memsz (ph i) page.

(** A kernel that can be booted: its program headers are in the first page;
    its segments are above it, in increasing order, with room for the part of
    the first sector that comes before a segment. *)
Record bootable : Prop := {
  k_magic : word scratch 4 page = ELF_MAGIC;
  k_table : phoff + 32 * phnum <= 4096;
  k_seg i : 0 <= i < phnum -> scratch + 4096 <= paddr i - off i mod 512 /\
    paddr i + Z.max (filesz i) (memsz i) + 512 < 2 ^ 32 /\ off i + filesz i < 2 ^ 31;
  k_order i j : 0 <= i < j -> j < phnum -> paddr i + Z.max (filesz i) (memsz i) <= paddr j - off j mod 512;
}.

(** Segment [i] is in memory. *)
Definition loaded (m : Z -> Z) (i : Z) : Prop :=
  forall x, 0 <= x < Z.max (filesz i) (memsz i) -> m (paddr i + x) = if x <? filesz i then image (off i + x) else 0.

Lemma word_ext a n m m' : (forall x, a <= x < a + n -> m x = m' x) -> word a n m = word a n m'.
Proof.
  intros E. unfold word. f_equal. apply list_fmap_ext. intros i k Hk. apply E.
  apply lookup_seq in Hk as [? ?]. lia.
Qed.

Lemma page_byte x : byte (page x).
Proof.
  unfold page, image, aref. destruct (sector _ !! Z.to_nat _) as [b|] eqn:E; [|done].
  pose proof (Hbytes ((x - scratch) / 512 + 1)) as Hf. rewrite Forall_lookup in Hf. by eapply Hf.
Qed.

Lemma word_range a n : 0 <= word a n page.
Proof.
  unfold word. induction (seq 0 (Z.to_nat n)) as [|k l IH]; [done|]. cbn. pose proof (page_byte (a + Z.of_nat k)) as Hb. unfold byte in Hb. lia.
Qed.

(** The headers as they are read from memory with the first page in place. *)
Definition page_at (m : Z -> Z) : Prop := forall x, scratch <= x < scratch + 4096 -> m x = page x.

Lemma headers m i : bootable -> page_at m -> 0 <= i < phnum ->
  ph_paddr (ph i) m = paddr i /\ ph_off (ph i) m = off i /\ ph_filesz (ph i) m = filesz i /\ ph_memsz (ph i) m = memsz i.
Proof.
  intros K Hm Hi. pose proof (k_table K). pose proof (word_range (scratch + 28) 4) as Hr. fold phoff in Hr.
  unfold ph_paddr, ph_off, ph_filesz, ph_memsz, paddr, off, filesz, memsz.
  split_and!; apply word_ext; intros x Hx; apply Hm; unfold ph in Hx; lia.
Qed.

Lemma segment_law s i :
  bootable -> idle (bdsk s) -> page_at (pmem s) -> 0 <= i < phnum ->
  exists s', (let! m := reads pmem in
              let pa := ph_paddr (ph i) m in
              readseg pa (ph_filesz (ph i) m) (ph_off (ph i) m) ;;
              let! m := reads pmem in
              when (ph_filesz (ph i) m <? ph_memsz (ph i) m) (stosb0 (u32 (pa + ph_filesz (ph i) m)) (ph_memsz (ph i) m - ph_filesz (ph i) m))) s = Ret tt s' /\
    idle (bdsk s') /\ loaded (pmem s') i /\ forall x, x < paddr i - off i mod 512 -> pmem s' x = pmem s x.
Proof.
  intros K Hi Hp Hr. destruct (headers _ i K Hp Hr) as (E1 & E2 & E3 & E4). destruct (k_seg K i Hr) as (K1 & K2 & K3).
  assert (scratch = 65536) as Hsc by done.
  assert (0 <= off i /\ 0 <= filesz i /\ 0 <= memsz i) as (R1 & R2 & R3) by (split_and!; apply word_range).
  pose proof (Z.mod_pos_bound (off i) 512 ltac:(lia)) as Hmod.
  destruct (readseg_law s (paddr i) (filesz i) (off i) Hi) as (s1 & Er & Hi1 & Hlow & Hget); try lia.
  assert (page_at (pmem s1)) as Hp1 by (intros x Hx; rewrite Hlow by lia; by apply Hp).
  destruct (headers _ i K Hp1 Hr) as (_ & _ & E3' & E4'). unfold bind at 1, reads at 1. rewrite E1, E2, E3. rewrite (bind_ret _ _ _ _ _ Er).
  unfold bind at 1, reads at 1. rewrite E3', E4'. rewrite u32_small by lia. destruct (Z.ltb_spec (filesz i) (memsz i)) as [Hz|Hz]; cbn [when].
  - eexists. split; [reflexivity|]. cbn [pmem bdsk]. unfold store. rewrite length_replicate, Z2Nat.id by lia. split_and!; [done | |].
    + intros x Hx. destruct (Z.ltb_spec x (filesz i)).
      * rewrite (proj2 (Z.leb_gt (paddr i + filesz i) _)) by lia. cbn [andb]. apply Hget. lia.
      * rewrite (proj2 (Z.leb_le (paddr i + filesz i) _)), (proj2 (Z.ltb_lt (paddr i + x) _)) by lia. cbn [andb]. unfold aref. rewrite lookup_replicate_2 by lia. reflexivity.
    + intros x Hx. rewrite (proj2 (Z.leb_gt (paddr i + filesz i) _)) by lia. cbn [andb]. by apply Hlow.
  - eexists. split; [reflexivity|]. split_and!; [done | | done]. intros x Hx. rewrite (proj2 (Z.ltb_lt x _)) by lia. apply Hget. lia.
Qed.

Lemma load_loop_law n : forall s i,
  bootable -> idle (bdsk s) -> page_at (pmem s) -> 0 <= i -> i + Z.of_nat n = phnum -> (forall j, 0 <= j < i -> loaded (pmem s) j) ->
  exists s', load_loop n (ph i) s = Ret tt s' /\ page_at (pmem s') /\ forall j, 0 <= j < phnum -> loaded (pmem s') j.
Proof.
  induction n as [|n IH]; intros s i K Hi Hp Hi0 Hn Hld.
  - exists s. split_and!; [done | done |]. intros j Hj. apply Hld. lia.
  - destruct (segment_law s i K Hi Hp ltac:(lia)) as (s1 & E1 & Hi1 & Hl1 & Hlow). destruct (k_seg K i ltac:(lia)) as (K1 & _ & _).
    destruct (IH s1 (i + 1) K Hi1) as (s2 & E2 & Hp2 & Hld2).
    + intros x Hx. rewrite Hlow by lia. by apply Hp.
    + lia.
    + lia.
    + intros j Hj. destruct (Z.eq_dec j i) as [->|Hne]; [done|]. intros x Hx. pose proof (k_order K j i ltac:(lia) ltac:(lia)).
      rewrite Hlow by lia. apply Hld; [lia | done].
    + exists s2. split_and!; [|done | done]. replace (ph (i + 1)) with (ph i + 32) in E2 by (unfold ph; lia).
      cbn [load_loop]. rewrite <- E2. clear -E1. unfold bind, reads in *. revert E1.
      destruct (readseg _ _ _ s) as [[] s'| | |]; try done. destruct (when _ _ s') as [[] s''| | |]; try done. by intros [= ->].
Qed.

(** The boot loader loads the kernel.  From an idle disk with a bootable
    kernel it returns the entry point of the ELF header, with every segment in
    memory: the bytes of the file at its physical address, and zeros behind
    them up to the size in memory, although [readseg] reads whole sectors and
    writes beyond both ends of what it is asked for. *)
Theorem bootmain_loads s :
  bootable -> idle (bdsk s) ->
  exists s', bootmain s = Ret (Some (word (scratch + 24) 4 page)) s' /\ forall i, 0 <= i < phnum -> loaded (pmem s') i.
Proof.
  intros K Hi. unfold bootmain. destruct (readseg_law s scratch 4096 0 Hi) as (s1 & E1 & Hi1 & _ & Hget); try done; try (unfold scratch; cbn; lia).
  assert (page_at (pmem s1)) as Hp.
  { intros x Hx. unfold page. rewrite <- (Z.add_0_l (x - scratch)), <- (Hget (x - scratch)) by lia. f_equal. lia. }
  rewrite (bind_ret _ _ _ _ _ E1). unfold bind at 1, reads at 1.
  assert (forall m a n, page_at m -> 0 <= a -> a + n <= 4096 -> word (scratch + a) n m = word (scratch + a) n page) as Hw.
  { intros m a n Hm Ha Han. apply word_ext. intros x Hx. apply Hm. lia. }
  pose proof (Hw _ 0 4 Hp ltac:(lia) ltac:(lia)) as Hm. rewrite !Z.add_0_r in Hm. rewrite Hm, (k_magic K), Z.eqb_refl. cbn [negb].
  rewrite (Hw _ 44 2 Hp), (Hw _ 28 4 Hp) by lia. fold phnum phoff.
  destruct (load_loop_law (Z.to_nat phnum) s1 0 K Hi1 Hp) as (s2 & E2 & Hp2 & Hld).
  { lia. } { pose proof (word_range (scratch + 44) 2) as Hr. fold phnum in Hr. lia. } { lia. }
  replace (ph 0) with (scratch + phoff) in E2 by (unfold ph; lia). rewrite (bind_ret _ _ _ _ _ E2).
  exists s2. split; [|done]. unfold bind, reads, ret. by rewrite (Hw _ 24 4 Hp2) by lia.
Qed.
End boot.
