(* ===== verification/BootDemo.v ===== *)
(** * The boot loader on a small disk *)

From S2P Require Import Prelude Bio Ide IdeSafe IdeDemo Boot.

#[local] Existing Instance demo_ports.

Definition w32 (z : Z) : list Z := le_enc 4 z.
Definition sect (l : list Z) : list Z := l ++ replicate (512 - length l) 0.

(** Two segments: 20 bytes of the file at 612 to 0x100064, followed by 20
    zeros, and 4 bytes at 1024 to 0x101000. *)
Definition demo_elf : list Z :=
  w32 ELF_MAGIC ++ replicate 20 0 ++ w32 0x10000c ++ w32 52 ++ replicate 12 0 ++ [2; 0] ++ replicate 6 0 ++
  w32 1 ++ w32 612 ++ w32 0 ++ w32 0x100064 ++ w32 20 ++ w32 40 ++ w32 0 ++ w32 0 ++
  w32 1 ++ w32 1024 ++ w32 0 ++ w32 0x101000 ++ w32 4 ++ w32 4 ++ w32 0 ++ w32 0.

Definition demo_kernel : demo_disk :=
  mk_demo (<[(0, 1) := sect demo_elf]> (<[(0, 2) := replicate 512 5]> {[(0, 3) := replicate 512 6]})) 0 0 0 0 None true.

Definition demo_sector (b : Z) : list Z := demo_content demo_kernel (0, b).
Definition demo_idle (d : demo_disk) : Prop := platter d = platter demo_kernel.

Lemma demo_sector_length b : length (demo_sector b) = 512%nat.
Proof.
  unfold demo_sector, demo_content. destruct (platter demo_kernel !! (0, b)) as [l|]; [destruct (decide _)|]; [done | apply length_replicate..].
Qed.

Lemma demo_platter_bytes : map_Forall (fun _ l => Forall byte l) (platter demo_kernel).
Proof.
  cbn [platter demo_kernel]. apply map_Forall_insert_2; [|apply map_Forall_insert_2; [|apply map_Forall_singleton]].
  - apply Forall_app. split; [|by apply Forall_replicate]. unfold byte. refine (bool_decide_unpack _ _). vm_compute. done.
  - by apply Forall_replicate.
  - by apply Forall_replicate.
Qed.

Lemma demo_sector_bytes b : Forall byte (demo_sector b).
Proof.
  unfold demo_sector, demo_content. destruct (platter demo_kernel !! (0, b)) as [l|] eqn:E; [destruct (decide _)|]; try by apply Forall_replicate.
  apply (demo_platter_bytes _ _ E).
Qed.

Lemma demo_waits d : waits 2 d (mk_demo (platter d) (r1f3 d) (r1f4 d) (r1f5 d) (r1f6 d) (mode d) false).
Proof.
  destruct d as [p a b c e m [|]].
  - eapply waits_busy; [reflexivity | done |]. by eapply waits_ready.
  - by eapply waits_ready.
Qed.

Lemma drive_bits h : 0 <= h < 16 -> Z.land (Z.shiftr (u8 (Z.lor h 0xe0)) 4) 1 = 0 /\ Z.land (u8 (Z.lor h 0xe0)) 0x0f = h.
Proof.
  intros Hh. assert (Forall (fun h => Z.land (Z.shiftr (u8 (Z.lor h 0xe0)) 4) 1 = 0 /\ Z.land (u8 (Z.lor h 0xe0)) 0x0f = h) (seqZ 0 16)) as Hf
    by (refine (bool_decide_unpack _ _); vm_compute; done).
  rewrite Forall_forall in Hf. apply Hf. apply elem_of_seqZ. lia.
Qed.

Lemma demo_command b d : 0 <= b < 2 ^ 28 -> mode (command b d) = Some (0, b) /\ platter (command b d) = platter d.
Proof.
  intros Hb. split; [|done]. unfold command. cbn [mode outb demo_ports Z.eqb Pos.eqb]. unfold demo_at. cbn [r1f3 r1f4 r1f5 r1f6].
  rewrite !(Z.shiftr_div_pow2 b) by lia. destruct (drive_bits (b / 2 ^ 24)) as [-> ->]; [Z.div_mod_to_equations; lia|].
  do 2 f_equal. unfold u8. Z.div_mod_to_equations. lia.
Qed.

Lemma demo_read d b : demo_idle d -> 0 <= b < 2 ^ 28 ->
  exists d1 d2, waits 2 (command b d) d1 /\ insl d1 = (demo_sector b, d2) /\ demo_idle d2.
Proof.
  intros Hi Hb. destruct (demo_command b d Hb) as [Hm Hp]. do 2 eexists. split_and!; [apply demo_waits | cbn -[command] |].
  - rewrite Hm. cbn [default]. unfold demo_content at 1. cbn [platter]. rewrite Hp, Hi. reflexivity.
  - unfold demo_idle in *. rewrite <- Hi, <- Hp. reflexivity.
Qed.

Lemma demo_bootable : bootable demo_sector.
Proof.
  assert (phnum demo_sector = 2) as Hn by (vm_compute; reflexivity). split.
  - vm_compute. reflexivity.
  - vm_compute. discriminate.
  - rewrite Hn. intros i Hi. assert (i = 0 \/ i = 1) as [->| ->] by lia; vm_compute; split_and!; congruence.
  - rewrite Hn. intros i j Hij Hj. assert (i = 0 /\ j = 1) as [-> ->] by lia. vm_compute. congruence.
Qed.

Definition demo_boot : bst demo_disk := mk_bst (fun _ => 0xcc) demo_kernel.

Lemma bootmain_loads_witness :
  exists s', bootmain 2 demo_boot = Ret (Some (word (scratch + 24) 4 (page demo_sector))) s' /\
    forall i, 0 <= i < phnum demo_sector -> loaded demo_sector (pmem s') i.
Proof.
  apply (bootmain_loads 2 demo_idle demo_sector demo_sector_length).
  - intros d Hi. eexists. split; [apply demo_waits | exact Hi].
  - exact demo_read.
  - exact demo_sector_bytes.
  - exact demo_bootable.
  - reflexivity.
Defined.

(** The entry is that of the header; the last byte of the file part and the
    zeros of the first segment, and the second segment, are in place. *)
Example demo_boot_runs :
  match bootmain 2 demo_boot with
  | Ret (Some e) s => (e, (fun x => pmem s x) <$> [0x100064; 0x100077; 0x100078; 0x10008b; 0x101000; 0x101003])
  | _ => (0, [])
  end = (0x10000c, [5; 5; 0; 0; 6; 6]).
Proof. vm_compute. reflexivity. Qed.
