(* ===== verification/Hw.v ===== *)
(** * Device registers

    The drivers of the interrupt controllers, the clock and the serial port
    read and write registers.  The state of their model is the history of
    these accesses, newest first; what a device answers to a read is a
    function [rd] of the history before it, with no other assumption than the
    ones a theorem names.  What was last written to a register is computed
    from the history. *)

From S2P Require Import Prelude.

Inductive event :=
| Out (port v : Z)          (** [outb] *)
| In (port : Z)             (** [inb] *)
| LapicW (i v : Z)          (** [lapic[i] = v] *)
| LapicR (i : Z)            (** [lapic[i]] *)
| IoapicW (o v : Z)         (** a word of [struct ioapic], by its offset *)
| IoapicR (o : Z)
| Store16 (a v : Z)         (** stores another processor reads *)
| Store32 (a v : Z)
| Memmove (a : Z) (l : list Z)
| Started (c : nat)         (** a read of [cpus[c].started] *)
| Cprintf (m : string).

Notation history := (list event).

Record hst := mk_hst {
  hist : history;
  lapic : Z;
  uart : bool;
}.

Definition log (e : event) (s : hst) : hst := mk_hst (e :: hist s) (lapic s) (uart s).
Definition emit (e : event) : M hst unit := modify (log e).
Definition outb (port v : Z) : M hst unit := emit (Out port (u8 v)).

Section reads.
Context (rd : history -> event -> Z).
Definition read (e : event) : M hst Z := fun s => Ret (rd (hist s) e) (log e s).
Definition inb (port : Z) : M hst Z := read (In port).
End reads.

(** [v] when [e] writes register [r] *)
Definition last_write (f : event -> option Z) : history -> option Z :=
  fix go h := match h with [] => None | e :: h => match f e with Some v => Some v | None => go h end end.

(** The state after the accesses [es], oldest first. *)
Definition logs (es : list event) (s : hst) : hst := mk_hst (rev es ++ hist s) (lapic s) (uart s).

(** [m] returns [a] from [s] after the accesses [es]. *)
Definition does {A} (m : M hst A) (s : hst) (es : list event) (a : A) : Prop := m s = Ret a (logs es s).

Lemma does_ret {A} (a : A) s : does (ret a) s [] a.
Proof. by destruct s. Qed.

Lemma does_emit e s : does (emit e) s [e] tt.
Proof. done. Qed.

Lemma does_read rd e s : does (read rd e) s [e] (rd (hist s) e).
Proof. done. Qed.

Lemma does_bind {A B} (m : M hst A) (k : A -> M hst B) s es a es' b :
  does m s es a -> does (k a) (logs es s) es' b ->
  does (bind m k) s (es ++ es') b.
Proof.
  unfold does. intros E1 E2. rewrite (bind_ret _ _ _ _ _ E1), E2. unfold logs. cbn [hist lapic uart]. by rewrite rev_app_distr, app_assoc.
Qed.

Lemma does_bind_some {A B} (m : M hst A) (k : A -> M hst B) s es a (f : nat -> list event) b :
  does m s es a -> (exists n, does (k a) (logs es s) (f n) b) ->
  exists n, does (bind m k) s (es ++ f n) b.
Proof. intros E [n En]. exists n. by eapply does_bind. Qed.

Lemma does_reads_some {A B} (g : hst -> A) (k : A -> M hst B) s (f : nat -> list event) b :
  (exists n, does (k (g s)) s (f n) b) -> exists n, does (bind (reads g) k) s (f n) b.
Proof. done. Qed.

Lemma does_when (b : bool) m s es : does m s es tt -> does (when b m) s (if b then es else []) tt.
Proof. destruct b; [done|]. intros _. apply does_ret. Qed.

(** Symbolic execution: each step contributes its accesses. *)
Ltac does_step :=
  lazymatch goal with
  | |- does (bind _ _) _ _ _ => eapply does_bind
  | |- does (ret _) _ _ _ => apply does_ret
  | |- does (emit _) _ _ _ => apply does_emit
  | |- does (read _ _) _ _ _ => apply does_read
  end.
Ltac does_steps := repeat does_step.

Lemma last_write_app f es h :
  last_write f (es ++ h) = match last_write f es with Some v => Some v | None => last_write f h end.
Proof. induction es as [|e es IH]; [done|]. cbn. by destruct (f e). Qed.

Lemma last_write_none f es h : Forall (fun e => f e = None) es -> last_write f (es ++ h) = last_write f h.
Proof. induction 1 as [|e es E _ IH]; [done|]. cbn. by rewrite E. Qed.

(** A loop that reads the same register until it shows what it waits for. *)
Definition again (e : event) (n : nat) (h : history) : history := Nat.iter n (cons e) h.

Lemma again_cons e n h : again e n (e :: h) = again e (S n) h.
Proof. symmetry. apply Nat.iter_succ_r. Qed.

Lemma rev_repeat (e : event) n h : rev (repeat e n) ++ h = again e n h.
Proof.
  revert h. induction n as [|n IH]; intros h; [done|]. cbn [repeat rev]. rewrite <- app_assoc, IH. apply again_cons.
Qed.
