(* ===== verification/Apic.v ===== *)
(** * The interrupt controllers (lapic.c without its clock, ioapic.c, picirq.c) *)

From S2P Require Import Prelude Trap Hw.

(** ** The local APIC *)

(** The registers, as indices of words. *)
Definition ID : Z := 0x0020 / 4.
Definition VER : Z := 0x0030 / 4.
Definition TPR : Z := 0x0080 / 4.
Definition EOI : Z := 0x00B0 / 4.
Definition SVR : Z := 0x00F0 / 4.
Definition ENABLE : Z := 0x00000100.
Definition ESR : Z := 0x0280 / 4.
Definition ICRLO : Z := 0x0300 / 4.
Definition INIT : Z := 0x00000500.
Definition STARTUP : Z := 0x00000600.
Definition DELIVS : Z := 0x00001000.
Definition ASSERT : Z := 0x00004000.
Definition LEVEL : Z := 0x00008000.
Definition BCAST : Z := 0x00080000.
Definition ICRHI : Z := 0x0310 / 4.
Definition TIMER : Z := 0x0320 / 4.
Definition X1 : Z := 0x0000000B.
Definition PERIODIC : Z := 0x00020000.
Definition PCINT : Z := 0x0340 / 4.
Definition LINT0 : Z := 0x0350 / 4.
Definition LINT1 : Z := 0x0360 / 4.
Definition ERROR : Z := 0x0370 / 4.
Definition MASKED : Z := 0x00010000.
Definition TICR : Z := 0x0380 / 4.
Definition TDCR : Z := 0x03E0 / 4.
Definition IRQ_ERROR : Z := 19.

Definition CMOS_PORT : Z := 0x70.

Section apic.
Context (rd : history -> event -> Z).
(** How often a status is read before the model gives up. *)
Context (polls : nat).

Definition lapicw (index value : Z) : M hst unit :=
  emit (LapicW index (u32 value)) ;; let! _ := read rd (LapicR ID) in ret tt.

(** [while(lapic[ICRLO] & DELIVS)] *)
Fixpoint wait_delivery (fuel : nat) : M hst unit :=
  match fuel with
  | O => hang
  | S fuel => let! v := read rd (LapicR ICRLO) in if Z.land v DELIVS =? 0 then ret tt else wait_delivery fuel
  end.

Definition lapicinit : M hst unit :=
  let! l := reads lapic in
  if l =? 0 then ret tt
  else
    lapicw SVR (Z.lor ENABLE (T_IRQ0 + IRQ_SPURIOUS)) ;;
    lapicw TDCR X1 ;;
    lapicw TIMER (Z.lor PERIODIC (T_IRQ0 + IRQ_TIMER)) ;;
    lapicw TICR 10000000 ;;
    lapicw LINT0 MASKED ;;
    lapicw LINT1 MASKED ;;
    let! v := read rd (LapicR VER) in
    when (4 <=? Z.land (Z.shiftr v 16) 0xff) (lapicw PCINT MASKED) ;;
    lapicw ERROR (T_IRQ0 + IRQ_ERROR) ;;
    lapicw ESR 0 ;;
    lapicw ESR 0 ;;
    lapicw EOI 0 ;;
    lapicw ICRHI 0 ;;
    lapicw ICRLO (Z.lor BCAST (Z.lor INIT LEVEL)) ;;
    wait_delivery polls ;;
    lapicw TPR 0.

Definition lapicid : M hst Z :=
  let! l := reads lapic in
  if l =? 0 then ret 0 else let! v := read rd (LapicR ID) in ret (Z.shiftr v 24).

Definition lapiceoi : M hst unit :=
  let! l := reads lapic in when (negb (l =? 0)) (lapicw EOI 0).

Definition microdelay (us : Z) : M hst unit := ret tt.

(** The warm reset vector is at [P2V(0x40<<4 | 0x67)]. *)
Definition WRV : Z := 0x80000000 + 0x467.

Definition lapicstartap (apicid addr : Z) : M hst unit :=
  outb CMOS_PORT 0xf ;;
  outb (CMOS_PORT + 1) 0x0a ;;
  emit (Store16 WRV 0) ;;
  emit (Store16 (WRV + 2) (u16 (Z.shiftr addr 4))) ;;
  lapicw ICRHI (Z.shiftl apicid 24) ;;
  lapicw ICRLO (Z.lor (Z.lor INIT LEVEL) ASSERT) ;;
  microdelay 200 ;;
  lapicw ICRLO (Z.lor INIT LEVEL) ;;
  microdelay 100 ;;
  for_ 2 0 (fun _ =>
    lapicw ICRHI (Z.shiftl apicid 24) ;;
    lapicw ICRLO (Z.lor STARTUP (Z.shiftr addr 12)) ;;
    microdelay 200).

(** ** The I/O APIC *)

Definition REG_ID : Z := 0x00.
Definition REG_VER : Z := 0x01.
Definition REG_TABLE : Z := 0x10.
Definition INT_DISABLED : Z := 0x00010000.

(** The offsets of [reg] and [data] in [struct ioapic]. *)
Definition REG : Z := 0.
Definition DATA : Z := 16.

Definition ioapicread (reg : Z) : M hst Z := emit (IoapicW REG reg) ;; read rd (IoapicR DATA).
Definition ioapicwrite (reg data : Z) : M hst unit := emit (IoapicW REG reg) ;; emit (IoapicW DATA (u32 data)).

(** The number of the last interrupt, read from the version register. *)
Definition maxintr (v : Z) : Z := Z.land (Z.shiftr v 16) 0xff.

Definition clear_entry (i : Z) : M hst unit :=
  ioapicwrite (REG_TABLE + 2 * i) (Z.lor INT_DISABLED (T_IRQ0 + i)) ;;
  ioapicwrite (REG_TABLE + 2 * i + 1) 0.

Definition ioapicinit (ioapicid : Z) : M hst unit :=
  let! v := ioapicread REG_VER in
  let! r := ioapicread REG_ID in
  let id := Z.shiftr r 24 in
  when (negb (id =? ioapicid)) (emit (Cprintf "ioapicinit: id isn't equal to ioapicid; not a MP
")) ;;
  for_ (Z.to_nat (maxintr v + 1)) 0 clear_entry.

Definition ioapicenable (irq cpunum : Z) : M hst unit :=
  ioapicwrite (REG_TABLE + 2 * irq) (T_IRQ0 + irq) ;;
  ioapicwrite (REG_TABLE + 2 * irq + 1) (Z.shiftl cpunum 24).

(** ** The 8259A controllers *)

Definition IO_PIC1 : Z := 0x20.
Definition IO_PIC2 : Z := 0xA0.
Definition picinit : M hst unit := outb (IO_PIC1 + 1) 0xff ;; outb (IO_PIC2 + 1) 0xff.

(** ** The local APIC after [lapicinit] *)

Definition to_lapic (i : Z) (e : event) : option Z :=
  match e with LapicW j v => if j =? i then Some v else None | _ => None end.
(** The word last written to register [i]. *)
Definition lreg (i : Z) : history -> option Z := last_write (to_lapic i).

(** A write to [ICRLO] sends an interrupt to the APIC in the top byte of
    [ICRHI]. *)
Fixpoint ipis (h : history) : list (Z * Z) :=
  match h with
  | [] => []
  | LapicW i v :: h => if i =? ICRLO then ipis h ++ [(Z.shiftr (default 0 (lreg ICRHI h)) 24, v)] else ipis h
  | _ :: h => ipis h
  end.

(** The controller delivers an interrupt within [polls] reads of its status. *)
Definition delivers : Prop :=
  forall h, exists k, (k < polls)%nat /\ Z.land (rd (again (LapicR ICRLO) k h) (LapicR ICRLO)) DELIVS = 0.

Lemma wait_delivery_run k : forall fuel s, (k < fuel)%nat ->
  Z.land (rd (again (LapicR ICRLO) k (hist s)) (LapicR ICRLO)) DELIVS = 0 ->
  exists n, does (wait_delivery fuel) s (repeat (LapicR ICRLO) n) tt.
Proof.
  induction k as [|k IH]; intros [|fuel] s Hk Hd; try lia; cbn [wait_delivery]; unfold does, bind, read.
  - cbn in Hd. rewrite Hd. by exists 1%nat.
  - destruct (Z.land _ _ =? 0); [by exists 1%nat|]. rewrite <- again_cons in Hd.
    destruct (IH fuel (log (LapicR ICRLO) s) ltac:(lia) Hd) as [n E]. exists (S n). unfold does in E. rewrite E.
    unfold logs. rewrite !rev_repeat. cbn [log hist lapic uart]. by rewrite again_cons.
Qed.

Lemma does_wait s : delivers -> exists n, does (wait_delivery polls) s (repeat (LapicR ICRLO) n) tt.
Proof. intros Hd. destruct (Hd (hist s)) as (k & Hk & E). by apply (wait_delivery_run k). Qed.

Lemma lreg_again i n h : lreg i (again (LapicR ICRLO) n h) = lreg i h.
Proof. by induction n. Qed.

(** [lapicw] as the accesses it makes. *)
Definition wr (i v : Z) : list event := [LapicW i (u32 v); LapicR ID].

Lemma does_lapicw i v s : does (lapicw i v) s (wr i v) tt.
Proof. reflexivity. Qed.

Lemma lapicinit_accesses s ver :
  delivers -> lapic s <> 0 -> (forall h, rd h (LapicR VER) = ver) ->
  exists n, does lapicinit s
    (wr SVR (Z.lor ENABLE (T_IRQ0 + IRQ_SPURIOUS)) ++ wr TDCR X1 ++ wr TIMER (Z.lor PERIODIC (T_IRQ0 + IRQ_TIMER)) ++
     wr TICR 10000000 ++ wr LINT0 MASKED ++ wr LINT1 MASKED ++ [LapicR VER] ++
     (if 4 <=? Z.land (Z.shiftr ver 16) 0xff then wr PCINT MASKED else []) ++ wr ERROR (T_IRQ0 + IRQ_ERROR) ++
     wr ESR 0 ++ wr ESR 0 ++ wr EOI 0 ++ wr ICRHI 0 ++ wr ICRLO (Z.lor BCAST (Z.lor INIT LEVEL)) ++
     repeat (LapicR ICRLO) n ++ wr TPR 0) tt.
Proof.
  intros Hd Hl Hv. unfold lapicinit. apply does_reads_some. rewrite (proj2 (Z.eqb_neq _ _) Hl).
  do 6 (simple eapply does_bind_some; [simple apply does_lapicw | cbv beta]). eapply does_bind_some; [apply does_read | cbv beta]. rewrite Hv.
  eapply does_bind_some; [apply does_when, does_lapicw | cbv beta]. do 6 (simple eapply does_bind_some; [simple apply does_lapicw | cbv beta]).
  match goal with |- exists n, does _ ?t _ _ => destruct (does_wait t Hd) as [n En] end.
  exists n. eapply does_bind; [exact En | apply does_lapicw].
Qed.

(** [lapicinit] returns and leaves the local APIC enabled, with no
    priority masked and both legacy lines masked; its timer interrupts
    periodically, after every 10,000,000 cycles of the bus, as trap number
    [T_IRQ0 + IRQ_TIMER]; errors and spurious interrupts have the trap
    numbers of their own.  The counter interrupt is masked when the
    version register says that there is one. *)
Theorem lapicinit_correct s ver :
  delivers -> lapic s <> 0 -> (forall h, rd h (LapicR VER) = ver) ->
  exists s', lapicinit s = Ret tt s' /\
    Forall (fun iv => lreg iv.1 (hist s') = Some iv.2)
      [(SVR, Z.lor ENABLE (T_IRQ0 + IRQ_SPURIOUS)); (TDCR, X1); (TIMER, Z.lor PERIODIC (T_IRQ0 + IRQ_TIMER)); (TICR, 10000000);
       (LINT0, MASKED); (LINT1, MASKED); (ERROR, T_IRQ0 + IRQ_ERROR); (TPR, 0)] /\
    (4 <= Z.land (Z.shiftr ver 16) 0xff -> lreg PCINT (hist s') = Some MASKED).
Proof.
  intros Hd Hl Hv. destruct (lapicinit_accesses s ver Hd Hl Hv) as [n E]. eexists. split; [exact E|]. cbn [logs hist].
  repeat rewrite ?rev_app_distr, <- ?app_assoc. rewrite rev_repeat.
  assert (forall i h1 h2, lreg i (h1 ++ again (LapicR ICRLO) n h2) = lreg i (h1 ++ h2)) as Ha.
  { intros i h1 h2. unfold lreg. rewrite !last_write_app. destruct (last_write _ h1); [done|]. apply lreg_again. }
  split.
  - repeat (apply Forall_cons; split; [rewrite Ha; destruct (4 <=? _); reflexivity|]). apply Forall_nil. done.
  - intros H4. rewrite Ha, (proj2 (Z.leb_le _ _) H4). reflexivity.
Qed.

(** ** Starting a processor *)

Definition startup (apicid addr : Z) : list (Z * Z) :=
  [(apicid, Z.lor (Z.lor INIT LEVEL) ASSERT); (apicid, Z.lor INIT LEVEL);
   (apicid, Z.lor STARTUP (addr / 4096)); (apicid, Z.lor STARTUP (addr / 4096))].

Definition startap_accesses (apicid addr : Z) : list event :=
    ([Out CMOS_PORT 0xf; Out (CMOS_PORT + 1) 0x0a; Store16 WRV 0; Store16 (WRV + 2) (u16 (Z.shiftr addr 4))] ++
     wr ICRHI (Z.shiftl apicid 24) ++ wr ICRLO (Z.lor (Z.lor INIT LEVEL) ASSERT) ++ wr ICRLO (Z.lor INIT LEVEL) ++
     wr ICRHI (Z.shiftl apicid 24) ++ wr ICRLO (Z.lor STARTUP (Z.shiftr addr 12)) ++
     wr ICRHI (Z.shiftl apicid 24) ++ wr ICRLO (Z.lor STARTUP (Z.shiftr addr 12))).

Lemma lapicstartap_accesses apicid addr s : does (lapicstartap apicid addr) s (startap_accesses apicid addr) tt.
Proof. reflexivity. Qed.

Lemma lapicstartap_ipis apicid addr s :
  0 <= apicid < 256 -> 0 <= addr < 2 ^ 20 ->
  ipis (hist (logs (startap_accesses apicid addr) s)) = ipis (hist s) ++ startup apicid addr.
Proof.
  intros Hid Ha. set (id := Z.shiftr (u32 (Z.shiftl apicid 24)) 24). set (v := u32 (Z.lor STARTUP (Z.shiftr addr 12))).
  trans ((((ipis (hist s) ++ [(id, Z.lor (Z.lor INIT LEVEL) ASSERT)]) ++ [(id, Z.lor INIT LEVEL)]) ++ [(id, v)]) ++ [(id, v)]).
  { reflexivity. }
  assert (id = apicid) as ->.
  { unfold id. rewrite Z.shiftl_mul_pow2, u32_small, Z.shiftr_div_pow2 by lia. apply Z.div_mul. lia. }
  assert (v = Z.lor STARTUP (addr / 4096)) as ->; [|by rewrite <- !app_assoc].
  unfold v. rewrite Z.shiftr_div_pow2 by lia. change (2 ^ 12) with 4096. apply u32_small. split; [apply Z.lor_nonneg; split; [done | apply Z.div_pos; lia]|].
  assert (0 <= addr / 4096 < 2 ^ 8) as Hd by (split; [apply Z.div_pos; lia | apply Z.div_lt_upper_bound; lia]).
  apply Z.log2_lt_cancel. rewrite Z.log2_lor by (unfold STARTUP; lia). pose proof (Z.log2_le_mono (addr / 4096) (2 ^ 8) ltac:(lia)) as Hlg.
  change (Z.log2 (2 ^ 8)) with 8 in Hlg. change (Z.log2 (2 ^ 32)) with 32. change (Z.log2 STARTUP) with 10. lia.
Qed.

(** ** The redirection table *)

Definition to_sel (e : event) : option Z :=
  match e with IoapicW o v => if o =? REG then Some v else None | _ => None end.
Definition io_sel : history -> option Z := last_write to_sel.

(** The word last written to register [r] through the window. *)
Fixpoint ioreg (r : Z) (h : history) : option Z :=
  match h with
  | [] => None
  | IoapicW o v :: h => if (o =? DATA) && bool_decide (io_sel h = Some r) then Some v else ioreg r h
  | _ :: h => ioreg r h
  end.

Lemma does_ioapicwrite r v s : does (ioapicwrite r v) s [IoapicW REG r; IoapicW DATA (u32 v)] tt.
Proof. reflexivity. Qed.

Lemma ioreg_write r v h r' : ioreg r' (IoapicW DATA v :: IoapicW REG r :: h) = if decide (r = r') then Some v else ioreg r' h.
Proof.
  cbn. destruct (decide (r = r')) as [->|Hne]; [by rewrite bool_decide_true|]. rewrite bool_decide_false; [done|]. congruence.
Qed.

(** The redirection entry of interrupt [i]. *)
Definition entry (h : history) (i : Z) : option Z * option Z := (ioreg (REG_TABLE + 2 * i) h, ioreg (REG_TABLE + 2 * i + 1) h).

Lemma entry_write i lo hi s :
  exists s', (ioapicwrite (REG_TABLE + 2 * i) lo ;; ioapicwrite (REG_TABLE + 2 * i + 1) hi) s = Ret tt s' /\
    forall j, entry (hist s') j = if decide (i = j) then (Some (u32 lo), Some (u32 hi)) else entry (hist s) j.
Proof.
  eexists. split; [eapply does_bind; apply does_ioapicwrite|]. intros j. unfold entry. cbn [logs hist rev app]. rewrite !ioreg_write.
  destruct (decide (i = j)) as [->|Hne].
  - rewrite decide_False by lia. by rewrite !decide_True.
  - by rewrite !decide_False by lia.
Qed.

Lemma clear_entries n : forall i s,
  exists s', for_ n i clear_entry s = Ret tt s' /\
    forall j, entry (hist s') j = if decide (i <= j < i + Z.of_nat n) then (Some (u32 (Z.lor INT_DISABLED (T_IRQ0 + j))), Some 0) else entry (hist s) j.
Proof.
  induction n as [|n IH]; intros i s.
  - exists s. split; [done|]. intros j. by rewrite decide_False by lia.
  - destruct (entry_write i (Z.lor INT_DISABLED (T_IRQ0 + i)) 0 s) as (s1 & E1 & H1). destruct (IH (i + 1) s1) as (s2 & E2 & H2).
    exists s2. cbn [for_]. unfold clear_entry at 1. rewrite (bind_ret _ _ _ _ _ E1). split; [done|]. intros j. rewrite H2, H1.
    destruct (decide (i = j)) as [->|Hne]; [rewrite decide_False, decide_True by lia; done|].
    destruct (decide (i + 1 <= j < i + 1 + Z.of_nat n)); [by rewrite decide_True by lia|]. by rewrite decide_False by lia.
Qed.

(** Calls of [ioapicenable], and the processor that ends up serving [i]. *)
Fixpoint enable_all (l : list (Z * Z)) : M hst unit :=
  match l with [] => ret tt | (irq, cpu) :: l => ioapicenable irq cpu ;; enable_all l end.
Definition served (i : Z) (l : list (Z * Z)) : option Z := snd <$> last (filter (fun c => c.1 = i) l).

Lemma enable_all_run l : forall s,
  exists s', enable_all l s = Ret tt s' /\
    forall j, entry (hist s') j = match served j l with Some c => (Some (u32 (T_IRQ0 + j)), Some (u32 (Z.shiftl c 24))) | None => entry (hist s) j end.
Proof.
  induction l as [|[i c] l IH]; intros s; [by exists s|]. cbn [enable_all].
  destruct (entry_write i (T_IRQ0 + i) (Z.shiftl c 24) s) as (s1 & E1 & H1). destruct (IH s1) as (s2 & E2 & H2).
  exists s2. unfold ioapicenable at 1. rewrite (bind_ret _ _ _ _ _ E1). split; [done|]. intros j. rewrite H2, H1.
  unfold served. rewrite filter_cons. cbn [fst]. destruct (decide (i = j)) as [->|Hne]; [|done].
  rewrite last_cons. by destruct (last (filter _ l)) as [[]|].
Qed.

Lemma maxintr_range v : 0 <= maxintr v < 256.
Proof. unfold maxintr. change 0xff with (Z.ones 8). rewrite Z.land_ones by lia. apply Z.mod_pos_bound. lia. Qed.

Lemma served_range l i c : Forall (fun c => 0 <= c.2 < 256) l -> served i l = Some c -> 0 <= c < 256.
Proof.
  intros Hl Hs. unfold served in Hs. apply fmap_Some in Hs as ([j d] & Hd & ->). rewrite last_lookup in Hd.
  apply list_elem_of_lookup_2, list_elem_of_filter in Hd as [_ Hd]. rewrite Forall_forall in Hl. apply (Hl _ Hd).
Qed.

(** After [ioapicinit] and any calls of [ioapicenable], an interrupt that
    was enabled is delivered, as trap number [T_IRQ0] plus its own, to the
    processor of the last call for it; every other interrupt of the
    controller is disabled. *)
Theorem ioapic_routes s ioapicid ver l i :
  (forall h, io_sel h = Some REG_VER -> rd h (IoapicR DATA) = ver) -> Forall (fun c => 0 <= c.2 < 256) l -> 0 <= i <= maxintr ver ->
  exists s', (ioapicinit ioapicid ;; enable_all l) s = Ret tt s' /\
    entry (hist s') i = match served i l with
                        | Some c => (Some (T_IRQ0 + i), Some (c * 2 ^ 24))
                        | None => (Some (Z.lor INT_DISABLED (T_IRQ0 + i)), Some 0)
                        end.
Proof.
  intros Hv Hl Hi. pose proof (maxintr_range ver) as Hm.
  assert (exists s0, (ioapicinit ioapicid ;; enable_all l) s = (for_ (Z.to_nat (maxintr ver + 1)) 0 clear_entry ;; enable_all l) s0) as (s0 & ->).
  { unfold ioapicinit, ioapicread, bind, emit, modify, read. cbn [log hist]. rewrite (Hv (IoapicW REG REG_VER :: hist s) eq_refl).
    unfold when. destruct (negb _); eexists; reflexivity. }
  destruct (clear_entries (Z.to_nat (maxintr ver + 1)) 0 s0) as (s1 & E1 & H1). destruct (enable_all_run l s1) as (s2 & E2 & H2).
  exists s2. rewrite (bind_ret _ _ _ _ _ E1). split; [done|]. rewrite H2, H1, decide_True by lia. unfold T_IRQ0, INT_DISABLED.
  destruct (served i l) as [c|] eqn:Es.
  - assert (0 <= c < 256) as Hc by (by eapply served_range). by rewrite Z.shiftl_mul_pow2, !u32_small by lia.
  - rewrite u32_small; [done|]. split; [apply Z.lor_nonneg; lia|]. apply Z.log2_lt_cancel. rewrite Z.log2_lor by lia.
    pose proof (Z.log2_le_mono (32 + i) (2 ^ 9) ltac:(lia)) as Hlg. change (Z.log2 (2 ^ 9)) with 9 in Hlg.
    change (Z.log2 (2 ^ 32)) with 32. change (Z.log2 65536) with 16. lia.
Qed.
End apic.

(** A controller that delivers at once. *)
Lemma delivers_possible : delivers (fun _ _ => 0) 1.
Proof. intros h. exists O. split; [lia | done]. Qed.
