(* ===== verification/Rtc.v ===== *)
(** * The real-time clock ([cmostime] of lapic.c, date.h) *)

From S2P Require Import Prelude Hw Apic.

Record rtcdate := mk_date { second : Z; minute : Z; hour : Z; day : Z; month : Z; year : Z }.

#[export] Instance rtcdate_eq_dec : EqDecision rtcdate.
Proof. solve_decision. Defined.

Definition CMOS_RETURN : Z := 0x71.
Definition CMOS_STATA : Z := 0x0a.
Definition CMOS_STATB : Z := 0x0b.
Definition CMOS_UIP : Z := Z.shiftl 1 7.
Definition SECS : Z := 0x00.
Definition MINS : Z := 0x02.
Definition HOURS : Z := 0x04.
Definition DAY : Z := 0x07.
Definition MONTH : Z := 0x08.
Definition YEAR : Z := 0x09.

(** [CONV] *)
Definition conv (x : Z) : Z := Z.shiftr x 4 * 10 + Z.land x 0xf.
Definition conv_date (t : rtcdate) : rtcdate :=
  mk_date (conv (second t)) (conv (minute t)) (conv (hour t)) (conv (day t)) (conv (month t)) (conv (year t)).

Section rtc.
Context (rd : history -> event -> Z).

Definition cmos_read (reg : Z) : M hst Z :=
  outb CMOS_PORT reg ;; microdelay 200 ;; inb rd CMOS_RETURN.

Definition fill_rtcdate : M hst rtcdate :=
  let! s := cmos_read SECS in
  let! mi := cmos_read MINS in
  let! h := cmos_read HOURS in
  let! d := cmos_read DAY in
  let! mo := cmos_read MONTH in
  let! y := cmos_read YEAR in
  ret (mk_date s mi h d mo y).

(** The loop that reads the clock until two readings agree. *)
Fixpoint read_twice (fuel : nat) : M hst rtcdate :=
  match fuel with
  | O => hang
  | S fuel =>
    let! t1 := fill_rtcdate in
    let! a := cmos_read CMOS_STATA in
    if negb (Z.land a CMOS_UIP =? 0) then read_twice fuel
    else
      let! t2 := fill_rtcdate in
      if decide (t1 = t2) then ret t1 else read_twice fuel
  end.

Definition cmostime (fuel : nat) : M hst rtcdate :=
  let! sb := cmos_read CMOS_STATB in
  let bcd := Z.land sb (Z.shiftl 1 2) =? 0 in
  let! t1 := read_twice fuel in
  let t1 := if bcd then conv_date t1 else t1 in
  ret (mk_date (second t1) (minute t1) (hour t1) (day t1) (month t1) (u32 (year t1 + 2000))).

(** ** The clock *)

(** Time is counted in readings of the clock. *)
Fixpoint now (h : history) : nat :=
  match h with [] => 0 | In p :: h => if p =? CMOS_RETURN then S (now h) else now h | _ :: h => now h end.
Definition to_cmos (e : event) : option Z := match e with Out p v => if p =? CMOS_PORT then Some v else None | _ => None end.
Definition cmos_sel : history -> option Z := last_write to_cmos.

Definition date_regs : list Z := [SECS; MINS; HOURS; DAY; MONTH; YEAR].

(** [date k r] is the value of field [r] at time [k], [binary] the number
    format of the chip.  The clock changes at most once while a date is read
    twice; and every now and then, within [calm] readings, there is a period
    without an update in which it can be read twice over. *)
Record clock_chip (clock date : nat -> Z -> Z) (binary : bool) (calm : nat) : Prop := {
  chip_read h : rd h (In CMOS_RETURN) = clock (now h) (default 0 (cmos_sel h));
  chip_mode t : Z.land (clock t CMOS_STATB) (Z.shiftl 1 2) = if binary then 4 else 0;
  chip_value t r : r ∈ date_regs -> 0 <= date t r < 100 /\
    clock t r = if binary then date t r else 16 * (date t r / 10) + date t r mod 10;
  chip_slow t : exists u, forall r k, r ∈ date_regs ->
    ((t <= k < u)%nat -> clock k r = clock t r) /\ ((u <= k < t + 13)%nat -> clock k r = clock (t + 12)%nat r);
  chip_calm t : exists t', (t <= t' <= t + calm)%nat /\ forall k, (t' <= k < t' + 26)%nat ->
    Z.land (clock k CMOS_STATA) CMOS_UIP = 0 /\ forall r, r ∈ date_regs -> clock k r = clock t' r;
}.

Context (clock date : nat -> Z -> Z) (binary : bool) (calm : nat).
Context (Hchip : clock_chip clock date binary calm).

Lemma cmos_read_run reg s : 0 <= reg < 256 ->
  exists s', cmos_read reg s = Ret (clock (now (hist s)) reg) s' /\ now (hist s') = S (now (hist s)).
Proof.
  intros Hr. exists (logs [Out CMOS_PORT (u8 reg); In CMOS_RETURN] s). split; [|reflexivity].
  unfold cmos_read, outb, microdelay, emit, modify, inb, read, bind, ret. rewrite (chip_read _ _ _ _ Hchip). cbn. unfold u8. by rewrite Z.mod_small by lia.
Qed.

(** What a reading that begins at time [t] finds. *)
Definition reading (t : nat) : rtcdate :=
  mk_date (clock t SECS) (clock (t + 1) MINS) (clock (t + 2) HOURS) (clock (t + 3) DAY) (clock (t + 4) MONTH) (clock (t + 5) YEAR).
Definition showing (t : nat) : rtcdate :=
  mk_date (clock t SECS) (clock t MINS) (clock t HOURS) (clock t DAY) (clock t MONTH) (clock t YEAR).

Lemma fill_run s :
  exists s', fill_rtcdate s = Ret (reading (now (hist s))) s' /\ now (hist s') = (now (hist s) + 6)%nat.
Proof.
  unfold fill_rtcdate.
  destruct (cmos_read_run SECS s) as (s1 & E1 & N1); [done|]. rewrite (bind_ret _ _ _ _ _ E1).
  destruct (cmos_read_run MINS s1) as (s2 & E2 & N2); [done|]. rewrite (bind_ret _ _ _ _ _ E2).
  destruct (cmos_read_run HOURS s2) as (s3 & E3 & N3); [done|]. rewrite (bind_ret _ _ _ _ _ E3).
  destruct (cmos_read_run DAY s3) as (s4 & E4 & N4); [done|]. rewrite (bind_ret _ _ _ _ _ E4).
  destruct (cmos_read_run MONTH s4) as (s5 & E5 & N5); [done|]. rewrite (bind_ret _ _ _ _ _ E5).
  destruct (cmos_read_run YEAR s5) as (s6 & E6 & N6); [done|]. rewrite (bind_ret _ _ _ _ _ E6).
  exists s6. split; [|lia]. unfold ret, reading. do 2 f_equal; f_equal; lia.
Qed.

(** A reading is what the clock shows when it does not change meanwhile. *)
Lemma reading_steady t k : (forall j r, (t <= j < t + 6)%nat -> r ∈ date_regs -> clock j r = clock k r) -> reading t = showing k.
Proof. intros Hs. unfold reading, showing. f_equal; apply Hs; (lia || set_solver). Qed.

Lemma untorn t : reading t = reading (t + 7) -> reading t = showing t \/ reading t = showing (t + 12).
Proof.
  intros Heq. destruct (chip_slow _ _ _ _ Hchip t) as [u Hu]. destruct (decide (u < t + 7)%nat).
  - right. rewrite Heq. apply reading_steady. intros j r Hj Hr. apply (proj2 (Hu r j Hr)). lia.
  - left. apply reading_steady. intros j r Hj Hr. apply (proj1 (Hu r j Hr)). lia.
Qed.

(** An attempt that begins in a calm period succeeds. *)
Lemma calm_reading t t' :
  (t' <= t <= t' + 12)%nat ->
  (forall k, (t' <= k < t' + 26)%nat -> Z.land (clock k CMOS_STATA) CMOS_UIP = 0 /\ forall r, r ∈ date_regs -> clock k r = clock t' r) ->
  Z.land (clock (t + 6) CMOS_STATA) CMOS_UIP = 0 /\ reading t = reading (t + 7).
Proof.
  intros Ht Hc. split; [apply Hc; lia|].
  trans (showing t'); [|symmetry]; apply reading_steady; intros j r Hj Hr; apply (Hc j); (lia || done).
Qed.

Lemma read_twice_run fuel : forall s t',
  (now (hist s) <= t' + 12)%nat -> (t' - now (hist s) < fuel)%nat ->
  (forall k, (t' <= k < t' + 26)%nat -> Z.land (clock k CMOS_STATA) CMOS_UIP = 0 /\ forall r, r ∈ date_regs -> clock k r = clock t' r) ->
  exists k s', read_twice fuel s = Ret (showing k) s' /\ (now (hist s) <= k < now (hist s'))%nat.
Proof.
  induction fuel as [|fuel IH]; intros s t' Hle Hf Hc; [lia|]. cbn [read_twice]. set (t := now (hist s)) in *.
  pose proof (fun H => calm_reading t t' H Hc) as Hcr.
  destruct (fill_run s) as (s1 & E1 & N1). rewrite (bind_ret _ _ _ _ _ E1). fold t in N1.
  destruct (cmos_read_run CMOS_STATA s1) as (s2 & E2 & N2); [done|]. rewrite (bind_ret _ _ _ _ _ E2), N1.
  fold t. destruct (Z.eqb_spec (Z.land (clock (t + 6) CMOS_STATA) CMOS_UIP) 0) as [Hu|Hu]; cbn [negb].
  - destruct (fill_run s2) as (s3 & E3 & N3). rewrite (bind_ret _ _ _ _ _ E3). replace (now (hist s2)) with (t + 7)%nat in * by lia.
    destruct (decide (reading t = reading (t + 7))) as [Heq|Hne].
    + destruct (untorn t Heq) as [-> | ->]; do 2 eexists; (split; [reflexivity | lia]).
    + destruct (IH s3 t') as (k & s' & E & Hk); [destruct (decide (t' <= t)%nat); [by destruct Hne; apply Hcr|]; lia | | done |].
      { destruct (decide (t' <= t)%nat); [by destruct Hne; apply Hcr|]. lia. }
      exists k, s'. split; [done | lia].
  - assert (t < t')%nat as Hlt by (destruct (decide (t' <= t)%nat); [by destruct Hu; apply Hcr | lia]).
    destruct (IH s2 t') as (k & s' & E & Hk); [lia | lia | done |]. exists k, s'. split; [done | lia].
Qed.

Lemma conv_bcd n : 0 <= n < 100 -> conv (16 * (n / 10) + n mod 10) = n.
Proof.
  intros Hn. unfold conv. change 0xf with (Z.ones 4). rewrite Z.land_ones, Z.shiftr_div_pow2 by lia. change (2 ^ 4) with 16.
  pose proof (Z.mod_pos_bound n 10 ltac:(lia)). pose proof (Z.div_mod n 10 ltac:(lia)).
  rewrite <- (Z.div_unique_pos _ 16 (n / 10) (n mod 10)), <- (Z.mod_unique_pos _ 16 (n / 10) (n mod 10)) by lia. lia.
Qed.

Lemma showing_date k :
  (if binary then showing k else conv_date (showing k)) =
  mk_date (date k SECS) (date k MINS) (date k HOURS) (date k DAY) (date k MONTH) (date k YEAR).
Proof.
  assert (forall r, r ∈ date_regs -> (if binary then clock k r else conv (clock k r)) = date k r) as Hv.
  { intros r Hr. destruct (chip_value _ _ _ _ Hchip k r Hr) as [Hd ->]. destruct binary; [done | by apply conv_bcd]. }
  rewrite <- !Hv by set_solver. by destruct binary.
Qed.

(** [cmostime] returns, with the date the clock showed at one moment
    during the call, and never with a mixture of fields from before and after
    a tick; in binary and in decimal mode. *)
Theorem cmostime_untorn s fuel :
  (calm < fuel)%nat ->
  exists k s', (now (hist s) <= k < now (hist s'))%nat /\
    cmostime fuel s = Ret (mk_date (date k SECS) (date k MINS) (date k HOURS) (date k DAY) (date k MONTH) (date k YEAR + 2000)) s'.
Proof.
  intros Hf. unfold cmostime. destruct (cmos_read_run CMOS_STATB s) as (s1 & E1 & N1); [done|]. rewrite (bind_ret _ _ _ _ _ E1).
  rewrite (chip_mode _ _ _ _ Hchip). destruct (chip_calm _ _ _ _ Hchip (now (hist s1))) as (t' & Ht & Hc).
  destruct (read_twice_run fuel s1 t') as (k & s' & E & Hk); [lia | lia | done |]. rewrite (bind_ret _ _ _ _ _ E).
  exists k, s'. split; [lia|]. replace ((if binary then 4 else 0) =? 0) with (negb binary) by by destruct binary.
  pose proof (showing_date k) as Hd. assert (YEAR ∈ date_regs) as Hy by set_solver.
  destruct (chip_value _ _ _ _ Hchip k YEAR Hy) as [Hyr _].
  destruct binary; cbn [negb]; rewrite Hd; unfold ret; cbn [second minute hour day month year]; rewrite u32_small by lia; done.
Qed.
End rtc.

(** ** A clock in decimal mode that ticks once, from 12:59:59 *)

Definition demo_date (k : nat) (r : Z) : Z :=
  if decide (k < 5)%nat then if r =? SECS then 59 else if r =? MINS then 59 else if r =? HOURS then 12 else if r =? DAY then 31 else if r =? MONTH then 1 else 18
  else if r =? SECS then 0 else if r =? MINS then 0 else if r =? HOURS then 13 else if r =? DAY then 31 else if r =? MONTH then 1 else 18.
Definition demo_clock (k : nat) (r : Z) : Z :=
  if r =? CMOS_STATA then 0x26 else if r =? CMOS_STATB then 2 else 16 * (demo_date k r / 10) + demo_date k r mod 10.
Definition demo_rd (h : history) (e : event) : Z :=
  match e with In p => if p =? CMOS_RETURN then demo_clock (now h) (default 0 (cmos_sel h)) else 0 | _ => 0 end.

Lemma demo_chip : clock_chip demo_rd demo_clock demo_date false 5.
Proof.
  split.
  - done.
  - done.
  - intros t r Hr. split; [|unfold date_regs in Hr; set_unfold in Hr; destruct_or! Hr; subst r; done].
    unfold demo_date. repeat case_match; lia.
  - intros t. exists 5%nat. intros r k _. unfold demo_clock, demo_date. split; intros Hk.
    + rewrite !(decide_True (P := (_ < 5)%nat)) by lia. done.
    + rewrite !(decide_False (P := (_ < 5)%nat)) by lia. done.
  - intros t. exists (Nat.max t 5). split; [lia|]. intros k Hk. split; [done|]. intros r _. unfold demo_clock, demo_date.
    rewrite !(decide_False (P := (_ < 5)%nat)) by lia. done.
Qed.

Lemma cmostime_untorn_witness :
  exists k s', (0 <= k < now (hist s'))%nat /\
    cmostime demo_rd 6 (mk_hst [] 0 false) =
      Ret (mk_date (demo_date k SECS) (demo_date k MINS) (demo_date k HOURS) (demo_date k DAY) (demo_date k MONTH) (demo_date k YEAR + 2000)) s'.
Proof. apply (cmostime_untorn demo_rd demo_clock demo_date false 5 demo_chip (mk_hst [] 0 false) 6). lia. Defined.

(** The tick falls into the first reading, which is not returned. *)
Example demo_time :
  match cmostime demo_rd 6 (mk_hst [] 0 false) with Ret t _ => t | _ => mk_date 0 0 0 0 0 0 end = mk_date 0 0 13 31 1 2018.
Proof. vm_compute. reflexivity. Qed.
