(* ===== verification/Uart.v ===== *)
(** * The serial port (uart.c)

    The code of uart.c access by access.  The chip has two sets of registers
    on the same ports, chosen by the top bit of its line control register.
    Seen through it, [uartputc] and [uartgetc] are the operations that the
    console is proved against. *)

From S2P Require Import Prelude Console Trap Hw Apic.

Definition COM1 : Z := 0x3f8.

Section uart.
Context (rd : history -> event -> Z).

(** [for(i = 0; i < 128 && !(inb(COM1+5) & 0x20); i++)] *)
Fixpoint wait_empty (k : nat) : M hst unit :=
  match k with
  | O => ret tt
  | S k => let! v := inb rd (COM1 + 5) in if Z.land v 0x20 =? 0 then microdelay 10 ;; wait_empty k else ret tt
  end.

Definition uartputc (c : Z) : M hst unit :=
  let! u := reads uart in
  if negb u then ret tt else wait_empty 128 ;; outb COM1 c.

Definition uartgetc : M hst Z :=
  let! u := reads uart in
  if negb u then ret (-1)
  else
    let! v := inb rd (COM1 + 5) in
    if Z.land v 0x01 =? 0 then ret (-1) else inb rd COM1.

Definition set_uart (s : hst) : hst := mk_hst (hist s) (lapic s) true.

Fixpoint uartputs (l : list Z) : M hst unit :=
  match l with [] => ret tt | c :: l => uartputc c ;; uartputs l end.

Definition uartinit : M hst unit :=
  outb (COM1 + 2) 0 ;;
  outb (COM1 + 3) 0x80 ;;
  outb (COM1 + 0) (115200 / 9600) ;;
  outb (COM1 + 1) 0 ;;
  outb (COM1 + 3) 0x03 ;;
  outb (COM1 + 4) 0 ;;
  outb (COM1 + 1) 0x01 ;;
  let! v := inb rd (COM1 + 5) in
  if v =? 0xff then ret tt
  else
    modify set_uart ;;
    let! _ := inb rd (COM1 + 2) in
    let! _ := inb rd (COM1 + 0) in
    ioapicenable IRQ_COM1 0 ;;
    uartputs (str "xv6..." ++ [10]).

(** ** The registers *)

Definition to_port (p : Z) (e : event) : option Z := match e with Out q v => if q =? p then Some v else None | _ => None end.

(** What was last written to a port.  The top bit of the line control register
    makes the divisor accessible in place of two other registers. *)
Definition port (p : Z) : history -> option Z := last_write (to_port p).
Abbreviation line_control := (port (COM1 + 3)).
Definition dlab (h : history) : bool := match line_control h with Some v => negb (Z.land v 0x80 =? 0) | None => false end.

(** What was last written to port [p] with [dlab] as given. *)
Fixpoint wrote (d : bool) (p : Z) (h : history) : option Z :=
  match h with
  | [] => None
  | Out q v :: h => if (q =? p) && eqb (dlab h) d then Some v else wrote d p h
  | _ :: h => wrote d p h
  end.

(** The bytes sent. *)
Fixpoint sent (h : history) : list Z :=
  match h with
  | [] => []
  | Out q v :: h => if (q =? COM1) && negb (dlab h) then sent h ++ [v] else sent h
  | _ :: h => sent h
  end.

(** Accesses that send [l] and change nothing else. *)
Record sends (l : list Z) (s s' : hst) : Prop := {
  sd_sent : sent (hist s') = sent (hist s) ++ l;
  sd_port : forall p, p <> COM1 -> port p (hist s') = port p (hist s);
  sd_regs : forall d p, d = true \/ p <> COM1 -> wrote d p (hist s') = wrote d p (hist s);
  sd_route : forall i, entry (hist s') i = entry (hist s) i;
  sd_globals : lapic s' = lapic s /\ uart s' = uart s;
}.

Lemma sd_dlab l s s' : sends l s s' -> dlab (hist s') = dlab (hist s).
Proof. intros H. unfold dlab. by rewrite (sd_port _ _ _ H). Qed.

Lemma sends_refl s : sends [] s s.
Proof. split; try done. by rewrite app_nil_r. Qed.

Lemma sends_trans l l' s s1 s2 : sends l s s1 -> sends l' s1 s2 -> sends (l ++ l') s s2.
Proof.
  intros [A1 A2 A3 A4 [A5 A6]] [B1 B2 B3 B4 [B5 B6]]. split; [| | | |split; congruence].
  - by rewrite B1, A1, app_assoc.
  - intros p H. by rewrite B2, A2.
  - intros d p H. by rewrite B3, A3.
  - intros i. by rewrite B4, A4.
Qed.

Lemma read_sends p s : sends [] s (log (In p) s).
Proof. split; try done. by rewrite app_nil_r. Qed.

Lemma wait_empty_run k : forall s, exists s', wait_empty k s = Ret tt s' /\ sends [] s s' /\ exists n, hist s' = again (In (COM1 + 5)) n (hist s).
Proof.
  induction k as [|k IH]; intros s; cbn [wait_empty]; [exists s; split; [done|]; split; [apply sends_refl | by exists O]|].
  unfold bind at 1, inb, read. destruct (Z.land _ _ =? 0).
  - destruct (IH (log (In (COM1 + 5)) s)) as (s' & E & Hs & n & Hn). exists s'. split; [exact E|]. split.
    + eapply (sends_trans [] []); [apply read_sends | exact Hs].
    + exists (S n). by rewrite Hn, <- again_cons.
  - exists (log (In (COM1 + 5)) s). split; [done|]. split; [apply read_sends | by exists 1%nat].
Qed.

Lemma uartputc_run c s :
  uart s = true -> dlab (hist s) = false ->
  exists s', uartputc c s = Ret tt s' /\ sends [u8 c] s s' /\ exists n, hist s' = Out COM1 (u8 c) :: again (In (COM1 + 5)) n (hist s).
Proof.
  intros Hu Hd. destruct (wait_empty_run 128 s) as (s1 & E & Hs & n & Hn). exists (log (Out COM1 (u8 c)) s1). split; [|split].
  - unfold uartputc, bind at 1, reads. rewrite Hu. cbn [negb]. by rewrite (bind_ret _ _ _ _ _ E).
  - eapply (sends_trans []); [exact Hs|]. pose proof (sd_dlab _ _ _ Hs) as Hd1. rewrite Hd in Hd1. split; try done.
    + cbn [log hist sent]. by rewrite Z.eqb_refl, Hd1.
    + intros p Hp. unfold port. cbn [log hist last_write to_port]. by rewrite (proj2 (Z.eqb_neq COM1 p)) by congruence.
    + intros d p H. cbn [log hist wrote]. rewrite Hd1. destruct H as [-> | Hp]; [by rewrite andb_false_r|].
      by rewrite (proj2 (Z.eqb_neq COM1 p)) by congruence.
  - exists n. cbn [log hist]. by rewrite Hn.
Qed.

Lemma uart_text_run l : forall s,
  uart s = true -> dlab (hist s) = false -> exists s', uartputs l s = Ret tt s' /\ sends (u8 <$> l) s s'.
Proof.
  induction l as [|c l IH]; intros s Hu Hd; cbn [uartputs]; [exists s; split; [done | apply sends_refl]|].
  destruct (uartputc_run c s Hu Hd) as (s1 & E1 & H1 & _).
  destruct (IH s1) as (s2 & E2 & H2); [by rewrite (proj2 (sd_globals _ _ _ H1)) | by rewrite (sd_dlab _ _ _ H1)|].
  exists s2. rewrite (bind_ret _ _ _ _ _ E1). split; [done|]. by apply (sends_trans [u8 c] _ s s1).
Qed.

(** [uartinit] returns.  Where there is a serial port (its status is not
    0xFF) it runs at 9600 baud with 8 data bits, one stop bit and no parity,
    the FIFO is off, an interrupt is raised for every byte received and
    routed to processor 0 as trap [T_IRQ0 + IRQ_COM1], and the greeting
    has been sent.  Where there is none, [uart] stays 0 and nothing is sent. *)
Theorem uartinit_correct s :
  exists s', uartinit s = Ret tt s' /\ dlab (hist s') = false /\
    Forall (fun x => wrote x.1.1 x.1.2 (hist s') = Some x.2)
      [(true, COM1, 12); (true, COM1 + 1, 0); (false, COM1 + 1, 1)] /\
    Forall (fun x => port x.1 (hist s') = Some x.2) [(COM1 + 2, 0); (COM1 + 3, 3); (COM1 + 4, 0)] /\
    exists h, if rd h (In (COM1 + 5)) =? 0xff then uart s' = uart s /\ sent (hist s') = sent (hist s)
      else uart s' = true /\ entry (hist s') IRQ_COM1 = (Some (T_IRQ0 + IRQ_COM1), Some 0) /\
           sent (hist s') = sent (hist s) ++ str "xv6..." ++ [10].
Proof.
  set (s1 := logs [Out (COM1 + 2) 0; Out (COM1 + 3) 0x80; Out COM1 12; Out (COM1 + 1) 0; Out (COM1 + 3) 3; Out (COM1 + 4) 0; Out (COM1 + 1) 1] s).
  set (s2 := log (In (COM1 + 5)) s1). destruct (rd (hist s1) (In (COM1 + 5)) =? 0xff) eqn:Ev.
  - exists s2. split; [|split; [reflexivity | split; [repeat (apply Forall_cons; split; [reflexivity|]); by apply Forall_nil | split; [repeat (apply Forall_cons; split; [reflexivity|]); by apply Forall_nil|]]]].
    + change (uartinit s) with ((if rd (hist s1) (In (COM1 + 5)) =? 0xff then ret tt else modify set_uart ;; let! _ := inb rd (COM1 + 2) in let! _ := inb rd (COM1 + 0) in
        ioapicenable IRQ_COM1 0 ;; uartputs (str "xv6..." ++ [10])) s2). by rewrite Ev.
    + exists (hist s1). by rewrite Ev.
  - destruct (entry_write IRQ_COM1 (T_IRQ0 + IRQ_COM1) (Z.shiftl 0 24) (log (In COM1) (log (In (COM1 + 2)) (set_uart s2)))) as (s3 & E3 & Hr).
    assert (s3 = logs [IoapicW REG 24; IoapicW DATA 36; IoapicW REG 25; IoapicW DATA 0] (log (In COM1) (log (In (COM1 + 2)) (set_uart s2)))) as ->
      by (by injection E3 as <-).
    destruct (uart_text_run (str "xv6..." ++ [10]) _ (eq_refl : uart (logs [IoapicW REG 24; IoapicW DATA 36; IoapicW REG 25; IoapicW DATA 0] (log (In COM1) (log (In (COM1 + 2)) (set_uart s2)))) = true) eq_refl)
      as (s4 & E4 & Hs). pose proof (sd_dlab _ _ _ Hs) as Hd. destruct Hs as [S1 S2 S3 S4 [S5 S6]].
    exists s4. split; [|split; [by rewrite Hd|split; [|split]]].
    + change (uartinit s) with ((if rd (hist s1) (In (COM1 + 5)) =? 0xff then ret tt else modify set_uart ;; let! _ := inb rd (COM1 + 2) in let! _ := inb rd (COM1 + 0) in
        ioapicenable IRQ_COM1 0 ;; uartputs (str "xv6..." ++ [10])) s2). rewrite Ev. exact E4.
    + repeat (apply Forall_cons; split; [cbn [fst snd]; rewrite S3; [reflexivity | first [by left | right; discriminate]]|]). by apply Forall_nil.
    + repeat (apply Forall_cons; split; [cbn [fst snd]; rewrite S2; [reflexivity | discriminate]|]). by apply Forall_nil.
    + exists (hist s1). rewrite Ev, S6, S4, Hr, S1. done.
Qed.

(** ** The port as the console sees it *)

(** A read of the data port takes a byte. *)
Definition takes (e : event) (h : history) : bool := match e with In p => (p =? COM1) && negb (dlab h) | _ => false end.

(** [queue] has the bytes received and not yet read; [arrive] those that come
    with an access. *)
Record receiver (queue arrive : history -> list Z) : Prop := {
  q_ready h : Z.land (rd h (In (COM1 + 5))) 0x01 = 0 <-> queue h = [];
  q_data h b l : dlab h = false -> queue h = b :: l -> rd h (In COM1) = b;
  q_step e h : queue (e :: h) = (if takes e h then tail (queue h) else queue h) ++ arrive (e :: h);
}.

Context (queue arrive : history -> list Z).
Hypothesis recv : receiver queue arrive.

Definition shown (s : hst) : Console.serial := Console.Serial (uart s) (sent (hist s)) (queue (hist s)).
Definition receive (l : list Z) (x : Console.serial) : Console.serial := Console.Serial (Console.uart x) (Console.tx x) (Console.rx x ++ l).

Lemma queue_other e h : takes e h = false -> exists l, queue (e :: h) = queue h ++ l.
Proof. intros He. rewrite (q_step _ _ recv), He. eauto. Qed.

Lemma queue_again n h : exists l, queue (again (In (COM1 + 5)) n h) = queue h ++ l.
Proof.
  induction n as [|n [l IH]]; [exists []; by rewrite app_nil_r|]. change (again (In (COM1 + 5)) (S n) h) with (In (COM1 + 5) :: again (In (COM1 + 5)) n h).
  destruct (queue_other (In (COM1 + 5)) (again (In (COM1 + 5)) n h)) as [l' ->]; [done|]. rewrite IH, <- app_assoc. eauto.
Qed.

(** Outside of [uartinit], the code of uart.c on the ports does what the
    operations of the console's serial port say, but for bytes that are
    received meanwhile. *)
Theorem uart_refines s :
  dlab (hist s) = false ->
  (forall c, exists s' x l, uartputc c s = Ret tt s' /\ dlab (hist s') = false /\
     Console.uartputc c (shown s) = Ret tt x /\ shown s' = receive l x) /\
  (exists r s' x l, uartgetc s = Ret r s' /\ dlab (hist s') = false /\
     Console.uartgetc (shown s) = Ret r x /\ shown s' = receive l x).
Proof.
  intros Hd. assert (forall x, receive [] x = x) as Hnil by (intros []; unfold receive; cbn; by rewrite app_nil_r).
  unfold Console.uartputc, Console.uartgetc. destruct (uart s) eqn:Hu.
  2: { unfold uartputc, uartgetc. split; [intros c; exists s, (shown s), [] | exists (-1), s, (shown s), []]; rewrite Hnil; unfold bind, reads; cbn [shown Console.uart]; by rewrite Hu. }
  split.
  - intros c. destruct (uartputc_run c s Hu Hd) as (s' & E & Hs & n & Hn). pose proof (sd_dlab _ _ _ Hs) as Hd'. destruct Hs as [Hsent _ _ _ [_ Hu']].
    destruct (queue_again n (hist s)) as [l1 E1]. destruct (queue_other (Out COM1 (u8 c)) (again (In (COM1 + 5)) n (hist s))) as [l2 E2]; [done|].
    exists s', (Console.Serial true (sent (hist s) ++ [u8 c]) (queue (hist s))), (l1 ++ l2).
    split; [exact E|]. split; [by rewrite Hd'|]. unfold shown, receive. cbn [Console.uart Console.tx Console.rx]. rewrite Hu. split; [done|].
    rewrite Hu', Hu, Hsent, Hn, E2, E1. by rewrite <- app_assoc.
  - cbn [shown Console.uart Console.rx Console.tx]. rewrite Hu. cbn [negb].
    destruct (queue_other (In (COM1 + 5)) (hist s)) as [l1 E1]; [done|].
    assert (uartgetc s = if Z.land (rd (hist s) (In (COM1 + 5))) 1 =? 0 then Ret (-1) (log (In (COM1 + 5)) s) else inb rd COM1 (log (In (COM1 + 5)) s)) as Eg.
    { unfold uartgetc, bind, reads. rewrite Hu. cbn. by destruct (_ =? 0). }
    destruct (queue (hist s)) as [|b l] eqn:Eq.
    + exists (-1), (log (In (COM1 + 5)) s), (shown s), l1. split_and!; [| | done |].
      * rewrite Eg. by rewrite (proj2 (q_ready _ _ recv (hist s)) Eq).
      * exact Hd.
      * unfold shown, receive. cbn [log hist uart Console.uart Console.tx Console.rx sent]. by rewrite E1, Eq.
    + set (h := In (COM1 + 5) :: hist s) in *. assert (dlab h = false) as Hdh by exact Hd.
      exists b, (log (In COM1) (log (In (COM1 + 5)) s)), (Console.Serial true (sent (hist s)) l), (l1 ++ arrive (In COM1 :: h)). split_and!; [| | done |].
      * rewrite Eg, (proj2 (Z.eqb_neq _ _)) by (intros Hz; apply (q_ready _ _ recv) in Hz; by rewrite Eq in Hz).
        unfold inb, read. cbn [log hist]. fold h. by rewrite (q_data _ _ recv h b (l ++ l1) Hdh E1).
      * exact Hd.
      * unfold shown, receive. cbn [log hist uart Console.uart Console.tx Console.rx sent]. fold h.
        rewrite (q_step _ _ recv). unfold takes. rewrite Hdh, E1, Hu, Z.eqb_refl. cbn [andb negb app tail]. by rewrite <- app_assoc.
Qed.
End uart.

(** A port on which nothing arrives. *)
Lemma receiver_possible : receiver (fun _ _ => 0) (fun _ => []) (fun _ => []).
Proof. split; try done. intros e h. by destruct (takes e h). Qed.
