(* ===== verification/Smp.v ===== *)
(** * Starting the other processors ([startothers] of main.c)

    Every processor but the one that booted is started by a sequence of
    interrupts; it begins to execute at 0x7000, where [startothers] has copied
    the code of entryother.S, which takes its stack, its page directory and
    the function to call from the three words below. *)

From S2P Require Import Prelude Proc Trap Kalloc Hw Apic.

Record smpst := mk_smpst { sk : kmem_t; sh : hst }.

Definition on_k {A} (m : M kmem_t A) : M smpst A := zoom sk (fun k s => mk_smpst k (sh s)) m.
Definition on_h {A} (m : M hst A) : M smpst A := zoom sh (fun h s => mk_smpst (sk s) h) m.

Section smp.
Context (rd : history -> event -> Z) (polls : nat).
(** The image of entryother.S, and the addresses of two symbols. *)
Context (entryother : list Z) (mpenter entrypgdir : Z).

(** [while(c->started == 0)] *)
Fixpoint wait_started (fuel : nat) (c : nat) : M hst unit :=
  match fuel with
  | O => hang
  | S fuel => let! v := read rd (Started c) in if v =? 0 then wait_started fuel c else ret tt
  end.

(** The body of the loop, for processor [c]; [me] is [mycpu()]. *)
Definition start_one (ids : list Z) (me : nat) (code : Z) (c : nat) : M smpst unit :=
  if (c =? me)%nat then ret tt
  else
    let! stack := on_k kalloc in
    on_h (emit (Store32 (code - 4) (u32 (stack + KSTACKSIZE)))) ;;
    on_h (emit (Store32 (code - 8) mpenter)) ;;
    let! pg := V2P entrypgdir in
    on_h (emit (Store32 (code - 12) pg)) ;;
    let! start := V2P code in
    on_h (lapicstartap rd (ids !!! c) start) ;;
    on_h (wait_started polls c).

Fixpoint start_each (ids : list Z) (me : nat) (code : Z) (cs : list nat) : M smpst unit :=
  match cs with [] => ret tt | c :: cs => start_one ids me code c ;; start_each ids me code cs end.

Definition startothers (ncpu : nat) (ids : list Z) (me : nat) : M smpst unit :=
  let! code := P2V 0x7000 in
  on_h (emit (Memmove code entryother)) ;;
  start_each ids me code (seq 0 ncpu).

(** ** What a processor finds when it starts *)

Definition CODE : Z := KERNBASE + 0x7000.

Definition to_word (a : Z) (e : event) : option Z := match e with Store32 b v => if b =? a then Some v else None | _ => None end.
Definition word (a : Z) : history -> option Z := last_write (to_word a).

Record start_args := mk_args { a_id : Z; a_page : Z; a_stack : option Z; a_entry : option Z; a_pgdir : option Z }.

(** The STARTUP interrupts: to which APIC, at which page it starts, and the
    words it finds there. *)
Fixpoint boots (h : history) : list start_args :=
  match h with
  | [] => []
  | LapicW i v :: h =>
      if (i =? ICRLO) && (Z.land v 0x700 =? STARTUP) then
        boots h ++ [mk_args (Z.shiftr (default 0 (lreg ICRHI h)) 24) (Z.land v 0xff) (word (CODE - 4) h) (word (CODE - 8) h) (word (CODE - 12) h)]
      else boots h
  | _ :: h => boots h
  end.

Definition args_of (id stack : Z) : start_args :=
  mk_args id 7 (Some (stack + KSTACKSIZE)) (Some mpenter) (Some (entrypgdir - KERNBASE)).

(** A processor that has been started says so within [polls] reads. *)
Definition wakes (ids : list Z) : Prop :=
  forall c id h, ids !! c = Some id -> id ∈ (a_id <$> boots h) ->
    exists k, (k < polls)%nat /\ rd (again (Started c) k h) (Started c) <> 0.

Lemma wait_started_run c k : forall fuel s, (k < fuel)%nat ->
  rd (again (Started c) k (hist s)) (Started c) <> 0 ->
  exists n, wait_started fuel c s = Ret tt (mk_hst (again (Started c) n (hist s)) (lapic s) (uart s)).
Proof.
  induction k as [|k IH]; intros [|fuel] s Hk Hd; try lia; cbn [wait_started]; unfold bind, read.
  - cbn in Hd. rewrite (proj2 (Z.eqb_neq _ _) Hd). by exists 1%nat.
  - destruct (Z.eqb_spec (rd (hist s) (Started c)) 0); [|by exists 1%nat]. rewrite <- again_cons in Hd.
    destruct (IH fuel (log (Started c) s) ltac:(lia) Hd) as [n E]. exists (S n). rewrite E. cbn [log hist lapic uart]. by rewrite again_cons.
Qed.

Lemma boots_again c n h : boots (again (Started c) n h) = boots h.
Proof. by induction n. Qed.

Hypothesis entrypgdir_range : KERNBASE <= entrypgdir < 2 ^ 32.

(** The accesses of [start_one] before it waits. *)
Definition start_accesses (id stack : Z) : list event :=
  [Store32 (CODE - 4) (stack + KSTACKSIZE); Store32 (CODE - 8) mpenter; Store32 (CODE - 12) (entrypgdir - KERNBASE)] ++ startap_accesses id 0x7000.

Lemma start_accesses_boots id stack s :
  0 <= id < 256 -> boots (hist (logs (start_accesses id stack) s)) = boots (hist s) ++ [args_of id stack; args_of id stack].
Proof.
  intros Hid. set (i := Z.shiftr (u32 (Z.shiftl id 24)) 24).
  trans ((boots (hist s) ++ [args_of i stack]) ++ [args_of i stack]); [reflexivity|].
  assert (i = id) as ->; [|by rewrite <- app_assoc].
  unfold i. rewrite Z.shiftl_mul_pow2, u32_small, Z.shiftr_div_pow2 by lia. apply Z.div_mul. lia.
Qed.

Lemma start_one_run kend ids me c ap stack free s :
  KERNBASE < kend <= KERNBASE + PHYSTOP -> inv kend (sk s) (stack :: free) -> wakes ids -> c <> me -> ids !! c = Some ap -> 0 <= ap < 256 ->
  exists s', start_one ids me CODE c s = Ret tt s' /\ inv kend (sk s') free /\
    boots (hist (sh s')) = boots (hist (sh s)) ++ [args_of ap stack; args_of ap stack] /\
    (forall e, e ∈ hist (sh s) -> e ∈ hist (sh s')).
Proof.
  intros Hk Hi Hw Hc Hid Hr. pose proof Hi as (_ & _ & _ & [Hg _]%Forall_cons & _).
  destruct (kalloc_spec kend Hk (sk s) _ Hi) as (k1 & E1 & Hi1 & _). cbn [head default tail] in E1, Hi1. unfold id in E1.
  assert (0 <= stack + KSTACKSIZE < 2 ^ 32) as Hst by (destruct Hg as (_ & ? & ?); unfold KSTACKSIZE, KERNBASE, PHYSTOP, PGSIZE in *; lia).
  set (s1 := logs (start_accesses ap stack) (sh s)).
  destruct (Hw c ap (hist s1) Hid) as (k & Hkp & Hs). { unfold s1. rewrite start_accesses_boots by done. rewrite fmap_app. set_solver. }
  destruct (wait_started_run c k polls s1 Hkp Hs) as [n En].
  exists (mk_smpst k1 (mk_hst (again (Started c) n (hist s1)) (lapic s1) (uart s1))). split_and!.
  - unfold start_one. rewrite (proj2 (Nat.eqb_neq c me) Hc). rewrite (bind_ret _ _ _ stack (mk_smpst k1 (sh s))) by (unfold on_k, zoom; by rewrite E1).
    rewrite u32_small by done. unfold V2P. rewrite (proj2 (Z.ltb_ge entrypgdir KERNBASE)) by lia. rewrite (u32_small (entrypgdir - KERNBASE)) by (unfold KERNBASE in *; lia).
    rewrite (list_lookup_total_correct _ _ _ Hid).
    assert (on_h (wait_started polls c) (mk_smpst k1 s1) = Ret tt (mk_smpst k1 (mk_hst (again (Started c) n (hist s1)) (lapic s1) (uart s1)))) as <-
      by (unfold on_h, zoom; cbn [sh sk]; by rewrite En). reflexivity.
  - exact Hi1.
  - cbn [sh hist]. rewrite boots_again. unfold s1. by apply start_accesses_boots.
  - intros e He. cbn [sh hist]. assert (e ∈ hist s1) as H1 by (unfold s1; cbn [logs hist]; apply elem_of_app; by right).
    clear -H1. induction n as [|n IH]; [done|]. by right.
Qed.

Definition others (me : nat) (cs : list nat) : list nat := filter (fun c => c <> me) cs.

Lemma others_all (me : nat) cs : Forall (fun c => c <> me) cs -> filter (fun c => c <> me) cs = cs.
Proof. induction 1 as [|c cs Hc _ IH]; [done|]. by rewrite filter_cons_True, IH. Qed.

(** Each processor is started by two interrupts. *)
Definition twice (ids : list Z) (cs : list nat) (stacks : list Z) : list start_args :=
  concat (zip_with (fun c stack => [args_of (ids !!! c) stack; args_of (ids !!! c) stack]) cs stacks).

Lemma start_each_run kend ids me cs : forall s free,
  KERNBASE < kend <= KERNBASE + PHYSTOP -> inv kend (sk s) free -> wakes ids -> Forall (fun i => 0 <= i < 256) ids ->
  Forall (fun c => (c < length ids)%nat) cs -> (length (others me cs) <= length free)%nat ->
  exists s', start_each ids me CODE cs s = Ret tt s' /\ inv kend (sk s') (drop (length (others me cs)) free) /\
    boots (hist (sh s')) = boots (hist (sh s)) ++ twice ids (others me cs) free /\ (forall e, e ∈ hist (sh s) -> e ∈ hist (sh s')).
Proof.
  unfold others. induction cs as [|c cs IH]; intros s free Hk Hi Hw Hids Hcs Hlen; cbn [start_each].
  - exists s. split_and!; try done. by rewrite app_nil_r.
  - apply Forall_cons in Hcs as [Hc Hcs]. rewrite filter_cons in *. destruct (decide (c <> me)) as [Hne|Heq].
    + destruct free as [|stack free]; [cbn in Hlen; lia|]. apply lookup_lt_is_Some in Hc as [ap Hap].
      destruct (start_one_run kend ids me c ap stack free s Hk Hi Hw Hne Hap (Forall_lookup_1 _ _ _ _ Hids Hap)) as (s1 & E1 & Hi1 & Hb1 & Hh1).
      destruct (IH s1 free Hk Hi1 Hw Hids Hcs) as (s2 & E2 & Hi2 & Hb2 & Hh2); [cbn in Hlen; lia|].
      exists s2. rewrite (bind_ret _ _ _ _ _ E1). split_and!; [done | done | | auto].
      rewrite Hb2, Hb1. unfold twice. cbn [zip_with concat]. by rewrite (list_lookup_total_correct _ _ _ Hap), <- app_assoc.
    + assert (start_one ids me CODE c s = Ret tt s) as E1 by (unfold start_one; by rewrite (proj2 (Nat.eqb_eq c me)) by (destruct (decide (c = me)); [done | by destruct Heq])).
      rewrite (bind_ret _ _ _ _ _ E1). by apply IH.
Qed.

(** [startothers] returns once every other processor is up.  Each of them has
    been started in turn, at 0x7000, where the code of entryother.S had been
    copied before; it found a page of its own as its stack, [mpenter]
    and the first page directory.  The pages are the first ones of the
    free list, which has to have enough of them: [startothers] does not look
    at the result of [kalloc]. *)
Theorem startothers_correct kend ncpu ids me s free :
  KERNBASE < kend <= KERNBASE + PHYSTOP -> inv kend (sk s) free -> wakes ids -> Forall (fun i => 0 <= i < 256) ids ->
  (ncpu <= length ids)%nat -> (me < ncpu)%nat -> (ncpu <= S (length free))%nat ->
  let n := (ncpu - 1)%nat in
  exists s', startothers ncpu ids me s = Ret tt s' /\ inv kend (sk s') (drop n free) /\
    Memmove CODE entryother ∈ hist (sh s') /\
    boots (hist (sh s')) = boots (hist (sh s)) ++ twice ids (others me (seq 0 ncpu)) (take n free) /\
    NoDup (take n free) /\ Forall (good_page kend) (take n free).
Proof.
  intros Hk Hi Hw Hids Hn Hme Hfree n.
  assert (length (others me (seq 0 ncpu)) = n) as Hl.
  { unfold others. assert (seq 0 ncpu = seq 0 me ++ me :: seq (S me) (ncpu - S me)) as ->.
    { change (me :: seq (S me) (ncpu - S me)) with (seq (0 + me) (S (ncpu - S me))). rewrite <- seq_app. f_equal. lia. }
    rewrite filter_app, filter_cons, decide_False by (intros H; by apply H).
    rewrite !others_all by (apply Forall_forall; intros c Hc%elem_of_seq; lia). rewrite length_app, !length_seq. lia. }
  set (s0 := mk_smpst (sk s) (log (Memmove CODE entryother) (sh s))).
  destruct (start_each_run kend ids me (seq 0 ncpu) s0 free Hk Hi Hw Hids) as (s1 & E1 & Hi1 & Hb & Hh).
  - apply Forall_forall. intros c Hc%elem_of_seq. lia.
  - rewrite Hl. lia.
  - rewrite Hl in Hi1. exists s1. split_and!; [exact E1 | exact Hi1 | apply Hh; by left | | |].
    + rewrite Hb. change (boots (hist (sh s0))) with (boots (hist (sh s))). f_equal. unfold twice. f_equal.
      rewrite <- (take_drop n free) at 1. rewrite <- (app_nil_r (others me (seq 0 ncpu))) at 1.
      rewrite zip_with_app by (rewrite Hl, length_take; lia). by rewrite app_nil_r.
    + destruct Hi as (_ & _ & Hnd & _). rewrite <- (take_drop n free) in Hnd. by apply NoDup_app in Hnd as [? _].
    + destruct Hi as (_ & _ & _ & Hg & _). by apply Forall_take.
Qed.
End smp.

(** A machine whose processors are up at once. *)
Lemma wakes_possible ids : wakes (fun _ _ => 1) 1 ids.
Proof. intros c id h _ _. exists O. split; [lia | done]. Qed.
